(* ===== verification/_CoqProject ===== *)
-Q . S2P
Prelude.v
Text.v
Json.v
Prog.v
Roles.v
Throttle.v
Sessions.v
Signing.v
Approver.v
Webauthn.v
Console.v
Lifecycle.v
Ingest.v
Sse.v
Case.v
Graph.v
JsonCode.v
Jcs.v
Command.v
Seal.v
Http.v
Oidc.v
Effects.v
Cloud.v
Delegation.v
Retained.v
Wireguard.v
Wardryx.v
Approvals.v
Unicode.v
Residency.v
Action.v
Untrusted.v
Grounding.v
References.v
Felyx.v
Provider.v
Slots.v
PolicyProof.v
BudgetProof.v
ProofRun.v
Remedy.v
Bench.v
Double.v
Store.v
Stats.v
Onboard.v
Remote.v
Feed.v
Dispatch.v
Mcp.v
Memory.v
Discover.v
Gateway.v
Verdryx.v
Admission.v
CloudStream.v
Layout.v
EvidencePack.v
Tokenfuse.v
Egress.v
Routines.v
Inventory.v
Gateways.v
Identity.v
CaseFile.v
Crypto.v
Money.v
