(* ===== verification/Prelude.v ===== *)
(** * The Genaryx console: a verification development

    Genaryx is a self-hosted console over the services ("planes") that run a
    company's AI agents: it shows what the agents did, and it acts - it stops
    an agent, changes a budget, blocks a user, closes a reservation, seals a
    case.  It is a Rust workspace of six crates under [src/crates]:

    - [signing]: ES256 signatures, the canonical request, approver statements;
    - [core]: the console's store, the ingestion of the producers' event files
      and the hash-linked journal of the console's own commands;
    - [connectors]: one typed client per plane;
    - [api]: the commands, each a function over the connectors and the store;
    - [copilot]: the assistant, which reads the planes and may only propose;
    - [web]: the HTTP server - sign-in, sessions, roles, passkey ceremonies -
      which is the one way in to the commands.

    A request enters [web] ([Console]), is tied to a session ([Sessions]),
    checked against the role table ([Roles]) and, for a privileged command,
    against a fresh passkey ceremony ([Webauthn]); it then runs one command of
    [api], which talks to planes through [connectors] and records what it did
    through [core]'s journal ([Command]).

    ** The files

    Shared: this file (results, machine integers, sorting, automation); [Text]
    (Rust strings); [Json] (values); [Prog] (handlers as programs, their
    interleavings, weakest preconditions); [Http] (capped reading of an
    answer); [Effects] (requests, clock, randomness and journal of a command);
    [JsonCode] (a concrete JSON reader and writer for witnesses); [Unicode];
    [Double] (sums and quotients of doubles).

    Access to the console:
    - [Roles] ([web/src/roles.rs]), [Throttle] ([throttle.rs]), [Sessions]
      ([auth.rs]), [Signing] ([signing/src/es256.rs], [lib.rs]), [Webauthn]
      ([webauthn.rs]), [Oidc] ([oidc.rs]);
    - [Console]: the handlers of [main.rs] with [config.rs] and [ctx.rs], as
      interleaved programs;
    - [Dispatch] ([dispatch.rs]): every command by its name, with its arguments
      and what it calls.

    What the console does to the planes:
    - [Lifecycle] ([web/src/lifecycle.rs]): block and unblock;
    - [Cloud] ([connectors/src/cloud_rest.rs], [urlpath.rs],
      [api/src/money/commands.rs]): signed budget changes and kills;
    - [Delegation] ([api/src/delegation]): cutting off an agent;
    - [Wardryx] ([connectors/src/wardryx.rs]) and [Approvals]
      ([api/src/policy], with [Approver], [signing/src/approver.rs]): deciding
      a held call;
    - [Retained] ([api/src/money/closure.rs], [retained.rs]): closing a
      reservation;
    - [Wireguard] ([connectors/src/wg_uapi.rs], [api/src/remote/wg_operator.rs]):
      roads into the console; [Remote] ([api/src/remote], [connectors/src/ssh.rs],
      [wg.rs]): the console's own road to a box, its files and its tail;
    - [Remedy] ([api/src/remedy]): what is offered for an incident, and taken;
    - [Onboard] ([api/src/onboard]): the files that enrol an agent.

    What the console keeps and shows:
    - [Ingest] ([core/src/ingest.rs], [conform.rs], [store.rs]), [Store] (its
      tables and queries), [Feed] ([api/src/bus], [events.rs], [replay.rs]),
      [Sse] ([connectors/src/sse_decoder.rs]), [Command] ([core/src/command.rs]);
    - [Case] ([api/src/case]), [Jcs] and [Seal] ([api/src/seal]), [Graph]
      ([core/src/graph.rs]), [Stats] ([api/src/stats]);
    - [Slots], [PolicyProof], [BudgetProof] and [ProofRun] ([api/src/proof]):
      the two proofs, their parsers and the children that run them;
    - [Discover] ([api/src/*/env.rs]): the environment each plane finds;
    - [Mcp] ([connectors/src/mcp_stdio.rs], [engram.rs]) and [Memory]
      ([api/src/memory]): tool calls over a child's pipes, and the children an
      agent's memory is read through.
    - [Gateway] ([connectors/src/gateway.rs], [api/src/credentials]): the
      gateway's keys, held runs and posture;
    - [Verdryx] ([connectors/src/verdryx.rs], [api/src/quality]): the store of
      evaluations and its panel;
    - [Admission] ([api/src/admission], [api/src/drills],
      [connectors/src/mockryx.rs]): a newcomer's run against its baseline, and
      the drills;
    - [CloudStream] ([connectors/src/cloud_sse.rs]): the worker that reads the
      Cloud's live stream through [Sse];
    - [Layout] ([core/src/layout.rs]): where a node of the graph is drawn;
    - [EvidencePack] ([core/src/evidence.rs], [connectors/src/evidence.rs],
      [api/src/evidence]): artifacts gathered into one signed archive;
    - [Tokenfuse] ([connectors/src/tokenfuse.rs],
      [copilot/src/tools/optimize.rs]): savings and costs read off printed text;
    - [Egress] ([api/src/egress]) and [Routines] ([api/src/routines]): what
      agents did on the web, and the recorded runs of the scheduled jobs;
    - [Identity] ([connectors/src/idryx.rs], [api/src/identity]) and [Crypto]
      ([connectors/src/qryx.rs], [api/src/crypto]): the identity and the
      cryptography planes; [CaseFile] ([api/src/case/commands.rs]): what a case
      gathers from the store and five planes;
    - [Inventory] ([connectors/src/cloud_cli.rs], [hetzner.rs]) and [Gateways]
      ([api/src/money/gateways.rs]): the servers of a cloud account, and the
      gateways the Cloud hears from;
    - [Money] ([api/src/money/commands.rs], [units.rs], [state.rs]): the pairing
      of the money plane and everything it shows.

    The copilot ([copilot/src]): [Residency] and [Provider] (which provider may
    be used, and what is sent to it), [Action], [Untrusted], [Grounding],
    [References], the loop that uses them, [Felyx], and its scoring, [Bench].

    ** How the code is modelled

    A function of the source is a function here, with its name where Rocq
    allows it, and the early returns and [?] of the source are the [let?],
    [let!], [ask!] and [try!] notations.  A [struct] is a record and an [enum]
    an inductive type.  Machine integers are [Z] with their wrap-around,
    saturation or check written out; a double is carried as its decimal digits
    ([Json]), with the few sums and quotients of the statistics in [Double].  A [HashMap] is an
    association list or a [gmap]; where its order shows, the order is a
    parameter.

    Code that other tasks can run in between is a program of [Prog]: an
    operation is what the source does under one lock or in one call to the
    outside, its answer is not known to the program, and a theorem about [wp]
    holds for every answer and every interleaving.  Code of other crates is a
    field of a class ([Primitives], [Envelope], [JsonText], [Jose], [Mac],
    [Curve], [CloudWire], [Schemas], [HttpClient], [Unicode], ...); what a proof needs of it
    is a class of laws stating its documented behaviour, and each such theorem
    has a witness over a concrete instance.

    A request handed to the HTTP client is one operation of [Effects], answered
    with the last response; what goes on the wire for it is the client's, and a
    client whose builder does not say otherwise follows redirects
    ([Effects.HttpClientLaws]).  A line handed to the journal is an operation
    too, answered by whether it was written: a theorem says "handed to" of the
    first and "acknowledged" of the second.

    Loops of the source are structural recursions where they can be; otherwise
    they carry fuel that is proved enough: the buffer's length for the event
    decoder ([Sse.feed_loop_fuel]), the iteration bound for the agent loop
    ([Felyx.loop_is_bounded]), the text's length for the JSON reader.

    ** What is proved

    - Nobody acts who may not: a privileged command ran only under a session
      of a role that may run it and a fresh ceremony over exactly its name and
      arguments, in every interleaving and across restarts; a ceremony is spent
      once; an accepted identity token was signed by a published key; a command
      runs with the row of its name and arguments of its types.
    - What is reported happened: a stop that is reported is a confirmed ban and
      a confirmed kill of every open run; a change at the Cloud is signed over
      the path and body sent and journaled whatever the answer; a decision is
      journaled and its statement verifies; a handed-out road was authorized
      first, at an address no peer had; a blocked unit's members are all denied;
      a shown tunnel and tail are those of the panel's environment, and so is
      its pin file while the directory of pins can be written and cleared.
    - What is kept is whole: every complete line of a producer is stored once
      whatever crashes; a pinned stream speaks for its own source only; the
      command journal is one hash chain; a stored pack is sealed and journaled;
      an evidence pack accounts for every source that was asked for and is
      journaled as what it is; retention deletes nothing of the days asked for.
    - What is shown is what is stored: the graph, the panel of counts, the
      profile and the stop list are functions of the table's rows, given in
      full.
    - A question reaches who it is about: a tool call is answered by its own
      response or not at all; an agent's memory is read through the server
      started for that agent; the pool of those servers is the list of the most
      recently read; a key is used with the URL it was found with, and the
      planes are of one environment when the newest descriptor serves them.
    - What is shown hides what must not be seen: the posture keeps names and
      not values; the text of a failed child loses every whole copy of the key
      it was given (a copy the capture cut off is shown, and is a finding).
    - What is measured is of what was asked: a baseline is of the newcomer's
      own run, a summary counts the rows of its run, the live stream hands over
      its events in order and its worker ends when it is dropped, a proof ends
      when the pipes of its tools close, and every node is drawn on the
      canvas.
    - What the copilot shows rests on what the tools returned: plane text
      reaches the model fenced and only on the own network, a proposal names
      what a tool called in this run returned or the operator asked for, and the
      loop ends.
    - Readers and writers agree: canonical JSON, event streams, approver
      statements, daemon states, path segments, remote paths, generated
      bundles, tool requests, tables of costs.

    The findings of the manifest are the places where a theorem of the intended
    shape fails; each has a concrete run in the file of its component.

    ** Not modelled, and why

    Input and output themselves: sockets, TLS, files, child processes, SQLite
    and the environment answer through parameters.  serde's derives are the
    classes of typed readers.  The planes' read-only views are one request and
    one typed reading each; the TypeScript application, tests, demo data and
    scripts are outside.  The parts
    left out are the doctor, the copilot's other read tools and the service that
    starts it: readers of a plane, or of a child, with no state of their own
    beyond a cached client. *)
From stdpp Require Export base tactics list gmap strings option sorting.
From Stdlib Require Export ZArith Lia Bool.

Open Scope Z_scope.

(** ** Fallible results: Rust's [Result<T, E>] *)

Inductive result (A E : Type) : Type :=
| Ok (a : A)
| Err (e : E).
Arguments Ok {A E} _.
Arguments Err {A E} _.

Declare Scope res_scope.
Delimit Scope res_scope with res.
Open Scope res_scope.

Definition rbind {A B E} (m : result A E) (k : A -> result B E) : result B E :=
  match m with Ok a => k a | Err e => Err e end.

Definition map_err {A E F} (f : E -> F) (m : result A E) : result A F :=
  match m with Ok a => Ok a | Err e => Err (f e) end.

Definition ok_or {A E} (o : option A) (e : E) : result A E :=
  match o with Some a => Ok a | None => Err e end.

Definition rok {A E} (m : result A E) : option A :=
  match m with Ok a => Some a | Err _ => None end.

Definition is_ok {A E} (m : result A E) : bool :=
  match m with Ok _ => true | Err _ => false end.

(** [let? x := m in k] is the source's [let x = m?; k]. *)
Notation "'let?' x ':=' m 'in' k" := (rbind m (fun x => k))
  (at level 10, x name, m at level 100, k at level 200) : res_scope.
Notation "'let?' ' p ':=' m 'in' k" := (rbind m (fun x => match x with p => k end))
  (at level 10, p pattern, m at level 100, k at level 200) : res_scope.

(** [let! x := o in k] is the source's [let x = o?; k] in a function that
    returns an [Option]. *)
Notation "'let!' x ':=' m 'in' k" := (match m with Some x => k | None => None end)
  (at level 10, x pattern, m at level 100, k at level 200) : res_scope.

Lemma rbind_Ok {A B E} (m : result A E) (k : A -> result B E) b :
  rbind m k = Ok b <-> exists a, m = Ok a /\ k a = Ok b.
Proof. destruct m; simpl; split; [eauto|intros (?&[=]&?); congruence|done|intros (?&[=]&?)]. Qed.

Lemma rbind_Err {A B E} (m : result A E) (k : A -> result B E) e :
  rbind m k = Err e <-> m = Err e \/ exists a, m = Ok a /\ k a = Err e.
Proof.
  destruct m; simpl; split.
  - eauto.
  - intros [[=]|(?&[=]&?)]; congruence.
  - intros [= ->]; auto.
  - intros [[= ->]|(?&[=]&?)]; done.
Qed.

Lemma pair_fst {A B} (p : A * B) a : p.1 = a -> p = (a, p.2).
Proof. by intros <-; destruct p. Qed.
Lemma triple_fst {A B C} (p : A * B * C) a : p.1.1 = a -> p = (a, p.1.2, p.2).
Proof. by intros <-; destruct p as [[??]?]. Qed.

Lemma rbind_assoc {A B C E} (m : result A E) (f : A -> result B E) (g : B -> result C E) :
  rbind (rbind m f) g = rbind m (fun a => rbind (f a) g).
Proof. by destruct m. Qed.

Lemma ok_or_Ok {A E} (o : option A) (e : E) a : ok_or o e = Ok a <-> o = Some a.
Proof. destruct o; simpl; split; congruence. Qed.

Lemma map_err_Ok {A E F} (f : E -> F) (m : result A E) a : map_err f m = Ok a <-> m = Ok a.
Proof. destruct m; simpl; split; congruence. Qed.

(** One step of a decision chain: a test that refuses. *)
Lemma if_Err {A E} (b : bool) (e : E) (k : result A E) v :
  (if b then Err e else k) = Ok v <-> b = false /\ k = Ok v.
Proof. destruct b; split; [done|by intros [? _]|auto|by intros [_ ?]]. Qed.

#[export] Instance result_eq_dec {A E} `{EqDecision A, EqDecision E} : EqDecision (result A E).
Proof. solve_decision. Defined.

(** ** Machine integers *)

Definition u32_max : Z := 4294967295.
Definition u64_max : Z := 18446744073709551615.
Definition i64_max : Z := 9223372036854775807.
Definition i64_min : Z := -9223372036854775808.

(** [a + b] of two [u64] in a release build: wraps. *)
Definition u64_add (a b : Z) : Z := (a + b) mod 18446744073709551616.
Definition u32_saturating_add (a b : Z) : Z := Z.min u32_max (a + b).
Definition in_i64 (a : Z) : bool := (i64_min <=? a) && (a <=? i64_max).
Definition i64_checked (a : Z) : option Z := if in_i64 a then Some a else None.
Definition i64_saturating (a : Z) : Z := Z.max i64_min (Z.min i64_max a).

Lemma i64_checked_Some a b :
  i64_checked a = Some b <-> a = b /\ i64_min <= a <= i64_max.
Proof. unfold i64_checked, in_i64. destruct (_ && _) eqn:E; split; [|intros [<- ?]|..]; try congruence; intros; lia || (split; [congruence|lia]). Qed.

Lemma u64_add_range a b : 0 <= u64_add a b <= u64_max.
Proof. unfold u64_add, u64_max. pose proof (Z.mod_pos_bound (a + b) 18446744073709551616). lia. Qed.

Lemma u64_add_small a b : 0 <= a -> 0 <= b -> a + b <= u64_max -> u64_add a b = a + b.
Proof. unfold u64_add, u64_max; intros; apply Z.mod_small; lia. Qed.

(** ** Booleans, lists and sorting *)

Create Rewrite HintDb bool_db.
#[export] Hint Rewrite andb_true_iff orb_true_iff negb_true_iff andb_false_iff orb_false_iff
  negb_false_iff Z.eqb_eq Z.ltb_lt Z.leb_le Z.eqb_neq Z.ltb_ge Z.leb_gt Z.gtb_lt Z.geb_le
  bool_decide_eq_true bool_decide_eq_false : bool_db.

(** Turn boolean tests in the context and the goal into propositions. *)
Ltac b2p := autorewrite with bool_db in *.

(** Split every conjunction and existential of the context. *)
Ltac dall := repeat match goal with
  | H : _ /\ _ |- _ => destruct H
  | H : exists _, _ |- _ => destruct H
  end.

(** Case analysis on every [match] and [if] of a hypothesis, closing the
    branches that contradict it. *)
Ltac cases_in H := repeat (case_match; simplify_eq/=; try discriminate H).
Ltac cases := repeat (case_match; simplify_eq/=; try congruence).

(** Take a hypothesis [chain = Ok v] apart: every [let?] gives the answer of
    its step, every refusing test gives its negation. *)
Ltac oks H := repeat lazymatch type of H with
  | rbind _ _ = Ok _ =>
      let x := fresh "x" in let Hx := fresh "Hx" in
      apply rbind_Ok in H as (x & Hx & H);
      try (apply map_err_Ok in Hx); try (apply ok_or_Ok in Hx)
  | (if _ then Err _ else _) = Ok _ =>
      let Hc := fresh "Hc" in apply if_Err in H as [Hc H]
  end.

Lemma forallb_Forall {A} (p : A -> bool) l : forallb p l = true <-> Forall (fun a => p a = true) l.
Proof. rewrite forallb_forall, List.Forall_forall. reflexivity. Qed.

Lemma NoDup_map_inj {A B} (f : A -> B) l a b :
  NoDup (map f l) -> a ∈ l -> b ∈ l -> f a = f b -> a = b.
Proof.
  induction l as [|c l IH]; simpl; [by intros _ ?%elem_of_nil|].
  intros [Hc Hl]%NoDup_cons Ha Hb E.
  assert (forall x, x ∈ l -> f x ∈ map f l) as Hin
    by (intros; apply list_elem_of_In, in_map; by apply list_elem_of_In).
  apply elem_of_cons in Ha as [->|Ha], Hb as [->|Hb]; try done.
  - destruct Hc. rewrite E. by apply Hin.
  - destruct Hc. rewrite <- E. by apply Hin.
  - by apply IH.
Qed.

Lemma existsb_Exists {A} (p : A -> bool) l : existsb p l = true <-> Exists (fun a => p a = true) l.
Proof. rewrite existsb_exists, List.Exists_exists. reflexivity. Qed.

Lemma in_filter {A} (p : A -> bool) l x : x ∈ List.filter p l <-> x ∈ l /\ p x = true.
Proof. rewrite !list_elem_of_In. apply filter_In. Qed.

Lemma StronglySorted_filter {A} (R : A -> A -> Prop) (p : A -> bool) l : StronglySorted R l -> StronglySorted R (List.filter p l).
Proof.
  induction 1 as [|a l Hs IH Ha]; simpl; [constructor|]. destruct (p a); [|done]. constructor; [done|].
  rewrite Forall_forall in *. intros y Hy. apply Ha. by apply in_filter in Hy as [? _].
Qed.

#[export] Instance filter_permutation {A} (p : A -> bool) : Proper (Permutation ==> Permutation) (List.filter p).
Proof. intros l k. induction 1; simpl; repeat case_match; eauto using Permutation. Qed.

(** A stable insertion sort: Rust's [sort_by] / [sort_by_key] on a total
    preorder given as a boolean [leb]. *)
Section Sort.
Context {A : Type} (leb : A -> A -> bool).

Fixpoint sinsert (x : A) (l : list A) : list A :=
  match l with
  | [] => [x]
  | y :: l' => if leb x y then x :: l else y :: sinsert x l'
  end.

Fixpoint isort (l : list A) : list A :=
  match l with [] => [] | x :: l' => sinsert x (isort l') end.

Lemma sinsert_perm x l : Permutation (sinsert x l) (x :: l).
Proof.
  induction l as [|y l IH]; simpl; [done|].
  destruct (leb x y); [done|]. rewrite IH. apply perm_swap.
Qed.

Lemma isort_perm l : Permutation (isort l) l.
Proof. induction l as [|x l IH]; simpl; [done|]. by rewrite sinsert_perm, IH. Qed.

Lemma elem_of_isort x l : x ∈ isort l <-> x ∈ l.
Proof. by rewrite (isort_perm l). Qed.

Lemma length_isort l : length (isort l) = length l.
Proof. by rewrite isort_perm. Qed.

Context (leb_total : forall x y, leb x y = true \/ leb y x = true).
Context (leb_trans : forall x y z, leb x y = true -> leb y z = true -> leb x z = true).

Lemma sinsert_sorted x l :
  StronglySorted (fun a b => leb a b = true) l ->
  StronglySorted (fun a b => leb a b = true) (sinsert x l).
Proof.
  induction 1 as [|y l Hs IH Hy]; simpl; [by repeat constructor|].
  destruct (leb x y) eqn:E.
  - constructor; [by constructor|]. constructor; [done|].
    eapply Forall_impl; [exact Hy|]. eauto.
  - constructor; [done|]. rewrite sinsert_perm. constructor; [|done].
    destruct (leb_total x y); congruence.
Qed.

Lemma isort_sorted l : StronglySorted (fun a b => leb a b = true) (isort l).
Proof. induction l; simpl; [constructor|by apply sinsert_sorted]. Qed.

Context (leb_antisym : forall x y, leb x y = true -> leb y x = true -> x = y).

(** Under a total order the sorted list is determined by the elements. *)
Lemma sorted_unique l1 l2 :
  StronglySorted (fun a b => leb a b = true) l1 ->
  StronglySorted (fun a b => leb a b = true) l2 ->
  Permutation l1 l2 -> l1 = l2.
Proof.
  intros H; revert l2; induction H as [|x l1 Hs1 IH H1]; intros l2 Hs2 Hp.
  { by apply Permutation_nil in Hp. }
  destruct Hs2 as [|y l2 Hs2 H2]; [by apply Permutation_sym, Permutation_nil in Hp|].
  assert (x = y) as ->.
  { assert (x ∈ y :: l2) as Hx by (rewrite <- Hp; left).
    assert (y ∈ x :: l1) as Hy by (rewrite Hp; left).
    apply elem_of_cons in Hx as [?|Hx]; [done|]. apply elem_of_cons in Hy as [?|Hy]; [done|].
    rewrite Forall_forall in H1, H2. by apply leb_antisym; [apply H1|apply H2]. }
  f_equal. apply IH; [done|]. by apply Permutation_cons_inv in Hp.
Qed.

Lemma isort_unique l1 l2 : Permutation l1 l2 -> isort l1 = isort l2.
Proof.
  intros Hp. apply sorted_unique; try apply isort_sorted. by rewrite !isort_perm.
Qed.
End Sort.

(** ** Finite runs of a step relation *)
Section Runs.
Context {St Ev : Type} (step : St -> Ev -> St -> Prop).

Inductive run : St -> list Ev -> St -> Prop :=
| run_nil s : run s [] s
| run_cons s e s1 es s2 : step s e s1 -> run s1 es s2 -> run s (e :: es) s2.

(** Rule induction: an invariant of every step is one of every run. *)
Lemma run_invariant (I : St -> Prop) :
  (forall s e s', I s -> step s e s' -> I s') ->
  forall s es s', run s es s' -> I s -> I s'.
Proof. intros Hstep s es s'. induction 1; eauto. Qed.

Lemma run_app s es1 s1 es2 s2 : run s es1 s1 -> run s1 es2 s2 -> run s (es1 ++ es2) s2.
Proof. induction 1; simpl; [done|]. intros. econstructor; eauto. Qed.

Lemma run_snoc s es e s2 : run s (es ++ [e]) s2 -> exists s1, run s es s1 /\ step s1 e s2.
Proof.
  revert s; induction es as [|e0 es IH]; intros s Hr; inversion Hr; subst; simpl in *.
  - exists s. split; [constructor|]. match goal with H : run _ [] _ |- _ => inversion H; by subst end.
  - destruct (IH _ ltac:(eassumption)) as (s3&?&?). exists s3. split; [by econstructor|done].
Qed.

Lemma run_app_inv s es1 es2 s2 : run s (es1 ++ es2) s2 -> exists s1, run s es1 s1 /\ run s1 es2 s2.
Proof.
  revert s; induction es1 as [|e es1 IH]; intros s Hr; [exists s; split; [constructor|done]|].
  inversion Hr; subst. destruct (IH _ ltac:(eassumption)) as (s3&?&?). exists s3. split; [by econstructor|done].
Qed.
End Runs.
