(* ===== verification/Text.v ===== *)
(** * Text: Rust strings as the console uses them

    A Rust [String] or [&str] is the list of its characters, each the number
    of its Unicode scalar value; its UTF-8 bytes are [str_bytes].  This file
    holds the string functions of the Rust standard library that the modelled
    code calls ([strip_prefix], [split_once], [trim], [lines], [parse], ...),
    each as an executable function, with the lemmas the components share. *)
From S2P Require Import Prelude.

Abbreviation str := (list Z).

(** The characters of an ASCII literal of the source: [#"agent://"]. *)
Fixpoint lit (s : string) : str :=
  match s with
  | EmptyString => []
  | String c s' => Z.of_N (Ascii.N_of_ascii c) :: lit s'
  end.
Notation "# s" := (lit s%string) (at level 8, format "# s").

(** ** UTF-8 *)

Definition is_scalar (c : Z) : bool :=
  ((0 <=? c) && (c <? 55296)) || ((57343 <? c) && (c <=? 1114111)).

(** [char::len_utf8]. *)
Definition utf8_len (c : Z) : Z :=
  if c <? 128 then 1 else if c <? 2048 then 2 else if c <? 65536 then 3 else 4.

(** [char::encode_utf8]. *)
Definition utf8_enc (c : Z) : list Z :=
  if c <? 128 then [c]
  else if c <? 2048 then [192 + c / 64; 128 + c mod 64]
  else if c <? 65536 then [224 + c / 4096; 128 + (c / 64) mod 64; 128 + c mod 64]
  else [240 + c / 262144; 128 + (c / 4096) mod 64; 128 + (c / 64) mod 64; 128 + c mod 64].

(** [str::as_bytes]. *)
Definition str_bytes (s : str) : list Z := flat_map utf8_enc s.
(** [str::len]: the length in bytes. *)
Definition byte_len (s : str) : Z := Z.of_nat (length (str_bytes s)).
(** [s.chars().count()]. *)
Definition chars_count (s : str) : Z := Z.of_nat (length s).

(** A string all of whose elements are scalar values: what a Rust [str] is. *)
Definition valid_str (s : str) : Prop := Forall (fun c => is_scalar c = true) s.

(** One character off the front of a byte string, or the number of bytes of
    the maximal ill-formed prefix, as [String::from_utf8_lossy] splits it. *)
Definition cont (b : Z) : bool := (128 <=? b) && (b <=? 191).

Definition utf8_step (bs : list Z) : option (option Z * nat) :=
  match bs with
  | [] => None
  | b0 :: r =>
      if b0 <? 128 then Some (Some b0, 1%nat)
      else if (194 <=? b0) && (b0 <=? 223) then
        match r with
        | b1 :: _ => if cont b1 then Some (Some ((b0 - 192) * 64 + (b1 - 128)), 2%nat)
                     else Some (None, 1%nat)
        | [] => Some (None, 1%nat)
        end
      else if (224 <=? b0) && (b0 <=? 239) then
        match r with
        | b1 :: r' =>
            if ((if b0 =? 224 then 160 else 128) <=? b1) && (b1 <=? (if b0 =? 237 then 159 else 191))
            then match r' with
                 | b2 :: _ =>
                     if cont b2
                     then Some (Some ((b0 - 224) * 4096 + (b1 - 128) * 64 + (b2 - 128)), 3%nat)
                     else Some (None, 2%nat)
                 | [] => Some (None, 2%nat)
                 end
            else Some (None, 1%nat)
        | [] => Some (None, 1%nat)
        end
      else if (240 <=? b0) && (b0 <=? 244) then
        match r with
        | b1 :: r' =>
            if ((if b0 =? 240 then 144 else 128) <=? b1) && (b1 <=? (if b0 =? 244 then 143 else 191))
            then match r' with
                 | b2 :: r'' =>
                     if cont b2 then
                       match r'' with
                       | b3 :: _ =>
                           if cont b3
                           then Some (Some ((b0 - 240) * 262144 + (b1 - 128) * 4096
                                            + (b2 - 128) * 64 + (b3 - 128)), 4%nat)
                           else Some (None, 3%nat)
                       | [] => Some (None, 3%nat)
                       end
                     else Some (None, 2%nat)
                 | [] => Some (None, 2%nat)
                 end
            else Some (None, 1%nat)
        | [] => Some (None, 1%nat)
        end
      else Some (None, 1%nat)
  end.

(** U+FFFD, the replacement character. *)
Definition replacement : Z := 65533.

Fixpoint lossy (fuel : nat) (bs : list Z) : str :=
  match fuel with
  | O => []
  | S fuel =>
      match utf8_step bs with
      | None => []
      | Some (c, n) => default replacement c :: lossy fuel (drop n bs)
      end
  end.

(** [String::from_utf8_lossy]; every step takes at least one byte, so the
    length of the input is fuel enough. *)
Definition from_utf8_lossy (bs : list Z) : str := lossy (length bs) bs.

Lemma utf8_step_enc c bs :
  is_scalar c = true -> utf8_step (utf8_enc c ++ bs) = Some (Some c, length (utf8_enc c)).
Proof.
  intros H. unfold is_scalar in H. unfold utf8_enc.
  assert (0 <= c <= 1114111 /\ (c < 55296 \/ 57343 < c)) as [Hc Hd] by (b2p; lia).
  pose proof (Z.div_mod c 64 ltac:(lia)). pose proof (Z.mod_pos_bound c 64 ltac:(lia)).
  pose proof (Z.div_mod (c / 64) 64 ltac:(lia)). pose proof (Z.mod_pos_bound (c / 64) 64 ltac:(lia)).
  assert (c / 4096 = c / 64 / 64) as E1 by (rewrite Z.div_div by lia; done).
  pose proof (Z.div_mod (c / 4096) 64 ltac:(lia)). pose proof (Z.mod_pos_bound (c / 4096) 64 ltac:(lia)).
  assert (c / 262144 = c / 4096 / 64) as E2 by (rewrite Z.div_div by lia; done).
  destruct (Z.ltb_spec c 128); [|destruct (Z.ltb_spec c 2048); [|destruct (Z.ltb_spec c 65536)]];
    cbn [utf8_step app length]; unfold cont;
    repeat match goal with
      | |- context [Z.eqb ?a ?b] => destruct (Z.eqb_spec a b); try lia
      | |- context [Z.ltb ?a ?b] => destruct (Z.ltb_spec a b); try lia
      | |- context [Z.leb ?a ?b] => destruct (Z.leb_spec a b); try lia
      end; cbn [andb]; try lia; repeat f_equal; lia.
Qed.

Lemma str_bytes_app a b : str_bytes (a ++ b) = str_bytes a ++ str_bytes b.
Proof. apply flat_map_app. Qed.

Lemma length_utf8_enc c : Z.of_nat (length (utf8_enc c)) = utf8_len c.
Proof. unfold utf8_enc, utf8_len. repeat case_match; done. Qed.

Lemma utf8_len_pos c : 1 <= utf8_len c <= 4.
Proof. unfold utf8_len. repeat case_match; lia. Qed.

Lemma byte_len_cons c s : byte_len (c :: s) = utf8_len c + byte_len s.
Proof. unfold byte_len; simpl. rewrite length_app, Nat2Z.inj_add, length_utf8_enc. done. Qed.

Lemma byte_len_app s t : byte_len (s ++ t) = byte_len s + byte_len t.
Proof. unfold byte_len, str_bytes. rewrite flat_map_app, length_app. lia. Qed.

Lemma lossy_enc s fuel :
  valid_str s -> (length (str_bytes s) <= fuel)%nat -> lossy fuel (str_bytes s) = s.
Proof.
  intros Hs; revert fuel; induction Hs as [|c s Hc Hs IH]; intros fuel Hf; [by destruct fuel|].
  simpl in *. rewrite length_app in Hf.
  assert (1 <= length (utf8_enc c))%nat by (pose proof (length_utf8_enc c); pose proof (utf8_len_pos c); lia).
  destruct fuel as [|fuel]; [lia|]. simpl. rewrite utf8_step_enc by done. simpl.
  rewrite drop_app_length. f_equal. apply IH. lia.
Qed.

(** Decoding what was encoded gives the text back. *)
Lemma from_utf8_lossy_bytes s : valid_str s -> from_utf8_lossy (str_bytes s) = s.
Proof. intros; by apply lossy_enc. Qed.

(** ** Character classes *)

(** [char::is_whitespace]: Unicode's [White_Space]. *)
Definition is_white (c : Z) : bool :=
  ((9 <=? c) && (c <=? 13)) || (c =? 32) || (c =? 133) || (c =? 160) || (c =? 5760)
  || ((8192 <=? c) && (c <=? 8202)) || (c =? 8232) || (c =? 8233) || (c =? 8239)
  || (c =? 8287) || (c =? 12288).
(** [char::is_control]: general category [Cc]. *)
Definition is_control (c : Z) : bool :=
  ((0 <=? c) && (c <=? 31)) || ((127 <=? c) && (c <=? 159)).
Definition ascii_digit (b : Z) : bool := (48 <=? b) && (b <=? 57).
Definition ascii_lower (b : Z) : bool := (97 <=? b) && (b <=? 122).
Definition ascii_upper (b : Z) : bool := (65 <=? b) && (b <=? 90).
Definition ascii_alnum (b : Z) : bool := ascii_digit b || ascii_lower b || ascii_upper b.
Definition ascii_graphic (b : Z) : bool := (33 <=? b) && (b <=? 126).
(** [u8::is_ascii_whitespace]: space, tab, line feed, form feed, return. *)
Definition ascii_white (b : Z) : bool :=
  (b =? 32) || (b =? 9) || (b =? 10) || (b =? 12) || (b =? 13).
Definition to_ascii_lower (b : Z) : Z := if ascii_upper b then b + 32 else b.

(** ** Prefixes, suffixes and splits *)

Definition str_eqb (a b : str) : bool := bool_decide (a = b).

Fixpoint strip_prefix (p s : str) : option str :=
  match p, s with
  | [], _ => Some s
  | a :: p', b :: s' => if a =? b then strip_prefix p' s' else None
  | _ :: _, [] => None
  end.
Definition starts_with (p s : str) : bool :=
  match strip_prefix p s with Some _ => true | None => false end.
Definition strip_suffix (p s : str) : option str :=
  let! r := strip_prefix (rev p) (rev s) in Some (rev r).
Definition ends_with (p s : str) : bool :=
  match strip_suffix p s with Some _ => true | None => false end.

(** [str::split_once]: around the first occurrence of [p]. *)
Fixpoint split_once (p s : str) : option (str * str) :=
  match strip_prefix p s with
  | Some r => Some ([], r)
  | None =>
      match s with
      | [] => None
      | c :: s' => let! (a, b) := split_once p s' in Some (c :: a, b)
      end
  end.
(** [str::rsplit_once]: around the last occurrence of [p]. *)
Definition rsplit_once (p s : str) : option (str * str) :=
  let! (a, b) := split_once (rev p) (rev s) in Some (rev b, rev a).
Definition contains (p s : str) : bool :=
  match split_once p s with Some _ => true | None => false end.

(** [str::split] on one character. *)
Fixpoint split_char (d : Z) (s : str) : list str :=
  match s with
  | [] => [[]]
  | c :: s' =>
      if c =? d then [] :: split_char d s'
      else match split_char d s' with w :: ws => (c :: w) :: ws | [] => [[c]] end
  end.

(** [str::split] on a string: non-overlapping occurrences, left to right.
    Each piece consumes at least one character of a non-empty pattern, so the
    length of the text is fuel enough. *)
Fixpoint split_str_aux (fuel : nat) (p s : str) : list str :=
  match fuel with
  | O => [s]
  | S fuel =>
      match split_once p s with
      | Some (a, b) => a :: split_str_aux fuel p b
      | None => [s]
      end
  end.
Definition split_str (p s : str) : list str := split_str_aux (length s) p s.

(** [str::lines]: split after each line feed, a final empty piece dropped, one
    carriage return before each line feed removed. *)
Definition strip_cr (l : str) : str :=
  match strip_suffix [13] l with Some l' => l' | None => l end.
Definition lines (s : str) : list str :=
  let ps := split_char 10 s in
  match rev ps with
  | [] :: r => map strip_cr (rev r)
  | last :: r => map strip_cr (rev r) ++ [last]
  | [] => []
  end.

Fixpoint trim_start (s : str) : str :=
  match s with c :: s' => if is_white c then trim_start s' else s | [] => [] end.
Definition trim_end (s : str) : str := rev (trim_start (rev s)).
Definition trim (s : str) : str := trim_end (trim_start s).

(** [str::split_whitespace]. *)
Fixpoint split_white_aux (s cur : str) : list str :=
  match s with
  | [] => if decide (cur = []) then [] else [rev cur]
  | c :: s' =>
      if is_white c
      then (if decide (cur = []) then [] else [rev cur]) ++ split_white_aux s' []
      else split_white_aux s' (c :: cur)
  end.
Definition split_whitespace (s : str) : list str := split_white_aux s [].

(** [[T]::join]. *)
Fixpoint join (sep : str) (ws : list str) : str :=
  match ws with
  | [] => []
  | [w] => w
  | w :: ws' => w ++ sep ++ join sep ws'
  end.

(** Lexicographic order.  [str]'s [Ord] compares the UTF-8 bytes, which order
    scalar values as their numbers do, so it is the order on characters. *)
Fixpoint lex_leb (a b : list Z) : bool :=
  match a, b with
  | [], _ => true
  | _ :: _, [] => false
  | x :: a', y :: b' => (x <? y) || ((x =? y) && lex_leb a' b')
  end.
Definition str_leb (a b : str) : bool := lex_leb a b.
Definition str_ltb (a b : str) : bool := negb (str_leb b a).

(** ** Numbers *)

Fixpoint dec_aux (fuel : nat) (n : Z) (acc : str) : str :=
  match fuel with
  | O => acc
  | S fuel => if n <? 10 then (48 + n) :: acc else dec_aux fuel (n / 10) ((48 + n mod 10) :: acc)
  end.
(** The decimal digits of a non-negative integer; a number below [2^k] has at
    most [k] digits, so [k + 1] steps print it. *)
Definition dec_nat (n : Z) : str := dec_aux (S (Z.to_nat (Z.log2 n))) n [].
(** [to_string] of an integer. *)
Definition dec (n : Z) : str := if n <? 0 then 45 :: dec_nat (- n) else dec_nat n.

Definition digits_value (s : str) : Z := fold_left (fun a d => 10 * a + (d - 48)) s 0.
Definition all_digits (s : str) : bool := forallb ascii_digit s.

(** [str::parse::<u64>]: an optional plus sign, at least one digit, in range. *)
Definition parse_digits (s : str) : option Z :=
  if bool_decide (s = []) || negb (all_digits s) then None else Some (digits_value s).
Definition parse_unsigned (max : Z) (s : str) : option Z :=
  let! v := parse_digits (match s with 43 :: s' => s' | _ => s end) in
  if v <=? max then Some v else None.
Definition parse_u64 : str -> option Z := parse_unsigned u64_max.
Definition parse_u32 : str -> option Z := parse_unsigned u32_max.
(** [str::parse::<i64>]. *)
Definition parse_i64 (s : str) : option Z :=
  match s with
  | 45 :: s' => let! v := parse_digits s' in i64_checked (- v)
  | 43 :: s' => let! v := parse_digits s' in i64_checked v
  | _ => let! v := parse_digits s in i64_checked v
  end.

Definition hex_digit (n : Z) : Z := if n <? 10 then 48 + n else 87 + n.
(** [format!("{b:02x}")]. *)
Definition hex2 (b : Z) : str := [hex_digit (b / 16); hex_digit (b mod 16)].
Definition hex_bytes (bs : list Z) : str := flat_map hex2 bs.
Definition hex4 (n : Z) : str := hex2 (n / 256) ++ hex2 (n mod 256).
(** [format!("{n:x}")] for a character number. *)
Fixpoint hex_aux (fuel : nat) (n : Z) (acc : str) : str :=
  match fuel with
  | O => acc
  | S fuel => if n <? 16 then hex_digit n :: acc
              else hex_aux fuel (n / 16) (hex_digit (n mod 16) :: acc)
  end.
Definition hex_nat (n : Z) : str := hex_aux (S (Z.to_nat (Z.log2 n))) n [].

(** ** Lemmas on prefixes and splits *)

Lemma str_eqb_eq a b : str_eqb a b = true <-> a = b.
Proof. apply bool_decide_eq_true. Qed.
Lemma str_eqb_refl a : str_eqb a a = true.
Proof. by apply str_eqb_eq. Qed.
Lemma str_eqb_neq a b : str_eqb a b = false <-> a <> b.
Proof. apply bool_decide_eq_false. Qed.

Lemma str_eqb_decide a b : str_eqb a b = if decide (a = b) then true else false.
Proof. unfold str_eqb. case_decide; [by apply bool_decide_eq_true_2|by apply bool_decide_eq_false_2]. Qed.

Lemma strip_prefix_Some p s r : strip_prefix p s = Some r <-> s = p ++ r.
Proof.
  revert s; induction p as [|a p IH]; intros s; simpl; [split; congruence|].
  destruct s as [|b s]; [split; done|]. destruct (Z.eqb_spec a b) as [->|].
  - rewrite IH. split; congruence.
  - split; congruence.
Qed.

Lemma strip_prefix_app p r : strip_prefix p (p ++ r) = Some r.
Proof. by apply strip_prefix_Some. Qed.

Lemma starts_with_iff p s : starts_with p s = true <-> exists r, s = p ++ r.
Proof.
  unfold starts_with. destruct (strip_prefix p s) as [r|] eqn:E.
  - apply strip_prefix_Some in E. split; eauto.
  - split; [done|]. intros [r Hr]. apply strip_prefix_Some in Hr. congruence.
Qed.

Lemma starts_with_app p r : starts_with p (p ++ r) = true.
Proof. apply starts_with_iff; eauto. Qed.

Lemma strip_suffix_Some p s r : strip_suffix p s = Some r <-> s = r ++ p.
Proof.
  unfold strip_suffix. destruct (strip_prefix (rev p) (rev s)) as [q|] eqn:E.
  - apply strip_prefix_Some in E. apply (f_equal (@rev Z)) in E.
    rewrite rev_app_distr, !rev_involutive in E. subst. split; [congruence|].
    intros H. f_equal. by apply app_inv_tail in H.
  - split; [done|]. intros ->. rewrite rev_app_distr, strip_prefix_app in E. done.
Qed.

Lemma split_once_Some p s a b :
  split_once p s = Some (a, b) -> s = a ++ p ++ b.
Proof.
  revert a; induction s as [|c s IH]; intros a; simpl.
  - destruct (strip_prefix p []) as [r|] eqn:E; [|done].
    apply strip_prefix_Some in E. intros [= <- <-]. exact E.
  - destruct (strip_prefix p (c :: s)) as [r|] eqn:E.
    + apply strip_prefix_Some in E. intros [= <- <-]. exact E.
    + destruct (split_once p s) as [[a' b']|] eqn:E'; [|done]. intros [= <- <-].
      simpl. f_equal. by apply IH.
Qed.

Lemma split_once_None p s : split_once p s = None -> forall a b, s <> a ++ p ++ b.
Proof.
  induction s as [|c s IH]; simpl; intros H a b Hs.
  - destruct (strip_prefix p []) eqn:E; [done|].
    destruct a; [|done]. simpl in Hs. symmetry in Hs. apply app_eq_nil in Hs as [-> ->]. done.
  - destruct (strip_prefix p (c :: s)) eqn:E; [done|].
    destruct (split_once p s) as [[]|] eqn:E'; [done|]. destruct a as [|c' a].
    + simpl in Hs. apply strip_prefix_Some in Hs. congruence.
    + injection Hs as -> Hs. by eapply IH.
Qed.

Lemma contains_iff p s : contains p s = true <-> exists a b, s = a ++ p ++ b.
Proof.
  unfold contains. destruct (split_once p s) as [[a b]|] eqn:E.
  - apply split_once_Some in E. split; eauto.
  - split; [done|]. intros (a&b&H). by eapply split_once_None in H.
Qed.

(** Around one character the first part does not hold it. *)
Lemma split_once_char c s a b : split_once [c] s = Some (a, b) -> c ∉ a.
Proof.
  revert a; induction s as [|d s IH]; intros a; simpl; [done|].
  destruct (Z.eqb_spec c d) as [->|Hne]; [intros [= <- <-]; apply not_elem_of_nil|].
  destruct (split_once [c] s) as [[a' b']|] eqn:E; [|done]. intros [= <- <-].
  apply not_elem_of_cons; split; [done|]. by apply IH.
Qed.

Lemma split_once_char_app c a b : c ∉ a -> split_once [c] (a ++ c :: b) = Some (a, b).
Proof.
  induction a as [|d a IH]; intros H; simpl.
  - by rewrite Z.eqb_refl.
  - apply not_elem_of_cons in H as [Hd H]. destruct (Z.eqb_spec c d); [congruence|].
    by rewrite (IH H).
Qed.

Lemma split_char_none d s : d ∉ s -> split_char d s = [s].
Proof.
  induction s as [|c s IH]; intros H; [done|]. simpl.
  destruct (Z.eqb_spec c d) as [->|]; [set_solver|]. by rewrite IH by set_solver.
Qed.

Lemma split_char_app d a t : d ∉ a -> split_char d (a ++ d :: t) = a :: split_char d t.
Proof.
  induction a as [|c a IH]; intros H; simpl; [by rewrite Z.eqb_refl|].
  destruct (Z.eqb_spec c d) as [->|]; [set_solver|]. by rewrite IH by set_solver.
Qed.

Lemma contains_char c s : contains [c] s = true <-> c ∈ s.
Proof.
  rewrite contains_iff. split.
  - intros (a&b&->). set_solver.
  - intros H. apply list_elem_of_split in H as (a&b&->). by exists a, b.
Qed.

(** A byte predicate that holds of no byte past ASCII reads the characters. *)
Lemma forallb_bytes (p : Z -> bool) s :
  (forall b, 128 <= b -> p b = false) -> valid_str s ->
  forallb p (str_bytes s) = forallb p s.
Proof.
  intros Hp Hs. induction Hs as [|c s Hc Hs IH]; simpl; [done|].
  rewrite forallb_app, IH. f_equal. unfold is_scalar in Hc. unfold utf8_enc.
  assert (0 <= c) by (b2p; lia).
  destruct (Z.ltb_spec c 128); [simpl; by rewrite andb_true_r|].
  rewrite (Hp c) by lia.
  assert (forall k, 0 < k -> 0 <= c / k) as Hk by (intros; apply Z.div_pos; lia).
  pose proof (Hk 64 ltac:(lia)). pose proof (Hk 4096 ltac:(lia)). pose proof (Hk 262144 ltac:(lia)).
  destruct (Z.ltb_spec c 2048); [|destruct (Z.ltb_spec c 65536)]; simpl; rewrite Hp by lia; done.
Qed.

(** ** Lemmas on numbers *)

Lemma digits_value_snoc s d : digits_value (s ++ [d]) = 10 * digits_value s + (d - 48).
Proof. unfold digits_value. by rewrite fold_left_app. Qed.

Lemma digits_value_app s t :
  digits_value (s ++ t) = digits_value s * 10 ^ Z.of_nat (length t) + digits_value t.
Proof.
  revert s; induction t as [|d t IH] using rev_ind; intros s.
  - rewrite app_nil_r. simpl. rewrite Z.pow_0_r. unfold digits_value at 3; simpl. lia.
  - rewrite app_assoc, !digits_value_snoc, IH, length_app. simpl.
    rewrite Nat2Z.inj_add, Z.pow_add_r by lia. change (10 ^ Z.of_nat 1) with 10. lia.
Qed.

Lemma digits_value_nonneg s : all_digits s = true -> 0 <= digits_value s.
Proof.
  induction s as [|d s IH] using rev_ind; [done|].
  unfold all_digits in *. rewrite forallb_app, digits_value_snoc. simpl. unfold ascii_digit at 2.
  intros. b2p. intuition lia.
Qed.

Lemma dec_aux_spec fuel n acc :
  0 <= n -> n < 2 ^ Z.of_nat (S fuel) -> all_digits acc = true ->
  exists ds, dec_aux (S fuel) n acc = ds ++ acc /\ all_digits ds = true /\ ds <> []
             /\ digits_value ds = n.
Proof.
  revert n acc; induction fuel as [|fuel IH]; intros n acc Hn Hlt Hacc;
    cbn [dec_aux]; destruct (Z.ltb_spec n 10); try (simpl in Hlt; lia).
  - exists [48 + n]. repeat split; [|done|unfold digits_value; simpl; lia].
    unfold all_digits, ascii_digit; simpl. b2p. lia.
  - exists [48 + n]. repeat split; [|done|unfold digits_value; simpl; lia].
    unfold all_digits, ascii_digit; simpl. b2p. lia.
  - pose proof (Z.mod_pos_bound n 10 ltac:(lia)). pose proof (Z.div_mod n 10 ltac:(lia)).
    destruct (IH (n / 10) ((48 + n mod 10) :: acc)) as (ds&E&Hd&Hne&Hv).
    + apply Z.div_pos; lia.
    + rewrite Nat2Z.inj_succ, Z.pow_succ_r in Hlt by lia. clear IH.
      apply Z.div_lt_upper_bound; nia.
    + unfold all_digits, ascii_digit in *; simpl. b2p. split; [lia|done].
    + exists (ds ++ [48 + n mod 10]). cbn [dec_aux] in E. rewrite E. rewrite <- app_assoc. repeat split; try done.
      * unfold all_digits, ascii_digit in *. rewrite forallb_app; simpl. b2p. repeat split; auto; lia.
      * by destruct ds.
      * rewrite digits_value_snoc, Hv. lia.
Qed.

(** A numeral without a leading zero is what its value prints as. *)
Lemma digits_value_pos s : all_digits s = true -> s <> [] -> hd 48 s <> 48 -> 0 < digits_value s.
Proof.
  induction s as [|d s IH] using rev_ind; intros Hd Hne Hh; [done|].
  unfold all_digits in *. rewrite forallb_app in Hd. simpl in Hd. unfold ascii_digit at 2 in Hd. b2p.
  rewrite digits_value_snoc. destruct s as [|c s]; [unfold digits_value; simpl in *; lia|].
  destruct Hd as [Hd ?]. specialize (IH Hd ltac:(done) Hh). lia.
Qed.

Lemma dec_aux_S fuel n acc :
  dec_aux (S fuel) n acc
  = if n <? 10 then (48 + n) :: acc else dec_aux fuel (n / 10) ((48 + n mod 10) :: acc).
Proof. done. Qed.

Lemma dec_aux_digits s fuel acc :
  all_digits s = true -> s <> [] -> hd 48 s <> 48 -> digits_value s < 2 ^ Z.of_nat (S fuel) ->
  dec_aux (S fuel) (digits_value s) acc = s ++ acc.
Proof.
  revert fuel acc; induction s as [|d s IH] using rev_ind; intros fuel acc Hd Hne Hh Hlt; [done|].
  unfold all_digits in *. rewrite forallb_app in Hd. simpl in Hd. unfold ascii_digit at 2 in Hd. b2p.
  destruct Hd as [Hs Hd]. rewrite digits_value_snoc in *. rewrite dec_aux_S. destruct s as [|c s].
  - change (digits_value []) with 0. destruct (Z.ltb_spec (10 * 0 + (d - 48)) 10); [|lia]. simpl. f_equal. lia.
  - pose proof (digits_value_pos (c :: s) Hs ltac:(done) Hh).
    destruct (Z.ltb_spec (10 * digits_value (c :: s) + (d - 48)) 10); [lia|].
    destruct fuel as [|fuel]; [simpl in Hlt; lia|].
    rewrite Nat2Z.inj_succ, Z.pow_succ_r in Hlt by lia.
    rewrite <- (Z.div_unique (10 * digits_value (c :: s) + (d - 48)) 10 (digits_value (c :: s)) (d - 48)) by lia.
    rewrite <- (Z.mod_unique (10 * digits_value (c :: s) + (d - 48)) 10 (digits_value (c :: s)) (d - 48)) by lia.
    rewrite (IH fuel) by (done || lia). rewrite <- app_assoc.
    by replace (48 + (d - 48)) with d by lia.
Qed.

Lemma dec_nat_digits s :
  all_digits s = true -> s <> [] -> hd 48 s <> 48 -> dec_nat (digits_value s) = s.
Proof.
  intros Hd Hne Hh. unfold dec_nat. pose proof (digits_value_pos s Hd Hne Hh) as Hp.
  rewrite dec_aux_digits, app_nil_r; [done..|].
  rewrite Nat2Z.inj_succ, Z2Nat.id by apply Z.log2_nonneg. by apply Z.log2_spec.
Qed.

Lemma dec_nat_spec n : 0 <= n ->
  all_digits (dec_nat n) = true /\ dec_nat n <> [] /\ digits_value (dec_nat n) = n.
Proof.
  intros Hn. unfold dec_nat.
  destruct (dec_aux_spec (Z.to_nat (Z.log2 n)) n []) as (ds&E&?&?&?); [done| |done|].
  - rewrite Nat2Z.inj_succ, Z2Nat.id by apply Z.log2_nonneg.
    destruct (Z.eq_dec n 0) as [->|]; [done|]. apply Z.log2_spec. lia.
  - rewrite E, app_nil_r. done.
Qed.

Lemma parse_digits_dec n : 0 <= n -> parse_digits (dec_nat n) = Some n.
Proof.
  intros Hn. destruct (dec_nat_spec n Hn) as (Hd&Hne&Hv). unfold parse_digits.
  rewrite bool_decide_eq_false_2 by done. rewrite Hd. simpl. by rewrite Hv.
Qed.

Lemma dec_nat_inj n m : 0 <= n -> 0 <= m -> dec_nat n = dec_nat m -> n = m.
Proof. intros Hn Hm E. apply (f_equal parse_digits) in E. rewrite !parse_digits_dec in E; congruence. Qed.

Lemma dec_nat_digit_head n c s : 0 <= n -> dec_nat n = c :: s -> ascii_digit c = true.
Proof.
  intros Hn E. destruct (dec_nat_spec n Hn) as (Hd&_&_). rewrite E in Hd.
  unfold all_digits in Hd; simpl in Hd. b2p. tauto.
Qed.

(** Printing an integer and reading it back. *)
Lemma parse_unsigned_dec max n : 0 <= n <= max -> parse_unsigned max (dec n) = Some n.
Proof.
  intros [H0 H]. unfold dec. destruct (Z.ltb_spec n 0); [lia|].
  unfold parse_unsigned. destruct (dec_nat n) as [|c s] eqn:E.
  - by destruct (dec_nat_spec n H0) as (?&?&?).
  - pose proof (dec_nat_digit_head _ _ _ H0 E) as Hc. unfold ascii_digit in Hc.
    assert (c <> 43) by (b2p; lia).
    replace (match c with 43 => s | _ => c :: s end) with (dec_nat n).
    + rewrite parse_digits_dec by done. by rewrite (proj2 (Z.leb_le _ _) H).
    + rewrite E. repeat (case_match; try done; try lia).
Qed.

Lemma parse_u64_dec n : 0 <= n <= u64_max -> parse_u64 (dec n) = Some n.
Proof. apply parse_unsigned_dec. Qed.

(** ** The lexicographic order is total *)

Lemma lex_leb_refl a : lex_leb a a = true.
Proof. induction a; simpl; [done|]. rewrite Z.eqb_refl, IHa. by rewrite orb_true_r. Qed.

Lemma lex_leb_total a b : lex_leb a b = true \/ lex_leb b a = true.
Proof.
  revert b; induction a as [|x a IH]; intros [|y b]; simpl; auto.
  destruct (Z.lt_trichotomy x y) as [H|[->|H]].
  - left. b2p. auto.
  - destruct (IH b) as [H|H]; rewrite H; [left|right]; b2p; auto.
  - right. b2p. auto.
Qed.

Lemma lex_leb_trans a b c : lex_leb a b = true -> lex_leb b c = true -> lex_leb a c = true.
Proof.
  revert b c; induction a as [|x a IH]; intros [|y b] [|z c]; simpl; try done.
  b2p. intros [?|[-> ?]] [?|[-> ?]]; try (left; lia). right; split; eauto.
Qed.

Lemma lex_leb_antisym a b : lex_leb a b = true -> lex_leb b a = true -> a = b.
Proof.
  revert b; induction a as [|x a IH]; intros [|y b]; simpl; try done.
  b2p. intros [?|[-> ?]] [?|[? ?]]; try lia. f_equal; auto.
Qed.

#[export] Hint Resolve lex_leb_refl lex_leb_total lex_leb_trans lex_leb_antisym : core.
