(* ===== verification/Json.v ===== *)
(** * Json: the [serde_json::Value] the console passes around

    The workspace builds [serde_json] without [preserve_order], so a [Map] is a
    [BTreeMap]: an association list in key order with each key once.  A number
    is an integer or a finite double; a double is carried as what [{:e}] prints
    of it: its sign, its shortest round-trip digits and the exponent of the
    first digit.  Parsing and serialising belong to serde_json and are
    parameters of the components that use them. *)
From S2P Require Import Prelude Text.

#[export] Set Warnings "-register-all".

Record f64 : Type := F64 { f_neg : bool; f_digits : list Z; f_exp : Z }.

Inductive number : Type :=
| NInt (z : Z)
| NFloat (x : f64).

Inductive value : Type :=
| VNull
| VBool (b : bool)
| VNum (n : number)
| VStr (s : str)
| VArr (items : list value)
| VObj (members : list (str * value)).

(** The induction principle that reaches into arrays and objects. *)
Section ValueInd.
Context (P : value -> Prop).
Context (HNull : P VNull) (HBool : forall b, P (VBool b)) (HNum : forall n, P (VNum n))
  (HStr : forall s, P (VStr s))
  (HArr : forall vs, Forall P vs -> P (VArr vs))
  (HObj : forall ms, Forall (fun kv => P kv.2) ms -> P (VObj ms)).

Fixpoint value_nested_ind (v : value) : P v :=
  match v with
  | VNull => HNull
  | VBool b => HBool b
  | VNum n => HNum n
  | VStr s => HStr s
  | VArr vs =>
      HArr vs ((fix go (l : list value) : Forall P l :=
                  match l with
                  | [] => @List.Forall_nil _ P
                  | x :: l' => @List.Forall_cons _ P x l' (value_nested_ind x) (go l')
                  end) vs)
  | VObj ms =>
      HObj ms ((fix go (l : list (str * value)) : Forall (fun kv => P kv.2) l :=
                  match l with
                  | [] => @List.Forall_nil _ (fun kv => P kv.2)
                  | x :: l' => @List.Forall_cons _ (fun kv => P kv.2) x l' (value_nested_ind x.2) (go l')
                  end) ms)
  end.
End ValueInd.

(** [Map::get], [Map::insert], [Map::remove]. *)
Fixpoint obj_get (k : str) (ms : list (str * value)) : option value :=
  match ms with
  | [] => None
  | (k', v) :: ms' => if str_eqb k k' then Some v else obj_get k ms'
  end.
Fixpoint obj_insert (k : str) (v : value) (ms : list (str * value)) : list (str * value) :=
  match ms with
  | [] => [(k, v)]
  | (k', v') :: ms' =>
      if str_eqb k k' then (k, v) :: ms'
      else if str_leb k k' then (k, v) :: ms
      else (k', v') :: obj_insert k v ms'
  end.
Fixpoint obj_remove (k : str) (ms : list (str * value)) : list (str * value) :=
  match ms with
  | [] => []
  | (k', v') :: ms' => if str_eqb k k' then ms' else (k', v') :: obj_remove k ms'
  end.

(** [json!({ ... })]. *)
Definition obj (ms : list (str * value)) : value :=
  VObj (fold_left (fun acc kv => obj_insert kv.1 kv.2 acc) ms []).

(** [Value::get] with a string, and the typed accessors. *)
Definition get (k : str) (v : value) : option value :=
  match v with VObj ms => obj_get k ms | _ => None end.
Definition as_str (v : value) : option str := match v with VStr s => Some s | _ => None end.
Definition as_bool (v : value) : option bool := match v with VBool b => Some b | _ => None end.
Definition as_i64 (v : value) : option Z :=
  match v with VNum (NInt z) => i64_checked z | _ => None end.
Definition as_array (v : value) : option (list value) :=
  match v with VArr vs => Some vs | _ => None end.

Definition get_str (k : str) (v : value) : option str := let! x := get k v in as_str x.
Definition get_bool (k : str) (v : value) : option bool := let! x := get k v in as_bool x.
(** [v.get(k).and_then(Value::as_bool) == Some(true)]. *)
Definition get_true (k : str) (v : value) : bool :=
  match get_bool k v with Some true => true | _ => false end.

(** [Option<String>] as [json!] writes it. *)
Definition opt_str (o : option str) : value :=
  match o with Some s => VStr s | None => VNull end.
Definition opt_int (o : option Z) : value :=
  match o with Some z => VNum (NInt z) | None => VNull end.

(** serde_json's reader and writer. *)
Class JsonText := {
  json_of : list Z -> option value;     (* [serde_json::from_slice] *)
  json_text : value -> str;             (* [Value::to_string] *)
}.

(** Every object of the value has its keys in strict order. *)
Inductive strict_keys : list (str * value) -> Prop :=
| sk_nil : strict_keys []
| sk_cons k v ms :
    Forall (fun kv => str_ltb k kv.1 = true) ms -> strict_keys ms -> strict_keys ((k, v) :: ms).

Lemma str_ltb_irrefl k : str_ltb k k = false.
Proof. unfold str_ltb, str_leb. by rewrite lex_leb_refl. Qed.

Lemma str_ltb_leb a b : str_ltb a b = true -> str_leb a b = true.
Proof. unfold str_ltb, str_leb. intros H. b2p. destruct (lex_leb_total a b); congruence. Qed.

Lemma str_ltb_trans a b c : str_leb a b = true -> str_ltb b c = true -> str_ltb a c = true.
Proof.
  unfold str_ltb, str_leb. intros Hab Hbc. b2p. destruct (lex_leb c a) eqn:E; [|done].
  rewrite (lex_leb_trans _ _ _ E Hab) in Hbc. done.
Qed.

Lemma str_ltb_iff a b : str_ltb a b = true <-> str_leb a b = true /\ a <> b.
Proof.
  split.
  - intros H. split; [by apply str_ltb_leb|]. intros ->. by rewrite str_ltb_irrefl in H.
  - intros [H Hne]. unfold str_ltb, str_leb in *. b2p.
    destruct (lex_leb b a) eqn:E; [|done]. destruct Hne. by apply lex_leb_antisym.
Qed.

Lemma obj_insert_strict k v ms : strict_keys ms -> strict_keys (obj_insert k v ms).
Proof.
  induction 1 as [|k' v' ms Hall Hs IH]; simpl; [by repeat constructor|].
  destruct (str_eqb k k') eqn:E; [apply str_eqb_eq in E as ->; by constructor|].
  apply str_eqb_neq in E. destruct (str_leb k k') eqn:E'.
  - constructor; [|by constructor]. constructor; [by apply str_ltb_iff|].
    eapply Forall_impl; [exact Hall|]. intros [k2 v2] H2. by eapply str_ltb_trans.
  - constructor; [|done]. assert (str_ltb k' k = true) as Hlt by (unfold str_ltb; by rewrite E').
    clear -Hall Hlt. induction ms as [|[k2 v2] ms IH]; simpl; [by repeat constructor|].
    inversion_clear Hall. repeat case_match; constructor; auto.
Qed.

Lemma obj_get_insert k k' v ms :
  obj_get k (obj_insert k' v ms) = if str_eqb k k' then Some v else obj_get k ms.
Proof.
  induction ms as [|[k2 v2] ms IH]; simpl; [done|].
  destruct (str_eqb k' k2) eqn:E2.
  - apply str_eqb_eq in E2 as ->. simpl. by destruct (str_eqb k k2).
  - destruct (str_leb k' k2); simpl; [done|].
    rewrite IH. destruct (str_eqb k k2) eqn:E3, (str_eqb k k') eqn:E4; try done.
    apply str_eqb_eq in E3 as ->, E4 as ->. by rewrite str_eqb_refl in E2.
Qed.

Lemma obj_insert_all (P : str * value -> Prop) k v ms :
  P (k, v) -> Forall P ms -> Forall P (obj_insert k v ms).
Proof.
  intros Hkv. induction 1 as [|[k' v'] ms Hm Hms IH]; simpl; [by apply Forall_singleton|].
  destruct (str_eqb k k'); [|destruct (str_leb k k')]; rewrite ?Forall_cons; auto.
Qed.

(** [json!({ ... })]: a [Map] of the members given. *)
Lemma obj_all (P : str * value -> Prop) ms :
  Forall P ms -> exists ms', obj ms = VObj ms' /\ strict_keys ms' /\ Forall P ms'.
Proof.
  intros H. unfold obj. eexists; split; [done|].
  enough (forall acc, strict_keys acc -> Forall P acc ->
    strict_keys (fold_left (fun acc kv => obj_insert kv.1 kv.2 acc) ms acc)
    /\ Forall P (fold_left (fun acc kv => obj_insert kv.1 kv.2 acc) ms acc)) as E
    by (apply E; constructor).
  induction H as [|[k v] ms Hkv _ IH]; intros acc Hs Hp; [done|]. simpl.
  apply IH; [by apply obj_insert_strict|by apply obj_insert_all].
Qed.
