(* ===== verification/Prog.v ===== *)
(** * Prog: request handlers as programs over shared state

    An HTTP handler of the console is a sequence of short operations on state
    it shares with every other handler, each operation holding one lock.  A
    handler is a [prog]: it performs one operation, receives its answer and
    goes on.  Many handlers run at once, and any of them may perform its next
    operation at any time: [sys_step] is that interleaving, and a restart drops
    the handlers in flight.

    [wp] is the weakest precondition of a program under answers the program
    cannot predict, so a fact proved with [wp] holds under every interleaving
    ([audited_run]). *)
From S2P Require Import Prelude.

Section Prog.
Context {op : Type} {resp : op -> Type}.

Inductive prog (A : Type) : Type :=
| Ret (a : A)
| Do (o : op) (k : resp o -> prog A).
Arguments Ret {A} _.
Arguments Do {A} _ _.

Fixpoint bind {A B} (p : prog A) (f : A -> prog B) : prog B :=
  match p with
  | Ret a => f a
  | Do o k => Do o (fun x => bind (k x) f)
  end.

Definition perform_op (o : op) : prog (resp o) := Do o Ret.

Context {event : Type} (event_of : forall o, Z -> resp o -> event).

(** Before each operation [o] of [p], with the trace [tr] so far, [pre tr o]
    holds; and [p] ends with [post]. *)
Fixpoint wp {A} (pre : list event -> op -> Prop) (tr : list event) (p : prog A)
  (post : A -> list event -> Prop) : Prop :=
  match p with
  | Ret a => post a tr
  | Do o k => pre tr o /\ forall t x, wp pre (tr ++ [event_of o t x]) (k x) post
  end.

Lemma wp_bind {A B} pre tr (p : prog A) (f : A -> prog B) post :
  wp pre tr p (fun a tr' => wp pre tr' (f a) post) -> wp pre tr (bind p f) post.
Proof.
  revert tr; induction p as [a|o k IH]; intros tr; simpl; [done|].
  intros [Hp Hk]. split; [done|]. intros t x. by apply IH.
Qed.

Lemma wp_mono {A} pre tr (p : prog A) (post post' : A -> list event -> Prop) :
  wp pre tr p post -> (forall a tr', post a tr' -> post' a tr') -> wp pre tr p post'.
Proof.
  revert tr; induction p as [a|o k IH]; intros tr; simpl; [by auto|].
  intros [Hp Hk] H. split; [done|]. intros t x. by apply IH.
Qed.

(** A program only adds to its trace. *)
Lemma wp_extends {A} pre tr (p : prog A) (post : A -> list event -> Prop) :
  wp pre tr p post -> wp pre tr p (fun a tr' => post a tr' /\ tr `prefix_of` tr').
Proof.
  revert tr; induction p as [a|o k IH]; intros tr; simpl; [done|].
  intros [Hp Hk]. split; [done|]. intros t x. eapply wp_mono; [by apply IH|].
  intros a tr' [H Hpre]. split; [done|]. etrans; [|exact Hpre]. by apply prefix_app_r.
Qed.

(** ** Handlers in parallel *)

Context {request response env state : Type}.
Context (handler : request -> prog response).
Context (perform : env -> forall o, state -> resp o * state) (time : env -> Z).
Context (restarted : state -> state -> Prop).

(** The shared state, the handlers in flight, the next request's number, and
    the time of the last operation. *)
Record sys : Type := mkSys
  { sys_state : state; sys_threads : gmap nat (prog response); sys_next : nat; sys_clock : Z }.

Inductive sys_event : Type :=
| Spawned (i : nat) (r : request)
| Did (i : nat) (e : event)
| Restarted.

Inductive sys_step : sys -> sys_event -> sys -> Prop :=
| ss_spawn s T n t r :
    sys_step (mkSys s T n t) (Spawned n r) (mkSys s (<[n := handler r]> T) (S n) t)
| ss_act s T n t i o k e x s' :
    T !! i = Some (Do o k) -> t <= time e -> perform e o s = (x, s') ->
    sys_step (mkSys s T n t) (Did i (event_of o (time e) x))
             (mkSys s' (<[i := k x]> T) n (time e))
| ss_restart s T n t s' :
    restarted s s' -> sys_step (mkSys s T n t) Restarted (mkSys s' ∅ n t).

(** The events of one handler. *)
Definition trace_of (i : nat) (h : list sys_event) : list event :=
  omap (fun se => match se with
                  | Did j e => if decide (i = j) then Some e else None
                  | _ => None
                  end) h.

Lemma trace_of_snoc i h se :
  trace_of i (h ++ [se]) = trace_of i h ++ match se with
                                           | Did j e => if decide (i = j) then [e] else []
                                           | _ => []
                                           end.
Proof. unfold trace_of. rewrite omap_app. f_equal. destruct se; simpl; repeat case_decide; done. Qed.

Lemma elem_of_trace_of i e h : e ∈ trace_of i h <-> Did i e ∈ h.
Proof.
  unfold trace_of. rewrite list_elem_of_omap. split.
  - intros ([| j e'|]&Hin&E); try done. case_decide; simplify_eq. done.
  - intros H. exists (Did i e). by rewrite decide_True.
Qed.

(** What the run so far says of the handlers in flight and of the operations
    they performed. *)
Definition audited (pre : list event -> op -> Prop) (h : list sys_event) (s : sys) : Prop :=
  (forall i p, sys_threads s !! i = Some p ->
     (i < sys_next s)%nat /\ wp pre (trace_of i h) p (fun _ _ => True))
  /\ (forall i, (sys_next s <= i)%nat -> trace_of i h = [])
  /\ (forall h1 h2 i e, h = h1 ++ Did i e :: h2 ->
        exists o t x, e = event_of o t x /\ pre (trace_of i h1) o).

Lemma split_snoc {X} (h h1 h2 : list X) e0 e :
  h ++ [e0] = h1 ++ e :: h2 -> h1 = h /\ e = e0 /\ h2 = [] \/ exists h3, h2 = h3 ++ [e0] /\ h = h1 ++ e :: h3.
Proof.
  destruct h2 as [|y h2'] using rev_ind; intros E.
  - apply app_inj_tail in E as [-> ->]. auto.
  - right. exists h2'. rewrite app_comm_cons, app_assoc in E. apply app_inj_tail in E as [-> ->]. auto.
Qed.

Lemma audited_step pre h s se s' :
  (forall r, wp pre [] (handler r) (fun _ _ => True)) ->
  audited pre h s -> sys_step s se s' -> audited pre (h ++ [se]) s'.
Proof.
  intros Hh (Ht&Hn&Hd) Hs. destruct Hs as [s T n t r|s T n t i o k e x s' Hi Htm Hp|s T n t s' Hr]; simpl in *.
  - split; [|split].
    + intros i p Hi. simpl in *. rewrite trace_of_snoc, app_nil_r. apply lookup_insert_Some in Hi as [[<- <-]|[_ Hi]].
      * split; [lia|]. rewrite Hn by lia. apply Hh.
      * apply Ht in Hi as [? ?]. split; [lia|done].
    + intros i Hi. simpl in *. rewrite trace_of_snoc, app_nil_r. apply Hn. lia.
    + intros h1 h2 i e [(_&[=]&_)|(h3&->&->)]%split_snoc. by eapply Hd.
  - pose proof (Ht i _ Hi) as [Hlt [Hpre Hk]]. split; [|split]; simpl in *.
    + intros j p Hj. rewrite trace_of_snoc. apply lookup_insert_Some in Hj as [[<- <-]|[Hne Hj]].
      * split; [done|]. rewrite decide_True by done. apply Hk.
      * rewrite decide_False, app_nil_r by done. by apply Ht.
    + intros j Hj. rewrite trace_of_snoc, decide_False, app_nil_r by lia. by apply Hn.
    + intros h1 h2 j e' [(->&[= -> ->]&->)|(h3&->&->)]%split_snoc; [eauto|by eapply Hd].
  - split; [|split]; simpl in *.
    + intros i p Hi. by rewrite lookup_empty in Hi.
    + intros i Hi. rewrite trace_of_snoc, app_nil_r. by apply Hn.
    + intros h1 h2 i e [(_&[=]&_)|(h3&->&->)]%split_snoc. by eapply Hd.
Qed.

Definition initial (s : state) (t : Z) : sys := mkSys s ∅ 0 t.

(** Invariants of a run that look at its history. *)
Lemma history_invariant (I : list sys_event -> sys -> Prop) s0 h s :
  run sys_step s0 h s -> I [] s0 ->
  (forall h s se s', I h s -> sys_step s se s' -> I (h ++ [se]) s') -> I h s.
Proof.
  intros Hr H0 Hstep. change h with ([] ++ h). revert H0.
  generalize (@nil sys_event) as hp. induction Hr as [s|s se s1 ses s2 Hs Hr IH]; intros hp H0.
  - by rewrite app_nil_r.
  - change (se :: ses) with ([se] ++ ses). rewrite app_assoc. apply IH. by eapply Hstep.
Qed.

(** In every interleaving, every operation a handler performs was allowed by
    what that handler had seen. *)
Lemma audited_run pre s t h sy :
  (forall r, wp pre [] (handler r) (fun _ _ => True)) ->
  run sys_step (initial s t) h sy ->
  forall h1 h2 i e, h = h1 ++ Did i e :: h2 ->
    exists o t x, e = event_of o t x /\ pre (trace_of i h1) o.
Proof.
  intros Hh Hr. assert (audited pre h sy) as (_&_&H); [|exact H].
  eapply (history_invariant (audited pre)); [exact Hr| |].
  - split; [|split]; simpl; [by intros i p|done|by intros [] h2 i e].
  - intros. by eapply audited_step.
Qed.

(** *** Executing a schedule *)

Inductive action : Type :=
| Arrive (r : request)
| Perform (i : nat) (e : env).

Definition step_fn (s : sys) (a : action) : option (sys_event * sys) :=
  match a with
  | Arrive r =>
      Some (Spawned (sys_next s) r,
            mkSys (sys_state s) (<[sys_next s := handler r]> (sys_threads s)) (S (sys_next s))
                  (sys_clock s))
  | Perform i e =>
      match sys_threads s !! i with
      | Some (Do o k) =>
          if sys_clock s <=? time e then
            let '(x, s') := perform e o (sys_state s) in
            Some (Did i (event_of o (time e) x),
                  mkSys s' (<[i := k x]> (sys_threads s)) (sys_next s) (time e))
          else None
      | _ => None
      end
  end.

Fixpoint run_fn (s : sys) (acts : list action) : option (list sys_event * sys) :=
  match acts with
  | [] => Some ([], s)
  | a :: acts =>
      match step_fn s a with
      | Some (se, s1) =>
          match run_fn s1 acts with
          | Some (h, s2) => Some (se :: h, s2)
          | None => None
          end
      | None => None
      end
  end.

Lemma step_fn_sound s a se s' : step_fn s a = Some (se, s') -> sys_step s se s'.
Proof.
  destruct s as [s T n t]. destruct a as [r|i e]; simpl.
  - intros [= <- <-]. constructor.
  - destruct (T !! i) as [[|o k]|] eqn:Hi; try done. destruct (_ <=? _) eqn:Ht; [|done].
    destruct (perform e o s) as [x s1] eqn:Hp. intros [= <- <-].
    apply (ss_act _ _ _ _ _ _ _ _ _ _ Hi); [lia|done].
Qed.

Lemma run_fn_sound s acts h s' : run_fn s acts = Some (h, s') -> run sys_step s h s'.
Proof.
  revert s h; induction acts as [|a acts IH]; intros s h; simpl; [intros [= <- <-]; constructor|].
  destruct (step_fn s a) as [[se s1]|] eqn:Es; [|done].
  destruct (run_fn s1 acts) as [[h1 s2]|] eqn:Er; [|done]. intros [= <- <-].
  econstructor; [by eapply step_fn_sound|]. by apply IH.
Qed.

(** The history and the end of a schedule that runs to its end. *)
Definition history (s : sys) (acts : list action) : list sys_event :=
  match run_fn s acts with Some (h, _) => h | None => [] end.
Definition final (s : sys) (acts : list action) : sys :=
  match run_fn s acts with Some (_, s') => s' | None => s end.

Definition completes (s : sys) (acts : list action) : bool :=
  match run_fn s acts with Some _ => true | None => false end.

Lemma history_run s acts :
  completes s acts = true -> run sys_step s (history s acts) (final s acts).
Proof.
  unfold completes, history, final. destruct (run_fn s acts) as [[h s']|] eqn:E; [|done].
  intros _. by eapply run_fn_sound.
Qed.
End Prog.

Arguments action request env : clear implicits.
Arguments prog {op} resp A.
Arguments Ret {op resp A} _.
Arguments Do {op resp A} _ _.
Arguments sys_event event request : clear implicits.
Arguments sys {op} resp response state.

Declare Scope prog_scope.
Delimit Scope prog_scope with prog.
Open Scope prog_scope.

(** [do x <- o; k] performs the operation [o]; [do! x <- p; k] runs a
    sub-program; [try x <- p; k] runs one that may refuse, as [?] does. *)
Notation "'do' x <- o ; k" := (Do o (fun x => k))
  (at level 10, x name, o at level 100, k at level 200) : prog_scope.
Notation "'do!' x <- p ; k" := (bind p (fun x => k))
  (at level 10, x name, p at level 100, k at level 200) : prog_scope.
Notation "'try!' x <- p ; k" :=
  (bind p (fun r => match r with Ok x => k | Err e => Ret e end))
  (at level 10, x name, p at level 100, k at level 200) : prog_scope.
