(* ===== verification/Roles.v ===== *)
(** * Roles: the command table and the role gate ([crates/web/src/roles.rs])

    Every command the console dispatches has one row: the least role that may
    run it, and whether a run needs a fresh passkey ceremony.  A name with no
    row needs [Admin] and the ceremony. *)
From S2P Require Import Prelude Text.

Inductive Role : Type := Viewer | Approver | Admin.

#[export] Instance Role_eq_dec : EqDecision Role.
Proof. solve_decision. Defined.

(** The derived [Ord]: the order of the constructors. *)
Definition role_rank (r : Role) : Z :=
  match r with Viewer => 0 | Approver => 1 | Admin => 2 end.
Definition role_ltb (a b : Role) : bool := role_rank a <? role_rank b.

Definition role_as_str (r : Role) : str :=
  match r with Viewer => #"viewer" | Approver => #"approver" | Admin => #"admin" end.

(** One row of the command table. *)
Record Gate : Type := gate { name : str; role : Role; ceremony : bool }.

Definition COMMANDS : list Gate :=
  [
    gate #"admission_check" Viewer false;
    gate #"admission_status" Viewer false;
    gate #"agent_events" Viewer false;
    gate #"agent_profile" Viewer false;
    gate #"agent_stops" Viewer false;
    gate #"agent_graph" Viewer false;
    gate #"agent_slice" Viewer false;
    gate #"bus_quarantine" Viewer false;
    gate #"bus_status" Viewer false;
    gate #"case_file" Viewer false;
    gate #"copilot_ask" Viewer false;
    gate #"copilot_explain" Viewer false;
    gate #"copilot_explain_case" Viewer false;
    gate #"copilot_status" Viewer false;
    gate #"credentials_gateway_retained_runs" Viewer false;
    gate #"credentials_keys" Viewer false;
    gate #"credentials_posture" Viewer false;
    gate #"credentials_status" Viewer false;
    gate #"crypto_scan_cbom" Viewer false;
    gate #"crypto_scan_evidence" Viewer false;
    gate #"crypto_scan_ncsc" Viewer false;
    gate #"crypto_status" Viewer false;
    gate #"crypto_verify_evidence" Viewer false;
    gate #"drills_status" Viewer false;
    gate #"evidence_status" Viewer false;
    gate #"identity_list_alerts" Viewer false;
    gate #"identity_list_identities" Viewer false;
    gate #"identity_list_remediations" Viewer false;
    gate #"identity_status" Viewer false;
    gate #"lifecycle_blocks" Viewer false;
    gate #"memory_recall" Viewer false;
    gate #"memory_stats" Viewer false;
    gate #"memory_status" Viewer false;
    gate #"memory_why" Viewer false;
    gate #"money_incidents" Viewer false;
    gate #"money_list_retained" Viewer false;
    gate #"money_overview" Viewer false;
    gate #"money_owners" Viewer false;
    gate #"money_runs" Viewer false;
    gate #"money_spend_window" Viewer false;
    gate #"money_savings" Viewer false;
    gate #"money_units" Viewer false;
    gate #"money_gateways" Viewer false;
    gate #"egress_recent" Viewer false;
    gate #"money_status" Viewer false;
    gate #"onboard_status" Viewer false;
    gate #"policy_list_approvals" Viewer false;
    gate #"policy_list_policies" Viewer false;
    gate #"policy_status" Viewer false;
    gate #"policy_proof" Viewer false;
    gate #"budget_proof" Viewer false;
    gate #"case_seal" Approver false;
    gate #"case_pack" Viewer false;
    gate #"remedy_check" Viewer false;
    gate #"quality_list_baselines" Viewer false;
    gate #"quality_list_run_summaries" Viewer false;
    gate #"quality_run_scores" Viewer false;
    gate #"quality_status" Viewer false;
    gate #"policy_enforcement_status" Viewer false;
    gate #"recent_events" Viewer false;
    gate #"remote_cloud_list" Viewer false;
    gate #"remote_operator_wg_peers" Viewer false;
    gate #"remote_ssh_check_reachable" Viewer false;
    gate #"remote_status" Viewer false;
    gate #"routines_history" Viewer false;
    gate #"routines_status" Viewer false;
    gate #"run_events" Viewer false;
    gate #"stats_counts" Viewer false;
    gate #"policy_decide_approval" Approver true;
    gate #"money_kill_run" Admin true;
    gate #"money_set_budget" Admin true;
    gate #"money_ack_incident" Admin false;
    gate #"money_close_retained" Admin true;
    gate #"money_set_unit_budget" Admin true;
    gate #"agent_block" Admin false;
    gate #"unit_block" Admin false;
    gate #"user_block" Admin false;
    gate #"identity_rescan" Admin false;
    gate #"drills_run" Admin false;
    gate #"evidence_build" Admin false;
    gate #"memory_forget" Admin false;
    gate #"onboard_generate" Admin false;
    gate #"onboard_write_passport" Admin false;
    gate #"admission_baseline" Admin false;
    gate #"copilot_log_proposal_approved" Admin false;
    gate #"remote_set_environment" Admin false;
    gate #"remote_wg_connect" Admin false;
    gate #"remote_wg_disconnect" Admin false;
    gate #"remote_ssh_read_file" Admin false;
    gate #"remote_ssh_tail_start" Admin false;
    gate #"remote_ssh_tail_stop" Admin false;
    gate #"remote_operator_wg_config" Admin true;
    gate #"remote_operator_wg_revoke" Admin true;
    gate #"remote_hetzner_list" Admin false;
    gate #"delegation_revoke" Admin true;
    gate #"agent_stop" Admin true;
    gate #"agent_lift" Admin true
  ].

Definition gate_of (command : str) : option Gate :=
  List.find (fun g => str_eqb (name g) command) COMMANDS.

Definition required_role (command : str) : Role :=
  match gate_of command with Some g => role g | None => Admin end.

Definition requires_ceremony (command : str) : bool :=
  match gate_of command with Some g => ceremony g | None => true end.

Definition ceremony_commands : list str := map name (List.filter ceremony COMMANDS).

(** ** Lemmas *)

Lemma gate_of_Some c g : gate_of c = Some g -> g ∈ COMMANDS /\ name g = c.
Proof.
  unfold gate_of. intros H. apply List.find_some in H as [Hin He].
  apply str_eqb_eq in He. split; [by apply list_elem_of_In|done].
Qed.

Lemma names_NoDup : NoDup (map name COMMANDS).
Proof. by apply (bool_decide_unpack _); vm_compute. Qed.

Lemma find_NoDup (l : list Gate) g :
  NoDup (map name l) -> g ∈ l -> List.find (fun h => str_eqb (name h) (name g)) l = Some g.
Proof.
  induction l as [|h l IH]; [by intros ? ?%elem_of_nil|].
  simpl. intros [Hn Hd]%NoDup_cons [->|Hin]%elem_of_cons; [by rewrite str_eqb_refl|].
  destruct (str_eqb (name h) (name g)) eqn:E; [|auto].
  apply str_eqb_eq in E. destruct Hn. rewrite E. apply list_elem_of_fmap. eauto.
Qed.

Lemma ceremony_floor : forallb (fun g => implb (ceremony g) (negb (role_ltb (role g) Approver))) COMMANDS = true.
Proof. by vm_compute. Qed.

(** ** Properties *)

(** Each row of the command table is the row its command is looked up by,
    so the role and the ceremony a row states are the ones enforced: no row is
    shadowed by an earlier one of the same name. *)
Theorem command_table_faithful g :
  g ∈ COMMANDS ->
  gate_of (name g) = Some g /\ required_role (name g) = role g
  /\ requires_ceremony (name g) = ceremony g.
Proof.
  intros Hin. unfold required_role, requires_ceremony.
  assert (gate_of (name g) = Some g) as -> by (apply find_NoDup; [apply names_NoDup|done]).
  done.
Qed.

Lemma command_table_faithful_witness :
  gate_of #"money_kill_run" = Some (gate #"money_kill_run" Admin true)
  /\ required_role #"money_kill_run" = Admin /\ requires_ceremony #"money_kill_run" = true.
Proof.
  apply (command_table_faithful (gate #"money_kill_run" Admin true)).
  unfold COMMANDS. repeat (first [left; fail|apply elem_of_cons; left; reflexivity|apply elem_of_cons; right]).
Defined.

(** The gate fails closed.  A command with no row needs [Admin] and the
    ceremony, and every command that needs the ceremony needs at least
    [Approver], so no viewer can run one. *)
Theorem role_gate_fails_closed c :
  (gate_of c = None -> required_role c = Admin /\ requires_ceremony c = true)
  /\ (requires_ceremony c = true -> role_ltb (required_role c) Approver = false).
Proof.
  unfold required_role, requires_ceremony. split; [by intros ->|].
  destruct (gate_of c) as [g|] eqn:E; [|done]. intros Hc.
  apply gate_of_Some in E as [Hin _]. pose proof ceremony_floor as Hf.
  rewrite forallb_Forall, Forall_forall in Hf. specialize (Hf g Hin).
  rewrite Hc in Hf. simpl in Hf. by apply negb_true_iff in Hf.
Qed.

Lemma role_gate_fails_closed_witness :
  (required_role #"no_such_command" = Admin /\ requires_ceremony #"no_such_command" = true)
  /\ role_ltb (required_role #"policy_decide_approval") Approver = false.
Proof.
  split; [apply (role_gate_fails_closed #"no_such_command")|
          apply (role_gate_fails_closed #"policy_decide_approval")]; by vm_compute.
Defined.

(** The commands that carry the ceremony, in table order. *)
Lemma ceremony_commands_listed :
  ceremony_commands =
    [ #"policy_decide_approval"; #"money_kill_run"; #"money_set_budget"; #"money_close_retained";
     #"money_set_unit_budget"; #"remote_operator_wg_config"; #"remote_operator_wg_revoke";
     #"delegation_revoke"; #"agent_stop"; #"agent_lift"].
Proof. by vm_compute. Qed.
