(* ===== verification/Throttle.v ===== *)
(** * Throttle: the sign-in throttle ([crates/web/src/throttle.rs])

    A bounded table of failure windows, one per account name or client
    address.  Times are nanoseconds; [Instant] and [Duration] are [Z].  The
    table's mutex is held for the whole of each operation, so each is one
    step.  A [HashMap] iterates in an order Rust does not specify: the order
    is the parameter [iter], of which only that it lists the entries is
    assumed. *)
From S2P Require Import Prelude Text.

Record Window : Type := mkWindow { started : Z; failures : Z }.

Record LoginThrottle : Type := mkThrottle { limit : Z; window : Z; max_keys : Z }.

(** The constants of the module; a second is 10^9 ns. *)
Definition ACCOUNT_LIMIT : Z := 10.
Definition ADDRESS_LIMIT : Z := 30.
Definition WINDOW : Z := 15 * 60 * 1000000000.
Definition MAX_KEYS : Z := 4096.
Definition MAX_KEY_CHARS : nat := 128.

(** [Instant::saturating_duration_since]. *)
Definition duration_since (now earlier : Z) : Z := Z.max 0 (now - earlier).

Definition is_live (t : LoginThrottle) (w : Window) (now : Z) : bool :=
  duration_since now (started w) <? window t.

Definition table_len (m : gmap str Window) : Z := Z.of_nat (size m).

(** [LoginThrottle::check]: [Err] carries the time left. *)
Definition check (t : LoginThrottle) (m : gmap str Window) (key : str) (now : Z) : result unit Z :=
  match m !! key with
  | Some w =>
      if (limit t <=? failures w) && is_live t w now
      then Err (window t - duration_since now (started w)) else Ok ()
  | None => Ok ()
  end.

(** The first entry with the least [started], as [Iterator::min_by_key]. *)
Fixpoint min_by_started (l : list (str * Window)) : option (str * Window) :=
  match l with
  | [] => None
  | kw :: l' =>
      match min_by_started l' with
      | Some kw' => if started kw.2 <=? started kw'.2 then Some kw else Some kw'
      | None => Some kw
      end
  end.

Section Throttle.
Context (iter : gmap str Window -> list (str * Window)).

Definition make_room (t : LoginThrottle) (m : gmap str Window) (now : Z) : gmap str Window :=
  let m := filter (fun kw => is_live t kw.2 now = true) m in
  if table_len m <? max_keys t then m
  else match min_by_started (iter m) with
       | Some (key, _) => delete key m
       | None => m
       end.

Definition record_failure (t : LoginThrottle) (m : gmap str Window) (key : str) (now : Z)
  : gmap str Window :=
  match m !! key with
  | Some w =>
      <[key := if is_live t w now
               then mkWindow (started w) (u32_saturating_add (failures w) 1)
               else mkWindow now 1]> m
  | None =>
      let m := if max_keys t <=? table_len m then make_room t m now else m in
      <[key := mkWindow now 1]> m
  end.

Definition record_success (m : gmap str Window) (key : str) : gmap str Window := delete key m.

(** The operations as steps, for sequences of them. *)
Inductive op : Type :=
| Failure (key : str) (now : Z)
| Success (key : str).

Definition op_key (o : op) : str := match o with Failure k _ => k | Success k => k end.

Definition apply_op (t : LoginThrottle) (m : gmap str Window) (o : op) : gmap str Window :=
  match o with
  | Failure key now => record_failure t m key now
  | Success key => record_success m key
  end.

Definition run_ops (t : LoginThrottle) (m : gmap str Window) (os : list op) : gmap str Window :=
  fold_left (apply_op t) os m.

(** What one key sees of a sequence of operations: its own, and no capacity. *)
Definition key_op (t : LoginThrottle) (w : option Window) (o : op) : option Window :=
  match o with
  | Failure _ now =>
      match w with
      | Some w => Some (if is_live t w now
                        then mkWindow (started w) (u32_saturating_add (failures w) 1)
                        else mkWindow now 1)
      | None => Some (mkWindow now 1)
      end
  | Success _ => None
  end.
Definition key_run (t : LoginThrottle) (k : str) (w : option Window) (os : list op)
  : option Window :=
  fold_left (key_op t) (List.filter (fun o => str_eqb (op_key o) k) os) w.
End Throttle.

(** [login_key]: the value cut to [MAX_KEY_CHARS] characters. *)
Definition login_key (kind value : str) : str := kind ++ #":" ++ take MAX_KEY_CHARS value.

(** ** Lemmas *)

Lemma min_by_started_Some l :
  l <> [] -> exists kw, min_by_started l = Some kw /\ kw ∈ l
    /\ Forall (fun kw' => started kw.2 <= started kw'.2) l.
Proof.
  induction l as [|kw l IH]; [done|]. intros _. simpl.
  destruct l as [|kw1 l1].
  - exists kw. simpl. repeat split; [left|]. by repeat constructor.
  - destruct IH as (kw'&E&Hin&Hall); [done|]. rewrite E.
    destruct (Z.leb_spec (started kw.2) (started kw'.2)).
    + exists kw. repeat split; [left|]. constructor; [lia|].
      eapply Forall_impl; [exact Hall|]. simpl; intros; lia.
    + exists kw'. repeat split; [by right|]. constructor; [lia|done].
Qed.

Section Facts.
Context (iter : gmap str Window -> list (str * Window)).
Context (iter_entries : forall m, Permutation (iter m) (map_to_list m)).

Lemma iter_nil m : iter m = [] -> m = ∅.
Proof. intros H. apply map_to_list_empty_iff. apply Permutation_nil. by rewrite <- iter_entries, H. Qed.

Lemma elem_of_iter m k w : (k, w) ∈ iter m <-> m !! k = Some w.
Proof. rewrite iter_entries. apply elem_of_map_to_list. Qed.

(** What [make_room] leaves: a part of the table, with room for one key. *)
Lemma make_room_sub t m now : make_room iter t m now ⊆ m.
Proof.
  unfold make_room. repeat case_match; try apply map_filter_subseteq.
  etrans; [apply delete_subseteq|apply map_filter_subseteq].
Qed.

Lemma make_room_len t m now :
  1 <= max_keys t -> table_len m <= max_keys t -> table_len (make_room iter t m now) < max_keys t.
Proof.
  intros H1 Hm. unfold make_room. set (m' := filter _ m).
  destruct (Z.ltb_spec (table_len m') (max_keys t)); [done|].
  assert (size m' <= size m)%nat by apply map_size_filter.
  destruct (decide (iter m' = [])) as [E|E].
  - apply iter_nil in E. assert (size m' = 0%nat) by (rewrite E, map_size_empty; done).
    unfold table_len in *. lia.
  - destruct (min_by_started_Some _ E) as ([k w]&->&Hin&_). apply elem_of_iter in Hin.
    unfold table_len in *. rewrite (map_size_delete_Some _ _ (mk_is_Some _ _ Hin)).
    assert (size m' <> 0%nat) by (intros Hz%map_size_empty_inv; rewrite Hz in Hin; done). lia.
Qed.

Lemma record_failure_len t m key now :
  1 <= max_keys t -> table_len m <= max_keys t ->
  table_len (record_failure iter t m key now) <= max_keys t.
Proof.
  intros H1 Hm. unfold record_failure, table_len in *. destruct (m !! key) as [w|] eqn:E.
  - rewrite map_size_insert_Some by eauto. done.
  - assert (forall m', m' ⊆ m -> Z.of_nat (size m') < max_keys t ->
              Z.of_nat (size (<[key:=mkWindow now 1]> m')) <= max_keys t) as Hins.
    { intros m' Hsub Hlt. rewrite map_size_insert_None; [lia|].
      eapply lookup_weaken_None; eauto. }
    destruct (Z.leb_spec (max_keys t) (Z.of_nat (size m))).
    + apply Hins; [apply make_room_sub|]. by apply make_room_len.
    + apply Hins; [done|lia].
Qed.

(** While a fresh key finds room, an operation changes its own key only. *)
Lemma apply_op_lookup t m o k :
  m !! op_key o <> None \/ table_len m < max_keys t ->
  apply_op iter t m o !! k = if str_eqb (op_key o) k then key_op t (m !! k) o else m !! k.
Proof.
  intros Hroom. rewrite str_eqb_decide. destruct o as [key now|key]; simpl in *.
  - unfold record_failure. destruct (m !! key) as [w|] eqn:E.
    + rewrite lookup_insert. case_decide; simplify_eq; by rewrite ?E.
    + destruct Hroom as [?|Hroom]; [done|].
      rewrite (proj2 (Z.leb_gt _ _) Hroom), lookup_insert.
      case_decide; simplify_eq; by rewrite ?E.
  - unfold record_success. rewrite lookup_delete. by case_decide.
Qed.

Lemma dom_apply_op t m o ks :
  dom m ⊆ ks -> op_key o ∈ ks -> dom (apply_op iter t m o) ⊆ ks.
Proof.
  intros Hd Ho. destruct o as [key now|key]; simpl in *.
  - unfold record_failure. destruct (m !! key).
    + rewrite dom_insert_L. set_solver.
    + rewrite dom_insert_L. case_match; [|set_solver].
      pose proof (subseteq_dom _ _ (make_room_sub t m now)). set_solver.
  - unfold record_success. rewrite dom_delete_L. set_solver.
Qed.
End Facts.

(** ** Properties *)

Section Properties.
Context (iter : gmap str Window -> list (str * Window)).
Context (iter_entries : forall m, Permutation (iter m) (map_to_list m)).

(** The table is bounded.  Whatever sequence of failures and successes
    arrives, from an empty table it never holds more than [max_keys] keys. *)
Theorem throttle_table_bounded t os :
  1 <= max_keys t -> table_len (run_ops iter t ∅ os) <= max_keys t.
Proof.
  intros H1. unfold run_ops.
  assert (forall m, table_len m <= max_keys t ->
            table_len (fold_left (apply_op iter t) os m) <= max_keys t) as H.
  { induction os as [|o os IH]; intros m Hm; simpl; [done|]. apply IH.
    destruct o; simpl; [by apply record_failure_len|].
    unfold record_success, table_len in *. rewrite map_size_delete.
    destruct (m !! key); unfold id; lia. }
  apply H. unfold table_len. rewrite map_size_empty. lia.
Qed.

(** Keys do not affect one another.  While the operations name at most
    [max_keys] distinct keys, the window of a key after the whole sequence
    is the one its own operations alone leave. *)
Theorem throttle_keys_independent (t : LoginThrottle) (os : list op) (ks : gset str) (k : str) :
  (forall o, o ∈ os -> op_key o ∈ ks) -> Z.of_nat (size ks) <= max_keys t ->
  run_ops iter t ∅ os !! k = key_run t k None os.
Proof.
  intros Hks Hsz. unfold run_ops, key_run.
  assert (forall m, dom m ⊆ ks ->
    fold_left (apply_op iter t) os m !! k
    = fold_left (key_op t) (List.filter (fun o => str_eqb (op_key o) k) os) (m !! k)) as H.
  { induction os as [|o os IH]; intros m Hd; simpl; [done|].
    assert (op_key o ∈ ks) as Ho by (apply Hks; left).
    rewrite IH; [|intros; apply Hks; by right|by apply dom_apply_op].
    rewrite apply_op_lookup.
    - by destruct (str_eqb (op_key o) k).
    - destruct (m !! op_key o) as [w|] eqn:E; [by left|right].
      assert (dom m ⊂ ks) as Hsub.
      { split; [done|]. intros Hr. apply Hr in Ho. by apply elem_of_dom in Ho as [? ?]; simplify_eq. }
      apply subset_size in Hsub. rewrite size_dom in Hsub. unfold table_len. lia. }
  rewrite H; [done|]. rewrite dom_empty_L. set_solver.
Qed.

(** Making room is fair.  A key that is still inside its window loses its
    count to a new key only when the table is full, and then only as the
    oldest: every other entry kept from before started no earlier. *)
Theorem throttle_evicts_oldest t m key now k w :
  m !! k = Some w -> is_live t w now = true -> k <> key ->
  record_failure iter t m key now !! k = None ->
  max_keys t <= table_len m
  /\ (forall k' w', k' <> key -> record_failure iter t m key now !! k' = Some w' ->
        started w <= started w').
Proof.
  intros Hk Hlive Hne. unfold record_failure. destruct (m !! key) as [wk|] eqn:Ekey.
  { rewrite lookup_insert_ne by done. congruence. }
  rewrite lookup_insert_ne by done.
  destruct (Z.leb_spec (max_keys t) (table_len m)) as [Hfull|]; [|congruence].
  intros Hgone. split; [done|]. intros k' w' Hk'. rewrite lookup_insert_ne by done.
  revert Hgone. unfold make_room. set (m' := filter _ m).
  assert (m' !! k = Some w) as Hm' by (apply map_lookup_filter_Some; done).
  destruct (_ <? _); [congruence|].
  destruct (min_by_started_Some (iter m')) as ([k0 w0]&->&Hin&Hall).
  { intros E. apply (iter_nil iter iter_entries) in E. rewrite E in Hm'. done. }
  destruct (decide (k0 = k)) as [->|]; [|rewrite lookup_delete_ne by done; congruence].
  intros _ Hw'. apply lookup_delete_Some in Hw' as [Hne' Hw'].
  apply (elem_of_iter iter iter_entries) in Hin. simplify_eq.
  rewrite Forall_forall in Hall. apply (Hall (k', w')).
  by apply (elem_of_iter iter iter_entries).
Qed.
End Properties.

(** A held key is told the right wait.  The time [check] answers is
    positive and at most the window; asked again any earlier than that the key
    is still held, and from then on it is admitted. *)
Theorem check_wait_exact t m key now d :
  check t m key now = Err d ->
  0 < d <= window t
  /\ forall e, 0 <= e ->
       (e < d -> exists d', check t m key (now + e) = Err d')
       /\ (d <= e -> (exists w, m !! key = Some w /\ started w <= now) ->
            check t m key (now + e) = Ok ()).
Proof.
  unfold check. destruct (m !! key) as [w|] eqn:E; [|done].
  unfold is_live, duration_since. destruct (_ && _) eqn:Ec; [|done]. b2p. intros [= <-].
  destruct Ec as [Hf Hl]. split; [lia|]. intros e He. split.
  - intros. rewrite (proj2 (Z.leb_le _ _) Hf), (proj2 (Z.ltb_lt _ _)) by lia. simpl. eauto.
  - intros Hd (w'&[= <-]&Hs). rewrite (proj2 (Z.ltb_ge _ _)), andb_false_r by lia. done.
Qed.

(** The lock-out.  From no window, [limit] failures of one key inside one
    window of the first hold the key until that window has passed. *)
Theorem throttle_locks_out t key t0 ts now :
  1 <= limit t <= u32_max -> Z.of_nat (S (length ts)) = limit t ->
  Forall (fun x => t0 <= x < t0 + window t) ts -> t0 <= now < t0 + window t ->
  key_run t key None (map (Failure key) (t0 :: ts)) = Some (mkWindow t0 (limit t))
  /\ forall m, m !! key = Some (mkWindow t0 (limit t)) ->
       check t m key now = Err (window t - (now - t0)).
Proof.
  intros Hl Hn Hts Hnow. split.
  - unfold key_run. simpl. rewrite str_eqb_refl. simpl.
    assert (forall n, Z.of_nat n + Z.of_nat (length ts) <= u32_max ->
      fold_left (key_op t) (List.filter (fun o => str_eqb (op_key o) key) (map (Failure key) ts))
        (Some (mkWindow t0 (Z.of_nat n)))
      = Some (mkWindow t0 (Z.of_nat n + Z.of_nat (length ts)))) as H.
    { clear Hn. induction Hts as [|x ts Hx Hts IH]; intros n Hb; simpl.
      - f_equal. f_equal. lia.
      - rewrite str_eqb_refl. simpl. unfold is_live, duration_since. simpl.
        rewrite (proj2 (Z.ltb_lt _ _)) by lia. unfold u32_saturating_add. simpl in Hb.
        replace (Z.min u32_max (Z.of_nat n + 1)) with (Z.of_nat (S n)) by lia.
        rewrite IH by lia. do 2 f_equal. lia. }
    specialize (H 1%nat). change (Z.of_nat 1) with 1 in H. rewrite H by lia. do 2 f_equal. lia.
  - intros m Hm. unfold check. rewrite Hm. unfold is_live, duration_since. simpl.
    rewrite (proj2 (Z.leb_le _ _)), (proj2 (Z.ltb_lt _ _)) by lia. simpl. f_equal. lia.
Qed.

(** ** Witnesses *)

Definition demo : LoginThrottle := mkThrottle 3 60 2.

Lemma throttle_table_bounded_witness :
  table_len (run_ops map_to_list demo ∅ [Failure #"a" 1; Failure #"b" 2; Failure #"c" 3]) <= 2.
Proof. apply (throttle_table_bounded map_to_list (fun m => reflexivity _) demo). simpl. lia. Defined.

Lemma throttle_keys_independent_witness :
  run_ops map_to_list demo ∅ [Failure #"a" 1; Failure #"b" 2; Failure #"a" 3; Success #"b"] !! #"a"
  = Some (mkWindow 1 2).
Proof.
  rewrite (throttle_keys_independent map_to_list (fun m => reflexivity _) demo _
             {[ #"a"; #"b" ]} #"a").
  - by vm_compute.
  - intros o Ho. set_unfold. destruct_or!; subst; simpl; set_solver.
  - by vm_compute.
Defined.

Lemma throttle_evicts_oldest_witness :
  let m : gmap str Window := {[ #"a" := mkWindow 1 1; #"b" := mkWindow 2 1 ]} in
  max_keys demo <= table_len m
  /\ (forall k' w', k' <> #"c" -> record_failure map_to_list demo m #"c" 3 !! k' = Some w' ->
        1 <= started w').
Proof.
  apply (throttle_evicts_oldest map_to_list (fun m => reflexivity _) demo
           {[ #"a" := mkWindow 1 1; #"b" := mkWindow 2 1 ]} #"c" 3 #"a" (mkWindow 1 1));
    by vm_compute.
Defined.

Lemma check_wait_exact_witness : exists d,
  check demo {[ #"a" := mkWindow 10 3 ]} #"a" 20 = Err d /\ 0 < d <= 60.
Proof.
  exists 50. split; [by vm_compute|].
  apply (check_wait_exact demo {[ #"a" := mkWindow 10 3 ]} #"a" 20). by vm_compute.
Defined.

Lemma throttle_locks_out_witness :
  key_run demo #"a" None (map (Failure #"a") [5; 6; 7]) = Some (mkWindow 5 3).
Proof.
  apply (throttle_locks_out demo #"a" 5 [6; 7] 30); simpl; unfold u32_max; repeat constructor; lia.
Defined.
