(* ===== verification/Sessions.v ===== *)
(** * Sessions: sign-in, the session table and its two clocks
    ([crates/web/src/auth.rs])

    Argon2 and the operating system's randomness are not this repository's
    code: they are parameters ([hash_password], [verify_password], the bytes a
    session id is made of).  Each operation holds the table's mutex throughout
    and is one step; the clock it reads is its argument [now]. *)
From S2P Require Import Prelude Text Roles.

Definition IDLE_TIMEOUT : Z := 12 * 60 * 60 * 1000000000.
Definition ABSOLUTE_LIFETIME : Z := 24 * 60 * 60 * 1000000000.

Record Operator : Type := mkOperator { username : str; phc : str }.

(** [set_operator] up to the write: what it refuses, and the record it writes. *)
Definition set_operator (hash_password : str -> result str str) (user password : str)
  : result Operator str :=
  if bool_decide (trim user = []) then Err #"username must not be empty"
  else if chars_count password <? 12 then Err #"password must be at least 12 characters"
  else let? h := map_err (fun e => #"hashing failed: " ++ e) (hash_password password) in
       Ok (mkOperator user h).

(** [verify].  [parse_phc] is [PasswordHash::new], [verify_password] Argon2's
    check; the password is checked whether or not the name matches. *)
Definition verify {H} (parse_phc : str -> option H) (verify_password : str -> H -> bool)
  (op : Operator) (user password : str) : bool :=
  match parse_phc (phc op) with
  | None => false
  | Some parsed =>
      let password_ok := verify_password password parsed in
      let user_ok := str_eqb (username op) user in
      password_ok && user_ok
  end.

Inductive Method : Type := Local | Oidc.

Definition method_as_str (m : Method) : str :=
  match m with Local => #"local" | Oidc => #"oidc" end.

Record SessionInfo : Type := mkInfo { si_user : str; si_role : Role; si_method : Method }.

Record Session : Type := mkSession
  { s_user : str; s_role : Role; s_method : Method; last_seen : Z; created : Z }.

Record SessionLimits : Type := mkLimits { idle_timeout : Z; absolute_lifetime : Z }.
Definition default_limits : SessionLimits := mkLimits IDLE_TIMEOUT ABSOLUTE_LIFETIME.

(** [Instant::elapsed] at [now]. *)
Definition elapsed (now t : Z) : Z := Z.max 0 (now - t).

Definition session_live (l : SessionLimits) (s : Session) (now : Z) : bool :=
  (elapsed now (last_seen s) <? idle_timeout l)
  && (elapsed now (created s) <? absolute_lifetime l).

(** [Sessions::create], from the 32 random bytes of the new id. *)
Definition create (l : SessionLimits) (m : gmap str Session) (bytes : list Z)
  (user : str) (role : Role) (method : Method) (now : Z) : str * gmap str Session :=
  let id := hex_bytes bytes in
  let m := filter (fun ks => session_live l ks.2 now = true) m in
  (id, <[id := mkSession user role method now now]> m).

(** [Sessions::touch]. *)
Definition touch (l : SessionLimits) (m : gmap str Session) (id : str) (now : Z)
  : option SessionInfo * gmap str Session :=
  match m !! id with
  | Some s =>
      if (elapsed now (last_seen s) <? idle_timeout l)
         && (elapsed now (created s) <? absolute_lifetime l)
      then (Some (mkInfo (s_user s) (s_role s) (s_method s)),
            <[id := mkSession (s_user s) (s_role s) (s_method s) now (created s)]> m)
      else (None, delete id m)
  | None => (None, m)
  end.

(** [Sessions::revoke]. *)
Definition revoke (m : gmap str Session) (id : str) : gmap str Session := delete id m.

(** ** The session table as a step relation *)

Inductive event : Type :=
| Created (id : str) (user : str) (role : Role) (method : Method) (at_ : Z)
| Touched (id : str) (at_ : Z) (answer : option SessionInfo)
| Revoked (id : str) (at_ : Z).

Definition event_time (e : event) : Z :=
  match e with Created _ _ _ _ t => t | Touched _ t _ => t | Revoked _ t => t end.

(** The table with the time of the last operation: the clock never goes back. *)
Inductive step (l : SessionLimits) : gmap str Session * Z -> event -> gmap str Session * Z -> Prop :=
| step_create m t now bytes user role method id m' :
    t <= now -> create l m bytes user role method now = (id, m') ->
    step l (m, t) (Created id user role method now) (m', now)
| step_touch m t now id answer m' :
    t <= now -> touch l m id now = (answer, m') ->
    step l (m, t) (Touched id now answer) (m', now)
| step_revoke m t now id :
    t <= now -> step l (m, t) (Revoked id now) (revoke m id, now).

(** ** Lemmas *)

Lemma touch_Some l m id now info m' :
  touch l m id now = (Some info, m') ->
  exists s, m !! id = Some s /\ session_live l s now = true
    /\ info = mkInfo (s_user s) (s_role s) (s_method s)
    /\ m' = <[id := mkSession (s_user s) (s_role s) (s_method s) now (created s)]> m.
Proof.
  unfold touch. destruct (m !! id) as [s|]; [|done]. fold (session_live l s now).
  destruct (session_live l s now) eqn:E; [|done]. intros [= <- <-]. by exists s.
Qed.

Lemma touch_None l m id now m' : touch l m id now = (None, m') -> m' = delete id m.
Proof.
  unfold touch. destruct (m !! id) as [s|] eqn:E.
  - by destruct (_ && _); intros [= <-].
  - intros [= <-]. by rewrite delete_id.
Qed.

(** Every session of the table was created by an event of the history, and no
    later event created it again or revoked it. *)
Definition from_history (h : list event) (id : str) (s : Session) : Prop :=
  exists h1 h2, h = h1 ++ Created id (s_user s) (s_role s) (s_method s) (created s) :: h2
    /\ Forall (fun e => match e with
                        | Created id' _ _ _ _ => id' <> id
                        | Revoked id' _ => id' <> id
                        | Touched id' _ a => id' = id -> a <> None
                        end) h2.

Lemma from_history_snoc h id s e :
  from_history h id s ->
  match e with
  | Created id' _ _ _ _ => id' <> id
  | Revoked id' _ => id' <> id
  | Touched id' _ a => id' = id -> a <> None
  end -> from_history (h ++ [e]) id s.
Proof.
  intros (h1&h2&->&H) He. exists h1, (h2 ++ [e]). rewrite <- app_assoc. split; [done|].
  apply Forall_app. auto.
Qed.

Definition table_ok (h : list event) (mt : gmap str Session * Z) : Prop :=
  forall id s, mt.1 !! id = Some s ->
    created s <= last_seen s <= mt.2 /\ from_history h id s.

Lemma table_ok_step l h mt e mt' :
  table_ok h mt -> step l mt e mt' -> table_ok (h ++ [e]) mt'.
Proof.
  intros Hok Hs. destruct Hs as [m t now bytes user role method id m' Ht E
                                |m t now id answer m' Ht E|m t now id Ht]; intros i s Hi; simpl in *.
  - unfold create in E. injection E as <- <-. apply lookup_insert_Some in Hi as [[<- <-]|[Hne Hi]]; simpl.
    + split; [lia|]. exists h, []. split; [done|constructor].
    + apply map_lookup_filter_Some in Hi as [Hi _]. apply Hok in Hi as [? Hh]; simpl in *.
      split; [lia|]. by apply from_history_snoc.
  - destruct answer as [info|].
    + apply touch_Some in E as (s0&Hs0&_&_&->).
      apply Hok in Hs0 as Hs0'. destruct Hs0' as [? Hh]; simpl in *.
      apply lookup_insert_Some in Hi as [[<- <-]|[Hne Hi]]; simpl.
      * split; [lia|]. destruct s0. by apply from_history_snoc.
      * apply Hok in Hi as [? Hh']; simpl in *. split; [lia|]. by apply from_history_snoc.
    + apply touch_None in E as ->. apply lookup_delete_Some in Hi as [Hne Hi].
      apply Hok in Hi as [? Hh']; simpl in *. split; [lia|]. by apply from_history_snoc.
  - unfold revoke in Hi. apply lookup_delete_Some in Hi as [Hne Hi].
    apply Hok in Hi as [? Hh']; simpl in *. split; [lia|]. by apply from_history_snoc.
Qed.

Lemma session_table_run l es mt h mt' :
  run (step l) mt es mt' -> table_ok h mt -> table_ok (h ++ es) mt'.
Proof.
  intros Hr; revert h; induction Hr as [mt|mt e mt1 es mt2 Hs Hr IH]; intros h Hok.
  - by rewrite app_nil_r.
  - change (e :: es) with ([e] ++ es). rewrite app_assoc. apply IH. by eapply table_ok_step.
Qed.

(** Without a new sign-in under the same id, an id the table does not hold is
    never resolved again. *)
Lemma absent_stays l es mt mt' id :
  run (step l) mt es mt' -> mt.1 !! id = None ->
  (forall e, e ∈ es -> match e with Created id' _ _ _ _ => id' <> id | _ => True end) ->
  mt'.1 !! id = None /\ forall now a, Touched id now a ∈ es -> a = None.
Proof.
  induction 1 as [mt|mt e mt1 es mt2 Hs Hr IH]; intros Hn Hes.
  { split; [done|]. by intros ? ? ?%elem_of_nil. }
  assert (mt1.1 !! id = None /\ forall now a, e = Touched id now a -> a = None) as [H1 H2].
  { specialize (Hes e ltac:(left)).
    destruct Hs as [m t now bytes user role method i m' Ht E|m t now i answer m' Ht E|m t now i Ht];
      simpl in *.
    - unfold create in E. injection E as <- <-. split; [|done].
      rewrite lookup_insert_ne by done. apply map_lookup_filter_None. auto.
    - destruct answer as [info|].
      + apply touch_Some in E as (s0&Hs0&_&_&->). split.
        * rewrite lookup_insert_ne; congruence.
        * intros ? ? [= -> -> <-]. congruence.
      + apply touch_None in E as ->. split; [|congruence].
        destruct (decide (i = id)) as [->|]; [apply lookup_delete_eq|by rewrite lookup_delete_ne].
    - split; [|done]. unfold revoke.
      destruct (decide (i = id)) as [->|]; [apply lookup_delete_eq|by rewrite lookup_delete_ne]. }
  destruct IH as [Ha Hb]; [done|intros; apply Hes; by right|]. split; [done|].
  intros now a [<-|Hin]%elem_of_cons; [by eapply H2|by eapply Hb].
Qed.

(** ** Properties *)

(** A session id resolves only for a live sign-in.  In every run of the
    table, when [touch] answers with a user at a role, the history holds the
    sign-in of that id by that user at that role and method, later than
    [absolute_lifetime] ago, and since then the id was neither signed out nor
    ever refused. *)
Theorem session_resolves_only_live l es m t id now info m' :
  run (step l) (∅, 0) es (m, t) -> t <= now -> touch l m id now = (Some info, m') ->
  exists h1 h2 c,
    es = h1 ++ Created id (si_user info) (si_role info) (si_method info) c :: h2
    /\ now - c < absolute_lifetime l
    /\ Forall (fun e => match e with
                        | Created id' _ _ _ _ => id' <> id
                        | Revoked id' _ => id' <> id
                        | Touched id' _ a => id' = id -> a <> None
                        end) h2.
Proof.
  intros Hr Ht E. apply touch_Some in E as (s&Hs&Hlive&->&_).
  assert (table_ok es (m, t)) as Hok.
  { change es with ([] ++ es). eapply session_table_run; [exact Hr|]. intros i s0. simpl. set_solver. }
  apply Hok in Hs as [Htime (h1&h2&->&Hall)]. simpl in *.
  exists h1, h2, (created s). split; [done|]. split; [|done].
  unfold session_live, elapsed in Hlive. b2p. lia.
Qed.

(** A refusal is final.  Once [touch] has refused an id, or it was signed
    out, no later operation resolves it unless it is created anew. *)
Theorem session_refusal_final l m t m0 es mt' id now :
  touch l m id now = (None, m0) \/ revoke m id = m0 ->
  run (step l) (m0, t) es mt' ->
  (forall e, e ∈ es -> match e with Created id' _ _ _ _ => id' <> id | _ => True end) ->
  forall n a, Touched id n a ∈ es -> a = None.
Proof.
  intros H Hr Hes. eapply absent_stays; [exact Hr| |done]. simpl.
  destruct H as [->%touch_None|<-]; apply lookup_delete_eq.
Qed.

(** ** Witnesses *)

Definition demo_limits : SessionLimits := mkLimits 10 25.
Definition demo_table : gmap str Session :=
  snd (create demo_limits ∅ [1] #"alice" Admin Local 5).

Lemma demo_run : run (step demo_limits) (∅, 0) [Created #"01" #"alice" Admin Local 5] (demo_table, 5).
Proof.
  econstructor; [|constructor]. apply (step_create _ _ _ _ [1]); [lia|]. by vm_compute.
Defined.

Lemma session_resolves_only_live_witness :
  exists h1 h2 c,
    [Created #"01" #"alice" Admin Local 5] = h1 ++ Created #"01" #"alice" Admin Local c :: h2
    /\ 12 - c < 25.
Proof.
  destruct (session_resolves_only_live demo_limits _ _ _ #"01" 12 (mkInfo #"alice" Admin Local)
              (snd (touch demo_limits demo_table #"01" 12)) demo_run) as (h1&h2&c&H1&H2&_).
  - lia.
  - by vm_compute.
  - by exists h1, h2, c.
Defined.

Lemma session_refusal_final_witness :
  touch demo_limits demo_table #"01" 30 = (None, delete #"01" demo_table)
  /\ forall n a, Touched #"01" n a ∈ [Touched #"01" 31 None] -> a = None.
Proof.
  split; [by vm_compute|].
  apply (session_refusal_final demo_limits demo_table 30 (delete #"01" demo_table)
           [Touched #"01" 31 None] (delete #"01" demo_table, 31) #"01" 30).
  - left. by vm_compute.
  - econstructor; [|constructor]. apply step_touch; [lia|by vm_compute].
  - intros e He. apply list_elem_of_singleton in He as ->. done.
Defined.
