(* ===== verification/Signing.v ===== *)
(** * Signing: ES256 and the canonical request
    ([crates/signing/src/es256.rs], [crates/signing/src/lib.rs])

    The hash, the curve and base64 are other crates' code ([sha2], [p256],
    [base64], [getrandom]): they are the fields of the class [Primitives], and
    what the proofs use of them is stated by [PrimitivesLaws].  A byte is a [Z]
    in [0, 255]. *)
From S2P Require Import Prelude Text.

(** What [es256.rs], [approver.rs] and [webauthn.rs] call in other crates. *)
Class Primitives := {
  sha256 : list Z -> list Z;                        (* [Sha256::digest] *)
  VerifyingKey : Type;
  Signature : Type;
  from_sec1_bytes : list Z -> result VerifyingKey str;
  signature_from_slice : list Z -> result Signature str;
  signature_from_der : list Z -> result Signature str;
  signature_to_bytes : Signature -> list Z;
  ecdsa_verify : VerifyingKey -> list Z -> Signature -> bool;
  b64_encode : list Z -> str;                       (* [STANDARD] *)
  b64_decode : str -> option (list Z);
  b64url_encode : list Z -> str;                    (* [URL_SAFE_NO_PAD] *)
  b64url_decode : str -> option (list Z);
}.

(** Their documented behaviour, where a proof needs it. *)
Class PrimitivesLaws `{Primitives} := {
  b64_round bs : Forall (fun b => 0 <= b <= 255) bs -> b64_decode (b64_encode bs) = Some bs;
  b64url_round bs : Forall (fun b => 0 <= b <= 255) bs -> b64url_decode (b64url_encode bs) = Some bs;
  b64url_alphabet bs : Forall (fun b => 0 <= b <= 255) bs ->
    Forall (fun c => ascii_alnum c || (c =? 45) || (c =? 95) = true) (b64url_encode bs);
}.

Inductive SigningError : Type :=
| KeyGeneration (e : str)
| KeyExport (e : str)
| Signing (e : str)
| Entropy (e : str)
| MalformedPublicKey (e : str)
| MalformedSignature (e : str)
| VerificationFailed
| ClockBeforeEpoch.

Inductive Assurance : Type := SecureEnclave | SoftwareSecKey | SoftwareP256.

Definition label (a : Assurance) : str :=
  match a with
  | SecureEnclave => #"secure-enclave"
  | SoftwareSecKey | SoftwareP256 => #"software-signed"
  end.

Definition is_hardware (a : Assurance) : bool :=
  match a with SecureEnclave => true | _ => false end.

(** The trait [Es256Signer], with its two provided methods. *)
Record Es256Signer : Type := mkSigner
  { assurance : Assurance;
    public_key_x963 : result (list Z) SigningError;
    sign_raw : list Z -> result (list Z) SigningError }.

(** [hex_lower]. *)
Definition hex_lower (bytes : list Z) : str := hex_bytes bytes.

(** [random_hex], given what [getrandom] answers. *)
Definition random_hex (buf : result (list Z) str) : result str SigningError :=
  let? buf := map_err Entropy buf in Ok (hex_lower buf).

(** [canonical_request]. *)
Definition canonical_request (method path body_sha256_hex ts nonce : str) : str :=
  method ++ [10] ++ path ++ [10] ++ body_sha256_hex ++ [10] ++ ts ++ [10] ++ nonce.

Record SignedMutation : Type := mkSigned { sm_ts : str; sm_nonce : str; sig_b64 : str }.

Section Es256.
Context `{Primitives}.

Definition public_key_b64 (s : Es256Signer) : result str SigningError :=
  let? k := public_key_x963 s in Ok (b64_encode k).
Definition sign_b64 (s : Es256Signer) (message : list Z) : result str SigningError :=
  let? raw := sign_raw s message in Ok (b64_encode raw).

Definition body_sha256_hex (body : list Z) : str := hex_lower (sha256 body).

Definition sign_mutation_at (signer : Es256Signer) (method path : str) (body : list Z)
  (ts nonce : str) : result SignedMutation SigningError :=
  let canonical := canonical_request method path (body_sha256_hex body) ts nonce in
  let? sig := sign_b64 signer (str_bytes canonical) in
  Ok (mkSigned ts nonce sig).

(** [sign_mutation]: the clock in seconds ([None] before the epoch) and the
    operating system's 16 random bytes are arguments. *)
Definition sign_mutation (clock : option Z) (buf : result (list Z) str)
  (signer : Es256Signer) (method path : str) (body : list Z) : result SignedMutation SigningError :=
  let? ts := ok_or clock ClockBeforeEpoch in
  let? nonce := random_hex buf in
  sign_mutation_at signer method path body (dec ts) nonce.

Definition der_to_raw_rs (der : list Z) : result (list Z) SigningError :=
  let? sig := map_err MalformedSignature (signature_from_der der) in
  Ok (signature_to_bytes sig).

Definition verify_es256 (pubkey_x963 message raw_sig : list Z) : result unit SigningError :=
  let? vk := map_err MalformedPublicKey (from_sec1_bytes pubkey_x963) in
  let? sig := map_err MalformedSignature (signature_from_slice raw_sig) in
  if ecdsa_verify vk message sig then Ok tt else Err VerificationFailed.

(** [verify_es256_b64]; [b64_error] is the text of base64's own error. *)
Definition verify_es256_b64 (b64_error : str -> str) (pubkey_b64 : str) (message : list Z)
  (sig_b64 : str) : result unit SigningError :=
  let? pk := ok_or (b64_decode pubkey_b64) (MalformedPublicKey (b64_error pubkey_b64)) in
  let? sig := ok_or (b64_decode sig_b64) (MalformedSignature (b64_error sig_b64)) in
  verify_es256 pk message sig.

(** [SoftwareSigner::generate]: up to 16 draws from the system's randomness,
    [draws n] being the [n]th; [SigningKey::from_slice] is [from_slice]. *)
Fixpoint generate_from {K} (from_slice : list Z -> option K)
  (draws : nat -> result (list Z) str) (tries : nat) (i : nat) : result K SigningError :=
  match tries with
  | O => Err (KeyGeneration #"no valid P-256 scalar in 16 draws (entropy source broken?)")
  | S tries =>
      let? buf := map_err Entropy (draws i) in
      match from_slice buf with
      | Some key => Ok key
      | None => generate_from from_slice draws tries (S i)
      end
  end.
Definition generate {K} (from_slice : list Z -> option K) (draws : nat -> result (list Z) str)
  : result K SigningError := generate_from from_slice draws 16 0.
End Es256.

(** [hex_to_bytes] of [webauthn.rs].  [u8::from_str_radix] reads two digits,
    or a sign and one digit; text outside ASCII has no such pairs. *)
Definition hex_value (c : Z) : option Z :=
  if ascii_digit c then Some (c - 48)
  else if (97 <=? c) && (c <=? 102) then Some (c - 87)
  else if (65 <=? c) && (c <=? 70) then Some (c - 55)
  else None.
Definition radix16_pair (a b : Z) : option Z :=
  let! lo := hex_value b in
  if a =? 43 then Some lo else let! hi := hex_value a in Some (hi * 16 + lo).
Fixpoint hex_pairs (bs : list Z) : option (list Z) :=
  match bs with
  | [] => Some []
  | a :: b :: bs' => let! v := radix16_pair a b in let! vs := hex_pairs bs' in Some (v :: vs)
  | [_] => None
  end.
Definition hex_to_bytes (hex : str) : option (list Z) := hex_pairs (str_bytes hex).

(** ** Lemmas *)

Definition is_hex (c : Z) : Prop := 48 <= c <= 57 \/ 97 <= c <= 102.

Lemma hex_digit_range n : 0 <= n < 16 -> is_hex (hex_digit n).
Proof. intros. unfold is_hex, hex_digit. case_match; b2p; lia. Qed.

Lemma hex_value_digit n : 0 <= n < 16 -> hex_value (hex_digit n) = Some n.
Proof.
  intros. unfold hex_value, hex_digit, ascii_digit.
  repeat case_match; b2p; try (f_equal; lia); destruct_or?; lia.
Qed.

Lemma hex2_pair b : 0 <= b <= 255 -> radix16_pair (hex_digit (b / 16)) (hex_digit (b mod 16)) = Some b.
Proof.
  intros. pose proof (Z.mod_pos_bound b 16). pose proof (Z.div_pos b 16).
  assert (b / 16 < 16) by (apply Z.div_lt_upper_bound; lia).
  unfold radix16_pair. rewrite (hex_value_digit (b mod 16)) by lia.
  pose proof (hex_digit_range (b / 16)) as Hr. unfold is_hex in Hr.
  destruct (hex_digit (b / 16) =? 43) eqn:E; b2p; [lia|].
  rewrite hex_value_digit by lia. f_equal. pose proof (Z.div_mod b 16). lia.
Qed.

Lemma str_bytes_ascii s : Forall (fun c => 0 <= c < 128) s -> str_bytes s = s.
Proof.
  induction 1 as [|c s H _ IH]; [done|]. simpl. unfold utf8_enc.
  replace (c <? 128) with true by (symmetry; b2p; lia). simpl. by f_equal.
Qed.

Lemma hex_bytes_chars bs :
  Forall (fun b => 0 <= b <= 255) bs -> Forall is_hex (hex_bytes bs).
Proof.
  induction 1 as [|b bs H _ IH]; [constructor|]. unfold hex_bytes. simpl.
  pose proof (Z.mod_pos_bound b 16). pose proof (Z.div_pos b 16).
  assert (b / 16 < 16) by (apply Z.div_lt_upper_bound; lia).
  constructor; [apply hex_digit_range; lia|]. constructor; [apply hex_digit_range; lia|exact IH].
Qed.

(** What [random_hex] prints, [hex_to_bytes] reads back. *)
Lemma hex_round bs :
  Forall (fun b => 0 <= b <= 255) bs -> hex_to_bytes (hex_lower bs) = Some bs.
Proof.
  intros H. unfold hex_to_bytes, hex_lower.
  rewrite str_bytes_ascii
    by (eapply Forall_impl; [by apply hex_bytes_chars|]; unfold is_hex; intros; simpl in *; lia).
  induction H as [|b bs Hb _ IH]; [done|]. unfold hex_bytes in *. simpl.
  by rewrite hex2_pair, IH.
Qed.

Lemma line_inj (a a' b b' : str) :
  10 ∉ a -> 10 ∉ a' -> a ++ [10] ++ b = a' ++ [10] ++ b' -> a = a' /\ b = b'.
Proof.
  intros H H' E. apply (f_equal (split_once [10])) in E. simpl in E.
  rewrite !split_once_char_app in E by done. by simplify_eq.
Qed.

(** ** Properties *)

(** The signed bytes name one request.  Two requests whose method, path,
    body digest and timestamp hold no newline, with the same canonical string,
    are the same request field by field, whatever their nonces hold. *)
Theorem canonical_request_injective m p h ts n m' p' h' ts' n' :
  Forall (fun s => 10 ∉ s) [m; p; h; ts; m'; p'; h'; ts'] ->
  canonical_request m p h ts n = canonical_request m' p' h' ts' n' ->
  m = m' /\ p = p' /\ h = h' /\ ts = ts' /\ n = n'.
Proof.
  unfold canonical_request. rewrite !Forall_cons. intros H E. destruct_and!.
  apply line_inj in E as [-> E]; [|done..]. apply line_inj in E as [-> E]; [|done..].
  apply line_inj in E as [-> E]; [|done..]. by apply line_inj in E as [-> ->].
Qed.

Lemma canonical_request_injective_witness :
  canonical_request #"POST" #"/v1/kill" #"ab" #"17" #"n1" <>
  canonical_request #"POST" #"/v1/kill" #"ab" #"17" #"n2".
Proof.
  intros E. apply canonical_request_injective in E; [|apply (bool_decide_unpack _); by vm_compute].
  destruct E as (_&_&_&_&E). revert E. by vm_compute.
Defined.

(** ** A concrete instance

    Hexadecimal for base64, the identity for the hash, and a signature that is
    the key followed by the message: it satisfies the laws, so the witnesses
    of the components can evaluate on it. *)
Definition demo_primitives : Primitives := {|
  sha256 := fun bs => bs;
  VerifyingKey := list Z;
  Signature := list Z;
  from_sec1_bytes := Ok;
  signature_from_slice := Ok;
  signature_from_der := Ok;
  signature_to_bytes := fun s => s;
  ecdsa_verify := fun k m s => bool_decide (s = k ++ m);
  b64_encode := hex_bytes;
  b64_decode := hex_to_bytes;
  b64url_encode := hex_bytes;
  b64url_decode := hex_to_bytes;
|}.

#[export] Instance demo_laws : @PrimitivesLaws demo_primitives.
Proof.
  split; simpl; [apply hex_round..|]. intros bs H.
  eapply Forall_impl; [by apply hex_bytes_chars|]. unfold is_hex, ascii_alnum, ascii_digit, ascii_lower.
  intros c Hc. simpl in *. b2p. lia.
Qed.
