(* ===== verification/Webauthn.v ===== *)
(** * Webauthn: the per-action passkey ceremony ([crates/web/src/webauthn.rs])

    The passkey store, the one-shot challenge table, the parsers of what the
    browser sends, and the two verifications.  The store and the table each
    hold a mutex for the whole of an operation, so each operation is one
    function on its state; whether the store's file could be written is the
    argument [persisted].  CBOR and JSON decoding are other crates' code: they
    are the fields of the class [Envelope]. *)
From S2P Require Import Prelude Text Signing.

Definition CEREMONY_TTL : Z := 120 * 1000000000.
Definition FLAG_UP : Z := 1.
Definition FLAG_UV : Z := 4.
Definition FLAG_AT : Z := 64.

Inductive WebAuthnError : Type :=
| Malformed (what : str)
| Mismatch (what : str)
| UserNotPresent
| UserNotVerified
| UnsupportedAttestation
| UnsupportedKey (what : str)
| BadSignature
| CloneSuspected
| UnknownChallenge
| WrongUser
| UnknownCredential
| LastPasskey
| Store (e : str).

(** The [Display] of an error. *)
Definition error_text (e : WebAuthnError) : str :=
  match e with
  | Malformed what => #"malformed " ++ what
  | Mismatch what => what ++ #" mismatch"
  | UserNotPresent => #"user presence not asserted"
  | UserNotVerified => #"user verification not asserted"
  | UnsupportedAttestation =>
      #"unsupported attestation format (only " ++ [34] ++ #"none" ++ [34] ++ #")"
  | UnsupportedKey what => #"unsupported key: " ++ what
  | BadSignature => #"signature verification failed"
  | CloneSuspected => #"signature counter regressed (possible cloned authenticator)"
  | UnknownChallenge => #"unknown or expired challenge"
  | WrongUser => #"ceremony does not belong to this user"
  | UnknownCredential => #"no passkey with that credential id"
  | LastPasskey =>
      #"this is the last enrolled passkey; removing it needs the operator password"
  | Store e => #"passkey store: " ++ e
  end.

Record RpConfig : Type := mkRp { rp_id : str; origin : str }.

(** [RpConfig::from_env], from the values of the two variables. *)
Definition rp_from_env (rp_id_var origin_var : option str) (bind_port : Z) : RpConfig :=
  mkRp (default #"localhost" rp_id_var)
       (default (#"http://localhost:" ++ dec bind_port) origin_var).

(** ** The passkey store *)

Record PasskeyRecord : Type := mkPasskey
  { credential_id : str; public_key_x963 : str; sign_count : Z; created_at : str; label : str }.

(** The map inside [PasskeyStore]; its path is an argument of [store_open]. *)
Definition PasskeyMap : Type := gmap str (list PasskeyRecord).

(** What reading the file answers. *)
Inductive read_outcome : Type := ReadOk (raw : str) | ReadNotFound | ReadError (e : str).

(** [PasskeyStore::open]; [decode] is the derived JSON reader. *)
Definition store_open (decode : str -> result PasskeyMap str) (path : str) (r : read_outcome)
  : result PasskeyMap WebAuthnError :=
  match r with
  | ReadOk raw => map_err (fun e => Store (#"corrupt " ++ path ++ #": " ++ e)) (decode raw)
  | ReadNotFound => Ok ∅
  | ReadError e => Err (Store (#"cannot read " ++ path ++ #": " ++ e))
  end.

Definition for_user (m : PasskeyMap) (user : str) : list PasskeyRecord := default [] (m !! user).
Definition has_any (m : PasskeyMap) (user : str) : bool :=
  negb (bool_decide (for_user m user = [])).

(** [PasskeyStore::add]: the list is changed in memory, then written out. *)
Definition store_add (persisted : result unit WebAuthnError) (m : PasskeyMap) (user : str)
  (record : PasskeyRecord) : result unit WebAuthnError * PasskeyMap :=
  let list := for_user m user in
  if existsb (fun r => str_eqb (credential_id r) (credential_id record)) list
  then (Err (Store #"credential already enrolled"), <[user := list]> m)
  else (persisted, <[user := list ++ [record]]> m).

(** [Iterator::position]. *)
Fixpoint position {A} (p : A -> bool) (l : list A) : option nat :=
  match l with
  | [] => None
  | a :: l' => if p a then Some O else option_map S (position p l')
  end.

(** [PasskeyStore::remove]. *)
Definition store_remove (persisted : result unit WebAuthnError) (m : PasskeyMap) (user cid : str)
  (allow_last : bool) : result Z WebAuthnError * PasskeyMap :=
  match m !! user with
  | None => (Err UnknownCredential, m)
  | Some list =>
      match position (fun r => str_eqb (credential_id r) cid) list with
      | None => (Err UnknownCredential, m)
      | Some at_ =>
          if (Z.of_nat (length list) =? 1) && negb allow_last then (Err LastPasskey, m)
          else let list := delete at_ list in
               let remaining := Z.of_nat (length list) in
               (let? _ := persisted in Ok remaining, <[user := list]> m)
      end
  end.

(** The first record of the credential, with its counter set. *)
Fixpoint set_count (cid : str) (count : Z) (l : list PasskeyRecord) : list PasskeyRecord :=
  match l with
  | [] => []
  | r :: l' =>
      if str_eqb (credential_id r) cid
      then mkPasskey (credential_id r) (public_key_x963 r) count (created_at r) (label r) :: l'
      else r :: set_count cid count l'
  end.

(** [PasskeyStore::update_sign_count]. *)
Definition update_sign_count (persisted : result unit WebAuthnError) (m : PasskeyMap)
  (user cid : str) (count : Z) : result unit WebAuthnError * PasskeyMap :=
  (persisted, match m !! user with
              | Some l => <[user := set_count cid count l]> m
              | None => m
              end).

(** ** The one-shot challenge table *)

Inductive Purpose : Type :=
| Register
| Action (command args_sha256 : str).

#[export] Instance Purpose_eq_dec : EqDecision Purpose.
Proof. solve_decision. Defined.

Record Pending : Type := mkPending { p_user : str; purpose : Purpose; expires : Z }.
(** [PendingCeremonies]: the challenges handed out and not yet redeemed. *)
Definition PendingCeremonies : Type := gmap str Pending.

(** The challenge [mint] hands out, from what [getrandom] answers. *)
Definition new_challenge `{Primitives} (entropy : result (list Z) str) : result str WebAuthnError :=
  let? hex := map_err
      (fun e => Store (#"entropy: " ++
                       match e with Entropy e => #"entropy source failed: " ++ e | _ => [] end))
      (random_hex entropy) in
  match hex_to_bytes hex with
  | Some raw => Ok (b64url_encode raw)
  | None => Err (Store #"random_hex emits valid hex")
  end.

(** [PendingCeremonies::mint]. *)
Definition mint `{Primitives} (entropy : result (list Z) str) (now : Z) (m : PendingCeremonies)
  (user : str) (p : Purpose) : result str WebAuthnError * PendingCeremonies :=
  match new_challenge entropy with
  | Err e => (Err e, m)
  | Ok challenge =>
      let m := filter (fun kp => now < expires kp.2) m in
      (Ok challenge, <[challenge := mkPending user p (now + CEREMONY_TTL)]> m)
  end.

(** [PendingCeremonies::take]. *)
Definition take (now : Z) (m : PendingCeremonies) (user challenge : str)
  : result Purpose WebAuthnError * PendingCeremonies :=
  match m !! challenge with
  | None => (Err UnknownChallenge, m)
  | Some pending =>
      let m := delete challenge m in
      if expires pending <=? now then (Err UnknownChallenge, m)
      else if negb (str_eqb (p_user pending) user) then (Err WrongUser, m)
      else (Ok (purpose pending), m)
  end.

(** ** Parsing *)

Record ClientData : Type := mkClientData { kind : str; challenge : str; cd_origin : str }.

(** The decoders of other crates: [serde_json::from_slice::<ClientData>], and
    [ciborium]'s values with their accessors. *)
Class Envelope := {
  client_data_from_slice : list Z -> option ClientData;
  Cbor : Type;
  cbor_read : list Z -> option Cbor;          (* the first value of the bytes *)
  cbor_map : Cbor -> option (list (Cbor * Cbor));
  cbor_integer : Cbor -> option Z;
  cbor_bytes : Cbor -> option (list Z);
  cbor_text : Cbor -> option str;
}.

Record AttestedCredential : Type := mkAttested { ac_id : list Z; ac_key : list Z }.
Record AuthData : Type := mkAuthData
  { rp_id_hash_of : list Z; flags : Z; ad_count : Z; credential : option AttestedCredential }.

(** [bytes[i]], where the bounds were checked. *)
Definition byte_at (bs : list Z) (i : nat) : Z := nth i bs 0.
(** [bytes[a..b]]. *)
Definition slice (bs : list Z) (a b : nat) : list Z := firstn (b - a) (skipn a bs).
Definition u16_be (a b : Z) : Z := a * 256 + b.
Definition u32_be (a b c d : Z) : Z := a * 16777216 + b * 65536 + c * 256 + d.

Section Ceremony.
Context `{Primitives} `{Envelope}.

Definition parse_client_data (bytes : list Z) : result ClientData WebAuthnError :=
  ok_or (client_data_from_slice bytes) (Malformed #"clientDataJSON").

(** The first entry of a CBOR map whose key satisfies [p]. *)
Definition cbor_find (p : Cbor -> bool) (map : list (Cbor * Cbor)) : option Cbor :=
  option_map snd (List.find (fun kv => p kv.1) map).
Definition cbor_label (map : list (Cbor * Cbor)) (n : Z) : option Cbor :=
  cbor_find (fun k => match cbor_integer k with Some i => i =? n | None => false end) map.
Definition cbor_int_of (v : Cbor) : option Z := let! i := cbor_integer v in i64_checked i.
Definition int_is (o : option Cbor) (n : Z) : bool :=
  match (let! v := o in cbor_int_of v) with Some i => i =? n | None => false end.
Definition bytes32 (o : option Cbor) : option (list Z) :=
  let! v := o in let! b := cbor_bytes v in
  if Z.of_nat (length b) =? 32 then Some b else None.

Definition cose_key_to_x963 (cose : Cbor) : result (list Z) WebAuthnError :=
  let? map := ok_or (cbor_map cose) (Malformed #"COSE key (not a map)") in
  if negb (int_is (cbor_label map 1) 2) then Err (UnsupportedKey #"kty is not EC2")
  else if negb (int_is (cbor_label map 3) (-7)) then Err (UnsupportedKey #"alg is not ES256 (-7)")
  else if negb (int_is (cbor_label map (-1)) 1) then Err (UnsupportedKey #"crv is not P-256")
  else let? x := ok_or (bytes32 (cbor_label map (-2))) (UnsupportedKey #"x is not 32 bytes") in
       let? y := ok_or (bytes32 (cbor_label map (-3))) (UnsupportedKey #"y is not 32 bytes") in
       Ok (4 :: x ++ y).

Definition parse_authenticator_data (bytes : list Z) : result AuthData WebAuthnError :=
  let len := length bytes in
  if Z.of_nat len <? 37 then Err (Malformed #"authenticatorData (too short)")
  else
    let hash := slice bytes 0 32 in
    let flags := byte_at bytes 32 in
    let count := u32_be (byte_at bytes 33) (byte_at bytes 34) (byte_at bytes 35) (byte_at bytes 36) in
    let? credential :=
      if negb (Z.land flags FLAG_AT =? 0) then
        if Z.of_nat len <? 37 + 18 then Err (Malformed #"attestedCredentialData (too short)")
        else
          let cred_len := u16_be (byte_at bytes 53) (byte_at bytes 54) in
          let cred_end := 55 + cred_len in
          if Z.of_nat len <? cred_end then Err (Malformed #"credentialId length")
          else
            let id := slice bytes 55 (Z.to_nat cred_end) in
            let? cose := ok_or (cbor_read (skipn (Z.to_nat cred_end) bytes))
                               (Malformed #"COSE key CBOR") in
            let? key := cose_key_to_x963 cose in
            Ok (Some (mkAttested id key))
      else Ok None in
    Ok (mkAuthData hash flags count credential).

Definition cbor_field (map : list (Cbor * Cbor)) (name : str) : option Cbor :=
  cbor_find (fun k => match cbor_text k with Some t => str_eqb t name | None => false end) map.

Definition parse_attestation_object (bytes : list Z) : result (list Z) WebAuthnError :=
  let? value := ok_or (cbor_read bytes) (Malformed #"attestationObject CBOR") in
  let? map := ok_or (cbor_map value) (Malformed #"attestationObject (not a map)") in
  match (let! v := cbor_field map #"fmt" in cbor_text v) with
  | Some t =>
      if str_eqb t #"none"
      then ok_or (let! v := cbor_field map #"authData" in cbor_bytes v) (Malformed #"authData missing")
      else Err UnsupportedAttestation
  | None => Err UnsupportedAttestation
  end.

(** ** Verification *)

Definition rp_id_hash (id : str) : list Z := sha256 (str_bytes id).

Record VerifiedRegistration : Type := mkVerifiedReg
  { vr_credential_id : str; vr_public_key : str; vr_sign_count : Z; vr_user_verified : bool }.

Definition verify_registration (rp : RpConfig) (expected_challenge : str)
  (client_data_json attestation_object : list Z) : result VerifiedRegistration WebAuthnError :=
  let? client := parse_client_data client_data_json in
  if negb (str_eqb (kind client) #"webauthn.create") then Err (Mismatch #"ceremony type")
  else if negb (str_eqb (challenge client) expected_challenge) then Err (Mismatch #"challenge")
  else if negb (str_eqb (cd_origin client) (origin rp)) then Err (Mismatch #"origin")
  else
    let? auth_data_bytes := parse_attestation_object attestation_object in
    let? auth := parse_authenticator_data auth_data_bytes in
    if negb (str_eqb (rp_id_hash_of auth) (rp_id_hash (rp_id rp))) then Err (Mismatch #"rp id")
    else if Z.land (flags auth) FLAG_UP =? 0 then Err UserNotPresent
    else
      let? cred := ok_or (credential auth) (Malformed #"attestedCredentialData missing") in
      Ok (mkVerifiedReg (b64url_encode (ac_id cred)) (b64_encode (ac_key cred)) (ad_count auth)
            (negb (Z.land (flags auth) FLAG_UV =? 0))).

Record VerifiedAssertion : Type := mkVerified { va_sign_count : Z; va_user_verified : bool }.

Definition verify_assertion (rp : RpConfig) (expected_challenge : str) (record : PasskeyRecord)
  (client_data_json authenticator_data signature_der : list Z)
  : result VerifiedAssertion WebAuthnError :=
  let? client := parse_client_data client_data_json in
  if negb (str_eqb (kind client) #"webauthn.get") then Err (Mismatch #"ceremony type")
  else if negb (str_eqb (challenge client) expected_challenge) then Err (Mismatch #"challenge")
  else if negb (str_eqb (cd_origin client) (origin rp)) then Err (Mismatch #"origin")
  else
    let? auth := parse_authenticator_data authenticator_data in
    if negb (str_eqb (rp_id_hash_of auth) (rp_id_hash (rp_id rp))) then Err (Mismatch #"rp id")
    else if Z.land (flags auth) FLAG_UP =? 0 then Err UserNotPresent
    else if Z.land (flags auth) FLAG_UV =? 0 then Err UserNotVerified
    else
      let message := authenticator_data ++ sha256 client_data_json in
      let? pubkey := ok_or (b64_decode (public_key_x963 record)) (Malformed #"stored public key") in
      let? raw := map_err (fun _ => Malformed #"signature DER") (der_to_raw_rs signature_der) in
      let? _ := map_err (fun _ => BadSignature) (verify_es256 pubkey message raw) in
      if (0 <? sign_count record) && (0 <? ad_count auth) && (ad_count auth <=? sign_count record)
      then Err CloneSuspected
      else Ok (mkVerified (ad_count auth) (negb (Z.land (flags auth) FLAG_UV =? 0))).
End Ceremony.

(** ** The store's operations in sequence *)

Inductive store_op : Type :=
| OpAdd (persisted : result unit WebAuthnError) (user : str) (record : PasskeyRecord)
| OpRemove (persisted : result unit WebAuthnError) (user cid : str) (allow_last : bool)
| OpCount (persisted : result unit WebAuthnError) (user cid : str) (count : Z).

Definition apply_store (m : PasskeyMap) (o : store_op) : PasskeyMap :=
  match o with
  | OpAdd p user record => (store_add p m user record).2
  | OpRemove p user cid allow_last => (store_remove p m user cid allow_last).2
  | OpCount p user cid count => (update_sign_count p m user cid count).2
  end.
Definition run_store (m : PasskeyMap) (os : list store_op) : PasskeyMap := fold_left apply_store os m.

(** ** The table's operations as events *)

Inductive table_event : Type :=
| Minted (challenge user : str) (p : Purpose) (at_ : Z)
| Taken (challenge user : str) (at_ : Z) (answer : result Purpose WebAuthnError).

Definition event_challenge (e : table_event) : str :=
  match e with Minted c _ _ _ => c | Taken c _ _ _ => c end.

Inductive table_step `{Primitives} : PendingCeremonies -> table_event -> PendingCeremonies -> Prop :=
| ts_mint m entropy now user p c m' :
    mint entropy now m user p = (Ok c, m') -> table_step m (Minted c user p now) m'
| ts_take m now user c r m' :
    take now m user c = (r, m') -> table_step m (Taken c user now r) m'.

(** ** Lemmas *)

Lemma land_bit f k : 0 <= k -> (Z.land f (2 ^ k) =? 0) = negb (Z.testbit f k).
Proof.
  intros Hk. destruct (Z.testbit f k) eqn:E; simpl.
  - apply Z.eqb_neq. intros H. apply (f_equal (fun z => Z.testbit z k)) in H.
    rewrite Z.land_spec, Z.pow2_bits_true, E in H by done. by rewrite Z.bits_0 in H.
  - apply Z.eqb_eq. apply Z.bits_inj. intros n. rewrite Z.land_spec, Z.bits_0.
    destruct (decide (n = k)) as [->|]; [by rewrite E|].
    rewrite Z.pow2_bits_false by done. apply andb_false_r.
Qed.

Lemma land_UP f : (Z.land f FLAG_UP =? 0) = negb (Z.testbit f 0).
Proof. by apply (land_bit f 0). Qed.
Lemma land_UV f : (Z.land f FLAG_UV =? 0) = negb (Z.testbit f 2).
Proof. by apply (land_bit f 2). Qed.
Lemma land_AT f : (Z.land f FLAG_AT =? 0) = negb (Z.testbit f 6).
Proof. by apply (land_bit f 6). Qed.

Lemma str_eqb_negb a b : negb (str_eqb a b) = false <-> a = b.
Proof. by rewrite negb_false_iff, str_eqb_eq. Qed.

Lemma position_Some {A} (p : A -> bool) l i :
  position p l = Some i -> exists a, l !! i = Some a /\ p a = true.
Proof.
  revert i; induction l as [|a l IH]; intros i; simpl; [done|].
  destruct (p a) eqn:E; [intros [= <-]; eauto|].
  destruct (position p l) as [j|]; simpl; [|done]. intros [= <-]. by apply IH.
Qed.

Lemma position_lt {A} (p : A -> bool) l i : position p l = Some i -> (i < length l)%nat.
Proof. intros (a&H&_)%position_Some. by apply lookup_lt_Some in H. Qed.

Lemma set_count_ids cid n l : map credential_id (set_count cid n l) = map credential_id l.
Proof. induction l as [|r l IH]; simpl; [done|]. case_match; simpl; congruence. Qed.

Lemma for_user_insert m u l u' :
  for_user (<[u := l]> m) u' = if decide (u = u') then l else for_user m u'.
Proof. unfold for_user, PasskeyMap in *. rewrite lookup_insert. by case_decide. Qed.

Lemma for_user_remove p m u cid al u' :
  exists l, for_user (store_remove p m u cid al).2 u' = l
    /\ (l = for_user m u' \/ u' = u /\ exists i, (i < length (for_user m u))%nat
        /\ l = delete i (for_user m u) /\ (al = true \/ length (for_user m u) <> 1%nat)).
Proof.
  unfold store_remove. destruct (m !! u) as [l0|] eqn:E; [|eauto].
  destruct (position _ l0) as [i|] eqn:Ei; [|eauto].
  destruct (_ && _) eqn:E1; simpl; [eauto|].
  rewrite for_user_insert. eexists; split; [done|]. case_decide as Hd; [subst|eauto].
  right. unfold for_user. rewrite E. simpl. split; [done|]. exists i.
  split; [by eapply position_lt|]. split; [done|].
  apply andb_false_iff in E1 as [E1|E1]; b2p; [right; lia|by left].
Qed.

(** A removal takes away at most a key of the id it names. *)
Lemma kept_by_removal p m u cid al r :
  r ∈ for_user m u -> credential_id r <> cid -> r ∈ for_user (store_remove p m u cid al).2 u.
Proof.
  intros Hr Hne. unfold store_remove. destruct (m !! u) as [l|] eqn:E; [|done].
  destruct (position _ l) as [i|] eqn:Ei; [|done]. destruct (_ && _); simpl; [done|].
  rewrite for_user_insert, decide_True by done. unfold for_user in Hr. rewrite E in Hr. simpl in Hr.
  apply position_Some in Ei as (k&Hk&Heq). apply str_eqb_eq in Heq.
  apply list_elem_of_lookup in Hr as [j Hj]. destruct (decide (j = i)) as [->|Hji]; [congruence|].
  apply list_elem_of_lookup. destruct (decide (j < i)%nat).
  - exists j. by rewrite list_lookup_delete_lt.
  - exists (pred j). rewrite list_lookup_delete_ge by lia. by replace (S (pred j)) with j by lia.
Qed.

Lemma for_user_count p m u cid n u' :
  map credential_id (for_user (update_sign_count p m u cid n).2 u')
  = map credential_id (for_user m u').
Proof.
  unfold update_sign_count; simpl. destruct (m !! u) as [l|] eqn:E; [|done].
  rewrite for_user_insert. case_decide; [subst|done].
  rewrite set_count_ids. unfold for_user. by rewrite E.
Qed.

Lemma for_user_add p m u r u' :
  for_user (store_add p m u r).2 u' = for_user m u'
  \/ u' = u /\ credential_id r ∉ map credential_id (for_user m u)
     /\ for_user (store_add p m u r).2 u' = for_user m u ++ [r].
Proof.
  unfold store_add. destruct (existsb _ _) eqn:E; simpl; rewrite for_user_insert;
    (case_decide; [subst|by left]); [by left|right].
  repeat split; try done. intros (r'&Hr'&Hin)%list_elem_of_fmap.
  assert (existsb (fun r0 => str_eqb (credential_id r0) (credential_id r)) (for_user m u') = true)
    as E'; [|congruence].
  apply existsb_exists. exists r'. rewrite <- Hr'.
  split; [by apply list_elem_of_In|apply str_eqb_refl].
Qed.

(** What every sequence of store operations keeps. *)
Lemma run_store_ind (I : PasskeyMap -> Prop) os m :
  I m -> (forall m o, o ∈ os -> I m -> I (apply_store m o)) -> I (run_store m os).
Proof.
  unfold run_store. revert m; induction os as [|o os IH]; intros m Hm Hstep; simpl; [done|].
  apply IH; [apply Hstep; [by left|done]|]. intros. apply Hstep; [by right|done].
Qed.

Lemma NoDup_map_delete {A B} (f : A -> B) l i : NoDup (map f l) -> NoDup (map f (delete i l)).
Proof.
  revert i; induction l as [|a l IH]; intros [|i]; simpl; try done.
  - by intros [_ H]%NoDup_cons.
  - intros [Ha H]%NoDup_cons. apply NoDup_cons. split; [|by apply IH].
    intros (b&Hb&Hin)%list_elem_of_fmap. apply Ha. rewrite Hb.
    apply list_elem_of_fmap_2. apply list_elem_of_In in Hin. apply list_elem_of_In.
    clear -Hin. revert i Hin; induction l as [|c l IH]; intros [|i] Hin; simpl in *; try tauto.
    destruct Hin; eauto.
Qed.

(** What the table holds was minted, and nothing happened to it since. *)
Definition table_ok (h : list table_event) (m : PendingCeremonies) : Prop :=
  forall c p, m !! c = Some p ->
    exists h1 h2 t, h = h1 ++ Minted c (p_user p) (purpose p) t :: h2
      /\ expires p = t + CEREMONY_TTL
      /\ Forall (fun e => event_challenge e <> c) h2.

Lemma table_ok_empty h : table_ok h ∅.
Proof. intros c p H. unfold PendingCeremonies in *. by rewrite lookup_empty in H. Qed.

Lemma table_ok_snoc h m e c p :
  table_ok h m -> m !! c = Some p -> event_challenge e <> c ->
  exists h1 h2 t, h ++ [e] = h1 ++ Minted c (p_user p) (purpose p) t :: h2
    /\ expires p = t + CEREMONY_TTL
    /\ Forall (fun e => event_challenge e <> c) h2.
Proof.
  intros Hok Hc He. destruct (Hok c p Hc) as (h1&h2&t&->&Ht&Hall).
  exists h1, (h2 ++ [e]), t. rewrite <- app_assoc. split; [done|]. split; [done|].
  apply Forall_app. auto.
Qed.

Lemma take_Ok now m user c p m' :
  take now m user c = (Ok p, m') ->
  exists pe, m !! c = Some pe /\ p_user pe = user /\ purpose pe = p /\ now < expires pe.
Proof.
  unfold take. destruct (m !! c) as [pe|]; [|done]. destruct (_ <=? _) eqn:E; [done|].
  destruct (negb _) eqn:E2; [done|]. apply str_eqb_negb in E2. intros [= <- <-]. b2p. eauto.
Qed.

Lemma take_table now m user c : (take now m user c).2 = delete c m.
Proof.
  unfold take. destruct (m !! c) as [pe|] eqn:E; [by repeat case_match|].
  symmetry. by apply delete_id.
Qed.

Lemma table_ok_take h m now user c r m' :
  table_ok h m -> take now m user c = (r, m') -> table_ok (h ++ [Taken c user now r]) m'.
Proof.
  intros Hok E c' p Hc. replace m' with (delete c m) in Hc
    by (rewrite <- (take_table now m user c), E; done).
  apply lookup_delete_Some in Hc as [Hne Hc]. by eapply table_ok_snoc.
Qed.

Lemma table_ok_mint `{Primitives} h m entropy now user p c m' :
  table_ok h m -> mint entropy now m user p = (Ok c, m') ->
  table_ok (h ++ [Minted c user p now]) m'.
Proof.
  unfold mint. intros Hok. destruct (new_challenge entropy) as [c0|]; [|done].
  intros [= <- <-] c' q Hq. apply lookup_insert_Some in Hq as [[<- <-]|[Hne Hq]].
  - exists h, [], now. simpl. auto.
  - apply map_lookup_filter_Some in Hq as [Hq _]. by eapply table_ok_snoc.
Qed.

Lemma mint_Err `{Primitives} entropy now m user p e m' :
  mint entropy now m user p = (Err e, m') -> m' = m.
Proof. unfold mint. by destruct (new_challenge entropy) as [|]; intros [= <- <-]. Qed.

Lemma table_ok_run `{Primitives} m es m' h :
  run table_step m es m' -> table_ok h m -> table_ok (h ++ es) m'.
Proof.
  intros Hr; revert h; induction Hr as [m|m e m1 es m2 Hs Hr IH]; intros h Hok.
  - by rewrite app_nil_r.
  - change (e :: es) with ([e] ++ es). rewrite app_assoc. apply IH.
    destruct Hs; [by eapply table_ok_mint|by eapply table_ok_take].
Qed.

(** An accepted redemption, in the words of the table's history. *)
Lemma take_minted h m now user c p m' :
  table_ok h m -> take now m user c = (Ok p, m') ->
  exists h1 h2 t, h = h1 ++ Minted c user p t :: h2 /\ now < t + CEREMONY_TTL
    /\ Forall (fun e => event_challenge e <> c) h2.
Proof.
  intros Hok (pe&Hc&<-&<-&Hlt)%take_Ok. destruct (Hok c pe Hc) as (h1&h2&t&->&Ht&Hall).
  exists h1, h2, t. repeat split; auto; lia.
Qed.

(** ** What the ceremony promises *)

(** WebAuthn's rules for an assertion (section 7.2), as the standard words them:
    over the bytes as section 6.1 lays them out, the key as COSE (RFC 8152)
    encodes it, and the signature of the key's holder. *)
Section Standard.
Context `{Primitives} `{Envelope}.

(** The entry of a CBOR map under an integer label. *)
Definition under (m : list (Cbor * Cbor)) (n : Z) (v : Cbor) : Prop :=
  exists l k r, m = l ++ (k, v) :: r /\ cbor_integer k = Some n /\ Forall (fun kv => cbor_integer kv.1 <> Some n) l.
Definition integer_under (m : list (Cbor * Cbor)) (n i : Z) : Prop := exists v, under m n v /\ cbor_integer v = Some i.
Definition coordinate_under (m : list (Cbor * Cbor)) (n : Z) : Prop :=
  exists v b, under m n v /\ cbor_bytes v = Some b /\ length b = 32%nat.
(** An EC2 key for ES256 on P-256. *)
Definition es256_key (cose : Cbor) : Prop :=
  exists m, cbor_map cose = Some m /\ integer_under m 1 2 /\ integer_under m 3 (-7) /\ integer_under m (-1) 1
    /\ coordinate_under m (-2) /\ coordinate_under m (-3).

(** The attested credential data: the model of the device, the length of the
    credential's id in two bytes, the id, the key. *)
Definition attested_data (rest : list Z) : Prop :=
  exists aaguid l1 l0 id key cose, rest = aaguid ++ l1 :: l0 :: id ++ key /\ length aaguid = 16%nat
    /\ Z.of_nat (length id) = l1 * 256 + l0 /\ cbor_read key = Some cose /\ es256_key cose.
(** Authenticator data: the hash of the relying party in 32 bytes, the flags in
    one, the counter in four, the highest first, and the attested data when bit 6
    of the flags says so. *)
Definition laid_out (ad hash : list Z) (fl count : Z) : Prop :=
  exists c3 c2 c1 c0 rest, ad = hash ++ fl :: c3 :: c2 :: c1 :: c0 :: rest /\ length hash = 32%nat
    /\ count = ((c3 * 256 + c2) * 256 + c1) * 256 + c0 /\ (Z.testbit fl 6 = true -> attested_data rest).

(** Step 21: both counters are zero, or the new one is greater. *)
Definition standard_counter (stored count : Z) : Prop := (stored = 0 /\ count = 0) \/ stored < count.

(** The holder of the enrolled key signed this ceremony here, present and
    verified, and the authenticator's counter said [count]. *)
Definition asserted (rp : RpConfig) (expected : str) (record : PasskeyRecord) (cdj ad sig : list Z) (count : Z) : Prop :=
  exists client fl pk vk s,
    client_data_from_slice cdj = Some client
    /\ kind client = #"webauthn.get" /\ challenge client = expected /\ cd_origin client = origin rp
    /\ laid_out ad (sha256 (str_bytes (rp_id rp))) fl count
    /\ Z.testbit fl 0 = true /\ Z.testbit fl 2 = true
    /\ b64_decode (public_key_x963 record) = Some pk /\ from_sec1_bytes pk = Ok vk
    /\ signature_from_der sig = Ok s /\ ecdsa_verify vk (ad ++ sha256 cdj) s = true.

(** *** The parsers read it *)

Lemma cbor_label_under m n v : cbor_label m n = Some v <-> under m n v.
Proof.
  unfold cbor_label, cbor_find, under. split.
  - induction m as [|[k x] m IH]; simpl; [done|]. destruct (cbor_integer k) as [i|] eqn:Ek; simpl.
    + destruct (i =? n) eqn:E; b2p.
      * intros [= <-]. subst i. exists [], k, m. by repeat constructor.
      * intros Hf. destruct (IH Hf) as (l&k'&r&->&Hk&Hl). exists ((k, x) :: l), k', r.
        split_and!; [done|done|]. constructor; [simpl; congruence|done].
    + intros Hf. destruct (IH Hf) as (l&k'&r&->&Hk&Hl). exists ((k, x) :: l), k', r.
      split_and!; [done|done|]. constructor; [simpl; congruence|done].
  - intros (l&k&r&->&Hk&Hl). induction Hl as [|[k' x] l Hne Hl IH]; simpl.
    + by rewrite Hk, Z.eqb_refl.
    + simpl in Hne. destruct (cbor_integer k') as [i|]; [|done]. destruct (i =? n) eqn:E; b2p; [congruence|done].
Qed.
Lemma int_is_under m n i : i64_min <= i <= i64_max -> int_is (cbor_label m n) i = true <-> integer_under m n i.
Proof.
  intros Hi. unfold int_is, integer_under, cbor_int_of. split.
  - destruct (cbor_label m n) as [v|] eqn:E; [|done]. apply cbor_label_under in E. simpl.
    destruct (cbor_integer v) as [j|] eqn:Ej; [|done]. simpl. destruct (i64_checked j) as [k|] eqn:Ek; [|done].
    apply i64_checked_Some in Ek as [<- _]. intros ->%Z.eqb_eq. eauto.
  - intros (v & Hv%cbor_label_under & E). rewrite Hv. simpl. rewrite E. simpl.
    by rewrite (proj2 (i64_checked_Some i i)), Z.eqb_refl by done.
Qed.
Lemma bytes32_under m n b : bytes32 (cbor_label m n) = Some b ->  coordinate_under m n.
Proof.
  unfold bytes32. destruct (cbor_label m n) as [v|] eqn:E; [|done]. apply cbor_label_under in E. simpl.
  destruct (cbor_bytes v) as [c|] eqn:Ec; [|done]. simpl. destruct (_ =? _) eqn:El; [|done]. b2p. intros [= <-].
  exists v, c. split_and!; [done|done|lia].
Qed.
Lemma under_bytes32 m n : coordinate_under m n -> exists b, bytes32 (cbor_label m n) = Some b.
Proof.
  intros (v & b & Hv%cbor_label_under & Eb & El). exists b. unfold bytes32. rewrite Hv. simpl. rewrite Eb. simpl.
  by rewrite El.
Qed.

Lemma cose_key_is cose : is_ok (cose_key_to_x963 cose) = true <-> es256_key cose.
Proof.
  unfold cose_key_to_x963, es256_key. split.
  - destruct (cbor_map cose) as [m|]; [|done]. simpl. intros Hk. exists m. split; [done|].
    destruct (int_is (cbor_label m 1) 2) eqn:E1; [|done]. destruct (int_is (cbor_label m 3) (-7)) eqn:E2; [|done].
    destruct (int_is (cbor_label m (-1)) 1) eqn:E3; [|done]. simpl in Hk.
    destruct (bytes32 (cbor_label m (-2))) as [x|] eqn:E4; [|done]. destruct (bytes32 (cbor_label m (-3))) as [y|] eqn:E5; [|done].
    apply bytes32_under in E4, E5. rewrite int_is_under in E1, E2, E3 by by vm_compute. done.
  - intros (m & Em & H1 & H2 & H3 & [x E4]%under_bytes32 & [y E5]%under_bytes32). rewrite Em. simpl.
    rewrite <- int_is_under in H1, H2, H3 by by vm_compute. by rewrite H1, H2, H3, E4, E5.
Qed.

Definition bytes (bs : list Z) : Prop := Forall (fun b => 0 <= b <= 255) bs.
Lemma forallb_in_byte bs : forallb (fun b => (0 <=? b) && (b <=? 255)) bs = true -> bytes bs.
Proof. rewrite forallb_Forall. intros Hb. eapply Forall_impl; [exact Hb|]. simpl. intros b H1. b2p. lia. Qed.

(** The reader of the attested data, on what stands behind the counter. *)
Definition read_attested (rest : list Z) : option (list Z * Cbor) :=
  match skipn 16 rest with
  | l1 :: l0 :: tail =>
      let n := Z.to_nat (u16_be l1 l0) in
      if Z.of_nat (length tail) <? u16_be l1 l0 then None
      else let! cose := cbor_read (skipn n tail) in if is_ok (cose_key_to_x963 cose) then Some (firstn n tail, cose) else None
  | _ => None
  end.
Lemma read_attested_data rest : bytes rest -> is_Some (read_attested rest) <-> attested_data rest.
Proof.
  intros Hb. unfold read_attested, attested_data. split.
  - pose proof (take_drop 16 rest) as Ed. destruct (skipn 16 rest) as [|l1 [|l0 tail]] eqn:Er; [by intros []..|].
    assert (length (firstn 16 rest) = 16%nat) as Hl.
    { rewrite length_take. apply (f_equal length) in Er. rewrite length_drop in Er. simpl in Er. lia. }
    assert (0 <= u16_be l1 l0) as Hpos.
    { rewrite <- Ed in Hb. apply Forall_app in Hb as [_ Hb]. inversion_clear Hb as [|? ? H1 Hb']. inversion_clear Hb'.
      unfold u16_be. lia. }
    destruct (_ <? _) eqn:E; [by intros []|]. b2p. destruct (cbor_read _) as [cose|] eqn:Ec; [|by intros []]. simpl.
    destruct (is_ok _) eqn:Ek; [|by intros []]. intros _. apply cose_key_is in Ek.
    exists (firstn 16 rest), l1, l0, (firstn (Z.to_nat (u16_be l1 l0)) tail), (skipn (Z.to_nat (u16_be l1 l0)) tail), cose.
    split_and!; [by rewrite take_drop|done| |done|done]. rewrite length_take. unfold u16_be in *. lia.
  - intros (aaguid & l1 & l0 & id & key & cose & -> & Ha & Hl & Hc & Hk). rewrite skipn_app, Ha, Nat.sub_diag.
    rewrite (skipn_all2 aaguid) by lia. simpl. change (u16_be l1 l0) with (l1 * 256 + l0). rewrite <- Hl, Nat2Z.id.
    rewrite length_app. rewrite (proj2 (Z.ltb_ge _ _)) by lia. rewrite drop_app_length, Hc. simpl.
    by rewrite (proj2 (cose_key_is cose)).
Qed.

(** The fixed part: 37 bytes. *)
Lemma parse_fixed hash fl c3 c2 c1 c0 rest :
  length hash = 32%nat -> bytes rest ->
  (exists cred, parse_authenticator_data (hash ++ fl :: c3 :: c2 :: c1 :: c0 :: rest)
     = Ok (mkAuthData hash fl (u32_be c3 c2 c1 c0) cred))
  <-> (Z.testbit fl 6 = true -> is_Some (read_attested rest)).
Proof.
  intros Hh Hb. do 32 (destruct hash as [|? hash]; [done|]); destruct hash; [|done]. clear Hh.
  unfold parse_authenticator_data, byte_at, slice. cbn [length app nth skipn firstn Nat.sub].
  destruct (_ <? 37) eqn:E1; b2p; [lia|]. rewrite land_AT.
  destruct (Z.testbit fl 6) eqn:E6; cbn [negb]; [|split; [done|intros _; by exists None]].
  unfold read_attested. destruct (_ <? 37 + 18) eqn:E2; b2p.
  - split; [by intros [? ?]|]. intros H7. destruct (H7 eq_refl) as [? H8].
    destruct (skipn 16 rest) as [|l1 [|l0 tail]] eqn:Er; [done..|]. apply (f_equal length) in Er.
    rewrite length_drop in Er. simpl in Er. lia.
  - do 16 (destruct rest as [|? rest]; [simpl in E2; lia|]).
    destruct rest as [|l1 [|l0 tail]]; [simpl in E2; lia..|]. cbn [nth skipn length].
    assert (0 <= u16_be l1 l0) as Hn.
    { do 16 (apply Forall_cons in Hb as [_ Hb]). apply Forall_cons in Hb as [? Hb]. apply Forall_cons in Hb as [? _].
      unfold u16_be. lia. }
    replace (Z.to_nat (55 + u16_be l1 l0)) with (55 + Z.to_nat (u16_be l1 l0))%nat by lia. cbn [Nat.add skipn]. rewrite drop_0.
    match goal with |- context [?a <? 55 + ?n] => replace (a <? 55 + n) with (Z.of_nat (length tail) <? n) by
      (destruct (a <? 55 + n) eqn:?; destruct (Z.of_nat (length tail) <? n) eqn:?; b2p; lia) end.
    destruct (_ <? u16_be l1 l0); [split; [by intros [? ?]|by intros []]|].
    destruct (cbor_read _) as [cose|]; [|split; [by intros [? ?]|by intros []]]. simpl.
    destruct (cose_key_to_x963 cose); simpl; [split; eauto|split; [by intros [? ?]|by intros []]].
Qed.

(** Authenticator data is read as the standard lays it out. *)
Lemma parse_laid_out ad hash fl count :
  bytes ad -> (exists cred, parse_authenticator_data ad = Ok (mkAuthData hash fl count cred)) <-> laid_out ad hash fl count.
Proof.
  intros Hb. split.
  - intros [cred E]. assert (37 <= Z.of_nat (length ad)) as Hl.
    { unfold parse_authenticator_data in E. destruct (_ <? 37) eqn:E1; [done|]. by b2p. }
    pose proof (firstn_skipn 32 ad) as Ed. assert (length (firstn 32 ad) = 32%nat) as H32 by (rewrite length_take; lia).
    assert (5 <= length (skipn 32 ad))%nat as H5 by (rewrite length_drop; lia).
    destruct (skipn 32 ad) as [|f [|c3 [|c2 [|c1 [|c0 rest]]]]]; try (simpl in H5; lia).
    revert H32 Ed. generalize (firstn 32 ad). intros h H32 <-. apply Forall_app in Hb as [_ Hb].
    do 5 (apply Forall_cons in Hb as [_ Hb]).
    assert (exists cr, mkAuthData hash fl count cred = mkAuthData h f (u32_be c3 c2 c1 c0) cr) as [cr E2].
    { clear -E H32. do 32 (destruct h as [|? h]; [done|]); destruct h; [|done].
      unfold parse_authenticator_data, byte_at, slice in E. cbn [app nth skipn firstn Nat.sub] in E.
      destruct (_ <? 37); [done|]. match type of E with (let? c := ?x in _) = _ => destruct x as [cr|] end; [|done].
      cbn [rbind] in E. injection E as <- <- <- <-. by exists cr. }
    injection E2 as -> -> -> ->. exists c3, c2, c1, c0, rest. split_and!; [done|done|unfold u32_be; lia|].
    rewrite <- read_attested_data by done. apply (parse_fixed h f c3 c2 c1 c0 rest); eauto.
  - intros (c3 & c2 & c1 & c0 & rest & -> & Hh & -> & Ha). apply Forall_app in Hb as [_ Hb].
    do 5 (apply Forall_cons in Hb as [_ Hb]). rewrite <- read_attested_data in Ha by done.
    apply (parse_fixed hash fl c3 c2 c1 c0 rest) in Ha as [cred E]; [|done|done]. exists cred. rewrite E. unfold u32_be.
    do 3 f_equal. lia.
Qed.

Lemma laid_out_count ad hash fl count : bytes ad -> laid_out ad hash fl count -> 0 <= count.
Proof.
  intros Hb (c3 & c2 & c1 & c0 & rest & -> & _ & -> & _). apply Forall_app in Hb as [_ Hb].
  apply Forall_cons in Hb as [_ Hb]. repeat (apply Forall_cons in Hb as [? Hb]). lia.
Qed.

(** The signature, as the enrolled key's own check of it. *)
Lemma verified_holder pk m sig raw u :
  (forall s, signature_from_slice (signature_to_bytes s) = Ok s) ->
  der_to_raw_rs sig = Ok raw -> verify_es256 pk m raw = Ok u ->
  exists vk s, from_sec1_bytes pk = Ok vk /\ signature_from_der sig = Ok s /\ ecdsa_verify vk m s = true.
Proof.
  intros Hs. unfold der_to_raw_rs, verify_es256. destruct (signature_from_der sig) as [s|]; [|done]. intros [= <-].
  destruct (from_sec1_bytes pk) as [vk|]; [|done]. cbn [map_err rbind]. rewrite Hs. cbn [map_err rbind].
  destruct (ecdsa_verify vk m s) eqn:E; [eauto|done].
Qed.

Lemma clone_check a b :
  (0 <? a) && (0 <? b) && (b <=? a) = false <-> (0 < a -> 0 < b -> a < b).
Proof. rewrite !andb_false_iff. b2p. lia. Qed.
End Standard.

(** C21: [verify_assertion] accepts exactly what WebAuthn's rules accept, but for
    one counter.  It answers with a verified assertion if and only if the
    response is of type [webauthn.get] for the expected challenge and origin;
    its authenticator data, laid out as the standard says, names this relying
    party and asserts user presence and user verification; the enrolled key is
    one the signature, over the authenticator data and the digest of the client
    data, verifies under; and the counter is as the standard asks, both zero or
    greater than the stored one, or it is zero though the stored one is not,
    which the standard calls a sign of a cloned key and the code lets pass.  The
    verified counter is the one the data states; every other response is
    refused. *)
Theorem assertion_accepted_iff `{Primitives} `{Envelope} rp expected record cdj ad sig v :
  bytes ad -> 0 <= sign_count record -> (forall s, signature_from_slice (signature_to_bytes s) = Ok s) ->
  verify_assertion rp expected record cdj ad sig = Ok v
  <-> exists count,
        asserted rp expected record cdj ad sig count
        /\ (standard_counter (sign_count record) count \/ (0 < sign_count record /\ count = 0))
        /\ v = mkVerified count true.
Proof.
  intros Hb Hs Hsig. unfold verify_assertion, parse_client_data, rp_id_hash, standard_counter. split.
  - intros H1. oks H1. destruct (verified_holder _ _ _ _ _ Hsig Hx2 Hx3) as (vk & s & Hvk & Hd & Hv).
    rewrite land_UP, land_UV in *. rewrite ?negb_false_iff, ?str_eqb_eq in *. destruct x0 as [hash fl count cred].
    cbn [rp_id_hash_of flags ad_count] in *. subst hash.
    pose proof (proj1 (parse_laid_out ad _ fl count Hb) (ex_intro _ cred Hx0)) as Hl. pose proof (laid_out_count _ _ _ _ Hb Hl).
    rewrite Hc4 in H1. injection H1 as <-. exists count. pose proof (proj1 (clone_check _ _) Hc5). split; [|split; [lia|done]].
    exists x, fl, x1, vk, s. by split_and!.
  - intros (count & (client & fl & pk & vk & s & Hcd & Hk & Hch & Ho & Hl & Hup & Huv & Hpk & Hvk & Hd & Hv) & Hcl & ->).
    pose proof (laid_out_count _ _ _ _ Hb Hl). apply parse_laid_out in Hl as [cred Hl]; [|done].
    rewrite Hcd. cbn [ok_or rbind]. rewrite Hk, Hch, Ho, !str_eqb_refl. cbn [negb]. rewrite Hl.
    cbn [rbind rp_id_hash_of flags ad_count]. rewrite str_eqb_refl, land_UP, land_UV, Hup, Huv, Hpk.
    cbn [negb ok_or rbind]. unfold der_to_raw_rs, verify_es256. rewrite Hd. cbn [map_err rbind]. rewrite Hvk, Hsig.
    cbn [map_err rbind]. rewrite Hv. cbn [map_err rbind]. by rewrite (proj2 (clone_check _ _)) by lia.
Qed.

(** The layout of authenticator data is read as it is written.  For every
    relying-party hash, flag byte with the attested-credential bit, counter,
    credential id and COSE key, the bytes laid out as WebAuthn section 6.1 says
    (with any extension bytes after them) parse back to exactly those parts. *)
Theorem authenticator_data_round_trip `{Primitives} `{Envelope}
  hash fl count aaguid id cose_bytes cose key :
  length hash = 32%nat -> Z.testbit fl 6 = true -> 0 <= count <= u32_max ->
  length aaguid = 16%nat -> Z.of_nat (length id) <= 65535 ->
  cbor_read cose_bytes = Some cose -> cose_key_to_x963 cose = Ok key ->
  parse_authenticator_data
    (hash ++ [fl; count / 16777216; count / 65536 mod 256; count / 256 mod 256; count mod 256]
     ++ aaguid ++ [Z.of_nat (length id) / 256; Z.of_nat (length id) mod 256]
     ++ id ++ cose_bytes)
  = Ok (mkAuthData hash fl count (Some (mkAttested id key))).
Proof.
  intros Hh Hfl Hc Ha Hid Hcose Hkey. unfold u32_max in Hc.
  do 32 (destruct hash as [|? hash]; [done|]); destruct hash; [|done].
  do 16 (destruct aaguid as [|? aaguid]; [done|]); destruct aaguid; [|done].
  unfold parse_authenticator_data, byte_at, slice.
  rewrite !length_app. cbn [length app nth skipn firstn Nat.sub rbind].
  rewrite land_AT, Hfl. cbn [negb].
  destruct (_ <? 37) eqn:E1; b2p; [lia|]. destruct (_ <? 37 + 18) eqn:E2; b2p; [lia|].
  assert (u16_be (Z.of_nat (length id) / 256) (Z.of_nat (length id) mod 256)
          = Z.of_nat (length id)) as ->.
  { unfold u16_be. pose proof (Z.div_mod (Z.of_nat (length id)) 256). lia. }
  destruct (_ <? 55 + _) eqn:E3; b2p; [lia|].
  replace (Z.to_nat (55 + Z.of_nat (length id))) with (55 + length id)%nat by lia.
  cbn [Nat.add skipn firstn]. rewrite skipn_app, skipn_all, Nat.sub_diag. cbn [skipn app].
  rewrite !drop_0, Hcose. cbn [ok_or rbind]. rewrite Hkey. cbn [rbind].
  repeat f_equal.
  - unfold u32_be. Z.div_mod_to_equations. lia.
  - match goal with |- list.take ?n _ = _ => replace n with (length id) by lia end.
    apply take_app_length.
Qed.

(** A challenge is redeemed at most once, by its owner, in time.  In every
    run of the challenge table, an accepted redemption is of a challenge minted
    for that user and that purpose less than [CEREMONY_TTL] before, and between
    the minting and the redemption the challenge was neither redeemed nor tried
    by anyone, whatever the answer was. *)
Theorem challenge_redeemed_once `{Primitives} es m user c now p m' :
  run table_step ∅ es m -> take now m user c = (Ok p, m') ->
  exists h1 h2 t, es = h1 ++ Minted c user p t :: h2 /\ now < t + CEREMONY_TTL
    /\ Forall (fun e => event_challenge e <> c) h2 /\ m' !! c = None.
Proof.
  intros Hr Ht. assert (table_ok es m) as Hok.
  { change es with ([] ++ es). eapply table_ok_run; [done|apply table_ok_empty]. }
  destruct (take_minted _ _ _ _ _ _ _ Hok Ht) as (h1&h2&t&->&?&?).
  exists h1, h2, t. repeat split; try done.
  replace m' with (take now m user c).2 by (by rewrite Ht). rewrite take_table. apply lookup_delete_eq.
Qed.

(** Minting a challenge cannot panic.  Whatever 32 bytes the system's
    randomness gives, the hexadecimal that [random_hex] prints reads back, so
    [mint] hands out the base64url of those bytes and the [expect] holds. *)
Theorem mint_challenge_is_the_entropy `{Primitives} bytes now m user p :
  Forall (fun b => 0 <= b <= 255) bytes ->
  (mint (Ok bytes) now m user p).1 = Ok (b64url_encode bytes)
  /\ (mint (Ok bytes) now m user p).2 !! b64url_encode bytes
     = Some (mkPending user p (now + CEREMONY_TTL)).
Proof.
  intros Hb. unfold mint, new_challenge, random_hex. simpl. rewrite hex_round by done. split; [done|].
  apply lookup_insert_eq.
Qed.

(** Without the operator password no sequence of removals empties a user's
    passkeys.  From a state where the user has one, after any sequence of
    enrolments, counter updates and removals in which no removal of that user's
    keys carried the authority for the last one, and whatever became of each
    write to disk, the user still has one. *)
Theorem passkeys_never_emptied m (os : list store_op) user :
  has_any m user = true ->
  (forall p cid, OpRemove p user cid true ∉ os) ->
  has_any (run_store m os) user = true.
Proof.
  intros Hm Hos. apply (run_store_ind (fun m => has_any m user = true)); [done|].
  clear Hm. intros m' [p u r|p u cid al|p u cid n] Ho H; unfold has_any in *; b2p; cbn [apply_store].
  - destruct (for_user_add p m' u r user) as [->|(->&_&->)]; [done|]. by destruct (for_user m' u).
  - destruct (for_user_remove p m' u cid al user) as (l&->&[->|(->&i&Hi&->&Hal)]); [done|].
    destruct al; [by destruct (Hos p cid)|]. destruct Hal as [|Hal]; [done|].
    destruct (for_user m' u) as [|r1 [|r2 l]]; simpl in *; [lia|done|]. destruct i; done.
  - intros E. apply (f_equal (map credential_id)) in E. rewrite for_user_count in E.
    by destruct (for_user m' user).
Qed.

(** A user's credential ids stay distinct under every sequence of store
    operations, so the key an assertion names is one key. *)
Theorem credential_ids_distinct m (os : list store_op) :
  (forall user, NoDup (map credential_id (for_user m user))) ->
  forall user, NoDup (map credential_id (for_user (run_store m os) user)).
Proof.
  intros Hm. apply (run_store_ind (fun m => forall u, NoDup (map credential_id (for_user m u)))); [done|].
  clear Hm. intros m' [p u r|p u cid al|p u cid n] _ H user; cbn [apply_store].
  - destruct (for_user_add p m' u r user) as [->|(->&Hnew&->)]; [done|].
    rewrite map_app. apply NoDup_app. repeat split; [done| |apply NoDup_singleton].
    by intros x Hx ->%list_elem_of_singleton.
  - destruct (for_user_remove p m' u cid al user) as (l&->&[->|(->&i&_&->&_)]); [done|].
    by apply NoDup_map_delete.
  - by rewrite for_user_count.
Qed.

(** An enrolment whose write to disk fails is refused, and stays in force
    in memory: the caller is answered with an error while the key it named is
    enrolled until the process ends. *)
Theorem failed_enrolment_stays_in_memory m user r e :
  credential_id r ∉ map credential_id (for_user m user) ->
  (store_add (Err e) m user r).1 = Err e
  /\ for_user (store_add (Err e) m user r).2 user = for_user m user ++ [r].
Proof.
  intros Hnew. unfold store_add. destruct (existsb _ _) eqn:E; simpl.
  - apply existsb_exists in E as (r'&Hin&Hr'). apply str_eqb_eq in Hr'.
    destruct Hnew. rewrite <- Hr'. apply list_elem_of_fmap_2. by apply list_elem_of_In.
  - rewrite for_user_insert. by case_decide.
Qed.

(** ** Witnesses *)

Inductive demo_cbor : Type :=
| DInt (z : Z) | DBytes (bs : list Z) | DText (s : str) | DMap (kvs : list (demo_cbor * demo_cbor)).

Definition demo_cose : demo_cbor :=
  DMap [(DInt 1, DInt 2); (DInt 3, DInt (-7)); (DInt (-1), DInt 1);
        (DInt (-2), DBytes (replicate 32 1)); (DInt (-3), DBytes (replicate 32 2))].

(** A decoder with one key, under the byte 7, and client data that is its kind,
    then its challenge. *)
Definition demo_envelope : Envelope := {|
  client_data_from_slice := fun bs =>
    match bs with
    | k :: c => Some (mkClientData (if k =? 1 then #"webauthn.create" else #"webauthn.get") c
                        #"http://localhost:7420")
    | [] => None
    end;
  Cbor := demo_cbor;
  cbor_read := fun bs => match bs with 7 :: _ => Some demo_cose | _ => None end;
  cbor_map := fun c => match c with DMap kvs => Some kvs | _ => None end;
  cbor_integer := fun c => match c with DInt z => Some z | _ => None end;
  cbor_bytes := fun c => match c with DBytes bs => Some bs | _ => None end;
  cbor_text := fun c => match c with DText s => Some s | _ => None end;
|}.

#[local] Existing Instance demo_primitives.
#[local] Existing Instance demo_envelope.

Definition demo_rp : RpConfig := mkRp (replicate 32 97) #"http://localhost:7420".
Definition demo_key : PasskeyRecord := mkPasskey #"k1" #"09" 3 #"" #"laptop".
Definition demo_auth_data (count : Z) : list Z := replicate 32 97 ++ [5; 0; 0; 0; count].

(** A good assertion is accepted; a replayed counter and a missing user
    verification are refused. *)
Example demo_assertions :
  verify_assertion demo_rp #"ch" demo_key (2 :: #"ch") (demo_auth_data 4)
    (9 :: demo_auth_data 4 ++ 2 :: #"ch") = Ok (mkVerified 4 true)
  /\ verify_assertion demo_rp #"ch" demo_key (2 :: #"ch") (demo_auth_data 3)
    (9 :: demo_auth_data 3 ++ 2 :: #"ch") = Err CloneSuspected
  /\ verify_assertion demo_rp #"ch" demo_key (2 :: #"ch") (replicate 32 97 ++ [1; 0; 0; 0; 4])
    [] = Err UserNotVerified.
Proof. by vm_compute. Qed.

Lemma assertion_accepted_iff_witness :
  asserted demo_rp #"ch" demo_key (2 :: #"ch") (demo_auth_data 4) (9 :: demo_auth_data 4 ++ 2 :: #"ch") 4.
Proof.
  assert (verify_assertion demo_rp #"ch" demo_key (2 :: #"ch") (demo_auth_data 4) (9 :: demo_auth_data 4 ++ 2 :: #"ch")
    = Ok (mkVerified 4 true)) as E by (vm_compute; reflexivity).
  apply assertion_accepted_iff in E as (count & Ha & _ & Ev);
    [|apply forallb_in_byte; vm_compute; reflexivity|vm_compute; discriminate|reflexivity].
  assert (count = 4) as -> by congruence. exact Ha.
Defined.

(** A key that counted to three and then says zero is accepted. *)
Example counter_reset_is_accepted :
  verify_assertion demo_rp #"ch" demo_key (2 :: #"ch") (demo_auth_data 0) (9 :: demo_auth_data 0 ++ 2 :: #"ch")
    = Ok (mkVerified 0 true)
  /\ sign_count demo_key = 3 /\ ~ standard_counter 3 0.
Proof. split; [by vm_compute|]. split; [done|]. unfold standard_counter. lia. Qed.

Lemma authenticator_data_round_trip_witness :
  parse_authenticator_data
    (replicate 32 97 ++ [69; 300 / 16777216; 300 / 65536 mod 256; 300 / 256 mod 256; 300 mod 256]
     ++ replicate 16 0 ++ [Z.of_nat 2 / 256; Z.of_nat 2 mod 256] ++ [11; 12] ++ [7; 8])
  = Ok (mkAuthData (replicate 32 97) 69 300
          (Some (mkAttested [11; 12] (4 :: replicate 32 1 ++ replicate 32 2)))).
Proof.
  apply (@authenticator_data_round_trip demo_primitives demo_envelope (replicate 32 97) 69 300 (replicate 16 0) [11; 12] [7; 8] demo_cose);
    try reflexivity; vm_compute; done.
Defined.

Definition demo_minted : PendingCeremonies :=
  (mint (Ok [17; 34]) 5 ∅ #"alice" (Action #"kill" #"ab")).2.

Lemma challenge_redeemed_once_witness :
  exists h1 h2 t, [Minted #"1122" #"alice" (Action #"kill" #"ab") 5]
    = h1 ++ Minted #"1122" #"alice" (Action #"kill" #"ab") t :: h2
    /\ 6 < t + CEREMONY_TTL.
Proof.
  destruct (challenge_redeemed_once [Minted #"1122" #"alice" (Action #"kill" #"ab") 5] demo_minted
              #"alice" #"1122" 6 (Action #"kill" #"ab") (delete #"1122" demo_minted))
    as (h1&h2&t&H1&H2&_).
  - econstructor; [|constructor]. apply (ts_mint _ (Ok [17; 34])). by vm_compute.
  - by vm_compute.
  - by exists h1, h2, t.
Defined.

Lemma mint_challenge_is_the_entropy_witness :
  (mint (Ok [17; 34]) 5 ∅ #"alice" Register).1 = Ok (b64url_encode [17; 34]).
Proof.
  apply (mint_challenge_is_the_entropy [17; 34] 5 ∅ #"alice" Register). repeat constructor; lia.
Defined.

Definition demo_store : PasskeyMap := {[ #"alice" := [demo_key] ]}.

Lemma passkeys_never_emptied_witness :
  has_any (run_store demo_store [OpRemove (Ok tt) #"alice" #"k1" false;
                                 OpRemove (Err LastPasskey) #"bob" #"k1" false]) #"alice" = true.
Proof.
  apply passkeys_never_emptied; [by vm_compute|].
  intros p cid [[=]|[[=]|[]%elem_of_nil]%elem_of_cons]%elem_of_cons.
Defined.

Lemma credential_ids_distinct_witness :
  NoDup (map credential_id (for_user (run_store ∅
    [OpAdd (Ok tt) #"alice" demo_key; OpAdd (Ok tt) #"alice" demo_key]) #"alice")).
Proof.
  apply credential_ids_distinct. intros user. unfold for_user, PasskeyMap. rewrite lookup_empty. constructor.
Defined.

Lemma failed_enrolment_stays_in_memory_witness :
  (store_add (Err (Store #"cannot write")) ∅ #"alice" demo_key).1 = Err (Store #"cannot write")
  /\ for_user (store_add (Err (Store #"cannot write")) ∅ #"alice" demo_key).2 #"alice"
     = for_user ∅ #"alice" ++ [demo_key].
Proof.
  apply (failed_enrolment_stays_in_memory ∅ #"alice" demo_key (Store #"cannot write")).
  unfold for_user, PasskeyMap. rewrite lookup_empty. apply not_elem_of_nil.
Defined.
