(* ===== verification/Console.v ===== *)
(** * Console: the HTTP handlers ([crates/web/src/main.rs]), the switches of
    [crates/web/src/config.rs] and the shared state of [crates/web/src/ctx.rs]

    Sign-in, the session guard, the passkey lifecycle and the command
    chokepoint, each a program over the operations of the shared state, in the
    order the source performs them.  Between two operations of one handler any
    other handler may run.  OIDC verification, Argon2 and the dispatch of a
    command to its plane are answers the handler cannot predict. *)
From S2P Require Import Prelude Text Json Roles Throttle Sessions Signing Webauthn Prog.

(** ** Configuration *)

(** [parse_switch_on], [allow_software_ceremony], [require_passkey_from_switch]. *)
Definition parse_switch_on (raw : str) : bool :=
  let w := map to_ascii_lower (trim raw) in
  str_eqb w #"1" || str_eqb w #"true" || str_eqb w #"yes" || str_eqb w #"on".
Definition allow_software_ceremony (raw : str) : bool := parse_switch_on raw.
Definition require_passkey_from_switch (raw : str) : bool := negb (allow_software_ceremony raw).

Definition cookie_is_secure (explicit : bool) (origin : str) : bool :=
  explicit || starts_with #"https://" origin.

Definition approver_key_file_from (raw : str) : option str :=
  let trimmed := trim raw in
  if bool_decide (trimmed = []) then None else Some trimmed.

(** What the handlers read of the configuration: [Config], the relying party,
    and whether OIDC is configured. *)
Record Config : Type := mkConfig
  { require_passkey : bool; secure_cookies : bool; webauthn_rp : RpConfig; oidc_available : bool }.

(** ** Responses *)

Record Cookie : Type := mkCookie
  { c_name : str; c_value : str; http_only : bool; same_site_strict : bool; c_path : str;
    secure : bool }.

Record Response : Type := mkResponse
  { status : Z; body : value; retry_after : option str; set_cookie : option Cookie;
    removed_cookie : option (str * bool) }.

Definition COOKIE : str := #"genaryx_session".

Definition respond (status : Z) (body : value) : Response := mkResponse status body None None None.
Definition error_body (msg : str) : value := obj [(#"error", VStr msg)].
Definition json_ok (v : value) : Response := respond 200 v.

Definition store_unavailable (why : str) : Response :=
  respond 503 (error_body (#"passkey store unavailable: " ++ why)).
Definition bad_request (msg : str) : Response := respond 400 (error_body msg).
Definition ceremony_refused (e : WebAuthnError) : Response :=
  respond 403 (error_body (#"webauthn: " ++ error_text e)).
Definition too_many_sign_ins (wait : Z) : Response :=
  let secs := Z.max (wait / 1000000000) 1 in
  mkResponse 429 (obj [(#"error", VStr #"too many failed sign-ins; wait before trying again");
                       (#"retry_after", VNum (NInt secs))]) (Some (dec secs)) None None.

(** ** Requests *)

Record Credentials : Type := mkCredentials
  { cr_username : option str; cr_password : option str; id_token : option str }.

Record AssertionEnvelope : Type := mkEnvelope
  { env_credential_id : str; env_client_data_json : str; env_authenticator_data : str;
    env_signature : str }.

Record ActionStart : Type := mkActionStart { as_command : str; as_args : value }.
Record RemovePasskey : Type := mkRemove { rm_credential_id : str; rm_operator_password : option str }.
Record RegisterFinish : Type := mkFinish
  { rf_label : str; rf_credential_id : str; rf_client_data_json : str; rf_attestation_object : str }.

(** A request, with the value of its session cookie and of its
    [x-genaryx-webauthn] header where the handler reads them. *)
Inductive request : Type :=
| RSession (cookie : option str)
| RLogin (peer : option str) (b : Credentials)
| RLogout (cookie : option str)
| RList (cookie : option str)
| RRegisterStart (cookie : option str) (header : option (list Z)) (operator_password : option str)
| RRegisterFinish (cookie : option str) (b : RegisterFinish)
| RRemove (cookie : option str) (header : option (list Z)) (b : RemovePasskey)
| RActionStart (cookie : option str) (b : ActionStart)
| RCommand (cookie : option str) (name : str) (header : option (list Z)) (b : option value).

Record ConsoleSignature : Type := mkSignature { alg : str; fpr : str }.

(** ** The operations on shared state *)

Inductive table : Type := Accounts | Addresses.

Inductive op : Type :=
| OTouch (id : str)
| OCreate (user : str) (role : Role) (method : Method)
| ORevoke (id : str)
| OOperator
| OVerify (o : Operator) (user password : str)
| OOidc (token : str)
| ONow
| OCheck (t : table) (key : str) (now : Z)
| OFailure (t : table) (key : str) (now : Z)
| OSuccess (t : table) (key : str)
| OStore
| OForUser (user : str)
| OAdd (user : str) (r : PasskeyRecord)
| ORemove (user cid : str) (allow_last : bool)
| OUpdate (user cid : str) (count : Z)
| OMint (user : str) (p : Purpose)
| OTake (user challenge : str)
| OUtcNow
| ODispatch (actor : str) (signature : option ConsoleSignature) (name : str) (args : value).

Definition resp (o : op) : Type :=
  match o with
  | OTouch _ => option SessionInfo
  | OCreate _ _ _ => str
  | ORevoke _ => unit
  | OOperator => option Operator
  | OVerify _ _ _ => bool
  | OOidc _ => option (str * Role)
  | ONow => Z
  | OCheck _ _ _ => result unit Z
  | OFailure _ _ _ | OSuccess _ _ => unit
  | OStore => result unit str
  | OForUser _ => list PasskeyRecord
  | OAdd _ _ => result unit WebAuthnError
  | ORemove _ _ _ => result Z WebAuthnError
  | OUpdate _ _ _ => result unit WebAuthnError
  | OMint _ _ => result str WebAuthnError
  | OTake _ _ => result Purpose WebAuthnError
  | OUtcNow => str
  | ODispatch _ _ _ _ => Response
  end.

(** An operation with its time and its answer, as the history records it. *)
Inductive event : Type :=
| EvTouch (id : str) (at_ : Z) (r : option SessionInfo)
| EvCreate (user : str) (role : Role) (method : Method) (at_ : Z) (id : str)
| EvRevoke (id : str) (at_ : Z)
| EvOperator (r : option Operator)
| EvVerify (o : Operator) (user password : str) (r : bool)
| EvOidc (token : str) (r : option (str * Role))
| EvNow (r : Z)
| EvCheck (t : table) (key : str) (now : Z) (r : result unit Z)
| EvFailure (t : table) (key : str) (now : Z)
| EvSuccess (t : table) (key : str)
| EvStore (r : result unit str)
| EvForUser (user : str) (r : list PasskeyRecord)
| EvAdd (user : str) (rec : PasskeyRecord) (r : result unit WebAuthnError)
| EvRemove (user cid : str) (allow_last : bool) (r : result Z WebAuthnError)
| EvUpdate (user cid : str) (count : Z) (r : result unit WebAuthnError)
| EvMint (user : str) (p : Purpose) (at_ : Z) (r : result str WebAuthnError)
| EvTake (user challenge : str) (at_ : Z) (r : result Purpose WebAuthnError)
| EvUtcNow (r : str)
| EvDispatch (actor : str) (signature : option ConsoleSignature) (name : str) (args : value).

Definition event_of (o : op) (t : Z) : resp o -> event :=
  match o return resp o -> event with
  | OTouch id => fun r => EvTouch id t r
  | OCreate u r m => fun id => EvCreate u r m t id
  | ORevoke id => fun _ => EvRevoke id t
  | OOperator => fun r => EvOperator r
  | OVerify o u p => fun r => EvVerify o u p r
  | OOidc tok => fun r => EvOidc tok r
  | ONow => fun r => EvNow r
  | OCheck tb k n => fun r => EvCheck tb k n r
  | OFailure tb k n => fun _ => EvFailure tb k n
  | OSuccess tb k => fun _ => EvSuccess tb k
  | OStore => fun r => EvStore r
  | OForUser u => fun r => EvForUser u r
  | OAdd u rec => fun r => EvAdd u rec r
  | ORemove u c al => fun r => EvRemove u c al r
  | OUpdate u c n => fun r => EvUpdate u c n r
  | OMint u p => fun r => EvMint u p t r
  | OTake u c => fun r => EvTake u c t r
  | OUtcNow => fun r => EvUtcNow r
  | ODispatch a s n args => fun _ => EvDispatch a s n args
  end.

(** The operation an event records. *)
Definition op_of (e : event) : op :=
  match e with
  | EvTouch id _ _ => OTouch id
  | EvCreate u r m _ _ => OCreate u r m
  | EvRevoke id _ => ORevoke id
  | EvOperator _ => OOperator
  | EvVerify o u p _ => OVerify o u p
  | EvOidc tok _ => OOidc tok
  | EvNow _ => ONow
  | EvCheck tb k n _ => OCheck tb k n
  | EvFailure tb k n => OFailure tb k n
  | EvSuccess tb k => OSuccess tb k
  | EvStore _ => OStore
  | EvForUser u _ => OForUser u
  | EvAdd u rec _ => OAdd u rec
  | EvRemove u c al _ => ORemove u c al
  | EvUpdate u c n _ => OUpdate u c n
  | EvMint u p _ _ => OMint u p
  | EvTake u c _ _ => OTake u c
  | EvUtcNow _ => OUtcNow
  | EvDispatch a s n args => ODispatch a s n args
  end.

Lemma op_of_event o t x : op_of (event_of o t x) = o.
Proof. by destruct o. Qed.

(** The decoders of other crates the handlers call. *)
Class Wire := {
  header_to_str : list Z -> option str;
  envelope_from_slice : list Z -> option AssertionEnvelope;
  json_from_slice : list Z -> option value;
  json_to_string : value -> str;
}.

Section Handlers.
Context {PR : Primitives} {EN : Envelope} {WI : Wire}.
Context (cfg : Config).

Abbreviation handler := (prog resp Response).

Definition canonical_args (args : value) : str := json_to_string args.
Definition args_digest (args : value) : str := body_sha256_hex (str_bytes (canonical_args args)).

Definition challenge_of (client_data_json : list Z) : option str :=
  let! v := json_from_slice client_data_json in get_str #"challenge" v.

(** [ctx.sessions.touch(c.value())] when the request carries the cookie. *)
Definition touch_cookie (cookie : option str) : prog resp (option SessionInfo) :=
  match cookie with
  | None => Ret None
  | Some c => do i <- OTouch c; Ret i
  end.

(** [guard]. *)
Definition guard (cookie : option str) : prog resp (result SessionInfo Response) :=
  do! i <- touch_cookie cookie;
  Ret (ok_or i (respond 401 (error_body #"not signed in"))).

(** [ctx.passkeys.as_ref()], with the refusal every handler gives. *)
Definition open_store : prog resp (result unit Response) :=
  do s <- OStore; Ret (map_err store_unavailable s).

Definition session (cookie : option str) : handler :=
  do o <- OOperator;
  do! info <- touch_cookie cookie;
  Ret (json_ok (obj
    [(#"configured", VBool (bool_decide (is_Some o)));
     (#"signed_in", VBool (bool_decide (is_Some info)));
     (#"user", opt_str (option_map si_user info));
     (#"role", opt_str (option_map (fun i => role_as_str (si_role i)) info));
     (#"method", opt_str (option_map (fun i => method_as_str (si_method i)) info));
     (#"oidc_available", VBool (oidc_available cfg))])).

(** The longest wait either table asks for: [filter_map(Result::err).max()]. *)
Definition held (a b : result unit Z) : option Z :=
  match a, b with
  | Ok _, Ok _ => None
  | Err w, Ok _ | Ok _, Err w => Some w
  | Err w, Err w' => Some (Z.max w w')
  end.

(** The password half of [login]. *)
Definition login_password (peer : option str) (b : Credentials)
  : prog resp (result (str * Role * Method) Response) :=
  do o <- OOperator;
  match o with
  | None => Ret (Err (respond 503 (error_body #"no operator account on this box yet")))
  | Some o =>
      let user := default [] (cr_username b) in
      let password := default [] (cr_password b) in
      do now <- ONow;
      let account := login_key #"user" user in
      let address := login_key #"addr" (default #"unknown" peer) in
      do ra <- OCheck Accounts account now;
      do rb <- OCheck Addresses address now;
      match held ra rb with
      | Some wait => Ret (Err (too_many_sign_ins wait))
      | None =>
          do good <- OVerify o user password;
          if negb good then
            do _ <- OFailure Accounts account now;
            do _ <- OFailure Addresses address now;
            Ret (Err (respond 401 (error_body #"wrong username or password")))
          else
            do _ <- OSuccess Accounts account;
            do _ <- OSuccess Addresses address;
            Ret (Ok (Sessions.username o, Admin, Local))
      end
  end.

(** The OIDC half of [login]. *)
Definition login_oidc (token : str) : prog resp (result (str * Role * Method) Response) :=
  if negb (oidc_available cfg)
  then Ret (Err (respond 503 (error_body #"OIDC is not configured on this box")))
  else
    do v <- OOidc token;
    match v with
    | Some (user, role) => Ret (Ok (user, role, Oidc))
    | None => Ret (Err (respond 401 (error_body #"the ID token was not accepted")))
    end.

Definition cookie_secure : bool := cookie_is_secure (secure_cookies cfg) (origin (webauthn_rp cfg)).

Definition login (peer : option str) (b : Credentials) : handler :=
  try! resolved <- match id_token b with
                   | Some t => if bool_decide (trim t = []) then login_password peer b
                               else login_oidc t
                   | None => login_password peer b
                   end;
  let '(user, role, method) := resolved in
  do id <- OCreate user role method;
  Ret (mkResponse 200
         (obj [(#"signed_in", VBool true); (#"user", VStr user);
               (#"role", VStr (role_as_str role)); (#"method", VStr (method_as_str method))])
         None (Some (mkCookie COOKIE id true true #"/" cookie_secure)) None).

Definition logout (cookie : option str) : handler :=
  let gone := mkResponse 200 (obj [(#"signed_in", VBool false)]) None None
                (Some (COOKIE, cookie_secure)) in
  match cookie with
  | Some c => do _ <- ORevoke c; Ret gone
  | None => Ret gone
  end.

Definition REMOVE_PASSKEY_CEREMONY : str := #"webauthn_remove_passkey".
Definition ENROLL_PASSKEY_CEREMONY : str := #"webauthn_enroll_passkey".

Definition webauthn_list (cookie : option str) : handler :=
  try! s <- guard cookie;
  try! _ <- open_store;
  do keys <- OForUser (si_user s);
  Ret (json_ok (obj
    [(#"passkeys", VArr (map (fun k => obj [(#"credential_id", VStr (credential_id k));
                                            (#"label", VStr (Webauthn.label k));
                                            (#"created_at", VStr (created_at k))]) keys));
     (#"webauthn_required", VBool (negb (bool_decide (keys = []))));
     (#"policy_requires_passkey", VBool (require_passkey cfg))])).

(** [operator_password_ok]. *)
Definition operator_password_ok (password : str) : prog resp (result unit Response) :=
  do o <- OOperator;
  match o with
  | None => Ret (Err (respond 403 (obj
      [(#"error", VStr (#"this box has no operator account, so there is no password to prove: " ++
         #"run `genaryx-web set-password --username <name>` on the box first"));
       (#"webauthn", VStr #"no_operator_account")])))
  | Some o =>
      do good <- OVerify o (Sessions.username o) password;
      if negb good
      then Ret (Err (respond 403 (error_body #"the operator password was not accepted")))
      else Ret (Ok tt)
  end.

(** [verify_assertion_header]. *)
Definition verify_assertion_header (s : SessionInfo) (bound_to : str) (args : value)
  (header : list Z) : prog resp (result PasskeyRecord Response) :=
  match (let! h := header_to_str header in let! b := b64url_decode h in envelope_from_slice b) with
  | None => Ret (Err (bad_request #"x-genaryx-webauthn is not base64url(JSON)"))
  | Some env =>
  match b64url_decode (env_client_data_json env) with
  | None => Ret (Err (bad_request #"client_data_json is not base64url"))
  | Some client_data =>
  match b64url_decode (env_authenticator_data env) with
  | None => Ret (Err (bad_request #"authenticator_data is not base64url"))
  | Some auth_data =>
  match b64url_decode (env_signature env) with
  | None => Ret (Err (bad_request #"signature is not base64url"))
  | Some signature =>
  match challenge_of client_data with
  | None => Ret (Err (bad_request #"clientDataJSON carries no challenge"))
  | Some challenge =>
  do taken <- OTake (si_user s) challenge;
  match taken with
  | Err e => Ret (Err (ceremony_refused e))
  | Ok Register => Ret (Err (ceremony_refused (Mismatch #"ceremony purpose")))
  | Ok (Action command args_sha256) =>
  if negb (str_eqb command bound_to) then Ret (Err (ceremony_refused (Mismatch #"bound command")))
  else if negb (str_eqb args_sha256 (args_digest args))
  then Ret (Err (ceremony_refused (Mismatch #"bound arguments")))
  else
  do keys <- OForUser (si_user s);
  match List.find (fun k => str_eqb (credential_id k) (env_credential_id env)) keys with
  | None => Ret (Err (ceremony_refused WrongUser))
  | Some record =>
  match verify_assertion (webauthn_rp cfg) challenge record client_data auth_data signature with
  | Err e => Ret (Err (ceremony_refused e))
  | Ok verified =>
  do _ <- OUpdate (si_user s) (credential_id record) (va_sign_count verified);
  Ret (Ok record)
  end end end end end end end end.

Definition webauthn_register_start (cookie : option str) (header : option (list Z))
  (operator_password : option str) : handler :=
  try! s <- guard cookie;
  try! _ <- open_store;
  do keys <- OForUser (si_user s);
  try! _ <-
    (if negb (bool_decide (keys = [])) then
       match header with
       | None => Ret (Err (respond 403 (obj
           [(#"error", VStr (#"you already have an enrolled passkey: confirm with it before " ++
               #"enrolling another, so a session on its own cannot add one"));
            (#"webauthn", VStr #"assertion_required")])))
       | Some header =>
           do! r <- verify_assertion_header s ENROLL_PASSKEY_CEREMONY (obj []) header;
           Ret (let? _ := r in Ok tt)
       end
     else
       match operator_password with
       | None => Ret (Err (respond 403 (obj
           [(#"error", VStr (#"enrolling the first passkey needs the operator password (the one " ++
               #"`genaryx-web set-password` set): a session alone is what the " ++
               #"ceremony exists to defend against, so it cannot mint the key that " ++
               #"would satisfy it"));
            (#"webauthn", VStr #"password_required")])))
       | Some password => operator_password_ok password
       end);
  do c <- OMint (si_user s) Register;
  match c with
  | Err e => Ret (ceremony_refused e)
  | Ok challenge =>
      Ret (json_ok (obj
        [(#"challenge", VStr challenge);
         (#"rp", obj [(#"id", VStr (rp_id (webauthn_rp cfg))); (#"name", VStr #"Genaryx")]);
         (#"user", obj [(#"id", VStr (b64url_encode (str_bytes (si_user s))));
                        (#"name", VStr (si_user s)); (#"displayName", VStr (si_user s))]);
         (#"pubKeyCredParams", VArr [obj [(#"type", VStr #"public-key"); (#"alg", VNum (NInt (-7)))]]);
         (#"timeout", VNum (NInt 120000));
         (#"attestation", VStr #"none");
         (#"authenticatorSelection", obj [(#"userVerification", VStr #"preferred")])]))
  end.

Definition webauthn_register_finish (cookie : option str) (b : RegisterFinish) : handler :=
  try! s <- guard cookie;
  try! _ <- open_store;
  match b64url_decode (rf_client_data_json b) with
  | None => Ret (bad_request #"client_data_json is not base64url")
  | Some client_data =>
  match b64url_decode (rf_attestation_object b) with
  | None => Ret (bad_request #"attestation_object is not base64url")
  | Some attestation =>
  match challenge_of client_data with
  | None => Ret (bad_request #"clientDataJSON carries no challenge")
  | Some challenge =>
  do taken <- OTake (si_user s) challenge;
  match taken with
  | Err e => Ret (ceremony_refused e)
  | Ok (Action _ _) => Ret (ceremony_refused (Mismatch #"ceremony purpose"))
  | Ok Register =>
  match verify_registration (webauthn_rp cfg) challenge client_data attestation with
  | Err e => Ret (ceremony_refused e)
  | Ok verified =>
  if negb (str_eqb (vr_credential_id verified) (rf_credential_id b))
  then Ret (ceremony_refused (Mismatch #"credential id"))
  else
  do now <- OUtcNow;
  let record := mkPasskey (vr_credential_id verified) (vr_public_key verified)
    (vr_sign_count verified) now
    (if bool_decide (trim (rf_label b) = []) then #"passkey" else trim (rf_label b)) in
  do added <- OAdd (si_user s) record;
  match added with
  | Err e => Ret (ceremony_refused e)
  | Ok _ => Ret (json_ok (obj [(#"enrolled", VBool true);
                               (#"credential_id", VStr (credential_id record))]))
  end end end end end end.

Definition removal_args (cid : str) : value := obj [(#"credential_id", VStr cid)].

Definition webauthn_remove (cookie : option str) (header : option (list Z)) (b : RemovePasskey)
  : handler :=
  try! s <- guard cookie;
  try! _ <- open_store;
  do keys <- OForUser (si_user s);
  if negb (existsb (fun k => str_eqb (credential_id k) (rm_credential_id b)) keys)
  then Ret (respond 404 (error_body (#"webauthn: " ++ error_text UnknownCredential)))
  else
  let is_last := Z.of_nat (length keys) =? 1 in
  try! password_ok <- match rm_operator_password b with
                      | Some pw => do! r <- operator_password_ok pw;
                                   Ret (let? _ := r in Ok true)
                      | None => Ret (Ok false)
                      end;
  if is_last && negb password_ok
  then Ret (respond 403 (obj
    [(#"error", VStr (#"this is the last enrolled passkey: removing it needs the operator " ++
        #"password (the one `genaryx-web set-password` set), because it is what " ++
        #"takes this console back to session-only"));
     (#"webauthn", VStr #"password_required")]))
  else
  try! _ <-
    (if negb password_ok then
       match header with
       | None => Ret (Err (respond 403 (obj
           [(#"error", VStr (#"removing a passkey needs a fresh confirmation from an enrolled " ++
               #"passkey, or the operator password: a session alone cannot take the " ++
               #"ceremony away"));
            (#"webauthn", VStr #"assertion_required")])))
       | Some header =>
           do! r <- verify_assertion_header s REMOVE_PASSKEY_CEREMONY
                      (removal_args (rm_credential_id b)) header;
           Ret (let? _ := r in Ok tt)
       end
     else Ret (Ok tt));
  do removed <- ORemove (si_user s) (rm_credential_id b) password_ok;
  match removed with
  | Err e => Ret (ceremony_refused e)
  | Ok remaining => Ret (json_ok (obj
      [(#"removed", VBool true); (#"credential_id", VStr (rm_credential_id b));
       (#"remaining", VNum (NInt remaining))]))
  end.

Definition ceremonial (command : str) : bool :=
  existsb (fun c => str_eqb c command) ceremony_commands
  || str_eqb command REMOVE_PASSKEY_CEREMONY || str_eqb command ENROLL_PASSKEY_CEREMONY.

Definition webauthn_action_start (cookie : option str) (b : ActionStart) : handler :=
  try! s <- guard cookie;
  try! _ <- open_store;
  do keys <- OForUser (si_user s);
  if bool_decide (keys = [])
  then Ret (bad_request #"no passkey enrolled; enroll one before starting an action ceremony")
  else if negb (ceremonial (as_command b))
  then Ret (bad_request #"this command carries no webauthn ceremony")
  else
  do c <- OMint (si_user s) (Action (as_command b) (args_digest (as_args b)));
  match c with
  | Err e => Ret (ceremony_refused e)
  | Ok challenge =>
      Ret (json_ok (obj
        [(#"challenge", VStr challenge);
         (#"rp_id", VStr (rp_id (webauthn_rp cfg)));
         (#"timeout", VNum (NInt 120000));
         (#"user_verification", VStr #"required");
         (#"allow_credentials",
           VArr (map (fun k => obj [(#"type", VStr #"public-key");
                                    (#"id", VStr (credential_id k))]) keys))]))
  end.

Definition webauthn_es256 : str := #"webauthn-es256".

Definition webauthn_gate (s : SessionInfo) (name : str) (args : value) (header : option (list Z))
  : prog resp (result (option ConsoleSignature) Response) :=
  do! st <- open_store;
  match st with
  | Err e => Ret (Err e)
  | Ok _ =>
  do keys <- OForUser (si_user s);
  if bool_decide (keys = []) then
    if require_passkey cfg
    then Ret (Err (respond 403 (obj
      [(#"error", VStr (#"this console requires a passkey for " ++ name ++
          #", and you have none enrolled: enrol one under Session > Passkeys, then run this again"));
       (#"webauthn", VStr #"enrollment_required")])))
    else Ret (Ok None)
  else
    match header with
    | None => Ret (Err (respond 428 (obj
        [(#"error", VStr #"a webauthn assertion is required for this command");
         (#"webauthn", VStr #"required")])))
    | Some header =>
        do! r <- verify_assertion_header s name args header;
        Ret (let? record := r in Ok (Some (mkSignature webauthn_es256 (credential_id record))))
    end
  end.

Definition command (cookie : option str) (name : str) (header : option (list Z)) (b : option value)
  : handler :=
  try! s <- guard cookie;
  let need := required_role name in
  if role_ltb (si_role s) need
  then Ret (respond 403 (error_body (#"role " ++ role_as_str need ++ #" required")))
  else
  let args := default (obj []) b in
  try! signature <- (if requires_ceremony name then webauthn_gate s name args header
                     else Ret (Ok None));
  do r <- ODispatch (si_user s) signature name args; Ret r.

(** The router: [app]. *)
Definition handle (r : request) : handler :=
  match r with
  | RSession cookie => session cookie
  | RLogin peer b => login peer b
  | RLogout cookie => logout cookie
  | RList cookie => webauthn_list cookie
  | RRegisterStart cookie header pw => webauthn_register_start cookie header pw
  | RRegisterFinish cookie b => webauthn_register_finish cookie b
  | RRemove cookie header b => webauthn_remove cookie header b
  | RActionStart cookie b => webauthn_action_start cookie b
  | RCommand cookie name header b => command cookie name header b
  end.
End Handlers.

(** ** The shared state: [Ctx] *)

Record Ctx : Type := mkCtx
  { sessions : gmap str Session;
    accounts : gmap str Window;
    addresses : gmap str Window;
    operator_held : option Operator;
    passkeys : result PasskeyMap str;
    webauthn_pending : PendingCeremonies }.

(** What an operation reads outside the state: the clock, the random bytes of a
    session id and of a challenge, whether a write to the passkey file went
    through, what [auth::load] finds, and the answers of OIDC and of the
    dispatched command. *)
Record env : Type := mkEnv
  { now : Z; sid_bytes : list Z; entropy : result (list Z) str;
    persisted : result unit WebAuthnError; operator_file : option Operator;
    oidc_answer : option (str * Role); utc_now : str; dispatch_answer : Response }.

Record Setup : Type := mkSetup
  { limits : SessionLimits; account_throttle : LoginThrottle; address_throttle : LoginThrottle;
    map_order : gmap str Window -> list (str * Window);
    password_matches : Operator -> str -> str -> bool }.

(** [Ctx::bootstrap]'s limits, over any map order and password check. *)
Definition default_setup (order : gmap str Window -> list (str * Window))
  (matches : Operator -> str -> str -> bool) : Setup :=
  mkSetup default_limits
    (mkThrottle ACCOUNT_LIMIT WINDOW MAX_KEYS) (mkThrottle ADDRESS_LIMIT WINDOW MAX_KEYS)
    order matches.

Definition with_sessions (s : Ctx) (m : gmap str Session) : Ctx :=
  mkCtx m (accounts s) (addresses s) (operator_held s) (passkeys s) (webauthn_pending s).
Definition with_operator (s : Ctx) (o : option Operator) : Ctx :=
  mkCtx (sessions s) (accounts s) (addresses s) o (passkeys s) (webauthn_pending s).
Definition with_passkeys (s : Ctx) (m : PasskeyMap) : Ctx :=
  mkCtx (sessions s) (accounts s) (addresses s) (operator_held s) (Ok m) (webauthn_pending s).
Definition with_pending (s : Ctx) (m : PendingCeremonies) : Ctx :=
  mkCtx (sessions s) (accounts s) (addresses s) (operator_held s) (passkeys s) m.

Definition table_of (s : Ctx) (t : table) : gmap str Window :=
  match t with Accounts => accounts s | Addresses => addresses s end.
Definition with_table (s : Ctx) (t : table) (m : gmap str Window) : Ctx :=
  match t with
  | Accounts => mkCtx (sessions s) m (addresses s) (operator_held s) (passkeys s) (webauthn_pending s)
  | Addresses => mkCtx (sessions s) (accounts s) m (operator_held s) (passkeys s) (webauthn_pending s)
  end.
Definition throttle_of (u : Setup) (t : table) : LoginThrottle :=
  match t with Accounts => account_throttle u | Addresses => address_throttle u end.

(** [Ctx::operator]: the record held, or the one found and held from now on. *)
Definition operator (file : option Operator) (s : Ctx) : option Operator * Ctx :=
  match operator_held s with
  | Some o => (Some o, s)
  | None => match file with
            | Some o => (Some o, with_operator s (Some o))
            | None => (None, s)
            end
  end.

Definition store_map (s : Ctx) : PasskeyMap := match passkeys s with Ok m => m | Err _ => ∅ end.

(** The passkey store's operations are only reached when it opened. *)
Definition with_store (s : Ctx) (m : PasskeyMap) : Ctx :=
  match passkeys s with Ok _ => with_passkeys s m | Err _ => s end.

Definition perform `{Primitives} (u : Setup) (e : env) (o : op) (s : Ctx) : resp o * Ctx :=
  match o return resp o * Ctx with
  | OTouch id => let '(r, m) := touch (limits u) (sessions s) id (now e) in (r, with_sessions s m)
  | OCreate user role method =>
      let '(id, m) := create (limits u) (sessions s) (sid_bytes e) user role method (now e) in
      (id, with_sessions s m)
  | ORevoke id => (tt, with_sessions s (Sessions.revoke (sessions s) id))
  | OOperator => operator (operator_file e) s
  | OVerify op user password => (password_matches u op user password, s)
  | OOidc _ => (oidc_answer e, s)
  | ONow => (now e, s)
  | OCheck t key at_ => (Throttle.check (throttle_of u t) (table_of s t) key at_, s)
  | OFailure t key at_ =>
      (tt, with_table s t (record_failure (map_order u) (throttle_of u t) (table_of s t) key at_))
  | OSuccess t key => (tt, with_table s t (record_success (table_of s t) key))
  | OStore => (let? _ := passkeys s in Ok tt, s)
  | OForUser user => (for_user (store_map s) user, s)
  | OAdd user r => let '(x, m) := store_add (persisted e) (store_map s) user r in (x, with_store s m)
  | ORemove user cid allow_last =>
      let '(x, m) := store_remove (persisted e) (store_map s) user cid allow_last in
      (x, with_store s m)
  | OUpdate user cid n =>
      let '(x, m) := update_sign_count (persisted e) (store_map s) user cid n in
      (x, with_store s m)
  | OMint user p =>
      let '(x, m) := mint (entropy e) (now e) (webauthn_pending s) user p in (x, with_pending s m)
  | OTake user c =>
      let '(x, m) := Webauthn.take (now e) (webauthn_pending s) user c in (x, with_pending s m)
  | OUtcNow => (utc_now e, s)
  | ODispatch _ _ _ _ => (dispatch_answer e, s)
  end.

(** A restart drops the sessions, the throttle and the challenges; the passkeys
    are what their file holds. *)
Definition restarted (s s' : Ctx) : Prop :=
  sessions s' = ∅ /\ accounts s' = ∅ /\ addresses s' = ∅ /\ webauthn_pending s' = ∅.

Definition console_step `{Primitives} `{Envelope} `{Wire} (cfg : Config) (u : Setup) :=
  sys_step event_of (handle cfg) (perform u) now restarted.

Definition boot (s : Ctx) (t : Z) : sys resp Response Ctx := initial s t.

(** ** What a handler may do

    [audit cfg tr o] says that a handler that has seen [tr] may perform [o]. *)
Section Audit.
Context {PR : Primitives} {EN : Envelope} {WI : Wire}.
Context (cfg : Config).

(** The caller is signed in, as [user] with [role]. *)
Definition signed_in (tr : list event) (user : str) (role : Role) : Prop :=
  exists id t m, EvTouch id t (Some (mkInfo user role m)) ∈ tr.

(** A passkey assertion of [user], from the enrolled key [cid], over a challenge
    minted for [command] with [args]. *)
Definition asserted (tr : list event) (user command : str) (args : value) (cid : str) : Prop :=
  exists c t keys record cdj ad sig v,
    EvTake user c t (Ok (Action command (args_digest args))) ∈ tr
    /\ EvForUser user keys ∈ tr /\ record ∈ keys /\ credential_id record = cid
    /\ challenge_of cdj = Some c
    /\ verify_assertion (webauthn_rp cfg) c record cdj ad sig = Ok v.

(** The operator password was given and verified. *)
Definition password_given (tr : list event) : Prop :=
  exists o pw, EvOperator (Some o) ∈ tr /\ EvVerify o (Sessions.username o) pw true ∈ tr.

Definition audit (tr : list event) (o : op) : Prop :=
  match o with
  | ODispatch actor sig name args =>
      (exists role, signed_in tr actor role /\ role_ltb role (required_role name) = false)
      /\ (requires_ceremony name = false -> sig = None)
      /\ (requires_ceremony name = true ->
          match sig with
          | Some g => alg g = webauthn_es256 /\ asserted tr actor name args (fpr g)
          | None => require_passkey cfg = false /\ EvStore (Ok tt) ∈ tr /\ EvForUser actor [] ∈ tr
          end)
  | OAdd user r =>
      (exists role, signed_in tr user role)
      /\ exists c t cdj att v,
           EvTake user c t (Ok Register) ∈ tr
           /\ verify_registration (webauthn_rp cfg) c cdj att = Ok v
           /\ credential_id r = vr_credential_id v /\ public_key_x963 r = vr_public_key v
           /\ sign_count r = vr_sign_count v
  | ORemove user cid allow_last =>
      (exists role, signed_in tr user role)
      /\ if allow_last then password_given tr
         else exists k, asserted tr user REMOVE_PASSKEY_CEREMONY (removal_args cid) k
  | OMint user Register =>
      (exists role, signed_in tr user role)
      /\ (EvForUser user [] ∈ tr /\ password_given tr
          \/ exists k, asserted tr user ENROLL_PASSKEY_CEREMONY (obj []) k)
  | OMint user (Action c d) =>
      (exists role, signed_in tr user role) /\ ceremonial c = true
  | OVerify op user pw =>
      (exists user role, signed_in tr user role)
      \/ exists key' t, EvCheck Accounts (login_key #"user" user) t (Ok tt) ∈ tr
                            /\ EvCheck Addresses key' t (Ok tt) ∈ tr
  | OCreate user role method =>
      match method with
      | Local => role = Admin /\ exists o pw name, user = Sessions.username o
                 /\ EvOperator (Some o) ∈ tr /\ EvVerify o name pw true ∈ tr
      | Oidc => exists token, EvOidc token (Some (user, role)) ∈ tr
      end
  | _ => True
  end.
End Audit.

(** ** The handlers meet the audit *)

Create HintDb trace.
Lemma elem_prefix (e : event) tr tr' : e ∈ tr -> tr `prefix_of` tr' -> e ∈ tr'.
Proof. intros H [k ->]. apply elem_of_app. by left. Qed.
Lemma elem_snoc (e : event) tr : e ∈ tr ++ [e].
Proof. apply elem_of_app. right. by left. Qed.
Lemma prefix_snoc (tr tr' : list event) e : tr `prefix_of` tr' -> tr `prefix_of` tr' ++ [e].
Proof. by apply prefix_app_r. Qed.
Lemma prefix_self (tr : list event) : tr `prefix_of` tr.
Proof. done. Qed.
Lemma elem_keep (e e' : event) tr : e ∈ tr -> e ∈ tr ++ [e'].
Proof. intros H. apply elem_of_app. by left. Qed.
#[export] Hint Resolve elem_snoc elem_keep prefix_snoc prefix_self : trace.

Ltac in_list := solve [repeat first [by left | right]].

Section Audited.
Context {PR : Primitives} {EN : Envelope} {WI : Wire}.
Context (cfg : Config).

Abbreviation wpa := (wp event_of (audit cfg)).

Lemma signed_in_mono tr tr' u r : signed_in tr u r -> tr `prefix_of` tr' -> signed_in tr' u r.
Proof. intros (?&?&?&?) ?. do 3 eexists. by eapply elem_prefix. Qed.
Lemma password_mono tr tr' : password_given tr -> tr `prefix_of` tr' -> password_given tr'.
Proof. intros (?&?&?&?) ?. do 2 eexists. split; by eapply elem_prefix. Qed.
Lemma asserted_mono tr tr' u c a k :
  asserted cfg tr u c a k -> tr `prefix_of` tr' -> asserted cfg tr' u c a k.
Proof.
  intros (ch&t&keys&r&cdj&ad&sg&v&?&?&Hrest) ?. exists ch, t, keys, r, cdj, ad, sg, v.
  split; [by eapply elem_prefix|]. split; [by eapply elem_prefix|done].
Qed.

Lemma wp_guard tr cookie (post : result SessionInfo Response -> list event -> Prop) :
  (forall s tr', tr `prefix_of` tr' -> signed_in tr' (si_user s) (si_role s) -> post (Ok s) tr') ->
  (forall e tr', tr `prefix_of` tr' -> post (Err e) tr') ->
  wpa tr (guard cookie) post.
Proof.
  intros Hok Herr. destruct cookie as [c|]; simpl.
  - split; [done|]. intros t [[u r m]|]; simpl.
    + apply Hok; [eauto with trace|]. exists c, t, m. simpl. auto with trace.
    + apply Herr; auto with trace.
  - apply Herr; auto with trace.
Qed.

Lemma wp_open_store tr (post : result unit Response -> list event -> Prop) :
  (forall r tr', tr `prefix_of` tr' -> (r = Ok tt -> EvStore (Ok tt) ∈ tr') -> post r tr') -> wpa tr open_store post.
Proof.
  intros Hp. simpl. split; [done|]. intros t x. apply Hp; [auto with trace|].
  destruct x as [[]|]; [|done]. auto with trace.
Qed.

Lemma wp_password tr pw (post : result unit Response -> list event -> Prop) :
  (exists u r, signed_in tr u r) ->
  (forall tr', tr `prefix_of` tr' -> password_given tr' -> post (Ok tt) tr') ->
  (forall e tr', tr `prefix_of` tr' -> post (Err e) tr') ->
  wpa tr (operator_password_ok pw) post.
Proof.
  intros (u&r&Hs) Hok Herr. simpl. split; [done|]. intros t [o|]; simpl; [|auto with trace].
  split; [left; exists u, r; eapply signed_in_mono; eauto with trace|].
  intros t' [|]; simpl; [|auto with trace].
  apply Hok; [auto with trace|]. exists o, pw. auto with trace.
Qed.

Lemma wp_assertion tr s bound args header (post : result PasskeyRecord Response -> list event -> Prop) :
  (forall k tr', tr `prefix_of` tr' ->
     asserted cfg tr' (si_user s) bound args (credential_id k) -> post (Ok k) tr') ->
  (forall e tr', tr `prefix_of` tr' -> post (Err e) tr') ->
  wpa tr (verify_assertion_header cfg s bound args header) post.
Proof.
  intros Hok Herr. unfold verify_assertion_header.
  destruct (header_to_str header) as [h|]; simpl; [|auto with trace].
  destruct (b64url_decode h) as [b|]; simpl; [|auto with trace].
  destruct (envelope_from_slice b) as [ev|]; simpl; [|auto with trace].
  destruct (b64url_decode (env_client_data_json ev)) as [cdj|]; simpl; [|auto with trace].
  destruct (b64url_decode (env_authenticator_data ev)) as [ad|]; simpl; [|auto with trace].
  destruct (b64url_decode (env_signature ev)) as [sg|]; simpl; [|auto with trace].
  destruct (challenge_of cdj) as [c|] eqn:Ec; simpl; [|auto with trace].
  split; [done|]. intros t [[|cmd d]|e]; simpl; [auto with trace| |auto with trace].
  destruct (negb (str_eqb cmd bound)) eqn:E1; simpl; [auto with trace|].
  destruct (negb (str_eqb d _)) eqn:E2; simpl; [auto with trace|].
  apply str_eqb_negb in E1 as ->. apply str_eqb_negb in E2 as ->.
  split; [done|]. intros t2 keys. destruct (List.find _ keys) as [k|] eqn:Ek; simpl; [|auto with trace].
  destruct (verify_assertion _ _ _ _ _ _) as [v|] eqn:Ev; simpl; [|auto with trace].
  split; [done|]. intros t3 x. apply find_some in Ek as [Hin _].
  apply Hok; [auto with trace|].
  exists c, t, keys, k, cdj, ad, sg, v. repeat split; auto with trace.
  by apply list_elem_of_In.
Qed.

#[local] Opaque guard open_store operator_password_ok verify_assertion_header.

Lemma audit_command cookie name header b :
  wpa [] (command cfg cookie name header b) (fun _ _ => True).
Proof.
  unfold command. apply wp_bind, wp_guard; [|done]. intros s tr _ Hs.
  destruct (role_ltb _ _) eqn:Er; [done|]. set (args := default _ b).
  assert (forall tr' sig, tr `prefix_of` tr' ->
            (requires_ceremony name = false -> sig = None) ->
            (requires_ceremony name = true ->
              match sig with
              | Some g => alg g = webauthn_es256 /\ asserted cfg tr' (si_user s) name args (fpr g)
              | None => require_passkey cfg = false /\ EvStore (Ok tt) ∈ tr' /\ EvForUser (si_user s) [] ∈ tr'
              end) ->
            wpa tr' (do r <- ODispatch (si_user s) sig name args; Ret r) (fun _ _ => True)) as Hd.
  { intros tr' sig Hp Hn Hy. simpl. split; [|done]. split; [|done].
    exists (si_role s). split; [by eapply signed_in_mono|done]. }
  destruct (requires_ceremony name) eqn:Ec; [|apply wp_bind; simpl; by apply Hd].
  apply wp_bind. unfold webauthn_gate. apply wp_bind, wp_open_store.
  intros [[]|e] tr1 H1 Hst; [|done]. specialize (Hst eq_refl). simpl. split; [done|]. intros t keys.
  destruct (bool_decide (keys = [])) eqn:Ek.
  - apply bool_decide_eq_true in Ek as ->. destruct (require_passkey cfg) eqn:Ep; simpl; [done|].
    apply Hd; [auto with trace|done|]. intros _. auto with trace.
  - destruct header as [h|]; [|done]. apply wp_bind, wp_assertion; [|done].
    intros k tr2 H2 Ha. simpl. apply Hd; [|done|done].
    etrans; [exact H1|]. etrans; [|exact H2]. by apply prefix_app_r.
Qed.

Lemma audit_register_start cookie header pw :
  wpa [] (webauthn_register_start cfg cookie header pw) (fun _ _ => True).
Proof.
  unfold webauthn_register_start. apply wp_bind, wp_guard; [|done]. intros s tr _ Hs.
  apply wp_bind, wp_open_store. intros [[]|e] tr1 H1 _; [|done]. simpl. split; [done|]. intros t keys.
  apply (signed_in_mono _ _ _ _ Hs) in H1 as Hs1.
  assert (forall tr', tr1 `prefix_of` tr' ->
            (EvForUser (si_user s) [] ∈ tr' /\ password_given tr'
             \/ exists k, asserted cfg tr' (si_user s) ENROLL_PASSKEY_CEREMONY (obj []) k) ->
            wpa tr' (do c <- OMint (si_user s) Register;
                     match c with
                     | Err e => Ret (ceremony_refused e)
                     | Ok challenge => Ret (respond 200 (VStr challenge))
                     end) (fun _ _ => True)) as Hm.
  { intros tr' Hp Hf. simpl. split; [|by intros ? []]. split; [|done].
    exists (si_role s). by eapply signed_in_mono. }
  apply wp_bind. destruct (negb _) eqn:Ek.
  - destruct header as [h|]; [|done]. apply wp_bind, wp_assertion; [|done].
    intros k tr2 H2 Ha. simpl.
    destruct (Hm tr2) as [Hau _]; [|by right; eauto|split; [exact Hau|by intros ? []]].
    etrans; [|exact H2]. by apply prefix_app_r.
  - destruct pw as [pw|]; [|done]. apply negb_false_iff, bool_decide_eq_true in Ek as ->.
    apply wp_password; [exists (si_user s), (si_role s); eapply signed_in_mono; eauto with trace| |done].
    intros tr2 H2 Hpw. destruct (Hm tr2) as [Hau _]; [| |split; [exact Hau|by intros ? []]].
    + etrans; [|exact H2]. by apply prefix_app_r.
    + left. split; [|done]. eapply elem_prefix; [|exact H2]. apply elem_snoc.
Qed.

Lemma audit_register_finish cookie b :
  wpa [] (webauthn_register_finish cfg cookie b) (fun _ _ => True).
Proof.
  unfold webauthn_register_finish. apply wp_bind, wp_guard; [|done]. intros s tr _ Hs.
  apply wp_bind, wp_open_store. intros [[]|e] tr1 H1 _; [|done].
  destruct (b64url_decode _) as [cdj|]; [|done]. destruct (b64url_decode _) as [att|]; [|done].
  destruct (challenge_of cdj) as [c|]; [|done]. simpl. split; [done|].
  intros t [[|? ?]|e]; [|done..]. destruct (verify_registration _ _ _ _) as [v|] eqn:Ev; [|done].
  destruct (negb _); [done|]. simpl. split; [done|]. intros t2 now. split; [|by intros ? []].
  split; [exists (si_role s); eapply signed_in_mono; eauto with trace|].
  exists c, t, cdj, att, v. repeat split; auto with trace.
Qed.

Lemma audit_remove cookie header b :
  wpa [] (webauthn_remove cfg cookie header b) (fun _ _ => True).
Proof.
  unfold webauthn_remove. apply wp_bind, wp_guard; [|done]. intros s tr _ Hs.
  apply wp_bind, wp_open_store. intros [[]|e] tr1 H1 _; [|done]. simpl. split; [done|]. intros t keys.
  destruct (negb _); [done|]. set (last := Z.of_nat (length keys) =? 1).
  apply (signed_in_mono _ _ _ _ Hs) in H1 as Hs1.
  apply wp_bind. destruct (rm_operator_password b) as [pw|].
  - apply wp_bind, wp_password;
      [exists (si_user s), (si_role s); eapply signed_in_mono; eauto with trace| |done].
    intros tr2 H2 Hpw. simpl. rewrite andb_false_r. simpl. split; [|by intros ? []].
    split; [|done]. exists (si_role s). eapply signed_in_mono; [exact Hs1|].
    etrans; [|exact H2]. by apply prefix_app_r.
  - simpl. destruct (last && true); [done|]. destruct header as [h|]; [|done].
    apply wp_bind, wp_bind, wp_assertion; [|done]. intros k tr2 H2 Ha. simpl.
    split; [|by intros ? []]. split; [|by exists (credential_id k)].
    exists (si_role s). eapply signed_in_mono; [exact Hs1|]. etrans; [|exact H2]. by apply prefix_app_r.
Qed.

Lemma audit_action_start cookie b :
  wpa [] (webauthn_action_start cfg cookie b) (fun _ _ => True).
Proof.
  unfold webauthn_action_start. apply wp_bind, wp_guard; [|done]. intros s tr _ Hs.
  apply wp_bind, wp_open_store. intros [[]|e] tr1 H1 _; [|done]. simpl. split; [done|]. intros t keys.
  destruct (bool_decide _); [done|]. destruct (negb _) eqn:E; [done|]. apply negb_false_iff in E.
  simpl. split; [|by intros ? []]. split; [|done]. exists (si_role s). eapply signed_in_mono; eauto with trace.
Qed.

Lemma held_None a b : held a b = None -> a = Ok tt /\ b = Ok tt.
Proof. destruct a as [[]|], b as [[]|]; done. Qed.

Lemma audit_login peer b : wpa [] (login cfg peer b) (fun _ _ => True).
Proof.
  unfold login. apply wp_bind.
  assert (wpa [] (login_password peer b)
    (fun r tr => match r with
                 | Ok (user, role, method) => audit cfg tr (OCreate user role method)
                 | Err _ => True
                 end)) as Hpw.
  { unfold login_password. simpl. split; [done|]. intros t [o|]; [|done]. simpl.
    split; [done|]. intros t1 now. split; [done|]. intros t2 ra. split; [done|]. intros t3 rb.
    destruct (held ra rb) eqn:E; [done|]. apply held_None in E as [-> ->]. simpl.
    split; [right; eexists _, now; split; in_list|].
    intros t4 [|]; simpl; [|repeat split; done]. split; [done|]. intros t5 _. split; [done|]. intros t6 _.
    split; [done|]. exists o, (default [] (cr_password b)), (default [] (cr_username b)).
    repeat split; in_list. }
  assert (forall p, wpa [] p
    (fun r tr => match r with
                 | Ok (user, role, method) => audit cfg tr (OCreate user role method)
                 | Err _ => True
                 end) ->
    wpa [] p (fun r tr => wpa tr (match r with
       | Ok x => let '(user, role, method) := x in
          do id <- OCreate user role method;
          Ret (mkResponse 200
         (obj [(#"signed_in", VBool true); (#"user", VStr user);
               (#"role", VStr (role_as_str role)); (#"method", VStr (method_as_str method))])
         None (Some (mkCookie COOKIE id true true #"/" (cookie_secure cfg))) None)
       | Err e => Ret e end) (fun _ _ => True))) as Hfin.
  { intros p Hp. eapply wp_mono; [exact Hp|]. intros [[[u r] m]|e] tr' Ha; [|done]. by split. }
  apply Hfin. destruct (id_token b) as [tok|]; [|exact Hpw]. case_bool_decide; [exact Hpw|].
  unfold login_oidc. destruct (negb _); [done|]. simpl. split; [done|].
  intros t [[u r]|]; simpl; [|done]. exists tok. in_list.
Qed.

Lemma handlers_audited r : wpa [] (handle cfg r) (fun _ _ => True).
Proof.
  destruct r; simpl; auto using audit_login, audit_register_start, audit_register_finish,
    audit_remove, audit_action_start, audit_command.
  - split; [done|]. intros t o. apply wp_bind. unfold touch_cookie. by destruct cookie.
  - unfold logout. by destruct cookie.
  - unfold webauthn_list. apply wp_bind, wp_guard; [|done]. intros s tr _ Hs.
    apply wp_bind, wp_open_store. by intros [[]|e] tr1 H1 _.
Qed.
End Audited.

(** ** The tables and the history of a run *)

Definition table_event_of (se : sys_event event request) : option table_event :=
  match se with
  | Did _ (EvMint user p t (Ok c)) => Some (Minted c user p t)
  | Did _ (EvTake user c t r) => Some (Taken c user t r)
  | _ => None
  end.

Definition session_event_of (se : sys_event event request) : option Sessions.event :=
  match se with
  | Did _ (EvCreate user role method t id) => Some (Created id user role method t)
  | Did _ (EvTouch id t r) => Some (Touched id t r)
  | Did _ (EvRevoke id t) => Some (Revoked id t)
  | _ => None
  end.

(** [c] was minted in [h] for [user] and [p] less than the lifetime before [t],
    and nobody has tried it since. *)
Definition minted_fresh (h : list (sys_event event request)) (user c : str) (p : Purpose) (t : Z)
  : Prop :=
  exists a j t0 b, h = a ++ Did j (EvMint user p t0 (Ok c)) :: b
    /\ t < t0 + CEREMONY_TTL
    /\ forall k user' t' r, Did k (EvTake user' c t' r) ∉ b.

(** [id] was handed out in [h] to [user] at [role], less than the absolute
    lifetime before [t], and it was not signed out since. *)
Definition signed_in_at (u : Setup) (h : list (sys_event event request)) (id user : str)
  (role : Role) (method : Method) (t : Z) : Prop :=
  exists a k c b, h = a ++ Did k (EvCreate user role method c id) :: b
    /\ t - c < absolute_lifetime (limits u)
    /\ forall j t', Did j (EvRevoke id t') ∉ b.

Lemma omap_split {A B} (f : A -> option B) l l1 x l2 :
  omap f l = l1 ++ x :: l2 ->
  exists a y b, l = a ++ y :: b /\ omap f a = l1 /\ f y = Some x /\ omap f b = l2.
Proof.
  revert l1; induction l as [|z l IH]; intros l1; simpl; [by destruct l1|].
  destruct (f z) as [v|] eqn:E.
  - destruct l1 as [|v' l1]; simpl; intros [= -> H].
    + by exists [], z, l.
    + destruct (IH _ H) as (a&y&b&->&<-&?&?). exists (z :: a), y, b. simpl. by rewrite E.
  - intros H. destruct (IH _ H) as (a&y&b&->&<-&?&?). exists (z :: a), y, b. simpl. by rewrite E.
Qed.

Lemma omap_snoc {A B} (f : A -> option B) l x :
  omap f (l ++ [x]) = omap f l ++ match f x with Some y => [y] | None => [] end.
Proof. rewrite omap_app. simpl. by destruct (f x). Qed.

Section Runs.
Context {PR : Primitives} {EN : Envelope} {WI : Wire}.
Context (cfg : Config) (u : Setup).

(** What the two tables owe to the history. *)
Definition tables_ok (h : list (sys_event event request)) (sy : sys resp Response Ctx) : Prop :=
  Webauthn.table_ok (omap table_event_of h) (webauthn_pending (sys_state sy))
  /\ Sessions.table_ok (omap session_event_of h) (sessions (sys_state sy), sys_clock sy).

Lemma perform_pending e o s x s' :
  perform u e o s = (x, s') ->
  match table_event_of (Did 0 (event_of o (now e) x)) with
  | Some te => table_step (webauthn_pending s) te (webauthn_pending s')
  | None => webauthn_pending s' = webauthn_pending s
  end.
Proof.
  destruct o; simpl; intros E; repeat case_match; simplify_eq/=; try done;
    unfold with_store, with_passkeys, with_table, operator, with_operator in *;
    repeat case_match; simplify_eq/=; try done.
  - by eapply ts_mint.
  - by eapply mint_Err.
  - by apply ts_take.
Qed.

Lemma perform_sessions e o s x s' t :
  perform u e o s = (x, s') -> t <= now e ->
  match session_event_of (Did 0 (event_of o (now e) x)) with
  | Some se => Sessions.step (limits u) (sessions s, t) se (sessions s', now e)
  | None => sessions s' = sessions s
  end.
Proof.
  destruct o; simpl; intros E Ht; repeat case_match; simplify_eq/=; try done;
    unfold with_store, with_passkeys, with_table, operator, with_operator in *;
    repeat case_match; simplify_eq/=; try done; by econstructor.
Qed.

Lemma did_events j k e :
  table_event_of (Did j e) = table_event_of (Did k e)
  /\ session_event_of (Did j e) = session_event_of (Did k e).
Proof. done. Qed.

Lemma later_clock h m t t' :
  Sessions.table_ok h (m, t) -> t <= t' -> Sessions.table_ok h (m, t').
Proof. intros Hok Ht id s Hs. destruct (Hok id s Hs) as [? ?]; simpl in *. split; [lia|done]. Qed.

Lemma tables_ok_step h sy se sy' :
  tables_ok h sy -> console_step cfg u sy se sy' -> tables_ok (h ++ [se]) sy'.
Proof.
  intros [Hw Hs] Hstep. unfold tables_ok. rewrite !omap_snoc.
  destruct Hstep as [s T n t r|s T n t i o k e x s' Hi Ht Hp|s T n t s' Hr]; simpl in Hw, Hs.
  - simpl. by rewrite !app_nil_r.
  - pose proof (perform_pending _ _ _ _ _ Hp) as Hpe.
    pose proof (perform_sessions _ _ _ _ _ _ Hp Ht) as Hse.
    destruct (did_events 0 i (event_of o (now e) x)) as [E1 E2]. rewrite E1 in Hpe. rewrite E2 in Hse.
    split; cbn [sys_state sys_clock].
    + destruct (table_event_of _) as [te|].
      * destruct Hpe; [by eapply table_ok_mint|by eapply table_ok_take].
      * by rewrite app_nil_r, Hpe.
    + destruct (session_event_of _) as [sev|].
      * by eapply Sessions.table_ok_step.
      * rewrite app_nil_r, Hse. by eapply later_clock.
  - destruct Hr as (Hs'&_&_&Hp'). simpl. rewrite !app_nil_r. split; simpl.
    + rewrite Hp'. apply table_ok_empty.
    + intros id s1. simpl. rewrite Hs'. by rewrite lookup_empty.
Qed.

(** A run from a freshly started process. *)
Definition started (s0 : Ctx) : Prop := sessions s0 = ∅ /\ webauthn_pending s0 = ∅.

(** What every operation of a run says of the run before it. *)
Definition answers_ok (h : list (sys_event event request)) : Prop :=
  forall h1 h2 i e, h = h1 ++ Did i e :: h2 ->
    match e with
    | EvTake user c t (Ok p) => minted_fresh h1 user c p t
    | EvTouch id t (Some info) =>
        signed_in_at u h1 id (si_user info) (si_role info) (si_method info) t
    | _ => True
    end.

Lemma take_answer h m user c t p m' :
  Webauthn.table_ok (omap table_event_of h) m -> Webauthn.take t m user c = (Ok p, m') ->
  minted_fresh h user c p t.
Proof.
  intros Hok Ht. destruct (take_minted _ _ _ _ _ _ _ Hok Ht) as (l1&l2&t0&Hl&Hlt&Hall).
  apply omap_split in Hl as (a&y&b&->&_&Hy&Hb).
  destruct y as [|j e|]; [done| |done]. destruct e as [| | | | | | | | | | | | | | |u0 p0 at0 [c0|]| | | ]; simplify_eq/=.
  exists a, j, t0, b. repeat split; [done|].
  intros k user' t' r Hin. rewrite List.Forall_forall in Hall.
  apply (Hall (Taken c user' t' r)); [|done].
  apply list_elem_of_In, list_elem_of_omap. by exists (Did k (EvTake user' c t' r)).
Qed.

Lemma touch_answer h m t t' id info m' :
  Sessions.table_ok (omap session_event_of h) (m, t) -> t <= t' ->
  touch (limits u) m id t' = (Some info, m') ->
  signed_in_at u h id (si_user info) (si_role info) (si_method info) t'.
Proof.
  intros Hok Ht E. apply touch_Some in E as (s&Hs&Hlive&->&_).
  apply Hok in Hs as [Htime (l1&l2&Hl&Hall)]. simpl in *.
  apply omap_split in Hl as (a&y&b&->&_&Hy&Hb).
  destruct y as [|j e|]; [done| |done]. destruct e; simplify_eq/=.
  exists a, j, (created s), b. split; [done|]. split.
  - unfold session_live, elapsed in Hlive. b2p. lia.
  - intros k t2 Hin. rewrite List.Forall_forall in Hall.
    apply (Hall (Revoked id t2)); [|done].
    apply list_elem_of_In, list_elem_of_omap. by exists (Did k (EvRevoke id t2)).
Qed.

Lemma answers_ok_step h sy se sy' :
  tables_ok h sy -> answers_ok h -> console_step cfg u sy se sy' -> answers_ok (h ++ [se]).
Proof.
  intros [Hw Hs] Ha Hstep h1 h2 i e [(->&Hse&->)|(h3&->&->)]%split_snoc; [|by eapply Ha].
  destruct Hstep as [s T n t r|s T n t j o k ev x s' Hi Ht Hp|s T n t s' Hr]; [done| |done].
  simpl in Hw, Hs. injection Hse as -> ->. destruct o; simpl in *; try done.
  - destruct x as [info|]; [|done]. destruct (touch _ _ _ _) as [r m] eqn:E. simplify_eq.
    by eapply touch_answer.
  - destruct x as [p|]; [|done]. destruct (Webauthn.take _ _ _ _) as [r m] eqn:E. simplify_eq.
    by eapply take_answer.
Qed.

Lemma answers_run s0 t0 h sy :
  started s0 -> run (console_step cfg u) (boot s0 t0) h sy -> answers_ok h.
Proof.
  intros [Hs0 Hp0] Hr.
  assert (tables_ok h sy /\ answers_ok h) as [_ ?]; [|done].
  eapply (history_invariant _ _ _ _ _ (fun h sy => tables_ok h sy /\ answers_ok h)); [exact Hr| |].
  - split; [split; simpl|]; [rewrite Hp0; apply table_ok_empty| |by intros [] ? ? ?].
    intros id s. simpl. rewrite Hs0. by rewrite lookup_empty.
  - intros h' s se s' [? ?] Hstep. split; [by eapply tables_ok_step|by eapply answers_ok_step].
Qed.

Lemma audit_run s0 t0 h sy h1 h2 i e :
  run (console_step cfg u) (boot s0 t0) h sy -> h = h1 ++ Did i e :: h2 ->
  audit cfg (trace_of i h1) (op_of e).
Proof.
  intros Hr Heq. eapply audited_run in Hr as (o&t&x&->&Ho); [|apply handlers_audited|exact Heq].
  by rewrite op_of_event.
Qed.
End Runs.

Lemma trace_elem (e : event) i (h : list (sys_event event request)) :
  e ∈ trace_of i h -> exists a b, h = a ++ Did i e :: b.
Proof. intros He%elem_of_trace_of. apply list_elem_of_split in He as (a&b&->). eauto. Qed.

Lemma minted_fresh_app h h' user c p t :
  minted_fresh h user c p t -> exists a j t0 b, h ++ h' = a ++ Did j (EvMint user p t0 (Ok c)) :: b
    /\ t < t0 + CEREMONY_TTL /\ exists b', b = b' ++ h'.
Proof.
  intros (a&j&t0&b&->&Ht&_). exists a, j, t0, (b ++ h'). rewrite <- app_assoc. simpl. eauto.
Qed.

Lemma later_elem {X} (h1 h2 a b : list X) x y :
  h1 ++ x :: h2 = a ++ y :: b -> x ∉ b -> x = y \/ y ∈ h2.
Proof.
  revert h1; induction a as [|z a IH]; intros [|w h1]; simpl.
  - intros [= -> _] _. by left.
  - intros [= _ <-] []. apply elem_of_app. right. left.
  - intros [= _ ->] _. right. apply elem_of_app. right. left.
  - intros [= _ E]. by apply (IH h1).
Qed.

(** ** Properties *)

Section Properties.
Context {PR : Primitives} {EN : Envelope} {WI : Wire}.

(** What the passkey store holds in a state of the console. *)
Definition store_at (sy : sys resp Response Ctx) : PasskeyMap := store_map (sys_state sy).

(** [keys] are what the store held for [user] when handler [i] asked for them. *)
Definition held_keys cfg u s0 t0 h i user keys : Prop :=
  exists a b sy, h = a ++ Did i (EvForUser user keys) :: b
    /\ run (console_step cfg u) (boot s0 t0) a sy /\ keys = for_user (store_at sy) user.

(** The state an event of a run was performed in, and the one it led to. *)
Lemma run_at cfg u s0 t0 h sy h1 h2 e :
  run (console_step cfg u) (boot s0 t0) h sy -> h = h1 ++ e :: h2 ->
  exists sy1 sy2, run (console_step cfg u) (boot s0 t0) h1 sy1 /\ console_step cfg u sy1 e sy2.
Proof.
  intros Hr ->. apply run_app_inv in Hr as (sy1&Hr1&Hr2). inversion Hr2 as [|? ? sy2 ? ? Hstep Hrest]; subst.
  by exists sy1, sy2.
Qed.

Lemma for_user_answer cfg u s0 t0 h sy h1 h2 i user keys :
  run (console_step cfg u) (boot s0 t0) h sy -> h = h1 ++ h2 -> EvForUser user keys ∈ trace_of i h1 ->
  held_keys cfg u s0 t0 h1 i user keys.
Proof.
  intros Hr -> (a&b&->)%trace_elem. rewrite <- app_assoc in Hr. simpl in Hr.
  destruct (run_at _ _ _ _ _ _ _ _ _ Hr eq_refl) as (sy1&sy2&Hr1&Hs). exists a, b, sy1. split; [done|]. split; [done|].
  inversion Hs as [|s T n t j o k e x s' Hi Ht Hp Heq|]. destruct o; simplify_eq/=. done.
Qed.

(** C1: no privileged command runs without a person's passkey.  In every
    interleaving of every sequence of requests from a freshly started console,
    when a handler dispatches a command whose row carries the ceremony, then
    either it carries the signature of a passkey of the signed-in user, one that
    the store held for that user when this handler read it, whose assertion
    verified over a challenge that was minted for exactly this command with
    exactly these arguments less than two minutes before it was redeemed; or the
    box is configured for the software fallback, and the store was open and held
    no passkey for the user when this handler read it. *)
Theorem privileged_command_needs_ceremony cfg u s0 t0 h sy h1 h2 i actor sig name args :
  started s0 -> run (console_step cfg u) (boot s0 t0) h sy ->
  h = h1 ++ Did i (EvDispatch actor sig name args) :: h2 ->
  requires_ceremony name = true ->
  match sig with
  | Some g =>
      alg g = webauthn_es256
      /\ exists c t keys record cdj ad sg v,
          Did i (EvTake actor c t (Ok (Action name (args_digest args)))) ∈ h1
          /\ held_keys cfg u s0 t0 h1 i actor keys /\ record ∈ keys
          /\ (exists a j t0 b, h1 = a ++ Did j (EvMint actor (Action name (args_digest args)) t0 (Ok c)) :: b
               /\ t < t0 + CEREMONY_TTL)
          /\ credential_id record = fpr g /\ challenge_of cdj = Some c
          /\ verify_assertion (webauthn_rp cfg) c record cdj ad sg = Ok v
  | None => require_passkey cfg = false /\ Did i (EvStore (Ok tt)) ∈ h1 /\ held_keys cfg u s0 t0 h1 i actor []
  end.
Proof.
  intros Hs Hr Heq Hc. pose proof (audit_run _ _ _ _ _ _ _ _ _ _ Hr Heq) as (_&_&Ha). 
  specialize (Ha Hc). destruct sig as [g|].
  - destruct Ha as (Halg&c&t&keys&r&cdj&ad&sg&v&Ht&Hfu&Hin&Hcr&Hch&Hv). split; [done|].
    exists c, t, keys, r, cdj, ad, sg, v. split; [by apply elem_of_trace_of|].
    split; [by eapply for_user_answer|]. split; [done|]. split; [|done].
    apply trace_elem in Ht as (a&b&Hab).
    pose proof (answers_run _ _ _ _ _ _ Hs Hr) as Hans.
    assert (h = a ++ Did i (EvTake actor c t (Ok (Action name (args_digest args))))
              :: (b ++ Did i (EvDispatch actor (Some g) name args) :: h2)) as Hh
      by (rewrite Heq, Hab, <- app_assoc; done).
    specialize (Hans _ _ _ _ Hh). simpl in Hans. rewrite Hab.
    destruct (minted_fresh_app _ (Did i (EvTake actor c t (Ok (Action name (args_digest args)))) :: b)
                _ _ _ _ Hans) as (a'&j&t1&b'&?&?&_). eauto 8.
  - destruct Ha as (?&?%elem_of_trace_of&?). split; [done|]. split; [done|]. by eapply for_user_answer.
Qed.

(** C2: every command runs for a signed-in person at a sufficient role.  In
    every run, a dispatched command is attributed to the user of a sign-in of
    the history at a role no lower than the command's row asks, younger than
    the absolute lifetime, and not signed out when the session was read; a
    local sign-in is the operator's, whose password was verified. *)
Theorem command_needs_sign_in cfg u s0 t0 h sy h1 h2 i actor sig name args :
  started s0 -> run (console_step cfg u) (boot s0 t0) h sy ->
  h = h1 ++ Did i (EvDispatch actor sig name args) :: h2 ->
  exists a b id t role method,
    h1 = a ++ Did i (EvTouch id t (Some (mkInfo actor role method))) :: b
    /\ role_ltb role (required_role name) = false
    /\ signed_in_at u a id actor role method t
    /\ exists a1 k c b1, a = a1 ++ Did k (EvCreate actor role method c id) :: b1
         /\ match method with
            | Local => role = Admin /\ exists o pw n, actor = Sessions.username o
                       /\ Did k (EvVerify o n pw true) ∈ a1
            | Oidc => exists token, Did k (EvOidc token (Some (actor, role))) ∈ a1
            end.
Proof.
  intros Hs Hr Heq. pose proof (audit_run _ _ _ _ _ _ _ _ _ _ Hr Heq) as ((role&(id&t&m&Ht)&Hrole)&_).
  apply trace_elem in Ht as (a&b&Hab). exists a, b, id, t, role, m. split; [done|]. split; [done|].
  pose proof (answers_run _ _ _ _ _ _ Hs Hr) as Hans.
  assert (h = a ++ Did i (EvTouch id t (Some (mkInfo actor role m)))
            :: (b ++ Did i (EvDispatch actor sig name args) :: h2)) as Hh
    by (rewrite Heq, Hab, <- app_assoc; done).
  specialize (Hans _ _ _ _ Hh). simpl in Hans. split; [done|].
  destruct Hans as (a1&k&c&b1&->&_&_). exists a1, k, c, b1. split; [done|].
  rewrite <- app_assoc in Hh. simpl in Hh.
  pose proof (audit_run _ _ _ _ _ _ _ _ _ _ Hr Hh) as Hc. simpl in Hc. destruct m.
  - destruct Hc as (->&o&pw&n&->&_&?%elem_of_trace_of). eauto 6.
  - destruct Hc as (tok&?%elem_of_trace_of). eauto.
Qed.

(** C19: an assertion is not replayed.  Between two accepted redemptions of the
    same challenge, by any handlers of any run, the challenge was minted
    again: when the random challenges are distinct, one assertion confirms at
    most one action. *)
Theorem assertion_not_replayed cfg u s0 t0 h sy h1 h2 h3 i j c user user' t t' p p' :
  started s0 -> run (console_step cfg u) (boot s0 t0) h sy ->
  h = h1 ++ Did i (EvTake user c t (Ok p)) :: h2 ++ Did j (EvTake user' c t' (Ok p')) :: h3 ->
  exists k t1, Did k (EvMint user' p' t1 (Ok c)) ∈ h2.
Proof.
  intros Hs Hr Heq. pose proof (answers_run _ _ _ _ _ _ Hs Hr) as Hans.
  assert (h = (h1 ++ Did i (EvTake user c t (Ok p)) :: h2) ++ Did j (EvTake user' c t' (Ok p')) :: h3)
    as Hh by (rewrite Heq, <- app_assoc; done).
  specialize (Hans _ _ _ _ Hh). simpl in Hans. destruct Hans as (a&k&t1&b&Hab&_&Hb).
  exists k, t1. by destruct (later_elem _ _ _ _ _ _ Hab (Hb i user t (Ok p))).
Qed.

(** What one removal does to the store, whoever asked for it. *)
Lemma removal_step cfg u sy1 i user cid allow_last res sy2 :
  console_step cfg u sy1 (Did i (EvRemove user cid allow_last res)) sy2 ->
  (forall r, r ∈ for_user (store_at sy1) user -> credential_id r <> cid -> r ∈ for_user (store_at sy2) user)
  /\ (forall other, other <> user -> for_user (store_at sy2) other = for_user (store_at sy1) other)
  /\ (allow_last = false -> for_user (store_at sy1) user <> [] -> for_user (store_at sy2) user <> []).
Proof.
  intros Hs. inversion Hs as [|s T n t j o k e x s' Hi Ht Hp Heq|]; subst.
  destruct o; simplify_eq/=. destruct (store_remove _ _ _ _ _) as [x' m] eqn:E. simplify_eq. unfold store_at. cbn [sys_state].
  assert (store_map (with_store s m) = m \/ store_map (with_store s m) = store_map s) as [->| ->]
    by (unfold with_store, store_map; destruct (passkeys s) eqn:Ep; simpl; [by left|right; by rewrite Ep]); [|done].
  pose proof (for_user_remove (persisted e) (store_map s) user cid allow_last) as Hrm. rewrite E in Hrm. simpl in Hrm.
  split; [|split].
  - intros r Hr Hne. apply (f_equal snd) in E. simpl in E. rewrite <- E. by apply kept_by_removal.
  - intros other Ho. destruct (Hrm other) as (l&->&[->|(->&_)]); done.
  - intros -> Hn. destruct (Hrm user) as (l&->&[->|(_&at_&Hlt&->&[[=]|Hlen])]); [done|].
    intros Hd. apply (f_equal length) in Hd. rewrite length_delete in Hd by by apply lookup_lt_is_Some. simpl in Hd. lia.
Qed.

(** A factor the session does not carry: the operator password, with nothing
    enrolled, or an assertion for the enrolment ceremony. *)
Definition enrolment_factor (cfg : Config) (tr : list event) (user : str) : Prop :=
  EvForUser user [] ∈ tr /\ password_given tr
  \/ exists k, asserted cfg tr user ENROLL_PASSKEY_CEREMONY (obj []) k.

(** C3: a session alone changes no passkey.  In every run, a passkey is added
    for a user only with a verified registration over a challenge that was
    minted for that user by a handler that had checked a factor the session
    does not carry.  One is removed only by a handler that had verified the
    operator password, or an assertion bound to that very credential; the
    removal takes away at most the key of that id, and no other user's; and
    without the password a user who had a key still has one after it, whatever
    other handlers did in between. *)
Theorem passkey_change_needs_factor cfg u s0 t0 h sy h1 h2 i e :
  started s0 -> run (console_step cfg u) (boot s0 t0) h sy -> h = h1 ++ Did i e :: h2 ->
  match e with
  | EvAdd user r _ =>
      exists c t cdj att v a j t1 b,
        Did i (EvTake user c t (Ok Register)) ∈ h1
        /\ verify_registration (webauthn_rp cfg) c cdj att = Ok v
        /\ credential_id r = vr_credential_id v /\ public_key_x963 r = vr_public_key v
        /\ h1 = a ++ Did j (EvMint user Register t1 (Ok c)) :: b /\ t < t1 + CEREMONY_TTL
        /\ enrolment_factor cfg (trace_of j a) user
  | EvRemove user cid allow_last _ =>
      (if allow_last then password_given (trace_of i h1)
       else exists k, asserted cfg (trace_of i h1) user REMOVE_PASSKEY_CEREMONY (removal_args cid) k)
      /\ exists sy1 sy2, run (console_step cfg u) (boot s0 t0) h1 sy1 /\ console_step cfg u sy1 (Did i e) sy2
           /\ (forall r, r ∈ for_user (store_at sy1) user -> credential_id r <> cid -> r ∈ for_user (store_at sy2) user)
           /\ (forall other, other <> user -> for_user (store_at sy2) other = for_user (store_at sy1) other)
           /\ (allow_last = false -> for_user (store_at sy1) user <> [] -> for_user (store_at sy2) user <> [])
  | _ => True
  end.
Proof.
  intros Hs Hr Heq. pose proof (audit_run _ _ _ _ _ _ _ _ _ _ Hr Heq) as Ha.
  destruct e as [| | | | | | | | | | | |user r res|user cid al res| | | | | ]; try done; simpl in Ha.
  2:{ destruct Ha as [_ Ha]. split; [done|]. destruct (run_at _ _ _ _ _ _ _ _ _ Hr Heq) as (sy1&sy2&Hr1&Hstep).
      exists sy1, sy2. split; [done|]. split; [done|]. by eapply removal_step. }
  destruct Ha as (_&c&t&cdj&att&v&Ht&Hv&Hc&Hk&_).
  pose proof (answers_run _ _ _ _ _ _ Hs Hr) as Hans. apply trace_elem in Ht as (a&b&Hab).
  assert (h = a ++ Did i (EvTake user c t (Ok Register)) :: (b ++ Did i (EvAdd user r res) :: h2))
    as Hh by (rewrite Heq, Hab, <- app_assoc; done).
  specialize (Hans _ _ _ _ Hh). simpl in Hans. destruct Hans as (a'&j&t1&b'&->&Hlt&_).
  rewrite <- app_assoc in Hab, Hh. simpl in Hab, Hh.
  pose proof (audit_run _ _ _ _ _ _ _ _ _ _ Hr Hh) as [_ Hf].
  exists c, t, cdj, att, v, a', j, t1. eexists. split; [|eauto 9].
  subst h1. apply elem_of_app. right. right. apply elem_of_app. right. left.
Qed.

(** A throttled sign-in costs no password hash.  Every password check of
    every run was made for a person already signed in, or by a sign-in whose
    account and address had both just passed the throttle. *)
Theorem password_check_is_throttled cfg u s0 t0 h sy h1 h2 i o user pw r :
  run (console_step cfg u) (boot s0 t0) h sy ->
  h = h1 ++ Did i (EvVerify o user pw r) :: h2 ->
  (exists name role, signed_in (trace_of i h1) name role)
  \/ exists key t, Did i (EvCheck Accounts (login_key #"user" user) t (Ok tt)) ∈ h1
                   /\ Did i (EvCheck Addresses key t (Ok tt)) ∈ h1.
Proof.
  intros Hr Heq. pose proof (audit_run _ _ _ _ _ _ _ _ _ _ Hr Heq) as [Ha|(k&t&H1&H2)]; [by left|].
  right. exists k, t. split; by apply elem_of_trace_of.
Qed.
End Properties.

(** ** Witnesses: a sign-in, a ceremony, a privileged command, and a removal *)

#[local] Existing Instance demo_primitives.
#[local] Existing Instance demo_envelope.

Definition demo_wire : Wire := {|
  header_to_str := Some;
  envelope_from_slice := fun _ => Some (mkEnvelope #"k1" (hex_bytes (2 :: #"1122"))
    (hex_bytes (demo_auth_data 4)) (hex_bytes (9 :: demo_auth_data 4 ++ 2 :: #"1122")));
  json_from_slice := fun bs => match bs with
                               | _ :: c => Some (obj [(#"challenge", VStr c)])
                               | [] => None
                               end;
  json_to_string := fun _ => #"{}";
|}.
#[local] Existing Instance demo_wire.

Definition demo_cfg : Config := mkConfig true false demo_rp false.
Definition demo_setup : Setup := default_setup map_to_list (fun _ _ pw => str_eqb pw #"secret").
Definition demo_ctx : Ctx := mkCtx ∅ ∅ ∅ None (Ok demo_store) ∅.
Definition demo_env (t : Z) : env :=
  mkEnv t [1] (Ok [17; 34]) (Ok tt) (Some (mkOperator #"alice" #"phc")) None #"" (respond 200 VNull).
Definition performs (i n : nat) (t : Z) : list (action request env) := repeat (Perform i (demo_env t)) n.

Definition demo_schedule : list (action request env) :=
  [Arrive (RLogin None (mkCredentials (Some #"alice") (Some #"secret") None))] ++ performs 0 8 10
  ++ [Arrive (RActionStart (Some #"01") (mkActionStart #"money_kill_run" (obj [])))] ++ performs 1 2 11
  ++ [Arrive (RCommand (Some #"01") #"money_kill_run" (Some #"00") None)] ++ performs 1 2 12
  ++ performs 2 7 13
  ++ [Arrive (RRemove (Some #"01") None (mkRemove #"k1" (Some #"secret")))] ++ performs 3 6 14.

Definition demo_start : sys resp Response Ctx := boot demo_ctx 0.
Definition demo_history : list (sys_event event request) :=
  history event_of (handle demo_cfg) (perform demo_setup) now demo_start demo_schedule.
Definition demo_end : sys resp Response Ctx :=
  final event_of (handle demo_cfg) (perform demo_setup) now demo_start demo_schedule.

Lemma demo_runs : run (console_step demo_cfg demo_setup) demo_start demo_history demo_end.
Proof.
  unfold console_step, demo_history, demo_end.
  simple refine (history_run event_of (handle demo_cfg) (perform demo_setup) now restarted
                   demo_start demo_schedule _).
  vm_compute. reflexivity.
Defined.

Lemma demo_started : started demo_ctx.
Proof. done. Defined.

Definition demo_signature : ConsoleSignature := mkSignature webauthn_es256 #"k1".

Lemma privileged_command_needs_ceremony_witness :
  alg demo_signature = webauthn_es256
  /\ exists c t, Did 2 (EvTake #"alice" c t (Ok (Action #"money_kill_run" (args_digest (obj [])))))
                 ∈ list.take 21 demo_history.
Proof.
  destruct (privileged_command_needs_ceremony demo_cfg demo_setup demo_ctx 0 demo_history demo_end
              (list.take 21 demo_history) (list.drop 22 demo_history) 2 #"alice" (Some demo_signature)
              #"money_kill_run" (obj []) demo_started demo_runs) as (Ha&c&t&_&_&_&_&_&_&Ht&_).
  - by vm_compute.
  - by vm_compute.
  - split; [exact Ha|]. exists c, t. exact Ht.
Defined.

Lemma command_needs_sign_in_witness :
  exists a b id t role method,
    list.take 21 demo_history = a ++ Did 2 (EvTouch id t (Some (mkInfo #"alice" role method))) :: b
    /\ role_ltb role (required_role #"money_kill_run") = false.
Proof.
  destruct (command_needs_sign_in demo_cfg demo_setup demo_ctx 0 demo_history demo_end
              (list.take 21 demo_history) (list.drop 22 demo_history) 2 #"alice" (Some demo_signature)
              #"money_kill_run" (obj []) demo_started demo_runs) as (a&b&id&t&r&m&H1&H2&_).
  - by vm_compute.
  - exists a, b, id, t, r, m. exact (conj H1 H2).
Defined.

Lemma passkey_change_needs_factor_witness :
  exists i, nth 28 demo_history Restarted = Did i (EvRemove #"alice" #"k1" true (Ok 0))
  /\ password_given (trace_of 3 (list.take 28 demo_history)).
Proof.
  exists 3%nat. split; [by vm_compute|].
  apply (passkey_change_needs_factor demo_cfg demo_setup demo_ctx 0 demo_history demo_end
              (list.take 28 demo_history) (list.drop 29 demo_history) 3
              (EvRemove #"alice" #"k1" true (Ok 0)) demo_started demo_runs).
  by vm_compute.
Defined.

Lemma password_check_is_throttled_witness :
  (exists name role, signed_in (trace_of 0 (list.take 5 demo_history)) name role)
  \/ exists key t, Did 0 (EvCheck Accounts (login_key #"user" #"alice") t (Ok tt))
                     ∈ list.take 5 demo_history
                   /\ Did 0 (EvCheck Addresses key t (Ok tt)) ∈ list.take 5 demo_history.
Proof.
  apply (password_check_is_throttled demo_cfg demo_setup demo_ctx 0 demo_history demo_end
              (list.take 5 demo_history) (list.drop 6 demo_history) 0
              (mkOperator #"alice" #"phc") #"alice" #"secret" true demo_runs).
  by vm_compute.
Defined.

(** Two ceremonies over the same random bytes: the second redemption needs the
    second minting. *)
Definition replay_schedule : list (action request env) :=
  [Arrive (RLogin None (mkCredentials (Some #"alice") (Some #"secret") None))] ++ performs 0 8 10
  ++ [Arrive (RActionStart (Some #"01") (mkActionStart #"money_kill_run" (obj [])))] ++ performs 1 4 11
  ++ [Arrive (RCommand (Some #"01") #"money_kill_run" (Some #"00") None)] ++ performs 2 7 12
  ++ [Arrive (RActionStart (Some #"01") (mkActionStart #"money_kill_run" (obj [])))] ++ performs 3 4 13
  ++ [Arrive (RCommand (Some #"01") #"money_kill_run" (Some #"00") None)] ++ performs 4 5 14.
Definition replay_history : list (sys_event event request) :=
  history event_of (handle demo_cfg) (perform demo_setup) now demo_start replay_schedule.
Definition replay_end : sys resp Response Ctx :=
  final event_of (handle demo_cfg) (perform demo_setup) now demo_start replay_schedule.

Lemma replay_runs : run (console_step demo_cfg demo_setup) demo_start replay_history replay_end.
Proof.
  unfold console_step, replay_history, replay_end.
  simple refine (history_run event_of (handle demo_cfg) (perform demo_setup) now restarted
                   demo_start replay_schedule _).
  vm_compute. reflexivity.
Defined.

Definition demo_purpose : Purpose := Action #"money_kill_run" (args_digest (obj [])).

Lemma assertion_not_replayed_witness :
  exists k t1, Did k (EvMint #"alice" demo_purpose t1 (Ok #"1122"))
               ∈ list.take 12 (list.drop 19 replay_history).
Proof.
  apply (assertion_not_replayed demo_cfg demo_setup demo_ctx 0 replay_history replay_end
           (list.take 18 replay_history) (list.take 12 (list.drop 19 replay_history))
           (list.drop 32 replay_history) 2 4 #"1122" #"alice" #"alice" 12 14 demo_purpose demo_purpose
           demo_started replay_runs).
  by vm_compute.
Defined.
