(* ===== verification/Lifecycle.v ===== *)
(** * Lifecycle: blocking an agent, a unit or a user
    ([crates/web/src/lifecycle.rs], and its callers in [dispatch.rs])

    A block writes one deny-all policy per agent into the policy service
    (wardryx); the console's own store is what every read is projected
    through.  The service is another program: it is the class
    [PolicyService], with the documented behaviour of its three calls in
    [PolicyServiceLaws]. *)
From S2P Require Import Prelude Text Json.

(** ** The policy service *)

Record Policy : Type := mkPolicy
  { name : str; target : str; deny_tool : list str; allow_domains : list str;
    require_human_above_usd : f64; deny_above_usd : f64; max_steps : Z;
    deny_if_unattested : bool }.

Inductive WardryxError : Type :=
| Api (status : Z) (text : str)
| Other (text : str).
Definition wardryx_error_text (e : WardryxError) : str :=
  match e with Api _ t => t | Other t => t end.

Record PolicyRecord : Type := mkRecord { rid : str; policy : Policy }.

Class PolicyService := {
  svc : Type;
  put_policy : svc -> str -> Policy -> result unit WardryxError * svc;
  list_policies : svc -> result (list PolicyRecord) WardryxError;
  delete_policy : svc -> str -> result unit WardryxError * svc;
}.

(** [stored] is the service's table: a successful call has its effect, a list
    is complete, and a 404 is answered for an absent id only. *)
Class PolicyServiceLaws `{PolicyService} := {
  stored : svc -> gmap str Policy;
  put_ok s id p s' : put_policy s id p = (Ok tt, s') -> stored s' = <[id := p]> (stored s);
  list_ok s l : list_policies s = Ok l ->
    forall id p, mkRecord id p ∈ l <-> stored s !! id = Some p;
  delete_ok s id s' : delete_policy s id = (Ok tt, s') -> stored s' = delete id (stored s);
  delete_404 s id t s' : delete_policy s id = (Err (Api 404 t), s') ->
    stored s' = stored s /\ stored s !! id = None;
}.

(** ** The console's store *)

Record LifecycleStore : Type := mkStore
  { frozen_agents : gset str; stopped_units : gset str; stopped_users : gset str;
    agent_owners : gmap str str }.
Definition empty_store : LifecycleStore := mkStore ∅ ∅ ∅ ∅.

(** The team segment of [agent://org/team/name]. *)
Definition team_of (agent_id : str) : option str :=
  let! rest := strip_prefix #"agent://" agent_id in
  let! (_, rest) := split_once [47] rest in
  let! (team, _) := split_once [47] rest in
  Some team.

Definition state_for (st : LifecycleStore) (agent_id : str) : option str :=
  if bool_decide (agent_id ∈ frozen_agents st) then Some #"frozen"
  else if match team_of agent_id with
          | Some team => bool_decide (team ∈ stopped_units st)
          | None => false
          end then Some #"stopped"
  else if match agent_owners st !! agent_id with
          | Some owner => bool_decide (owner ∈ stopped_users st)
          | None => false
          end then Some #"stopped"
  else None.

Definition sorted_strs (s : gset str) : value := VArr (map VStr (isort str_leb (elements s))).
Definition to_json (st : LifecycleStore) : value :=
  obj [(#"agents", sorted_strs (frozen_agents st)); (#"units", sorted_strs (stopped_units st));
       (#"users", sorted_strs (stopped_users st))].

(** ** Names and ids *)

Definition ID_PREFIX : str := #"console-block-".
Definition sanitize (key : str) : str := map (fun c => if ascii_alnum c then c else 45) key.
Definition block_prefix (kind key : str) : str := ID_PREFIX ++ kind ++ #"-" ++ sanitize key.
Definition block_name (kind key : str) : str := #"console-block:" ++ kind ++ #":" ++ key.
Definition parse_block_name (n : str) : option (str * str) :=
  let! rest := strip_prefix #"console-block:" n in
  let! (kind, key) := split_once [58] rest in
  if bool_decide (kind = []) || bool_decide (key = []) then None else Some (kind, key).

Definition BLOCK_DOMAIN_SENTINEL : str := #"console.blocked.invalid".
Definition f64_zero : f64 := F64 false [0] 0.
(** A tenth of a cent: [0.001]. *)
Definition deny_all_policy (n t : str) : Policy :=
  mkPolicy n t [] [BLOCK_DOMAIN_SENTINEL] f64_zero (F64 false [1] (-3)) 1 true.

(** The policy id of one member of a block. *)
Definition block_id (kind key agent : str) : str :=
  if str_eqb kind #"agent" then block_prefix kind key
  else block_prefix kind key ++ #"--" ++ sanitize agent.

Section Service.
Context `{PolicyService}.

(** The loop of [block]. *)
Fixpoint block_loop (kind key n : str) (agents : list str) (written : Z) (s : svc)
  : result Z str * svc :=
  match agents with
  | [] => (Ok written, s)
  | agent :: agents =>
      match put_policy s (block_id kind key agent) (deny_all_policy n agent) with
      | (Err e, s) =>
          (Err (#"wardryx refused the block policy for " ++ agent ++ #": " ++ wardryx_error_text e), s)
      | (Ok _, s) => block_loop kind key n agents (written + 1) s
      end
  end.

(** [block]; [client] is what [admin_client] answers. *)
Definition block (client : result unit str) (kind key : str) (agents : list str) (s : svc)
  : result Z str * svc :=
  if bool_decide (agents = [])
  then (Err (#"nothing to block: no agents resolved for this " ++ kind), s)
  else match client with
       | Err e => (Err e, s)
       | Ok _ => block_loop kind key (block_name kind key) agents 0 s
       end.

(** The loop of [unblock], over the listed records. *)
Fixpoint unblock_loop (prefix : str) (records : list PolicyRecord) (removed : Z) (s : svc)
  : result Z str * svc :=
  match records with
  | [] => (Ok removed, s)
  | r :: records =>
      if negb (starts_with prefix (rid r)) then unblock_loop prefix records removed s
      else match delete_policy s (rid r) with
           | (Ok _, s) => unblock_loop prefix records (removed + 1) s
           | (Err (Api 404 _), s) => unblock_loop prefix records removed s
           | (Err e, s) =>
               (Err (#"wardryx refused to remove " ++ rid r ++ #": " ++ wardryx_error_text e), s)
           end
  end.

Definition unblock (client : result unit str) (kind key : str) (s : svc) : result Z str * svc :=
  match client with
  | Err e => (Err e, s)
  | Ok _ =>
      match list_policies s with
      | Err e => (Err (#"wardryx would not list policies to unblock: " ++ wardryx_error_text e), s)
      | Ok policies => unblock_loop (block_prefix kind key) policies 0 s
      end
  end.

(** One record of [rehydrate]. *)
Definition rehydrate_one (st : LifecycleStore) (r : PolicyRecord) : LifecycleStore :=
  if negb (starts_with ID_PREFIX (rid r)) then st
  else match parse_block_name (name (policy r)) with
       | None => st
       | Some (kind, key) =>
           if str_eqb kind #"agent"
           then mkStore ({[key]} ∪ frozen_agents st) (stopped_units st) (stopped_users st) (agent_owners st)
           else if str_eqb kind #"unit"
           then mkStore (frozen_agents st) ({[key]} ∪ stopped_units st) (stopped_users st) (agent_owners st)
           else if str_eqb kind #"user"
           then mkStore (frozen_agents st) (stopped_units st) ({[key]} ∪ stopped_users st) (agent_owners st)
           else st
       end.

Definition rehydrate (client : result unit str) (s : svc) : result LifecycleStore str :=
  let? _ := client in
  let? policies := map_err (fun e => #"wardryx would not list policies: " ++ wardryx_error_text e)
                     (list_policies s) in
  Ok (fold_left rehydrate_one policies empty_store).

(** [apply_block] of [dispatch.rs], up to the journal. *)
Definition record_block (kind key : str) (blocked : bool) (st : LifecycleStore) : LifecycleStore :=
  let change (set : gset str) := if blocked then {[key]} ∪ set else set ∖ {[key]} in
  if str_eqb kind #"agent"
  then mkStore (change (frozen_agents st)) (stopped_units st) (stopped_users st) (agent_owners st)
  else if str_eqb kind #"unit"
  then mkStore (frozen_agents st) (change (stopped_units st)) (stopped_users st) (agent_owners st)
  else mkStore (frozen_agents st) (stopped_units st) (change (stopped_users st)) (agent_owners st).

Definition apply_block (client : result unit str) (kind key : str) (blocked : bool)
  (members : list str) (st : LifecycleStore) (s : svc) : result Z str * LifecycleStore * svc :=
  let '(outcome, s) := if blocked then block client kind key members s else unblock client kind key s in
  match outcome with
  | Err e => (Err e, st, s)
  | Ok affected => (Ok affected, record_block kind key blocked st, s)
  end.
End Service.

Definition block_action (kind : str) (blocked : bool) : str :=
  let k := if str_eqb kind #"agent" then #"agent"
           else if str_eqb kind #"unit" then #"unit" else #"user" in
  (if blocked then #"console.block_" else #"console.unblock_") ++ k.

(** ** Who a block expands to *)

(** The last segment of a path: [rsplit('/').next()]. *)
Definition tail (s : str) : str :=
  match rsplit_once [47] s with Some (_, t) => t | None => s end.
Definition owner_matches (owner user : str) : bool :=
  str_eqb owner user || str_eqb (tail owner) (tail user).

Record IdentityDto : Type := mkIdentity { iid : str; owner : str }.

(** [BTreeSet] into a vector: sorted, without duplicates. *)
Definition btree (l : list str) : list str := isort str_leb (elements (list_to_set l : gset str)).

Definition in_team (team id : str) : bool :=
  match team_of id with Some t => str_eqb t team | None => false end.

(** [agents_in_unit], from what the two planes answered. *)
Definition agents_in_unit (identities : option (list IdentityDto)) (runs : option (list str))
  (team : str) : list str :=
  btree (List.filter (in_team team) (map iid (default [] identities))
         ++ List.filter (in_team team) (default [] runs)).

(** [agents_of_user]: the owned agents, and the store with its owner cache. *)
Definition agents_of_user (identities : option (list IdentityDto)) (user : str)
  (st : LifecycleStore) : list str * LifecycleStore :=
  match identities with
  | None => ([], st)
  | Some ids =>
      let known := List.filter (fun i => starts_with #"agent://" (iid i)
                                         && negb (bool_decide (owner i = []))) ids in
      (btree (map iid (List.filter (fun i => owner_matches (owner i) user) known)),
       mkStore (frozen_agents st) (stopped_units st) (stopped_users st)
         (fold_left (fun m i => <[iid i := owner i]> m) known (agent_owners st)))
  end.

(** ** Projection *)

Definition project_run (st : LifecycleStore) (run : value) : value :=
  match (let! agent_id := get_str #"agent_id" run in state_for st agent_id) with
  | None => run
  | Some state =>
      match run with
      | VObj ms => VObj (obj_insert #"killed" (VBool true) (obj_insert #"lifecycle" (VStr state) ms))
      | _ => run
      end
  end.
Definition project_runs (v : value) (st : LifecycleStore) : value :=
  match v with VArr runs => VArr (map (project_run st) runs) | _ => v end.

Definition project_node (st : LifecycleStore) (node : value) : value :=
  match (let! id := get_str #"id" node in state_for st id) with
  | None => node
  | Some state =>
      match node with
      | VObj ms => VObj (obj_insert #"lifecycle" (VStr state) ms)
      | _ => node
      end
  end.
Definition project_graph (v : value) (st : LifecycleStore) : value :=
  match v with
  | VObj ms => match obj_get #"nodes" ms with
               | Some (VArr nodes) =>
                   VObj (obj_insert #"nodes" (VArr (map (project_node st) nodes)) ms)
               | _ => v
               end
  | _ => v
  end.

(** ** Lemmas *)

Lemma starts_with_app_l p a b : starts_with (p ++ a) b = true -> starts_with p b = true.
Proof. rewrite !starts_with_iff. intros (r&->). rewrite <- app_assoc. eauto. Qed.

Lemma block_id_prefix kind key agent : starts_with (block_prefix kind key) (block_id kind key agent) = true.
Proof.
  unfold block_id. apply starts_with_iff. case_match; [exists []; by rewrite app_nil_r|eauto].
Qed.

Lemma block_id_own kind key agent : starts_with ID_PREFIX (block_id kind key agent) = true.
Proof.
  eapply starts_with_app_l with (a := kind ++ #"-" ++ sanitize key). apply (block_id_prefix kind key agent).
Qed.

Lemma parse_block_name_iff n kind key :
  parse_block_name n = Some (kind, key)
  <-> n = block_name kind key /\ 58 ∉ kind /\ kind <> [] /\ key <> [].
Proof.
  unfold parse_block_name, block_name. split.
  - destruct (strip_prefix _ n) as [r|] eqn:E; [|done]. apply strip_prefix_Some in E as ->.
    destruct (split_once [58] r) as [[k v]|] eqn:E; [|done].
    apply split_once_char in E as Hk. apply split_once_Some in E as ->.
    destruct (_ || _) eqn:E; [done|]. intros [= -> ->]. b2p. tauto.
  - intros (->&Hc&Hk&Hv). rewrite strip_prefix_app. simpl. rewrite split_once_char_app by done.
    by rewrite !bool_decide_eq_false_2.
Qed.

Section Service_lemmas.
Context `{PolicyServiceLaws}.

Lemma block_loop_stored kind key n agents w s r s' :
  block_loop kind key n agents w s = (Ok r, s') ->
  r = w + Z.of_nat (length agents)
  /\ stored s' = fold_left (fun m a => <[block_id kind key a := deny_all_policy n a]> m) agents (stored s).
Proof.
  revert w s; induction agents as [|a agents IH]; intros w s; simpl.
  { intros [= <- <-]. split; [lia|done]. }
  destruct (put_policy s _ _) as [[[]|e] s1] eqn:E; [|done].
  intros [-> ->]%IH. split; [lia|]. by rewrite (put_ok _ _ _ _ E).
Qed.

Lemma block_Ok client kind key agents s n s' :
  block client kind key agents s = (Ok n, s') ->
  agents <> [] /\ n = Z.of_nat (length agents)
  /\ stored s' = fold_left (fun m a => <[block_id kind key a := deny_all_policy (block_name kind key) a]> m)
                   agents (stored s).
Proof.
  unfold block. case_bool_decide; [done|]. destruct client; [|done].
  intros [-> ->]%block_loop_stored. split; [done|]. split; [lia|done].
Qed.

Lemma fold_insert_lookup (f : str -> str) (g : str -> Policy) (agents : list str) (m : gmap str Policy) (id : str) :
  fold_left (fun m a => <[f a := g a]> m) agents m !! id =
  match List.find (fun a => str_eqb (f a) id) (rev agents) with
  | Some a => Some (g a)
  | None => m !! id
  end.
Proof.
  induction agents as [|a agents IH] using rev_ind; [done|].
  rewrite fold_left_app, rev_app_distr. simpl.
  rewrite lookup_insert, str_eqb_decide. repeat case_decide; simplify_eq; done.
Qed.

(** What a block that was not refused left in the service, whether or not two
    members share an id. *)
Lemma block_taken client kind key agents s n s' :
  block client kind key agents s = (Ok n, s') ->
  (forall a, a ∈ agents -> exists a', a' ∈ agents
     /\ stored s' !! block_id kind key a = Some (deny_all_policy (block_name kind key) a'))
  /\ forall id, id ∉ map (block_id kind key) agents -> stored s' !! id = stored s !! id.
Proof.
  intros (_&_&->)%block_Ok. split; [intros a Ha|intros id Hid]; rewrite fold_insert_lookup;
    (destruct (List.find _ (rev agents)) as [b|] eqn:E; [apply find_some in E as [Hb Heq]|]).
  - exists b. split; [by apply list_elem_of_In, in_rev|done].
  - apply find_none with (x := a) in E; [by rewrite str_eqb_refl in E|]. apply -> in_rev. by apply list_elem_of_In.
  - apply str_eqb_eq in Heq as <-. destruct Hid. apply list_elem_of_fmap_2. by apply list_elem_of_In, in_rev.
  - done.
Qed.

Lemma unblock_loop_stored prefix records w s n s' :
  unblock_loop prefix records w s = (Ok n, s') ->
  forall id, stored s' !! id =
    if starts_with prefix id && bool_decide (id ∈ map rid records) then None else stored s !! id.
Proof.
  revert w s; induction records as [|r records IH]; intros w s; simpl.
  { intros [= _ <-] id. by destruct (starts_with prefix id). }
  assert (forall s1, (forall id, stored s1 !! id
            = if starts_with prefix id && bool_decide (id = rid r) then None else stored s !! id) ->
          forall w, unblock_loop prefix records w s1 = (Ok n, s') ->
          forall id, stored s' !! id = if starts_with prefix id
            && bool_decide (id ∈ rid r :: map rid records) then None else stored s !! id) as Hgo.
  { intros s1 Hs1 w1 Hl id. rewrite (IH _ _ Hl), Hs1.
    destruct (starts_with prefix id); [|done]. simpl.
    repeat case_bool_decide; set_solver. }
  destruct (starts_with prefix (rid r)) eqn:Ep; simpl.
  - destruct (delete_policy s (rid r)) as [[[]|[st t|t]] s1] eqn:Ed; simpl; try done.
    + apply Hgo. intros id. rewrite (delete_ok _ _ _ Ed), lookup_delete.
      case_bool_decide; case_decide; subst; try done; [by rewrite Ep|by rewrite andb_false_r].
    + destruct (Z.eq_dec st 404) as [->|Hne].
      * apply Hgo. destruct (delete_404 _ _ _ _ Ed) as [-> Hn]. intros id.
        case_bool_decide; [subst; by rewrite Ep|by rewrite andb_false_r].
      * intros Hl. exfalso. revert Hl. repeat case_match; try done; congruence.
  - apply Hgo. intros id. case_bool_decide; [subst; by rewrite Ep|by rewrite andb_false_r].
Qed.

Lemma unblock_stored client kind key s n s' :
  unblock client kind key s = (Ok n, s') ->
  forall id, stored s' !! id =
    if starts_with (block_prefix kind key) id then None else stored s !! id.
Proof.
  unfold unblock. destruct client; [|done]. destruct (list_policies s) as [l|] eqn:El; [|done].
  intros Hl id. rewrite (unblock_loop_stored _ _ _ _ _ _ Hl).
  destruct (starts_with _ id); [|done]. simpl. case_bool_decide as Hin; [done|].
  destruct (stored s !! id) as [p|] eqn:E; [|done]. apply (list_ok _ _ El) in E.
  destruct Hin. apply list_elem_of_fmap. by exists (mkRecord id p).
Qed.
End Service_lemmas.

(** The set of the store one kind of block is kept in. *)
Definition block_set (kind : str) (st : LifecycleStore) : gset str :=
  if str_eqb kind #"agent" then frozen_agents st
  else if str_eqb kind #"unit" then stopped_units st else stopped_users st.

Definition is_kind (kind : str) : Prop := kind = #"agent" \/ kind = #"unit" \/ kind = #"user".

Lemma is_kind_ok kind : is_kind kind -> 58 ∉ kind /\ kind <> [].
Proof. intros [Hk0|[Hk0|Hk0] ]; subst kind; split; try done; apply (bool_decide_unpack _); by vm_compute. Qed.

(** A record that names a block of [key]. *)
Definition names_block (kind key : str) (r : PolicyRecord) : Prop :=
  starts_with ID_PREFIX (rid r) = true /\ name (policy r) = block_name kind key /\ key <> [].

Lemma rehydrate_one_set kind key st r :
  is_kind kind ->
  key ∈ block_set kind (rehydrate_one st r) <-> key ∈ block_set kind st \/ names_block kind key r.
Proof.
  intros Hk. pose proof (is_kind_ok _ Hk) as [Hc Hn].
  assert (names_block kind key r <-> starts_with ID_PREFIX (rid r) = true
            /\ parse_block_name (name (policy r)) = Some (kind, key)) as ->.
  { unfold names_block. rewrite parse_block_name_iff. tauto. }
  unfold rehydrate_one. destruct (starts_with ID_PREFIX (rid r)); simpl;
    [|split; [tauto|by intros [?|(?&?)] ]].
  destruct (parse_block_name _) as [[k v]|]; [|split; [tauto|by intros [?|(?&?)] ]].
  assert (forall k0 v0, Some (k, v) = Some (k0, v0) <-> k = k0 /\ v = v0) as Hs
    by (intros; split; [by intros [= -> ->]|by intros [-> -> ] ]).
  rewrite Hs. unfold block_set. rewrite !str_eqb_decide.
  destruct Hk as [Hk0|[Hk0|Hk0] ]; subst kind; simpl; repeat case_decide; subst; simpl;
    rewrite ?elem_of_union, ?elem_of_singleton; naive_solver.
Qed.

Lemma rehydrate_fold_set kind key l st :
  is_kind kind ->
  key ∈ block_set kind (fold_left rehydrate_one l st)
  <-> key ∈ block_set kind st \/ exists r, r ∈ l /\ names_block kind key r.
Proof.
  intros Hk. revert st; induction l as [|r l IH]; intros st; simpl.
  - split; [tauto|]. intros [?|(r&Hr&_)]; [done|by apply elem_of_nil in Hr].
  - rewrite IH, rehydrate_one_set by done. setoid_rewrite elem_of_cons. naive_solver.
Qed.

Lemma block_set_record kind key blocked st :
  is_kind kind ->
  block_set kind (record_block kind key blocked st)
  = if blocked then {[key]} ∪ block_set kind st else block_set kind st ∖ {[key]}.
Proof. by intros [Hk0|[Hk0|Hk0] ]; subst kind. Qed.

(** ** Properties *)

Section Service_properties.
Context `{PolicyServiceLaws}.

(** A block that is not refused denies all work to every agent it names,
    and touches nothing else.  When the members' policy ids are distinct, each
    member has the deny-all policy after [block], and every other policy is as
    it was. *)
Theorem block_denies_every_member client kind key agents s n s' :
  block client kind key agents s = (Ok n, s') ->
  NoDup (map (block_id kind key) agents) ->
  n = Z.of_nat (length agents)
  /\ (forall a, a ∈ agents ->
        stored s' !! block_id kind key a = Some (deny_all_policy (block_name kind key) a))
  /\ forall id, id ∉ map (block_id kind key) agents -> stored s' !! id = stored s !! id.
Proof.
  intros (_&->&->)%block_Ok Hnd. split; [done|]. split.
  - intros a Ha. rewrite fold_insert_lookup.
    destruct (List.find _ (rev agents)) as [b|] eqn:E.
    + apply find_some in E as [Hb Hid]. apply str_eqb_eq in Hid.
      apply in_rev, list_elem_of_In in Hb. do 2 f_equal.
      by eapply NoDup_map_inj.
    + apply find_none with (x := a) in E; [by rewrite str_eqb_refl in E|].
      apply -> in_rev. by apply list_elem_of_In.
  - intros id Hid. rewrite fold_insert_lookup.
    destruct (List.find _ (rev agents)) as [b|] eqn:E; [|done].
    apply find_some in E as [Hb Hb2]. apply str_eqb_eq in Hb2 as <-. destruct Hid.
    apply list_elem_of_fmap_2. by apply list_elem_of_In, in_rev.
Qed.

(** A unit or user block over two agents whose ids differ only in
    punctuation stops one of them.  The two members' policies have the same id,
    so [block] reports two policies written while the second replaced the
    first, and the first agent has no policy of this block. *)
Theorem colliding_members_share_one_policy client kind key a b s n s' :
  kind <> #"agent" -> sanitize a = sanitize b ->
  block client kind key [a; b] s = (Ok n, s') ->
  n = 2 /\ stored s' = <[block_id kind key b := deny_all_policy (block_name kind key) b]> (stored s)
  /\ block_id kind key a = block_id kind key b.
Proof.
  intros Hk Hs (_&->&->)%block_Ok. assert (block_id kind key a = block_id kind key b) as Hid.
  { unfold block_id. by rewrite Hs. }
  split; [done|]. split; [|done]. simpl. rewrite Hid. apply insert_insert_eq.
Qed.

(** [unblock] removes exactly the policies whose id begins with the
    entity's prefix, and leaves every other policy in force. *)
Theorem unblock_removes_by_prefix client kind key s n s' :
  unblock client kind key s = (Ok n, s') ->
  forall id, stored s' !! id =
    if starts_with (block_prefix kind key) id then None else stored s !! id.
Proof. apply unblock_stored. Qed.

(** Unblocking one agent lifts the block of every agent whose id it is a
    prefix of.  After [agent://acme/sec/bot] is unblocked no policy blocks
    [agent://acme/sec/bot2], while the console still shows it frozen. *)
Theorem unblock_reaches_longer_keys client key suffix st s n st' s' :
  suffix <> [] -> key ++ suffix ∈ frozen_agents st ->
  apply_block client #"agent" key false [] st s = (Ok n, st', s') ->
  stored s' !! block_id #"agent" (key ++ suffix) (key ++ suffix) = None
  /\ state_for st' (key ++ suffix) = Some #"frozen".
Proof.
  unfold apply_block. intros Hne Hfr E. destruct (unblock _ _ _ _) as [[r|e] s1] eqn:Eu; [|done].
  injection E as <- <- <-. split.
  - rewrite (unblock_stored _ _ _ _ _ _ Eu).
    replace (starts_with _ _) with true; [done|]. symmetry. apply starts_with_iff.
    exists (sanitize suffix). unfold block_id, block_prefix, sanitize. simpl. by rewrite map_app.
  - unfold state_for. rewrite bool_decide_eq_true_2; [done|]. simpl.
    apply elem_of_difference. split; [done|]. rewrite elem_of_singleton. intros E.
    rewrite <- (app_nil_r key) in E at 2. by apply app_inv_head in E.
Qed.

(** A restarted console knows every block in force.  The store [rehydrate]
    builds holds an agent, a unit or a user exactly when some stored policy of
    the console's own names its block; in particular it holds what a successful
    block just wrote. *)
Theorem rehydrate_is_exact s st kind key :
  rehydrate (Ok tt) s = Ok st -> is_kind kind ->
  (key ∈ block_set kind st <->
     exists id p, stored s !! id = Some p /\ names_block kind key (mkRecord id p)).
Proof.
  unfold rehydrate. simpl. destruct (list_policies s) as [l|] eqn:El; [|done].
  intros [= <-] Hk. rewrite rehydrate_fold_set by done.
  assert (key ∉ block_set kind empty_store) as Hno by (destruct Hk as [Hk0|[Hk0|Hk0] ]; subst kind; apply not_elem_of_empty).
  split.
  - intros [?|([id p]&Hin&Hr)]; [done|]. exists id, p. split; [by apply (list_ok _ _ El)|done].
  - intros (id&p&Hp&Hr). right. exists (mkRecord id p). split; [by apply (list_ok _ _ El)|done].
Qed.

(** A block survives a restart of the console: after a successful block,
    whatever the store held before is rebuilt to show the entity blocked. *)
Theorem block_survives_restart kind key agents st s n st1 s1 st2 :
  is_kind kind -> key <> [] ->
  apply_block (Ok tt) kind key true agents st s = (Ok n, st1, s1) ->
  rehydrate (Ok tt) s1 = Ok st2 ->
  key ∈ block_set kind st1 /\ key ∈ block_set kind st2.
Proof.
  unfold apply_block. intros Hk Hne E Hr. destruct (block _ _ _ _ _) as [[r|e] s2] eqn:Eb; [|done].
  injection E as <- <- <-. split.
  { rewrite block_set_record by done. set_solver. }
  apply block_Ok in Eb as (Hag&_&Hst). unfold rehydrate in Hr. simpl in Hr.
  destruct (list_policies s2) as [l|] eqn:El; [|done]. injection Hr as <-.
  apply rehydrate_fold_set; [done|]. right.
  destruct agents as [|a agents]; [done|]. set (id := block_id kind key a).
  assert (exists p, stored s2 !! id = Some p /\ name p = block_name kind key) as (p&Hp&Hn).
  { rewrite Hst, fold_insert_lookup. destruct (List.find _ _) as [b|] eqn:E; [by eexists|].
    apply find_none with (x := a) in E; [by rewrite str_eqb_refl in E|]. apply -> in_rev. by left. }
  exists (mkRecord id p). split; [by apply (list_ok _ _ El)|].
  split; [apply block_id_own|done].
Qed.
End Service_properties.

(** Every run of a blocked agent reads as blocked and not live, and no
    other run changes.  In the projected reply, a run whose agent the store
    blocks carries the badge and [killed], its other members are as they were,
    and a run of an agent that is not blocked is untouched. *)
Theorem project_run_marks_blocked st ms agent_id k :
  obj_get #"agent_id" ms = Some (VStr agent_id) ->
  match project_run st (VObj ms), state_for st agent_id with
  | VObj ms', Some state =>
      obj_get k ms' = if str_eqb k #"killed" then Some (VBool true)
                      else if str_eqb k #"lifecycle" then Some (VStr state)
                      else obj_get k ms
  | v, _ => v = VObj ms
  end.
Proof.
  intros E. unfold project_run, get_str, get. rewrite E. simpl.
  destruct (state_for st agent_id); [|done]. by rewrite !obj_get_insert.
Qed.

(** ** A concrete service, and the witnesses *)

Definition demo_service : PolicyService := {|
  svc := gmap str Policy;
  put_policy := fun s id p => (Ok tt, <[id := p]> s);
  list_policies := fun s => Ok (map (fun kv => mkRecord kv.1 kv.2) (map_to_list s));
  delete_policy := fun s id => match s !! id with
                               | Some _ => (Ok tt, delete id s)
                               | None => (Err (Api 404 #"not found"), s)
                               end;
|}.
#[local] Existing Instance demo_service.

#[export] Instance demo_service_laws : @PolicyServiceLaws demo_service.
Proof.
  refine {| stored := fun s : @svc demo_service => (s : gmap str Policy) |}; simpl.
  - by intros ? ? ? ? [= <-].
  - intros s l [= <-] id p. rewrite <- elem_of_map_to_list. split.
    + intros ([k v]&[= -> ->]&?)%list_elem_of_fmap. done.
    + intros Hin. apply list_elem_of_fmap. by exists (id, p).
  - intros s id s'. case_match; [|done]. by intros [= <-].
  - intros s id t s'. case_match; [done|]. by intros [= _ <-].
Defined.

Definition bot : str := #"agent://acme/sec/bot".
Definition demo_block (kind key : str) (agents : list str) (s : svc) : result Z str * svc :=
  block (Ok tt) kind key agents s.

Lemma block_denies_every_member_witness :
  (demo_block #"agent" bot [bot] ∅).2 !! block_id #"agent" bot bot
  = Some (deny_all_policy (block_name #"agent" bot) bot).
Proof.
  destruct (block_denies_every_member (Ok tt) #"agent" bot [bot] ∅ 1 (demo_block #"agent" bot [bot] ∅).2)
    as (_&H&_).
  - apply pair_fst. by vm_compute.
  - apply NoDup_singleton.
  - apply (H bot). left.
Defined.

Definition unit_a : str := #"agent://acme/sec/a.b".
Definition unit_b : str := #"agent://acme/sec/a-b".

Lemma colliding_members_share_one_policy_witness :
  unit_a <> unit_b /\
  stored (demo_block #"unit" #"sec" [unit_a; unit_b] ∅).2
  = <[block_id #"unit" #"sec" unit_b := deny_all_policy (block_name #"unit" #"sec") unit_b]> (stored ∅).
Proof.
  split; [by vm_compute|].
  apply (colliding_members_share_one_policy (Ok tt) #"unit" #"sec" unit_a unit_b ∅ 2);
    [done|by vm_compute|apply pair_fst; by vm_compute].
Defined.

Definition both_blocked : svc := (demo_block #"agent" #"agent://acme/sec/bot2" [ #"agent://acme/sec/bot2"]
  (demo_block #"agent" bot [bot] ∅).2).2.

Lemma unblock_removes_by_prefix_witness :
  stored (unblock (Ok tt) #"agent" bot both_blocked).2 !! block_id #"agent" bot bot
  = if starts_with (block_prefix #"agent" bot) (block_id #"agent" bot bot) then None
    else stored both_blocked !! block_id #"agent" bot bot.
Proof. apply (unblock_removes_by_prefix (Ok tt) #"agent" bot both_blocked 2). apply pair_fst. by vm_compute. Defined.

Definition both_frozen : LifecycleStore := mkStore {[ bot; bot ++ #"2" ]} ∅ ∅ ∅.
Definition after_unblock : result Z str * LifecycleStore * svc :=
  apply_block (Ok tt) #"agent" bot false [] both_frozen both_blocked.

Lemma unblock_reaches_longer_keys_witness :
  bool_decide (is_Some (stored both_blocked !! block_id #"agent" (bot ++ #"2") (bot ++ #"2"))) = true
  /\ stored after_unblock.2 !! block_id #"agent" (bot ++ #"2") (bot ++ #"2") = None
  /\ state_for after_unblock.1.2 (bot ++ #"2") = Some #"frozen".
Proof.
  split; [by vm_compute|].
  apply (unblock_reaches_longer_keys (Ok tt) bot #"2" both_frozen both_blocked 2).
  - done.
  - apply (bool_decide_unpack _). by vm_compute.
  - apply triple_fst. by vm_compute.
Defined.

Definition restarted_store : LifecycleStore :=
  match rehydrate (Ok tt) both_blocked with Ok st => st | Err _ => empty_store end.

Lemma rehydrate_is_exact_witness :
  bot ∈ block_set #"agent" restarted_store <->
  exists id p, stored both_blocked !! id = Some p /\ names_block #"agent" bot (mkRecord id p).
Proof.
  apply rehydrate_is_exact; [|by left]. unfold restarted_store.
  destruct (rehydrate (Ok tt) both_blocked) as [st|e] eqn:E; [done|].
  assert (is_ok (rehydrate (Ok tt) both_blocked) = true) as H by (by vm_compute). by rewrite E in H.
Defined.

Lemma block_survives_restart_witness :
  bot ∈ block_set #"agent" (apply_block (Ok tt) #"agent" bot true [bot] empty_store (∅ : svc)).1.2.
Proof.
  set (r := apply_block (Ok tt) #"agent" bot true [bot] empty_store (∅ : svc)).
  destruct (rehydrate (Ok tt) r.2) as [st|e] eqn:E.
  - apply (block_survives_restart #"agent" bot [bot] empty_store ∅ 1 r.1.2 r.2 st); [by left|done| |exact E].
    apply triple_fst. by vm_compute.
  - assert (is_ok (rehydrate (Ok tt) r.2) = true) as H by (by vm_compute). by rewrite E in H.
Defined.

Lemma project_run_marks_blocked_witness :
  exists ms', project_run both_frozen (VObj [(#"agent_id", VStr bot)]) = VObj ms'
              /\ obj_get #"killed" ms' = Some (VBool true).
Proof.
  pose proof (project_run_marks_blocked both_frozen [(#"agent_id", VStr bot)] bot #"killed" eq_refl) as H.
  eexists. split; [reflexivity|exact H].
Defined.

(** A stopped user's agents can read as running.  [owner_matches] takes
    [d.hayes] for the owner [user://acme/d.hayes], so stopping [d.hayes] blocks
    that owner's agent in the policy service; the store then holds [d.hayes],
    the cached owner is the full form, and the agent is not projected as
    stopped. *)
Theorem stopped_user_not_projected :
  let ids := [mkIdentity bot #"user://acme/d.hayes"] in
  let '(members, st) := agents_of_user (Some ids) #"d.hayes" empty_store in
  let '(outcome, st', s) := apply_block (Ok tt) #"user" #"d.hayes" true members st (∅ : svc) in
  members = [bot] /\ outcome = Ok 1
  /\ stored s !! block_id #"user" #"d.hayes" bot
     = Some (deny_all_policy (block_name #"user" #"d.hayes") bot)
  /\ state_for st' bot = None.
Proof. by vm_compute. Qed.
