(* ===== verification/Ingest.v ===== *)
(** * Ingest: from the producers' files to the console's store
    ([crates/core/src/ingest.rs], [conform.rs], [event.rs], and the writes of
    [store.rs])

    Each producer appends lines to a file.  A [FileTail] reads the complete
    lines past its offset, [Conformer] decides each, and one poll writes to the
    store in order: the quarantined lines as they come, then the batch of
    events in one transaction, then the offsets.  A poll is the list of those
    writes, so a crash is a prefix of it.  JSON Schema validation and serde are
    other crates'; SQLite is the table the code uses it as. *)
From S2P Require Import Prelude Text Json Signing.

(** ** Events and their conformance *)

Inductive SchemaVersion : Type := V0_1 | V0_2 | V1_0.
Definition schema_as_str (v : SchemaVersion) : str :=
  match v with
  | V0_1 => #"taipanbox.dev/agent-event/v0.1"
  | V0_2 => #"taipanbox.dev/agent-event/v0.2"
  | V1_0 => #"taipanbox.dev/agent-event/v1.0"
  end.
Definition from_schema_str (s : str) : option SchemaVersion :=
  if str_eqb s (schema_as_str V0_1) then Some V0_1
  else if str_eqb s (schema_as_str V0_2) then Some V0_2
  else if str_eqb s (schema_as_str V1_0) then Some V1_0
  else None.

Record AgentEvent : Type := mkEvent
  { schema : str; ts : str; source : str; event_type : str; agent_id : str; severity : option str;
    run_id : option str; on_behalf_of : list str; data : option value; prev_hash : option str;
    extra : list (str * value) }.
Definition schema_version (e : AgentEvent) : option SchemaVersion := from_schema_str (schema e).

Definition CLAIMED_PREFIX : str := #"claimed:".
Definition CLAIMED_SUBJECT_REFUSED : str :=
  #"claimed subject refused: agent_id carries `claimed:` and this console does not model claimed identities (agent-passport SPEC 3.3, 6.4.1)".

(** The compiled validators, serde_json's reader, and the derived decoder. *)
Class Schemas := {
  read_json : str -> result value str;
  is_valid : SchemaVersion -> value -> bool;
  iter_errors : SchemaVersion -> value -> list str;
  decode_event : str -> result AgentEvent str;
  debug_str : str -> str;
}.

Record ConformReport : Type := mkConform
  { valid : bool; report_version : option SchemaVersion; errors : list str }.

Definition PINNED_SOURCE_REFUSED : str :=
  #"the line claims a source its stream may not carry (a pinned stream carries only its own source)".

Section Conform.
Context {SC : Schemas}.

Definition check_value (v : value) : ConformReport :=
  let declared := get_str #"schema" v in
  match (let! d := declared in from_schema_str d) with
  | None =>
      mkConform false None
        [ #"unknown or missing `schema` (got " ++ debug_str (default #"<missing>" declared)
         ++ #"); expected " ++ debug_str (schema_as_str V0_1) ++ #", " ++ debug_str (schema_as_str V0_2)
         ++ #" or " ++ debug_str (schema_as_str V1_0)]
  | Some version =>
      if is_valid version v then
        if match get_str #"agent_id" v with Some id => starts_with CLAIMED_PREFIX id | None => false end
        then mkConform false (Some version) [CLAIMED_SUBJECT_REFUSED]
        else mkConform true (Some version) []
      else mkConform false (Some version) (iter_errors version v)
  end.

Definition check_line (line : str) : ConformReport :=
  match read_json line with
  | Ok v => check_value v
  | Err e => mkConform false None [ #"malformed json: " ++ e]
  end.

Definition parse_valid (line : str) : result AgentEvent ConformReport :=
  let report := check_line line in
  if negb (valid report) then Err report
  else map_err (fun e => mkConform false (report_version report) [ #"decode: " ++ e]) (decode_event line).
End Conform.

(** ** The store *)

Record Provenance : Type := mkProvenance
  { env : str; connector : str; p_file : option str; p_offset : option Z; received_ts : str }.
Record ConsoleEvent : Type := mkConsole
  { event : AgentEvent; provenance : Provenance; raw : str; version : SchemaVersion }.

Record Quarantined : Type := mkQuarantined
  { q_env : str; q_file : option str; q_off : option Z; q_raw : str; q_reason : str; q_ts : str }.

Record SourceState : Type := mkSource { offset : Z; inode : option Z; head_sha : option str }.

(** The three tables ingest writes; [events] holds each row with its dedupe key. *)
Record Store : Type := mkStore
  { events : list (str * ConsoleEvent); quarantine_rows : list Quarantined; sources : gmap str SourceState }.

(** [dedupe_key]. *)
Definition dedupe_preimage (env : str) (file : option str) (offset : option Z) (raw : str) : list Z :=
  str_bytes env ++ [0] ++ str_bytes (default [] file) ++ [0]
  ++ str_bytes (match offset with Some o => dec o | None => [] end) ++ [0] ++ str_bytes raw.
Definition dedupe_key {PR : Primitives} (env : str) (file : option str) (offset : option Z) (raw : str) : str :=
  hex_lower (sha256 (dedupe_preimage env file offset raw)).

Definition key_of {PR : Primitives} (e : ConsoleEvent) : str :=
  dedupe_key (env (provenance e)) (p_file (provenance e)) (p_offset (provenance e)) (raw e).

(** [INSERT OR IGNORE]: a row whose key is held is skipped. *)
Definition insert_one {PR : Primitives} (rows : list (str * ConsoleEvent)) (e : ConsoleEvent)
  : list (str * ConsoleEvent) :=
  if existsb (fun r => str_eqb r.1 (key_of e)) rows then rows else rows ++ [(key_of e, e)].
Definition insert_batch {PR : Primitives} (s : Store) (es : list ConsoleEvent) : Z * Store :=
  let rows := fold_left insert_one es (events s) in
  (Z.of_nat (length rows) - Z.of_nat (length (events s)), mkStore rows (quarantine_rows s) (sources s)).

(** One write of a poll. *)
Inductive write : Type :=
| WQuarantine (q : Quarantined)
| WInsert (es : list ConsoleEvent)
| WOffset (file : str) (st : SourceState).

Definition apply_write {PR : Primitives} (s : Store) (w : write) : Store :=
  match w with
  | WQuarantine q => mkStore (events s) (quarantine_rows s ++ [q]) (sources s)
  | WInsert es => (insert_batch s es).2
  | WOffset file st => mkStore (events s) (quarantine_rows s) (<[file := st]> (sources s))
  end.

(** ** Files and tails *)

Record File : Type := mkFile { f_inode : option Z; f_bytes : list Z; f_readable : bool }.
Abbreviation Fs := (gmap str File).

Record RawRecord : Type := mkRaw { r_raw : str; r_file : option str; r_offset : option Z }.
Record FileTail : Type := mkTail { t_id : str; t_path : str; t_offset : Z }.

(** The complete lines of [bs], [off] being where the current line starts and
    [acc] what it has so far, reversed; and where the unfinished line starts. *)
Fixpoint complete (off : Z) (acc : list Z) (bs : list Z) : list (Z * list Z) * Z :=
  match bs with
  | [] => ([], off)
  | b :: bs =>
      if b =? 10
      then let '(ls, c) := complete (off + Z.of_nat (length acc) + 1) [] bs in ((off, rev acc) :: ls, c)
      else complete off (b :: acc) bs
  end.

(** [FileTail::poll]. *)
Definition poll (fs : Fs) (t : FileTail) : result (list RawRecord) str * FileTail :=
  match fs !! t_path t with
  | None => (Ok [], t)
  | Some f =>
      if negb (f_readable f) then (Err #"io", t)
      else
        let len := Z.of_nat (length (f_bytes f)) in
        let o := if len <? t_offset t then 0 else t_offset t in
        if len =? o then (Ok [], mkTail (t_id t) (t_path t) o)
        else
          let '(ls, cursor) := complete o [] (skipn (Z.to_nat o) (f_bytes f)) in
          (Ok (map (fun l => mkRaw (from_utf8_lossy l.2) (Some (t_path t)) (Some l.1)) ls),
           mkTail (t_id t) (t_path t) cursor)
  end.

Definition inode_of (fs : Fs) (path : str) : option Z := let! f := fs !! path in f_inode f.

Definition HEAD_FINGERPRINT_BYTES : Z := 64 * 1024.
Definition head_fingerprint {PR : Primitives} (fs : Fs) (path : str) (offset : Z) : option str :=
  if offset =? 0 then None
  else
    let! f := fs !! path in
    if negb (f_readable f) || (Z.of_nat (length (f_bytes f)) <? offset) then None
    else Some (hex_lower (sha256 (firstn (Z.to_nat (Z.min offset HEAD_FINGERPRINT_BYTES)) (f_bytes f)))).

(** ** The service *)

Record IngestService : Type := mkService
  { store : Store; service_env : str; tails : list FileTail; pinned : gmap str str }.

Section Service.
Context {PR : Primitives} {SC : Schemas}.
(** The iteration order of a [HashMap]. *)
Context (map_order : gmap str Z -> list (str * Z)).

(** [add_file_source]: the offset a tail of [path] resumes from. *)
Definition resume_offset (s : Store) (fs : Fs) (path : str) : Z :=
  match sources s !! path with
  | None => 0
  | Some st =>
      let inode_says_new := match inode st, inode_of fs path with
                            | Some then_, Some now => negb (then_ =? now)
                            | _, _ => false
                            end in
      let head_says_new := match head_sha st, head_fingerprint fs path (offset st) with
                           | Some then_, Some now => negb (str_eqb then_ now)
                           | _, _ => false
                           end in
      if inode_says_new || head_says_new then 0 else offset st
  end.
Definition add_file_source (svc : IngestService) (fs : Fs) (id path : str) : IngestService :=
  mkService (store svc) (service_env svc)
    (tails svc ++ [mkTail id path (resume_offset (store svc) fs path)]) (pinned svc).
Definition add_pinned_file_source (svc : IngestService) (fs : Fs) (id path src : str) : IngestService :=
  let svc := add_file_source svc fs id path in
  mkService (store svc) (service_env svc) (tails svc) (<[path := src]> (pinned svc)).

(** What a poll has gathered: its quarantine writes, the events to insert, and
    the offset to journal for each file. *)
Record Gathered : Type := mkGathered
  { g_writes : list write; g_valid : list ConsoleEvent; g_next : gmap str Z }.

Definition note_offset (m : gmap str Z) (r : RawRecord) : gmap str Z :=
  match r_file r, r_offset r with
  | Some file, Some o =>
      let next := o + byte_len (r_raw r) + 1 in
      <[file := match m !! file with Some old => Z.max old next | None => next end]> m
  | _, _ => m
  end.

Definition ingest_record (svc : IngestService) (conn now : str) (g : Gathered) (r : RawRecord)
  : Gathered * option str :=
  let next := note_offset (g_next g) r in
  let refuse reason :=
    (mkGathered (g_writes g ++ [WQuarantine (mkQuarantined (service_env svc) (r_file r) (r_offset r) (r_raw r) reason now)])
       (g_valid g) next, None) in
  match parse_valid (r_raw r) with
  | Err report =>
      refuse (if bool_decide (errors report = []) then #"conformance failed" else join #"; " (errors report))
  | Ok e =>
      let want := let! f := r_file r in pinned svc !! f in
      if match want with Some w => negb (str_eqb (source e) w) | None => false end
      then refuse PINNED_SOURCE_REFUSED
      else match schema_version e with
           | None => (mkGathered (g_writes g) (g_valid g) next,
                      Some (#"event passed conformance under an unrecognized schema: " ++ debug_str (schema e)))
           | Some v =>
               (mkGathered (g_writes g)
                  (g_valid g ++ [mkConsole e (mkProvenance (service_env svc) conn (r_file r) (r_offset r) now)
                                   (r_raw r) v]) next, None)
           end
  end.

Fixpoint ingest_records (svc : IngestService) (conn now : str) (g : Gathered) (rs : list RawRecord)
  : Gathered * option str :=
  match rs with
  | [] => (g, None)
  | r :: rs =>
      match ingest_record svc conn now g r with
      | (g, Some e) => (g, Some e)
      | (g, None) => ingest_records svc conn now g rs
      end
  end.

Fixpoint ingest_sources (svc : IngestService) (fs : Fs) (now : str) (g : Gathered) (ts : list FileTail)
  : Gathered * option str * list FileTail :=
  match ts with
  | [] => (g, None, [])
  | t :: ts =>
      match poll fs t with
      | (Err e, t) => (g, Some e, t :: ts)
      | (Ok rs, t) =>
          match ingest_records svc (t_id t) now g rs with
          | (g, Some e) => (g, Some e, t :: ts)
          | (g, None) =>
              let '(g, e, ts) := ingest_sources svc fs now g ts in (g, e, t :: ts)
          end
      end
  end.

Definition offset_write (fs : Fs) (fo : str * Z) : write :=
  WOffset fo.1 (mkSource fo.2 (inode_of fs fo.1) (head_fingerprint fs fo.1 fo.2)).

(** The writes of [poll_once], in order; the error it stops with; the tails. *)
Definition poll_writes (svc : IngestService) (fs : Fs) (now : str)
  : list write * option str * list FileTail :=
  let '(g, e, ts) := ingest_sources svc fs now (mkGathered [] [] ∅) (tails svc) in
  match e with
  | Some e => (g_writes g, Some e, ts)
  | None => (g_writes g ++ WInsert (g_valid g) :: map (offset_write fs) (map_order (g_next g)), None, ts)
  end.

Record IngestStats : Type := mkStats { inserted : Z; quarantined : Z }.

(** [poll_once], when no write fails: its answer, the events it broadcasts and
    the service after it. *)
Definition poll_once (svc : IngestService) (fs : Fs) (now : str)
  : result IngestStats str * list ConsoleEvent * IngestService :=
  let '(ws, e, ts) := poll_writes svc fs now in
  let after := fold_left apply_write ws (store svc) in
  let svc' := mkService after (service_env svc) ts (pinned svc) in
  match e with
  | Some e => (Err e, [], svc')
  | None =>
      (Ok (mkStats (Z.of_nat (length (events after)) - Z.of_nat (length (events (store svc))))
             (Z.of_nat (length (quarantine_rows after)) - Z.of_nat (length (quarantine_rows (store svc))))),
       concat (map (fun w => match w with WInsert es => es | _ => [] end) ws), svc')
  end.

(** A poll that a crash, or a write the store refuses, cuts after [n] writes;
    the process is then started again over the same store, with one tail per
    [(id, path)]. *)
Definition crashed_store (svc : IngestService) (fs : Fs) (now : str) (n : nat) : Store :=
  fold_left apply_write (firstn n (poll_writes svc fs now).1.1) (store svc).
Definition restart (s : Store) (env : str) (fs : Fs) (paths : list (str * str)) : IngestService :=
  fold_left (fun svc ip => add_file_source svc fs ip.1 ip.2) paths (mkService s env [] ∅).
End Service.

(** ** Lines of a file *)

(** A file is complete lines, each ended by a line feed, and an unfinished one. *)
Definition file_of (ls : list (list Z)) (part : list Z) : list Z := flat_map (fun l => l ++ [10]) ls ++ part.

Fixpoint number (o : Z) (ls : list (list Z)) : list (Z * list Z) :=
  match ls with
  | [] => []
  | l :: ls => (o, l) :: number (o + Z.of_nat (length l) + 1) ls
  end.
Fixpoint total (ls : list (list Z)) : Z :=
  match ls with [] => 0 | l :: ls => Z.of_nat (length l) + 1 + total ls end.

Definition unbroken (l : list Z) : Prop := 10 ∉ l.

Lemma total_nonneg ls : 0 <= total ls.
Proof. induction ls; simpl; lia. Qed.

Lemma total_app a b : total (a ++ b) = total a + total b.
Proof. induction a; simpl; lia. Qed.

Lemma number_app o a b : number o (a ++ b) = number o a ++ number (o + total a) b.
Proof.
  revert o; induction a as [|l a IH]; intros o; simpl; [by rewrite Z.add_0_r|]. rewrite IH. simpl. do 3 f_equal. lia.
Qed.

Lemma length_file_of ls part : Z.of_nat (length (file_of ls part)) = total ls + Z.of_nat (length part).
Proof.
  unfold file_of. induction ls as [|l ls IH]; [done|]. simpl.
  rewrite <- app_assoc, !length_app in *. simpl in *. lia.
Qed.

Lemma complete_part o acc part : unbroken part -> complete o acc part = ([], o).
Proof.
  unfold unbroken. revert acc; induction part as [|b part IH]; intros acc H; simpl; [done|].
  destruct (Z.eqb_spec b 10) as [->|]; [set_solver|]. apply IH. set_solver.
Qed.

Lemma complete_line o acc l r : unbroken l ->
  complete o acc (l ++ 10 :: r)
  = let '(ls, c) := complete (o + Z.of_nat (length acc) + Z.of_nat (length l) + 1) [] r in
    ((o, rev acc ++ l) :: ls, c).
Proof.
  unfold unbroken. revert acc; induction l as [|b l IH]; intros acc H; simpl.
  - rewrite app_nil_r, Z.add_0_r. done.
  - destruct (Z.eqb_spec b 10) as [->|]; [set_solver|]. rewrite IH by set_solver.
    cbn [length rev]. rewrite <- app_assoc. simpl. by replace (o + Z.of_nat (S (length acc)) + Z.of_nat (length l) + 1)
      with (o + Z.of_nat (length acc) + Z.of_nat (S (length l)) + 1) by lia.
Qed.

Lemma complete_file o ls part :
  Forall unbroken ls -> unbroken part ->
  complete o [] (file_of ls part) = (number o ls, o + total ls).
Proof.
  intros H Hp. unfold file_of. revert o; induction H as [|l ls Hl _ IH]; intros o; simpl.
  - rewrite complete_part, Z.add_0_r by done. done.
  - rewrite <- !app_assoc. simpl. rewrite complete_line by done. simpl length. rewrite IH. simpl.
    f_equal; [|lia]. do 2 f_equal. lia.
Qed.

Lemma file_split bs : exists ls part, bs = file_of ls part /\ Forall unbroken ls /\ unbroken part.
Proof.
  induction bs as [|b bs (ls&part&->&Hl&Hp)]; [exists [], []; repeat split; [constructor|unfold unbroken; set_solver]|].
  destruct (Z.eq_dec b 10) as [->|Hb].
  - exists ([] :: ls), part. repeat split; [|done]. constructor; [|done]. unfold unbroken. set_solver.
  - destruct ls as [|l ls].
    + exists [], (b :: part). unfold unbroken in *. repeat split; [constructor|set_solver].
    + exists ((b :: l) :: ls), part. inversion_clear Hl. repeat split; [constructor; [|done]|done].
      unfold unbroken in *. set_solver.
Qed.

Lemma file_grows ls part bs :
  Forall unbroken ls -> unbroken part ->
  exists more part', file_of ls part ++ bs = file_of (ls ++ more) part' /\ Forall unbroken (ls ++ more) /\ unbroken part'.
Proof.
  intros Hl Hp. destruct (file_split (part ++ bs)) as (more&part'&E&Hm&Hp'). exists more, part'.
  unfold file_of in *. rewrite flat_map_app, <- !app_assoc, E. split; [done|]. split; [by apply Forall_app|done].
Qed.

Lemma skip_file ls ls' part : skipn (Z.to_nat (total ls)) (file_of (ls ++ ls') part) = file_of ls' part.
Proof.
  unfold file_of. rewrite flat_map_app, <- app_assoc.
  assert (Z.to_nat (total ls) = length (flat_map (fun l => l ++ [10]) ls)) as ->.
  { pose proof (length_file_of ls []) as H. unfold file_of in H. rewrite app_nil_r in H. simpl in H. lia. }
  by rewrite drop_app_length.
Qed.

Lemma number_ge o ls x : x ∈ number o ls -> o <= x.1.
Proof.
  revert o; induction ls as [|l ls IH]; intros o; simpl; [by rewrite elem_of_nil|].
  intros [->|H]%elem_of_cons; [done|]. apply IH in H. lia.
Qed.

Lemma number_NoDup o ls : NoDup (map fst (number o ls)).
Proof.
  revert o; induction ls as [|l ls IH]; intros o; simpl; constructor; [|apply IH].
  intros (x&E&Hin%number_ge)%list_elem_of_fmap. lia.
Qed.

(** ** The store's writes *)

Section Rows.
Context {PR : Primitives}.

(** Every row carries its own key and each key occurs once. *)
Definition keyed (rows : list (str * ConsoleEvent)) : Prop :=
  NoDup (map fst rows) /\ Forall (fun r => r.1 = key_of r.2) rows.

Lemma insert_one_spec rows e :
  keyed rows ->
  keyed (insert_one rows e) /\ key_of e ∈ map fst (insert_one rows e)
  /\ (forall r, r ∈ insert_one rows e <-> r ∈ rows \/ (key_of e ∉ map fst rows /\ r = (key_of e, e))).
Proof.
  intros [Hn Hk]. unfold insert_one. destruct (existsb _ rows) eqn:E.
  - apply existsb_exists in E as (r&Hin%list_elem_of_In&E). apply str_eqb_eq in E.
    assert (key_of e ∈ map fst rows) as Hin' by (rewrite <- E; by apply list_elem_of_fmap_2).
    split; [done|]. split; [done|]. intros r'. split; [by left|]. by intros [?|[? _]].
  - assert (key_of e ∉ map fst rows) as Hno.
    { intros (r&Er&Hin)%list_elem_of_fmap. apply not_true_iff_false in E. apply E, existsb_exists.
      exists r. split; [by apply list_elem_of_In|]. by apply str_eqb_eq. }
    split; [|split].
    + split; [|by apply Forall_app_2; [|repeat constructor]]. rewrite map_app. apply NoDup_app.
      split; [done|]. split; [|apply NoDup_singleton]. by intros k Hk' ->%list_elem_of_singleton.
    + rewrite map_app. apply elem_of_app. right. by left.
    + intros r. rewrite elem_of_app, list_elem_of_singleton. split; [intros [?|?]; [by left|by right]|tauto].
Qed.

Lemma insert_all_spec es rows :
  keyed rows ->
  let rows' := fold_left insert_one es rows in
  keyed rows' /\ (forall e, e ∈ es -> key_of e ∈ map fst rows')
  /\ (forall r, r ∈ rows -> r ∈ rows') /\ (forall r, r ∈ rows' -> r ∈ rows \/ r.2 ∈ es).
Proof.
  revert rows; induction es as [|e es IH]; intros rows Hk; simpl.
  { split; [done|]. split; [intros e He; by apply elem_of_nil in He|]. split; [done|by left]. }
  destruct (insert_one_spec rows e Hk) as (Hk1&Hin&Hr). destruct (IH _ Hk1) as (Hk2&H1&H2&H3).
  split; [done|]. split; [|split].
  - intros e' [->|He]%elem_of_cons; [|by apply H1]. apply list_elem_of_fmap in Hin as (r&Er&Hin).
    rewrite Er. by apply list_elem_of_fmap_2, H2.
  - intros r Hin'. apply H2, Hr. by left.
  - intros r [Hin'|He]%H3; [|right; by constructor]. apply Hr in Hin' as [?|[_ ->]]; [by left|right; left].
Qed.

Lemma apply_quarantines qs s :
  fold_left apply_write (map WQuarantine qs) s = mkStore (events s) (quarantine_rows s ++ qs) (sources s).
Proof.
  revert s; induction qs as [|q qs IH]; intros [ev qr so]; simpl; [by rewrite app_nil_r|].
  rewrite IH. simpl. by rewrite <- app_assoc.
Qed.
End Rows.

(** What serde reads of an event is what the line's object says. *)
Class SchemasLaws `{Schemas} := {
  decode_schema line v e : read_json line = Ok v -> decode_event line = Ok e -> get_str #"schema" v = Some (schema e);
}.

Section Records.
Context {PR : Primitives} {SC : Schemas} {SL : SchemasLaws}.

Lemma parse_valid_version line e : parse_valid line = Ok e -> is_Some (schema_version e).
Proof.
  unfold parse_valid, check_line. destruct (read_json line) as [v|] eqn:Ev; [|done].
  destruct (check_value v) as [ok ver errs] eqn:Ec. destruct ok; [|done]. cbn [valid negb].
  intros Hd%map_err_Ok.
  unfold check_value in Ec. rewrite (decode_schema line v e Ev Hd) in Ec. unfold schema_version.
  destruct (from_schema_str (schema e)); [done|by injection Ec].
Qed.

(** The event a record becomes, when nothing pins its file. *)
Definition event_from (env conn now : str) (r : RawRecord) : option ConsoleEvent :=
  match parse_valid (r_raw r) with
  | Ok e => let! v := schema_version e in
            Some (mkConsole e (mkProvenance env conn (r_file r) (r_offset r) now) (r_raw r) v)
  | Err _ => None
  end.

Definition quarantines_of (qs : list Quarantined) (r : RawRecord) : Prop :=
  exists q, q ∈ qs /\ q_file q = r_file r /\ q_off q = r_offset r /\ q_raw q = r_raw r.

Lemma ingest_records_spec svc conn now rs g :
  pinned svc = ∅ ->
  exists qs,
    ingest_records svc conn now g rs
    = (mkGathered (g_writes g ++ map WQuarantine qs)
         (g_valid g ++ omap (event_from (service_env svc) conn now) rs)
         (fold_left note_offset rs (g_next g)), None)
    /\ forall r, r ∈ rs -> is_ok (parse_valid (r_raw r)) = false -> quarantines_of qs r.
Proof.
  intros Hp. revert g; induction rs as [|r rs IH]; intros g.
  { exists []. simpl. rewrite !app_nil_r. split; [by destruct g|]. intros r Hr. by apply elem_of_nil in Hr. }
  simpl. unfold ingest_record, event_from at 1. destruct (parse_valid (r_raw r)) as [e|report] eqn:Ep.
  - destruct (parse_valid_version _ _ Ep) as [v Ev]. rewrite Ev.
    assert ((let! f := r_file r in pinned svc !! f) = None) as ->
      by (rewrite Hp; destruct (r_file r); [apply lookup_empty|done]).
    destruct (IH (mkGathered (g_writes g)
      (g_valid g ++ [mkConsole e (mkProvenance (service_env svc) conn (r_file r) (r_offset r) now) (r_raw r) v])
      (note_offset (g_next g) r))) as (qs&E&Hq). exists qs. rewrite E. simpl. rewrite <- app_assoc. split; [done|].
    intros r' [->|Hr]%elem_of_cons Hbad; [by rewrite Ep in Hbad|by apply Hq].
  - match goal with |- context [mkQuarantined ?a ?b ?c ?d ?w ?n] => set (q := mkQuarantined a b c d w n) end.
    destruct (IH (mkGathered (g_writes g ++ [WQuarantine q]) (g_valid g) (note_offset (g_next g) r))) as (qs&E&Hq).
    exists (q :: qs). rewrite E. simpl. rewrite <- app_assoc. split; [done|].
    intros r' [->|Hr]%elem_of_cons Hbad; [exists q; split; [left|done]|].
    destruct (Hq r' Hr Hbad) as (q'&Hin&?). exists q'. split; [by right|done].
Qed.
End Records.

(** ** One producer's file through polls, crashes and restarts *)

Section Tail.
Context {PR : Primitives} {SC : Schemas} {SL : SchemasLaws}.
Context (map_order : gmap str Z -> list (str * Z)).
Context (map_order_perm : forall m, Permutation (map_order m) (map_to_list m)).
Context (id path senv : str) (ino : option Z).

Definition fs_of (bs : list Z) : Fs := {[ path := mkFile ino bs true ]}.

(** The producer appends bytes, the console polls, or it dies after [n] writes
    of a poll and is started again. *)
Inductive ing_event : Type :=
| EAppend (bs : list Z)
| EPoll (now : str)
| ECrash (now : str) (n : nat).

Definition ing_fn (st : list Z * IngestService) (e : ing_event) : list Z * IngestService :=
  let '(bs, svc) := st in
  match e with
  | EAppend more => (bs ++ more, svc)
  | EPoll now => (bs, (poll_once map_order svc (fs_of bs) now).2)
  | ECrash now n =>
      (bs, restart (crashed_store map_order svc (fs_of bs) now n) senv (fs_of bs) [(id, path)])
  end.
Definition empty_store : Store := mkStore [] [] ∅.
Definition start : list Z * IngestService := ([], restart empty_store senv (fs_of []) [(id, path)]).

Definition record_of (l : Z * list Z) : RawRecord := mkRaw (from_utf8_lossy l.2) (Some path) (Some l.1).
Definition utf8_line (l : list Z) : Prop := exists s, valid_str s /\ l = str_bytes s.

Lemma utf8_line_len l : utf8_line l -> byte_len (from_utf8_lossy l) = Z.of_nat (length l).
Proof. intros (s&Hs&->). by rewrite from_utf8_lossy_bytes. Qed.

Lemma poll_tail done rest part :
  Forall unbroken rest -> unbroken part ->
  poll (fs_of (file_of (done ++ rest) part)) (mkTail id path (total done))
  = (Ok (map record_of (number (total done) rest)), mkTail id path (total (done ++ rest))).
Proof.
  intros Hr Hp. unfold poll, fs_of. cbn [t_path t_offset t_id]. rewrite lookup_singleton_eq. cbn [f_readable f_bytes negb].
  rewrite length_file_of, total_app. pose proof (total_nonneg done). pose proof (total_nonneg rest).
  destruct (Z.ltb_spec (total done + total rest + Z.of_nat (length part)) (total done)); [lia|].
  destruct (Z.eqb_spec (total done + total rest + Z.of_nat (length part)) (total done)) as [E|].
  - destruct rest as [|l rest]; [by rewrite Z.add_0_r|]. simpl in E. pose proof (total_nonneg rest). lia.
  - by rewrite skip_file, complete_file.
Qed.

Lemma note_offsets o rest x :
  Forall utf8_line rest -> x <= o ->
  fold_left note_offset (map record_of (number o rest)) {[path := x]}
  = {[path := if bool_decide (rest = []) then x else o + total rest]}.
Proof.
  intros Hu. revert o x; induction Hu as [|l rest Hl Hu IH]; intros o x Hx; [done|].
  cbn [number map fold_left]. unfold note_offset at 2. cbn [record_of r_file r_offset r_raw fst snd].
  rewrite lookup_singleton_eq, utf8_line_len, insert_singleton_eq, IH by (done || lia). f_equal.
  rewrite (bool_decide_eq_false_2 (l :: rest = [])) by done. case_bool_decide; subst; simpl; lia.
Qed.

Lemma note_offsets_empty o rest :
  Forall utf8_line rest ->
  fold_left note_offset (map record_of (number o rest)) ∅
  = if bool_decide (rest = []) then ∅ else {[path := o + total rest]}.
Proof.
  intros Hu. destruct rest as [|l rest]; [done|]. inversion_clear Hu as [|?? Hl Hrest].
  cbn [number map fold_left]. unfold note_offset at 2. cbn [record_of r_file r_offset r_raw fst snd].
  rewrite lookup_empty, utf8_line_len, insert_empty, note_offsets by (done || lia). rewrite (bool_decide_eq_false_2 (l :: rest = [])) by done.
  f_equal. case_bool_decide; subst; simpl; lia.
Qed.

Definition offset_writes (bs : list Z) (done rest : list (list Z)) : list write :=
  if bool_decide (rest = []) then []
  else [WOffset path (mkSource (total (done ++ rest)) ino (head_fingerprint (fs_of bs) path (total (done ++ rest))))].

(** What one poll writes. *)
Lemma poll_shape svc done rest part now :
  let bs := file_of (done ++ rest) part in
  tails svc = [mkTail id path (total done)] -> pinned svc = ∅ ->
  Forall unbroken rest -> unbroken part -> Forall utf8_line rest ->
  exists qs,
    poll_writes map_order svc (fs_of bs) now
    = (map WQuarantine qs
       ++ WInsert (omap (event_from (service_env svc) id now) (map record_of (number (total done) rest)))
          :: offset_writes bs done rest,
       None, [mkTail id path (total (done ++ rest))])
    /\ forall l, l ∈ number (total done) rest -> is_ok (parse_valid (from_utf8_lossy l.2)) = false ->
         quarantines_of qs (record_of l).
Proof.
  intros bs Ht Hp Hr Hpart Hu. unfold poll_writes. rewrite Ht. cbn [ingest_sources].
  unfold bs. rewrite poll_tail by done. cbn [t_id].
  destruct (ingest_records_spec svc id now (map record_of (number (total done) rest)) (mkGathered [] [] ∅) Hp)
    as (qs&E&Hq). rewrite E. cbn [ingest_sources g_writes g_valid g_next app]. exists qs. split.
  - do 4 f_equal. rewrite note_offsets_empty by done. unfold offset_writes. case_bool_decide.
    + assert (map_order ∅ = []) as -> by (apply Permutation_nil; by rewrite map_order_perm, map_to_list_empty). done.
    + assert (map_order {[path := total done + total rest]} = [(path, total done + total rest)]) as ->.
      { apply Permutation_singleton_r. by rewrite map_order_perm, map_to_list_singleton. }
      simpl. unfold offset_write, inode_of, fs_of. cbn [fst snd]. rewrite lookup_singleton_eq, total_app. done.
  - intros l Hl Hbad. apply Hq; [by apply list_elem_of_fmap_2|done].
Qed.

(** *** The invariant *)

Definition line_key (l : Z * list Z) : str := dedupe_key senv (Some path) (Some l.1) (from_utf8_lossy l.2).
Definition conforms (l : Z * list Z) : bool := is_ok (parse_valid (from_utf8_lossy l.2)).

(** The row is one of the conforming lines of [ls]. *)
Definition row_of (ls : list (list Z)) (r : str * ConsoleEvent) : Prop :=
  exists l, l ∈ number 0 ls /\ conforms l = true
    /\ env (provenance r.2) = senv /\ p_file (provenance r.2) = Some path
    /\ p_offset (provenance r.2) = Some l.1 /\ raw r.2 = from_utf8_lossy l.2
    /\ parse_valid (raw r.2) = Ok (event r.2).

(** The line is in the store: an event if it conforms, quarantined if not. *)
Definition kept (s : Store) (l : Z * list Z) : Prop :=
  if conforms l then line_key l ∈ map fst (events s) else quarantines_of (quarantine_rows s) (record_of l).

Definition journal_at (bs : list Z) (done : list (list Z)) (s : Store) : Prop :=
  sources s !! path = None /\ done = []
  \/ sources s !! path
     = Some (mkSource (total done) ino (head_fingerprint (fs_of bs) path (total done))).

Definition store_inv (bs : list Z) (ls done : list (list Z)) (s : Store) : Prop :=
  keyed (events s) /\ Forall (row_of ls) (events s)
  /\ (forall l, l ∈ number 0 done -> kept s l) /\ journal_at bs done s.

Definition svc_inv (st : list Z * IngestService) : Prop :=
  exists done rest part,
    st.1 = file_of (done ++ rest) part /\ Forall unbroken (done ++ rest) /\ unbroken part
    /\ store_inv st.1 (done ++ rest) done (store st.2)
    /\ tails st.2 = [mkTail id path (total done)] /\ service_env st.2 = senv /\ pinned st.2 = ∅.

Lemma head_fingerprint_grows bs more o :
  o <= Z.of_nat (length bs) ->
  head_fingerprint (fs_of (bs ++ more)) path o = head_fingerprint (fs_of bs) path o.
Proof.
  intros Ho. unfold head_fingerprint, fs_of. destruct (Z.eqb_spec o 0); [done|].
  rewrite !lookup_singleton_eq. cbn [f_readable f_bytes negb orb]. rewrite length_app.
  destruct (Z.ltb_spec (Z.of_nat (length bs + length more)) o), (Z.ltb_spec (Z.of_nat (length bs)) o); try lia.
  rewrite firstn_app. replace (_ - length bs)%nat with 0%nat by (unfold HEAD_FINGERPRINT_BYTES; lia).
  by rewrite app_nil_r.
Qed.

Lemma row_of_grows ls more r : row_of ls r -> row_of (ls ++ more) r.
Proof. intros (l&Hl&?). exists l. rewrite number_app, elem_of_app. split; [by left|done]. Qed.

Lemma append_inv bs svc more : svc_inv (bs, svc) -> svc_inv (bs ++ more, svc).
Proof.
  intros (done&rest&part&E&Hl&Hp&(H1&H2&H3&H4)&Ht&He&Hpin). simpl in *.
  destruct (file_grows _ _ more Hl Hp) as (new&part'&Eg&Hl'&Hp').
  exists done, (rest ++ new), part'. simpl. rewrite app_assoc, <- Eg, <- E. split; [done|]. split; [done|].
  split; [done|]. split; [|done]. split; [done|]. split; [|split; [done|]].
  - eapply Forall_impl; [exact H2|]. intros r. apply row_of_grows.
  - destruct H4 as [H4|H4]; [by left|right]. rewrite head_fingerprint_grows; [done|].
    rewrite E, length_file_of, total_app. pose proof (total_nonneg rest). lia.
Qed.

Lemma kept_mono s s' l :
  (forall r, r ∈ events s -> r ∈ events s') -> (forall q, q ∈ quarantine_rows s -> q ∈ quarantine_rows s') ->
  kept s l -> kept s' l.
Proof.
  intros He Hq. unfold kept. destruct (conforms l).
  - intros (r&->&Hin)%list_elem_of_fmap. by apply list_elem_of_fmap_2, He.
  - intros (q&Hin&?). exists q. split; [by apply Hq|done].
Qed.

Lemma event_from_row done rest now e :
  e ∈ omap (event_from senv id now) (map record_of (number (total done) rest)) ->
  row_of (done ++ rest) (key_of e, e).
Proof.
  intros (r&(l&->&Hin)%list_elem_of_fmap&E)%list_elem_of_omap. unfold event_from in E. cbn [record_of r_raw] in E.
  destruct (parse_valid _) as [ev|] eqn:Ep; [|done]. destruct (schema_version ev); [|done]. injection E as <-.
  exists l. unfold conforms. rewrite Ep, number_app, elem_of_app. cbn. split; [by right|]. by repeat split.
Qed.

Lemma event_from_key done rest now l :
  l ∈ number (total done) rest -> conforms l = true ->
  exists e, e ∈ omap (event_from senv id now) (map record_of (number (total done) rest)) /\ key_of e = line_key l.
Proof.
  intros Hin Hc. unfold conforms in Hc. destruct (parse_valid (from_utf8_lossy l.2)) as [ev|] eqn:Ep; [|done].
  destruct (parse_valid_version _ _ Ep) as [v Ev].
  eexists. split; [|shelve]. apply list_elem_of_omap. exists (record_of l). split; [by apply list_elem_of_fmap_2|].
  unfold event_from. cbn [record_of r_raw r_file r_offset]. rewrite Ep, Ev. reflexivity.
  Unshelve. reflexivity.
Qed.

(** The store after all the writes of a poll, and after any of them. *)
Lemma writes_inv s done rest part qs now n :
  let bs := file_of (done ++ rest) part in
  store_inv bs (done ++ rest) done s ->
  (forall l, l ∈ number (total done) rest -> is_ok (parse_valid (from_utf8_lossy l.2)) = false ->
     quarantines_of qs (record_of l)) ->
  let ws := map WQuarantine qs
            ++ WInsert (omap (event_from senv id now) (map record_of (number (total done) rest)))
               :: offset_writes bs done rest in
  store_inv bs (done ++ rest) (done ++ rest) (fold_left apply_write ws s)
  /\ (store_inv bs (done ++ rest) done (fold_left apply_write (firstn n ws) s)
      \/ store_inv bs (done ++ rest) (done ++ rest) (fold_left apply_write (firstn n ws) s)).
Proof.
  intros bs Hinv Hq ws. pose proof Hinv as (H1&H2&H3&H4).
  set (es := omap _ _) in ws. set (s1 := mkStore (events s) (quarantine_rows s ++ qs) (sources s)).
  assert (forall k, store_inv bs (done ++ rest) done
            (mkStore (events s) (quarantine_rows s ++ firstn k qs) (sources s))) as Hquar.
  { intros k. split; [done|]. split; [done|]. split; [|done]. intros l Hl. eapply kept_mono; [..|by apply H3];
      [done|]. simpl. intros q Hin. apply elem_of_app. by left. }
  destruct (insert_all_spec es (events s) H1) as (K1&K2&K3&K4).
  set (s2 := mkStore (fold_left insert_one es (events s)) (quarantine_rows s ++ qs) (sources s)).
  assert (forall l, l ∈ number 0 (done ++ rest) -> kept s2 l) as Hkept.
  { intros l. rewrite number_app, elem_of_app. intros [Hl|Hl].
    - eapply kept_mono; [..|by apply H3]; [done|]. simpl. intros q Hin. apply elem_of_app. by left.
    - unfold kept. destruct (conforms l) eqn:Ec.
      + destruct (event_from_key done rest now l Hl Ec) as (e&He&<-). simpl. by apply K2.
      + destruct (Hq l Hl Ec) as (q&Hin&?). exists q. simpl. rewrite elem_of_app. split; [by right|done]. }
  assert (Forall (row_of (done ++ rest)) (events s2)) as Hrows.
  { apply Forall_forall. intros r Hin. simpl in Hin. pose proof Hin as Hr. apply K4 in Hr as [Hr|Hr].
    - rewrite Forall_forall in H2. by apply H2.
    - apply event_from_row in Hr. destruct r as [k e]. destruct K1 as [_ Hk]. rewrite Forall_forall in Hk.
      rewrite (Hk _ Hin : k = key_of e). done. }
  assert (fold_left apply_write (map WQuarantine qs ++ [WInsert es]) s = s2) as E2.
  { rewrite fold_left_app, apply_quarantines. done. }
  assert (store_inv bs (done ++ rest) done s2) as Hs2.
  { split; [done|]. split; [done|]. split; [|done]. intros l Hl. apply Hkept. rewrite number_app, elem_of_app. by left. }
  assert (store_inv bs (done ++ rest) (done ++ rest) (fold_left apply_write ws s)) as Hfull.
  { unfold ws. change (WInsert es :: ?l) with ([WInsert es] ++ l). rewrite app_assoc, fold_left_app, E2.
    unfold offset_writes. case_bool_decide as Hr.
    - subst rest. rewrite app_nil_r in *. exact Hs2.
    - simpl. split; [done|]. split; [done|]. split; [exact Hkept|]. right. simpl. by rewrite lookup_insert_eq. }
  split; [exact Hfull|].
  destruct (Nat.le_gt_cases n (length qs)) as [Hn|Hn].
  - left. unfold ws. rewrite take_app_le by (by rewrite length_map). rewrite firstn_map, apply_quarantines. apply Hquar.
  - destruct (decide (n = S (length qs))) as [->|Hne].
    + left. unfold ws. change (WInsert es :: ?l) with ([WInsert es] ++ l). rewrite app_assoc, take_app_le
        by (rewrite length_app, length_map; simpl; lia).
      rewrite take_ge by (rewrite length_app, length_map; simpl; lia). by rewrite E2.
    + right. rewrite take_ge; [exact Hfull|]. unfold ws, offset_writes. rewrite length_app, length_map.
      case_bool_decide; simpl; lia.
Qed.

Lemma resume_at bs done s : journal_at bs done s -> resume_offset s (fs_of bs) path = total done.
Proof.
  intros [[E ->]|E]; unfold resume_offset; rewrite E; [done|]. cbn [inode head_sha offset].
  assert (inode_of (fs_of bs) path = ino) as -> by (unfold inode_of, fs_of; by rewrite lookup_singleton_eq).
  assert (match ino, ino with Some a, Some b => negb (a =? b) | _, _ => false end = false) as ->
    by (destruct ino; [by rewrite Z.eqb_refl|done]).
  destruct (head_fingerprint _ _ _); [by rewrite str_eqb_refl|done].
Qed.

(** Every complete line of the file is UTF-8. *)
Definition utf8_file (bs : list Z) : Prop := Forall (fun l => utf8_line l.2) (complete 0 [] bs).1.

Lemma utf8_lines_of ls part :
  Forall unbroken ls -> unbroken part -> utf8_file (file_of ls part) -> Forall utf8_line ls.
Proof.
  intros Hl Hp. unfold utf8_file. rewrite complete_file by done. simpl. generalize 0.
  clear Hl. induction ls as [|l ls IH]; intros o H; constructor; inversion_clear H; [done|by eapply IH].
Qed.

Lemma utf8_file_prefix bs more : utf8_file (bs ++ more) -> utf8_file bs.
Proof.
  destruct (file_split bs) as (ls&part&->&Hl&Hp). destruct (file_grows _ _ more Hl Hp) as (new&part'&->&Hl'&Hp').
  unfold utf8_file. rewrite !complete_file by done. simpl. rewrite number_app.
  by intros [H _]%Forall_app.
Qed.

Lemma poll_inv bs svc now :
  utf8_file bs -> svc_inv (bs, svc) ->
  svc_inv (bs, (poll_once map_order svc (fs_of bs) now).2)
  /\ store_inv bs (map snd (complete 0 [] bs).1) (map snd (complete 0 [] bs).1)
       (store (poll_once map_order svc (fs_of bs) now).2).
Proof.
  intros Hu (done&rest&part&E&Hl&Hp&Hinv&Ht&He&Hpin). simpl in *. subst bs.
  pose proof (utf8_lines_of _ _ Hl Hp Hu) as Hul. apply Forall_app in Hul as [_ Hur].
  pose proof Hl as [_ Hr]%Forall_app.
  destruct (poll_shape svc done rest part now Ht Hpin Hr Hp Hur) as (qs&Ew&Hq).
  unfold poll_once. rewrite Ew, He in *. cbn [fst snd].
  destruct (writes_inv (store svc) done rest part qs now 0 Hinv Hq) as [Hfull _].
  rewrite complete_file by done. cbn [fst].
  assert (map snd (number 0 (done ++ rest)) = done ++ rest) as ->.
  { generalize 0, (done ++ rest). clear. intros o ls. revert o; induction ls as [|l ls IH]; intros o; simpl; congruence. }
  split; [|exact Hfull]. exists (done ++ rest), [], part. cbn [fst snd store tails service_env pinned].
  rewrite !app_nil_r. split; [reflexivity|]. split; [exact Hl|]. split; [exact Hp|]. by split.
Qed.

Lemma crash_inv bs svc now n :
  utf8_file bs -> svc_inv (bs, svc) -> svc_inv (ing_fn (bs, svc) (ECrash now n)).
Proof.
  intros Hu (done&rest&part&E&Hl&Hp&Hinv&Ht&He&Hpin). simpl in *. subst bs.
  pose proof (utf8_lines_of _ _ Hl Hp Hu) as Hul. apply Forall_app in Hul as [_ Hur].
  pose proof Hl as [_ Hr]%Forall_app.
  destruct (poll_shape svc done rest part now Ht Hpin Hr Hp Hur) as (qs&Ew&Hq).
  unfold crashed_store. rewrite Ew, He. cbn [fst snd].
  destruct (writes_inv (store svc) done rest part qs now n Hinv Hq) as [_ Hcut].
  unfold restart. cbn [fold_left fst snd]. unfold add_file_source. cbn [tails store service_env pinned app].
  destruct Hcut as [Hcut|Hcut]; pose proof Hcut as (_&_&_&Hj); rewrite (resume_at _ _ _ Hj).
  - exists done, rest, part. cbn [fst snd store tails service_env pinned].
    split; [reflexivity|]. split; [exact Hl|]. split; [exact Hp|]. split; [exact Hcut|]. by split.
  - exists (done ++ rest), [], part. cbn [fst snd store tails service_env pinned]. rewrite !app_nil_r.
    split; [reflexivity|]. split; [exact Hl|]. split; [exact Hp|]. split; [exact Hcut|]. by split.
Qed.

Lemma run_inv es : utf8_file (fold_left ing_fn es start).1 -> svc_inv (fold_left ing_fn es start).
Proof.
  induction es as [|e es IH] using rev_ind; intros Hu.
  - exists [], [], []. cbn. split; [done|]. split; [constructor|]. split; [by apply not_elem_of_nil|].
    split; [|done]. split; [split; constructor|]. split; [constructor|]. split; [|by left].
    intros l Hin. by apply elem_of_nil in Hin.
  - rewrite fold_left_app in *. cbn [fold_left] in *. destruct (fold_left ing_fn es start) as [bs svc] eqn:E.
    destruct e as [more|now|now n]; cbn [ing_fn fst] in *.
    + apply append_inv, IH. by eapply utf8_file_prefix.
    + by apply poll_inv, IH.
    + by apply crash_inv, IH.
Qed.

(** The file, the offset and the text of a conforming line, as a row has them. *)
Definition line_row (l : Z * list Z) : option (option str * option Z * str) :=
  if conforms l then Some (Some path, Some l.1, from_utf8_lossy l.2) else None.
Definition row_line (r : str * ConsoleEvent) : option str * option Z * str :=
  (p_file (provenance r.2), p_offset (provenance r.2), raw r.2).

(** No two lines of the file have the same dedupe key. *)
Definition distinct_keys (bs : list Z) : Prop :=
  forall l l', l ∈ (complete 0 [] bs).1 -> l' ∈ (complete 0 [] bs).1 -> line_key l = line_key l' -> l = l'.


Lemma NoDup_map_on {A B} (f : A -> B) l :
  NoDup l -> (forall a b, a ∈ l -> b ∈ l -> f a = f b -> a = b) -> NoDup (map f l).
Proof.
  intros Hn Hf. induction Hn as [|a l Ha Hn IH]; simpl; constructor.
  - intros (b&E&Hb)%list_elem_of_fmap. apply Hf in E; [by subst|by left|by right].
  - apply IH. intros b c Hb Hc. apply Hf; by right.
Qed.

Lemma keyed_NoDup rows : keyed rows -> NoDup rows.
Proof. intros [H _]. by eapply NoDup_fmap_1. Qed.

Lemma line_rows_NoDup xs : NoDup (map fst xs) -> NoDup (omap line_row xs).
Proof.
  induction xs as [|x xs IH]; [constructor|]. cbn [map]. intros [Hx Hn]%NoDup_cons. specialize (IH Hn). simpl.
  unfold line_row at 1. destruct (conforms x); [|exact IH]. constructor; [|exact IH].
  intros (y&Hy&E)%list_elem_of_omap. unfold line_row in E. destruct (conforms y); [|done].
  injection E as E _. apply Hx. rewrite <- E. by apply list_elem_of_fmap_2.
Qed.

(** ** Properties *)

(** C11: every event is stored exactly once.  Whatever is appended to a
    producer's file and however often the console polls it, dies in the middle
    of a poll's writes and starts again, after a poll the stored events are
    exactly the file's complete conforming lines, each once, and every other
    complete line is quarantined, provided the file is UTF-8 and no two of its
    lines share a dedupe key. *)
Theorem every_line_is_stored_once es now :
  let st := fold_left ing_fn (es ++ [EPoll now]) start in
  utf8_file st.1 -> distinct_keys st.1 ->
  Permutation (map row_line (events (store st.2))) (omap line_row (complete 0 [] st.1).1)
  /\ forall l, l ∈ (complete 0 [] st.1).1 -> conforms l = false ->
       quarantines_of (quarantine_rows (store st.2)) (record_of l).
Proof.
  intros st. unfold st. rewrite fold_left_app. cbn [fold_left].
  destruct (fold_left ing_fn es start) as [bs svc] eqn:E. cbn [ing_fn fst snd]. clear st. intros Hu Hd.
  assert (svc_inv (bs, svc)) as Hinv by (rewrite <- E; apply run_inv; by rewrite E).
  destruct (poll_inv bs svc now Hu Hinv) as [_ (H1&H2&H3&_)].
  destruct (file_split bs) as (ls&part&->&Hl&Hp). unfold distinct_keys in Hd.
  rewrite complete_file in * by done. cbn [fst] in *.
  assert (map snd (number 0 ls) = ls) as Els.
  { generalize 0. clear. induction ls as [|l ls IH]; intros o; simpl; congruence. }
  rewrite Els in *. set (s := store _) in *. rewrite Forall_forall in H2. split.
  - apply NoDup_Permutation.
    + apply NoDup_map_on; [by apply keyed_NoDup|]. intros r r' Hr Hr' Er.
      assert (r.1 = r'.1) as Ek.
      { destruct H1 as [_ Hk]. rewrite Forall_forall in Hk. rewrite (Hk r Hr), (Hk r' Hr'). unfold key_of.
        destruct (H2 r Hr) as (?&_&_&Ee&_), (H2 r' Hr') as (?&_&_&Ee'&_). unfold row_line in Er.
        injection Er as -> -> ->. by rewrite Ee, Ee'. }
      destruct H1 as [Hn _]. by eapply NoDup_map_inj.
    + by apply line_rows_NoDup, number_NoDup.
    + intros x. rewrite list_elem_of_omap. split.
      * intros (r&->&Hr)%list_elem_of_fmap. destruct (H2 r Hr) as (l&Hl'&Hc&_&Ef&Eo&Er&_). exists l.
        split; [done|]. unfold line_row, row_line. by rewrite Hc, Ef, Eo, Er.
      * intros (l&Hin&Hx). unfold line_row in Hx. destruct (conforms l) eqn:Hc; [|done]. injection Hx as <-.
        pose proof (H3 l Hin) as Hk. unfold kept in Hk. rewrite Hc in Hk.
        apply list_elem_of_fmap in Hk as (r&Ek&Hr). destruct (H2 r Hr) as (l'&Hl'&_&Ee&Ef&Eo&Er&_).
        assert (l = l') as ->.
        { apply Hd; [done..|]. rewrite Ek. destruct H1 as [_ Hk]. rewrite Forall_forall in Hk. rewrite (Hk r Hr).
          unfold key_of, line_key. by rewrite Ee, Ef, Eo, Er. }
        apply list_elem_of_fmap. exists r. split; [|done]. unfold row_line. by rewrite Ef, Eo, Er.
  - intros l Hin Hc. specialize (H3 l Hin). unfold kept in H3. by rewrite Hc in H3.
Qed.
End Tail.

(** ** Witnesses *)

#[local] Existing Instance demo_primitives.

(** A line conforms when it is [{e}]. *)
Definition demo_line : str := #"{e}".
Definition demo_event : AgentEvent :=
  mkEvent (schema_as_str V1_0) #"2026-01-01T00:00:00Z" #"wardryx" #"policy_deny" #"agent://acme/ops/bot" None None
    [] None None [].
Definition demo_schemas : Schemas := {|
  read_json := fun l => if str_eqb l demo_line then Ok (obj [(#"schema", VStr (schema_as_str V1_0))]) else Err #"eof";
  is_valid := fun _ _ => true;
  iter_errors := fun _ _ => [];
  decode_event := fun l => if str_eqb l demo_line then Ok demo_event else Err #"eof";
  debug_str := fun s => s |}.
#[local] Existing Instance demo_schemas.
#[local] Instance demo_schemas_laws : SchemasLaws.
Proof.
  split. intros line v e. simpl. destruct (str_eqb line demo_line); [|done]. by intros [= <-] [= <-].
Qed.

(** Two lines are appended, the console dies after one write of its poll, and
    polls again. *)
Definition demo_bytes : list Z := demo_line ++ [10] ++ #"junk" ++ [10] ++ #"{e".
Definition demo_steps : list ing_event := [EAppend demo_bytes; ECrash #"t1" 2; EAppend [125; 10]].
Definition demo_state : list Z * IngestService :=
  fold_left (ing_fn map_to_list #"tail" #"/bus/w" #"local" (Some 7)) (demo_steps ++ [EPoll #"t2"])
    (start #"tail" #"/bus/w" #"local" (Some 7)).

Lemma every_line_is_stored_once_witness :
  length (events (store demo_state.2)) = 2%nat
  /\ Permutation (map row_line (events (store demo_state.2)))
       (omap (line_row #"/bus/w") (complete 0 [] demo_state.1).1).
Proof.
  split; [vm_compute; reflexivity|].
  apply (every_line_is_stored_once map_to_list (fun m => Permutation_refl _) #"tail" #"/bus/w" #"local" (Some 7)
           demo_steps #"t2").
  - assert ((complete 0 [] demo_state.1).1 = [(0, demo_line); (4, #"junk"); (9, demo_line)]) as E
      by (vm_compute; reflexivity).
    unfold utf8_file. change (Forall (fun l => utf8_line l.2) (complete 0 [] demo_state.1).1). rewrite E.
    repeat constructor; [exists demo_line|exists #"junk"|exists demo_line]; split; try reflexivity; repeat constructor.
  - change (forall l l', l ∈ (complete 0 [] demo_state.1).1 -> l' ∈ (complete 0 [] demo_state.1).1 ->
      line_key #"/bus/w" #"local" l = line_key #"/bus/w" #"local" l' -> l = l').
    assert ((complete 0 [] demo_state.1).1 = [(0, demo_line); (4, #"junk"); (9, demo_line)]) as E
      by (vm_compute; reflexivity).
    rewrite E. intros l l' Hl Hl'.
    rewrite !elem_of_cons, elem_of_nil in Hl, Hl'.
    destruct Hl as [->|[->|[->|[]]]], Hl' as [->|[->|[->|[]]]]; intros Hk; try reflexivity;
      vm_compute in Hk; discriminate Hk.
Defined.

(** A line of two bytes that are not UTF-8, then an event. *)
Definition lossy_steps : list ing_event :=
  [EAppend [255; 255; 10]; EPoll #"t1"; EAppend (demo_line ++ [10]); ECrash #"t2" 0; EPoll #"t3"].
Definition lossy_state (steps : list ing_event) : list Z * IngestService :=
  fold_left (ing_fn map_to_list #"tail" #"/bus/w" #"local" (Some 7)) steps (start #"tail" #"/bus/w" #"local" (Some 7)).

(** An invalid byte loses an event.  The journaled offset counts the
    replacement characters and not the bytes read, so after a restart the tail
    resumes past the start of the next line: a complete conforming line of the
    file is in neither table, although the console has polled since. *)
Theorem invalid_byte_loses_an_event :
  let st := lossy_state lossy_steps in
  (3, demo_line) ∈ (complete 0 [] st.1).1 /\ conforms (3, demo_line) = true
  /\ events (store st.2) = [] /\ length (quarantine_rows (store st.2)) = 1%nat
  /\ t_offset (nth 0 (tails st.2) (mkTail [] [] 0)) = Z.of_nat (length st.1).
Proof.
  split; [apply list_elem_of_In; vm_compute; tauto|]. repeat split; vm_compute; reflexivity.
Qed.
