(* ===== verification/Sse.v ===== *)
(** * Sse: the Server-Sent Events decoder ([crates/connectors/src/sse_decoder.rs])

    Bytes in, in whatever chunks the transport gives; complete events out.  The
    decoder's loop consumes at least one byte per turn, so the length of its
    buffer is fuel enough ([feed_loop_fuel]). *)
From S2P Require Import Prelude Text.

Record SseEvent : Type := mkEvent { id : option str; event : option str; data : str }.

Record SseDecoder : Type := mkDecoder
  { buffer : list Z; data_buffer : str; event_type : option str; last_id : option str }.
Definition new : SseDecoder := mkDecoder [] [] None None.

Inductive LineEnd : Type :=
| Found (line_len consumed : nat)
| Incomplete
| NeedsMoreData.

(** The scan, from index [i]. *)
Fixpoint find_from (i : nat) (buf : list Z) : LineEnd :=
  match buf with
  | [] => Incomplete
  | b :: rest =>
      if b =? 10 then Found i (i + 1)
      else if b =? 13 then
        match rest with
        | 10 :: _ => Found i (i + 2)
        | _ :: _ => Found i (i + 1)
        | [] => NeedsMoreData
        end
      else find_from (S i) rest
  end.
Definition find_line_end (buf : list Z) : LineEnd := find_from 0 buf.

Definition ends_in (c : Z) (s : str) : bool :=
  match rev s with c' :: _ => c' =? c | [] => false end.

Definition dispatch (d : SseDecoder) : option SseEvent * SseDecoder :=
  let d1 := mkDecoder (buffer d) (data_buffer d) None (last_id d) in
  if bool_decide (data_buffer d = []) then (None, d1)
  else
    let data := if ends_in 10 (data_buffer d) then removelast (data_buffer d) else data_buffer d in
    (Some (mkEvent (last_id d) (event_type d) data), mkDecoder (buffer d) [] None (last_id d)).

Definition strip_space (v : str) : str := default v (strip_prefix #" " v).

Definition process_line (d : SseDecoder) (line : str) : option SseEvent * SseDecoder :=
  if bool_decide (line = []) then dispatch d
  else if starts_with #":" line then (None, d)
  else
    let '(field, value) := match split_once #":" line with
                           | Some (f, raw) => (f, strip_space raw)
                           | None => (line, [])
                           end in
    if str_eqb field #"data"
    then (None, mkDecoder (buffer d) (data_buffer d ++ value ++ [10]) (event_type d) (last_id d))
    else if str_eqb field #"event"
    then (None, mkDecoder (buffer d) (data_buffer d) (Some value) (last_id d))
    else if str_eqb field #"id" && negb (contains [0] value)
    then (None, mkDecoder (buffer d) (data_buffer d) (event_type d) (Some value))
    else (None, d).

Definition set_buffer (d : SseDecoder) (b : list Z) : SseDecoder :=
  mkDecoder b (data_buffer d) (event_type d) (last_id d).

Definition push_event (e : option SseEvent) (es : list SseEvent) : list SseEvent :=
  match e with Some e => e :: es | None => es end.

(** The loop of [feed]. *)
Fixpoint feed_loop (fuel : nat) (d : SseDecoder) : list SseEvent * SseDecoder :=
  match fuel with
  | O => ([], d)
  | S fuel =>
      match find_line_end (buffer d) with
      | Incomplete | NeedsMoreData => ([], d)
      | Found line_len consumed =>
          let line := from_utf8_lossy (firstn line_len (buffer d)) in
          let d := set_buffer d (skipn consumed (buffer d)) in
          let '(e, d) := process_line d line in
          let '(es, d) := feed_loop fuel d in
          (push_event e es, d)
      end
  end.

Definition feed (d : SseDecoder) (chunk : list Z) : list SseEvent * SseDecoder :=
  let d := set_buffer d (buffer d ++ chunk) in
  feed_loop (S (length (buffer d))) d.

(** A connection: the chunks one after the other. *)
Fixpoint feed_all (d : SseDecoder) (chunks : list (list Z)) : list SseEvent * SseDecoder :=
  match chunks with
  | [] => ([], d)
  | c :: cs => let '(es, d) := feed d c in let '(es', d) := feed_all d cs in (es ++ es', d)
  end.

(** ** Lemmas *)

Definition waiting (buf : list Z) : Prop :=
  match find_line_end buf with Found _ _ => False | _ => True end.

Lemma find_from_shift i buf :
  find_from i buf = match find_from 0 buf with
                    | Found l c => Found (i + l) (i + c)
                    | r => r
                    end.
Proof.
  revert i; induction buf as [|b rest IH]; intros i; [done|]. simpl.
  destruct (b =? 10); [f_equal; lia|]. destruct (b =? 13).
  - destruct rest as [|c rest]; [done|]. repeat case_match; simplify_eq; try done; f_equal; lia.
  - rewrite (IH (S i)), (IH 1%nat). destruct (find_from 0 rest); try done. f_equal; lia.
Qed.

Lemma find_Found buf l c :
  find_line_end buf = Found l c -> (l < c <= length buf)%nat.
Proof.
  unfold find_line_end. revert l c; induction buf as [|b rest IH]; intros l c; simpl; [done|].
  destruct (b =? 10); [intros [= <- <-]; lia|]. destruct (b =? 13).
  - destruct rest as [|x rest]; [done|]. simpl. repeat case_match; intros [= <- <-]; lia.
  - rewrite find_from_shift. destruct (find_from 0 rest) as [l' c'| |] eqn:E; try done.
    intros [= <- <-]. destruct (IH l' c' eq_refl). lia.
Qed.

(** More bytes do not move a line end that was found. *)
Lemma find_app buf more l c :
  find_line_end buf = Found l c -> find_line_end (buf ++ more) = Found l c.
Proof.
  unfold find_line_end. revert l c; induction buf as [|b rest IH]; intros l c; simpl; [done|].
  destruct (b =? 10); [done|]. destruct (b =? 13).
  - by destruct rest as [|x rest].
  - rewrite find_from_shift, (find_from_shift 1 (rest ++ more)).
    destruct (find_from 0 rest) as [l' c'| |]; try done. intros [= <- <-]. by rewrite (IH l' c').
Qed.

Lemma process_buffer d line : buffer (process_line d line).2 = buffer d.
Proof. unfold process_line, dispatch. repeat case_match; simplify_eq; done. Qed.

Lemma process_set_buffer d line b :
  process_line (set_buffer d b) line = ((process_line d line).1, set_buffer (process_line d line).2 b).
Proof. unfold process_line, dispatch, set_buffer. simpl. repeat case_match; simplify_eq; done. Qed.

Lemma feed_loop_fuel f f' d :
  (length (buffer d) < f)%nat -> (length (buffer d) < f')%nat -> feed_loop f d = feed_loop f' d.
Proof.
  revert f' d; induction f as [|f IH]; intros [|f'] d Hf Hf'; try lia. simpl.
  destruct (find_line_end (buffer d)) as [l c| |] eqn:E; [|done..]. apply find_Found in E as Hlc.
  destruct (process_line _ _) as [e d1] eqn:Ep.
  assert (buffer d1 = skipn c (buffer d)) as Hb.
  { change d1 with (e, d1).2. rewrite <- Ep, process_buffer. done. }
  rewrite (IH f' d1); [done|..]; rewrite Hb, length_skipn; lia.
Qed.

(** After [feed] no complete line is left in the buffer. *)
Lemma feed_loop_waiting f d :
  (length (buffer d) < f)%nat -> waiting (buffer (feed_loop f d).2).
Proof.
  revert d; induction f as [|f IH]; intros d Hf; [lia|]. simpl. unfold waiting.
  destruct (find_line_end (buffer d)) as [l c| |] eqn:E; simpl; [|by rewrite E..].
  apply find_Found in E as Hlc. destruct (process_line _ _) as [e d1] eqn:Ep.
  assert (buffer d1 = skipn c (buffer d)) as Hb.
  { change d1 with (e, d1).2. rewrite <- Ep, process_buffer. done. }
  destruct (feed_loop f d1) as [es d2] eqn:Ef. change d2 with (es, d2).2. rewrite <- Ef.
  apply IH. rewrite Hb, length_skipn. lia.
Qed.

Lemma feed_waiting d c : waiting (buffer (feed d c).2).
Proof. apply feed_loop_waiting. simpl. lia. Qed.

Lemma feed_loop_waits f d : waiting (buffer d) -> feed_loop f d = ([], d).
Proof. unfold waiting. destruct f; [done|]. simpl. by destruct (find_line_end (buffer d)). Qed.

Lemma push_event_app e es es' : push_event e (es ++ es') = push_event e es ++ es'.
Proof. by destruct e. Qed.

(** The loop with the fuel [feed] gives it, and its unfolding. *)
Definition drain (d : SseDecoder) : list SseEvent * SseDecoder := feed_loop (S (length (buffer d))) d.

Lemma drain_eq d :
  drain d = match find_line_end (buffer d) with
            | Found l c =>
                let '(e, d1) := process_line d (from_utf8_lossy (firstn l (buffer d))) in
                let '(es, d2) := drain (set_buffer d1 (skipn c (buffer d))) in
                (push_event e es, d2)
            | _ => ([], d)
            end.
Proof.
  unfold drain at 1. cbn [feed_loop]. destruct (find_line_end (buffer d)) as [l c| |] eqn:E; [|done..].
  apply find_Found in E as Hlc. rewrite process_set_buffer.
  destruct (process_line d _) as [e d1]. cbn [fst snd]. unfold drain.
  rewrite (feed_loop_fuel (length (buffer d)) (S (length (buffer (set_buffer d1 (skipn c (buffer d)))))));
    [done|simpl; rewrite length_skipn; lia..].
Qed.

Lemma feed_drain d chunk : feed d chunk = drain (set_buffer d (buffer d ++ chunk)).
Proof. done. Qed.

(** Draining a longer buffer is draining its beginning, then what that left
    with the rest. *)
Lemma drain_app d more :
  drain (set_buffer d (buffer d ++ more)) =
    let '(es, d1) := drain d in
    let '(es', d2) := drain (set_buffer d1 (buffer d1 ++ more)) in
    (es ++ es', d2).
Proof.
  remember (length (buffer d)) as n eqn:Hn. revert d Hn.
  induction n as [n IH] using lt_wf_ind. intros d Hn. rewrite (drain_eq d).
  destruct (find_line_end (buffer d)) as [l c| |] eqn:E;
    [|by destruct (drain (set_buffer d (buffer d ++ more)))..].
  apply find_Found in E as Hlc. rewrite drain_eq. cbn [buffer set_buffer].
  rewrite (find_app _ _ _ _ E), take_app_le, drop_app_le by lia.
  rewrite process_set_buffer. destruct (process_line d _) as [e d0]. cbn [fst snd].
  set (d1 := set_buffer d0 (skipn c (buffer d))).
  change (set_buffer (set_buffer d0 _) (skipn c (buffer d) ++ more))
    with (set_buffer d1 (buffer d1 ++ more)).
  rewrite (IH (length (buffer d1))); [|unfold d1; simpl; rewrite length_skipn; lia|done].
  destruct (drain d1) as [es d2]. destruct (drain (set_buffer d2 _)) as [es' d3].
  by rewrite push_event_app.
Qed.

Lemma feed_app d a b :
  feed d (a ++ b) = let '(es, d1) := feed d a in let '(es', d2) := feed d1 b in (es ++ es', d2).
Proof.
  rewrite !feed_drain. rewrite app_assoc.
  change (set_buffer d ((buffer d ++ a) ++ b))
    with (set_buffer (set_buffer d (buffer d ++ a)) (buffer (set_buffer d (buffer d ++ a)) ++ b)).
  rewrite drain_app. by destruct (drain _) as [es d1].
Qed.

Lemma set_buffer_id d : set_buffer d (buffer d) = d.
Proof. by destruct d. Qed.

Lemma feed_nil d : waiting (buffer d) -> feed d [] = ([], d).
Proof.
  intros H. rewrite feed_drain, app_nil_r, set_buffer_id. unfold drain. by apply feed_loop_waits.
Qed.

(** A line without a terminator in it is read as one line. *)
Lemma find_line l rest :
  Forall (fun b => b <> 10 /\ b <> 13) l ->
  find_line_end (l ++ 10 :: rest) = Found (length l) (S (length l)).
Proof.
  unfold find_line_end. induction 1 as [|b l [H1 H2] _ IH]; [done|]. simpl.
  destruct (Z.eqb_spec b 10); [done|]. destruct (Z.eqb_spec b 13); [done|].
  rewrite find_from_shift, IH. done.
Qed.

Lemma bytes_no_newline s :
  valid_str s -> 10 ∉ s -> 13 ∉ s -> Forall (fun b => b <> 10 /\ b <> 13) (str_bytes s).
Proof.
  intros Hv H10 H13. unfold str_bytes. apply List.Forall_forall. intros b Hb.
  apply in_flat_map in Hb as (c&Hc&Hb). apply list_elem_of_In in Hc.
  assert (c <> 10 /\ c <> 13) as [? ?] by (split; by intros ->).
  unfold valid_str in Hv. rewrite List.Forall_forall in Hv.
  pose proof (Hv c ltac:(by apply list_elem_of_In)) as Hsc.
  unfold is_scalar in Hsc. b2p. unfold utf8_enc in Hb.
  repeat case_match; b2p; simpl in Hb; destruct_or?; subst; try done; Z.div_mod_to_equations; lia.
Qed.

Lemma drain_line d s rest :
  valid_str s -> 10 ∉ s -> 13 ∉ s ->
  drain (set_buffer d (str_bytes s ++ 10 :: rest)) =
    let '(e, d1) := process_line d s in
    let '(es, d2) := drain (set_buffer d1 rest) in (push_event e es, d2).
Proof.
  intros Hv H10 H13. rewrite drain_eq. cbn [buffer set_buffer].
  rewrite find_line by (by apply bytes_no_newline).
  rewrite take_app_length, from_utf8_lossy_bytes by done.
  change (str_bytes s ++ 10 :: rest) with (str_bytes s ++ [10] ++ rest). rewrite app_assoc.
  rewrite drop_app_length' by (rewrite length_app; simpl; lia).
  rewrite process_set_buffer. by destruct (process_line d s) as [e d1].
Qed.

(** ** The stream a server writes *)

Definition event_lines (e : SseEvent) : list str :=
  match id e with Some i => [ #"id: " ++ i] | None => [] end
  ++ match event e with Some t => [ #"event: " ++ t] | None => [] end
  ++ map (fun l => #"data: " ++ l) (split_char 10 (data e)) ++ [[]].
Definition wire (e : SseEvent) : list Z := flat_map (fun l => str_bytes l ++ [10]) (event_lines e).

(** An event the format can carry. *)
Definition plain (s : str) : Prop := valid_str s /\ 10 ∉ s /\ 13 ∉ s.
Definition writable (e : SseEvent) : Prop :=
  valid_str (data e) /\ 13 ∉ data e
  /\ match id e with Some i => plain i /\ 0 ∉ i | None => True end
  /\ match event e with Some t => plain t | None => True end.

(** An event without an id carries the last one. *)
Definition or_last (i last : option str) : option str := match i with Some _ => i | None => last end.
Fixpoint sticky (last : option str) (es : list SseEvent) : list SseEvent :=
  match es with
  | [] => []
  | e :: es => mkEvent (or_last (id e) last) (event e) (data e) :: sticky (or_last (id e) last) es
  end.

Lemma plain_lit a s :
  forallb (fun c => (0 <=? c) && (c <? 128) && negb (c =? 10) && negb (c =? 13)) a = true ->
  plain s -> plain (a ++ s).
Proof.
  intros Ha (Hv&H1&H2). rewrite forallb_Forall in Ha. split; [|split].
  - apply Forall_app. split; [|done]. eapply Forall_impl; [exact Ha|]. intros c Hc. simpl in Hc.
    unfold is_scalar. b2p. lia.
  - intros [Hin|Hin]%elem_of_app; [|done]. rewrite List.Forall_forall in Ha.
    apply list_elem_of_In, Ha in Hin. done.
  - intros [Hin|Hin]%elem_of_app; [|done]. rewrite List.Forall_forall in Ha.
    apply list_elem_of_In, Ha in Hin. done.
Qed.

Lemma process_id d i : 0 ∉ i ->
  process_line d (#"id: " ++ i) = (None, mkDecoder (buffer d) (data_buffer d) (event_type d) (Some i)).
Proof.
  intros Hi. assert (contains [0] i = false) as Hc.
  { destruct (contains [0] i) eqn:E; [|done]. by apply contains_char in E. }
  unfold process_line. simpl. unfold strip_space. simpl. by rewrite Hc.
Qed.
Lemma process_event d t :
  process_line d (#"event: " ++ t) = (None, mkDecoder (buffer d) (data_buffer d) (Some t) (last_id d)).
Proof. done. Qed.
Lemma process_data d v :
  process_line d (#"data: " ++ v)
  = (None, mkDecoder (buffer d) (data_buffer d ++ v ++ [10]) (event_type d) (last_id d)).
Proof. done. Qed.

Lemma split_char_valid d s w :
  w ∈ split_char d s -> d ∉ w /\ (forall c, c ∈ w -> c ∈ s).
Proof.
  revert w; induction s as [|c s IH]; intros w; simpl.
  - intros ->%list_elem_of_singleton. split; [apply not_elem_of_nil|by intros ? ?%elem_of_nil].
  - destruct (Z.eqb_spec c d) as [->|Hne].
    + intros [->|Hin]%elem_of_cons; [split; [apply not_elem_of_nil|by intros ? ?%elem_of_nil]|].
      destruct (IH _ Hin) as [H1 H2]. split; [done|]. intros. right. auto.
    + destruct (split_char d s) as [|w' ws] eqn:E; [intros ->%list_elem_of_singleton; set_solver|].
      intros [->|Hin]%elem_of_cons.
      * destruct (IH w' ltac:(left)) as [H1 H2]. set_solver.
      * destruct (IH w ltac:(by right)) as [H1 H2]. split; [done|]. intros. right. auto.
Qed.

Lemma split_char_lines s : flat_map (fun l => l ++ [10]) (split_char 10 s) = s ++ [10].
Proof.
  induction s as [|c s IH]; [done|]. simpl. destruct (Z.eqb_spec c 10) as [->|]; simpl; [by rewrite IH|].
  destruct (split_char 10 s) as [|w ws]; simpl in *; [by destruct s|]. by rewrite IH.
Qed.

Lemma silent d1 : (let '(es, d2) := drain d1 in (push_event None es, d2)) = drain d1.
Proof. by destruct (drain d1). Qed.

Lemma drain_data ls d rest :
  Forall plain ls ->
  drain (set_buffer d (flat_map (fun l => str_bytes l ++ [10]) (map (fun l => #"data: " ++ l) ls) ++ rest))
  = drain (set_buffer (mkDecoder (buffer d) (data_buffer d ++ flat_map (fun l => l ++ [10]) ls)
                         (event_type d) (last_id d)) rest).
Proof.
  intros H. revert d; induction H as [|l ls Hl _ IH]; intros d; simpl.
  - rewrite app_nil_r. done.
  - destruct (plain_lit #"data: " l eq_refl Hl) as (Hv&H1&H2).
    etrans; [|etrans; [apply (drain_line d (#"data: " ++ l)
        (flat_map (fun l => str_bytes l ++ [10]) (map (fun l => #"data: " ++ l) ls) ++ rest) Hv H1 H2)|]].
    + simpl. by rewrite <- !app_assoc.
    + rewrite process_data, silent, IH. simpl. by rewrite <- !app_assoc.
Qed.

Lemma drain_wire e last rest :
  writable e ->
  drain (mkDecoder (wire e ++ rest) [] None last) =
    let '(es, d2) := drain (mkDecoder rest [] None (or_last (id e) last)) in
    (mkEvent (or_last (id e) last) (event e) (data e) :: es, d2).
Proof.
  intros (Hv&H13&Hid&Hev). unfold wire, event_lines. rewrite !flat_map_app, <- !app_assoc.
  assert (forall r, drain (mkDecoder (flat_map (fun l => str_bytes l ++ [10])
            match id e with Some i => [ #"id: " ++ i] | None => [] end ++ r) [] None last)
          = drain (mkDecoder r [] None (or_last (id e) last))) as ->.
  { intros r. destruct (id e) as [i|]; [|done]. destruct Hid as [Hp H0].
    destruct (plain_lit #"id: " i eq_refl Hp) as (?&?&?).
    cbn [flat_map]. rewrite app_nil_r, <- app_assoc. cbn [app].
    pose proof (drain_line (mkDecoder [] [] None last) (#"id: " ++ i) r) as Hd.
    rewrite process_id, silent in Hd by done. by apply Hd. }
  set (last' := or_last (id e) last).
  assert (forall r, drain (mkDecoder (flat_map (fun l => str_bytes l ++ [10])
            match event e with Some t => [ #"event: " ++ t] | None => [] end ++ r) [] None last')
          = drain (mkDecoder r [] (event e) last')) as ->.
  { intros r. destruct (event e) as [t|]; [|done].
    destruct (plain_lit #"event: " t eq_refl Hev) as (?&?&?).
    cbn [flat_map]. rewrite app_nil_r, <- app_assoc. cbn [app].
    pose proof (drain_line (mkDecoder [] [] None last') (#"event: " ++ t) r) as Hd.
    rewrite process_event, silent in Hd. by apply Hd. }
  assert (Forall plain (split_char 10 (data e))) as Hls.
  { apply List.Forall_forall. intros w Hw. apply list_elem_of_In, split_char_valid in Hw as [Hw Hin].
    split; [|split; [done|by intros ?%Hin]].
    unfold valid_str in *. rewrite List.Forall_forall in *. intros c Hc.
    apply Hv, list_elem_of_In, Hin. by apply list_elem_of_In. }
  etrans; [exact (drain_data _ (mkDecoder [] [] (event e) last')
             (flat_map (fun l => str_bytes l ++ [10]) [[]] ++ rest) Hls)|].
  rewrite split_char_lines. cbn [data_buffer event_type Sse.last_id app].
  etrans; [apply (drain_line (mkDecoder [] (data e ++ [10]) (event e) last') [] rest);
           [constructor|apply not_elem_of_nil..]|].
  unfold process_line, dispatch. simpl. rewrite bool_decide_eq_false_2 by (by destruct (data e)).
  unfold ends_in. rewrite rev_app_distr. simpl. by rewrite removelast_last.
Qed.

Lemma feed_all_concat d chunks :
  waiting (buffer d) -> feed_all d chunks = feed d (concat chunks).
Proof.
  revert d; induction chunks as [|c cs IH]; intros d Hw; cbn [feed_all concat].
  - by rewrite feed_nil.
  - rewrite feed_app. pose proof (feed_waiting d c) as Hw1. destruct (feed d c) as [es d1].
    by rewrite IH.
Qed.

Lemma drain_wires es last :
  Forall writable es ->
  (drain (mkDecoder (flat_map wire es) [] None last)).1 = sticky last es.
Proof.
  intros H. revert last; induction H as [|e es He _ IH]; intros last; [done|].
  cbn [flat_map sticky]. rewrite drain_wire by done.
  specialize (IH (or_last (id e) last)). destruct (drain _) as [es' d]. simpl in *. by rewrite IH.
Qed.

(** ** Properties *)

(** The decoder does not depend on how the bytes were cut.  Feeding any
    list of chunks gives the events, and leaves the decoder in the state, that
    feeding their concatenation at once does. *)
Theorem feed_chunking chunks : feed_all new chunks = feed new (concat chunks).
Proof. by apply feed_all_concat. Qed.

(** What a server writes is what the client reads.  Any list of events the
    format can carry, written one after the other and cut into chunks anywhere,
    inside a line or a character included, is decoded as exactly those events in
    order, each with its own id or the last one sent. *)
Theorem sse_round_trip (es : list SseEvent) (chunks : list (list Z)) :
  Forall writable es -> concat chunks = flat_map wire es ->
  (feed_all new chunks).1 = sticky None es.
Proof.
  intros He Hc. rewrite feed_all_concat, Hc by done. rewrite feed_drain. by apply drain_wires.
Qed.

Definition demo_events : list SseEvent :=
  [mkEvent (Some #"7") (Some #"run") ([233; 10] ++ #"{}"); mkEvent None None #"x"].

(** Every byte of the demo stream in a chunk of its own. *)
Lemma sse_round_trip_witness :
  (feed_all new (map (fun b => [b]) (flat_map wire demo_events))).1
  = [mkEvent (Some #"7") (Some #"run") ([233; 10] ++ #"{}"); mkEvent (Some #"7") None #"x"].
Proof.
  apply (sse_round_trip demo_events).
  - unfold demo_events. repeat (apply Forall_cons; split); [| |apply Forall_nil_2];
      (repeat split; simpl; try (apply (bool_decide_unpack _); by vm_compute)).
  - by vm_compute.
Defined.
