(* ===== verification/Case.v ===== *)
(** * Case: the case file of an incident ([crates/api/src/case/mod.rs],
    [case/commands.rs], [crates/core/src/attribution.rs])

    Who an event is filed under, what a case asks about it, and the assembly of
    the answers: one line per section whatever was answered, and one fact per
    row.  Each plane's answer is an argument; the hash and the JSON writer are
    other crates'. *)
From S2P Require Import Prelude Text Json Signing.

(** ** Attribution *)

Definition IDENTITY_MISMATCH : str := #"identity_mismatch".
Definition KEY_PREFIX : str := #"key:".
Definition NO_KEY : str := #"key:(none)".

(** The [key_id] an event's data names: a non-empty string. *)
Definition key_id (data : option value) : option str :=
  let! d := data in
  let! k := get_str #"key_id" d in
  if bool_decide (k = []) then None else Some k.

Definition filed_under (type_ agent_id : str) (data : option value) : str :=
  if negb (str_eqb type_ IDENTITY_MISMATCH) then agent_id
  else match key_id data with
       | Some key => KEY_PREFIX ++ key
       | None => NO_KEY
       end.

Definition refused_key (type_ : str) (data : option value) : option str :=
  if negb (str_eqb type_ IDENTITY_MISMATCH) then None else key_id data.

(** ** The case's data *)

Definition UPSTREAM_TEXT_MAX : Z := 300.

(** Text a plane wrote; its trust has one value. *)
Inductive Trust : Type := TrustData.
Record Data : Type := mkData { trust : Trust; dtext : str }.
Definition bounded (text : str) : Data := mkData TrustData (firstn (Z.to_nat UPSTREAM_TEXT_MAX) text).

Inductive Plane : Type := Bus | Tokenfuse | Idryx | Wardryx | Engram.
Definition plane_name (p : Plane) : str :=
  match p with
  | Bus => #"bus" | Tokenfuse => #"tokenfuse" | Idryx => #"idryx" | Wardryx => #"wardryx"
  | Engram => #"engram"
  end.

Inductive Section_ : Type :=
| SEvent | RunTimeline | Spend | Identity | BlastRadius | SPolicy | Decisions | SimilarIncidents
| PriorRulings.
#[global] Instance Section_eq_dec : EqDecision Section_.
Proof. solve_decision. Defined.
Definition section_name (s : Section_) : str :=
  match s with
  | SEvent => #"event" | RunTimeline => #"run_timeline" | Spend => #"spend" | Identity => #"identity"
  | BlastRadius => #"blast_radius" | SPolicy => #"policy" | Decisions => #"decisions"
  | SimilarIncidents => #"similar_incidents" | PriorRulings => #"prior_rulings"
  end.

(** [Section::ALL] and [Section::plane]. *)
Definition ALL : list Section_ :=
  [SEvent; RunTimeline; Spend; Identity; BlastRadius; SPolicy; Decisions; SimilarIncidents; PriorRulings].
Definition plane_of (s : Section_) : Plane :=
  match s with
  | SEvent | RunTimeline | SimilarIncidents => Bus
  | Spend => Tokenfuse
  | Identity | BlastRadius => Idryx
  | SPolicy | Decisions => Wardryx
  | PriorRulings => Engram
  end.

(** [words]. *)
Definition EMPTY : str := #"the plane answered and holds nothing for this incident".
Definition UNAVAILABLE : str := #"the plane did not answer".
Definition UNRECORDED : str := #"no answer was recorded for this question".
Definition NO_RUN : str := #"the event names no run, so there is no run to read".
Definition FILED_UNDER_A_KEY : str :=
  #"the incident is filed under a key, not an agent: asking about the agent it claimed would charge that agent with the attempt".

Record Row : Type := mkRow { row_plane : Plane; row_row_id : str; row_label : str; row_value : value }.

Inductive Answer : Type :=
| Rows (rows : list Row) (note : option str)
| Unavailable (reason : str)
| NotAsked (reason : str).

Inductive LineState : Type := Answered | Empty | LUnavailable | LNotAsked.
Definition state_name (s : LineState) : str :=
  match s with
  | Answered => #"answered" | Empty => #"empty" | LUnavailable => #"unavailable" | LNotAsked => #"not_asked"
  end.

Record CaseLine : Type := mkLine
  { l_section : Section_; l_plane : Plane; l_state : LineState; l_facts : Z;
    l_reason : option str; l_upstream : option Data }.

Record Fact_ : Type := mkFact
  { f_section : Section_; f_plane : Plane; f_row_id : str; f_digest : str; f_label : str;
    f_trust : Trust; f_row : value }.

Record CaseFile : Type := mkCase
  { incident_id : str; subject : str; claimed_agent : option str; run_id : option str;
    lines : list CaseLine; facts : list Fact_; digest : str }.

Record Head : Type := mkHead
  { h_incident_id : str; h_subject : str; h_claimed_agent : option str; h_run_id : option str }.

(** What [Serialize] writes of a case. *)
Definition data_json (d : Data) : value := obj [(#"trust", VStr #"data"); (#"text", VStr (dtext d))].
Definition line_json (l : CaseLine) : value :=
  obj [(#"section", VStr (section_name (l_section l))); (#"plane", VStr (plane_name (l_plane l)));
       (#"state", VStr (state_name (l_state l))); (#"facts", VNum (NInt (l_facts l)));
       (#"reason", opt_str (l_reason l));
       (#"upstream", match l_upstream l with Some d => data_json d | None => VNull end)].
Definition fact_json (f : Fact_) : value :=
  obj [(#"section", VStr (section_name (f_section f))); (#"plane", VStr (plane_name (f_plane f)));
       (#"row_id", VStr (f_row_id f)); (#"digest", VStr (f_digest f)); (#"label", VStr (f_label f));
       (#"trust", VStr #"data"); (#"row", f_row f)].
Definition case_json (c : CaseFile) : value :=
  obj [(#"incident_id", VStr (incident_id c)); (#"subject", VStr (subject c));
       (#"claimed_agent", opt_str (claimed_agent c)); (#"run_id", opt_str (run_id c));
       (#"lines", VArr (map line_json (lines c))); (#"facts", VArr (map fact_json (facts c)));
       (#"digest", VStr (digest c))].

(** ** Assembly *)

Section Assemble.
Context {PR : Primitives} {JT : JsonText}.

(** [digest_of]: of the value as serde_json writes it. *)
Definition digest_of (v : value) : str := #"sha256:" ++ hex_lower (sha256 (str_bytes (json_text v))).

Definition answer_for (section : Section_) (answers : list (Section_ * Answer)) : option Answer :=
  snd <$> find (fun sa => bool_decide (sa.1 = section)) answers.

Definition fact_of (section : Section_) (row : Row) : Fact_ :=
  mkFact section (row_plane row) (row_row_id row) (digest_of (row_value row)) (row_label row) TrustData
         (row_value row).

(** The line and the facts of one section. *)
Definition line_of (section : Section_) (answer : option Answer) : CaseLine * list Fact_ :=
  let line := mkLine section (plane_of section) in
  match answer with
  | Some (Rows [] note) => (line Empty 0 (Some (default EMPTY note)) None, [])
  | Some (Rows rows note) =>
      (line Answered (Z.of_nat (length rows)) note None, map (fact_of section) rows)
  | Some (Unavailable reason) => (line LUnavailable 0 (Some UNAVAILABLE) (Some (bounded reason)), [])
  | Some (NotAsked reason) => (line LNotAsked 0 (Some reason) None, [])
  | None => (line LUnavailable 0 (Some UNRECORDED) None, [])
  end.

Definition with_digest (c : CaseFile) (d : str) : CaseFile :=
  mkCase (incident_id c) (subject c) (claimed_agent c) (run_id c) (lines c) (facts c) d.

Definition assemble (head : Head) (answers : list (Section_ * Answer)) : CaseFile :=
  let parts := map (fun section => line_of section (answer_for section answers)) ALL in
  let case := mkCase (h_incident_id head) (h_subject head) (h_claimed_agent head) (h_run_id head)
                (map fst parts) (concat (map snd parts)) [] in
  with_digest case (digest_of (case_json case)).
End Assemble.

(** ** What to ask *)

(** The columns of [StoredEvent] this component reads. *)
Record StoredEvent : Type := mkEvent
  { ev_id : Z; ev_type : str; ev_agent_id : str; ev_run_id : option str; ev_data : option value }.

Record Questions : Type := mkQuestions
  { q_event_id : Z; q_event_type : str; q_subject : str; q_claimed_agent : option str;
    q_agent : option str; q_run_id : option str; q_not_asked : list (Section_ * str) }.

Definition questions_for (event : StoredEvent) : Questions :=
  let subject := filed_under (ev_type event) (ev_agent_id event) (ev_data event) in
  let is_key := starts_with KEY_PREFIX subject in
  let claimed := if is_key then Some (ev_agent_id event) else None in
  let agent := if is_key then None else Some subject in
  let run := match ev_run_id event with
             | Some r => if bool_decide (r = []) then None else Some r
             | None => None
             end in
  mkQuestions (ev_id event) (ev_type event) subject claimed agent run
    ((if is_key then [(Identity, FILED_UNDER_A_KEY); (BlastRadius, FILED_UNDER_A_KEY)] else [])
     ++ match run with
        | None => [(RunTimeline, NO_RUN); (Spend, NO_RUN); (Decisions, NO_RUN)]
        | Some _ => []
        end).

Inductive CaseError : Type :=
| NoStore (reason : str)
| BadIncidentId (id : str)
| UnsupportedSource (source : str)
| NotFound (event_id : Z).

Definition describe (e : CaseError) : str :=
  match e with
  | NoStore _ => #"No case: the console has no readable event store on this box."
  | BadIncidentId _ => #"No case: this is not an incident id the case command reads."
  | UnsupportedSource source => #"No case: a " ++ source ++ #" incident has no event row to start from."
  | NotFound id => #"No case: the console's store holds no event row " ++ dec id ++ #"."
  end.

(** [event_id_of]. *)
Definition event_id_of (id : str) : result Z CaseError :=
  let bad := Err (BadIncidentId (firstn 80 id)) in
  let '(source, rest) := match split_once #":" id with
                         | Some (source, rest) => (Some source, rest)
                         | None => (None, id)
                         end in
  let row :=
    if bool_decide (rest = []) || negb (forallb ascii_digit rest) then bad
    else match parse_i64 rest with Some n => Ok n | None => bad end in
  match source with
  | None => row
  | Some s =>
      if str_eqb s #"bus" || str_eqb s #"verdryx" then row
      else if str_eqb s #"money" || str_eqb s #"idryx" || str_eqb s #"posture"
      then Err (UnsupportedSource s)
      else bad
  end.

(** ** Lemmas *)

Definition section_facts (s : Section_) (fs : list Fact_) : list Fact_ :=
  List.filter (fun f => bool_decide (f_section f = s)) fs.

Section Facts.
Context {PR : Primitives} {JT : JsonText}.

Lemma line_of_section s a : l_section (line_of s a).1 = s.
Proof. by destruct a as [[[|]| |]|]. Qed.

Lemma line_of_facts s a : Forall (fun f => f_section f = s /\ f_digest f = digest_of (f_row f)) (line_of s a).2.
Proof.
  destruct a as [[[|r rows] note| |]|]; simpl; try constructor; [done|].
  apply List.Forall_map, List.Forall_forall. done.
Qed.

Lemma line_of_count s a : l_facts (line_of s a).1 = Z.of_nat (length (line_of s a).2).
Proof. destruct a as [[[|r rows] note| |]|]; simpl; rewrite ?length_map; done. Qed.

Lemma line_of_state s a :
  (l_state (line_of s a).1 = Answered <-> 0 < l_facts (line_of s a).1)
  /\ (l_state (line_of s a).1 <> Answered -> is_Some (l_reason (line_of s a).1)).
Proof. destruct a as [[[|r rows] note| |]|]; simpl; split; try split; try done; try lia; by eexists. Qed.

(** The facts of a section, among those of sections each listed once. *)
Lemma section_facts_concat (g : Section_ -> list Fact_) l s :
  (forall s, Forall (fun f => f_section f = s) (g s)) -> NoDup l ->
  section_facts s (concat (map g l)) = if decide (s ∈ l) then g s else [].
Proof.
  intros Hg. assert (forall s', section_facts s (g s') = if decide (s = s') then g s' else []) as Hone.
  { intros s'. specialize (Hg s'). unfold section_facts. induction (g s') as [|f fs IH]; [by case_decide|].
    apply Forall_cons in Hg as [Hf Hfs]. simpl. rewrite IH by done.
    case_decide; case_bool_decide; congruence. }
  induction 1 as [|s' l Hs' Hnd IH]; [done|]. simpl. unfold section_facts. rewrite List.filter_app.
  change (section_facts s (g s') ++ section_facts s (concat (map g l)) = if decide (s ∈ s' :: l) then g s else []).
  rewrite Hone, IH. repeat case_decide; subst; rewrite ?app_nil_r; try done; set_solver.
Qed.

Lemma ALL_NoDup : NoDup ALL.
Proof. apply (bool_decide_unpack _). by vm_compute. Qed.

(** ** Properties *)

(** A case is complete and honest whatever the planes answered.  It has one
    line per section, in the fixed order; a line counts exactly the facts its
    section has; a line without facts says why; every fact carries the digest
    of its own row; and the case's digest is that of the case with the digest
    left empty. *)
Theorem case_is_complete head answers :
  let c := assemble head answers in
  map l_section (lines c) = ALL
  /\ (forall l, l ∈ lines c ->
        l_facts l = Z.of_nat (length (section_facts (l_section l) (facts c)))
        /\ (l_state l = Answered <-> 0 < l_facts l)
        /\ (l_state l <> Answered -> is_Some (l_reason l)))
  /\ (forall f, f ∈ facts c -> f_section f ∈ ALL /\ f_digest f = digest_of (f_row f))
  /\ digest c = digest_of (case_json (with_digest c [])).
Proof.
  set (part := fun s => line_of s (answer_for s answers)). intros c.
  assert (facts c = concat (map (fun s => (part s).2) ALL)) as Hf by (unfold c; simpl; done).
  assert (lines c = map (fun s => (part s).1) ALL) as Hl by (unfold c; simpl; done).
  split; [|split; [|split; [|done]]].
  - rewrite Hl, map_map. rewrite <- (map_id ALL) at 2. apply map_ext. intros s. apply line_of_section.
  - rewrite Hl, Hf. intros l (s&<-&Hs)%list_elem_of_In%in_map_iff. unfold part.
    rewrite line_of_section, (section_facts_concat (fun s => (part s).2)); [|intros s'|apply ALL_NoDup].
    + rewrite decide_True by by apply list_elem_of_In. split; [apply line_of_count|apply line_of_state].
    + eapply Forall_impl; [apply line_of_facts|]. by intros f [? ?].
  - rewrite Hf. intros f Hin%list_elem_of_In. apply in_concat in Hin as (fs&(s&<-&Hs)%in_map_iff&Hin).
    pose proof (line_of_facts s (answer_for s answers)) as H. rewrite List.Forall_forall in H.
    apply H in Hin as [-> ?]. by rewrite list_elem_of_In.
Qed.
End Facts.

(** An identity refusal never charges the agent it claimed.  Whatever id
    the caller claimed, the incident is filed under a key, no agent is asked
    about, the two sections about an agent are not asked, and nothing but the
    recorded claim depends on the id. *)
Theorem refusal_never_charges_the_claimed_agent id a b run data :
  let q := questions_for (mkEvent id IDENTITY_MISMATCH a run data) in
  q_agent q = None /\ (exists k, q_subject q = KEY_PREFIX ++ k) /\ q_claimed_agent q = Some a
  /\ (Identity, FILED_UNDER_A_KEY) ∈ q_not_asked q /\ (BlastRadius, FILED_UNDER_A_KEY) ∈ q_not_asked q
  /\ questions_for (mkEvent id IDENTITY_MISMATCH b run data)
     = mkQuestions (q_event_id q) (q_event_type q) (q_subject q) (Some b) (q_agent q) (q_run_id q)
         (q_not_asked q).
Proof.
  assert (exists k, forall a, filed_under IDENTITY_MISMATCH a data = KEY_PREFIX ++ k) as [k Hk].
  { unfold filed_under. simpl. destruct (key_id data) as [key|]; [by exists key|by exists #"(none)"]. }
  unfold questions_for. cbn [ev_type ev_agent_id ev_data ev_id ev_run_id]. rewrite !Hk, starts_with_app.
  cbn [q_agent q_subject q_claimed_agent q_not_asked q_event_id q_event_type q_run_id].
  split; [done|]. split; [by exists k|]. split; [done|]. split; [left|]. split; [right; left|done].
Qed.

(** A key named [(none)] is filed where a refusal without a key is. *)
Example named_none_key :
  filed_under IDENTITY_MISMATCH [] (Some (obj [(#"key_id", VStr #"(none)")])) = filed_under IDENTITY_MISMATCH [] None.
Proof. reflexivity. Qed.
