(* ===== verification/Graph.v ===== *)
(** * Graph: who acts for whom ([crates/core/src/graph.rs],
    [crates/api/src/graph.rs])

    Every event names who acted and the chain it acted on behalf of.  The
    events are folded into a graph, from the store when a view opens and one by
    one as they arrive; the nodes and links are sets, and how often a
    principal acted is counted once per natural key.  Where a node is drawn
    ([layout.rs]) is the file [Layout]. *)
From S2P Require Import Prelude Text Json Ingest.
From S2P Require Case.

Inductive NodeKind : Type := KUser | KAgent | KOther.
Definition kind_of (id : str) : NodeKind :=
  match split_once #"://" id with
  | Some (scheme, _) =>
      if str_eqb scheme #"user" then KUser else if str_eqb scheme #"agent" then KAgent else KOther
  | None => KOther
  end.

Record GraphNode : Type := mkNode { g_id : str; g_kind : NodeKind; event_count : Z; last_ts : str }.
Record GraphEdge : Type := mkEdge { e_from : str; e_to : str }.
Record GraphView : Type := mkView { v_nodes : list GraphNode; v_edges : list GraphEdge }.
Record AgentSlice : Type := mkSlice { s_node : option GraphNode; s_parents : list GraphNode; s_children : list GraphNode }.

(** The natural key of an event. *)
Record EventKey : Type := mkKey { k_agent : str; k_ts : str; k_source : str; k_type : str; k_run : str }.
#[export] Instance EventKey_eq_dec : EqDecision EventKey.
Proof. solve_decision. Defined.
#[export] Instance EventKey_countable : Countable EventKey.
Proof.
  apply (inj_countable' (fun k => (k_agent k, k_ts k, k_source k, k_type k, k_run k))
           (fun '(a, t, s, y, r) => mkKey a t s y r)).
  by intros [].
Defined.

(** The three ordered sets of the graph. *)
Record DelegationGraph : Type := mkGraph
  { nodes : gmap str GraphNode; edges : gset (str * str); seen : gset EventKey }.
Definition new_graph : DelegationGraph := mkGraph ∅ ∅ ∅.

Definition ensure_node (id : str) (g : DelegationGraph) : DelegationGraph :=
  match nodes g !! id with
  | Some _ => g
  | None => mkGraph (<[id := mkNode id (kind_of id) 0 []]> (nodes g)) (edges g) (seen g)
  end.
Definition add_edge (from to : str) (g : DelegationGraph) : DelegationGraph :=
  if bool_decide (from = to) then g else mkGraph (nodes g) ({[(from, to)]} ∪ edges g) (seen g).
(** One more event of this node, and the later of the two timestamps. *)
Definition acted (ts : str) (n : GraphNode) : GraphNode :=
  mkNode (g_id n) (g_kind n) (event_count n + 1) (if str_ltb (last_ts n) ts then ts else last_ts n).
Definition count_node (id ts : str) (newly : bool) (g : DelegationGraph) : DelegationGraph :=
  let g := ensure_node id g in
  if newly then mkGraph (alter (acted ts) id (nodes g)) (edges g) (seen g) else g.

(** One element of the chain, after [prev]. *)
Definition chain_step (st : option str * DelegationGraph) (item : str) : option str * DelegationGraph :=
  let (prev, g) := st in
  if bool_decide (item = []) then (prev, g)
  else
    let g := ensure_node item g in
    (Some item, match prev with Some p => add_edge p item g | None => g end).
Definition ingest (agent : str) (chain : list str) (key : EventKey) (ts : str) (g : DelegationGraph) : bool * DelegationGraph :=
  let newly := bool_decide (key ∉ seen g) in
  let g := mkGraph (nodes g) (edges g) ({[key]} ∪ seen g) in
  let g := if bool_decide (agent = []) then g else count_node agent ts newly g in
  let (prev, g) := fold_left chain_step chain (None, g) in
  (newly, match prev with
          | Some p => if bool_decide (agent = []) then g else add_edge p agent g
          | None => g
          end).

(** The live path: one event of the bus. *)
Definition actor_of (ev : AgentEvent) : str := Case.filed_under (event_type ev) (agent_id ev) (data ev).
Definition key_of_event (ev : AgentEvent) : EventKey :=
  mkKey (actor_of ev) (ts ev) (source ev) (event_type ev) (default [] (run_id ev)).
Definition add_event (ev : AgentEvent) (g : DelegationGraph) : bool * DelegationGraph :=
  ingest (actor_of ev) (on_behalf_of ev) (key_of_event ev) (ts ev) g.

(** The batch path: one row of [Store::delegation_events], whose [agent_id] is
    who the event is filed under. *)
Record DelegationRow : Type := mkRow
  { r_agent : str; r_chain : list str; r_ts : str; r_source : str; r_type : str; r_run : option str }.
Definition row_of (ev : AgentEvent) : DelegationRow :=
  mkRow (Case.filed_under (event_type ev) (agent_id ev) (data ev)) (on_behalf_of ev) (ts ev) (source ev) (event_type ev) (run_id ev).
Definition ingest_row (g : DelegationGraph) (r : DelegationRow) : DelegationGraph :=
  let key := mkKey (r_agent r) (r_ts r) (r_source r) (r_type r) (default [] (r_run r)) in
  (ingest (r_agent r) (r_chain r) key (r_ts r) g).2.
Definition from_store (rows : list DelegationRow) : DelegationGraph := fold_left ingest_row rows new_graph.
Definition feed (evs : list AgentEvent) (g : DelegationGraph) : DelegationGraph :=
  fold_left (fun g ev => (add_event ev g).2) evs g.

(** *** What is read: the ordered sets in their order *)

Definition str_le (a b : str) : Prop := str_leb a b = true.
#[export] Instance str_le_dec : RelDecision str_le.
Proof. unfold str_le. intros a b. apply _. Defined.
Definition pair_le (a b : str * str) : Prop :=
  (str_ltb a.1 b.1 || (str_eqb a.1 b.1 && str_leb a.2 b.2)) = true.
#[export] Instance pair_le_dec : RelDecision pair_le.
Proof. unfold pair_le. intros a b. apply _. Defined.
Definition node_ids (g : DelegationGraph) : list str := merge_sort str_le (elements (dom (nodes g))).
Definition edge_list (g : DelegationGraph) : list (str * str) := merge_sort pair_le (elements (edges g)).

Definition parents (id : str) (g : DelegationGraph) : list str :=
  omap (fun e => if str_eqb e.2 id then Some e.1 else None) (edge_list g).
Definition children (id : str) (g : DelegationGraph) : list str :=
  omap (fun e => if str_eqb e.1 id then Some e.2 else None) (edge_list g).
Definition roots (g : DelegationGraph) : list str :=
  List.filter (fun id => negb (existsb (fun e => str_eqb e.2 id) (edge_list g))) (node_ids g).
Definition node_count (g : DelegationGraph) : nat := size (nodes g).
Definition edge_count (g : DelegationGraph) : nat := size (edges g).
Definition agent_slice (id : str) (g : DelegationGraph) : AgentSlice :=
  mkSlice (nodes g !! id) (omap (fun p => nodes g !! p) (parents id g)) (omap (fun c => nodes g !! c) (children id g)).
Definition view (g : DelegationGraph) : GraphView :=
  mkView (omap (fun id => nodes g !! id) (node_ids g)) (map (fun e => mkEdge e.1 e.2) (edge_list g)).

(** The console's command: nothing when there is no store. *)
Definition build_agent_slice (store : option (list DelegationRow)) (id : str) : AgentSlice :=
  match store with Some rows => agent_slice id (from_store rows) | None => mkSlice None [] [] end.

(** ** Properties *)

(** Whom an event mentions, and the links its chain makes. *)
Definition named (s : str) : bool := negb (bool_decide (s = [])).
Definition names (agent : str) (chain : list str) : list str := List.filter named (chain ++ [agent]).
Fixpoint links (ns : list str) : list (str * str) :=
  match ns with
  | a :: (b :: _) as r => if bool_decide (a = b) then links r else (a, b) :: links r
  | _ => []
  end.

(** [t] is the latest timestamp of the node's keys. *)
Definition latest (s : gset EventKey) (id t : str) : Prop :=
  (forall k, k ∈ s -> k_agent k = id -> str_leb (k_ts k) t = true)
  /\ (t = [] \/ exists k, k ∈ s /\ k_agent k = id /\ k_ts k = t).
Definition acts_of (s : gset EventKey) (id : str) : gset EventKey := filter (fun k => k_agent k = id) s.
Definition tallied (s : gset EventKey) (id : str) (n : GraphNode) : Prop :=
  g_id n = id /\ g_kind n = kind_of id /\ event_count n = Z.of_nat (size (acts_of s id)) /\ latest s id (last_ts n).

Record graph_ok (g : DelegationGraph) : Prop :=
  { ok_tallied id n : nodes g !! id = Some n -> tallied (seen g) id n;
    ok_actors k : k ∈ seen g -> k_agent k <> [] -> k_agent k ∈ dom (nodes g);
    ok_named id : id ∈ dom (nodes g) -> id <> [];
    ok_edges a b : (a, b) ∈ edges g -> a <> b /\ a ∈ dom (nodes g) /\ b ∈ dom (nodes g) }.

Lemma latest_unique s id t t' : latest s id t -> latest s id t' -> t = t'.
Proof.
  intros [H1 H2] [H1' H2']. apply lex_leb_antisym.
  - destruct H2 as [-> |(k&Hk&Ha&<-)]; [by destruct t'|]. by apply H1'.
  - destruct H2' as [-> |(k&Hk&Ha&<-)]; [by destruct t|]. by apply H1.
Qed.

(** A well-formed graph is its three sets of names, links and keys. *)
Lemma graph_ext g g' :
  graph_ok g -> graph_ok g' -> dom (nodes g) = dom (nodes g') -> edges g = edges g' -> seen g = seen g' -> g = g'.
Proof.
  destruct g as [ns es s], g' as [ns' es' s']. cbn. intros H H' Hd -> ->. f_equal.
  apply map_eq. intros id. pose proof (ok_tallied _ H id) as T. pose proof (ok_tallied _ H' id) as T'. cbn in *.
  destruct (ns !! id) as [n|] eqn:E, (ns' !! id) as [n'|] eqn:E'; try done.
  - destruct (T n eq_refl) as (?&?&?&L), (T' n' eq_refl) as (?&?&?&L'). f_equal.
    pose proof (latest_unique _ _ _ _ L L'). destruct n, n'; cbn in *. congruence.
  - apply not_elem_of_dom in E'. exfalso. apply E'. rewrite <- Hd. by apply elem_of_dom.
  - apply not_elem_of_dom in E. exfalso. apply E. rewrite Hd. by apply elem_of_dom.
Qed.

Lemma ensure_node_dom id g : dom (nodes (ensure_node id g)) = {[id]} ∪ dom (nodes g).
Proof.
  unfold ensure_node. destruct (nodes g !! id) eqn:E; cbn.
  - assert (id ∈ dom (nodes g)) by by apply elem_of_dom. set_solver.
  - by rewrite dom_insert_L.
Qed.
Lemma ensure_node_seen id g : seen (ensure_node id g) = seen g.
Proof. unfold ensure_node. by destruct (nodes g !! id). Qed.
Lemma ensure_node_edges id g : edges (ensure_node id g) = edges g.
Proof. unfold ensure_node. by destruct (nodes g !! id). Qed.
Lemma add_edge_parts a b g :
  nodes (add_edge a b g) = nodes g /\ seen (add_edge a b g) = seen g
  /\ edges (add_edge a b g) = list_to_set (links [a; b]) ∪ edges g.
Proof.
  unfold add_edge. cbn. case_bool_decide; cbn; [set_solver|]. split; [done|]. split; [done|]. set_solver.
Qed.

Lemma no_act_of_unknown g id : graph_ok g -> id <> [] -> nodes g !! id = None -> acts_of (seen g) id = ∅.
Proof.
  intros H Hne E. apply set_eq. intros k. unfold acts_of. rewrite elem_of_filter. split; [|set_solver].
  intros [<- Hk]. apply not_elem_of_dom in E. by destruct (E (ok_actors _ H k Hk Hne)).
Qed.
Lemma ensure_node_ok id g : graph_ok g -> id <> [] -> graph_ok (ensure_node id g).
Proof.
  intros H Hne. unfold ensure_node. destruct (nodes g !! id) eqn:E; [done|].
  split; cbn.
  - intros id' n. destruct (decide (id = id')) as [<-|Hn].
    + rewrite lookup_insert_eq. intros [= <-]. pose proof (no_act_of_unknown g id H Hne E) as Hz.
      split; [done|]. split; [done|]. rewrite Hz. split; [by rewrite size_empty|].
      split; [|by left]. intros k Hk Ha. cbn. exfalso.
      assert (k ∈ acts_of (seen g) id) as Hin by (unfold acts_of; by apply elem_of_filter). rewrite Hz in Hin. set_solver.
    + rewrite lookup_insert_ne by done. apply (ok_tallied _ H).
  - intros k Hk Ha. pose proof (ok_actors _ H k Hk Ha). rewrite dom_insert_L. set_solver.
  - intros id'. rewrite dom_insert_L. intros [->%elem_of_singleton|Hd]%elem_of_union; [done|]. by apply (ok_named _ H).
  - intros a b Hab. destruct (ok_edges _ H a b Hab) as (?&?&?). rewrite dom_insert_L. set_solver.
Qed.
Lemma add_edge_ok a b g :
  graph_ok g -> a ∈ dom (nodes g) -> b ∈ dom (nodes g) -> graph_ok (add_edge a b g).
Proof.
  intros H Ha Hb. unfold add_edge. case_bool_decide as Hab; [done|]. destruct H as [H1 H2 H3 H4].
  split; cbn; try done. intros x y [[= -> ->]%elem_of_singleton|Hxy]%elem_of_union; [done|]. by apply H4.
Qed.

Lemma tallied_other key s id n : k_agent key <> id -> tallied s id n -> tallied ({[key]} ∪ s) id n.
Proof.
  intros Hne (H1&H2&H3&H4&H5). split; [done|]. split; [done|].
  assert (acts_of ({[key]} ∪ s) id = acts_of s id) as ->.
  { apply set_eq. intros k. unfold acts_of. rewrite !elem_of_filter, elem_of_union, elem_of_singleton. naive_solver. }
  split; [done|]. split.
  - intros k [->%elem_of_singleton|Hk]%elem_of_union Ha; [done|]. by apply H4.
  - destruct H5 as [?|(k&?&?)]; [by left|]. right. exists k. set_solver.
Qed.
Lemma tallied_acted key s id n :
  key ∉ s -> k_agent key = id -> tallied s id n -> tallied ({[key]} ∪ s) id (acted (k_ts key) n).
Proof.
  intros Hk Ha (H1&H2&H3&H4&H5). split; [done|]. split; [done|]. cbn [acted event_count last_ts].
  assert (size (acts_of ({[key]} ∪ s) id) = S (size (acts_of s id))) as ->.
  { assert (acts_of ({[key]} ∪ s) id = {[key]} ∪ acts_of s id) as ->.
    { apply set_eq. intros k. unfold acts_of. rewrite elem_of_union, !elem_of_filter, elem_of_union, elem_of_singleton.
      naive_solver. }
    rewrite size_union, size_singleton; [done|]. unfold acts_of. set_solver. }
  split; [lia|]. unfold latest, str_ltb. destruct (str_leb (k_ts key) (last_ts n)) eqn:El; cbn [negb].
  - split; [|destruct H5 as [?|(k&?&?)]; [by left|right; exists k; set_solver]].
    intros k [->%elem_of_singleton|Hin]%elem_of_union Ha'; [done|]. by apply H4.
  - split; [|right; exists key; set_solver].
    intros k [->%elem_of_singleton|Hin]%elem_of_union Ha'; [apply lex_leb_refl|].
    eapply lex_leb_trans; [by apply H4|]. destruct (lex_leb_total (last_ts n) (k_ts key)) as [|E]; [done|].
    unfold str_leb in El. congruence.
Qed.

(** The first half of [ingest]: the key and the actor. *)
Definition noted (agent ts : str) (key : EventKey) (g : DelegationGraph) : DelegationGraph :=
  let g1 := mkGraph (nodes g) (edges g) ({[key]} ∪ seen g) in
  if bool_decide (agent = []) then g1 else count_node agent ts (bool_decide (key ∉ seen g)) g1.
Definition of_names (ns : list str) : gset str := list_to_set (List.filter named ns).

Lemma count_node_parts id ts newly g :
  nodes (count_node id ts newly g)
  = (if newly then alter (acted ts) id else fun m => m) (nodes (ensure_node id g))
  /\ edges (count_node id ts newly g) = edges g /\ seen (count_node id ts newly g) = seen g.
Proof.
  unfold count_node. destruct newly; cbn; rewrite ?ensure_node_edges, ?ensure_node_seen; done.
Qed.
Lemma noted_parts agent ts key g :
  dom (nodes (noted agent ts key g)) = of_names [agent] ∪ dom (nodes g)
  /\ edges (noted agent ts key g) = edges g /\ seen (noted agent ts key g) = {[key]} ∪ seen g.
Proof.
  unfold noted, of_names. cbn [List.filter]. unfold named. case_bool_decide; cbn [negb]; [set_solver|].
  destruct (count_node_parts agent ts (bool_decide (key ∉ seen g)) (mkGraph (nodes g) (edges g) ({[key]} ∪ seen g)))
    as (E1&E2&E3). rewrite E1, E2, E3. split; [|done].
  transitivity (dom (nodes (ensure_node agent (mkGraph (nodes g) (edges g) ({[key]} ∪ seen g))))).
  - destruct (bool_decide (key ∉ seen g)); [apply dom_alter_L|done].
  - rewrite ensure_node_dom. set_solver.
Qed.

Lemma noted_ok agent key g : k_agent key = agent -> graph_ok g -> graph_ok (noted agent (k_ts key) key g).
Proof.
  intros Ha H. destruct (decide (key ∈ seen g)) as [Hin|Hnew].
  { assert (mkGraph (nodes g) (edges g) ({[key]} ∪ seen g) = g) as E.
    { destruct g as [ns es s]; cbn in *. f_equal. set_solver. }
    unfold noted. rewrite E. case_bool_decide; [done|]. rewrite bool_decide_eq_false_2 by set_solver.
    by apply ensure_node_ok. }
  destruct (noted_parts agent (k_ts key) key g) as (Ed & Ee & Es).
  assert (forall id n, nodes (noted agent (k_ts key) key g) !! id = Some n -> tallied ({[key]} ∪ seen g) id n) as Ht.
  { unfold noted. rewrite (bool_decide_eq_true_2 (key ∉ seen g)) by done. intros id n.
    case_bool_decide as Hempty; cbn.
    - intros Hn. apply tallied_other; [|by apply (ok_tallied _ H)]. rewrite Ha, Hempty. intros <-.
      eapply (ok_named _ H []); [|done]. by apply elem_of_dom.
    - pose proof (ensure_node_ok agent g H Hempty) as He.
      assert (nodes (ensure_node agent (mkGraph (nodes g) (edges g) ({[key]} ∪ seen g))) = nodes (ensure_node agent g)) as ->.
      { unfold ensure_node. cbn. by destruct (nodes g !! agent). }
      destruct (decide (agent = id)) as [<-|Hne].
      + rewrite lookup_alter_eq. destruct (nodes (ensure_node agent g) !! agent) as [m|] eqn:Em; [|done].
        cbn. intros [= <-]. apply (ok_tallied _ He) in Em. rewrite ensure_node_seen in Em. by apply tallied_acted.
      + rewrite lookup_alter_ne by done. intros Em. apply (ok_tallied _ He) in Em. rewrite ensure_node_seen in Em.
        apply tallied_other; [congruence|done]. }
  split; rewrite ?Es, ?Ed, ?Ee; [done|..].
  - intros k [->%elem_of_singleton|Hk]%elem_of_union Hne.
    + apply elem_of_union_l. unfold of_names. cbn. unfold named. rewrite Ha in *. rewrite bool_decide_eq_false_2 by done. set_solver.
    + apply elem_of_union_r. by apply (ok_actors _ H).
  - intros id [Hid|Hid]%elem_of_union; [|by apply (ok_named _ H)].
    unfold of_names in Hid. cbn in Hid. unfold named in Hid. case_bool_decide; set_solver.
  - intros a b Hab. destruct (ok_edges _ H a b Hab) as (?&?&?). set_solver.
Qed.

Lemma links_cons a b r : links (a :: b :: r) = links [a; b] ++ links (b :: r).
Proof. cbn [links]. by case_bool_decide. Qed.
Lemma links_snoc l y : links (l ++ [y]) = links l ++ match last l with Some x => links [x; y] | None => [] end.
Proof.
  induction l as [|a [|b l] IH]; [done| |].
  - by cbn [app links last].
  - change ((a :: b :: l) ++ [y]) with (a :: b :: (l ++ [y])). rewrite links_cons, (links_cons a b l).
    change (b :: l ++ [y]) with ((b :: l) ++ [y]). by rewrite IH, <- app_assoc.
Qed.

Definition opt_list (o : option str) : list str := match o with Some p => [p] | None => [] end.
Definition grew (g g' : DelegationGraph) (ns : list str) (es : list (str * str)) : Prop :=
  graph_ok g' /\ dom (nodes g') = of_names ns ∪ dom (nodes g) /\ edges g' = list_to_set es ∪ edges g /\ seen g' = seen g.

Lemma union_swap (A B C : gset (str * str)) : A ∪ (B ∪ C) = (B ∪ A) ∪ C.
Proof. set_solver. Qed.
Lemma filter_idem (l : list str) : List.filter named (List.filter named l) = List.filter named l.
Proof.
  induction l as [|x l IH]; [done|]. cbn. destruct (named x) eqn:E; cbn; [rewrite E; by f_equal|done].
Qed.
Lemma chain_grows chain prev g :
  graph_ok g -> (forall p, prev = Some p -> p ∈ dom (nodes g)) ->
  let st := fold_left chain_step chain (prev, g) in
  let ns := opt_list prev ++ List.filter named chain in
  grew g st.2 chain (links ns) /\ st.1 = last ns /\ (forall p, st.1 = Some p -> p ∈ dom (nodes st.2)).
Proof.
  revert prev g. induction chain as [|item chain IH]; intros prev g H Hp.
  { cbn. rewrite app_nil_r. split; [|split; [by destruct prev|done]].
    split; [done|]. unfold of_names. destruct prev; cbn; set_solver. }
  cbn [fold_left]. destruct (decide (item = [])) as [Hi|Hi].
  - assert (chain_step (prev, g) item = (prev, g)) as -> by (unfold chain_step; by rewrite bool_decide_eq_true_2).
    assert (List.filter named (item :: chain) = List.filter named chain) as -> by (by subst item).
    destruct (IH prev g H Hp) as [(H1&H2&H3&H4) H5]. split; [|exact H5]. split; [done|]. split; [|done].
    rewrite H2. unfold of_names. cbn. unfold named. by rewrite (bool_decide_eq_true_2 (item = [])) by done.
  - set (g1 := match prev with Some p => add_edge p item (ensure_node item g) | None => ensure_node item g end).
    assert (grew g g1 [item] (links (opt_list prev ++ [item]))) as (K1&K2&K3&K4).
    { pose proof (ensure_node_ok item g H Hi) as He. unfold g1, grew, of_names. cbn. unfold named.
      rewrite bool_decide_eq_false_2 by done. cbn.
      destruct prev as [p|]; cbn [opt_list app].
      - destruct (add_edge_parts p item (ensure_node item g)) as (E1&E2&E3). rewrite E1, E2, E3, ensure_node_dom, ensure_node_seen, ensure_node_edges.
        split; [|set_solver]. apply add_edge_ok; [done|rewrite ensure_node_dom; specialize (Hp p eq_refl); set_solver..].
      - rewrite ensure_node_dom, ensure_node_seen, ensure_node_edges. split; [done|]. set_solver. }
    assert (item ∈ dom (nodes g1)) as Hin.
    { rewrite K2. unfold of_names. cbn. unfold named. rewrite bool_decide_eq_false_2 by done. set_solver. }
    assert (chain_step (prev, g) item = (Some item, g1)) as -> by (unfold chain_step; by rewrite bool_decide_eq_false_2).
    assert (List.filter named (item :: chain) = item :: List.filter named chain) as ->.
    { cbn. unfold named at 1. by rewrite bool_decide_eq_false_2. }
    destruct (IH (Some item) g1 K1 ltac:(by intros p [= <-])) as [(H1&H2&H3&H4) H5].
    split; [|destruct H5 as [-> ?]; split; [by destruct prev|done]].
    split; [done|]. split.
    { rewrite H2, K2. unfold of_names. cbn. unfold named. rewrite (bool_decide_eq_false_2 (item = [])) by done. cbn. set_solver. }
    split; [|congruence]. rewrite H3, K3. cbn [opt_list app]. destruct prev as [p|]; cbn [opt_list app].
    + rewrite (links_cons p item (List.filter named chain)), list_to_set_app_L. apply union_swap.
    + change (list_to_set (links [item])) with (∅ : gset (str * str)). by rewrite (left_id_L ∅ (∪)).
Qed.

Lemma ingest_grows agent chain key g :
  graph_ok g -> k_agent key = agent ->
  let r := ingest agent chain key (k_ts key) g in
  r.1 = bool_decide (key ∉ seen g)
  /\ graph_ok r.2 /\ dom (nodes r.2) = of_names (names agent chain) ∪ dom (nodes g)
  /\ edges r.2 = list_to_set (links (names agent chain)) ∪ edges g /\ seen r.2 = {[key]} ∪ seen g.
Proof.
  intros H Ha r. subst r. destruct (noted_parts agent (k_ts key) key g) as (Nd & Ne & Ns).
  pose proof (noted_ok agent key g Ha H) as Nok.
  unfold ingest. fold (noted agent (k_ts key) key g).
  pose proof (chain_grows chain None (noted agent (k_ts key) key g) Nok ltac:(done)) as [(C1&C2&C3&C4) [C5 C6]].
  destruct (fold_left chain_step chain (None, noted agent (k_ts key) key g)) as [prev g'].
  cbn [fst snd opt_list app] in *. rewrite Ns in C4. rewrite Ne in C3. rewrite Nd in C2.
  assert (of_names (names agent chain) = of_names chain ∪ of_names [agent]) as ->.
  { unfold of_names, names. rewrite filter_idem, List.filter_app, list_to_set_app_L. done. }
  split; [done|]. unfold names. rewrite List.filter_app. cbn [List.filter].
  destruct (decide (agent = [])) as [He|He].
  - assert ((if named agent then [agent] else []) = []) as -> by by rewrite He.
    rewrite app_nil_r. unfold of_names in *. cbn [List.filter] in *. rewrite He in *. cbn in *.
    destruct prev; (split; [done|]; split; [rewrite C2; set_solver|done]).
  - assert (named agent = true) as Hn by (unfold named; by rewrite bool_decide_eq_false_2).
    assert (agent ∈ dom (nodes g')) as Hin.
    { rewrite C2. unfold of_names. cbn. rewrite Hn. set_solver. }
    rewrite Hn, links_snoc, list_to_set_app_L, <- C5. rewrite (bool_decide_eq_false_2 (agent = [])) by done.
    destruct prev as [p|].
    + destruct (add_edge_parts p agent g') as (E1&E2&E3). rewrite E1, E2, E3, C2, C3, C4.
      split; [by apply add_edge_ok; [|apply C6|]|]. split; [by rewrite (assoc_L (∪))|]. split; [apply union_swap|done].
    + split; [done|]. split; [by rewrite C2, (assoc_L (∪))|]. split; [|done]. rewrite C3. cbn. set_solver.
Qed.

Definition names_of (ev : AgentEvent) : list str := names (actor_of ev) (on_behalf_of ev).
Lemma of_names_elem ev id : id ∈ of_names (names_of ev) <-> id ∈ names_of ev.
Proof. unfold of_names, names_of, names. rewrite filter_idem. by rewrite elem_of_list_to_set. Qed.

Lemma new_graph_ok : graph_ok new_graph.
Proof. split; cbn; set_solver. Qed.
Lemma feed_cons ev evs g : feed (ev :: evs) g = feed evs (add_event ev g).2.
Proof. done. Qed.

(** What a run of events adds. *)
Lemma feed_grows evs g :
  graph_ok g ->
  let g' := feed evs g in
  graph_ok g'
  /\ (forall id, id ∈ dom (nodes g') <-> id ∈ dom (nodes g) \/ exists e, e ∈ evs /\ id ∈ names_of e)
  /\ (forall l, l ∈ edges g' <-> l ∈ edges g \/ exists e, e ∈ evs /\ l ∈ links (names_of e))
  /\ (forall k, k ∈ seen g' <-> k ∈ seen g \/ exists e, e ∈ evs /\ k = key_of_event e).
Proof.
  cbn zeta. revert g. induction evs as [|ev evs IH]; intros g H.
  { split; [done|]. repeat split; try tauto; intros [?|(e&He&_)]; try done; by apply not_elem_of_nil in He. }
  rewrite feed_cons.
  destruct (ingest_grows (actor_of ev) (on_behalf_of ev) (key_of_event ev) g H eq_refl) as (_ & K1 & K2 & K3 & K4).
  change (ingest _ _ _ _ g) with (add_event ev g) in *.
  destruct (IH _ K1) as (I1 & I2 & I3 & I4). split; [done|]. split; [|split].
  - intros id. rewrite I2, K2, elem_of_union. change (names _ _) with (names_of ev). rewrite of_names_elem.
    setoid_rewrite elem_of_cons. naive_solver.
  - intros l. rewrite I3, K3, elem_of_union, elem_of_list_to_set. change (names _ _) with (names_of ev).
    setoid_rewrite elem_of_cons. naive_solver.
  - intros k. rewrite I4, K4, elem_of_union, elem_of_singleton. setoid_rewrite elem_of_cons. naive_solver.
Qed.

Lemma from_store_feed evs : from_store (map row_of evs) = feed evs new_graph.
Proof. unfold from_store, feed. generalize new_graph. induction evs as [|ev evs IH]; intros g; [done|]. apply IH. Qed.
Lemma feed_events_app a b g : feed (a ++ b) g = feed b (feed a g).
Proof. unfold feed. by rewrite fold_left_app. Qed.

(** C25: the graph is the set of the events and nothing else: whatever part of
    them was read from the store when the view opened and whatever part
    arrived after it, in whatever order, with whatever overlap and however
    often each came, the graph is the one the store would give of them all. *)
Theorem one_graph_per_set_of_events stored live all :
  (forall e, e ∈ all <-> e ∈ stored \/ e ∈ live) ->
  feed live (from_store (map row_of stored)) = from_store (map row_of all).
Proof.
  intros Hall. rewrite !from_store_feed, <- feed_events_app.
  destruct (feed_grows (stored ++ live) _ new_graph_ok) as (A1 & A2 & A3 & A4).
  destruct (feed_grows all _ new_graph_ok) as (B1 & B2 & B3 & B4).
  assert (forall e, e ∈ stored ++ live <-> e ∈ all) as Hs by (intros e; rewrite Hall, elem_of_app; done).
  apply graph_ext; [done|done|..]; apply set_eq; intros x.
  - rewrite A2, B2. by setoid_rewrite Hs.
  - rewrite A3, B3. by setoid_rewrite Hs.
  - rewrite A4, B4. by setoid_rewrite Hs.
Qed.

Lemma parents_iff a id g : a ∈ parents id g <-> (a, id) ∈ edges g.
Proof.
  unfold parents, edge_list. rewrite list_elem_of_omap. setoid_rewrite merge_sort_Permutation.
  setoid_rewrite elem_of_elements. split.
  - intros ([x y]&Hin&E). cbn in E. destruct (str_eqb y id) eqn:Ey; [|done]. apply str_eqb_eq in Ey as ->. congruence.
  - intros Hin. exists (a, id). split; [done|]. cbn. by rewrite str_eqb_refl.
Qed.
Lemma children_iff b id g : b ∈ children id g <-> (id, b) ∈ edges g.
Proof.
  unfold children, edge_list. rewrite list_elem_of_omap. setoid_rewrite merge_sort_Permutation.
  setoid_rewrite elem_of_elements. split.
  - intros ([x y]&Hin&E). cbn in E. destruct (str_eqb x id) eqn:Ey; [|done]. apply str_eqb_eq in Ey as ->. congruence.
  - intros Hin. exists (id, b). split; [done|]. cbn. by rewrite str_eqb_refl.
Qed.

(** What the graph says of a principal is what the events say of it.  It
    is there exactly when some event names it as the one who acted or in a
    chain; it counts the distinct events filed under it, each once however
    often it was fed; its last timestamp is the latest of theirs; and its
    direct delegators and delegatees are its neighbours in some event's
    chain, the actor at the end, never itself. *)
Theorem graph_says_what_the_events_say evs id :
  let g := feed evs new_graph in
  (nodes g !! id <> None <-> exists e, e ∈ evs /\ id ∈ names_of e)
  /\ (forall n, nodes g !! id = Some n ->
        g_id n = id /\ g_kind n = kind_of id /\ id <> []
        /\ event_count n = Z.of_nat (size (filter (fun k => k_agent k = id) (list_to_set (map key_of_event evs) : gset EventKey)))
        /\ (forall e, e ∈ evs -> actor_of e = id -> str_leb (Ingest.ts e) (last_ts n) = true)
        /\ (last_ts n = [] \/ exists e, e ∈ evs /\ actor_of e = id /\ Ingest.ts e = last_ts n))
  /\ (forall a, a ∈ parents id g <-> exists e, e ∈ evs /\ (a, id) ∈ links (names_of e))
  /\ (forall b, b ∈ children id g <-> exists e, e ∈ evs /\ (id, b) ∈ links (names_of e))
  /\ id ∉ parents id g.
Proof.
  cbn zeta. destruct (feed_grows evs _ new_graph_ok) as (G1 & G2 & G3 & G4). set (g := feed evs new_graph) in *.
  assert (seen g = list_to_set (map key_of_event evs)) as Es.
  { apply set_eq. intros k. rewrite G4, elem_of_list_to_set, list_elem_of_fmap. set_solver. }
  split; [|split; [|split; [|split]]].
  - specialize (G2 id). rewrite elem_of_dom in G2. rewrite <- not_eq_None_Some in G2. rewrite G2. set_solver.
  - intros n Hn. destruct (ok_tallied _ G1 _ _ Hn) as (T1&T2&T3&[T4 T5]). split; [done|]. split; [done|].
    split; [apply (ok_named _ G1); by apply elem_of_dom|]. split; [by rewrite <- Es|]. split.
    + intros e He Ha. apply (T4 (key_of_event e)); [|done]. rewrite G4. eauto.
    + destruct T5 as [?|(k&Hk&Ha&Ht)]; [by left|]. right. apply G4 in Hk as [Hk|(e&He&->)]; [set_solver|]. eauto.
  - intros a. rewrite parents_iff, G3. set_solver.
  - intros b. rewrite children_iff, G3. set_solver.
  - rewrite parents_iff. intros Hin. by destruct (ok_edges _ G1 _ _ Hin).
Qed.

(** The picture holds every node and every link once, in order. *)
Theorem view_is_the_graph g :
  graph_ok g ->
  (forall n, n ∈ v_nodes (view g) <-> exists id, nodes g !! id = Some n) /\ NoDup (map g_id (v_nodes (view g)))
  /\ (forall a b, mkEdge a b ∈ v_edges (view g) <-> (a, b) ∈ edges g)
  /\ Sorted str_le (map g_id (v_nodes (view g))).
Proof.
  intros H.
  assert (map g_id (v_nodes (view g)) = node_ids g) as Eids.
  { cbn. assert (forall ids, (forall id, id ∈ ids -> id ∈ dom (nodes g)) -> map g_id (omap (fun id => nodes g !! id) ids) = ids) as Hmap.
    { intros ids. induction ids as [|id ids IH]; intros Hin; [done|]. cbn.
      destruct (nodes g !! id) as [n|] eqn:E; [|apply not_elem_of_dom in E; destruct E; apply Hin; set_solver].
      cbn. f_equal; [by apply (ok_tallied _ H) in E as [? _]|]. apply IH. set_solver. }
    apply Hmap. intros id. unfold node_ids. rewrite merge_sort_Permutation. by rewrite elem_of_elements. }
  rewrite Eids. split; [|split; [|split]].
  - intros n. cbn. rewrite list_elem_of_omap. unfold node_ids. setoid_rewrite merge_sort_Permutation.
    setoid_rewrite elem_of_elements. split; [intros (id&_&E); eauto|]. intros [id E]. exists id. split; [by apply elem_of_dom|done].
  - unfold node_ids. rewrite merge_sort_Permutation. apply NoDup_elements.
  - intros a b. cbn. rewrite list_elem_of_fmap. unfold edge_list. setoid_rewrite merge_sort_Permutation.
    setoid_rewrite elem_of_elements. split; [intros ([x y]&[= -> ->]&?); done|]. intros ?. by exists (a, b).
  - unfold node_ids. apply Sorted_merge_sort. intros a b. apply lex_leb_total.
Qed.

(** ** A concrete instance: a delegation, a replay of it and a forged call *)
Definition demo_ev (type_ agent t : str) (chain : list str) (d : option value) : AgentEvent :=
  mkEvent #"taipanbox.dev/agent-event/v0.1" t #"tokenfuse" type_ agent None None chain d None [].
Definition bot : str := #"agent://acme/billing/bot".
Definition ann : str := #"user://acme/ann".
Definition demo_call : AgentEvent := demo_ev #"model_call" bot #"2026-10-01T10:00:00Z" [ann; []; #"agent://acme/ops/lead"] None.
Definition demo_later_call : AgentEvent := demo_ev #"model_call" bot #"2026-10-01T11:00:00Z" [] None.
Definition demo_forged : AgentEvent :=
  demo_ev #"identity_mismatch" bot #"2026-10-01T12:00:00Z" [] (Some (obj [(#"key_id", VStr #"forge")])).
Definition demo_stored : list AgentEvent := [demo_call; demo_forged].
Definition demo_live : list AgentEvent := [demo_later_call; demo_call].

Example demo_slice :
  agent_slice bot (feed demo_live (from_store (map row_of demo_stored)))
  = mkSlice (Some (mkNode bot KAgent 2 #"2026-10-01T11:00:00Z"))
      [mkNode #"agent://acme/ops/lead" KAgent 0 []] [].
Proof. by vm_compute. Qed.
(** The forged call is the key's, not the agent's it named. *)
Example demo_key_node :
  nodes (feed demo_stored new_graph) !! #"key:forge" = Some (mkNode #"key:forge" KOther 1 #"2026-10-01T12:00:00Z").
Proof. by vm_compute. Qed.
Lemma one_graph_per_set_of_events_witness :
  feed demo_live (from_store (map row_of demo_stored)) = from_store (map row_of [demo_later_call; demo_forged; demo_call]).
Proof.
  apply (one_graph_per_set_of_events demo_stored demo_live). intros e. unfold demo_stored, demo_live.
  rewrite !elem_of_cons. tauto.
Defined.
