(* ===== verification/JsonCode.v ===== *)
(** * JsonCode: a reader and a writer of JSON values

    serde_json's reader and writer are parameters of the components that use
    them.  This pair has the behaviour they document (an object is written
    between braces on one line, and what is written is read back), so that a
    property stated over every such pair can be applied to one.  A value is
    written as a list of integers in decimal, each with its comma. *)
From S2P Require Import Prelude Text Json Signing.

(** ** A value as integers *)

Definition counted (s : str) : list Z := Z.of_nat (length s) :: s.
Definition sign_of (b : bool) : Z := if b then 1 else 0.

Fixpoint stream (v : value) : list Z :=
  match v with
  | VNull => [0]
  | VBool b => [1; sign_of b]
  | VNum (NInt z) => [2; z]
  | VNum (NFloat x) => [3; sign_of (f_neg x); f_exp x] ++ counted (f_digits x)
  | VStr s => 4 :: counted s
  | VArr items => 5 :: Z.of_nat (length items) :: concat (map stream items)
  | VObj ms => 6 :: Z.of_nat (length ms) :: concat (map (fun kv => counted kv.1 ++ stream kv.2) ms)
  end.

Definition take_counted (l : list Z) : option (str * list Z) :=
  match l with n :: l => Some (firstn (Z.to_nat n) l, skipn (Z.to_nat n) l) | [] => None end.

(** [n] things read one after the other. *)
Fixpoint times {A} (read : list Z -> option (A * list Z)) (n : nat) (l : list Z) : option (list A * list Z) :=
  match n with
  | O => Some ([], l)
  | S n => let! (a, l) := read l in let! (rest, l) := times read n l in Some (a :: rest, l)
  end.

(** Fuel bounds the nesting. *)
Fixpoint unstream (fuel : nat) (l : list Z) : option (value * list Z) :=
  match fuel, l with
  | S fuel, tag :: l =>
      if tag =? 0 then Some (VNull, l)
      else if tag =? 1 then match l with b :: l => Some (VBool (b =? 1), l) | [] => None end
      else if tag =? 2 then match l with z :: l => Some (VNum (NInt z), l) | [] => None end
      else if tag =? 3 then
        match l with
        | b :: e :: l => let! (ds, l) := take_counted l in Some (VNum (NFloat (F64 (b =? 1) ds e)), l)
        | _ => None
        end
      else if tag =? 4 then let! (s, l) := take_counted l in Some (VStr s, l)
      else
        match l with
        | n :: l =>
            if tag =? 5 then let! (vs, l) := times (unstream fuel) (Z.to_nat n) l in Some (VArr vs, l)
            else
              let! (ms, l) := times (fun l => let! (k, l) := take_counted l in let! (v, l) := unstream fuel l in Some ((k, v), l))
                                (Z.to_nat n) l in
              Some (VObj ms, l)
        | [] => None
        end
  | _, _ => None
  end.

Fixpoint depth (v : value) : nat :=
  match v with
  | VArr items => S (fold_right (fun v d => Nat.max (depth v) d) O items)
  | VObj ms => S (fold_right (fun kv d => Nat.max (depth kv.2) d) O ms)
  | _ => O
  end.

Lemma take_counted_app s l : take_counted (counted s ++ l) = Some (s, l).
Proof. unfold take_counted, counted. simpl. rewrite Nat2Z.id, take_app_length, drop_app_length. done. Qed.

Lemma times_concat {A} (read : list Z -> option (A * list Z)) (write : A -> list Z) xs rest :
  Forall (fun a => forall l, read (write a ++ l) = Some (a, l)) xs ->
  times read (length xs) (concat (map write xs) ++ rest) = Some (xs, rest).
Proof.
  induction 1 as [|a xs Ha _ IH]; [done|]. cbn [length times map concat]. rewrite <- app_assoc, Ha, IH. done.
Qed.

Lemma sign_of_eq b : (sign_of b =? 1) = b.
Proof. by destruct b. Qed.

Lemma unstream_stream v : forall fuel rest, (depth v < fuel)%nat -> unstream fuel (stream v ++ rest) = Some (v, rest).
Proof.
  induction v as [|b|[z|[n ds e]]|s|vs IH|ms IH] using value_nested_ind; intros [|fuel] rest Hf; try (simpl in Hf; lia).
  - done.
  - simpl. by rewrite sign_of_eq.
  - done.
  - cbn [unstream stream f_neg f_exp f_digits app]. change (3 =? 0) with false. change (3 =? 1) with false.
    change (3 =? 2) with false. change (3 =? 3) with true. cbv iota. by rewrite take_counted_app, sign_of_eq.
  - cbn [unstream stream app]. change (4 =? 0) with false. change (4 =? 1) with false.
    change (4 =? 2) with false. change (4 =? 3) with false. change (4 =? 4) with true. cbv iota. by rewrite take_counted_app.
  - cbn [unstream stream app]. change (5 =? 0) with false. change (5 =? 1) with false.
    change (5 =? 2) with false. change (5 =? 3) with false. change (5 =? 4) with false. change (5 =? 5) with true. cbv iota.
    rewrite Nat2Z.id, times_concat; [done|]. cbn [depth] in Hf. clear rest. induction IH as [|v vs Hv _ IH]; [constructor|].
    cbn [fold_right] in Hf. constructor; [intros l; apply Hv; lia|apply IH; lia].
  - cbn [unstream stream app]. change (6 =? 0) with false. change (6 =? 1) with false.
    change (6 =? 2) with false. change (6 =? 3) with false. change (6 =? 4) with false. change (6 =? 5) with false. cbv iota.
    rewrite Nat2Z.id, times_concat; [done|]. cbn [depth] in Hf. clear rest. induction IH as [|[k v] ms Hv _ IH]; [constructor|].
    cbn [fold_right snd] in *. constructor; [|apply IH; lia]. intros l. cbn [fst snd].
    rewrite <- app_assoc, take_counted_app, Hv by lia. done.
Qed.

Lemma depth_length v : (depth v < length (stream v))%nat.
Proof.
  assert (Hc : forall s, length (counted s) = S (length s)) by done.
  induction v as [|b|[z|x]|s|vs IH|ms IH] using value_nested_ind; simpl; try lia.
  - induction IH as [|v vs Hv _ IH]; simpl; [lia|]. rewrite length_app. lia.
  - induction IH as [|[k v] ms Hv _ IH]; simpl in *; [lia|]. rewrite !length_app. lia.
Qed.

(** ** The integers as text *)

Definition code_body (v : value) : str := flat_map (fun z => dec z ++ [44]) (stream v).
Definition code_text (v : value) : str := [123] ++ code_body v ++ [125].

Definition read_int (s : str) : Z :=
  match s with c :: t => if c =? 45 then - digits_value t else digits_value s | [] => 0 end.
Definition code_read (bs : list Z) : option value :=
  match bs with
  | 123 :: bs =>
      let l := map read_int (split_char 44 (removelast bs)) in
      let! (v, _) := unstream (length l) l in Some v
  | _ => None
  end.

Lemma dec_chars n : Forall (fun c => 45 <= c <= 57) (dec n) /\ 44 ∉ dec n /\ read_int (dec n) = n.
Proof.
  assert (Hall : forall m, 0 <= m -> Forall (fun c => 48 <= c <= 57) (dec_nat m) /\ digits_value (dec_nat m) = m).
  { intros m Hm. destruct (dec_nat_spec m Hm) as (H & _ & Hv). split; [|done].
    unfold all_digits in H. apply forallb_Forall in H. eapply Forall_impl; [exact H|].
    unfold ascii_digit. intros c Hc. simpl in Hc. lia. }
  assert (Hrange : forall m, 0 <= m -> Forall (fun c => 45 <= c <= 57) (dec_nat m) /\ 44 ∉ dec_nat m).
  { intros m Hm. destruct (Hall m Hm) as [H _]. split; [eapply Forall_impl; [exact H|]; intros c Hc; simpl in Hc; lia|].
    intros Hin. rewrite List.Forall_forall in H. apply list_elem_of_In, H in Hin. lia. }
  unfold dec. destruct (n <? 0) eqn:E; b2p.
  - destruct (Hall (- n)) as [_ Hv]; [lia|]. destruct (Hrange (- n)) as [Hr Hn]; [lia|]. split; [|split].
    + constructor; [lia|done].
    + apply not_elem_of_cons. done.
    + simpl. rewrite Hv. lia.
  - destruct (Hall n E) as [Hd Hv]. destruct (Hrange n E) as [Hr Hn]. split; [done|]. split; [done|].
    unfold read_int. destruct (dec_nat n) as [|c t] eqn:El; [by unfold digits_value in Hv|].
    apply Forall_inv in Hd. destruct (Z.eqb_spec c 45); [lia|done].
Qed.

Lemma code_chars v : Forall (fun c => 44 <= c <= 57) (code_body v).
Proof.
  unfold code_body. induction (stream v) as [|z l IH]; [constructor|]. cbn [flat_map]. apply Forall_app. split; [|exact IH].
  apply Forall_app. split; [|by repeat constructor]. eapply Forall_impl; [apply dec_chars|]. intros c Hc. simpl in Hc. lia.
Qed.

Lemma read_stream l : map read_int (split_char 44 (flat_map (fun z => dec z ++ [44]) l)) = l ++ [0].
Proof.
  induction l as [|z l IH]; [done|]. cbn [flat_map]. rewrite <- app_assoc. cbn [app].
  destruct (dec_chars z) as (_ & Hn & Hr). rewrite split_char_app by done. cbn [map app]. by rewrite Hr, IH.
Qed.

Lemma code_round v : code_read (str_bytes (code_text v)) = Some v.
Proof.
  rewrite str_bytes_ascii.
  - unfold code_text, code_read. simpl. rewrite removelast_last. unfold code_body. rewrite read_stream, unstream_stream; [done|].
    rewrite length_app. simpl. pose proof (depth_length v). lia.
  - unfold code_text. rewrite !Forall_app. split_and!; [by repeat constructor| |by repeat constructor].
    eapply Forall_impl; [apply code_chars|]. simpl. lia.
Qed.

Definition code_json : JsonText := {| json_of := code_read; json_text := code_text |}.
