(* ===== verification/Jcs.v ===== *)
(** * Jcs: the canonical form of a JSON value ([crates/api/src/seal/jcs.rs])

    RFC 8785: no whitespace, members in the order of the UTF-16 code units of
    their names, strings and numbers as ECMAScript writes them, and an integer
    past 2^53 - 1 refused.  A member's text is computed before the members are
    sorted, which gives the same text: there is one error. *)
From S2P Require Import Prelude Text Json.

Definition MAX_EXACT_INT : Z := 9007199254740991.

Inductive JcsError : Type := IntegerNotExact.

(** [str::encode_utf16]. *)
Definition utf16_char (c : Z) : list Z :=
  if c <? 65536 then [c]
  else [55296 + (c - 65536) / 1024; 56320 + (c - 65536) mod 1024].
Definition encode_utf16 (s : str) : list Z := flat_map utf16_char s.
Definition utf16_leb (a b : str) : bool := lex_leb (encode_utf16 a) (encode_utf16 b).

(** [write_string]. *)
Definition write_char (c : Z) : str :=
  if c =? 34 then [92; 34]
  else if c =? 92 then [92; 92]
  else if c =? 8 then [92; 98]
  else if c =? 9 then [92; 116]
  else if c =? 10 then [92; 110]
  else if c =? 12 then [92; 102]
  else if c =? 13 then [92; 114]
  else if c <? 32 then [92; 117] ++ hex4 c
  else [c].
Definition write_string (s : str) : str := [34] ++ flat_map write_char s ++ [34].

(** [es6_number]: the digits and the exponent are what [{:e}] prints. *)
Definition zeros (n : Z) : str := repeat 48 (Z.to_nat n).
Definition es6_number (x : f64) : str :=
  if bool_decide (f_digits x = [0]) then #"0"
  else
    let sign := if f_neg x then #"-" else [] in
    let digits := map (fun d => 48 + d) (f_digits x) in
    let n := f_exp x + 1 in
    let k := Z.of_nat (length digits) in
    let body :=
      if (k <=? n) && (n <=? 21) then digits ++ zeros (n - k)
      else if (0 <? n) && (n <=? 21)
      then firstn (Z.to_nat n) digits ++ #"." ++ skipn (Z.to_nat n) digits
      else if (-6 <? n) && (n <=? 0) then #"0." ++ zeros (- n) ++ digits
      else
        let e := n - 1 in
        let sign_e := if e <? 0 then #"-" else #"+" in
        if k =? 1 then digits ++ #"e" ++ sign_e ++ dec (Z.abs e)
        else firstn 1 digits ++ #"." ++ skipn 1 digits ++ #"e" ++ sign_e ++ dec (Z.abs e) in
    sign ++ body.

Definition number_text (n : number) : result str JcsError :=
  match n with
  | NInt z => if Z.abs z <=? MAX_EXACT_INT then Ok (dec z) else Err IntegerNotExact
  | NFloat x => Ok (es6_number x)
  end.

(** Stop at the first error. *)
Fixpoint collect {A E} (rs : list (result A E)) : result (list A) E :=
  match rs with
  | [] => Ok []
  | r :: rs => let? a := r in let? l := collect rs in Ok (a :: l)
  end.

Definition member_text (kt : str * str) : str := write_string kt.1 ++ #":" ++ kt.2.
Definition key_leb {A} (a b : str * A) : bool := utf16_leb a.1 b.1.

(** [write_value]. *)
Fixpoint canonical (v : value) : result str JcsError :=
  match v with
  | VNull => Ok #"null"
  | VBool true => Ok #"true"
  | VBool false => Ok #"false"
  | VNum n => number_text n
  | VStr s => Ok (write_string s)
  | VArr items =>
      let? ts := collect (map canonical items) in
      Ok (#"[" ++ join #"," ts ++ #"]")
  | VObj ms =>
      let? ts := collect (map (fun kv => let? t := canonical kv.2 in Ok (kv.1, t)) ms) in
      Ok (#"{" ++ join #"," (map member_text (isort key_leb ts)) ++ #"}")
  end.

(** ** What the texts are compared by *)

(** A value of the documents a pack holds: members in the order of a [Map],
    characters that are scalar values, and no fractions. *)
Fixpoint plain_value (v : value) : Prop :=
  match v with
  | VNull | VBool _ => True
  | VNum (NInt _) => True
  | VNum (NFloat _) => False
  | VStr s => valid_str s
  | VArr items => (fix go l := match l with [] => True | x :: l => plain_value x /\ go l end) items
  | VObj ms =>
      strict_keys ms
      /\ (fix go l := match l with [] => True | (k, x) :: l => valid_str k /\ plain_value x /\ go l end) ms
  end.

(** Text that ends a value inside a document. *)
Definition ender (r : str) : Prop :=
  match r with [] => True | c :: _ => c = 44 \/ c = 93 \/ c = 125 end.

(** ** Lemmas *)

Lemma collect_Forall2 {A B E} (f : A -> result B E) l ts :
  collect (map f l) = Ok ts -> Forall2 (fun a b => f a = Ok b) l ts.
Proof.
  revert ts; induction l as [|a l IH]; intros ts; simpl; [intros [= <-]; constructor|].
  intros Hc. oks Hc. injection Hc as <-. constructor; auto.
Qed.

Lemma hex4_inj a b r r' :
  0 <= a < 32 -> 0 <= b < 32 -> hex4 a ++ r = hex4 b ++ r' -> a = b /\ r = r'.
Proof.
  intros Ha Hb. unfold hex4, hex2, hex_digit. simpl. intros [= E1 E2 E3 E4 E5].
  split; [|done]. clear E1 E2. revert E3 E4. repeat case_match; b2p; Z.div_mod_to_equations; lia.
Qed.

Lemma write_char_inj c c' r r' :
  is_scalar c = true -> is_scalar c' = true ->
  write_char c ++ r = write_char c' ++ r' -> c = c' /\ r = r'.
Proof.
  intros Hc Hc'. assert (0 <= c /\ 0 <= c') as [??] by (unfold is_scalar in *; b2p; lia).
  pose proof (hex4_inj c c' r r') as Hx. unfold write_char.
  revert Hx; generalize (hex4 c) as h, (hex4 c') as h'; intros h h' Hx.
  repeat case_match; simpl; b2p; intros E; simplify_eq; try (split; [lia|done]); try lia.
  apply Hx; [lia..|done].
Qed.

Lemma write_char_head c r x : is_scalar c = true -> write_char c ++ r <> 34 :: x.
Proof.
  intros Hc. unfold write_char. generalize (hex4 c) as h; intros h.
  repeat case_match; simpl; b2p; intros E; simplify_eq; lia.
Qed.

Lemma write_string_inj s s' r r' :
  valid_str s -> valid_str s' -> write_string s ++ r = write_string s' ++ r' -> s = s' /\ r = r'.
Proof.
  intros Hs Hs'. unfold write_string. simpl. intros [= E]. rewrite <- !app_assoc in E. simpl in E.
  revert s' Hs' E; induction Hs as [|c s Hc _ IH]; intros s' Hs' E; destruct Hs' as [|c' s' Hc' Hs']; simpl in E.
  - by injection E.
  - rewrite <- app_assoc in E. by destruct (write_char_head c' (flat_map write_char s' ++ 34 :: r') r Hc').
  - rewrite <- app_assoc in E. by destruct (write_char_head c (flat_map write_char s ++ 34 :: r) r' Hc).
  - rewrite <- !app_assoc in E. apply write_char_inj in E as [-> E]; [|done..].
    apply IH in E as [-> ->]; done.
Qed.

(** Digits end where a non-digit begins. *)
Definition not_digit_head (r : str) : Prop := match r with c :: _ => ascii_digit c = false | [] => True end.

Lemma digits_split a b r r' :
  all_digits a = true -> all_digits b = true -> not_digit_head r -> not_digit_head r' ->
  a ++ r = b ++ r' -> a = b /\ r = r'.
Proof.
  unfold all_digits. revert b; induction a as [|x a IH]; intros [|y b] Ha Hb Hr Hr'; simpl in *.
  - done.
  - intros ->. simpl in Hr. b2p. destruct_and!. congruence.
  - intros <-. simpl in Hr'. b2p. destruct_and!. congruence.
  - intros [= -> E]. b2p. destruct_and!. apply IH in E as [-> ->]; done.
Qed.

Lemma ender_not_digit r : ender r -> not_digit_head r.
Proof. destruct r; simpl; [done|]. unfold ascii_digit. intros [->|[->| ->]]; done. Qed.

Lemma dec_inj_ender z z' r r' :
  ender r -> ender r' -> dec z ++ r = dec z' ++ r' -> z = z' /\ r = r'.
Proof.
  intros Hr%ender_not_digit Hr'%ender_not_digit. unfold dec.
  assert (forall n, 0 <= n -> all_digits (dec_nat n) = true /\ dec_nat n <> []) as Hd
    by (intros n Hn; destruct (dec_nat_spec n Hn) as (?&?&?); done).
  assert (forall n x y, 0 <= n -> dec_nat n ++ x <> 45 :: y) as Hm.
  { intros n x y Hn E. destruct (dec_nat n) as [|c s] eqn:En; [by apply Hd in Hn as [_ ?]|].
    apply dec_nat_digit_head in En; [|done]. injection E as -> _. done. }
  destruct (z <? 0) eqn:E1, (z' <? 0) eqn:E2; b2p; intros E; simpl in E.
  - injection E as E. apply digits_split in E as [E ->]; [|apply Hd; lia..|done|done].
    apply dec_nat_inj in E; [|lia..]. split; [lia|done].
  - symmetry in E. by apply Hm in E.
  - by apply Hm in E.
  - apply digits_split in E as [E ->]; [|apply Hd; lia..|done|done].
    apply dec_nat_inj in E; [|lia..]. done.
Qed.

Lemma join_cons t ts : join #"," (t :: ts) = t ++ flat_map (fun t => 44 :: t) ts.
Proof. revert t; induction ts as [|t' ts IH]; intros t; [by rewrite app_nil_r|]. simpl in *. by rewrite <- IH. Qed.

(** The first character of a canonical text says what the value is. *)
Definition head_of (v : value) (c : Z) : Prop :=
  match v with
  | VNull => c = 110 | VBool true => c = 116 | VBool false => c = 102
  | VNum _ => c = 45 \/ 48 <= c <= 57 | VStr _ => c = 34 | VArr _ => c = 91 | VObj _ => c = 123
  end.

Lemma canonical_head v s :
  plain_value v -> canonical v = Ok s -> exists c r, s = c :: r /\ head_of v c.
Proof.
  destruct v as [|[]|[z|x]|t|items|ms]; simpl; intros Hp E; try done;
    try (injection E as <-; eexists _, _; split; [reflexivity|done]).
  - case_match; [|done]. injection E as <-. unfold dec. case_match; b2p.
    + eexists _, _. split; [reflexivity|by left].
    + destruct (dec_nat z) as [|c s] eqn:En; [by destruct (dec_nat_spec z) as (_&?&_); [lia|]|].
      apply dec_nat_digit_head in En; [|lia]. unfold ascii_digit in En. b2p.
      eexists _, _. split; [done|lia].
  - oks E. injection E as <-. eexists _, _. split; [reflexivity|done].
  - oks E. injection E as <-. eexists _, _. split; [reflexivity|done].
Qed.

Definition injective_text (v : value) : Prop :=
  plain_value v -> forall v' s s' r r',
    plain_value v' -> canonical v = Ok s -> canonical v' = Ok s' -> ender r -> ender r' ->
    s ++ r = s' ++ r' -> v = v' /\ r = r'.

Lemma items_inj items : Forall injective_text items -> Forall plain_value items ->
  forall items' ts ts' r r', Forall plain_value items' ->
    Forall2 (fun v t => canonical v = Ok t) items ts ->
    Forall2 (fun v t => canonical v = Ok t) items' ts' ->
    flat_map (fun t => 44 :: t) ts ++ 93 :: r = flat_map (fun t => 44 :: t) ts' ++ 93 :: r' ->
    items = items' /\ r = r'.
Proof.
  induction 1 as [|v items Hv _ IH]; intros Hp items' ts ts' r r' Hp' H1 H2 E;
    inversion H1; subst; inversion H2; subst; simpl in E.
  - by injection E.
  - by injection E.
  - by injection E.
  - injection E as E. rewrite <- !app_assoc in E.
    apply Forall_cons in Hp as [Hpv Hp], Hp' as [Hpv' Hp'].
    eapply Hv in E as [-> E]; [|done..| |].
    + eapply IH in E as [-> ->]; done.
    + match goal with |- ender (flat_map _ ?l ++ _) => destruct l; simpl; auto end.
    + match goal with |- ender (flat_map _ ?l ++ _) => destruct l; simpl; auto end.
Qed.

(** ** Members: sorting, and the texts they carry *)

Definition member_ok (kv : str * value) (kt : str * str) : Prop :=
  kt.1 = kv.1 /\ canonical kv.2 = Ok kt.2.

Lemma collect_members ms ts :
  collect (map (fun kv => let? t := canonical kv.2 in Ok (kv.1, t)) ms) = Ok ts ->
  Forall2 member_ok ms ts.
Proof.
  intros H%collect_Forall2. eapply Forall2_impl; [exact H|]. intros [k v] [k' t] E. simpl in E.
  oks E. injection E as <- <-. done.
Qed.

Lemma sinsert_Forall2 kv kt ms ts :
  member_ok kv kt -> Forall2 member_ok ms ts ->
  Forall2 member_ok (sinsert key_leb kv ms) (sinsert key_leb kt ts).
Proof.
  intros Hm. induction 1 as [|kv' kt' ms ts Hm' Hms IH]; simpl; [by constructor|].
  assert (key_leb kt kt' = key_leb kv kv') as ->
    by (unfold key_leb; destruct Hm as [-> _], Hm' as [-> _]; done).
  case_match; repeat (constructor; try done).
Qed.

Lemma isort_Forall2 ms ts :
  Forall2 member_ok ms ts -> Forall2 member_ok (isort key_leb ms) (isort key_leb ts).
Proof. induction 1; simpl; [constructor|]. by apply sinsert_Forall2. Qed.

Definition plain_member (kv : str * value) : Prop := valid_str kv.1 /\ plain_value kv.2.

Lemma plain_items l : plain_value (VArr l) <-> Forall plain_value l.
Proof.
  induction l as [|v l IH]; simpl; [split; [constructor|done]|].
  rewrite Forall_cons. simpl in IH. by rewrite IH.
Qed.

Lemma plain_members ms : plain_value (VObj ms) <-> strict_keys ms /\ Forall plain_member ms.
Proof.
  simpl. apply and_iff_compat_l. induction ms as [|[k v] ms IH]; [split; [constructor|done]|].
  rewrite Forall_cons, IH. unfold plain_member. simpl. tauto.
Qed.

Lemma plain_obj ms : Forall plain_member ms -> plain_value (obj ms).
Proof. intros H. destruct (obj_all _ _ H) as (ms'&->&?). by apply plain_members. Qed.

Lemma member_text_inj kt kt' x x' :
  valid_str kt.1 -> valid_str kt'.1 -> member_text kt ++ x = member_text kt' ++ x' ->
  kt.1 = kt'.1 /\ kt.2 ++ x = kt'.2 ++ x'.
Proof.
  unfold member_text. intros H H' E. rewrite <- !app_assoc in E.
  apply write_string_inj in E as [-> E]; [|done..]. by injection E.
Qed.

Lemma members_inj ms : Forall (fun kv => injective_text kv.2) ms -> Forall plain_member ms ->
  forall ms' ts ts' r r', Forall plain_member ms' ->
    Forall2 member_ok ms ts -> Forall2 member_ok ms' ts' ->
    flat_map (fun t => 44 :: t) (map member_text ts) ++ 125 :: r
    = flat_map (fun t => 44 :: t) (map member_text ts') ++ 125 :: r' ->
    ms = ms' /\ r = r'.
Proof.
  induction 1 as [|[k v] ms Hv _ IH]; intros Hp ms' ts ts' r r' Hp' H1 H2 E;
    inversion H1 as [|? [k1 t1] ? ? Hm1 Hr1]; subst; inversion H2 as [|[k' v'] [k2 t2] ? ? Hm2 Hr2]; subst;
    try (simpl in E; by injection E).
  - cbn [map flat_map] in E. rewrite <- !app_comm_cons in E. apply (f_equal tl) in E. cbn [tl] in E.
    rewrite <- !app_assoc in E. destruct Hm1 as [Hk1 Hc1], Hm2 as [Hk2 Hc2]; cbn [fst snd] in *; subst k1 k2.
    apply Forall_cons in Hp as [[Hpk Hpv] Hp], Hp' as [[Hpk' Hpv'] Hp'].
    apply member_text_inj in E as [Ek E]; [|done..]. cbn [fst snd] in Ek, E. subst k'.
    eapply Hv in E as [-> E]; [|done..| |].
    + eapply IH in E as [-> ->]; done.
    + match goal with |- ender (flat_map _ (map _ ?l) ++ _) => destruct l; simpl; auto end.
    + match goal with |- ender (flat_map _ (map _ ?l) ++ _) => destruct l; simpl; auto end.
Qed.

Lemma strict_keys_perm ms ms' :
  strict_keys ms -> strict_keys ms' -> Permutation ms ms' -> ms = ms'.
Proof.
  intros H; revert ms'; induction H as [|k v ms Hall Hs IH]; intros ms' H' Hp.
  { by apply Permutation_nil in Hp. }
  destruct H' as [|k' v' ms' Hall' Hs'].
  { symmetry in Hp. by apply Permutation_nil in Hp. }
  assert ((k, v) = (k', v')) as Heq.
  { rewrite List.Forall_forall in Hall, Hall'.
    pose proof (Permutation_in (k, v) Hp (or_introl eq_refl)) as [->|Hin]; [done|].
    pose proof (Permutation_in (k', v') (Permutation_sym Hp) (or_introl eq_refl)) as [->|Hin']; [done|].
    apply Hall in Hin'. apply Hall' in Hin. simpl in *.
    pose proof (str_ltb_trans _ _ _ (str_ltb_leb _ _ Hin') Hin) as Hc. by rewrite str_ltb_irrefl in Hc. }
  injection Heq as <- <-. f_equal. apply IH; [done|]. by eapply Permutation_cons_inv.
Qed.

Lemma array_text items s r :
  canonical (VArr items) = Ok s -> exists ts,
    Forall2 (fun v t => canonical v = Ok t) items ts
    /\ (44 :: s) ++ r = 44 :: 91 :: join #"," ts ++ 93 :: r.
Proof.
  simpl. intros E. oks E. injection E as <-. exists x. split; [by apply collect_Forall2|].
  simpl. by rewrite <- app_assoc.
Qed.

(** A list of texts with its closing bracket, up to a leading comma. *)
Lemma join_flat c ts r ts' r' :
  Forall (fun t => exists x y, t = x :: y /\ x <> c) ts -> Forall (fun t => exists x y, t = x :: y /\ x <> c) ts' ->
  join #"," ts ++ c :: r = join #"," ts' ++ c :: r' ->
  flat_map (fun t => 44 :: t) ts ++ c :: r = flat_map (fun t => 44 :: t) ts' ++ c :: r'.
Proof.
  intros H H'. destruct ts as [|t ts], ts' as [|t' ts']; rewrite ?join_cons.
  - done.
  - apply Forall_cons in H' as [(x&y&->&Hx) _]. simpl. intros E. injection E. congruence.
  - apply Forall_cons in H as [(x&y&->&Hx) _]. simpl. intros E. injection E. congruence.
  - intros E. simpl. f_equal. by rewrite <- !app_assoc in *.
Qed.

Lemma item_heads items ts :
  Forall plain_value items -> Forall2 (fun v t => canonical v = Ok t) items ts ->
  Forall (fun t => exists x y, t = x :: y /\ x <> 93) ts.
Proof.
  intros Hp H; induction H as [|v t items ts Hv _ IH]; [constructor|].
  apply Forall_cons in Hp as [Hpv Hp]. constructor; [|by apply IH].
  destruct (canonical_head v t Hpv Hv) as (c&y&->&Hc). exists c, y. split; [done|].
  destruct v as [|[]|[]| | | ]; simpl in Hc; lia.
Qed.

Lemma member_heads ts : Forall (fun t => exists x y, t = x :: y /\ x <> 125) (map member_text ts).
Proof.
  apply List.Forall_map, List.Forall_forall. intros kt _. unfold member_text, write_string.
  eexists 34, _. split; [reflexivity|lia].
Qed.

(** The six cases where both values have the same shape. *)
Lemma array_inj items : Forall injective_text items -> injective_text (VArr items).
Proof.
  intros IH Hp v' s s' r r' Hp' E E' Hr Hr' Heq.
  destruct (canonical_head _ _ Hp E) as (c&y&->&->), (canonical_head _ _ Hp' E') as (c'&y'&->&Hc').
  injection Heq as <- Heq. destruct v' as [|[]|[]|t'|items'|ms']; simpl in Hc'; try done; try lia.
  rewrite plain_items in Hp, Hp'. simpl in E, E'. oks E. oks E'.
  apply collect_Forall2 in Hx, Hx0. injection E as <-. injection E' as <-.
  rewrite <- !app_assoc in Heq. cbn [app lit] in Heq.
  apply join_flat in Heq; [|exact (item_heads _ _ Hp Hx)|exact (item_heads _ _ Hp' Hx0)].
  by apply (items_inj items IH Hp items' x x0) in Heq as [-> ->].
Qed.

Lemma object_inj ms : Forall (fun kv => injective_text kv.2) ms -> injective_text (VObj ms).
Proof.
  intros IH Hp v' s s' r r' Hp' E E' Hr Hr' Heq.
  destruct (canonical_head _ _ Hp E) as (c&y&->&->), (canonical_head _ _ Hp' E') as (c'&y'&->&Hc').
  injection Heq as <- Heq. destruct v' as [|[]|[]|t'|items'|ms']; simpl in Hc'; try done; try lia.
  rewrite plain_members in Hp, Hp'. destruct Hp as [Hs Hp], Hp' as [Hs' Hp'].
  simpl in E, E'. oks E. oks E'. apply collect_members, isort_Forall2 in Hx, Hx0.
  injection E as <-. injection E' as <-. rewrite <- !app_assoc in Heq. cbn [app lit] in Heq.
  apply join_flat in Heq; [|apply member_heads..].
  assert (forall (P : str * value -> Prop) l, Forall P l -> Forall P (isort key_leb l)) as Hfp
    by (intros P l Hl; eapply Permutation_Forall; [|exact Hl]; symmetry; apply isort_perm).
  apply (members_inj (isort key_leb ms) (Hfp _ _ IH) (Hfp _ _ Hp) (isort key_leb ms')) in Heq as [Heq ->];
    [|by apply Hfp|done..].
  split; [|done]. f_equal. apply strict_keys_perm; [done..|].
  rewrite <- (isort_perm key_leb ms), Heq. apply isort_perm.
Qed.

Lemma canonical_prefix_inj v : injective_text v.
Proof.
  induction v as [|b|n|t|items IH|ms IH] using value_nested_ind; [| | | |by apply array_inj|by apply object_inj];
    intros Hp v' s s' r r' Hp' E E' Hr Hr' Heq;
    destruct (canonical_head _ _ Hp E) as (c&y&Hs&Hc), (canonical_head _ _ Hp' E') as (c'&y'&Hs'&Hc');
    (assert (c = c') as <- by (rewrite Hs, Hs' in Heq; simpl in Heq; by injection Heq));
    destruct v' as [|b'|n'|t'|items'|ms']; simpl in Hc, Hc'; repeat case_match; try lia; subst; try done;
    simpl in E, E'.
  1-3: rewrite E in E'; injection E' as ->; by apply app_inv_head in Heq.
  - destruct n as [z|], n' as [z'|]; simpl in *; try done. repeat case_match; try done.
    change ((c :: y) ++ r = (c :: y') ++ r') in Heq.
    injection E as E. injection E' as E'. rewrite <- E, <- E' in Heq.
    by apply dec_inj_ender in Heq as [-> ->].
  - change ((34 :: y) ++ r = (34 :: y') ++ r') in Heq. injection E as E. injection E' as E'.
    assert (write_string t ++ r = write_string t' ++ r') as Hw by (unfold write_string; by rewrite E, E').
    by apply write_string_inj in Hw as [-> ->].
Qed.

(** ** Properties *)

(** The canonical form is unambiguous.  Two values of a pack's kind whose
    canonical texts are the same are the same value, so a digest of the text
    names one document. *)
Theorem canonical_injective v v' s :
  plain_value v -> plain_value v' -> canonical v = Ok s -> canonical v' = Ok s -> v = v'.
Proof.
  intros Hp Hp' E E'. by destruct (canonical_prefix_inj v Hp v' s s [] [] Hp' E E' I I eq_refl).
Qed.

(** Every integer of the value can be written exactly. *)
Fixpoint exact_ints (v : value) : bool :=
  match v with
  | VNum (NInt z) => Z.abs z <=? MAX_EXACT_INT
  | VArr items => forallb exact_ints items
  | VObj ms => forallb (fun kv => exact_ints kv.2) ms
  | _ => true
  end.

Lemma collect_ok {A B E} (f : A -> result B E) l :
  is_ok (collect (map f l)) = forallb (fun a => is_ok (f a)) l.
Proof. induction l as [|a l IH]; [done|]. simpl. destruct (f a); simpl; [|done]. rewrite <- IH. by destruct (collect _). Qed.

Lemma canonical_ok_exact v : is_ok (canonical v) = exact_ints v.
Proof.
  induction v as [|[]|[z|x]|t|items IH|ms IH] using value_nested_ind; try done; simpl.
  - by case_match.
  - transitivity (is_ok (collect (map canonical items))); [by destruct (collect _)|].
    rewrite collect_ok. induction IH as [|v items Hv _ IHi]; [done|]. simpl. by rewrite Hv, IHi.
  - transitivity (is_ok (collect (map (fun kv => let? t := canonical kv.2 in Ok (kv.1, t)) ms)));
      [by destruct (collect _)|].
    rewrite collect_ok. induction IH as [|[k v] ms Hv _ IHi]; [done|]. simpl in *.
    rewrite IHi. f_equal. rewrite <- Hv. by destruct (canonical v).
Qed.

(** A value has a canonical form exactly when it holds no integer past
    2^53 - 1, at any depth: nothing else is refused and nothing is rounded. *)
Theorem canonical_refuses_inexact v : is_ok (canonical v) = exact_ints v.
Proof. apply canonical_ok_exact. Qed.

(** The member order is by UTF-16 code units: a name outside the basic plane
    sorts before one at its top, though its character is greater. *)
Example utf16_order :
  canonical (VObj [([65535], VNum (NInt 1)); ([65536], VNum (NInt 2))])
  = Ok (#"{" ++ [34; 65536; 34] ++ #":2," ++ [34; 65535; 34] ++ #":1}").
Proof. by vm_compute. Qed.

Definition demo_value : value := VObj [(#"a", VArr [VNum (NInt (-12)); VNull])].

Lemma demo_value_plain : plain_value demo_value.
Proof. split; [repeat constructor|]. split; [|done]. repeat constructor. Qed.

Lemma canonical_injective_witness :
  canonical demo_value = Ok (#"{" ++ [34] ++ #"a" ++ [34] ++ #":[-12,null]}") /\ demo_value = demo_value.
Proof.
  split; [reflexivity|].
  apply (canonical_injective demo_value demo_value (#"{" ++ [34] ++ #"a" ++ [34] ++ #":[-12,null]}"));
    [exact demo_value_plain..|reflexivity|reflexivity].
Defined.
