(* ===== verification/Command.v ===== *)
(** * Command: the console's own record of a privileged action
    ([crates/core/src/command.rs], [crates/api/src/journal.rs])

    A row in the journal, then one line appended to the console's event file,
    whose [prev_hash] links it to the line before.  The link is kept in memory
    by the process and seeded from the file's last line when it starts.  The
    store and the file system answer through the arguments of [record]. *)
From S2P Require Import Prelude Text Json JsonCode Signing Jcs Ingest.

Record CommandRecord : Type := mkCommand
  { operator : str; cenv : str; action : str; target : str; params : value; decision : str;
    sig_alg : str; sig_fpr : str; http_status : Z; verify_result : str }.

Inductive Error : Type :=
| JsonError (why : str)
| IoError (why : str)
| Conform (why : str)
| StoreError (why : str)
| BreakGlassMissingReason
| Other (why : str).

(** [require_break_glass_reason]. *)
Definition require_break_glass_reason (rec : CommandRecord) : result unit Error :=
  if str_eqb (decision rec) #"break_glass" && bool_decide (trim (default [] (get_str #"reason" (params rec))) = [])
  then Err BreakGlassMissingReason
  else Ok tt.

Definition is_delegatable_principal (s : str) : bool :=
  starts_with #"agent://" s || starts_with #"user://" s.

Definition sanitize_host (host : str) : str :=
  let s := map (fun c => let lower := to_ascii_lower c in
                         if ascii_alnum lower || (lower =? 46) || (lower =? 45) then lower else 45)
               (trim host) in
  if bool_decide (s = []) then #"unknown-host" else s.

(** The event of one command, as a JSON object. *)
Definition command_value (org_domain host : str) (rec : CommandRecord) (ts : str) (prev_hash : option str) : value :=
  let data := obj [(#"action", VStr (action rec)); (#"target", VStr (target rec));
                   (#"decision", VStr (decision rec)); (#"sig_alg", VStr (sig_alg rec));
                   (#"sig_fpr", VStr (sig_fpr rec)); (#"http_status", VNum (NInt (http_status rec)));
                   (#"verify_result", VStr (verify_result rec))] in
  obj ([(#"schema", VStr (schema_as_str V0_2)); (#"ts", VStr ts); (#"source", VStr #"console");
        (#"type", VStr #"console_command");
        (#"agent_id", VStr (#"agent://" ++ org_domain ++ #"/console/" ++ sanitize_host host))]
       ++ (if is_delegatable_principal (operator rec)
           then [(#"on_behalf_of", VArr [VStr (operator rec)])] else [])
       ++ [(#"data", data)]
       ++ match prev_hash with Some prev => [(#"prev_hash", VStr prev)] | None => [] end).

(** Decoding UTF-8, with no replacement: [read_to_string]. *)
Fixpoint utf8_strict (fuel : nat) (bs : list Z) : option str :=
  match bs, fuel with
  | [], _ => Some []
  | _, O => None
  | _, S fuel =>
      match utf8_step bs with
      | Some (Some c, n) => let! s := utf8_strict fuel (skipn n bs) in Some (c :: s)
      | _ => None
      end
  end.
Definition read_to_string (bs : list Z) : option str := utf8_strict (length bs) bs.

Section Command.
Context {PR : Primitives} {JT : JsonText}.

Definition console_command_line (org_domain host : str) (rec : CommandRecord) (ts : str) (prev : option str) : str :=
  json_text (command_value org_domain host rec ts prev).

Definition without_prev (v : value) : value :=
  match v with VObj ms => VObj (obj_remove #"prev_hash" ms) | _ => v end.
Definition chain_hash (v : value) : str :=
  #"sha256:" ++ hex_lower (sha256 (str_bytes (json_text (without_prev v)))).
Definition chain_hash_of_line (line : str) : option str :=
  let! v := json_of (str_bytes line) in Some (chain_hash v).

(** [last_line_of]: of the file's bytes, [None] when it cannot be read. *)
Definition last_line_of (file : option (list Z)) : option str :=
  let! bs := file in
  let! text := read_to_string bs in
  find (fun l => negb (bool_decide (trim l = []))) (rev (Text.lines text)).

(** The console's events file, the sink of this process once it is open (the
    [prev_hash] of the next line), and the rows of the journal. *)
Record World : Type := mkWorld
  { file : option (list Z); sink : option (option str); journal : list (str * CommandRecord) }.

(** What the store and the file system answer: the insert, the opening of the
    file, and the one write of a line, which may leave [n] bytes and fail. *)
Record answers : Type := mkAnswers
  { inserted : result unit str; opened : result unit str; cut : option (nat * str) }.

(** [sink_for]. *)
Definition sink_for (a : answers) (w : World) : result (option str) Error * World :=
  match sink w with
  | Some next => (Ok next, w)
  | None =>
      match opened a with
      | Err e => (Err (IoError e), w)
      | Ok _ =>
          let next := let! l := last_line_of (file w) in chain_hash_of_line l in
          (Ok next, mkWorld (Some (default [] (file w))) (Some next) (journal w))
      end
  end.

(** [append_chained]: one write of the line and its newline. *)
Definition append_chained (a : answers) (line : str) (w : World) : result unit Error * World :=
  let framed := str_bytes line ++ [10] in
  let held := default [] (file w) in
  match cut a with
  | Some (n, e) => (Err (IoError e), mkWorld (Some (held ++ firstn n framed)) (sink w) (journal w))
  | None => (Ok tt, mkWorld (Some (held ++ framed)) (Some (chain_hash_of_line line)) (journal w))
  end.

Definition record (a : answers) (org_domain host ts : str) (rec : CommandRecord) (w : World)
  : result unit Error * World :=
  match require_break_glass_reason rec with
  | Err e => (Err e, w)
  | Ok _ =>
      match inserted a with
      | Err e => (Err (StoreError e), w)
      | Ok _ =>
          let w := mkWorld (file w) (sink w) (journal w ++ [(ts, rec)]) in
          match sink_for a w with
          | (Err e, w) => (Err e, w)
          | (Ok next, w) => append_chained a (console_command_line org_domain host rec ts next) w
          end
      end
  end.

(** A process started again has no sink open. *)
Definition restarted (w : World) : World := mkWorld (file w) None (journal w).
End Command.

(** ** Lemmas *)

Lemma utf8_strict_enc s fuel :
  valid_str s -> (length (str_bytes s) <= fuel)%nat -> utf8_strict fuel (str_bytes s) = Some s.
Proof.
  intros Hs; revert fuel; induction Hs as [|c s Hc Hs IH]; intros fuel Hf; [by destruct fuel|].
  simpl in *. rewrite length_app in Hf.
  pose proof (length_utf8_enc c) as Hlen. pose proof (utf8_len_pos c) as Hpos.
  destruct fuel as [|fuel]; [lia|]. destruct (utf8_enc c ++ str_bytes s) as [|b bs] eqn:E.
  { apply (f_equal length) in E. rewrite length_app in E. simpl in E. lia. }
  cbn [utf8_strict]. rewrite <- E, utf8_step_enc by done. rewrite drop_app_length, IH by lia. done.
Qed.
Lemma read_to_string_bytes s : valid_str s -> read_to_string (str_bytes s) = Some s.
Proof. intros. by apply utf8_strict_enc. Qed.

Lemma split_char_unbroken ls :
  Forall (fun l => 10 ∉ l) ls -> split_char 10 (flat_map (fun l => l ++ [10]) ls) = ls ++ [[]].
Proof.
  induction 1 as [|l ls Hl _ IH]; [done|]. simpl. rewrite <- app_assoc. simpl.
  rewrite split_char_app by done.
  by rewrite IH.
Qed.

(** A text between braces, on one line. *)
Definition braced (t : str) : Prop := exists mid, t = [123] ++ mid ++ [125] /\ valid_str mid /\ 10 ∉ mid.

Lemma braced_facts t : braced t -> valid_str t /\ 10 ∉ t /\ strip_cr t = t /\ trim t = t /\ t <> [].
Proof.
  intros (mid&->&Hv&Hn).
  assert (strip_cr ([123] ++ mid ++ [125]) = [123] ++ mid ++ [125]) as Hcr.
  { unfold strip_cr, strip_suffix. rewrite !rev_app_distr. done. }
  assert (trim ([123] ++ mid ++ [125]) = [123] ++ mid ++ [125]) as Htr.
  { unfold trim, trim_end. change (trim_start ([123] ++ mid ++ [125])) with ([123] ++ mid ++ [125]).
    assert (rev ([123] ++ mid ++ [125]) = 125 :: (rev mid ++ [123])) as E by by rewrite !rev_app_distr.
    rewrite E. change (trim_start (125 :: rev mid ++ [123])) with (125 :: rev mid ++ [123]).
    by rewrite <- E, rev_involutive. }
  split; [|split; [set_solver|done]]. apply Forall_app_2; [by repeat constructor|]. apply Forall_app_2; [done|by repeat constructor].
Qed.

Lemma lines_of_bytes ls :
  Forall braced ls -> Text.lines (flat_map (fun l => l ++ [10]) ls) = ls.
Proof.
  intros H. unfold Text.lines. rewrite split_char_unbroken, rev_app_distr.
  - simpl. rewrite rev_involutive. induction H as [|l ls Hl _ IH]; [done|]. simpl. rewrite IH.
    by destruct (braced_facts l Hl) as (_&_&->&_).
  - eapply Forall_impl; [exact H|]. intros l Hl. by destruct (braced_facts l Hl) as (_&?&_).
Qed.

(** The values serde_json reads back as they were written: members in the
    order of a [Map], characters that are scalar values, 64-bit integers, and
    nesting within its recursion limit. *)
Fixpoint readable (depth : nat) (v : value) : Prop :=
  match v, depth with
  | VNull, _ | VBool _, _ => True
  | VNum (NInt z), _ => - 2 ^ 63 <= z < 2 ^ 64
  | VStr s, _ => valid_str s
  | VArr items, S d => Forall (readable d) items
  | VObj ms, S d => strict_keys ms /\ Forall (fun kv => valid_str kv.1 /\ readable d kv.2) ms
  | _, _ => False
  end.

(** The documented behaviour of serde_json's writer and reader: an object is
    written between braces on one line, and what is written is read back. *)
Class JsonTextLaws {JT : JsonText} := {
  text_round v : readable 127 v -> json_of (str_bytes (json_text v)) = Some v;
  text_object ms : readable 127 (VObj ms) -> braced (json_text (VObj ms));
}.

Lemma sanitize_host_valid host : valid_str (sanitize_host host).
Proof.
  unfold sanitize_host. case_bool_decide; [repeat constructor|].
  apply List.Forall_map, List.Forall_forall. intros c _. cbn zeta.
  destruct (_ || _) eqn:E; [|done]. unfold is_scalar. unfold ascii_alnum, ascii_digit, ascii_lower, ascii_upper in E.
  set (l := to_ascii_lower c) in *. clearbody l. lia.
Qed.

Section Chain.
Context {PR : Primitives} {JT : JsonText} {JL : JsonTextLaws}.
Context (org_domain host : str) (Horg : valid_str org_domain).

Definition valid_record (ts : str) (rec : CommandRecord) : Prop :=
  Forall valid_str [ts; operator rec; action rec; target rec; decision rec; sig_alg rec; sig_fpr rec;
                    verify_result rec]
  /\ 0 <= http_status rec < 65536.

Lemma lit_valid (s : string) : forallb is_scalar (lit s) = true -> valid_str (lit s).
Proof. apply forallb_Forall. Qed.

Lemma hex_valid bs : Forall (fun b => 0 <= b <= 255) bs -> valid_str (hex_lower bs).
Proof.
  intros H. eapply Forall_impl; [by apply hex_bytes_chars|]. unfold is_hex, is_scalar. intros c Hc. simpl in *. lia.
Qed.

Lemma readable_arr d items : Forall (readable d) items -> readable (S d) (VArr items).
Proof. done. Qed.
Lemma obj_readable d ms :
  Forall (fun kv => valid_str kv.1 /\ readable d kv.2) ms -> readable (S d) (obj ms).
Proof. intros H. destruct (obj_all _ _ H) as (ms'&->&?). done. Qed.

Lemma command_value_readable ts rec prev :
  valid_record ts rec -> (forall p, prev = Some p -> valid_str p) ->
  readable 127 (command_value org_domain host rec ts prev).
Proof.
  intros [H Hst] Hp. rewrite !Forall_cons in H. destruct H as (H1&H2&H3&H4&H5&H6&H7&H8&_).
  unfold command_value. apply obj_readable.
  set (P d := fun kv : str * value => valid_str kv.1 /\ readable d kv.2).
  assert (forall d (s : string) v, forallb is_scalar (lit s) = true -> readable d v -> P d (#s, v)) as Hm
    by (intros d s v Hs Hv; split; [by apply lit_valid|done]).
  assert (forall d s, valid_str s -> readable d (VStr s)) as Hstr by (intros []; done).
  assert (readable 126 (VStr (#"agent://" ++ org_domain ++ #"/console/" ++ sanitize_host host))) as Hid.
  { apply Hstr. apply Forall_app_2; [by apply lit_valid|]. apply Forall_app_2; [done|].
    apply Forall_app_2; [by apply lit_valid|apply sanitize_host_valid]. }
  repeat apply Forall_app_2.
  - repeat (apply Forall_cons_2; [apply Hm; first [done|by apply Hstr; apply lit_valid]|]). constructor.
  - destruct (is_delegatable_principal _); [|constructor]. apply Forall_singleton, Hm; [done|].
    apply (readable_arr 125). by apply Forall_singleton, Hstr.
  - apply Forall_singleton, Hm; [done|]. apply obj_readable.
    repeat (apply Forall_cons_2; [apply Hm; first [done|by apply Hstr|cbn [readable]; lia]|]). constructor.
  - destruct prev; [|constructor]. apply Forall_singleton, Hm; [done|]. by apply Hstr, Hp.
Qed.

Lemma command_value_prev ts rec prev :
  get_str #"prev_hash" (command_value org_domain host rec ts prev) = prev.
Proof. unfold command_value. destruct (is_delegatable_principal _), prev; reflexivity. Qed.

Lemma command_value_object ts rec prev : exists ms, command_value org_domain host rec ts prev = VObj ms.
Proof. by eexists. Qed.

(** ** The chain *)

(** Each event's [prev_hash] is the hash of the event before it. *)
Fixpoint linked (prev : option str) (vs : list value) : Prop :=
  match vs with
  | [] => True
  | v :: vs => get_str #"prev_hash" v = prev /\ linked (Some (chain_hash v)) vs
  end.
Definition last_hash (prev : option str) (vs : list value) : option str :=
  match last vs with Some v => Some (chain_hash v) | None => prev end.

Lemma linked_snoc prev vs v :
  linked prev (vs ++ [v]) <-> linked prev vs /\ get_str #"prev_hash" v = last_hash prev vs.
Proof.
  revert prev; induction vs as [|w vs IH]; intros prev; simpl; [tauto|]. rewrite IH.
  assert (last_hash (Some (chain_hash w)) vs = last_hash prev (w :: vs)) as ->; [|tauto].
  unfold last_hash. rewrite last_cons. by destruct (last vs).
Qed.

(** The bytes of a file of events. *)
Definition file_bytes (vs : list value) : list Z := flat_map (fun v => str_bytes (json_text v) ++ [10]) vs.

Definition event_ok (v : value) : Prop := readable 127 v /\ exists ms, v = VObj ms.

Lemma event_braced v : event_ok v -> braced (json_text v).
Proof. intros [Hp [ms ->]]. by apply text_object. Qed.

Lemma file_bytes_text vs :
  file_bytes vs = str_bytes (flat_map (fun l => l ++ [10]) (map json_text vs)).
Proof. induction vs as [|v vs IH]; [done|]. simpl. by rewrite !str_bytes_app, IH. Qed.

Lemma last_line_of_file vs :
  Forall event_ok vs -> last_line_of (Some (file_bytes vs)) = json_text <$> last vs.
Proof.
  intros H. assert (Forall braced (map json_text vs)) as Hb.
  { apply List.Forall_map. eapply Forall_impl; [exact H|]. apply event_braced. }
  unfold last_line_of. rewrite file_bytes_text, read_to_string_bytes, lines_of_bytes; [|done|].
  - destruct vs as [|v vs _] using rev_ind; [done|]. rewrite map_app, rev_app_distr, last_snoc. simpl.
    apply Forall_app in H as [_ H]. inversion_clear H as [|?? Hv _]. apply event_braced in Hv.
    destruct (braced_facts _ Hv) as (_&_&_&Ht&Hne). rewrite Ht, bool_decide_eq_false_2 by done. done.
  - clear H. induction Hb as [|l ls Hl _ IH]; [constructor|]. apply Forall_app_2; [|exact IH].
    apply Forall_app_2; [by apply braced_facts|by repeat constructor].
Qed.

Lemma chain_hash_of_event v : readable 127 v -> chain_hash_of_line (json_text v) = Some (chain_hash v).
Proof. intros H. unfold chain_hash_of_line. by rewrite text_round. Qed.

Context (Hsha : forall m, Forall (fun b => 0 <= b <= 255) (sha256 m)).

Lemma chain_hash_valid v : valid_str (chain_hash v).
Proof. apply Forall_app_2; [by apply lit_valid|]. by apply hex_valid. Qed.

Lemma last_hash_valid vs p : last_hash None vs = Some p -> valid_str p.
Proof. unfold last_hash. destruct (last vs); [|done]. intros [= <-]. apply chain_hash_valid. Qed.

(** ** The process over time *)

(** One command sent to the process, or the process started again. *)
Inductive act : Type :=
| Send (a : answers) (ts : str) (rec : CommandRecord)
| Reboot.

Definition act_fn (w : World) (x : act) : World :=
  match x with
  | Send a ts rec => (record a org_domain host ts rec w).2
  | Reboot => restarted w
  end.
Definition started : World := mkWorld None None [].

(** The commands [record] answered [Ok] to, in order. *)
Fixpoint acknowledged (w : World) (xs : list act) : list (str * CommandRecord) :=
  match xs with
  | [] => []
  | x :: xs =>
      match x with
      | Send a ts rec =>
          match (record a org_domain host ts rec w).1 with Ok _ => [(ts, rec)] | Err _ => [] end
      | Reboot => []
      end ++ acknowledged (act_fn w x) xs
  end.

(** Every string is text, and a write that fails leaves nothing behind. *)
Definition clean_act (x : act) : Prop :=
  match x with
  | Send a ts rec => valid_record ts rec /\ (forall n e, cut a = Some (n, e) -> n = 0%nat)
  | Reboot => True
  end.

(** [v] is the event of the command [tr]. *)
Definition event_of (v : value) (tr : str * CommandRecord) : Prop :=
  exists prev, v = command_value org_domain host tr.2 tr.1 prev.

(** The file holds the events of [done], linked; the sink, once open, holds the
    hash of the last of them; each has its row in the journal; and no row is an
    override without a reason. *)
Definition chained (w : World) (done : list (str * CommandRecord)) (vs : list value) : Prop :=
  default [] (file w) = file_bytes vs /\ Forall event_ok vs /\ linked None vs /\ Forall2 event_of vs done
  /\ (forall next, sink w = Some next -> is_Some (file w) /\ next = last_hash None vs)
  /\ done `sublist_of` journal w
  /\ Forall (fun r => require_break_glass_reason r.2 = Ok tt) (journal w).

Lemma sink_for_chained a w done vs :
  chained w done vs ->
  let r := sink_for a w in
  chained r.2 done vs /\ journal r.2 = journal w
  /\ (forall next, r.1 = Ok next -> sink r.2 = Some next).
Proof.
  intros Hch. unfold sink_for. destruct (sink w) as [next|] eqn:E.
  { split; [done|]. split; [done|]. by intros ? [= <-]. }
  destruct (opened a); [|done]. destruct Hch as (Hf&Hok&Hl&He&Hs&Hj).
  simpl. split_and!; [|done|by intros ? [= <-]]. unfold chained; simpl. split_and!; try done; try apply Hj.
  intros next [= <-]. split; [done|]. destruct (file w) as [bs|] eqn:Ef; simpl in Hf.
  - subst bs. rewrite last_line_of_file by done. unfold last_hash. destruct (last vs) as [v|] eqn:Ev; [|done].
    simpl. apply last_Some in Ev as [vs' ->]. apply Forall_app in Hok as [_ Hok].
    inversion_clear Hok as [|?? Hv _]. simpl. by rewrite chain_hash_of_event by apply Hv.
  - simpl. destruct vs as [|v vs]; [done|]. exfalso. simpl in Hf. destruct (str_bytes (json_text v)); done.
Qed.

(** The row of a command, before its line. *)
Definition journaled (ts : str) (rec : CommandRecord) (w : World) : World :=
  mkWorld (file w) (sink w) (journal w ++ [(ts, rec)]).

Lemma journaled_chained ts rec w done vs :
  require_break_glass_reason rec = Ok tt -> chained w done vs -> chained (journaled ts rec w) done vs.
Proof.
  intros Hr (?&?&?&?&?&Hsub&Hj). split_and!; try done; simpl.
  - by apply sublist_inserts_r.
  - apply Forall_app_2; [done|by apply Forall_singleton].
Qed.

Lemma event_ok_command ts rec prev :
  valid_record ts rec -> (forall p, prev = Some p -> valid_str p) ->
  event_ok (command_value org_domain host rec ts prev).
Proof. intros. split; [by apply command_value_readable|by eexists]. Qed.

Lemma record_chained a ts rec w done vs :
  clean_act (Send a ts rec) -> chained w done vs ->
  let r := record a org_domain host ts rec w in
  match r.1 with
  | Ok _ => exists v, event_of v (ts, rec) /\ chained r.2 (done ++ [(ts, rec)]) (vs ++ [v])
  | Err _ => chained r.2 done vs
  end.
Proof.
  intros [Hv Hcut] Hch. unfold record.
  destruct (require_break_glass_reason rec) as [[]|] eqn:Hr; [|done].
  destruct (inserted a); [|done].
  pose proof (journaled_chained ts rec w done vs Hr Hch) as Hch1.
  change (mkWorld (file w) (sink w) (journal w ++ [(ts, rec)])) with (journaled ts rec w).
  set (w1 := journaled ts rec w) in *.
  destruct (sink_for_chained a w1 done vs Hch1) as (Hch2&Ej&Es).
  destruct (sink_for a w1) as [[next|e] w2]; simpl in *; [|done].
  specialize (Es next eq_refl). destruct Hch2 as (Hf&Hok&Hl&He&Hs&_&Hj).
  destruct (Hs next Es) as [_ ->]. set (v := command_value org_domain host rec ts (last_hash None vs)).
  assert (event_ok v) as Hv' by (apply event_ok_command; [done|apply last_hash_valid]).
  unfold append_chained. destruct (cut a) as [[n e]|] eqn:Ec; simpl.
  - rewrite (Hcut n e eq_refl). simpl. split_and!; try done; simpl.
    + by rewrite app_nil_r.
    + intros next ?. split; [done|]. by apply Hs.
    + rewrite Ej. destruct Hch1 as (_&_&_&_&_&Hsub&_). exact Hsub.
  - exists v. split; [by eexists|]. split_and!; simpl.
    + rewrite Hf. unfold file_bytes. rewrite flat_map_app. simpl. by rewrite app_nil_r.
    + apply Forall_app_2; [done|by apply Forall_singleton].
    + apply linked_snoc. split; [done|]. apply command_value_prev.
    + apply Forall2_app; [done|]. apply Forall2_cons_2; [by eexists|constructor].
    + intros ? [= <-]. split; [done|]. unfold last_hash. rewrite last_snoc. by apply chain_hash_of_event, Hv'.
    + rewrite Ej. simpl. apply sublist_app; [by destruct Hch as (_&_&_&_&_&Hsub&_)|done].
    + done.
Qed.

Lemma act_chained x w done vs :
  clean_act x -> chained w done vs -> exists vs', chained (act_fn w x) (done ++ acknowledged w [x]) vs'.
Proof.
  intros Hx Hch. destruct x as [a ts rec|]; simpl.
  - pose proof (record_chained a ts rec w done vs Hx Hch) as H. simpl in H.
    destruct (record a org_domain host ts rec w) as [[[]|e] w']; simpl in *; rewrite ?app_nil_r.
    + destruct H as (v&_&H). by eexists.
    + by eexists.
  - rewrite app_nil_r. exists vs. destruct Hch as (?&?&?&?&?&?&?). split_and!; done.
Qed.

Lemma acts_chained xs w done vs :
  Forall clean_act xs -> chained w done vs ->
  exists vs', chained (fold_left act_fn xs w) (done ++ acknowledged w xs) vs'.
Proof.
  intros H; revert w done vs; induction H as [|x xs Hx _ IH]; intros w done vs Hch; simpl.
  { exists vs. by rewrite app_nil_r. }
  destruct (act_chained x w done vs Hx Hch) as [vs1 H1].
  destruct (IH _ _ _ H1) as [vs2 H2]. exists vs2. simpl in H2. by rewrite app_nil_r, <- app_assoc in H2.
Qed.

Lemma started_chained : chained started [] [].
Proof. split_and!; simpl; try done; try constructor. Qed.

Lemma reachable_chained xs :
  Forall clean_act xs -> exists vs, chained (fold_left act_fn xs started) (acknowledged started xs) vs.
Proof. intros H. exact (acts_chained xs started [] [] H started_chained). Qed.

(** ** The properties *)

(** C12: whatever commands reach the console, whatever the store and the file
    system answer short of half a line, and however often the process is
    started again, the event file is exactly the events of the commands
    [record] acknowledged, in order; each names the hash of the one before it,
    the first names none; each has its row in the journal, written before it;
    and no row is an override without a reason. *)
Theorem chain_is_linked xs :
  Forall clean_act xs ->
  let w := fold_left act_fn xs started in
  exists vs, default [] (file w) = file_bytes vs
    /\ linked None vs /\ Forall2 event_of vs (acknowledged started xs)
    /\ acknowledged started xs `sublist_of` journal w
    /\ Forall (fun r => require_break_glass_reason r.2 = Ok tt) (journal w).
Proof.
  intros H w. destruct (reachable_chained xs H) as (vs&Hf&_&Hl&He&_&Hs&Hj). by exists vs.
Qed.

Lemma str_bytes_unbroken l : 10 ∉ l -> unbroken (str_bytes l).
Proof.
  unfold unbroken. intros H Hin%list_elem_of_In. apply in_flat_map in Hin as (c&Hc&Hin).
  apply list_elem_of_In in Hc. unfold utf8_enc in Hin.
  assert (c = 10) as ->; [|done]. revert Hin. repeat case_match; b2p; simpl; Z.div_mod_to_equations; lia.
Qed.

Lemma file_bytes_file_of vs part :
  file_bytes vs ++ part = file_of (map (fun v => str_bytes (json_text v)) vs) part.
Proof. unfold file_bytes, file_of. f_equal. by rewrite !flat_map_concat_map, map_map. Qed.

Lemma event_unbroken v : event_ok v -> unbroken (str_bytes (json_text v)).
Proof. intros Hv%event_braced. apply str_bytes_unbroken. by destruct (braced_facts _ Hv) as (_&?&_). Qed.

Lemma file_of_line ls l : file_of ls (l ++ [10]) = file_of (ls ++ [l]) [].
Proof. unfold file_of. rewrite flat_map_app. simpl. by rewrite !app_nil_r. Qed.

(** A write cut after [n] bytes of the line leaves the sink where it was. *)
Lemma record_cut a ts rec n e w done vs :
  require_break_glass_reason rec = Ok tt -> inserted a = Ok tt -> opened a = Ok tt -> cut a = Some (n, e) ->
  chained w done vs ->
  let line := str_bytes (console_command_line org_domain host rec ts (last_hash None vs)) in
  (n <= length line)%nat ->
  file (record a org_domain host ts rec w).2 = Some (file_bytes vs ++ firstn n line)
  /\ sink (record a org_domain host ts rec w).2 = Some (last_hash None vs).
Proof.
  intros Hr Hins Hop Hcut Hch line Hn. unfold record. rewrite Hr, Hins.
  pose proof (journaled_chained ts rec w done vs Hr Hch) as Hch0.
  change (mkWorld (file w) (sink w) (journal w ++ [(ts, rec)])) with (journaled ts rec w).
  destruct (sink_for_chained a _ _ _ Hch0) as (Hch1&_&Hs).
  destruct (sink_for a (journaled ts rec w)) as [[next|e'] ws] eqn:Es; simpl in *.
  2: { unfold sink_for in Es. rewrite Hop in Es. destruct (sink (journaled ts rec w)); done. }
  specialize (Hs _ eq_refl). destruct Hch1 as (Hf&_&_&_&Hn1&_). destruct (Hn1 _ Hs) as [_ ->].
  unfold append_chained. rewrite Hcut. simpl. rewrite Hf, firstn_app.
  replace (n - length (str_bytes _))%nat with 0%nat by (unfold line in Hn; lia).
  simpl. by rewrite app_nil_r.
Qed.

(** A command acknowledged when the sink is open is appended to the file. *)
Lemma record_appends a ts rec w bs next :
  file w = Some bs -> sink w = Some next -> (record a org_domain host ts rec w).1 = Ok tt ->
  file (record a org_domain host ts rec w).2
  = Some (bs ++ str_bytes (console_command_line org_domain host rec ts next) ++ [10]).
Proof.
  intros Hf Hs. unfold record, sink_for. destruct (require_break_glass_reason rec) as [[]|]; [|done].
  destruct (inserted a); [|done]. simpl. rewrite Hs. unfold append_chained. simpl. rewrite Hf.
  by destruct (cut a) as [[]|].
Qed.

(** When a write stops part of the way into a line, the next command,
    acknowledged, is appended to the unfinished line: the reader of the file
    sees the two as one line, and the second command is not a line of it. *)
Theorem cut_write_hides_next_command xs a ts rec n e a' ts' rec' :
  Forall clean_act xs -> valid_record ts rec -> valid_record ts' rec' ->
  require_break_glass_reason rec = Ok tt -> inserted a = Ok tt -> opened a = Ok tt -> cut a = Some (n, e) ->
  let w := fold_left act_fn xs started in
  let w1 := (record a org_domain host ts rec w).2 in
  let w2 := (record a' org_domain host ts' rec' w1).2 in
  (record a' org_domain host ts' rec' w1).1 = Ok tt ->
  exists vs, default [] (file w) = file_bytes vs /\ Forall2 event_of vs (acknowledged started xs)
    /\ let line tr := str_bytes (console_command_line org_domain host tr.2 tr.1 (last_hash None vs)) in
       (n <= length (line (ts, rec)))%nat ->
       (complete 0 [] (default [] (file w2))).1
       = Ingest.number 0 (map (fun v => str_bytes (json_text v)) vs
                   ++ [firstn n (line (ts, rec)) ++ line (ts', rec')]).
Proof.
  intros Hxs Hv Hv' Hr Hins Hop Hcut w w1 w2 Hok2.
  destruct (reachable_chained xs Hxs) as (vs&Hch). fold w in Hch. exists vs.
  split; [apply Hch|]. split; [apply Hch|]. intros line Hn.
  destruct (record_cut a ts rec n e w _ vs Hr Hins Hop Hcut Hch Hn) as [Hf1 Hs1].
  pose proof (record_appends a' ts' rec' w1 _ _ Hf1 Hs1 Hok2) as Hf2.
  change (file w2 = Some ((file_bytes vs ++ firstn n (line (ts, rec))) ++ line (ts', rec') ++ [10])) in Hf2.
  rewrite Hf2. simpl default.
  assert (forall tr, valid_record tr.1 tr.2 -> unbroken (line tr)) as Hu
    by (intros tr Htr; apply event_unbroken, event_ok_command; [done|apply last_hash_valid]).
  rewrite <- app_assoc, (app_assoc (firstn _ _)), file_bytes_file_of, file_of_line.
  rewrite complete_file; [done| |by apply not_elem_of_nil].
  apply Forall_app_2; [|apply Forall_singleton].
  - apply List.Forall_map. destruct Hch as (_&Hok&_). eapply Forall_impl; [exact Hok|]. apply event_unbroken.
  - intros [Hin|Hin]%elem_of_app; [|by apply (Hu (ts', rec'))].
    apply (Hu (ts, rec) Hv). rewrite <- (take_drop n (line (ts, rec))). apply elem_of_app. by left.
Qed.
End Chain.

(** ** A concrete instance *)

#[local] Existing Instance code_json.
#[local] Instance code_json_laws : JsonTextLaws.
Proof.
  split; [intros v _; apply code_round|]. intros ms _. exists (code_body (VObj ms)).
  split; [done|]. pose proof (code_chars (VObj ms)) as H. split.
  - eapply Forall_impl; [exact H|]. unfold is_scalar. simpl. lia.
  - rewrite Forall_forall in H. intros Hin%H. lia.
Defined.

Definition demo_hash : Primitives := {|
  sha256 := fun bs => repeat (fold_left (fun a b => (a + b) mod 256) bs 0) 32;
  VerifyingKey := list Z; Signature := list Z; from_sec1_bytes := Ok; signature_from_slice := Ok;
  signature_from_der := Ok; signature_to_bytes := fun s => s; ecdsa_verify := fun _ _ _ => false;
  b64_encode := hex_bytes; b64_decode := hex_to_bytes; b64url_encode := hex_bytes;
  b64url_decode := hex_to_bytes |}.
#[local] Existing Instance demo_hash.

Lemma demo_hash_bytes m : Forall (fun b => 0 <= b <= 255) (sha256 m).
Proof.
  apply List.Forall_forall. intros b Hb%repeat_spec. subst b.
  assert (forall n, 0 <= n <= 255 -> 0 <= fold_left (fun a b => (a + b) mod 256) m n <= 255) as H; [|by apply H].
  induction m as [|x m IH]; intros n Hn; [done|]. simpl. apply IH. pose proof (Z.mod_pos_bound (n + x) 256). lia.
Qed.

Definition demo_kill : CommandRecord :=
  mkCommand #"user://acme/ops" #"local" #"console.kill_run" #"run-1" (VObj []) #"allow" #"es256" #"enclave" 200
    #"killed:true".
Definition fine : answers := mkAnswers (Ok tt) (Ok tt) None.
Definition unwritten : answers := mkAnswers (Ok tt) (Ok tt) (Some (0%nat, #"disk full")).
Definition torn : answers := mkAnswers (Ok tt) (Ok tt) (Some (1%nat, #"disk full")).
Definition demo_acts : list act :=
  [Send fine #"t0" demo_kill; Send unwritten #"t1" demo_kill; Reboot; Send fine #"t2" demo_kill].

Lemma demo_acts_clean : Forall clean_act demo_acts.
Proof.
  repeat constructor; simpl; try done; try (apply lit_valid; done); try lia; congruence.
Qed.

Lemma chain_is_linked_witness :
  exists vs, length vs = 2%nat /\ linked None vs
    /\ default [] (file (fold_left (act_fn #"acme.test" #"Box") demo_acts started)) = file_bytes vs.
Proof.
  destruct (chain_is_linked #"acme.test" #"Box" ltac:(by apply lit_valid) demo_hash_bytes demo_acts
    demo_acts_clean) as (vs&Hf&Hl&He&_).
  exists vs. split; [|done]. rewrite (Forall2_length _ _ _ He). reflexivity.
Defined.

Lemma cut_write_hides_next_command_witness :
  exists l, (complete 0 [] (default [] (file (fold_left (act_fn #"acme.test" #"Box")
    [Send torn #"t0" demo_kill; Send fine #"t1" demo_kill] started)))).1 = [(0, l)].
Proof.
  assert (valid_record #"t0" demo_kill) as H0 by (split; [repeat constructor; by apply lit_valid|done]).
  assert (valid_record #"t1" demo_kill) as H1 by (split; [repeat constructor; by apply lit_valid|done]).
  destruct (cut_write_hides_next_command #"acme.test" #"Box" ltac:(by apply lit_valid) demo_hash_bytes []
    torn #"t0" demo_kill 1 #"disk full" fine #"t1" demo_kill (List.Forall_nil _) H0 H1 eq_refl eq_refl eq_refl
    eq_refl eq_refl) as (vs&_&He&H).
  apply Forall2_length in He. destruct vs as [|]; [|discriminate He].
  eexists. apply H. apply le_n_S, Nat.le_0_l.
Defined.
