(* ===== verification/Seal.v ===== *)
(** * Seal: sealing a case ([crates/api/src/seal/mod.rs], [seal/commands.rs])

    The case, the proofs asked for it and the person's decision become one
    canonical document with one digest; the digest goes into the console's
    chain and the document into a file named by it.  [case_seal_at] is a
    program of [Prog] over the disk and the chain, so its theorems hold when
    any number of seals run at once, any file operation fails and the console
    is restarted in between.  The case is one of [Case], gathered by its own
    command, and a proof is what its command answers; reading JSON is serde_json's. *)
From S2P Require Import Prelude Text Json Prog Signing Case Jcs.

Definition PACK_FORMAT : str := #"genaryx.case-pack/1".
Definition PACK_MAX_BYTES : Z := 1024 * 1024.
Definition NOTE_MAX_CHARS : Z := 2000.
Definition PROOFS_MAX : Z := 4.

Inductive Outcome : Type := Applied | Declined | Deferred.
Definition outcome_as_str (o : Outcome) : str :=
  match o with Applied => #"applied" | Declined => #"declined" | Deferred => #"deferred" end.

Record Decision : Type := mkDecision { outcome : Outcome; note : str }.

(** [Decision::checked]. *)
Definition checked (d : Decision) : result Decision str :=
  let note := trim (note d) in
  if NOTE_MAX_CHARS <? chars_count note then Err #"the note is longer than 2000 characters"
  else if existsb (fun c => is_control c && negb (c =? 10)) note
  then Err #"the note holds a control character"
  else Ok (mkDecision (outcome d) note).

Inductive ProofSpec : Type :=
| PolicySpec (candidate : str)
| BudgetSpec (per_run_usd per_step_usd : option str) (max_steps : option Z).

Record ProofRecord : Type := mkProof { kind : str; req : value; res : value }.

Definition proof_json (p : ProofRecord) : value :=
  obj [(#"kind", VStr (kind p)); (#"request", req p); (#"result", res p)].

Definition build_pack (case : CaseFile) (proofs : list ProofRecord) (decision : Decision)
  (sealed_by sealed_at : str) : value :=
  obj [(#"format", VStr PACK_FORMAT);
       (#"case", case_json case);
       (#"proofs", VArr (map proof_json proofs));
       (#"decision", obj [(#"outcome", VStr (outcome_as_str (outcome decision)));
                          (#"note", VStr (note decision));
                          (#"said_by", VStr sealed_by)]);
       (#"sealed_by", VStr sealed_by);
       (#"sealed_at", VStr sealed_at)].

Record Sealed : Type := mkSealed { text : str; digest : str }.

Inductive SealError : Type :=
| NotCanonical (e : JcsError)
| TooLarge (bytes : Z).

Inductive VerifyError : Type :=
| VNotJson
| VNotCanonical
| VWrongFormat
| VDigestDiffers (found : str).

(** [is_digest]: the only shape that becomes a file name. *)
Definition is_digest (d : str) : bool :=
  match strip_prefix #"sha256:" d with
  | Some hex =>
      (byte_len hex =? 64)
      && forallb (fun b => ascii_digit b || ((97 <=? b) && (b <=? 102))) (str_bytes hex)
  | None => false
  end.

(** [serde_json::from_str]. *)
Class JsonRead := { from_str : str -> option value }.

Section Digest.
Context {PR : Primitives}.

Definition digest_of_text (t : str) : str := #"sha256:" ++ hex_lower (sha256 (str_bytes t)).

Definition seal_value (pack : value) : result Sealed SealError :=
  let? c := map_err NotCanonical (canonical pack) in
  if PACK_MAX_BYTES <? byte_len c then Err (TooLarge (byte_len c))
  else Ok (mkSealed c (digest_of_text c)).

Definition verify {JR : JsonRead} (t d : str) : result unit VerifyError :=
  let? v := ok_or (from_str t) VNotJson in
  if negb (match canonical v with Ok c => str_eqb c t | Err _ => false end) then Err VNotCanonical
  else if negb (match get_str #"format" v with Some f => str_eqb f PACK_FORMAT | None => false end)
  then Err VWrongFormat
  else
    let found := digest_of_text t in
    if negb (str_eqb found d) then Err (VDigestDiffers found) else Ok tt.

(** ** The two commands *)

Record SealRequest : Type := mkRequest
  { incident_id : str; proofs : list ProofSpec; decision : Decision }.

Inductive SealFailure : Type :=
| Refused (reason : str)
| FCase (error : value)
| FNotCanonical
| FTooLarge (bytes : Z)
| NotJournaled (reason : str).

Record SealedCase : Type := mkSealedCase
  { sc_digest : str; sc_bytes : Z; stored : bool; store_error : option str; pack : str }.

(** What sealing asks of the rest of the console and of the disk.  A pack file
    is named by its hex digits, a temporary file by those and a process id. *)
Inductive op : Type :=
| OCase (incident : str)
| OProof (incident : str) (spec : ProofSpec)
| OSealedBy
| OJournal (action target : str) (params : value) (verify_result : str)
| OCreateDir
| OExists (hex : str)
| ORead (hex : str)
| OPid
| OOpen (hex : str) (pid : Z)
| OWrite (hex : str) (pid : Z) (t : str)
| ORemove (hex : str) (pid : Z)
| ORename (hex : str) (pid : Z).

Definition resp (o : op) : Type :=
  match o with
  | OCase _ => result CaseFile value
  | OProof _ _ => result value value
  | OSealedBy => str
  | OJournal _ _ _ _ => bool * option str
  | OExists _ => bool
  | ORead _ => result str str
  | OPid => Z
  | OCreateDir | OOpen _ _ | OWrite _ _ _ | ORemove _ _ | ORename _ _ => result unit str
  end.

Definition CASE_CLOSE_ACTION : str := #"console.case_close".

Definition proof_result (r : result value value) : value :=
  match r with
  | Ok proof => obj [(#"proof", proof)]
  | Err error => obj [(#"error", error)]
  end.

(** [run_proofs]. *)
Fixpoint run_proofs (specs : list ProofSpec) (incident : str) : prog resp (list ProofRecord) :=
  match specs with
  | [] => Ret []
  | spec :: specs =>
      do r <- (OProof incident spec);
      do! rest <- run_proofs specs incident;
      Ret (match spec with
           | PolicySpec candidate =>
               mkProof #"policy"
                 (obj [(#"incident_id", VStr incident); (#"candidate", VStr candidate)]) (proof_result r)
           | BudgetSpec run step steps =>
               mkProof #"budget"
                 (obj [(#"incident_id", VStr incident); (#"per_run_usd", opt_str run);
                       (#"per_step_usd", opt_str step); (#"max_steps", opt_int steps)]) (proof_result r)
           end :: rest)
  end.

(** [record_console_action], [bus] telling whether the console has a live bus. *)
Definition record_console_action (bus : bool) (action target : str) (params : value) (r : str)
  : prog resp (bool * option str) :=
  if bus then perform_op (OJournal action target params r)
  else Ret (false, Some #"no live event bus").

(** [store_pack]. *)
Definition store_pack (s : Sealed) : prog resp (result unit str) :=
  match strip_prefix #"sha256:" (digest s) with
  | None => Ret (Err #"the digest is not a sha256")
  | Some hex =>
      do made <- OCreateDir;
      match made with
      | Err e => Ret (Err e)
      | Ok _ =>
          do there <- (OExists hex);
          if (there : bool) then
            do held <- (ORead hex);
            Ret (match held with
                 | Err e => Err e
                 | Ok held =>
                     if str_eqb held (text s) then Ok tt
                     else Err #"a different document is already stored under this digest"
                 end)
          else
            do pid <- OPid;
            do opened <- (OOpen hex pid);
            match opened with
            | Err e => Ret (Err e)
            | Ok _ =>
                do wrote <- (OWrite hex pid (text s));
                match wrote with
                | Err e => do _ <- (ORemove hex pid); Ret (Err e)
                | Ok _ =>
                    do renamed <- (ORename hex pid);
                    match renamed with
                    | Err e => do _ <- (ORemove hex pid); Ret (Err e)
                    | Ok _ => Ret (Ok tt)
                    end
                end
            end
      end
  end.

Definition seal_failure (e : SealError) : SealFailure :=
  match e with NotCanonical _ => FNotCanonical | TooLarge bytes => FTooLarge bytes end.

(** [case_seal_at]; [store_dir] tells whether the console has a store directory. *)
Definition case_seal_at (bus store_dir : bool) (request : SealRequest) (sealed_at : str)
  : prog resp (result SealedCase SealFailure) :=
  match checked (decision request) with
  | Err reason => Ret (Err (Refused reason))
  | Ok decision =>
      if PROOFS_MAX <? Z.of_nat (length (proofs request))
      then Ret (Err (Refused #"a pack holds at most four proofs"))
      else
        do case <- (OCase (incident_id request));
        match case with
        | Err error => Ret (Err (FCase error))
        | Ok case =>
            do! records <- run_proofs (proofs request) (incident_id request);
            do by_ <- OSealedBy;
            match seal_value (build_pack case records decision by_ sealed_at) with
            | Err e => Ret (Err (seal_failure e))
            | Ok sealed =>
                let outcome := outcome_as_str (outcome decision) in
                do! j <- record_console_action bus CASE_CLOSE_ACTION (digest sealed)
                  (obj [(#"incident_id", VStr (incident_id request));
                        (#"case_digest", VStr (Case.digest case));
                        (#"pack_bytes", VNum (NInt (byte_len (text sealed))));
                        (#"proofs", VNum (NInt (Z.of_nat (length records))));
                        (#"outcome", VStr outcome)])
                  (#"sealed:" ++ outcome);
                if negb j.1 then Ret (Err (NotJournaled (default [] j.2)))
                else
                  do! st <- (if store_dir then store_pack sealed
                             else Ret (Err #"the console has no store directory"));
                  Ret (Ok (mkSealedCase (digest sealed) (byte_len (text sealed)) (is_ok st)
                             (match st with Ok _ => None | Err e => Some e end) (text sealed)))
            end
        end
  end.

Inductive PackError : Type :=
| BadDigest
| NoStore
| NotFound
| Unreadable (reason : str)
| NotThePack (why : str).

Definition not_the_pack (e : VerifyError) : PackError :=
  NotThePack match e with
             | VNotJson => #"the file is not JSON"
             | VNotCanonical => #"the file is not in canonical form"
             | VWrongFormat => #"the file is not a case pack"
             | VDigestDiffers _ => #"the file hashes to another digest"
             end.

(** [case_pack]: [read hex] is what reading the file of that name answers,
    [None] when there is no such file. *)
Definition case_pack {JR : JsonRead} (d : str) (read : option (str -> option (result str str)))
  : result str PackError :=
  if negb (is_digest d) then Err BadDigest
  else
    let? read := ok_or read NoStore in
    let hex := default [] (strip_prefix #"sha256:" d) in
    match read hex with
    | None => Err NotFound
    | Some (Err reason) => Err (Unreadable reason)
    | Some (Ok t) => let? _ := map_err not_the_pack (verify t d) in Ok t
    end.
End Digest.

(** ** The console running *)

(** The disk, the chain, and this process. *)
Record World : Type := mkWorld
  { packs : gmap str str; temps : gmap (str * Z) str; chain : list str; pid : Z }.

(** What the world decides at one operation: when it happens, what the other
    commands answer, whether a file operation or the journal fails, what a
    failed write leaves, and whether a failed journal had written its line. *)
Record env : Type := mkEnv
  { now : Z; e_case : result CaseFile value; e_proof : result value value; e_by : str;
    fails : option str; partial : str; appended : bool }.

Definition unit_of (e : env) : result unit str :=
  match fails e with Some w => Err w | None => Ok tt end.

Definition perform (e : env) (o : op) (w : World) : resp o * World :=
  match o return resp o * World with
  | OCase _ => (e_case e, w)
  | OProof _ _ => (e_proof e, w)
  | OSealedBy => (e_by e, w)
  | OJournal _ target _ _ =>
      let written := mkWorld (packs w) (temps w) (chain w ++ [target]) (pid w) in
      match fails e with
      | None => ((true, None), written)
      | Some why => ((false, Some why), if appended e then written else w)
      end
  | OCreateDir => (unit_of e, w)
  | OExists hex => (match fails e with Some _ => false | None => bool_decide (is_Some (packs w !! hex)) end, w)
  | ORead hex =>
      (match fails e, packs w !! hex with
       | Some why, _ => Err why
       | None, Some t => Ok t
       | None, None => Err #"No such file or directory"
       end, w)
  | OPid => (pid w, w)
  | OOpen hex p =>
      match fails e, temps w !! (hex, p) with
      | Some why, _ => (Err why, w)
      | None, Some _ => (Err #"File exists", w)
      | None, None => (Ok tt, mkWorld (packs w) (<[(hex, p) := []]> (temps w)) (chain w) (pid w))
      end
  | OWrite hex p t =>
      let left := match fails e with Some _ => partial e | None => t end in
      (unit_of e, mkWorld (packs w) (alter (fun _ => left) (hex, p) (temps w)) (chain w) (pid w))
  | ORemove hex p =>
      match fails e with
      | Some why => (Err why, w)
      | None => (Ok tt, mkWorld (packs w) (delete (hex, p) (temps w)) (chain w) (pid w))
      end
  | ORename hex p =>
      match fails e, temps w !! (hex, p) with
      | Some why, _ => (Err why, w)
      | None, None => (Err #"No such file or directory", w)
      | None, Some t =>
          (Ok tt, mkWorld (<[hex := t]> (packs w)) (delete (hex, p) (temps w)) (chain w) (pid w))
      end
  end.

(** A restart keeps the disk and the chain; the process id may change. *)
Definition restarted (w w' : World) : Prop :=
  packs w' = packs w /\ temps w' = temps w /\ chain w' = chain w.

Definition boot (p : Z) : World := mkWorld ∅ ∅ [] p.

Inductive event : Type := Ev (o : op) (x : resp o).
Definition event_of (o : op) (_ : Z) (x : resp o) : event := Ev o x.

Section Run.
Context {PR : Primitives}.

Record call : Type := mkCall
  { bus : bool; store_dir : bool; request : SealRequest; sealed_at : str }.
Definition handle (c : call) : prog resp (result SealedCase SealFailure) :=
  case_seal_at (bus c) (store_dir c) (request c) (sealed_at c).
Definition seal_step := sys_step event_of handle perform now restarted.

(** ** What a seal has done so far *)

(** The temporary file this handler created and has not let go of, and what it
    wrote to it. *)
Definition track (h : option (str * Z * option str)) (e : event) : option (str * Z * option str) :=
  match e with
  | Ev o x =>
      match o return resp o -> _ with
      | OOpen hex p => fun x => match x with Ok _ => Some (hex, p, None) | Err _ => h end
      | OWrite hex p t => fun x => match x with Ok _ => Some (hex, p, Some t) | Err _ => h end
      | ORemove hex p | ORename hex p => fun x => match x with Ok _ => None | Err _ => h end
      | _ => fun _ => h
      end x
  end.
Definition holding (tr : list event) : option (str * Z * option str) := fold_left track tr None.

(** The digests this handler wrote into the chain. *)
Definition journaled (tr : list event) : list str :=
  omap (fun e => match e with
                 | Ev o x => match o return resp o -> _ with
                             | OJournal _ target _ _ => fun x => if x.1 then Some target else None
                             | _ => fun _ => None
                             end x
                 end) tr.

Lemma holding_snoc tr e : holding (tr ++ [e]) = track (holding tr) e.
Proof. unfold holding. by rewrite fold_left_app. Qed.
Lemma journaled_snoc tr e : journaled (tr ++ [e]) = journaled tr ++ journaled [e].
Proof. unfold journaled. by rewrite omap_app. Qed.

(** Before it writes, removes or renames a temporary file a seal holds it; what
    it writes hashes to the name; and it renames only what it has written
    completely and has a line in the chain for. *)
Definition careful_at (held : option (str * Z * option str)) (lines : list str) (o : op) : Prop :=
  match o with
  | OOpen hex p => held = None
  | OWrite hex p t => held = Some (hex, p, None) /\ digest_of_text t = #"sha256:" ++ hex
  | ORemove hex p => exists w, held = Some (hex, p, w)
  | ORename hex p => exists t,
      held = Some (hex, p, Some t) /\ digest_of_text t = #"sha256:" ++ hex /\ digest_of_text t ∈ lines
  | _ => True
  end.
Definition careful (tr : list event) (o : op) : Prop := careful_at (holding tr) (journaled tr) o.

Lemma run_proofs_careful specs incident tr :
  holding tr = None ->
  wp event_of careful tr (run_proofs specs incident) (fun _ tr' => holding tr' = None).
Proof.
  revert tr; induction specs as [|spec specs IH]; intros tr H; [done|].
  split; [done|]. intros ? x. apply wp_bind. eapply wp_mono; [apply IH; by rewrite holding_snoc|].
  done.
Qed.

Lemma store_pack_careful s tr :
  digest s = digest_of_text (text s) -> digest s ∈ journaled tr -> holding tr = None ->
  wp event_of careful tr (store_pack s) (fun _ _ => True).
Proof.
  intros Hd Hj Hh. unfold store_pack. destruct (strip_prefix _ _) as [hex|] eqn:E; [|done].
  apply strip_prefix_Some in E.
  split; [done|]. intros ? [u|err]; [|done].
  split; [done|]. intros ? [|]; [by split|].
  split; [done|]. intros ? p.
  split; [simpl; rewrite !holding_snoc; done|]. intros ? [u'|err]; [|done].
  split; [simpl; rewrite !holding_snoc; split; [done|by rewrite <- Hd]|].
  intros ? [u''|err].
  - split.
    + exists (text s). rewrite !holding_snoc, !journaled_snoc, !elem_of_app, <- Hd. split; [done|]. split; [done|]. tauto.
    + intros ? [u3|err]; [done|]. split; [|done]. simpl. rewrite !holding_snoc. simpl. eauto.
  - split; [|done]. simpl. rewrite !holding_snoc. simpl. eauto.
Qed.

Lemma case_seal_careful c : wp event_of careful [] (handle c) (fun _ _ => True).
Proof.
  unfold handle, case_seal_at. destruct (checked _) as [d|]; [|done]. case_match; [done|].
  split; [done|]. intros ? [case|]; [|done].
  apply wp_bind. eapply wp_mono; [by apply run_proofs_careful|]. intros records tr Htr.
  split; [done|]. intros ? by_.
  destruct (seal_value _) as [sealed|] eqn:Es; [|done].
  assert (digest sealed = digest_of_text (text sealed)) as Hd.
  { unfold seal_value in Es. oks Es. by injection Es as <-. }
  apply wp_bind. unfold record_console_action. destruct (bus c); [|done].
  split; [done|]. intros ? [[|] why]; [|done]. cbn [wp fst negb].
  apply wp_bind. destruct (store_dir c); [|done].
  eapply wp_mono; [apply store_pack_careful; [done|..]|done].
  - rewrite !journaled_snoc. simpl. rewrite !elem_of_app. right. by apply list_elem_of_singleton.
  - rewrite !holding_snoc. by simpl.
Qed.

(** ** The invariant of a run *)

(** [held i] is the temporary file of handler [i], [lines i] its chain lines. *)
Definition sound_at (held : nat -> option (str * Z * option str)) (lines : nat -> list str) (w : World)
  : Prop :=
  (forall i hex p x, held i = Some (hex, p, x) ->
     exists t, temps w !! (hex, p) = Some t /\ (forall t', x = Some t' -> t = t'))
  /\ (forall i j hex p x y, held i = Some (hex, p, x) -> held j = Some (hex, p, y) -> i = j)
  /\ (forall i d, d ∈ lines i -> d ∈ chain w)
  /\ (forall hex t, packs w !! hex = Some t ->
        digest_of_text t = #"sha256:" ++ hex /\ digest_of_text t ∈ chain w).

Definition upd {A} (f : nat -> A) (i : nat) (a : A) (k : nat) : A := if decide (k = i) then a else f k.
Lemma upd_same {A} (f : nat -> A) i k : upd f i (f i) k = f k.
Proof. unfold upd. by case_decide; subst. Qed.

Lemma sound_ext held held' lines lines' w :
  (forall k, held k = held' k) -> (forall k, lines k = lines' k) ->
  sound_at held lines w -> sound_at held' lines' w.
Proof.
  intros Hh Hl (H1&H2&H3&H4). split; [|split; [|split]]; [| | |done].
  - intros i hex p x. rewrite <- Hh. apply H1.
  - intros i j hex p x y. rewrite <- !Hh. apply H2.
  - intros i d. rewrite <- Hl. apply H3.
Qed.

Lemma sound_line held lines w target i more :
  sound_at held lines w -> (forall d, d ∈ more -> d = target) ->
  sound_at held (upd lines i (lines i ++ more)) (mkWorld (packs w) (temps w) (chain w ++ [target]) (pid w)).
Proof.
  intros (H1&H2&H3&H4) Hm. split; [done|]. split; [done|]. split; simpl.
  - intros k d. unfold upd. case_decide; [subst; rewrite elem_of_app; intros [Hd|Hd%Hm]|intros Hd];
      apply elem_of_app; [left; by eapply H3|right; subst; by apply list_elem_of_singleton|left; by eapply H3].
  - intros hex t Ht. apply H4 in Ht as [? ?]. split; [done|]. apply elem_of_app; by left.
Qed.

Lemma sound_open held lines w i hex p :
  sound_at held lines w -> temps w !! (hex, p) = None ->
  sound_at (upd held i (Some (hex, p, None))) lines
           (mkWorld (packs w) (<[(hex, p) := []]> (temps w)) (chain w) (pid w)).
Proof.
  intros (H1&H2&H3&H4) Ht.
  assert (forall k x, held k = Some (hex, p, x) -> False) as Hno.
  { intros k x Hk. apply H1 in Hk as (t&Hk&_). congruence. }
  split; [|split; [|done]]; simpl.
  - intros k hex' p' x. unfold upd. case_decide; [intros [= <- <- <-]; rewrite lookup_insert_eq; by exists []|].
    intros Hk. destruct (decide ((hex', p') = (hex, p))) as [[= -> ->]|Hne]; [by apply Hno in Hk|].
    rewrite lookup_insert_ne by done. by apply H1 in Hk.
  - intros k j hex' p' x y. unfold upd. repeat case_decide; subst; try done.
    + intros [= <- <- <-] Hj. by apply Hno in Hj.
    + intros Hk [= <- <- <-]. by apply Hno in Hk.
    + apply H2.
Qed.

Lemma sound_write held lines w i hex p x t t' :
  sound_at held lines w -> held i = Some (hex, p, None) -> x = None \/ x = Some t /\ t' = t ->
  sound_at (upd held i (Some (hex, p, x))) lines
           (mkWorld (packs w) (alter (fun _ => t') (hex, p) (temps w)) (chain w) (pid w)).
Proof.
  intros (H1&H2&H3&H4) Hi Hx. split; [|split; [|done]]; simpl.
  - intros k hex' p' y. unfold upd. case_decide as Hki.
    + intros [= <- <- <-]. destruct (H1 _ _ _ _ Hi) as (t0&Ht0&_). rewrite lookup_alter_eq, Ht0. simpl.
      exists t'. split; [done|]. intros t1 ->. destruct Hx as [?|[[= ->] ->]]; done.
    + intros Hk. destruct (decide ((hex, p) = (hex', p'))) as [[= <- <-]|Hne].
      * destruct Hki. by eapply H2.
      * rewrite lookup_alter_ne by done. by apply H1 in Hk.
  - intros k j hex' p' y z. unfold upd. repeat case_decide; subst; try done.
    + intros [= <- <- <-] Hj. by eapply H2.
    + intros Hk [= <- <- <-]. by eapply H2.
    + apply H2.
Qed.

Lemma sound_release held lines w i hex p x packs' :
  sound_at held lines w -> held i = Some (hex, p, x) ->
  (forall hex' t, packs' !! hex' = Some t ->
     digest_of_text t = #"sha256:" ++ hex' /\ digest_of_text t ∈ chain w) ->
  sound_at (upd held i None) lines (mkWorld packs' (delete (hex, p) (temps w)) (chain w) (pid w)).
Proof.
  intros (H1&H2&H3&H4) Hi Hp. split; [|split; [|split]]; simpl; [| |done..].
  - intros k hex' p' y. unfold upd. case_decide as Hki; [done|]. intros Hk.
    destruct (decide ((hex, p) = (hex', p'))) as [[= <- <-]|Hne].
    + destruct Hki. by eapply H2.
    + rewrite lookup_delete_ne by done. by apply H1 in Hk.
  - intros k j hex' p' y z. unfold upd. repeat case_decide; try done. apply H2.
Qed.

Lemma sound_act held lines w i o e x w' :
  sound_at held lines w -> careful_at (held i) (lines i) o -> perform e o w = (x, w') ->
  sound_at (upd held i (track (held i) (Ev o x))) (upd lines i (lines i ++ journaled [Ev o x])) w'.
Proof.
  intros Hs Hc Hp.
  assert (Hsame : forall w, sound_at held lines w ->
    sound_at (upd held i (held i)) (upd lines i (lines i ++ [])) w).
  { intros w0. apply sound_ext; intros k; [by rewrite upd_same|]. by rewrite app_nil_r, upd_same. }
  assert (Hlines : forall held' w, sound_at held' lines w -> sound_at held' (upd lines i (lines i ++ [])) w).
  { intros held' w0. apply sound_ext; intros k; [done|]. by rewrite app_nil_r, upd_same. }
  destruct o as [c|c sp| |a target ps r| |hex|hex| |hex p|hex p t|hex p|hex p]; simpl in Hp, Hc;
    try (injection Hp as <- <-; by apply Hsame).
  - assert (forall more, (forall d, d ∈ more -> d = target) -> sound_at (upd held i (held i))
      (upd lines i (lines i ++ more)) (mkWorld (packs w) (temps w) (chain w ++ [target]) (pid w))) as Hgrow.
    { intros more Hm. eapply sound_ext, sound_line; [|done|exact Hs|exact Hm]. intros k. by rewrite upd_same. }
    case_match; injection Hp as <- <-; simpl; [case_match; [apply Hgrow; set_solver|by apply Hsame]|].
    apply Hgrow. set_solver.
  - repeat case_match; injection Hp as <- <-; simpl; try by apply Hsame. apply Hlines. by apply sound_open.
  - destruct Hc as [Hi Ht]. injection Hp as <- <-. unfold unit_of. case_match; simpl; apply Hlines.
    + rewrite Hi. apply (sound_write _ _ _ _ _ _ None t); auto.
    + apply (sound_write _ _ _ _ _ _ (Some t) t); auto.
  - destruct Hc as [y Hi]. case_match; injection Hp as <- <-; simpl; [by apply Hsame|].
    apply Hlines. eapply sound_release; [done..|]. by apply Hs.
  - destruct Hc as (t&Hi&Ht&Hj). pose proof Hs as (H1&H2&H3&H4). destruct (H1 _ _ _ _ Hi) as (t0&Ht0&Hx).
    rewrite Ht0, (Hx t eq_refl) in Hp. case_match; injection Hp as <- <-; simpl; [by apply Hsame|].
    apply Hlines. eapply sound_release; [done..|]. intros hex' t1 [[<- <-]|[_ Hlk]]%lookup_insert_Some; [|by apply H4].
    split; [done|by eapply H3].
Qed.

(** The part of a history that is one handler's, and the sound state it leaves. *)
Definition sound (h : list (sys_event event call)) (sy : sys resp (result SealedCase SealFailure) World)
  : Prop :=
  audited event_of careful h sy
  /\ sound_at (fun i => holding (trace_of i h)) (fun i => journaled (trace_of i h)) (sys_state sy).

Lemma sound_quiet (h : list (sys_event event call)) se w :
  (forall i e, se <> Did i e) ->
  sound_at (fun i => holding (trace_of i h)) (fun i => journaled (trace_of i h)) w ->
  sound_at (fun i => holding (trace_of i (h ++ [se]))) (fun i => journaled (trace_of i (h ++ [se]))) w.
Proof.
  intros Hse. apply sound_ext; intros k; rewrite trace_of_snoc; destruct se as [|j e|];
    by rewrite ?app_nil_r || by destruct (Hse j e).
Qed.

Lemma sound_step h sy se sy' : sound h sy -> seal_step sy se sy' -> sound (h ++ [se]) sy'.
Proof.
  intros [Ha Hs] Hstep. split; [eapply audited_step; [exact case_seal_careful|exact Ha|exact Hstep]|].
  destruct Ha as (Ht&_&_). destruct Hstep as [w T n t r|w T n t i o k e x w' Hi Htm Hp|w T n t w' Hr]; simpl in *.
  - by apply sound_quiet.
  - destruct (Ht i _ Hi) as [_ [Hc _]].
    eapply sound_ext; [..|exact (sound_act _ _ _ i o e x w' Hs Hc Hp)]; intros j; unfold upd;
      rewrite trace_of_snoc; unfold event_of; repeat case_decide; subst; try done;
      rewrite ?holding_snoc, ?journaled_snoc, ?app_nil_r; done.
  - destruct Hr as (E1&E2&E3). apply sound_quiet; [done|]. unfold sound_at in *. by rewrite E1, E2, E3.
Qed.

Lemma sound_run p t h sy : run seal_step (initial (boot p) t) h sy -> sound h sy.
Proof.
  intros Hr. eapply (history_invariant event_of handle perform now restarted sound);
    [exact Hr| |intros; by eapply sound_step].
  split; [split; [|split]; simpl; [by intros i q|done|by intros [] h2 i e]|].
  split; [|split; [|split]]; by simpl.
Qed.

(** ** Reading a sealed text again *)

(** The integer a double's text is, when its text has neither a point nor an
    exponent. *)
Definition int_text (x : f64) : option Z :=
  if bool_decide (f_digits x = [0]) then Some 0
  else
    let n := f_exp x + 1 in
    let k := Z.of_nat (length (f_digits x)) in
    if (k <=? n) && (n <=? 21) then
      let m := digits_value (map (fun d => 48 + d) (f_digits x) ++ zeros (n - k)) in
      Some (if f_neg x then - m else m)
    else None.
Definition json_int (z : Z) : bool := (i64_min <=? z) && (z <=? u64_max).

(** What reading a value's canonical text gives: a double whose text is an
    integer of 64 bits comes back as that integer. *)
Fixpoint reread (v : value) : value :=
  match v with
  | VNum (NFloat x) =>
      match int_text x with
      | Some z => if json_int z then VNum (NInt z) else v
      | None => v
      end
  | VArr items => VArr (map reread items)
  | VObj ms => VObj (map (fun kv => (kv.1, reread kv.2)) ms)
  | _ => v
  end.

(** A double as [{:e}] prints it: digits without a leading zero, or one zero. *)
Definition f64_wf (x : f64) : bool :=
  bool_decide (f_digits x = [0])
  || (bool_decide (f_digits x <> []) && negb (hd 0 (f_digits x) =? 0)
      && forallb (fun d => (0 <=? d) && (d <=? 9)) (f_digits x)).
Fixpoint floats_wf (v : value) : bool :=
  match v with
  | VNum (NFloat x) => f64_wf x
  | VArr items => forallb floats_wf items
  | VObj ms => forallb (fun kv => floats_wf kv.2) ms
  | _ => true
  end.

Lemma es6_int x z : f64_wf x = true -> int_text x = Some z -> es6_number x = dec z.
Proof.
  unfold f64_wf, int_text, es6_number. destruct (bool_decide (f_digits x = [0])); [by intros _ [= <-]|].
  cbv zeta. rewrite length_map. intros Hw. destruct ((_ <=? _) && _); [|done]. intros E. injection E as E.
  subst z. simpl in Hw. b2p. destruct Hw as [[Hne Hh] Hd].
  set (s := map _ _ ++ zeros _).
  assert (all_digits s = true /\ s <> [] /\ hd 48 s <> 48) as (Ha&Hs&Hhd).
  { unfold s, all_digits, zeros. rewrite forallb_app. destruct (f_digits x) as [|d ds]; [done|].
    split; [|split; [done|simpl in *; lia]]. b2p. split.
    - rewrite forallb_Forall in Hd |- *. apply List.Forall_map. eapply Forall_impl; [exact Hd|].
      intros c Hc. unfold ascii_digit. simpl in *. b2p. lia.
    - apply forallb_Forall, Forall_forall. intros c Hc%list_elem_of_In%repeat_spec. by subst. }
  pose proof (digits_value_pos s Ha Hs Hhd). unfold dec.
  destruct (f_neg x); [destruct (Z.ltb_spec (- digits_value s) 0)|destruct (Z.ltb_spec (digits_value s) 0)];
    try lia; rewrite ?Z.opp_involutive, dec_nat_digits; done.
Qed.

Lemma forallb_map {A B} (p : B -> bool) (f : A -> B) l : forallb p (map f l) = forallb (fun a => p (f a)) l.
Proof. induction l; simpl; congruence. Qed.

Lemma map_Forall_ext {A B} (f g : A -> B) l : Forall (fun a => f a = g a) l -> map f l = map g l.
Proof. induction 1; simpl; congruence. Qed.

Lemma canonical_reread v :
  floats_wf v = true -> exact_ints (reread v) = true -> canonical (reread v) = canonical v.
Proof.
  induction v as [|[]|[z|x]|t|items IH|ms IH] using value_nested_ind; try done; simpl.
  - intros Hw. destruct (int_text x) as [z|] eqn:Ez; [|done]. destruct (json_int z); [|done].
    simpl. intros ->. by rewrite (es6_int x z Hw Ez).
  - intros Hw He. rewrite map_map.
    rewrite (map_Forall_ext (fun v => canonical (reread v)) canonical); [done|].
    rewrite forallb_map in He. rewrite forallb_Forall in Hw, He.
    rewrite !Forall_forall in *. auto.
  - intros Hw He. rewrite map_map. simpl.
    rewrite (map_Forall_ext _ (fun kv : str * value => let? t := canonical kv.2 in Ok (kv.1, t))); [done|].
    rewrite forallb_map in He. rewrite forallb_Forall in Hw, He. rewrite !Forall_forall in *.
    intros kv Hkv. specialize (Hw _ Hkv). specialize (He _ Hkv). simpl in *. by rewrite IH.
Qed.

Lemma get_str_reread k v : get_str k (reread v) = get_str k v.
Proof.
  unfold get_str, get. destruct v as [|[]|[|x]| |items|ms]; try done; simpl.
  - destruct (int_text x); [|done]. by destruct (json_int _).
  - induction ms as [|[k' v] ms IH]; simpl; [done|]. destruct (str_eqb k k'); [|done].
    destruct v as [|[]|[|x]| | |]; try done; simpl. destruct (int_text x); [|done]. by destruct (json_int _).
Qed.

(** The double [x] occurs in the value. *)
Inductive occurs (x : f64) : value -> Prop :=
| occ_here : occurs x (VNum (NFloat x))
| occ_arr v items : v ∈ items -> occurs x v -> occurs x (VArr items)
| occ_obj k v ms : (k, v) ∈ ms -> occurs x v -> occurs x (VObj ms).

Lemma occurs_inexact x z v :
  occurs x v -> int_text x = Some z -> json_int z = true -> MAX_EXACT_INT < Z.abs z ->
  exact_ints (reread v) = false.
Proof.
  intros Ho Hz Hj Hm. induction Ho as [|v items Hin _ IH|k v ms Hin _ IH]; simpl.
  - rewrite Hz, Hj. simpl. lia.
  - rewrite forallb_map. apply not_true_iff_false. rewrite forallb_Forall, Forall_forall. intros H.
    specialize (H _ Hin). simpl in H. congruence.
  - rewrite forallb_map. apply not_true_iff_false. rewrite forallb_Forall, Forall_forall. intros H.
    specialize (H _ Hin). simpl in H. congruence.
Qed.

Lemma build_pack_format case records d by_ at_ :
  get_str #"format" (build_pack case records d by_ at_) = Some PACK_FORMAT.
Proof. reflexivity. Qed.

Lemma is_digest_of t :
  length (sha256 (str_bytes t)) = 32%nat -> Forall (fun b => 0 <= b <= 255) (sha256 (str_bytes t)) ->
  is_digest (digest_of_text t) = true.
Proof.
  intros Hl Hb. unfold is_digest, digest_of_text, hex_lower. rewrite strip_prefix_app.
  generalize dependent (sha256 (str_bytes t)). intros bs Hl Hb.
  assert (Forall (fun c => ascii_digit c || ((97 <=? c) && (c <=? 102)) = true) (hex_bytes bs)) as Hc.
  { eapply Forall_impl; [by apply hex_bytes_chars|]. unfold is_hex, ascii_digit. intros c Hc. simpl in *. b2p. lia. }
  assert (str_bytes (hex_bytes bs) = hex_bytes bs) as E.
  { apply str_bytes_ascii. eapply Forall_impl; [exact Hc|]. unfold ascii_digit. intros c H. simpl in *. b2p. lia. }
  unfold byte_len. rewrite E. b2p. split; [|by apply forallb_Forall].
  assert (length (hex_bytes bs) = (2 * length bs)%nat) as ->; [|lia].
  clear. induction bs as [|b bs IH]; [done|]. simpl in *. rewrite IH. lia.
Qed.

(** ** Properties *)

(** C40: whatever is stored was sealed.  When any number of seals run at once,
    with any file operation or journal write failing and any restarts, every
    file among the packs is a complete document that hashes to the file's name,
    and its digest is a line of the console's chain: no partial write and no
    seal that could not be journaled ever leaves a pack. *)
Theorem stored_pack_is_sealed p t0 h sy hex t :
  run seal_step (initial (boot p) t0) h sy ->
  packs (sys_state sy) !! hex = Some t ->
  digest_of_text t = #"sha256:" ++ hex /\ digest_of_text t ∈ chain (sys_state sy).
Proof. intros Hr Ht. destruct (sound_run _ _ _ _ Hr) as [_ (_&_&_&H)]. by apply H. Qed.

Section Read.
Context {JR : JsonRead}.

(** What [case_pack] reads from the disk of a running console. *)
Definition read_disk (w : World) (hex : str) : option (result str str) := Ok <$> packs w !! hex.

(** A pack that is handed back is the document its digest names, in
    canonical form and of this format, and the digest is in the console's
    chain. *)
Theorem handed_back_pack_is_journaled p t0 h sy d t :
  run seal_step (initial (boot p) t0) h sy ->
  case_pack d (Some (read_disk (sys_state sy))) = Ok t ->
  d ∈ chain (sys_state sy) /\ d = digest_of_text t
  /\ exists v, from_str t = Some v /\ canonical v = Ok t /\ get_str #"format" v = Some PACK_FORMAT.
Proof.
  intros Hr. unfold case_pack. destruct (is_digest d) eqn:Hd; [|done]. cbn [negb ok_or rbind].
  unfold is_digest in Hd. destruct (strip_prefix _ _) as [hex|] eqn:E; [|done].
  apply strip_prefix_Some in E. simpl default. unfold read_disk.
  destruct (packs _ !! hex) as [t1|] eqn:Ht; [|done]. cbn [fmap option_fmap option_map].
  intros H. oks H. injection H as <-. unfold verify in Hx. oks Hx.
  destruct (sound_run _ _ _ _ Hr) as [_ (_&_&_&Hs)]. apply Hs in Ht as [Hdg Hch].
  rewrite Hdg in Hch. rewrite <- E in Hdg, Hch. split; [done|]. split; [done|]. exists x0. split; [done|].
  destruct (canonical x0) as [c|]; [|done]. destruct (get_str _ _) as [f|]; [|done]. b2p.
  by repeat match goal with H : str_eqb _ _ = true |- _ => apply str_eqb_eq in H as -> end.
Qed.

Lemma case_pack_of_sealed case records d by_ at_ s read :
  let p := build_pack case records d by_ at_ in
  floats_wf p = true -> seal_value p = Ok s ->
  from_str (text s) = Some (reread p) ->
  length (sha256 (str_bytes (text s))) = 32%nat ->
  Forall (fun b => 0 <= b <= 255) (sha256 (str_bytes (text s))) ->
  (forall hex, digest s = #"sha256:" ++ hex -> read hex = Some (Ok (text s))) ->
  case_pack (digest s) (Some read)
  = if exact_ints (reread p) then Ok (text s)
    else Err (NotThePack #"the file is not in canonical form").
Proof.
  intros p Hw Hs Hf Hl Hb Hread. unfold seal_value in Hs. oks Hs. injection Hs as <-. cbn [text digest] in *.
  unfold case_pack. rewrite is_digest_of by done. cbn [negb ok_or rbind].
  unfold digest_of_text at 1. rewrite strip_prefix_app. simpl default. rewrite (Hread _ eq_refl).
  unfold verify. rewrite Hf. cbn [ok_or rbind].
  assert (get_str #"format" (reread p) = Some PACK_FORMAT) as Hfmt
    by (rewrite get_str_reread; apply build_pack_format).
  destruct (exact_ints (reread p)) eqn:He.
  - rewrite canonical_reread, Hx, Hfmt, !str_eqb_refl by done. done.
  - destruct (canonical (reread p)) as [c|] eqn:Ec; [|done].
    pose proof (canonical_ok_exact (reread p)) as H. rewrite Ec, He in H. done.
Qed.

(** What a sealed case reads back as.  Handing back a stored pack gives
    exactly the sealed text when every number of the text is one the canonical
    form can write, and is refused as not canonical otherwise; nothing else
    about the case, the proofs or the decision can make it fail. *)
Theorem sealed_pack_reads_back case records d by_ at_ s read :
  let p := build_pack case records d by_ at_ in
  floats_wf p = true -> seal_value p = Ok s ->
  from_str (text s) = Some (reread p) ->
  length (sha256 (str_bytes (text s))) = 32%nat ->
  Forall (fun b => 0 <= b <= 255) (sha256 (str_bytes (text s))) ->
  (forall hex, digest s = #"sha256:" ++ hex -> read hex = Some (Ok (text s))) ->
  case_pack (digest s) (Some read)
  = if exact_ints (reread p) then Ok (text s)
    else Err (NotThePack #"the file is not in canonical form").
Proof. apply case_pack_of_sealed. Qed.

(** A double of 2^53 or more without a fraction, anywhere in the case,
    makes a pack that is sealed, journaled and stored and can never be read
    back: its canonical text is an integer literal, and read again it is an
    integer the canonical form refuses. *)
Theorem large_double_never_reads_back x z case records d by_ at_ s read :
  let p := build_pack case records d by_ at_ in
  occurs x (case_json case) -> int_text x = Some z -> json_int z = true -> MAX_EXACT_INT < Z.abs z ->
  floats_wf p = true -> seal_value p = Ok s ->
  from_str (text s) = Some (reread p) ->
  length (sha256 (str_bytes (text s))) = 32%nat ->
  Forall (fun b => 0 <= b <= 255) (sha256 (str_bytes (text s))) ->
  (forall hex, digest s = #"sha256:" ++ hex -> read hex = Some (Ok (text s))) ->
  case_pack (digest s) (Some read) = Err (NotThePack #"the file is not in canonical form").
Proof.
  intros p Ho Hz Hj Hm Hw Hs Hf Hl Hb Hread.
  rewrite (case_pack_of_sealed case records d by_ at_ s read Hw Hs Hf Hl Hb Hread). fold p.
  assert (exact_ints (reread p) = false) as ->; [|done].
  apply (occurs_inexact x z p); [|done..]. by apply (occ_obj _ #"case" (case_json case)); [left|].
Qed.
End Read.
End Run.

(** ** Witnesses *)

Definition demo_case (v : value) : CaseFile :=
  mkCase #"bus:1" #"agent://acme/ops/bot" None None []
    [mkFact SEvent Bus #"1" #"sha256:0" #"the incident's event row" TrustData v] #"sha256:1".
Definition demo_request : SealRequest := mkRequest #"bus:1" [] (mkDecision Applied #" stopped it ").
Definition demo_env : env :=
  mkEnv 5 (Ok (demo_case (VNum (NInt 7)))) (Err VNull) #"user://acme/ops" None [] false.

(** A hash of 32 bytes. *)
Definition pack_primitives : Primitives := {|
  sha256 := fun bs => repeat (fold_left (fun a b => (a + b) mod 256) bs 0) 32;
  VerifyingKey := list Z; Signature := list Z; from_sec1_bytes := Ok; signature_from_slice := Ok;
  signature_from_der := Ok; signature_to_bytes := fun s => s; ecdsa_verify := fun _ _ _ => false;
  b64_encode := hex_bytes; b64_decode := hex_to_bytes; b64url_encode := hex_bytes;
  b64url_decode := hex_to_bytes |}.
#[local] Existing Instance pack_primitives.

Definition demo_calls : list (action call env) :=
  Arrive (mkCall true true demo_request #"2026-01-01T00:00:00Z") :: repeat (Perform 0 demo_env) 9.
Definition demo_start : sys resp (result SealedCase SealFailure) World := initial (boot 1) 0.
Definition demo_history : list (sys_event event call) :=
  history event_of handle perform now demo_start demo_calls.
Definition demo_end : sys resp (result SealedCase SealFailure) World :=
  final event_of handle perform now demo_start demo_calls.

Lemma seal_demo_runs : run seal_step demo_start demo_history demo_end.
Proof.
  unfold seal_step, demo_history, demo_end.
  simple refine (history_run event_of handle perform now restarted demo_start demo_calls _).
  vm_compute. reflexivity.
Defined.

Definition demo_file : str * str :=
  match map_to_list (packs (sys_state demo_end)) with [f] => f | _ => ([], []) end.

Lemma stored_pack_is_sealed_witness :
  byte_len demo_file.2 = 455 /\ digest_of_text demo_file.2 ∈ chain (sys_state demo_end).
Proof.
  split; [vm_compute; reflexivity|].
  apply (stored_pack_is_sealed 1 0 demo_history demo_end demo_file.1 demo_file.2 seal_demo_runs).
  vm_compute. reflexivity.
Defined.

(** A case that holds the double 9007199254740994. *)
Definition big : f64 := F64 false [9;0;0;7;1;9;9;2;5;4;7;4;0;9;9;4] 15.
Definition demo_decision : Decision := mkDecision Applied #"stopped it".
Definition pack_of (v : value) : value :=
  build_pack (demo_case v) [] demo_decision #"user://acme/ops" #"2026-01-01T00:00:00Z".
Definition sealed_of (v : value) : Sealed :=
  match seal_value (pack_of v) with Ok s => s | Err _ => mkSealed [] [] end.
Definition demo_reader (t : str) : option value :=
  if str_eqb t (text (sealed_of (VNum (NInt 7)))) then Some (reread (pack_of (VNum (NInt 7))))
  else if str_eqb t (text (sealed_of (VNum (NFloat big)))) then Some (reread (pack_of (VNum (NFloat big))))
  else None.
#[local] Instance demo_read : JsonRead := {| from_str := demo_reader |}.

Lemma handed_back_pack_is_journaled_witness :
  digest (sealed_of (VNum (NInt 7))) ∈ chain (sys_state demo_end)
  /\ digest (sealed_of (VNum (NInt 7))) = digest_of_text (text (sealed_of (VNum (NInt 7)))).
Proof.
  destruct (handed_back_pack_is_journaled 1 0 demo_history demo_end
    (digest (sealed_of (VNum (NInt 7)))) (text (sealed_of (VNum (NInt 7)))) seal_demo_runs) as (H&H'&_);
    [vm_compute; reflexivity|exact (conj H H')].
Defined.

Definition holds_text (v : value) (hex : str) : option (result str str) := Some (Ok (text (sealed_of v))).

Lemma sealed_pack_reads_back_witness :
  case_pack (digest (sealed_of (VNum (NInt 7)))) (Some (holds_text (VNum (NInt 7))))
  = Ok (text (sealed_of (VNum (NInt 7)))).
Proof.
  apply (sealed_pack_reads_back (demo_case (VNum (NInt 7))) [] demo_decision #"user://acme/ops"
           #"2026-01-01T00:00:00Z" (sealed_of (VNum (NInt 7))) (holds_text (VNum (NInt 7))));
    try (vm_compute; reflexivity); try done.
  apply (bool_decide_unpack _). vm_compute. exact I.
Defined.

Lemma large_double_never_reads_back_witness :
  case_pack (digest (sealed_of (VNum (NFloat big)))) (Some (holds_text (VNum (NFloat big))))
  = Err (NotThePack #"the file is not in canonical form").
Proof.
  apply (large_double_never_reads_back big 9007199254740994 (demo_case (VNum (NFloat big))) [] demo_decision
           #"user://acme/ops" #"2026-01-01T00:00:00Z" (sealed_of (VNum (NFloat big)))
           (holds_text (VNum (NFloat big)))); try (vm_compute; reflexivity); try done.
  - apply (occ_obj _ #"facts" (VArr (map fact_json (Case.facts (demo_case (VNum (NFloat big))))))).
    + apply list_elem_of_In. simpl. tauto.
    + apply (occ_arr _ (fact_json (mkFact SEvent Bus #"1" #"sha256:0" #"the incident's event row" TrustData (VNum (NFloat big)))));
        [left|].
      apply (occ_obj _ #"row" (VNum (NFloat big))); [|constructor]. apply list_elem_of_In. simpl. tauto.
  - apply (bool_decide_unpack _). vm_compute. exact I.
Defined.
