(* ===== verification/Http.v ===== *)
(** * Http: reading an answer under a cap

    [fetch] of [crates/web/src/oidc.rs] and [read_capped_body] of
    [crates/api/src/delegation/commands.rs] read a body chunk by chunk and
    stop before a buffer would pass its bound.  The client ([reqwest]) is
    another crate: an answer is its status and the chunks its body stream
    yields, each of which may fail. *)
From S2P Require Import Prelude Text.

Record Response : Type := mkResponse { status : Z; chunks : list (result (list Z) str) }.

(** [StatusCode::is_success], [StatusCode::is_redirection]. *)
Definition is_success (code : Z) : bool := (200 <=? code) && (code <=? 299).
Definition is_redirection (code : Z) : bool := (300 <=? code) && (code <=? 399).

Section Capped.
Context {E : Type} (cap : Z) (broken : str -> E) (too_large : E).

(** The loop over the chunks, [body] being what was read so far. *)
Fixpoint read_chunks (body : list Z) (cs : list (result (list Z) str)) : result (list Z) E :=
  match cs with
  | [] => Ok body
  | Err e :: _ => Err (broken e)
  | Ok chunk :: cs =>
      if cap <? Z.of_nat (length body) + Z.of_nat (length chunk) then Err too_large
      else read_chunks (body ++ chunk) cs
  end.

(** Whatever the stream yields, the buffer never passes the cap, and a body
    that is handed on is the whole stream. *)
Lemma read_chunks_Ok cs body out :
  read_chunks body cs = Ok out ->
  exists parts, cs = map Ok parts /\ out = body ++ concat parts /\
    (Z.of_nat (length body) <= cap -> Z.of_nat (length out) <= cap).
Proof.
  revert body. induction cs as [|[chunk|e] cs IH]; intros body; simpl; [|case_match eqn:Hc|]; try done.
  - intros [= <-]. exists []. by rewrite app_nil_r.
  - intros H. apply IH in H as (parts & -> & -> & Hlen). exists (chunk :: parts).
    split; [done|]. split; [by rewrite <- app_assoc|]. intros _. apply Hlen. rewrite length_app. b2p. lia.
Qed.

Lemma read_chunks_too_large parts body :
  Z.of_nat (length body) <= cap -> cap < Z.of_nat (length (body ++ concat parts)) ->
  read_chunks body (map Ok parts) = Err too_large.
Proof.
  revert body. induction parts as [|p parts IH]; intros body Hb Hl; simpl in *.
  - rewrite app_nil_r in Hl. lia.
  - case_match eqn:Hc; [done|]. b2p. rewrite !length_app in Hl. apply IH; rewrite !length_app; lia.
Qed.

Lemma read_chunks_fits parts body :
  Z.of_nat (length (body ++ concat parts)) <= cap -> read_chunks body (map Ok parts) = Ok (body ++ concat parts).
Proof.
  revert body. induction parts as [|p parts IH]; intros body Hl; simpl in *; [by rewrite app_nil_r|].
  rewrite !length_app in Hl. case_match eqn:Hc; b2p; [lia|].
  rewrite IH, <- app_assoc; [done|]. rewrite !length_app. lia.
Qed.
End Capped.

(** [Response::bytes]: the whole body, with no cap. *)
Fixpoint whole (cs : list (result (list Z) str)) : result (list Z) str :=
  match cs with
  | [] => Ok []
  | Err e :: _ => Err e
  | Ok chunk :: cs => let? rest := whole cs in Ok (chunk ++ rest)
  end.
