(* ===== verification/Oidc.v ===== *)
(** * Oidc: sign-in with a token of the identity provider
    ([crates/web/src/oidc.rs])

    A token is checked against a key set that is either given once at startup
    or fetched from the provider and cached.  The cache is one lock around its
    whole state: a call is one transition of [LiveState], and concurrent
    sign-ins are the calls in the order they took the lock.  Tokens, keys and
    signatures belong to [jsonwebtoken], the class [Jose]; what the provider
    answers is an argument of the call that fetches.  An [Instant] is counted
    in nanoseconds. *)
From S2P Require Import Prelude Text Json Roles Http.

(** ** What [jsonwebtoken] supplies *)

Inductive Algorithm : Type :=
| HS256 | HS384 | HS512 | ES256 | ES384 | RS256 | RS384 | RS512 | PS256 | PS384 | PS512 | EdDSA.
#[export] Instance Algorithm_eq_dec : EqDecision Algorithm.
Proof. solve_decision. Defined.

Inductive AlgorithmParameters : Type := EllipticCurve | RSA | OctetKey | OctetKeyPair.

(** The fields of a [Validation] that [verify] sets. *)
Record Validation : Type := mkValidation
  { algorithms : list Algorithm; validate_exp : bool; required_spec_claims : list str;
    iss : list str; aud : list str }.

Definition Claims : Type := list (str * value).

Class Jose := {
  Jwk : Type;
  DecodingKey : Type;
  algorithm_of : Jwk -> AlgorithmParameters;         (* [jwk.algorithm] *)
  jwk_of : value -> option Jwk;                      (* one key, from JSON *)
  set_of : value -> option (list Jwk);               (* a [JwkSet], from a [Value] *)
  set_from_str : str -> option (list Jwk);           (* a [JwkSet], from text *)
  find_kid : list Jwk -> str -> option Jwk;          (* [JwkSet::find] *)
  decode_header : str -> option (option str);        (* the header's [kid] *)
  from_jwk : Jwk -> option DecodingKey;
  decode : str -> DecodingKey -> Validation -> option Claims;
  signed_with : str -> DecodingKey -> Algorithm -> bool;  (* the signature check [decode] makes *)
  unexpired : Claims -> bool;                        (* the check of [exp] it makes, by its clock *)
}.

(** A claim that names one of [allowed]: a text, or a list of texts. *)
Definition names_one_of (allowed : list str) (claim : option value) : Prop :=
  match claim with
  | Some (VStr s) => s ∈ allowed
  | Some (VArr vs) => exists s, s ∈ allowed /\ VStr s ∈ vs
  | _ => False
  end.

(** Their documented behaviour, where a proof needs it. *)
Class JoseLaws `{Jose} := {
  find_kid_member s kid k : find_kid s kid = Some k -> k ∈ s;
  set_of_entries v s : set_of v = Some s ->
    exists items, get #"keys" v = Some (VArr items) /\ Forall2 (fun e k => jwk_of e = Some k) items s;
  decode_checks t key v c : decode t key v = Some c ->
    (exists alg, alg ∈ algorithms v /\ signed_with t key alg = true) /\
    Forall (fun name => is_Some (obj_get name c)) (required_spec_claims v) /\
    (validate_exp v = true -> unexpired c = true) /\
    (#"iss" ∈ required_spec_claims v -> names_one_of (iss v) (obj_get #"iss" c)) /\
    (#"aud" ∈ required_spec_claims v -> names_one_of (aud v) (obj_get #"aud" c));
}.

(** ** Fetching and checking a key set *)

Definition MAX_AGE : Z := 60 * 60 * 1000000000.
Definition COOLDOWN : Z := 5 * 60 * 1000000000.
Definition MAX_JWKS_BODY_BYTES : Z := 1024 * 1024.
Definition FORBIDDEN_PRIVATE_MEMBERS : list str :=
  [ #"d"; #"p"; #"q"; #"dp"; #"dq"; #"qi"; #"k"].

Inductive FetchError : Type :=
| Transport (e : str)
| NonSuccess (code : Z)
| Redirected
| TooLarge.

(** [ReqwestFetcher::fetch], of the answer or the client's error. *)
Definition fetch (sent : result Response str) : result (list Z) FetchError :=
  match sent with
  | Err e => Err (Transport e)
  | Ok resp =>
      if is_redirection (status resp) then Err Redirected
      else if negb (is_success (status resp)) then Err (NonSuccess (status resp))
      else read_chunks MAX_JWKS_BODY_BYTES Transport TooLarge [] (chunks resp)
  end.

Inductive RefusedSet : Type :=
| InvalidJson
| NotAnObject
| KeysMissingOrNotArray
| EmptyKeys
| KeyNotAnObject
| UnsupportedKeyType (kty : str)
| PrivateKeyMember (kid : option str) (member : str).

(** The loop over the published keys: the ones kept, or the refusal of the
    whole set. *)
Fixpoint keep_keys (keys : list value) : result (list value) RefusedSet :=
  match keys with
  | [] => Ok []
  | VObj key :: rest =>
      match find (fun m => bool_decide (is_Some (obj_get m key))) FORBIDDEN_PRIVATE_MEMBERS with
      | Some m => Err (PrivateKeyMember (get_str #"kid" (VObj key)) m)
      | None =>
          let kty := default [] (get_str #"kty" (VObj key)) in
          if str_eqb kty #"RSA" || str_eqb kty #"EC" then
            let? kept := keep_keys rest in Ok (VObj key :: kept)
          else if str_eqb kty #"oct" then Err (UnsupportedKeyType kty)
          else keep_keys rest
      end
  | _ :: _ => Err KeyNotAnObject
  end.

Section Oidc.
Context {J : Jose} {JT : JsonText}.

Definition validate_jwks_bytes (body : list Z) : result (list Jwk) RefusedSet :=
  let? raw := ok_or (json_of body) InvalidJson in
  let? obj := match raw with VObj ms => Ok ms | _ => Err NotAnObject end in
  let? keys := match obj_get #"keys" obj with Some (VArr a) => Ok a | _ => Err KeysMissingOrNotArray end in
  if bool_decide (keys = []) then Err EmptyKeys
  else
    let? kept := keep_keys keys in
    if bool_decide (kept = []) then Err EmptyKeys
    else ok_or (set_of (VObj (obj_insert #"keys" (VArr kept) obj))) InvalidJson.

(** ** The live cache *)

Record LiveState : Type := mkLive
  { keys : list Jwk; fetched_at : option Z; last_attempt : option Z; warned_this_streak : bool }.
Definition empty : LiveState := mkLive [] None None false.

Inductive reason : Type := FetchFailed (e : FetchError) | SetRefused (r : RefusedSet).

(** [attempt_locked]: the new state, and the warning it logs. *)
Definition attempt_locked (now : Z) (sent : result Response str) (s : LiveState)
  : LiveState * option reason :=
  let outcome := match fetch sent with
                 | Ok body => map_err SetRefused (validate_jwks_bytes body)
                 | Err e => Err (FetchFailed e)
                 end in
  match outcome with
  | Ok ks => (mkLive ks (Some now) (Some now) false, None)
  | Err why =>
      (mkLive (keys s) (fetched_at s) (Some now) true,
       if warned_this_streak s then None else Some why)
  end.

(** [now.saturating_duration_since(t) >= d]. *)
Definition elapsed_reaches (now : Z) (since : option Z) (d : Z) : bool :=
  match since with None => true | Some t => d <=? Z.max 0 (now - t) end.

(** What one call did to the network and the log. *)
Record effects : Type := mkEffects { attempted : option Z; warned : option reason }.

Definition warm_up (now : Z) (sent : result Response str) (s : LiveState) : LiveState * effects :=
  match fetched_at s with
  | None => let (s', w) := attempt_locked now sent s in (s', mkEffects (Some now) w)
  | Some _ => (s, mkEffects None None)
  end.

(** [LiveJwks::find]: the clock is read once to decide and once more, by
    [attempt_locked], when the attempt begins. *)
Definition find_live (kid : str) (now begun : Z) (sent : result Response str) (s : LiveState)
  : option Jwk * LiveState * effects :=
  let due_by_age := elapsed_reaches now (fetched_at s) MAX_AGE in
  let due_by_kid := bool_decide (find_kid (keys s) kid = None) in
  let (s', e) :=
    if due_by_age || due_by_kid then
      if elapsed_reaches now (last_attempt s) COOLDOWN then
        let (s', w) := attempt_locked begun sent s in (s', mkEffects (Some begun) w)
      else (s, mkEffects None None)
    else (s, mkEffects None None) in
  (find_kid (keys s') kid, s', e).

(** ** The configuration *)

Inductive KeySource : Type := Static (set : list Jwk) | Live (url : str).

Record OidcConfig : Type := mkConfig
  { issuer : str; audience : str; source : KeySource; sub_claim : str; roles_claim : str;
    admin_role : str; approver_role : str }.

Definition DEFAULT_SUB_CLAIM : str := #"sub".
Definition DEFAULT_ROLES_CLAIM : str := #"roles".
Definition DEFAULT_ADMIN_ROLE : str := #"genaryx-admin".
Definition DEFAULT_APPROVER_ROLE : str := #"genaryx-approver".

Definition non_empty (value default : str) : str :=
  if bool_decide (trim value = []) then default else value.

Definition finish (issuer audience : str) (keys : KeySource) (sub_claim roles_claim admin_role approver_role : str)
  : OidcConfig :=
  mkConfig issuer audience keys (non_empty sub_claim DEFAULT_SUB_CLAIM)
    (non_empty roles_claim DEFAULT_ROLES_CLAIM) (non_empty admin_role DEFAULT_ADMIN_ROLE)
    (non_empty approver_role DEFAULT_APPROVER_ROLE).

(** [OidcConfig::new]. *)
Definition new_config (issuer audience jwks_json sub_claim roles_claim admin_role approver_role : str)
  : option OidcConfig :=
  if bool_decide (issuer = []) || bool_decide (audience = []) then None
  else
    let! jwks := set_from_str jwks_json in
    if bool_decide (length jwks = 0%nat) then None
    else Some (finish issuer audience (Static jwks) sub_claim roles_claim admin_role approver_role).

Inductive StartupRefusal : Type := BothJwksSourcesSet | JwksUrlNotHttps (url : str).
Inductive KeySourceChoice : Type := Unconfigured | StaticRaw (raw : str) | LiveUrl (url : str).

Definition resolve_jwks_source (jwks_static jwks_url : option str) : result KeySourceChoice StartupRefusal :=
  match jwks_static, jwks_url with
  | Some _, Some _ => Err BothJwksSourcesSet
  | None, None => Ok Unconfigured
  | Some raw, None => Ok (StaticRaw raw)
  | None, Some url => if starts_with #"https://" url then Ok (LiveUrl url) else Err (JwksUrlNotHttps url)
  end.

(** The process's environment and the files it can read. *)
Context (getenv : str -> option str) (read_file : str -> option str).

Definition env_nonempty (key : str) : option str :=
  let! v := getenv key in if bool_decide (trim v = []) then None else Some v.

Definition load_jwks (raw : str) : option str :=
  if starts_with #"{" (trim raw) then Some (trim raw) else read_file (trim raw).

(** [OidcConfig::from_env]: [Err] is the exit of the process. *)
Definition from_env : result (option OidcConfig) StartupRefusal :=
  match env_nonempty #"GENARYX_WEB_OIDC_ISSUER", env_nonempty #"GENARYX_WEB_OIDC_AUDIENCE" with
  | Some issuer, Some audience =>
      let or_default key := default [] (getenv key) in
      let sub_claim := or_default #"GENARYX_WEB_OIDC_SUB_CLAIM" in
      let roles_claim := or_default #"GENARYX_WEB_OIDC_ROLES_CLAIM" in
      let admin_role := or_default #"GENARYX_WEB_OIDC_ADMIN_ROLE" in
      let approver_role := or_default #"GENARYX_WEB_OIDC_APPROVER_ROLE" in
      let? choice := resolve_jwks_source (env_nonempty #"GENARYX_WEB_OIDC_JWKS")
                       (env_nonempty #"GENARYX_WEB_OIDC_JWKS_URL") in
      match choice with
      | Unconfigured => Ok None
      | StaticRaw raw =>
          Ok (let! jwks_json := load_jwks raw in
              new_config issuer audience jwks_json sub_claim roles_claim admin_role approver_role)
      | LiveUrl url =>
          Ok (Some (finish issuer audience (Live url) sub_claim roles_claim admin_role approver_role))
      end
  | _, _ => Ok None
  end.

(** ** Verifying a token *)

(** [Claims::string], [Claims::has_role]. *)
Definition claim_string (key : str) (c : Claims) : option str :=
  match obj_get key c with
  | Some (VStr s) => if bool_decide (s = []) then None else Some s
  | _ => None
  end.
Definition has_role (key role : str) (c : Claims) : bool :=
  match obj_get key c with
  | Some (VArr items) => existsb (fun v => bool_decide (as_str v = Some role)) items
  | Some (VStr s) => existsb (str_eqb role) (split_whitespace s)
  | _ => false
  end.

Record Verified : Type := mkVerified { username : str; granted : Role }.

(** [KeySource::find]. *)
Definition find_key (src : KeySource) (kid : str) (now begun : Z) (sent : result Response str) (s : LiveState)
  : option Jwk * LiveState * effects :=
  match src with
  | Static set => (find_kid set kid, s, mkEffects None None)
  | Live _ => find_live kid now begun sent s
  end.

(** The algorithms a key of this type may verify. *)
Definition allowed (p : AlgorithmParameters) : option (list Algorithm) :=
  match p with
  | RSA => Some [RS256; RS384; RS512]
  | EllipticCurve => Some [ES256; ES384]
  | _ => None
  end.

Definition validation_for (cfg : OidcConfig) (algs : list Algorithm) : Validation :=
  mkValidation algs true [ #"exp"; #"iss"; #"aud"] [issuer cfg] [audience cfg].

Definition role_from (cfg : OidcConfig) (c : Claims) : Role :=
  if has_role (roles_claim cfg) (admin_role cfg) c then Admin
  else if has_role (roles_claim cfg) (approver_role cfg) c then Approver
  else Viewer.

(** What [verify] does once it has the key. *)
Definition checked (cfg : OidcConfig) (token : str) (jwk : Jwk) : option Verified :=
  let! algs := allowed (algorithm_of jwk) in
  let! key := from_jwk jwk in
  let! claims := decode token key (validation_for cfg algs) in
  let! name := claim_string (sub_claim cfg) claims in
  Some (mkVerified name (role_from cfg claims)).

Definition verify (cfg : OidcConfig) (token : str) (now begun : Z) (sent : result Response str) (s : LiveState)
  : option Verified * LiveState * effects :=
  match decode_header token with
  | Some (Some kid) =>
      let '(jwk, s', e) := find_key (source cfg) kid now begun sent s in
      (let! jwk := jwk in checked cfg token jwk, s', e)
  | _ => (None, s, mkEffects None None)
  end.

(** ** Calls in the order they take the lock *)

Inductive call : Type :=
| WarmUp (now : Z) (sent : result Response str)
| Lookup (kid : str) (now begun : Z) (sent : result Response str).

Definition step (s : LiveState) (c : call) : LiveState * effects :=
  match c with
  | WarmUp now sent => warm_up now sent s
  | Lookup kid now begun sent => let '(_, s', e) := find_live kid now begun sent s in (s', e)
  end.

Fixpoint after (s : LiveState) (cs : list call) : LiveState :=
  match cs with [] => s | c :: cs => after (step s c).1 cs end.

(** The fetches the verifications began, and the warnings logged. *)
Fixpoint lookups_fetched (s : LiveState) (cs : list call) : list Z :=
  match cs with
  | [] => []
  | c :: cs =>
      match c, attempted (step s c).2 with
      | Lookup _ _ _ _, Some t => [t]
      | _, _ => []
      end ++ lookups_fetched (step s c).1 cs
  end.

(** The monotonic clock, between [t] and [t']. *)
Fixpoint clocked (t : Z) (cs : list call) (t' : Z) : Prop :=
  match cs with
  | [] => t <= t'
  | WarmUp now _ :: cs => t <= now /\ clocked now cs t'
  | Lookup _ now begun _ :: cs => t <= now <= begun /\ clocked begun cs t'
  end.

(** The bodies the provider answered with. *)
Definition sent_of (c : call) : result Response str :=
  match c with WarmUp _ r => r | Lookup _ _ _ r => r end.
Definition bodies (cs : list call) : list (list Z) :=
  omap (fun c => match fetch (sent_of c) with Ok b => Some b | Err _ => None end) cs.
End Oidc.

(** ** Lemmas *)

Definition kty_of (e : value) : str := default [] (get_str #"kty" e).
Definition usable (e : value) : bool := str_eqb (kty_of e) #"RSA" || str_eqb (kty_of e) #"EC".
(** An object with no private member, and not a symmetric key. *)
Definition public_entry (e : value) : Prop :=
  exists ms, e = VObj ms /\ (forall m, m ∈ FORBIDDEN_PRIVATE_MEMBERS -> obj_get m ms = None) /\ kty_of e <> #"oct".

Lemma no_private_member ms :
  find (fun m => bool_decide (is_Some (obj_get m ms))) FORBIDDEN_PRIVATE_MEMBERS = None <->
  forall m, m ∈ FORBIDDEN_PRIVATE_MEMBERS -> obj_get m ms = None.
Proof.
  split.
  - intros H m Hm. apply list_elem_of_In, (List.find_none _ _ H) in Hm.
    apply bool_decide_eq_false in Hm. by apply eq_None_not_Some.
  - intros H. destruct (find _ _) as [m|] eqn:E; [|done]. apply List.find_some in E as [Hin Hm].
    apply bool_decide_eq_true in Hm. rewrite (H m) in Hm; [by destruct Hm|]. by apply list_elem_of_In.
Qed.

(** The filter is exact: one bad entry refuses the whole set, any other
    unsupported type is only left out. *)
Lemma keep_keys_iff ks kept :
  keep_keys ks = Ok kept <-> Forall public_entry ks /\ kept = List.filter usable ks.
Proof.
  revert kept. induction ks as [|e ks IH]; intros kept.
  - simpl. split; [by intros [= <-]|by intros [_ ->]].
  - assert (Hno : public_entry e -> exists ms, e = VObj ms) by (intros (ms & -> & _); eauto).
    rewrite Forall_cons.
    destruct e as [| | | | |ms]; try (split; [done|intros [[He _] _]; by destruct (Hno He)]).
    cbn [keep_keys]. destruct (find _ _) as [m|] eqn:Hf.
    { split; [done|]. intros [[(ms' & [= <-] & Hp & _) _] _]. by rewrite (proj2 (no_private_member ms) Hp) in Hf. }
    assert (Hpub : kty_of (VObj ms) <> #"oct" <-> public_entry (VObj ms)).
    { split; [|by intros (? & _ & _ & ?)]. intros Hk. exists ms. split; [done|]. split; [|done].
      by apply no_private_member. }
    fold (kty_of (VObj ms)). cbn [List.filter]. unfold usable at 1.
    destruct (str_eqb (kty_of (VObj ms)) #"RSA" || str_eqb (kty_of (VObj ms)) #"EC") eqn:Hu.
    + assert (kty_of (VObj ms) <> #"oct").
      { intros E. rewrite E in Hu. revert Hu. by vm_compute. }
      rewrite rbind_Ok. split.
      * intros (r & Hr & [= <-]). apply IH in Hr as [Hr ->]. split; [split; [by apply Hpub|done]|done].
      * intros [[_ Hr] ->]. exists (List.filter usable ks). split; [by apply IH|done].
    + destruct (str_eqb (kty_of (VObj ms)) #"oct") eqn:Ho.
      * apply str_eqb_eq in Ho. split; [done|]. intros [[(_ & _ & _ & Hn) _] _]. by rewrite Ho in Hn.
      * apply str_eqb_neq in Ho. rewrite IH. split.
        -- intros [Hr ->]. split; [split; [by apply Hpub|done]|done].
        -- by intros [[_ Hr] ->].
Qed.

Section Laws.
Context {J : Jose} {JT : JsonText} {JL : JoseLaws}.

(** What a body must be for its keys to be used. *)
Definition published (body : list Z) (k : Jwk) : Prop :=
  exists raw items e, json_of body = Some raw /\ get #"keys" raw = Some (VArr items) /\
    Forall public_entry items /\ e ∈ items /\ usable e = true /\ jwk_of e = Some k.

Lemma validated_keys_published body set k :
  validate_jwks_bytes body = Ok set -> k ∈ set -> published body k.
Proof.
  unfold validate_jwks_bytes. intros H Hk.
  apply rbind_Ok in H as (raw & Hraw & H). apply rbind_Ok in H as (ms & Hms & H).
  apply rbind_Ok in H as (items & Hitems & H).
  destruct (json_of body) as [raw'|] eqn:Ej; [|done]. injection Hraw as ->.
  destruct raw; try done. injection Hms as ->.
  destruct (obj_get #"keys" ms) as [[]|] eqn:Eg; try done. injection Hitems as ->.
  case_match; [done|]. apply rbind_Ok in H as (kept & Hkept & H). case_match; [done|].
  destruct (set_of _) as [set'|] eqn:Es; [|done]. injection H as ->.
  apply set_of_entries in Es as (items' & Hget & Hall).
  apply keep_keys_iff in Hkept as [Hpub ->].
  assert (items' = List.filter usable items) as ->.
  { revert Hget. cbn [get]. rewrite obj_get_insert, str_eqb_refl. by intros [= <-]. }
  apply list_elem_of_lookup in Hk as [i Hi].
  destruct (Forall2_lookup_r _ _ _ _ _ Hall Hi) as (e & He & Hek).
  apply list_elem_of_lookup_2, list_elem_of_In, filter_In in He as [Hin Hu].
  exists (VObj ms), items, e. split; [done|]. split; [done|]. split; [done|].
  split; [by apply list_elem_of_In|done].
Qed.

(** An attempt either replaces the set by a validated one, or leaves it. *)
Lemma attempt_cases now sent s s' w :
  attempt_locked now sent s = (s', w) ->
  last_attempt s' = Some now /\
  ((exists body, fetch sent = Ok body /\ validate_jwks_bytes body = Ok (keys s') /\ fetched_at s' = Some now) \/
   ((forall body, fetch sent = Ok body -> is_ok (validate_jwks_bytes body) = false) /\
    keys s' = keys s /\ fetched_at s' = fetched_at s)).
Proof.
  unfold attempt_locked. destruct (fetch sent) as [body|e]; [destruct (validate_jwks_bytes body) as [ks|r] eqn:Ev|];
    intros [= <- <-]; simpl; (split; [done|]).
  - left. eauto.
  - right. split; [intros ? [= <-]; by rewrite Ev|done].
  - right. done.
Qed.

Lemma warm_up_cases now sent s s' e :
  warm_up now sent s = (s', e) ->
  (s' = s /\ attempted e = None) \/ exists w, attempt_locked now sent s = (s', w) /\ attempted e = Some now.
Proof.
  unfold warm_up. destruct (fetched_at s); [intros [= <- <-]; auto|].
  destruct (attempt_locked now sent s) as [s1 w] eqn:Ea. intros [= <- <-]. eauto.
Qed.

Lemma find_live_cases kid now begun sent s k s' e :
  find_live kid now begun sent s = (k, s', e) ->
  k = find_kid (keys s') kid /\
  ((s' = s /\ attempted e = None /\ (find_kid (keys s) kid = None -> elapsed_reaches now (last_attempt s) COOLDOWN = false)) \/
   (exists w, attempt_locked begun sent s = (s', w) /\ attempted e = Some begun /\
      elapsed_reaches now (last_attempt s) COOLDOWN = true)).
Proof.
  unfold find_live. destruct (elapsed_reaches now (fetched_at s) MAX_AGE || _) eqn:Hdue.
  - destruct (elapsed_reaches now (last_attempt s) COOLDOWN) eqn:Hc.
    + destruct (attempt_locked begun sent s) as [s1 w]. intros [= <- <- <-]. split; [done|]. right. eauto.
    + intros [= <- <- <-]. split; [done|]. left. done.
  - intros [= <- <- <-]. split; [done|]. left. split; [done|]. split; [done|]. intros Hn.
    apply orb_false_iff in Hdue as [_ Hd]. by apply bool_decide_eq_false in Hd.
Qed.

(** One transition keeps "every key was published in one of these bodies". *)
Lemma step_keys s c k :
  k ∈ keys (step s c).1 -> k ∈ keys s \/ exists body, body ∈ bodies [c] /\ published body k.
Proof.
  assert (Hatt : forall now s' w, attempt_locked now (sent_of c) s = (s', w) -> k ∈ keys s' ->
            k ∈ keys s \/ exists body, body ∈ bodies [c] /\ published body k).
  { intros now s' w Ha Hk. apply attempt_cases in Ha as (_ & [(body & Hb & Hv & _)|(_ & Heq & _)]); [|rewrite Heq in Hk; auto].
    right. exists body. split; [|by eapply validated_keys_published].
    unfold bodies. simpl. rewrite Hb. by left. }
  destruct c as [now sent|kid now begun sent]; cbn [step sent_of] in *.
  - destruct (warm_up now sent s) as [s' e] eqn:E. intros Hk.
    apply warm_up_cases in E as [[-> _]|(w & Ha & _)]; eauto.
  - destruct (find_live kid now begun sent s) as [[r s'] e] eqn:E. cbn [fst]. intros Hk.
    apply find_live_cases in E as (_ & [(-> & _)|(w & Ha & _)]); eauto.
Qed.

Lemma bodies_cons c cs : bodies (c :: cs) = bodies [c] ++ bodies cs.
Proof. unfold bodies. simpl. by destruct (fetch (sent_of c)). Qed.

Lemma after_keys cs s k :
  k ∈ keys (after s cs) -> k ∈ keys s \/ exists body, body ∈ bodies cs /\ published body k.
Proof.
  revert s. induction cs as [|c cs IH]; intros s; [auto|]. cbn [after]. intros Hk.
  rewrite bodies_cons. apply IH in Hk as [Hk|(b & Hb & Hp)].
  - apply step_keys in Hk as [Hk|(b & Hb & Hp)]; [auto|]. right. exists b. rewrite elem_of_app. auto.
  - right. exists b. rewrite elem_of_app. auto.
Qed.

Lemma after_snoc s cs c : after s (cs ++ [c]) = (step (after s cs) c).1.
Proof. revert s. induction cs; simpl; auto. Qed.

(** What an accepted token rests on, whichever way the key was found. *)
Lemma checked_Some cfg tok k v :
  checked cfg tok k = Some v ->
  exists algs key claims alg,
    allowed (algorithm_of k) = Some algs /\ from_jwk k = Some key /\ alg ∈ algs /\ signed_with tok key alg = true /\
    decode tok key (validation_for cfg algs) = Some claims /\
    unexpired claims = true /\ is_Some (obj_get #"exp" claims) /\
    names_one_of [issuer cfg] (obj_get #"iss" claims) /\ names_one_of [audience cfg] (obj_get #"aud" claims) /\
    obj_get (sub_claim cfg) claims = Some (VStr (username v)) /\ username v <> [] /\ granted v = role_from cfg claims.
Proof.
  unfold checked. destruct (allowed _) as [algs|]; [|done]. destruct (from_jwk k) as [key|] eqn:Ek; [|done].
  destruct (decode _ _ _) as [claims|] eqn:Ed; [|done].
  destruct (claim_string _ _) as [name|] eqn:Ec; [|done]. intros [= <-].
  pose proof (decode_checks _ _ _ _ Ed) as ((alg & Hin & Hs) & Hreq & Hexp & Hiss & Haud).
  cbn [validation_for required_spec_claims validate_exp iss aud] in Hreq, Hexp, Hiss, Haud.
  exists algs, key, claims, alg. do 5 (split; [done|]). split; [by apply Hexp|]. split; [by inversion Hreq|].
  split; [apply Hiss; right; by left|]. split; [apply Haud; right; right; by left|]. repeat split.
  - unfold claim_string in Ec. destruct (obj_get _ _) as [[]|]; try done. case_match; simplify_eq. done.
  - unfold claim_string in Ec. destruct (obj_get _ _) as [[]|]; try done. case_match eqn:Hne; simplify_eq.
    by apply bool_decide_eq_false in Hne.
Qed.

Lemma clocked_le cs t t' : clocked t cs t' -> t <= t'.
Proof.
  revert t. induction cs as [|[] cs IH]; simpl; intros t; [done|intros [? H]; apply IH in H; lia..].
Qed.

Lemma after_last_attempt cs t t' s :
  clocked t cs t' -> (forall a, last_attempt s = Some a -> a <= t) ->
  forall a, last_attempt (after s cs) = Some a -> a <= t'.
Proof.
  revert t s. induction cs as [|c cs IH]; intros t s; simpl.
  { intros Ht Hs a Ha. specialize (Hs a Ha). lia. }
  destruct c as [now sent|kid now begun sent]; intros [Ht Hc] Hs; (eapply IH; [exact Hc|]); cbn [step].
  - destruct (warm_up now sent s) as [s1 e] eqn:E. intros a Ha. cbn [fst] in Ha.
    apply warm_up_cases in E as [[-> _]|(w & Hw & _)]; [specialize (Hs a Ha); lia|].
    apply attempt_cases in Hw as [Hl _]. rewrite Hl in Ha. injection Ha. lia.
  - destruct (find_live kid now begun sent s) as [[r s1] e] eqn:E. intros a Ha. cbn [fst] in Ha.
    apply find_live_cases in E as (_ & [(-> & _)|(w & Hw & _)]); [specialize (Hs a Ha); lia|].
    apply attempt_cases in Hw as [Hl _]. rewrite Hl in Ha. injection Ha. lia.
Qed.

(** No verification can begin a fetch before [quiet]. *)
Definition quiet (t : Z) (last : option Z) : Z :=
  match last with None => t | Some a => Z.max t (a + COOLDOWN) end.

Lemma lookups_bound cs t t' s :
  clocked t cs t' -> (forall a, last_attempt s = Some a -> a <= t) ->
  COOLDOWN * Z.of_nat (length (lookups_fetched s cs)) <= Z.max 0 (t' + COOLDOWN - quiet t (last_attempt s)).
Proof.
  assert (HC : COOLDOWN = 300000000000) by done. revert t s.
  induction cs as [|c cs IH]; intros t s Hc Ha; [simpl; lia|].
  cbn [lookups_fetched]. rewrite length_app.
  assert (Hmono : forall u s1, t <= u -> last_attempt s1 = last_attempt s ->
            quiet t (last_attempt s) <= quiet u (last_attempt s1)).
  { intros u s1 Hu ->. unfold quiet. case_match; lia. }
  assert (Hlast : forall u, t <= u -> quiet t (last_attempt s) <= quiet u (Some u)).
  { intros u Hu. unfold quiet. case_match; [|lia]. specialize (Ha _ eq_refl). lia. }
  destruct c as [now sent|kid now begun sent]; destruct Hc as [Ht Hc]; cbn [step].
  - destruct (warm_up now sent s) as [s1 e] eqn:E. cbn [fst].
    apply warm_up_cases in E as [[-> _]|(w & Hw & _)].
    + specialize (IH now s Hc). specialize (Hmono now s Ht eq_refl). simpl.
      assert (forall a, last_attempt s = Some a -> a <= now) by (intros a E; specialize (Ha _ E); lia). intuition lia.
    + apply attempt_cases in Hw as [Hl _]. specialize (IH now s1 Hc). rewrite Hl in IH.
      specialize (Hlast now Ht). simpl. assert (forall a, Some now = Some a -> a <= now) by (intros ? [= ->]; lia).
      intuition lia.
  - destruct (find_live kid now begun sent s) as [[r s1] e] eqn:E. cbn [fst snd].
    apply find_live_cases in E as (_ & [(-> & -> & _)|(w & Hw & -> & Hcool)]).
    + specialize (IH begun s Hc). specialize (Hmono begun s ltac:(lia) eq_refl). simpl.
      assert (forall a, last_attempt s = Some a -> a <= begun) by (intros a E; specialize (Ha _ E); lia). intuition lia.
    + apply attempt_cases in Hw as [Hl _]. specialize (IH begun s1 Hc). rewrite Hl in IH.
      assert (quiet t (last_attempt s) <= begun).
      { unfold quiet, elapsed_reaches in *. case_match; b2p; lia. }
      assert (forall a, Some begun = Some a -> a <= begun) by (intros ? [= ->]; lia).
      unfold quiet at 1 in IH. simpl length. rewrite Nat2Z.inj_add.
      apply clocked_le in Hc.
      intuition lia.
Qed.

(** ** Properties *)

(** C8: a token that signs somebody in was signed with a key the provider
    published.  Whatever sign-ins and fetches came before, when [verify]
    accepts a token: the key it used is the one the token's header names, an
    entry of a body the provider answered with, in a set that held no
    private-key member and no symmetric key; the signature was checked with
    that key by an RSA or elliptic-curve algorithm of the key's own type, never
    a symmetric one; and the token's own claims, decoded with that key, are not
    expired, name the configured issuer and the configured audience, and give
    the user as their non-empty subject claim, at the role of their role claim. *)
Theorem accepted_token_is_signed_by_published_key cfg url cs tok now begun sent v s' e :
  source cfg = Live url ->
  verify cfg tok now begun sent (after empty cs) = (Some v, s', e) ->
  exists kid body jwk key algs alg claims,
    decode_header tok = Some (Some kid) /\ find_kid (keys s') kid = Some jwk /\
    (body ∈ bodies cs \/ fetch sent = Ok body) /\ published body jwk /\ from_jwk jwk = Some key /\
    ((algorithm_of jwk = RSA /\ algs = [RS256; RS384; RS512]) \/
     (algorithm_of jwk = EllipticCurve /\ algs = [ES256; ES384])) /\
    alg ∈ algs /\ signed_with tok key alg = true /\
    decode tok key (mkValidation algs true [ #"exp"; #"iss"; #"aud"] [issuer cfg] [audience cfg]) = Some claims /\
    unexpired claims = true /\ is_Some (obj_get #"exp" claims) /\
    names_one_of [issuer cfg] (obj_get #"iss" claims) /\ names_one_of [audience cfg] (obj_get #"aud" claims) /\
    obj_get (sub_claim cfg) claims = Some (VStr (username v)) /\ username v <> [] /\
    granted v = role_from cfg claims.
Proof.
  intros Hsrc. unfold verify. destruct (decode_header tok) as [[kid|]|]; try done.
  rewrite Hsrc. cbn [find_key].
  destruct (find_live kid now begun sent (after empty cs)) as [[jwk s1] e1] eqn:E.
  intros [= Hv <- _]. destruct jwk as [jwk|]; [|done].
  apply checked_Some in Hv as (algs & key & claims & alg & Hal & Hk & Hin & Hs & Hd & Hrest).
  assert (Hfind := E). apply find_live_cases in Hfind as (Hfind & _).
  symmetry in Hfind. assert (Hmem := Hfind). apply find_kid_member in Hmem.
  assert (Hkeys : jwk ∈ keys (after empty (cs ++ [Lookup kid now begun sent]))).
  { rewrite after_snoc. cbn [step]. by rewrite E. }
  apply after_keys in Hkeys as [Hkeys|(body & Hb & Hp)]; [by apply elem_of_nil in Hkeys|].
  exists kid, body, jwk, key, algs, alg, claims. split; [done|]. split; [done|]. split.
  { unfold bodies in Hb. rewrite omap_app, elem_of_app in Hb. destruct Hb as [Hb|Hb]; [auto|].
    simpl in Hb. destruct (fetch sent) as [b|]; [|by apply elem_of_nil in Hb].
    apply list_elem_of_singleton in Hb as ->. auto. }
  do 2 (split; [done|]). split; [|done].
  destruct (algorithm_of jwk); cbn in Hal; try done; injection Hal as <-; auto.
Qed.

(** However many tokens arrive, whatever key ids they carry and whatever
    the provider answers, the verifications between two instants begin at most
    one fetch per five minutes, and one more. *)
Theorem fetches_are_bounded cs t t' s :
  clocked t cs t' -> (forall a, last_attempt s = Some a -> a <= t) ->
  Z.of_nat (length (lookups_fetched s cs)) <= 1 + (t' - t) / COOLDOWN.
Proof.
  intros Hc Ha. pose proof (lookups_bound cs t t' s Hc Ha) as H.
  assert (HC : COOLDOWN = 300000000000) by done. assert (t <= quiet t (last_attempt s)) by (unfold quiet; case_match; lia).
  apply clocked_le in Hc.
  assert (Z.of_nat (length (lookups_fetched s cs)) - 1 <= (t' - t) / COOLDOWN); [|lia].
  apply Z.div_le_lower_bound; lia.
Qed.
(** A rotated key signs in, and an outage locks nobody out.  Five minutes
    after the last instant of any history of calls, a token whose key id is
    not in the set is looked up in what the provider answers now: if that
    answer is a set that holds the key, the token is judged with it at once.
    And while fetches fail or answer with a refused set, a token whose key is
    in the set is judged with that key. *)
Theorem rotated_key_is_found cfg url cs t0 t tok kid now begun sent k :
  source cfg = Live url -> decode_header tok = Some (Some kid) -> clocked t0 cs t ->
  (forall body set, find_kid (keys (after empty cs)) kid = None -> t + COOLDOWN <= now ->
     fetch sent = Ok body -> validate_jwks_bytes body = Ok set -> find_kid set kid = Some k ->
     (verify cfg tok now begun sent (after empty cs)).1.1 = checked cfg tok k) /\
  (find_kid (keys (after empty cs)) kid = Some k ->
     (forall body, fetch sent = Ok body -> is_ok (validate_jwks_bytes body) = false) ->
     (verify cfg tok now begun sent (after empty cs)).1.1 = checked cfg tok k).
Proof.
  intros Hsrc Hh Hc. unfold verify. rewrite Hh, Hsrc. cbn [find_key].
  destruct (find_live kid now begun sent (after empty cs)) as [[r s'] e] eqn:E. cbn [fst snd].
  apply find_live_cases in E as (-> & Hcases). split.
  - intros body set Hnone Hnow Hf Hv Hk. destruct Hcases as [(-> & _ & Hcool)|(w & Hw & _)].
    + specialize (Hcool Hnone). pose proof (after_last_attempt cs t0 t empty Hc) as Hl.
      unfold elapsed_reaches in Hcool. destruct (last_attempt (after empty cs)) as [a|]; [|done].
      assert (a <= t) by (apply Hl; [done|done]). unfold COOLDOWN in *. b2p. lia.
    + unfold attempt_locked in Hw. rewrite Hf, Hv in Hw. injection Hw as <- _. cbn [keys]. by rewrite Hk.
  - intros Hk Hbad. destruct Hcases as [(-> & _)|(w & Hw & _)]; [by rewrite Hk|].
    apply attempt_cases in Hw as (_ & [(body & Hf & Hv & _)|(_ & -> & _)]); [|by rewrite Hk].
    specialize (Hbad _ Hf). by rewrite Hv in Hbad.
Qed.
End Laws.

(** Which source the console starts with.  A configuration that comes back
    from the environment names an issuer and an audience and one source: a
    non-empty set given at startup, or an [https] address. *)
Theorem started_config_has_one_source {J : Jose} getenv read_file cfg :
  from_env getenv read_file = Ok (Some cfg) ->
  issuer cfg <> [] /\ audience cfg <> [] /\
  match source cfg with
  | Static set => set <> [] /\ env_nonempty getenv #"GENARYX_WEB_OIDC_JWKS_URL" = None
  | Live url => starts_with #"https://" url = true /\ env_nonempty getenv #"GENARYX_WEB_OIDC_JWKS" = None
  end.
Proof.
  unfold from_env. intros H.
  assert (Hne : forall key v, env_nonempty getenv key = Some v -> v <> []).
  { intros key v. unfold env_nonempty. destruct (getenv key) as [x|]; [|done].
    destruct (bool_decide (trim x = [])) eqn:Hb; [done|]. intros [= <-] ->.
    by apply bool_decide_eq_false in Hb. }
  destruct (env_nonempty getenv #"GENARYX_WEB_OIDC_ISSUER") as [i|] eqn:Ei; [|done].
  destruct (env_nonempty getenv #"GENARYX_WEB_OIDC_AUDIENCE") as [a|] eqn:Ea; [|done].
  apply Hne in Ei, Ea. cbn zeta in H. apply rbind_Ok in H as (choice & Hr & H). unfold resolve_jwks_source in Hr.
  destruct (env_nonempty getenv #"GENARYX_WEB_OIDC_JWKS") as [raw|],
    (env_nonempty getenv #"GENARYX_WEB_OIDC_JWKS_URL") as [url|]; try done.
  - injection Hr as <-. injection H as H. destruct (load_jwks read_file raw) as [text|]; [|done].
    unfold new_config in H. case_match; [done|]. destruct (set_from_str text) as [set|]; [|done].
    case_match eqn:Hl; [done|]. injection H as <-. cbn. split; [done|]. split; [done|]. split; [|done].
    intros ->. by apply bool_decide_eq_false in Hl.
  - destruct (starts_with #"https://" url) eqn:Hs; [|done]. injection Hr as <-. injection H as <-. by cbn.
  - by injection Hr as <-.
Qed.

(** The refusal to start with both sources set is made only once an issuer
    and an audience are set. *)
Example both_sources_without_an_issuer {J : Jose} read_file :
  from_env (fun key => if str_eqb key #"GENARYX_WEB_OIDC_JWKS" || str_eqb key #"GENARYX_WEB_OIDC_JWKS_URL"
                       then Some #"x" else None) read_file = Ok None.
Proof. reflexivity. Qed.

(** ** A concrete instance

    A provider with two keys, and for each a token: its text is the key id, and
    it says which key signed it, with which algorithm, and what it claims. *)
Definition demo_key (kid : str) : value := obj [(#"kty", VStr #"EC"); (#"kid", VStr kid); (#"n", VStr kid)].
Definition demo_read (t : str) : value :=
  obj [(#"kid", VStr t); (#"by", VStr t); (#"alg", VStr #"ES256");
    (#"claims", obj [(#"exp", VNum (NInt 9)); (#"iss", VStr #"idp"); (#"aud", VStr #"console");
                     (#"sub", VStr #"alice"); (#"roles", VStr #"x genaryx-approver")])].
(** A body is the id of the one key it publishes. *)
Definition demo_json : JsonText := {|
  json_of bytes := Some (obj [(#"keys", VArr [demo_key bytes])]);
  json_text _ := [];
|}.
Definition alg_name (a : Algorithm) : str := match a with ES256 => #"ES256" | RS256 => #"RS256" | _ => #"other" end.
Definition demo_claims (t : str) : Claims := match get #"claims" (demo_read t) with Some (VObj ms) => ms | _ => [] end.
Definition demo_signed (t key : str) (a : Algorithm) : bool :=
  bool_decide (get_str #"by" (demo_read t) = Some key) && bool_decide (get_str #"alg" (demo_read t) = Some (alg_name a)).
Definition demo_set (v : value) : option (list value) :=
  match get #"keys" v with
  | Some (VArr items) => if forallb usable items then Some items else None
  | _ => None
  end.

Definition demo_names (allowed : list str) (claim : option value) : bool :=
  match claim with Some (VStr s) => bool_decide (s ∈ allowed) | _ => false end.
Lemma demo_names_one allowed claim : demo_names allowed claim = true -> names_one_of allowed claim.
Proof. destruct claim as [[| | |s| |]|]; try done. apply bool_decide_eq_true. Qed.

Definition demo_jose : Jose := {|
  Jwk := value;
  DecodingKey := str;
  algorithm_of e := if str_eqb (kty_of e) #"RSA" then RSA else EllipticCurve;
  jwk_of e := if usable e then Some e else None;
  set_of := demo_set;
  set_from_str t := demo_set (obj [(#"keys", VArr [demo_key t])]);
  find_kid s kid := find (fun e => bool_decide (get_str #"kid" e = Some kid)) s;
  decode_header t := Some (get_str #"kid" (demo_read t));
  from_jwk e := get_str #"n" e;
  decode t key v :=
    if existsb (demo_signed t key) (algorithms v) &&
       forallb (fun n => bool_decide (is_Some (obj_get n (demo_claims t)))) (required_spec_claims v) &&
       demo_names (iss v) (obj_get #"iss" (demo_claims t)) && demo_names (aud v) (obj_get #"aud" (demo_claims t))
    then Some (demo_claims t) else None;
  signed_with := demo_signed;
  unexpired _ := true;
|}.

#[export] Instance demo_jose_laws : @JoseLaws demo_jose.
Proof.
  split.
  - cbn. intros s kid k H. apply List.find_some in H as [H _]. by apply list_elem_of_In.
  - change (forall v s, demo_set v = Some s -> exists items, get #"keys" v = Some (VArr items) /\
      Forall2 (fun e k => (if usable e then Some e else None) = Some k) items s).
    unfold demo_set. intros v s H. destruct (get #"keys" v) as [[]|]; try done.
    destruct (forallb usable items) eqn:Hu; [|done]. injection H as <-. exists items. split; [done|].
    revert Hu. induction items as [|e es IH]; [by constructor|]. simpl. intros H. apply andb_true_iff in H as [H1 H2].
    constructor; [by rewrite H1|by apply IH].
  - intros t key v c. cbn [decode demo_jose].
    destruct (_ && _) eqn:E; [|done]. intros [= <-]. apply andb_true_iff in E as [E E4]. apply andb_true_iff in E as [E E3].
    apply andb_true_iff in E as [E1 E2]. apply existsb_exists in E1 as (a & Ha & Hs).
    split; [|split; [|split; [done|split; intros _; by apply demo_names_one]]].
    + exists a. split; [by apply list_elem_of_In|done].
    + apply List.Forall_forall. intros n Hn. apply forallb_forall with (x := n) in E2; [|done].
      by apply bool_decide_eq_true in E2.
Qed.

#[local] Existing Instance demo_jose.
#[local] Existing Instance demo_json.

Definition demo_body (kid : str) : result Response str := Ok (mkResponse 200 [Ok kid]).
Definition demo_token (kid : str) : str := kid.
Definition demo_oidc : OidcConfig := finish #"idp" #"console" (Live #"https://idp") [] [] [] [].
Definition demo_calls : list call :=
  [WarmUp 0 (demo_body #"k1"); Lookup #"k1" 5 5 (Err #"down");
   Lookup #"k2" COOLDOWN (COOLDOWN + 1) (Err #"down"); Lookup #"k2" (COOLDOWN + 2) (COOLDOWN + 2) (Err #"down")].

Example demo_sign_in :
  verify demo_oidc (demo_token #"k1") (COOLDOWN + 9) (COOLDOWN + 9) (Err #"down") (after empty demo_calls)
  = (Some (mkVerified #"alice" Approver), after empty demo_calls, mkEffects None None).
Proof. by vm_compute. Qed.

Example demo_fetches : lookups_fetched empty demo_calls = [COOLDOWN + 1].
Proof. by vm_compute. Qed.

Lemma accepted_token_is_signed_by_published_key_witness :
  exists claims, unexpired claims = true /\ names_one_of [ #"idp"] (obj_get #"iss" claims)
    /\ names_one_of [ #"console"] (obj_get #"aud" claims) /\ obj_get #"sub" claims = Some (VStr #"alice")
    /\ Approver = role_from demo_oidc claims.
Proof.
  destruct (accepted_token_is_signed_by_published_key demo_oidc #"https://idp" demo_calls (demo_token #"k1")
    (COOLDOWN + 9) (COOLDOWN + 9) (Err #"down") (mkVerified #"alice" Approver) (after empty demo_calls)
    (mkEffects None None) eq_refl demo_sign_in)
    as (kid & body & jwk & key & algs & alg & claims & _ & _ & _ & _ & _ & _ & _ & _ & _ & He & _ & Hi & Ha & Hs & _ & Hr).
  exists claims. split; [exact He|]. split; [exact Hi|]. split; [exact Ha|]. split; [exact Hs|exact Hr].
Defined.

Lemma fetches_are_bounded_witness : Z.of_nat (length (lookups_fetched empty demo_calls)) <= 1 + (COOLDOWN + 9 - 0) / COOLDOWN.
Proof. apply (fetches_are_bounded demo_calls 0 (COOLDOWN + 9) empty); [unfold demo_calls, COOLDOWN; simpl; lia|done]. Defined.

Lemma rotated_key_is_found_witness :
  (verify demo_oidc (demo_token #"k2") (3 * COOLDOWN) (3 * COOLDOWN) (demo_body #"k2")
     (after empty demo_calls)).1.1 = Some (mkVerified #"alice" Approver) /\
  (verify demo_oidc (demo_token #"k1") (3 * COOLDOWN) (3 * COOLDOWN) (Ok (mkResponse 302 []))
     (after empty demo_calls)).1.1 = Some (mkVerified #"alice" Approver).
Proof.
  assert (Hc : clocked 0 demo_calls (COOLDOWN + 9)) by (unfold demo_calls, COOLDOWN; simpl; lia).
  split.
  - transitivity (checked demo_oidc (demo_token #"k2") (demo_key #"k2")); [|by vm_compute].
    apply (proj1 (rotated_key_is_found demo_oidc #"https://idp" demo_calls 0 (COOLDOWN + 9) (demo_token #"k2") #"k2"
      (3 * COOLDOWN) (3 * COOLDOWN) (demo_body #"k2") (demo_key #"k2") eq_refl ltac:(by vm_compute) Hc)
      #"k2" [demo_key #"k2"]);
      by vm_compute.
  - transitivity (checked demo_oidc (demo_token #"k1") (demo_key #"k1")); [|by vm_compute].
    apply (proj2 (rotated_key_is_found demo_oidc #"https://idp" demo_calls 0 (COOLDOWN + 9) (demo_token #"k1") #"k1"
      (3 * COOLDOWN) (3 * COOLDOWN) (Ok (mkResponse 302 [])) (demo_key #"k1") eq_refl ltac:(by vm_compute) Hc)); [by vm_compute|].
    intros body H. by vm_compute in H.
Defined.
