(* ===== verification/Effects.v ===== *)
(** * Effects: what a command does outside the console
    ([crates/api/src/console_actor.rs], and the two [journal] functions of
    [crates/api/src/delegation/commands.rs] and
    [crates/api/src/money/commands.rs])

    A command that acts on another service sends requests, draws a nonce and a
    timestamp, reads the clock and writes the journal.  It is a program
    ([Prog]) over these operations: the answers are the world's, so a
    fact proved of the program holds for every service, whatever it answers,
    and for a journal that fails.

    [Send] hands a request to a [reqwest] client and gets the last answer.  What
    the client puts on the wire for it is the client's own: a client whose
    builder does not say otherwise follows redirects.  The client is the class
    [HttpClient], and [HttpClientLaws] is what [reqwest] documents of it. *)
From S2P Require Import Prelude Text Json Signing Jcs Ingest Command Http Prog.

(** One request as it is handed to the client: the bearer and the headers the source sets by name. *)
Record Request : Type := mkRequest
  { method : str; url : str; bearer : option str; headers : list (str * str); body : list Z }.

Inductive op : Type :=
| Send (r : Request)
| Draw                       (* the clock in seconds, and 16 random bytes *)
| Clock                      (* Unix milliseconds *)
| Seed                       (* 16 random bytes, Unix nanoseconds, the process id *)
| Now                        (* Unix nanoseconds *)
| Random                     (* 16 random bytes *)
| Journal (org host : str) (rec : CommandRecord).   (* [Store::open], [command::record] *)

Definition resp (o : op) : Type :=
  match o with
  | Send _ => result Response str
  | Draw => option Z * result (list Z) str
  | Clock => Z
  | Seed => result (list Z) str * Z * Z
  | Now => Z
  | Random => result (list Z) str
  | Journal _ _ _ => result unit str
  end%type.

Inductive event : Type :=
| Sent (r : Request) (x : result Response str)
| Drew (x : option Z * result (list Z) str)
| Read (now : Z)
| Seeded (x : result (list Z) str * Z * Z)
| Timed (now : Z)
| Rolled (x : result (list Z) str)
| Journaled (org host : str) (rec : CommandRecord) (x : result unit str).

Definition event_of (o : op) (_ : Z) : resp o -> event :=
  match o with
  | Send r => Sent r
  | Draw => Drew
  | Clock => Read
  | Seed => Seeded
  | Now => Timed
  | Random => Rolled
  | Journal org host rec => Journaled org host rec
  end.

Abbreviation program := (@prog op resp).

(** [ask! x <- p; k] is the source's [let x = p.await?; k]. *)
Notation "'ask!' x <- p ; k" :=
  (bind p (fun r => match r with Ok x => k | Err e => Ret (Err e) end))
  (at level 10, x name, p at level 100, k at level 200) : prog_scope.

(** Every answer is possible: the events are what a proof speaks about. *)
Abbreviation ran tr p post := (wp event_of (fun _ _ => True) tr p post).

(** The lines that were handed to the journal, whatever the write answered, and
    those the journal acknowledged. *)
Definition records (tr : list event) : list CommandRecord :=
  omap (fun e => match e with Journaled _ _ rec _ => Some rec | _ => None end) tr.
Definition acknowledged (tr : list event) : list CommandRecord :=
  omap (fun e => match e with Journaled _ _ rec (Ok _) => Some rec | _ => None end) tr.
(** The requests that were handed to the client, each with its last answer. *)
Definition sent (tr : list event) : list (Request * result Response str) :=
  omap (fun e => match e with Sent r x => Some (r, x) | _ => None end) tr.

(** ** The HTTP client *)

(** What a client's builder says of redirects: nothing, or [Policy::none]. *)
Inductive Redirects : Type := DefaultPolicy | NoRedirect.

(** The requests the client may put on the wire for one that was handed to it. *)
Class HttpClient := { on_the_wire : Redirects -> Request -> list Request -> Prop }.

(** A redirect is followed with the same method and body, or without a body;
    the bearer stays or is left out, and the other headers are among those given
    but for the one that names the page it came from. *)
Definition followed (r r' : Request) : Prop :=
  (method r' = method r /\ body r' = body r \/ body r' = [])
  /\ (bearer r' = bearer r \/ bearer r' = None)
  /\ Forall (fun h => h ∈ headers r \/ h.1 = #"referer") (headers r').
Class HttpClientLaws `{HttpClient} : Prop := {
  not_redirected r w : on_the_wire NoRedirect r w -> w = [] \/ w = [r];
  redirected r w : on_the_wire DefaultPolicy r w ->
    w = [] \/ exists later, w = r :: later /\ (length later <= 10)%nat /\ Forall (followed r) later;
}.

Lemma records_app a b : records (a ++ b) = records a ++ records b.
Proof. apply omap_app. Qed.
Lemma sent_app a b : sent (a ++ b) = sent a ++ sent b.
Proof. apply omap_app. Qed.

(** ** The request's scope: who is signed in, and what confirmed the action *)

Record ConsoleSignature : Type := mkSignature { alg : str; fpr : str }.
Record Scope : Type := mkScope
  { actor : option str; signature : option ConsoleSignature; env_var : str -> option str }.

(** [signature_or]. *)
Definition signature_or (sc : Scope) (fallback_alg fallback_fpr : str) : str * str :=
  match signature sc with
  | Some sig => (alg sig, fpr sig)
  | None => (fallback_alg, fallback_fpr)
  end.

(** [operator_or]: the user replaces the last segment of the fallback. *)
Definition operator_or (sc : Scope) (fallback : str) : str :=
  match actor sc with
  | None => fallback
  | Some user =>
      match rsplit_once [47] fallback with
      | Some (front, _) => front ++ #"/" ++ user
      | None => user
      end
  end.

Definition org_domain (sc : Scope) : str := default #"local" (env_var sc #"GENARYX_ORG_DOMAIN").

(** One line of the journal; [bus] says whether the console has one. *)
Definition journal_on (bus : bool) (org host : str) (rec : CommandRecord) : program (bool * option str) :=
  if bus then
    do x <- Journal org host rec;
    match x with
    | Ok _ => Ret (true, None)
    | Err e => Ret (false, Some e)
    end
  else Ret (false, Some #"no live event bus available (startup seeding did not complete)").

(** [delegation::commands::journal]. *)
Definition journal (sc : Scope) (bus : bool) (org : str) (rec : CommandRecord) : program (bool * option str) :=
  journal_on bus org (default #"console" (env_var sc #"HOSTNAME")) rec.

(** A program against one world, which answers from what happened so far. *)
Fixpoint play {A} (world : list event -> forall o, resp o) (tr : list event) (p : program A) : A * list event :=
  match p with
  | Ret a => (a, tr)
  | Do o k => let x := world tr o in play world (tr ++ [event_of o 0 x]) (k x)
  end.

(** ** Lemmas *)

Lemma play_ran {A} world tr (p : program A) post :
  ran tr p post -> post (play world tr p).1 (play world tr p).2.
Proof. revert tr. induction p as [a|o k IH]; intros tr; simpl; [done|]. intros [_ H]. by apply IH. Qed.

Lemma ran_mono {A} tr (p : program A) (post post' : A -> list event -> Prop) :
  ran tr p post -> (forall a tr', post a tr' -> post' a tr') -> ran tr p post'.
Proof. apply wp_mono. Qed.

Lemma ran_bind {A B} tr (p : program A) (f : A -> program B) post :
  ran tr p (fun a tr' => ran tr' (f a) post) -> ran tr (bind p f) post.
Proof. apply wp_bind. Qed.

(** What a journal line adds to the trace: itself, when there is a journal. *)
Definition line_of (bus : bool) (rec : CommandRecord) (tr tr' : list event) : Prop :=
  if bus then exists org host x, tr' = tr ++ [Journaled org host rec x] else tr' = tr.

(** The journal's answer says whether it acknowledged the line. *)
Lemma ran_journal_told bus org host rec tr (post : bool * option str -> list event -> Prop) :
  (forall (r : bool * option str) tr', line_of bus rec tr tr' -> acknowledged tr' = acknowledged tr ++ (if r.1 then [rec] else []) -> post r tr') ->
  ran tr (journal_on bus org host rec) post.
Proof.
  unfold journal_on, line_of. destruct bus; simpl; [|by intros H; apply H; rewrite ?app_nil_r].
  intros H. split; [done|]. intros _ x. change (result unit str) in x.
  destruct x as [[]|e]; simpl; (apply H; [eauto|]); unfold acknowledged; by rewrite omap_app.
Qed.

Lemma ran_journal_on bus org host rec tr (post : bool * option str -> list event -> Prop) :
  (forall r tr', line_of bus rec tr tr' -> post r tr') -> ran tr (journal_on bus org host rec) post.
Proof. intros H. apply ran_journal_told. auto. Qed.

Lemma nothing_acknowledged tr : records tr = [] -> acknowledged tr = [].
Proof.
  induction tr as [|e tr IH]; [done|]. unfold records, acknowledged in *. simpl.
  destruct e; simpl; intros H; first [discriminate H|by apply IH].
Qed.

Lemma records_line bus rec tr tr' :
  line_of bus rec tr tr' -> records tr' = records tr ++ (if bus then [rec] else []).
Proof. unfold line_of. destruct bus; [intros (o & h & x & ->); by rewrite records_app|intros ->; by rewrite app_nil_r]. Qed.

Lemma line_extends bus rec tr tr' : line_of bus rec tr tr' -> tr `prefix_of` tr'.
Proof. unfold line_of. destruct bus; [intros (o & h & x & ->); by apply prefix_app_r|by intros ->]. Qed.

Lemma sent_line bus rec tr tr' : line_of bus rec tr tr' -> sent tr' = sent tr.
Proof. unfold line_of. destruct bus; [intros (o & h & x & ->); by rewrite sent_app, app_nil_r|by intros ->]. Qed.

(** A client that follows one redirect to another host. *)
Definition demo_http : HttpClient := {|
  on_the_wire p r w := match p with
                       | NoRedirect => w = [r]
                       | DefaultPolicy => w = [r; mkRequest (method r) #"http://elsewhere" None (headers r) (body r)]
                       end |}.
#[export] Instance demo_http_laws : @HttpClientLaws demo_http.
Proof.
  split; intros r w H; cbn in H; subst w; [by right|]. right. eexists. split; [reflexivity|]. split; [simpl; lia|].
  constructor; [|constructor]. split; [by left|]. split; [by right|]. apply List.Forall_forall. intros h Hh. left. by apply list_elem_of_In.
Qed.
