(* ===== verification/Cloud.v ===== *)
(** * Cloud: signed calls to the money plane
    ([crates/connectors/src/urlpath.rs], [crates/connectors/src/cloud_rest.rs],
    the mutations of [crates/api/src/money/commands.rs] and [units.rs])

    A mutation names its run, unit or incident in the request path.  The id is
    encoded as one path segment, the encoded path is signed and sent, and the
    attempt is written to the console's journal whatever the Cloud answers.
    The typed readers of the Cloud's answers are serde's: the class
    [CloudWire]. *)
From S2P Require Import Prelude Text Json Signing Jcs Ingest Command Http Prog Effects.

(** ** One id as one path segment *)

Inductive PathSegmentError : Type := Empty | DotSegment (id : str).

Definition is_literal_pchar (b : Z) : bool :=
  ascii_alnum b
  || existsb (Z.eqb b) #"-._~"
  || existsb (Z.eqb b) #"!$&'()*+,;="
  || existsb (Z.eqb b) #":@".

Definition hex_upper (n : Z) : Z := if n <? 10 then 48 + n else 55 + n.
(** [{b:02X}] *)
Definition escape (b : Z) : str := [37; hex_upper (b / 16); hex_upper (b mod 16)].
Definition encode_byte (b : Z) : str := if is_literal_pchar b then [b] else escape b.

Definition path_segment (id : str) : result str PathSegmentError :=
  if bool_decide (id = []) then Err Empty
  else if str_eqb id #"." || str_eqb id #".." then Err (DotSegment id)
  else Ok (flat_map encode_byte (str_bytes id)).

Definition path_error_text (e : PathSegmentError) : str :=
  match e with
  | Empty => #"an empty id cannot address a resource"
  | DotSegment id => #"`" ++ id ++ #"` is a relative path segment, not an id"
  end.

(** ** The client *)

Inductive ConnectorError : Type :=
| Transport (e : str)
| BadJson (e : str)
| Api (status : Z) (body : str)
| PlanRequired (feature org upgrade_url : str)
| NoDeviceSigner
| InvalidPathSegment (e : PathSegmentError)
| SigningFailed (e : SigningError)
| SignatureRejected.

Definition signing_error_text (e : SigningError) : str :=
  match e with
  | KeyGeneration e => #"key generation failed: " ++ e
  | KeyExport e => #"public-key export failed: " ++ e
  | Signing e => #"signing failed: " ++ e
  | Entropy e => #"entropy source failed: " ++ e
  | MalformedPublicKey e => #"malformed public key: " ++ e
  | MalformedSignature e => #"malformed signature: " ++ e
  | VerificationFailed => #"signature verification failed"
  | ClockBeforeEpoch => #"system clock is before the unix epoch"
  end.

Definition connector_error_text (e : ConnectorError) : str :=
  match e with
  | Transport e => #"http transport: " ++ e
  | BadJson e => #"json: " ++ e
  | Api status body => #"cloud returned HTTP " ++ dec status ++ #": " ++ body
  | PlanRequired feature org url =>
      #"plan required: feature=" ++ feature ++ #" org=" ++ org ++ #" (upgrade: " ++ url ++ #")"
  | NoDeviceSigner => #"mutation requires a paired device signer; call attach_device (or pair) first"
  | InvalidPathSegment e => #"invalid id for a URL path segment: " ++ path_error_text e
  | SigningFailed e => #"signing failed: " ++ signing_error_text e
  | SignatureRejected => #"device signature rejected (403 signature_invalid)"
  end.

(** One run of [GET /v1/runs]: the fields every answer carries. *)
Record RunAgg : Type := mkRun
  { run_id : str; model : str; agent_id : str; spent_microusd : Z; calls : Z; cache_hits : Z; steps : Z;
    last_seen_millis : Z; killed : bool }.

(** The codes and tokens of pairing. *)
Record PairNewResponse : Type := mkPairNew { code : str; expires_unix : Z }.
Record PairResponse : Type := mkPair { device_id : str; porg : str; prole : str; device_token : str }.

(** serde's typed readers of the Cloud's bodies, and the decimal text of a
    double. *)
Class CloudWire := {
  read_kill : list Z -> result str str;              (* [KillResponse] *)
  read_budget : list Z -> result (str * Z) str;      (* [BudgetResponse] *)
  read_unit_budget : list Z -> result (str * Z) str; (* [UnitBudgetResponse] *)
  read_ack : list Z -> result str str;               (* [AckResponse] *)
  read_runs : list Z -> result (list RunAgg) str;
  read_pair_new : list Z -> result PairNewResponse str;
  read_pair : list Z -> result PairResponse str;
  read_plan_required : list Z -> option (str * str * str);
  read_error : list Z -> option str;                 (* [ErrorResponse] *)
  show_f64 : f64 -> str;                             (* [{}] *)
  show_f64_4 : f64 -> str;                           (* [{:.4}] *)
}.

Record Device : Type := mkDevice { did : str; dtoken : str; signer : Es256Signer }.
Record CloudClient : Type := mkClient { base_url : str; bearer_token : str; device : option Device }.

(** [trim_end_matches('/')]. *)
Fixpoint drop_slashes (s : str) : str :=
  match s with
  | c :: s' => if c =? 47 then drop_slashes s' else s
  | [] => []
  end.
Definition base_url_of (url : str) : str := rev (drop_slashes (rev url)).

(** [CloudClient::new]. *)
Definition new_client (base_url bearer_token : str) : CloudClient := mkClient (base_url_of base_url) bearer_token None.
(** Its [reqwest] client, whose builder says nothing of redirects. *)
Definition redirects : Redirects := DefaultPolicy.
Definition attach_device (c : CloudClient) (d : Device) : CloudClient :=
  mkClient (base_url c) (bearer_token c) (Some d).
Definition has_device (c : CloudClient) : bool := match device c with Some _ => true | None => false end.

Section Client.
Context {PR : Primitives} {JT : JsonText} {CW : CloudWire}.

Definition classify_error (status : Z) (bytes : list Z) : ConnectorError :=
  let api := Api status (from_utf8_lossy bytes) in
  if status =? 402 then
    match read_plan_required bytes with
    | Some (feature, org, url) => PlanRequired feature org url
    | None => api
    end
  else if status =? 403 then
    match read_error bytes with
    | Some e => if str_eqb e #"signature_invalid" then SignatureRejected else api
    | None => api
    end
  else api.

Definition parse_response {T} (read : list Z -> result T str) (x : result Response str) : result T ConnectorError :=
  let? r := map_err Transport x in
  let? bytes := map_err Transport (whole (chunks r)) in
  if is_success (status r) then map_err BadJson (read bytes) else Err (classify_error (status r) bytes).

Definition get_json {T} (c : CloudClient) (read : list Z -> result T str) (path : str)
  : program (result T ConnectorError) :=
  do x <- Send (mkRequest #"GET" (base_url c ++ path) (Some (bearer_token c)) [] []);
  Ret (parse_response read x).

(** [get_json_or_absent]: an older Cloud's 404 is [None]. *)
Definition get_json_or_absent {T} (c : CloudClient) (read : list Z -> result T str) (path : str)
  : program (result (option T) ConnectorError) :=
  do x <- Send (mkRequest #"GET" (base_url c ++ path) (Some (bearer_token c)) [] []);
  Ret (match x with
       | Ok r => if status r =? 404 then Ok None else let? v := parse_response read x in Ok (Some v)
       | Err e => Err (Transport e)
       end).

Definition runs (c : CloudClient) : program (result (list RunAgg) ConnectorError) :=
  get_json c read_runs #"/v1/runs".

Definition json_header : str * str := (#"content-type", #"application/json").

Definition pair_new (c : CloudClient) (admin_bearer : str) : program (result PairNewResponse ConnectorError) :=
  do x <- Send (mkRequest #"POST" (base_url c ++ #"/v1/pair/new") (Some admin_bearer) [json_header] #"{}");
  Ret (parse_response read_pair_new x).

(** [CloudClient::pair]; [os] is the platform's name. *)
Definition pair (os : str) (c : CloudClient) (admin_bearer : str) (s : Es256Signer)
  : program (result PairResponse ConnectorError) :=
  ask! issued <- pair_new c admin_bearer;
  match public_key_b64 s with
  | Err e => Ret (Err (SigningFailed e))
  | Ok pubkey_b64 =>
      let redeem := obj [(#"code", VStr (code issued)); (#"pubkey_b64", VStr pubkey_b64); (#"platform", VStr os);
                         (#"name", VStr (#"genaryx-connectors (" ++ label (assurance s) ++ #")"))] in
      do x <- Send (mkRequest #"POST" (base_url c ++ #"/v1/pair") None [json_header] (str_bytes (json_text redeem)));
      Ret (parse_response read_pair x)
  end.

Definition signed_headers (d : Device) (m : SignedMutation) : list (str * str) :=
  [(#"X-Fuse-Device", did d); (#"X-Fuse-TS", sm_ts m); (#"X-Fuse-Nonce", sm_nonce m); (#"X-Fuse-Sig", sig_b64 m);
   json_header].

Definition signed_post {T} (c : CloudClient) (read : list Z -> result T str) (path : str) (body : list Z)
  : program (result T ConnectorError) :=
  match device c with
  | None => Ret (Err NoDeviceSigner)
  | Some d =>
      do drawn <- Draw;
      match sign_mutation drawn.1 drawn.2 (signer d) #"POST" path body with
      | Err e => Ret (Err (SigningFailed e))
      | Ok m =>
          do x <- Send (mkRequest #"POST" (base_url c ++ path) (Some (dtoken d)) (signed_headers d m) body);
          Ret (parse_response read x)
      end
  end.

(** A mutation of the resource [before id after]. *)
Definition post_to {T} (c : CloudClient) (read : list Z -> result T str) (before id after : str) (body : list Z)
  : program (result T ConnectorError) :=
  match path_segment id with
  | Err e => Ret (Err (InvalidPathSegment e))
  | Ok seg => signed_post c read (before ++ seg ++ after) body
  end.

Definition budget_body (budget_usd : f64) : list Z :=
  str_bytes (json_text (obj [(#"budget_usd", VNum (NFloat budget_usd))])).

Definition kill_run (c : CloudClient) (id : str) : program (result str ConnectorError) :=
  post_to c read_kill #"/v1/runs/" id #"/kill" [].
Definition set_budget (c : CloudClient) (id : str) (budget_usd : f64) : program (result (str * Z) ConnectorError) :=
  post_to c read_budget #"/v1/runs/" id #"/budget" (budget_body budget_usd).
Definition set_unit_budget (c : CloudClient) (unit : str) (budget_usd : f64)
  : program (result (str * Z) ConnectorError) :=
  post_to c read_unit_budget #"/v1/units/" unit #"/budget" (budget_body budget_usd).
Definition ack_incident (c : CloudClient) (id : str) : program (result str ConnectorError) :=
  post_to c read_ack #"/v1/incidents/" id #"/ack" [].
End Client.

(** ** The money commands *)

Inductive MoneyError : Type :=
| Bootstrapping
| NoEnvironment
| PairingFailed (reason : str)
| MoneyPlanRequired (feature org upgrade_url : str)
| MissingReason
| InvalidArgument (message : str)
| CloudError (status : option Z) (message : str).

(** [From<ConnectorError> for MoneyError]. *)
Definition money_error (e : ConnectorError) : MoneyError :=
  match e with
  | PlanRequired feature org url => MoneyPlanRequired feature org url
  | SignatureRejected => CloudError (Some 403) #"device signature rejected by the Cloud (signature_invalid)"
  | Api status body => CloudError (Some status) body
  | NoDeviceSigner => CloudError None #"no paired device signer attached (internal state error)"
  | InvalidPathSegment e => CloudError None (#"this id cannot be used in a request path: " ++ path_error_text e)
  | SigningFailed e => CloudError None (#"signing failed: " ++ signing_error_text e)
  | Transport e => CloudError None (#"could not reach the Cloud: " ++ e)
  | BadJson e => CloudError None (#"unexpected response shape from the Cloud: " ++ e)
  end.

Definition status_of (e : ConnectorError) : Z :=
  match e with
  | Api status _ => status
  | SignatureRejected => 403
  | PlanRequired _ _ _ => 402
  | NoDeviceSigner | InvalidPathSegment _ | SigningFailed _ | Transport _ | BadJson _ => 0
  end.

(** [MoneyClient]; [bus] says whether the console has a journal. *)
Record MoneyClient : Type := mkMoneyClient
  { client : CloudClient; org : str; default_operator : str; host : str; client_fpr : str; bus : bool }.

Inductive MoneyInner : Type :=
| StillBootstrapping
| NoMoneyEnvironment
| MoneyPairingFailed (reason : str)
| Ready (c : MoneyClient).

Definition ready_client (st : MoneyInner) : result MoneyClient MoneyError :=
  match st with
  | Ready c => Ok c
  | StillBootstrapping => Err Bootstrapping
  | NoMoneyEnvironment => Err NoEnvironment
  | MoneyPairingFailed reason => Err (PairingFailed reason)
  end.

Record MutationOutcome : Type := mkOutcome
  { summary : str; out_status : Z; out_verify : str; out_alg : str; out_fpr : str;
    bus_recorded : bool; bus_error : option str }.

(** [money::commands::journal]. *)
Definition money_journal (c : MoneyClient) (rec : CommandRecord) : program (bool * option str) :=
  journal_on (bus c) (org c) (host c) rec.

Definition require_reason (reason : str) : result unit MoneyError :=
  if bool_decide (trim reason = []) then Err MissingReason else Ok tt.

(** The record of one attempt, from the Cloud's verdict. *)
Definition mutation_record (sc : Scope) (c : MoneyClient) (action target : str) (params : value) (decision : str)
  (http_status : Z) (verify_result : str) : CommandRecord :=
  let '(sig_alg, sig_fpr) := signature_or sc #"es256" (client_fpr c) in
  mkCommand (operator_or sc (default_operator c)) #"local" action target params decision sig_alg sig_fpr
    http_status verify_result.

Definition finish_mutation {T} (sc : Scope) (c : MoneyClient) (action target : str) (params : value)
  (decision : str) (cloud_result : result T ConnectorError) (on_ok : T -> str * str)
  : program (result MutationOutcome MoneyError) :=
  let '(http_status, verify_result, summary) :=
    match cloud_result with
    | Ok value => let '(summary, verify_result) := on_ok value in (200, verify_result, summary)
    | Err e => (status_of e, #"error: " ++ connector_error_text e, [])
    end in
  do! written <- money_journal c (mutation_record sc c action target params decision http_status verify_result);
  Ret (match cloud_result with
       | Ok _ => Ok (mkOutcome summary http_status verify_result #"es256" (client_fpr c) written.1 written.2)
       | Err e => Err (money_error e)
       end).

Definition bool_text (b : bool) : str := if b then #"true" else #"false".

(** The Cloud's bucket for spend that resolved no unit. *)
Definition UNASSIGNED : str := #"unassigned".
(** [x < 0.0] *)
Definition f64_negative (x : f64) : bool := f_neg x && negb (forallb (Z.eqb 0) (f_digits x)).

Section Money.
Context {PR : Primitives} {JT : JsonText} {CW : CloudWire}.

Definition money_kill_run (sc : Scope) (st : MoneyInner) (id reason : str) : program (result MutationOutcome MoneyError) :=
  match require_reason reason with
  | Err e => Ret (Err e)
  | Ok _ =>
      match ready_client st with
      | Err e => Ret (Err e)
      | Ok c =>
          do! r <- kill_run (client c) id;
          finish_mutation sc c #"console.kill_run" id (obj [(#"reason", VStr reason)]) #"break_glass" r
            (fun killed => (#"run " ++ id ++ #" killed", #"killed:" ++ bool_text (str_eqb killed id)))
      end
  end.

Definition money_set_budget (sc : Scope) (st : MoneyInner) (id : str) (budget_usd : f64) (reason : str)
  : program (result MutationOutcome MoneyError) :=
  match require_reason reason with
  | Err e => Ret (Err e)
  | Ok _ =>
      match ready_client st with
      | Err e => Ret (Err e)
      | Ok c =>
          do! r <- set_budget (client c) id budget_usd;
          finish_mutation sc c #"console.set_budget" id
            (obj [(#"reason", VStr reason); (#"budget_usd", VNum (NFloat budget_usd))]) #"break_glass" r
            (fun resp => (#"run " ++ id ++ #" budget set to $" ++ show_f64_4 budget_usd,
                          #"budget_micros:" ++ dec resp.2))
      end
  end.

Definition money_ack_incident (sc : Scope) (st : MoneyInner) (id : str) : program (result MutationOutcome MoneyError) :=
  match ready_client st with
  | Err e => Ret (Err e)
  | Ok c =>
      do! r <- ack_incident (client c) id;
      finish_mutation sc c #"console.ack_incident" id (obj []) #"allow" r
        (fun acknowledged => (#"incident " ++ id ++ #" acknowledged",
                              #"acknowledged:" ++ bool_text (str_eqb acknowledged id)))
  end.

(** [validate_unit_cap]; a double that reached the command is finite. *)
Definition validate_unit_cap (unit : str) (budget_usd : f64) : result Datatypes.unit MoneyError :=
  if bool_decide (trim unit = []) then Err (InvalidArgument #"a unit cap needs a unit id")
  else if str_eqb unit UNASSIGNED then
    Err (InvalidArgument ([34] ++ #"unassigned" ++ [34] ++
      #" is the Cloud's bucket for spend that resolved no unit; a cap cannot apply to it"))
  else if f64_negative budget_usd then
    Err (InvalidArgument (#"a unit cap must be a finite amount of zero or more USD, got " ++ show_f64 budget_usd))
  else Ok tt.

Definition money_set_unit_budget (sc : Scope) (st : MoneyInner) (unit : str) (budget_usd : f64) (reason : str)
  : program (result MutationOutcome MoneyError) :=
  match require_reason reason with
  | Err e => Ret (Err e)
  | Ok _ =>
      match validate_unit_cap unit budget_usd with
      | Err e => Ret (Err e)
      | Ok _ =>
          match ready_client st with
          | Err e => Ret (Err e)
          | Ok c =>
              do! r <- set_unit_budget (client c) unit budget_usd;
              finish_mutation sc c #"console.set_unit_budget" unit
                (obj [(#"reason", VStr reason); (#"budget_usd", VNum (NFloat budget_usd))]) #"break_glass" r
                (fun resp => (#"unit " ++ unit ++ #" month cap set to $" ++ show_f64_4 budget_usd,
                              #"budget_micros:" ++ dec resp.2))
          end
      end
  end.

(** The four commands that change what the Cloud does. *)
Inductive mutation : Type :=
| KillRun (id reason : str)
| SetBudget (id : str) (budget_usd : f64) (reason : str)
| SetUnitBudget (unit : str) (budget_usd : f64) (reason : str)
| AckIncident (id : str).

Definition money_mutation (sc : Scope) (st : MoneyInner) (m : mutation) : program (result MutationOutcome MoneyError) :=
  match m with
  | KillRun id reason => money_kill_run sc st id reason
  | SetBudget id usd reason => money_set_budget sc st id usd reason
  | SetUnitBudget unit usd reason => money_set_unit_budget sc st unit usd reason
  | AckIncident id => money_ack_incident sc st id
  end.

(** The id a mutation names, and the reason it gives, when it needs one. *)
Definition target_id (m : mutation) : str :=
  match m with KillRun id _ | SetBudget id _ _ | SetUnitBudget id _ _ | AckIncident id => id end.
Definition reason_of (m : mutation) : option str :=
  match m with KillRun _ r | SetBudget _ _ r | SetUnitBudget _ _ r => Some r | AckIncident _ => None end.
Definition path_of (m : mutation) (seg : str) : str :=
  match m with
  | KillRun _ _ => #"/v1/runs/" ++ seg ++ #"/kill"
  | SetBudget _ _ _ => #"/v1/runs/" ++ seg ++ #"/budget"
  | SetUnitBudget _ _ _ => #"/v1/units/" ++ seg ++ #"/budget"
  | AckIncident _ => #"/v1/incidents/" ++ seg ++ #"/ack"
  end.
(** What each asks of the Cloud: a budget names its amount, the rest say nothing. *)
Definition body_of (m : mutation) : list Z :=
  match m with
  | SetBudget _ usd _ | SetUnitBudget _ usd _ => str_bytes (json_text (obj [(#"budget_usd", VNum (NFloat usd))]))
  | KillRun _ _ | AckIncident _ => []
  end.
End Money.

(** ** Lemmas *)

(** Reading a segment back: [%XX] is a byte, anything else is itself. *)
Definition upper_value (c : Z) : option Z :=
  if ascii_digit c then Some (c - 48) else if (65 <=? c) && (c <=? 70) then Some (c - 55) else None.
Fixpoint percent_decode (s : str) : option (list Z) :=
  match s with
  | [] => Some []
  | 37 :: a :: b :: s =>
      let! hi := upper_value a in let! lo := upper_value b in
      let! rest := percent_decode s in Some (hi * 16 + lo :: rest)
  | c :: s => let! rest := percent_decode s in Some (c :: rest)
  end.

Lemma upper_value_hex n : 0 <= n < 16 -> upper_value (hex_upper n) = Some n.
Proof.
  intros. unfold upper_value, hex_upper, ascii_digit.
  repeat case_match; b2p; try (f_equal; lia); destruct_or?; lia.
Qed.

Lemma literal_not_special b : is_literal_pchar b = true -> b <> 37 /\ b <> 47.
Proof. intros H. split; intros ->; by vm_compute in H. Qed.

Lemma decode_encode_byte b s : 0 <= b <= 255 ->
  percent_decode (encode_byte b ++ s) = let! rest := percent_decode s in Some (b :: rest).
Proof.
  intros Hb. unfold encode_byte. destruct (is_literal_pchar b) eqn:Hl.
  - apply literal_not_special in Hl as [H37 _]. cbn [app percent_decode].
    destruct b as [|p|]; try done. repeat (destruct p as [p|p|]; try done).
  - pose proof (Z.mod_pos_bound b 16). pose proof (Z.div_pos b 16).
    assert (b / 16 < 16) by (apply Z.div_lt_upper_bound; lia).
    unfold escape. cbn [app percent_decode]. rewrite !upper_value_hex by lia.
    destruct (percent_decode s); [|done]. do 2 f_equal. pose proof (Z.div_mod b 16). lia.
Qed.

Lemma percent_decode_bytes bs :
  Forall (fun b => 0 <= b <= 255) bs -> percent_decode (flat_map encode_byte bs) = Some bs.
Proof. induction 1 as [|b bs Hb _ IH]; [done|]. cbn [flat_map]. by rewrite decode_encode_byte, IH. Qed.

(** The characters of a segment: a literal one, [%], or a hexadecimal digit. *)
Lemma encode_byte_chars b : 0 <= b <= 255 ->
  Forall (fun c => is_literal_pchar c = true \/ c = 37) (encode_byte b).
Proof.
  intros Hb. unfold encode_byte. destruct (is_literal_pchar b) eqn:Hl.
  { constructor; [by left|constructor]. }
  pose proof (Z.mod_pos_bound b 16). pose proof (Z.div_pos b 16).
  assert (b / 16 < 16) by (apply Z.div_lt_upper_bound; lia).
  assert (Hd : forall n, 0 <= n < 16 -> is_literal_pchar (hex_upper n) = true).
  { intros n Hn. unfold is_literal_pchar, ascii_alnum, ascii_digit, ascii_upper, hex_upper.
    case_match; b2p; lia. }
  constructor; [by right|]. constructor; [left; apply Hd; lia|]. constructor; [left; apply Hd; lia|constructor].
Qed.

Lemma utf8_bytes s : valid_str s -> Forall (fun b => 0 <= b <= 255) (str_bytes s).
Proof.
  induction 1 as [|c s Hc _ IH]; [constructor|]. simpl. apply Forall_app_2; [|exact IH].
  unfold utf8_enc, is_scalar in *. b2p.
  repeat case_match; b2p; repeat apply Forall_cons_2; try apply Forall_nil_2; Z.to_euclidean_division_equations; lia.
Qed.

Lemma status_of_classified {CW : CloudWire} s bytes : status_of (classify_error s bytes) = s.
Proof. unfold classify_error. repeat case_match; b2p; by simplify_eq/=. Qed.

Section MoneyProofs.
Context {PR : Primitives} {JT : JsonText} {CW : CloudWire}.

(** [req] is a mutation signed by [d] over the very path and body it carries. *)
Definition signed_for (d : Device) (base path : str) (req : Request) : Prop :=
  method req = #"POST" /\ url req = base ++ path /\ bearer req = Some (dtoken d) /\
  exists ts nonce sig, headers req = signed_headers d (mkSigned ts nonce sig) /\
    sign_b64 (signer d) (str_bytes (canonical_request #"POST" path (body_sha256_hex (body req)) ts nonce)) = Ok sig.

(** What one signed call adds to the trace: nothing, with no answer; or one
    signed request and the Cloud's answer to it. *)
Definition called {T} (c : CloudClient) (read : list Z -> result T str) (path : str) (sent_body : list Z) (tr tr' : list event)
  (r : result T ConnectorError) : Prop :=
  records tr' = records tr /\
  ((sent tr' = sent tr /\ exists e, r = Err e /\ status_of e = 0) \/
   exists d req x, device c = Some d /\ sent tr' = sent tr ++ [(req, x)] /\ r = parse_response read x /\
     signed_for d (base_url c) path req /\ body req = sent_body).

Lemma ran_signed_post {T} c (read : list Z -> result T str) path body tr :
  ran tr (signed_post c read path body) (fun r tr' => called c read path body tr tr' r).
Proof.
  unfold signed_post, called. destruct (device c) as [d|]; simpl; [|eauto 10].
  split; [done|]. intros _ [clock buf]. simpl.
  destruct (sign_mutation _ _ _ _ _ _) as [m|e] eqn:Es; simpl.
  - split; [done|]. intros _ x. rewrite !records_app, !sent_app, !app_nil_r. split; [done|]. right.
    exists d, (mkRequest #"POST" (base_url c ++ path) (Some (dtoken d)) (signed_headers d m) body), x.
    do 3 (split; [done|]). split; [|done]. unfold signed_for. do 3 (split; [done|]).
    unfold sign_mutation, sign_mutation_at in Es.
    apply rbind_Ok in Es as (ts & _ & Es). apply rbind_Ok in Es as (nonce & _ & Es).
    apply rbind_Ok in Es as (sig & Es & [= <-]). exists (dec ts), nonce, sig. done.
  - rewrite records_app, sent_app, !app_nil_r. split; [done|]. left. eauto.
Qed.

Lemma ran_post_to {T} c (read : list Z -> result T str) before id after body tr :
  ran tr (post_to c read before id after body) (fun r tr' =>
    (path_segment id = Err Empty \/ path_segment id = Err (DotSegment id)) /\ tr' = tr /\ (exists e, r = Err e /\ status_of e = 0) \/
    exists seg, path_segment id = Ok seg /\ called c read (before ++ seg ++ after) body tr tr' r).
Proof.
  unfold post_to. destruct (path_segment id) as [seg|e] eqn:Ep.
  - eapply ran_mono; [apply ran_signed_post|]. simpl. intros r tr' H. right. eauto.
  - simpl. left. split; [|eauto]. unfold path_segment in Ep. repeat case_match; simplify_eq; auto.
Qed.

(** The attempt and its journal line, for any of the four mutations. *)
Definition attempted_once {T} (sc : Scope) (c : MoneyClient) (read : list Z -> result T str) (path : str -> str)
  (sent_body : list Z) (action id : str) (params : value) (decision : str) (r : result MutationOutcome MoneyError) (tr : list event) : Prop :=
  exists rec, records tr = (if bus c then [rec] else []) /\
    (forall o, r = Ok o -> acknowledged tr = if bus_recorded o then [rec] else []) /\
    rec = mutation_record sc c action id params decision (http_status rec) (verify_result rec) /\
    ((sent tr = [] /\ is_ok r = false /\ http_status rec = 0) \/
     exists d seg req x, device (client c) = Some d /\ path_segment id = Ok seg /\ sent tr = [(req, x)] /\
       signed_for d (base_url (client c)) (path seg) req /\ body req = sent_body /\
       is_ok r = is_ok (parse_response read x) /\
       http_status rec = match parse_response read x with Ok _ => 200 | Err e => status_of e end).

Lemma mutation_record_self sc c action id params decision hs vr :
  mutation_record sc c action id params decision hs vr =
  mutation_record sc c action id params decision
    (http_status (mutation_record sc c action id params decision hs vr))
    (verify_result (mutation_record sc c action id params decision hs vr)).
Proof. unfold mutation_record. by destruct (signature_or _ _ _). Qed.

Lemma mutation_record_status sc c action id params decision hs vr :
  http_status (mutation_record sc c action id params decision hs vr) = hs.
Proof. unfold mutation_record. by destruct (signature_or _ _ _). Qed.

Lemma ran_finish {T} sc c action id params decision (r : result T ConnectorError) on_ok tr
  (post : result MutationOutcome MoneyError -> list event -> Prop) :
  (forall out tr' rec, line_of (bus c) rec tr tr' -> is_ok out = is_ok r ->
     (forall o, out = Ok o -> acknowledged tr' = acknowledged tr ++ (if bus_recorded o then [rec] else [])) ->
     rec = mutation_record sc c action id params decision (http_status rec) (verify_result rec) ->
     http_status rec = match r with Ok _ => 200 | Err e => status_of e end -> post out tr') ->
  ran tr (finish_mutation sc c action id params decision r on_ok) post.
Proof.
  unfold finish_mutation, money_journal. intros H.
  destruct r as [v|e]; [destruct (on_ok v) as [s vr]|]; apply ran_bind, ran_journal_told; intros x tr' Hl Ha; simpl;
    eapply H; try exact Hl; try done; try apply mutation_record_self; try apply mutation_record_status.
  by intros o [= <-].
Qed.

Lemma ran_attempt {T} sc c (read : list Z -> result T str) before id after body action params decision on_ok :
  ran [] (do! r <- post_to (client c) read before id after body;
          finish_mutation sc c action id params decision r on_ok)
    (attempted_once sc c read (fun seg => before ++ seg ++ after) body action id params decision).
Proof.
  apply ran_bind. eapply ran_mono; [apply ran_post_to|]. simpl. intros r tr H.
  apply ran_finish. intros out tr' rec Hl Hok Hack Hrec Hst.
  assert (Hre := records_line _ _ _ _ Hl). assert (Hse := sent_line _ _ _ _ Hl).
  assert (Hno : acknowledged tr = []).
  { apply nothing_acknowledged. by destruct H as [(_ & -> & _)|(seg & _ & Hr & _)]. }
  rewrite Hno in Hack. exists rec. destruct H as [(_ & -> & e & -> & He)|(seg & Hseg & Hr & Hc)].
  - split; [done|]. split; [done|]. split; [done|]. left. rewrite Hse, Hok, Hst. by rewrite He.
  - rewrite Hr in Hre. split; [done|]. split; [done|]. split; [done|]. rewrite Hse, Hok, Hst.
    destruct Hc as [(Hs & e & -> & He)|(d & req & x & Hd & Hs & -> & Hf & Hb)].
    + left. rewrite Hs. by rewrite He.
    + right. exists d, seg, req, x. by rewrite Hs.
Qed.

(** A request the client makes of a signed one because it was redirected says
    nothing else: it has the same body or none, the same bearer or none, and any
    signature it carries is over the path and the body of the first. *)
Definition says_no_more (d : Device) (path : str) (b : list Z) (req : Request) : Prop :=
  (body req = b \/ body req = []) /\ (bearer req = Some (dtoken d) \/ bearer req = None) /\
  forall s, (#"X-Fuse-Sig", s) ∈ headers req -> exists ts nonce,
    sign_b64 (signer d) (str_bytes (canonical_request #"POST" path (body_sha256_hex b) ts nonce)) = Ok s.

Lemma redirect_says_no_more d base path req r :
  signed_for d base path req -> followed req r -> says_no_more d path (body req) r.
Proof.
  intros (_ & _ & Hb & ts & nonce & sig & Hh & Hs) (H1 & H2 & H3). split; [tauto|]. split; [by rewrite <- Hb|].
  intros s Hin. rewrite List.Forall_forall in H3. apply list_elem_of_In, H3 in Hin as [Hin|Hin]; [|done].
  exists ts, nonce. rewrite Hh in Hin. unfold signed_headers in Hin. cbn [did sm_ts sm_nonce sig_b64] in Hin.
  repeat (apply elem_of_cons in Hin as [[= Hin]|Hin]); try by apply elem_of_nil in Hin. by subst s.
Qed.

(** The journal line and the answer, in the words of the property. *)
Definition accounted {HC : HttpClient} (sc : Scope) (c : MoneyClient) (m : mutation) (r : result MutationOutcome MoneyError)
  (tr : list event) : Prop :=
  exists rec, records tr = (if bus c then [rec] else []) /\
    (forall o, r = Ok o -> acknowledged tr = if bus_recorded o then [rec] else []) /\
    target rec = target_id m /\
    operator rec = operator_or sc (default_operator c) /\
    decision rec = match reason_of m with Some _ => #"break_glass" | None => #"allow" end /\
    get_str #"reason" (params rec) = reason_of m /\
    ((sent tr = [] /\ is_ok r = false /\ http_status rec = 0) \/
     exists d seg req x, device (client c) = Some d /\ path_segment (target_id m) = Ok seg /\ sent tr = [(req, x)] /\
       signed_for d (base_url (client c)) (path_of m seg) req /\ body req = body_of m /\
       (forall w, on_the_wire redirects req w ->
          w = [] \/ exists later, w = req :: later /\ (length later <= 10)%nat
                     /\ Forall (says_no_more d (path_of m seg) (body req)) later) /\
       (is_ok r = true -> exists resp, x = Ok resp /\ is_success (status resp) = true /\ http_status rec = 200) /\
       (forall resp bytes, x = Ok resp -> whole (chunks resp) = Ok bytes -> is_success (status resp) = false ->
          is_ok r = false /\ http_status rec = status resp)).

Lemma attempted_accounted {HC : HttpClient} {HL : HttpClientLaws} {T} sc c (read : list Z -> result T str) m action params r tr :
  attempted_once sc c read (path_of m) (body_of m) action (target_id m) params
    (match reason_of m with Some _ => #"break_glass" | None => #"allow" end) r tr ->
  get_str #"reason" params = reason_of m -> accounted sc c m r tr.
Proof.
  intros (rec & Hre & Hack & Hrec & H) Hp. exists rec. split; [done|]. split; [done|].
  assert (Hf : target rec = target_id m /\ operator rec = operator_or sc (default_operator c) /\
    decision rec = match reason_of m with Some _ => #"break_glass" | None => #"allow" end /\
    Command.params rec = params).
  { rewrite Hrec. unfold mutation_record. by destruct (signature_or _ _ _). }
  destruct Hf as (Ht & Ho & Hd & Hpa). rewrite Hpa. do 4 (split; [done|]).
  destruct H as [H|(d & seg & req & x & Hdev & Hseg & Hs & Hf & Hb & Hok & Hst)]; [by left|right].
  exists d, seg, req, x. do 5 (split; [done|]). split.
  { intros w [->|(later & -> & Hlen & Hl)]%redirected; [by left|right]. exists later. split; [done|]. split; [done|].
    eapply List.Forall_impl; [|exact Hl]. intros r'. by eapply redirect_says_no_more. }
  rewrite Hok, Hst. unfold parse_response. split.
  - destruct x as [resp|]; simpl; [|done]. destruct (whole (chunks resp)); simpl; [|done].
    destruct (is_success (status resp)) eqn:Hsu; simpl; [|done]. destruct (read a); simpl; [|done]. eauto.
  - intros resp bytes -> Hw Hsu. simpl. rewrite Hw. simpl. rewrite Hsu. simpl. by rewrite status_of_classified.
Qed.

Lemma reason_checked reason : is_ok (require_reason reason) = true -> trim reason <> [].
Proof. unfold require_reason. destruct (bool_decide _) eqn:E; [done|]. intros _. by apply bool_decide_eq_false in E. Qed.

(** ** Properties *)

(** C9: a change to what the Cloud does is signed, accounted for, and never
    claimed without the Cloud's word.  A kill, a budget, a unit cap or an
    acknowledgement either ends before anything is sent or journaled; or the
    client was ready, the override had a reason, and exactly one line is handed
    to the journal (when there is one), naming the target, the operator, the
    decision and the reason, and a success says whether the journal acknowledged
    it.  At most one request is handed to the HTTP client: to the path that
    names this id and no other, with the amount asked for as its body, or none,
    and a signature over exactly that path and that body.  The client follows
    redirects: what it puts on the wire is that request and up to ten more, none
    with another body, another bearer or a signature over anything else.  The
    command succeeds only when the last answer is a 2xx, and a refusal is
    journaled with the status answered. *)
Theorem mutation_is_signed_and_accounted {HC : HttpClient} {HL : HttpClientLaws} sc st m :
  ran [] (money_mutation sc st m) (fun r tr =>
    (tr = [] /\ is_ok r = false) \/
    exists c, st = Ready c /\ (forall reason, reason_of m = Some reason -> trim reason <> []) /\ accounted sc c m r tr).
Proof.
  destruct m as [id reason|id usd reason|unit usd reason|id]; cbn [money_mutation].
  - unfold money_kill_run. destruct (require_reason reason) eqn:Er; [|simpl; auto].
    destruct st as [| | |c]; try (simpl; by auto). cbn [ready_client].
    eapply ran_mono; [apply ran_attempt|]. intros r tr H. right. exists c. split; [done|]. split.
    { intros ? [= <-]. apply reason_checked. by rewrite Er. }
    by apply (attempted_accounted _ _ _ (KillRun id reason)) in H.
  - unfold money_set_budget. destruct (require_reason reason) eqn:Er; [|simpl; auto].
    destruct st as [| | |c]; try (simpl; by auto). cbn [ready_client].
    eapply ran_mono; [apply ran_attempt|]. intros r tr H. right. exists c. split; [done|]. split.
    { intros ? [= <-]. apply reason_checked. by rewrite Er. }
    by apply (attempted_accounted _ _ _ (SetBudget id usd reason)) in H.
  - unfold money_set_unit_budget. destruct (require_reason reason) eqn:Er; [|simpl; auto].
    destruct (validate_unit_cap unit usd); [|simpl; auto].
    destruct st as [| | |c]; try (simpl; by auto). cbn [ready_client].
    eapply ran_mono; [apply ran_attempt|]. intros r tr H. right. exists c. split; [done|]. split.
    { intros ? [= <-]. apply reason_checked. by rewrite Er. }
    by apply (attempted_accounted _ _ _ (SetUnitBudget unit usd reason)) in H.
  - unfold money_ack_incident. destruct st as [| | |c]; try (simpl; by auto). cbn [ready_client].
    eapply ran_mono; [apply ran_attempt|]. intros r tr H. right. exists c. split; [done|]. split; [done|].
    by apply (attempted_accounted _ _ _ (AckIncident id)) in H.
Qed.
End MoneyProofs.

(** An id is one path segment and nothing else.  The encoded id decodes to
    exactly its own bytes, so two ids never share a path; it holds no slash
    and none of the characters a URL parser treats as syntax; and it is never
    empty, [.] or [..]. *)
Theorem path_segment_round_trip id seg :
  valid_str id -> path_segment id = Ok seg ->
  percent_decode seg = Some (str_bytes id) /\
  Forall (fun c => is_literal_pchar c = true \/ c = 37) seg /\
  47 ∉ seg /\ seg <> [] /\ seg <> #"." /\ seg <> #"..".
Proof.
  intros Hid H. unfold path_segment in H. destruct (bool_decide (id = [])) eqn:He; [done|].
  destruct (str_eqb id #"." || str_eqb id #"..") eqn:Hd; [done|].
  assert (Hseg : flat_map encode_byte (str_bytes id) = seg) by (by injection H). clear H. subst seg.
  assert (Hb := utf8_bytes id Hid). assert (Hdec := percent_decode_bytes _ Hb).
  assert (Hchars : Forall (fun c => is_literal_pchar c = true \/ c = 37) (flat_map encode_byte (str_bytes id))).
  { revert Hb. generalize (str_bytes id). induction 1 as [|b bs H1 _ IH]; simpl; [constructor|].
    apply Forall_app_2; [by apply encode_byte_chars|done]. }
  assert (Hinj : forall t, valid_str t -> str_bytes id = str_bytes t -> id = t).
  { intros t Ht E. rewrite <- (from_utf8_lossy_bytes id), E by done. by apply from_utf8_lossy_bytes. }
  apply orb_false_iff in Hd as [Hd1 Hd2]. apply str_eqb_neq in Hd1, Hd2. apply bool_decide_eq_false in He.
  split; [done|]. split; [done|]. split.
  { intros Hin. rewrite List.Forall_forall in Hchars. apply list_elem_of_In, Hchars in Hin as [Hin|]; [|done].
    by apply literal_not_special in Hin as [_ Hn]. }
  assert (Hof : forall t, valid_str t -> percent_decode (str_bytes t) = Some (str_bytes t) -> str_bytes t = t ->
            id <> t -> flat_map encode_byte (str_bytes id) <> t).
  { intros t Ht Hp Hself Hne E. apply Hne, Hinj; [done|]. rewrite E, <- Hself, Hp in Hdec at 1. congruence. }
  split; [|split]; (apply Hof; [apply (bool_decide_unpack _); by vm_compute|done|done|done]).
Qed.

Lemma path_segment_round_trip_witness :
  exists seg, path_segment #"a/b ..%" = Ok seg /\ percent_decode seg = Some (str_bytes #"a/b ..%") /\
    Forall (fun c => is_literal_pchar c = true \/ c = 37) seg /\ 47 ∉ seg /\ seg <> [] /\ seg <> #"." /\ seg <> #"..".
Proof.
  exists #"a%2Fb%20..%25". split; [by vm_compute|].
  apply (path_segment_round_trip #"a/b ..%" #"a%2Fb%20..%25"); [apply (bool_decide_unpack _); by vm_compute|by vm_compute].
Defined.

(** ** A concrete Cloud

    It lists an open run of an agent, one already killed and one of another
    agent, and confirms a kill. *)
Definition demo_run (id agent : string) (k : bool) : RunAgg := mkRun (lit id) #"m" (lit agent) 0 0 0 0 0 k.
Definition demo_cloud : CloudWire := {|
  read_kill bs := Ok bs;
  read_budget _ := Err #"no"; read_unit_budget _ := Err #"no"; read_ack _ := Err #"no";
  read_runs _ := Ok [demo_run "r1" "agent://a/b" false; demo_run "r2" "agent://a/b" true; demo_run "r3" "agent://a/c" false];
  read_pair_new _ := Err #"no"; read_pair _ := Err #"no";
  read_plan_required _ := None; read_error _ := None;
  show_f64 _ := []; show_f64_4 _ := [];
|}.
Definition demo_device : Device :=
  mkDevice #"dev" #"tok" (mkSigner SoftwareP256 (Ok [1]) (fun m => Ok (firstn 4 m))).
Definition demo_money : MoneyInner :=
  Ready (mkMoneyClient (mkClient #"http://cloud" #"key" (Some demo_device)) #"acme" #"user://acme/os" #"box" #"software-signed" true).
Definition demo_world (tr : list event) (o : op) : resp o :=
  match o return resp o with
  | Send r => Ok (mkResponse 200 [Ok (if str_eqb (method r) #"POST" && contains #"/kill" (url r) then #"r1" else [])])
  | Draw => (Some 7, Ok [1; 2])
  | Clock => 0
  | Seed => (Ok [], 0, 0)
  | Now => 0
  | Random => Ok (repeat 7 16)
  | Journal _ _ _ => Ok tt
  end.

Definition demo_text : JsonText := {| json_of _ := None; json_text _ := [] |}.
Definition nobody : Scope := mkScope None None (fun _ => None).
Definition demo_kill : result MutationOutcome MoneyError * list event :=
  play demo_world [] (@money_mutation demo_primitives demo_text demo_cloud nobody demo_money (KillRun #"r1" #"loop")).

Lemma mutation_is_signed_and_accounted_witness :
  is_ok demo_kill.1 = true /\ exists rec, records demo_kill.2 = [rec] /\ acknowledged demo_kill.2 = [rec] /\ target rec = #"r1".
Proof.
  pose proof (play_ran demo_world [] _ _
    (@mutation_is_signed_and_accounted demo_primitives demo_text demo_cloud demo_http demo_http_laws nobody demo_money (KillRun #"r1" #"loop"))) as H.
  fold demo_kill in H. assert (is_ok demo_kill.1 = true) as Hok by (vm_compute; reflexivity). split; [exact Hok|].
  destruct H as [[_ Hn]|(c & Hc & _ & rec & Hr & Ha & Ht & _)]; [congruence|]. injection Hc as <-. exists rec.
  split; [exact Hr|]. split; [|exact Ht].
  destruct demo_kill.1 as [o|] eqn:E; [|discriminate Hok]. rewrite (Ha o eq_refl).
  assert (match demo_kill.1 with Ok o => bus_recorded o | Err _ => false end = true) as Hb by (vm_compute; reflexivity).
  rewrite E in Hb. rewrite Hb. reflexivity.
Defined.
