(* ===== verification/Delegation.v ===== *)
(** * Delegation: cutting off an agent
    ([crates/api/src/delegation/env.rs], [commands.rs], [stop.rs])

    The console bans an agent at its issuer (vouchryx), kills its open runs
    through the Cloud, and writes every step into its own journal.  Both
    services answer as they like; a command is a program over those answers. *)
From S2P Require Import Prelude Text Json Signing Jcs Ingest Command Http Prog Effects Cloud.

(** ** Where vouchryx is, and the key ([env.rs]) *)

Definition URL_VAR : str := #"GENARYX_VOUCHRYX_URL".
Definition KEY_FILE_VAR : str := #"GENARYX_VOUCHRYX_REVOKE_KEY_FILE".

Inductive RevokeConfig : Type :=
| NotConfigured
| Configured (vouchryx_url revoke_key : str).

(** [RevokeKey::new]. *)
Definition revoke_key_of (key : str) : option str :=
  if bool_decide (trim key = []) then None else Some (trim key).

Definition validate_url (url : str) : result str str :=
  let t := trim url in
  if negb (starts_with #"http://" t || starts_with #"https://" t)
  then Err (URL_VAR ++ #" (" ++ url ++ #") must start with http:// or https://")
  else Ok (base_url_of t).

(** [read_file] answers the text of a file, or the error of the system. *)
Definition read_key_file (read_file : str -> result str str) (path : str) : result str str :=
  match read_file path with
  | Err e => Err (KEY_FILE_VAR ++ #" (" ++ path ++ #") cannot be read: " ++ e)
  | Ok raw =>
      if bool_decide (trim raw = []) then Err (KEY_FILE_VAR ++ #" (" ++ path ++ #") is empty") else Ok (trim raw)
  end.

Definition unless_blank (o : option str) : option str :=
  let! s := o in if bool_decide (trim s = []) then None else Some s.

Definition resolve_from (read_file : str -> result str str) (url key_file : option str) : result RevokeConfig str :=
  match unless_blank url, unless_blank key_file with
  | None, None => Ok NotConfigured
  | Some url, Some path =>
      let? url := validate_url url in
      let? key := read_key_file read_file path in
      Ok (Configured url key)
  | Some _, None => Err (URL_VAR ++ #" is set but " ++ KEY_FILE_VAR ++ #" is not: delegation_revoke needs both or neither")
  | None, Some _ => Err (KEY_FILE_VAR ++ #" is set but " ++ URL_VAR ++ #" is not: delegation_revoke needs both or neither")
  end.

(** ** One revocation ([commands.rs]) *)

Inductive RevokeTarget : Type := Jti (j : str) | Subject (s : str).
Definition MAX_REASON_LEN : Z := 500.
Definition MAX_RESPONSE_BYTES : Z := 64 * 1024.

Inductive DelegationError : Type :=
| RevokeNotConfigured
| ExactlyOneTarget
| BadSubject (subject : str)
| BadReason (chars : Z)
| Refused (status : Z) (error : str)
| NotDurable
| Unreachable (detail : str)
| Unconfirmed (body : value).

Record RevokeOutcome : Type := mkRevoked
  { rv_status : Z; rv_verify : str; vouchryx_response : value; rv_recorded : bool; rv_bus_error : option str }.

(** The trimmed reason, or the number of characters that refuses it. *)
Definition checked_reason (reason : str) : result str Z :=
  let chars := chars_count (trim reason) in
  if (chars =? 0) || (MAX_REASON_LEN <? chars) then Err chars else Ok (trim reason).

Definition validate_args (subject jti : option str) (reason : str) : result (RevokeTarget * str) DelegationError :=
  let? target :=
    match subject, jti with
    | Some s, None =>
        if negb (starts_with #"agent://" s || starts_with #"user://" s) then Err (BadSubject s) else Ok (Subject s)
    | None, Some j => Ok (Jti j)
    | _, _ => Err ExactlyOneTarget
    end in
  let? reason := map_err BadReason (checked_reason reason) in
  Ok (target, reason).

Definition read_capped_body (cs : list (result (list Z) str)) : result (list Z) str :=
  read_chunks MAX_RESPONSE_BYTES (fun e => #"reading vouchryx's response: " ++ e)
    (#"vouchryx's response exceeded " ++ dec MAX_RESPONSE_BYTES ++ #" bytes; refused to read further") [] cs.

Inductive CallOutcome : Type :=
| HttpAnswer (status : Z) (body : value)
| NotConfirmed (body : value)
| NoAnswer (detail : str).

Section Vouchryx.
Context {JT : JsonText}.

(** What an answer is read as: its status, and its body as JSON, or as text
    when it is not JSON. *)
Definition read_answer (x : result Response str) : result (Z * value) str :=
  let? r := x in
  let? raw := read_capped_body (chunks r) in
  Ok (status r, default (VStr (from_utf8_lossy raw)) (json_of raw)).

Definition vouchryx_request (url revoke_key : str) (body : value) : Request :=
  mkRequest #"POST" url (Some revoke_key) [json_header] (str_bytes (json_text body)).

Definition post_capped (url revoke_key : str) (body : value) : program (result (Z * value) str) :=
  do x <- Send (vouchryx_request url revoke_key body); Ret (read_answer x).

(** [RevokeRequest]: serde writes a struct in the order of its fields. *)
Definition revoke_request (jti subject actor reason : str) : value :=
  VObj [(#"jti", VStr jti); (#"subject", VStr subject); (#"actor", VStr actor); (#"reason", VStr reason)].

Definition revoke_url (vouchryx_url : str) : str := vouchryx_url ++ #"/v1/revoke".

Definition call_vouchryx (vouchryx_url revoke_key : str) (body : value) : program (result value CallOutcome) :=
  do! r <- post_capped (revoke_url vouchryx_url) revoke_key body;
  Ret (match r with
       | Err detail => Err (NoAnswer detail)
       | Ok (status, parsed) =>
           if negb (status =? 200) then Err (HttpAnswer status parsed)
           else if get_true #"revoked" parsed then Ok parsed else Err (NotConfirmed parsed)
       end).

(** The status, the verdict and the error of one outcome. *)
Definition fold_outcome (outcome : result value CallOutcome) : Z * str * value * option DelegationError :=
  match outcome with
  | Ok resp => (200, #"revoked:true", resp, None)
  | Err (HttpAnswer status body) =>
      let code := default #"unknown" (get_str #"error" body) in
      if status =? 503 then (status, #"not_durable", body, Some NotDurable)
      else (status, #"refused:" ++ code, body, Some (Refused status code))
  | Err (NoAnswer detail) => (0, #"unreachable: " ++ detail, VNull, Some (Unreachable detail))
  | Err (NotConfirmed body) => (200, #"200 without revoked:true confirmation", body, Some (Unconfirmed body))
  end.

Definition console_operator (sc : Scope) : str := operator_or sc (#"user://" ++ org_domain sc ++ #"/operator").

Definition delegation_revoke (sc : Scope) (config : RevokeConfig) (bus : bool) (subject jti : option str) (reason : str)
  : program (result RevokeOutcome DelegationError) :=
  match validate_args subject jti reason with
  | Err e => Ret (Err e)
  | Ok (target, reason) =>
      match config with
      | NotConfigured => Ret (Err RevokeNotConfigured)
      | Configured vouchryx_url revoke_key =>
          let actor := console_operator sc in
          let '(jti_field, subject_field) := match target with Jti j => (j, []) | Subject s => ([], s) end in
          let label := match target with Jti j => #"jti:" ++ j | Subject s => s end in
          do! outcome <- call_vouchryx vouchryx_url revoke_key (revoke_request jti_field subject_field actor reason);
          let '(http_status, verify_result, response, result_err) := fold_outcome outcome in
          let '(sig_alg, sig_fpr) := signature_or sc #"software-signed" #"software-signed" in
          do! written <- journal sc bus (org_domain sc)
            (mkCommand actor (org_domain sc) #"console.revoke_delegation" label (obj [(#"reason", VStr reason)])
               #"break_glass" sig_alg sig_fpr http_status verify_result);
          Ret (match result_err with
               | None => Ok (mkRevoked http_status verify_result response written.1 written.2)
               | Some e => Err e
               end)
      end
  end.
End Vouchryx.

(** ** Stopping and lifting ([stop.rs]) *)

Definition CEREMONY_ALG : str := #"webauthn-es256".
Definition MAX_RUNS_PER_STOP : nat := Z.to_nat 500.

Record StopStep : Type := mkStep
  { sstep : str; starget : str; sok : bool; sstatus : Z; sverify : str; journaled : bool; journal_error : option str }.

Record StopOutcome : Type := mkStopped
  { so_subject : str; stopped : bool; ban_durable : option bool; open_runs : option nat; runs_killed : nat;
    warnings : list str; stop_steps : list StopStep }.
Record LiftOutcome : Type := mkLifted
  { lo_subject : str; lifted : bool; lift_durable : option bool; lift_warnings : list str; lift_steps : list StopStep }.

Inductive StopError : Type :=
| InvalidSubject (subject : str)
| InvalidReason (chars : Z)
| NotStopped (outcome : StopOutcome)
| NotLifted (outcome : LiftOutcome).

Definition is_agent_id (s : str) : bool :=
  match strip_prefix #"agent://" s with
  | None => false
  | Some rest =>
      match split_once [47] rest with
      | None => false
      | Some (domain, path) =>
          negb (bool_decide (domain = [])) && negb (bool_decide (path = []))
          && forallb (fun b => ascii_lower b || ascii_digit b || (b =? 46) || (b =? 45)) (str_bytes domain)
          && forallb (fun b => ascii_lower b || ascii_digit b || existsb (Z.eqb b) #"._/-") (str_bytes path)
      end
  end.

Definition validate (subject reason : str) : result (str * str) StopError :=
  if negb (is_agent_id subject) then Err (InvalidSubject subject)
  else let? reason := map_err InvalidReason (checked_reason reason) in Ok (subject, reason).

(** [Steps]: what every line of the action shares, and the list so far. *)
Record Steps : Type := mkSteps
  { s_bus : bool; s_org : str; s_host : str; s_actor : str; s_reason : str; s_alg : str; s_fpr : str; s_action : str;
    s_list : list StopStep }.

Definition steps_for (sc : Scope) (bus : bool) (action reason : str) : Steps :=
  let '(alg, fpr) := signature_or sc #"software-signed" #"software-signed" in
  mkSteps bus (org_domain sc) (default #"console" (env_var sc #"HOSTNAME")) (console_operator sc) reason alg fpr action [].

Definition push (s : Steps) (st : StopStep) : Steps :=
  mkSteps (s_bus s) (s_org s) (s_host s) (s_actor s) (s_reason s) (s_alg s) (s_fpr s) (s_action s) (s_list s ++ [st]).

Definition step_record (s : Steps) (step target : str) (http_status : Z) (verify : str) : CommandRecord :=
  let action := if str_eqb step #"verdict" then s_action s else s_action s ++ #"." ++ step in
  mkCommand (s_actor s) (s_org s) action target
    (obj [(#"reason", VStr (s_reason s)); (#"step", VStr step)]) #"break_glass" (s_alg s) (s_fpr s) http_status verify.

(** [Steps::record]. *)
Definition record_step (s : Steps) (step target : str) (ok : bool) (http_status : Z) (verify : str) : program Steps :=
  do! written <- journal_on (s_bus s) (s_org s) (s_host s) (step_record s step target http_status verify);
  Ret (push s (mkStep step target ok http_status verify written.1 written.2)).

Definition record_ceremony (s : Steps) (subject : str) (warnings : list str) : program (Steps * list str) :=
  let '(verify, warnings) :=
    if str_eqb (s_alg s) CEREMONY_ALG then (#"confirmed:" ++ CEREMONY_ALG, warnings)
    else (#"not_confirmed:no_passkey_enrolled",
          warnings ++ [ #"no passkey confirmed this action: the caller has none enrolled, so it ran on the session alone (GENARYX_WEB_ALLOW_SOFTWARE_CEREMONY is set; the default refuses such an action)"]) in
  do! s <- record_step s #"ceremony" subject true 0 verify;
  Ret (s, warnings).

Record Answer : Type := mkAnswer { a_ok : bool; a_status : Z; a_verify : str; a_durable : option bool }.

Definition refused (status : Z) (body : value) : Answer :=
  let code := default #"unknown" (get_str #"error" body) in
  mkAnswer false status (if status =? 503 then #"not_durable:" ++ code else #"refused:" ++ code) None.

Definition not_configured : Answer :=
  mkAnswer false 0 #"not_configured: GENARYX_VOUCHRYX_URL and GENARYX_VOUCHRYX_REVOKE_KEY_FILE are unset" None.

Section Stop.
Context {PR : Primitives} {JT : JsonText} {CW : CloudWire}.
(** [{:?}] of a string. *)
Context (debug_str : str -> str).

Definition ban_body (subject actor reason : str) : value :=
  obj [(#"jti", VStr []); (#"subject", VStr subject); (#"actor", VStr actor); (#"reason", VStr reason);
       (#"ban", VBool true)].

(** What vouchryx's answer to a ban says. *)
Definition ban_answer (r : result (Z * value) str) : Answer :=
  match r with
  | Err detail => mkAnswer false 0 (#"unreachable: " ++ detail) None
  | Ok (status, answer) =>
      if status =? 200 then
        match get_true #"revoked" answer, get_true #"banned" answer with
        | true, true =>
            let durable := get_true #"durable" answer in
            mkAnswer true 200 (if durable then #"banned:durable" else #"banned:not_durable") (Some durable)
        | true, false =>
            mkAnswer false 200 #"revoked_not_banned: vouchryx revoked the tokens the agent holds and did not confirm a ban, so new tokens can still be issued" None
        | _, _ => mkAnswer false 200 #"200 without revoked:true confirmation" None
        end
      else refused status answer
  end.

Definition ban_at_vouchryx (config : RevokeConfig) (subject actor reason : str) : program Answer :=
  match config with
  | NotConfigured => Ret not_configured
  | Configured vouchryx_url revoke_key =>
      do! r <- post_capped (revoke_url vouchryx_url) revoke_key (ban_body subject actor reason);
      Ret (ban_answer r)
  end.

Definition lift_answer (r : result (Z * value) str) : Answer :=
  match r with
  | Err detail => mkAnswer false 0 (#"unreachable: " ++ detail) None
  | Ok (status, answer) =>
      if status =? 200 then
        if get_true #"lifted" answer then
          let durable := get_true #"durable" answer in
          mkAnswer true 200 (if durable then #"lifted:durable" else #"lifted:not_durable") (Some durable)
        else mkAnswer false 200 #"200 without lifted:true confirmation" None
      else refused status answer
  end.

Definition lift_at_vouchryx (config : RevokeConfig) (subject actor reason : str) : program Answer :=
  match config with
  | NotConfigured => Ret not_configured
  | Configured vouchryx_url revoke_key =>
      do! r <- post_capped (vouchryx_url ++ #"/v1/revoke/lift") revoke_key
                 (obj [(#"subject", VStr subject); (#"actor", VStr actor); (#"reason", VStr reason)]);
      Ret (lift_answer r)
  end.

Definition cloud_client (st : MoneyInner) : result CloudClient str :=
  match st with
  | Ready c => Ok (client c)
  | StillBootstrapping => Err #"the Cloud connection is still starting"
  | NoMoneyEnvironment => Err #"no TokenFuse Cloud is configured"
  | MoneyPairingFailed reason => Err (#"the Cloud connection failed: " ++ reason)
  end.

(** The agent's open runs, the newest first. *)
Definition open_runs_of (subject : str) (runs : list RunAgg) : list RunAgg :=
  isort (fun a b => last_seen_millis b <=? last_seen_millis a)
    (List.filter (fun r => str_eqb (agent_id r) subject && negb (killed r)) runs).

(** What the answer to one kill is recorded as. *)
Definition kill_verdict (id : str) (r : result str ConnectorError) : bool * Z * str :=
  match r with
  | Ok killed =>
      if str_eqb killed id then (true, 200, #"killed:true")
      else (false, 200, #"unconfirmed: the Cloud answered killed=" ++ debug_str killed)
  | Err e => (false, status_of e, #"error: " ++ connector_error_text e)
  end.

(** The kill loop: the steps, the kills confirmed and the kills failed. *)
Fixpoint kill_all (c : CloudClient) (open : list RunAgg) (s : Steps) (done failed : nat) : program (Steps * nat * nat) :=
  match open with
  | [] => Ret (s, done, failed)
  | run :: open =>
      do! r <- kill_run c (run_id run);
      let '(ok, http_status, verify) := kill_verdict (run_id run) r in
      do! s <- record_step s #"kill_run" (run_id run) ok http_status verify;
      if ok then kill_all c open s (S done) failed else kill_all c open s done (S failed)
  end.

Record Kills : Type := mkKills
  { k_steps : Steps; k_open : option nat; k_done : nat; k_failed : nat; k_not_attempted : nat }.

(** Part (c) of [agent_stop]: list the runs, then kill them. *)
Definition kill_open_runs (st : MoneyInner) (subject : str) (s : Steps) : program Kills :=
  match cloud_client st with
  | Err why =>
      do! s <- record_step s #"list_runs" subject false 0 (#"error: " ++ why);
      Ret (mkKills s None 0 0 0)
  | Ok c =>
      do! r <- runs c;
      match r with
      | Err e =>
          do! s <- record_step s #"list_runs" subject false (status_of e) (#"error: " ++ connector_error_text e);
          Ret (mkKills s None 0 0 0)
      | Ok listed =>
          let open := open_runs_of subject listed in
          let n := length open in
          do! s <- record_step s #"list_runs" subject true 200 (#"listed:" ++ dec (Z.of_nat n) ++ #" open");
          do! k <- kill_all c (firstn MAX_RUNS_PER_STOP open) s 0 0;
          let '(s, done, failed) := k in
          Ret (mkKills s (Some n) done failed (n - MAX_RUNS_PER_STOP))
      end
  end.

Definition stop_verdict (ban : Answer) (k : Kills) (stopped : bool) : str :=
  if stopped then
    if bool_decide (a_durable ban = Some true) then #"stopped" else #"stopped:ban_not_durable"
  else
    let why :=
      (if a_ok ban then [] else [ #"ban " ++ a_verify ban]) ++
      match k_open k with
      | None => [ #"runs not listed"]
      | Some n =>
          (if (0 <? k_failed k)%nat
           then [dec (Z.of_nat (k_failed k)) ++ #" of " ++ dec (Z.of_nat n) ++ #" run kill(s) failed"] else []) ++
          (if (0 <? k_not_attempted k)%nat
           then [dec (Z.of_nat (k_not_attempted k)) ++ #" run(s) over the limit of " ++
                 dec (Z.of_nat MAX_RUNS_PER_STOP) ++ #" not attempted"] else [])
      end in
    #"not_stopped: " ++ join #"; " why.

Definition agent_stop (sc : Scope) (config : RevokeConfig) (st : MoneyInner) (bus : bool) (subject reason : str)
  : program (result StopOutcome StopError) :=
  match validate subject reason with
  | Err e => Ret (Err e)
  | Ok (subject, reason) =>
      do! cw <- record_ceremony (steps_for sc bus #"console.stop_agent" reason) subject [];
      let '(s, warnings) := cw in
      do! ban <- ban_at_vouchryx config subject (s_actor s) (s_reason s);
      do! s <- record_step s #"ban" subject (a_ok ban) (a_status ban) (a_verify ban);
      let warnings := warnings ++
        (if bool_decide (a_durable ban = Some false)
         then [ #"the ban is not durable: vouchryx keeps no revocation store, so restarting it lifts the ban"] else []) in
      do! k <- kill_open_runs st subject s;
      let stopped := a_ok ban && bool_decide (k_open k = Some (k_done k)) in
      do! s <- record_step (k_steps k) #"verdict" subject stopped 0 (stop_verdict ban k stopped);
      let outcome := mkStopped subject stopped (a_durable ban) (k_open k) (k_done k) warnings (s_list s) in
      Ret (if stopped then Ok outcome else Err (NotStopped outcome))
  end.

Definition agent_lift (sc : Scope) (config : RevokeConfig) (bus : bool) (subject reason : str)
  : program (result LiftOutcome StopError) :=
  match validate subject reason with
  | Err e => Ret (Err e)
  | Ok (subject, reason) =>
      do! cw <- record_ceremony (steps_for sc bus #"console.lift_agent" reason) subject [];
      let '(s, warnings) := cw in
      do! lift <- lift_at_vouchryx config subject (s_actor s) (s_reason s);
      do! s <- record_step s #"lift" subject (a_ok lift) (a_status lift) (a_verify lift);
      let warnings := warnings ++
        (if bool_decide (a_durable lift = Some false)
         then [ #"the lift is not durable: vouchryx keeps no revocation store"] else []) in
      do! s <- record_step s #"verdict" subject (a_ok lift) 0
                 (if a_ok lift then #"lifted" else #"not_lifted: " ++ a_verify lift);
      let outcome := mkLifted subject (a_ok lift) (a_durable lift) warnings (s_list s) in
      Ret (if a_ok lift then Ok outcome else Err (NotLifted outcome))
  end.
End Stop.

(** ** Lemmas *)

Section StopProofs.
Context {PR : Primitives} {JT : JsonText} {CW : CloudWire} (debug_str : str -> str).

(** The journal lines of the steps taken so far. *)
Definition lines (s : Steps) : list CommandRecord :=
  if s_bus s then map (fun st => step_record s (sstep st) (starget st) (sstatus st) (sverify st)) (s_list s) else [].
(** The journal holds the steps taken, and nothing else. *)
Definition audited (s : Steps) (tr : list event) : Prop := records tr = lines s.

(** [s'] is [s] with more steps. *)
Definition extends (s s' : Steps) (new : list StopStep) : Prop :=
  s' = mkSteps (s_bus s) (s_org s) (s_host s) (s_actor s) (s_reason s) (s_alg s) (s_fpr s) (s_action s) (s_list s ++ new).

Lemma extends_nil s : extends s s [].
Proof. unfold extends. rewrite app_nil_r. by destruct s. Qed.
Lemma extends_trans s1 s2 s3 n1 n2 : extends s1 s2 n1 -> extends s2 s3 n2 -> extends s1 s3 (n1 ++ n2).
Proof. unfold extends. intros -> ->. simpl. by rewrite app_assoc. Qed.
Lemma extends_push s st : extends s (push s st) [st].
Proof. done. Qed.

(** Recording a step: the journal and the list stay together, no request is
    sent. *)
Definition recorded (s : Steps) (tr : list event) (s' : Steps) (tr' : list event) (new : list StopStep) : Prop :=
  extends s s' new /\ (audited s tr -> audited s' tr').

Lemma ran_record_step s step target ok status verify tr (post : Steps -> list event -> Prop) :
  (forall st s' tr', recorded s tr s' tr' [st] -> sent tr' = sent tr ->
     sstep st = step -> starget st = target -> sok st = ok -> sstatus st = status -> sverify st = verify -> post s' tr') ->
  ran tr (record_step s step target ok status verify) post.
Proof.
  intros H. unfold record_step. apply ran_bind, ran_journal_on. intros r tr' Hl. simpl.
  apply (H (mkStep step target ok status verify r.1 r.2)); [|by rewrite (sent_line _ _ _ _ Hl)|done..].
  split; [apply extends_push|]. unfold audited, lines. intros Ha.
  rewrite (records_line _ _ _ _ Hl), Ha. simpl. destruct (s_bus s); [|done]. by rewrite map_app.
Qed.

Lemma recorded_trans s1 tr1 s2 tr2 s3 tr3 n1 n2 :
  recorded s1 tr1 s2 tr2 n1 -> recorded s2 tr2 s3 tr3 n2 -> recorded s1 tr1 s3 tr3 (n1 ++ n2).
Proof. intros [H1 A1] [H2 A2]. split; [by eapply extends_trans|auto]. Qed.

(** Sending keeps the journal. *)
Lemma recorded_records s tr tr' : records tr' = records tr -> recorded s tr s tr' [].
Proof. intros E. split; [apply extends_nil|]. unfold audited. by rewrite E. Qed.

(** ** The kill loop *)

Definition kill_sent (c : CloudClient) (run : RunAgg) (q : Request * result Response str) : Prop :=
  exists d seg, device c = Some d /\ path_segment (run_id run) = Ok seg /\
    signed_for d (base_url c) (#"/v1/runs/" ++ seg ++ #"/kill") q.1.
(** The Cloud answered this kill with this run's id. *)
Definition kill_confirmed (c : CloudClient) (run : RunAgg) (q : Request * result Response str) : Prop :=
  kill_sent c run q /\ parse_response read_kill q.2 = Ok (run_id run).

Definition killed_all (c : CloudClient) (open : list RunAgg) (s : Steps) (tr : list event) (n f : nat)
  (out : Steps * nat * nat) (tr' : list event) : Prop :=
  exists new sends,
    recorded s tr out.1.1 tr' new /\ map starget new = map run_id open /\
    sent tr' = sent tr ++ sends /\ Forall (fun q => exists run, run ∈ open /\ kill_sent c run q) sends /\
    (out.1.2 + out.2 = n + f + length open)%nat /\ (n <= out.1.2 <= n + length open)%nat /\
    (out.1.2 = (n + length open)%nat -> forall run, run ∈ open -> exists q, q ∈ sends /\ kill_confirmed c run q).

Lemma ran_kill_run c id tr :
  ran tr (kill_run c id) (fun r tr' =>
    records tr' = records tr /\
    ((sent tr' = sent tr /\ exists e, r = Err e) \/
     exists d seg q, device c = Some d /\ path_segment id = Ok seg /\
       signed_for d (base_url c) (#"/v1/runs/" ++ seg ++ #"/kill") q.1 /\ sent tr' = sent tr ++ [q] /\
       r = parse_response read_kill q.2)).
Proof.
  eapply ran_mono; [apply ran_post_to|]. simpl.
  intros r tr' [(_ & -> & e & -> & _)|(seg & Hseg & Hr & [(Hs & e & -> & _)|(d & req & x & Hd & Hs & -> & Hf & _)])]; [by eauto 10..|].
  split; [done|]. right. by exists d, seg, (req, x).
Qed.

Lemma ran_kill_all c open s tr n f :
  ran tr (kill_all debug_str c open s n f) (killed_all c open s tr n f).
Proof.
  revert s tr n f. induction open as [|run open IH]; intros s tr n f.
  { simpl. exists [], []. rewrite app_nil_r. split; [by apply recorded_records|].
    do 2 (split; [done|]). split; [constructor|]. simpl. split; [lia|]. split; [lia|]. intros _ r Hr. by apply elem_of_nil in Hr. }
  cbn [kill_all]. apply ran_bind. eapply ran_mono; [apply ran_kill_run|]. cbn beta.
  intros r tr1 [Hr Hcases].
  destruct (kill_verdict debug_str (run_id run) r) as [[ok st] vr] eqn:Hv.
  apply ran_bind, ran_record_step. intros step s2 tr2 Hrec Hsent2 _ Htgt _ _ _.
  assert (Hone : exists sends1, sent tr2 = sent tr ++ sends1 /\ Forall (kill_sent c run) sends1 /\
            (ok = true -> exists q, q ∈ sends1 /\ kill_confirmed c run q)).
  { rewrite Hsent2. destruct Hcases as [[Hs (e & ->)]|(d & seg & q & Hd & Hseg & Hf & Hs & ->)].
    - exists []. rewrite app_nil_r. split; [done|]. split; [constructor|]. injection Hv as <- _ _. done.
    - assert (kill_sent c run q) by by exists d, seg.
      exists [q]. split; [done|]. split; [by constructor|]. intros ->. exists q. split; [by left|]. split; [done|].
      unfold kill_verdict in Hv. destruct (parse_response _ _) as [k|]; [|done].
      destruct (str_eqb k (run_id run)) eqn:Ek; [|done]. by apply str_eqb_eq in Ek as ->. }
  destruct Hone as (sends1 & Hs1 & Hall1 & Hok1).
  assert (Hgo : forall n' f', ((if ok then S n else n) = n') -> ((if ok then f else S f) = f') ->
            ran tr2 (kill_all debug_str c open s2 n' f') (killed_all c (run :: open) s tr n f)).
  { intros n' f' Hn Hf'. eapply ran_mono; [apply IH|]. intros [[s3 n3] f3] tr3 (new & sends & Hrec3 & Htg & Hs3 & Hall & Hsum & Hle & Hdone).
    cbn [fst snd] in *. exists ([step] ++ new), (sends1 ++ sends).
    split; [eapply recorded_trans; [|exact Hrec3]; destruct Hrec as [He Ha]; split; [done|]; intros Hau; apply Ha; unfold audited in *; by rewrite Hr|].
    split; [simpl; by rewrite Htgt, Htg|]. split; [by rewrite Hs3, Hs1, app_assoc|]. split.
    { apply Forall_app_2.
      - eapply Forall_impl; [exact Hall1|]. intros q Hq. exists run. split; [by left|done].
      - eapply Forall_impl; [exact Hall|]. intros q (r' & Hin & Hq). exists r'. split; [by right|done]. }
    cbn [fst snd length]. split; [destruct ok; lia|]. split; [destruct ok; lia|].
    intros Heq r' Hin. destruct ok; [|lia]. apply elem_of_cons in Hin as [->|Hin].
    - destruct (Hok1 eq_refl) as (q & Hq & Hc). exists q. rewrite elem_of_app. auto.
    - destruct (Hdone ltac:(lia) r' Hin) as (q & Hq & Hc). exists q. rewrite elem_of_app. auto. }
  destruct ok; by apply Hgo.
Qed.

(** ** The whole stop *)

Definition ban_request (url key subject actor reason : str) : Request :=
  vouchryx_request (revoke_url url) key (ban_body subject actor reason).
Definition list_request (c : CloudClient) : Request :=
  mkRequest #"GET" (base_url c ++ #"/v1/runs") (Some (bearer_token c)) [] [].

Lemma ran_ban config subject actor reason tr :
  ran tr (ban_at_vouchryx config subject actor reason) (fun a tr' =>
    records tr' = records tr /\
    ((sent tr' = sent tr /\ a_ok a = false) \/
     exists url key x, config = Configured url key /\
       sent tr' = sent tr ++ [(ban_request url key subject actor reason, x)] /\ a = ban_answer (read_answer x))).
Proof.
  unfold ban_at_vouchryx. destruct config as [|url key]; simpl; [auto|].
  split; [done|]. intros _ x. rewrite records_app, sent_app, app_nil_r. split; [done|]. right. by exists url, key, x.
Qed.

Lemma ban_answer_ok r : a_ok (ban_answer r) = true ->
  exists answer, r = Ok (200, answer) /\ get_true #"revoked" answer = true /\ get_true #"banned" answer = true.
Proof.
  unfold ban_answer, refused. destruct r as [[status answer]|]; [|done].
  destruct (status =? 200) eqn:Hs; [|done]. apply Z.eqb_eq in Hs as ->.
  destruct (get_true #"revoked" answer) eqn:Hr, (get_true #"banned" answer) eqn:Hb; try done. intros _. by exists answer.
Qed.

(** What listing and killing did, from the list's answer. *)
Definition swept (st : MoneyInner) (subject : str) (s : Steps) (tr : list event) (k : Kills) (tr' : list event) : Prop :=
  exists new sends, recorded s tr (k_steps k) tr' new /\ sent tr' = sent tr ++ sends /\
    ((k_open k = None /\ k_done k = 0%nat /\
      (sends = [] \/ exists c x, cloud_client st = Ok c /\ sends = [(list_request c, x)] /\
         is_ok (parse_response read_runs x) = false)) \/
     exists c x listed kills, cloud_client st = Ok c /\ sends = (list_request c, x) :: kills /\
       parse_response read_runs x = Ok listed /\
       let open := open_runs_of subject listed in
       k_open k = Some (length open) /\
       Forall (fun q => exists run, run ∈ open /\ kill_sent c run q) kills /\
       (forall run, run ∈ firstn MAX_RUNS_PER_STOP open -> run_id run ∈ map starget new) /\
       (k_done k = length open -> forall run, run ∈ open -> exists q, q ∈ kills /\ kill_confirmed c run q)).

Lemma ran_runs c tr :
  ran tr (runs c) (fun r tr' => records tr' = records tr /\
    exists x, sent tr' = sent tr ++ [(list_request c, x)] /\ r = parse_response read_runs x).
Proof. simpl. split; [done|]. intros _ x. rewrite records_app, sent_app, app_nil_r. eauto. Qed.

Lemma ran_sweep st subject s tr : ran tr (kill_open_runs debug_str st subject s) (swept st subject s tr).
Proof.
  unfold kill_open_runs. destruct (cloud_client st) as [c|why] eqn:Ec.
  2:{ apply ran_bind, ran_record_step. intros step s' tr' Hrec Hs _ _ _ _ _. simpl.
      exists [step], []. rewrite app_nil_r. split; [done|]. split; [done|]. left. auto. }
  apply ran_bind. eapply ran_mono; [apply ran_runs|]. intros r tr1 (Hr1 & x & Hs1 & ->).
  apply recorded_records with (s := s) in Hr1.
  destruct (parse_response read_runs x) as [listed|e] eqn:Ep.
  2:{ apply ran_bind, ran_record_step. intros step s' tr' Hrec Hs _ _ _ _ _. simpl.
      exists ([] ++ [step]), [(list_request c, x)]. split; [by eapply recorded_trans|]. split; [by rewrite Hs, Hs1|].
      left. split; [done|]. split; [done|]. right. exists c, x. by rewrite Ep. }
  cbn zeta. apply ran_bind, ran_record_step. intros step s2 tr2 Hrec2 Hs2 _ _ _ _ _.
  apply ran_bind. eapply ran_mono; [apply ran_kill_all|].
  intros [[s3 n] f] tr3 (new & kills & Hrec3 & Htg & Hs3 & Hall & Hsum & Hle & Hdone). simpl.
  exists (([] ++ [step]) ++ new), ((list_request c, x) :: kills).
  split; [eapply recorded_trans; [by eapply recorded_trans|exact Hrec3]|].
  split; [by rewrite Hs3, Hs2, Hs1, <- app_assoc|].
  right. exists c, x, listed, kills. do 4 (split; [done|]). cbn [fst snd] in *.
  assert (Hsub : forall run, run ∈ firstn MAX_RUNS_PER_STOP (open_runs_of subject listed) -> run ∈ open_runs_of subject listed).
  { intros run Hin. rewrite <- (firstn_skipn MAX_RUNS_PER_STOP (open_runs_of subject listed)). apply elem_of_app. by left. }
  split.
  { eapply Forall_impl; [exact Hall|]. intros q (run & Hin & Hq). eauto. }
  split.
  { intros run Hin. rewrite map_app, elem_of_app. right. rewrite Htg. by apply list_elem_of_fmap_2. }
  intros Hn run Hin. cbn [k_done] in Hn.
  assert (Hfull : firstn MAX_RUNS_PER_STOP (open_runs_of subject listed) = open_runs_of subject listed).
  { apply firstn_all2. rewrite length_firstn in Hle. lia. }
  rewrite Hfull in *. apply Hdone; [lia|done].
Qed.

Lemma ran_ceremony s subject w tr (post : Steps * list str -> list event -> Prop) :
  (forall st s' w' tr', recorded s tr s' tr' [st] -> sent tr' = sent tr -> sstep st = #"ceremony" -> post (s', w') tr') ->
  ran tr (record_ceremony s subject w) post.
Proof.
  intros H. unfold record_ceremony. destruct (str_eqb _ _); apply ran_bind, ran_record_step;
    intros st s' tr' Hrec Hs Hst _ _ _ _; simpl; by eapply H.
Qed.

(** Everything the two properties need of one stop. *)
Definition outcome_of (r : result StopOutcome StopError) : option StopOutcome :=
  match r with Ok o => Some o | Err (NotStopped o) => Some o | Err _ => None end.

Lemma open_runs_mem subject listed run :
  run ∈ open_runs_of subject listed <-> run ∈ listed /\ agent_id run = subject /\ killed run = false.
Proof.
  unfold open_runs_of. rewrite elem_of_isort, list_elem_of_In, filter_In, <- list_elem_of_In, andb_true_iff, negb_true_iff.
  by rewrite str_eqb_eq.
Qed.

Lemma ran_stop sc config st bus subject reason :
  ran [] (agent_stop debug_str sc config st bus subject reason) (fun r tr =>
    match validate subject reason with
    | Err e => r = Err e /\ tr = []
    | Ok (subject, reason) =>
        exists o ban k s2 tr2 steps, outcome_of r = Some o /\ is_ok r = stopped o /\ so_subject o = subject /\ open_runs o = k_open k /\
          stopped o = a_ok ban && bool_decide (k_open k = Some (k_done k)) /\
          recorded (steps_for sc bus #"console.stop_agent" reason) [] s2 tr2 steps /\
          (exists new last s3, extends (k_steps k) s3 [last] /\ stop_steps o = s_list s3 /\
             recorded (steps_for sc bus #"console.stop_agent" reason) [] s3 tr (steps ++ new ++ [last]) /\
             sstep last = #"verdict" /\ sok last = stopped o) /\
          ((sent tr2 = [] /\ a_ok ban = false) \/
           exists url key x, config = Configured url key /\
             sent tr2 = [(ban_request url key subject (console_operator sc) reason, x)] /\ ban = ban_answer (read_answer x)) /\
          exists tr3, swept st subject s2 tr2 k tr3 /\ sent tr = sent tr3
    end).
Proof.
  unfold agent_stop. destruct (validate subject reason) as [[subj why]|e]; [|by simpl].
  assert (Hsf : s_actor (steps_for sc bus #"console.stop_agent" why) = console_operator sc /\
                s_reason (steps_for sc bus #"console.stop_agent" why) = why).
  { unfold steps_for. by destruct (signature_or _ _ _). }
  apply ran_bind, ran_ceremony. intros st1 s1 w1 tr1 Hrec1 Hs1 _. cbn beta iota.
  destruct Hrec1 as [He1 Ha1]. assert (Hact : s_actor s1 = console_operator sc /\ s_reason s1 = why) by (by rewrite He1).
  destruct Hact as [-> ->]. apply ran_bind. eapply ran_mono; [apply ran_ban|]. intros ban tr1b (Hrb & Hban).
  apply recorded_records with (s := s1) in Hrb.
  apply ran_bind, ran_record_step. intros st2 s2 tr2 Hrec2 Hs2 _ _ _ _ _. cbn zeta.
  assert (Hto2 : recorded (steps_for sc bus #"console.stop_agent" why) [] s2 tr2 ([st1] ++ [] ++ [st2])).
  { eapply recorded_trans; [by split|]. by eapply recorded_trans. }
  apply ran_bind. eapply ran_mono; [apply ran_sweep|]. intros k tr3 Hsw.
  apply ran_bind, ran_record_step. intros st4 s4 tr4 Hrec4 Hs4 Hst4 _ Hok4 _ _. cbn [wp].
  assert (Hk := Hsw). destruct Hk as (new & sends & Hreck & _).
  match goal with |- context [mkStopped ?a ?b ?c ?d ?e ?f ?g] => exists (mkStopped a b c d e f g) end.
  exists ban, k, s2, tr2, ([st1] ++ [] ++ [st2]). split; [|split; [|split; [|split; [|split; [|split; [exact Hto2|split; [|split]]]]]]].
  - by destruct (a_ok ban && _).
  - by destruct (a_ok ban && _).
  - done.
  - done.
  - done.
  - exists new, st4, s4. split; [by destruct Hrec4|]. split; [done|].
    split; [|done]. eapply recorded_trans; [exact Hto2|]. by eapply recorded_trans.
  - rewrite Hs2. rewrite Hs1 in Hban. destruct Hban as [[-> Hb]|(url & key & x & -> & -> & ->)]; [by left|right].
    by exists url, key, x.
  - by exists tr3.
Qed.

(** ** Properties *)

(** C6: a stop that is reported is a stop.  [agent_stop] answers [Ok] only
    when vouchryx confirmed, for this agent, both the revocation and the ban
    in an answer of status 200; and the Cloud listed its runs, and for every
    listed run of this agent that was still open a signed kill of that run's
    own path was sent and answered with that run's id.  In every other case
    the outcome says the agent was not stopped, or nothing at all was done. *)
Theorem stopped_agent_is_banned_and_killed sc config st bus subject reason :
  ran [] (agent_stop debug_str sc config st bus subject reason) (fun r tr =>
    match r with
    | Ok o =>
        so_subject o = subject /\ stopped o = true /\
        (exists url key x answer, config = Configured url key /\
           (ban_request url key subject (console_operator sc) (trim reason), x) ∈ sent tr /\
           read_answer x = Ok (200, answer) /\ get_true #"revoked" answer = true /\ get_true #"banned" answer = true) /\
        exists c x listed, cloud_client st = Ok c /\ (list_request c, x) ∈ sent tr /\
          parse_response read_runs x = Ok listed /\
          forall run, run ∈ listed -> agent_id run = subject -> killed run = false ->
            exists q, q ∈ sent tr /\ kill_confirmed c run q
    | Err (NotStopped o) => so_subject o = subject /\ stopped o = false
    | Err _ => tr = []
    end).
Proof.
  eapply ran_mono; [apply ran_stop|]. cbn beta. intros r tr H.
  destruct (validate subject reason) as [[subj why]|e] eqn:Hv.
  2:{ destruct H as [-> ->]. unfold validate, checked_reason in Hv. repeat case_match; simplify_eq/=; done. }
  assert (subj = subject /\ why = trim reason) as [-> ->].
  { unfold validate, checked_reason in Hv. repeat case_match; simplify_eq/=; done. }
  destruct H as (o & ban & k & s2 & tr2 & steps & Ho & Hok & Hsub & _ & Hst & _ & _ & Hban & tr3 & Hsw & Hs).
  destruct r as [o'|[| |o'|]]; simplify_eq/=; [|by rewrite <- Hok].
  symmetry in Hok. rewrite Hok in Hst. symmetry in Hst. apply andb_true_iff in Hst as [Hbok Hopen].
  apply bool_decide_eq_true in Hopen.
  destruct Hban as [[_ Hb]|(url & key & x & -> & Hs2 & ->)]; [congruence|].
  destruct Hsw as (new & sends & _ & Hs3 & Hcase). rewrite Hs, Hs3, Hs2.
  split; [done|]. split; [done|]. split.
  - apply ban_answer_ok in Hbok as (answer & Ha & Hr & Hb). exists url, key, x, answer.
    split; [done|]. split; [|done]. apply elem_of_app. left. by left.
  - destruct Hcase as [(Hnone & _)|(c & x' & listed & kills & Hc & -> & Hp & Hlen & _ & _ & Hdone)]; [congruence|].
    exists c, x', listed. split; [done|]. split; [apply elem_of_app; right; by left|]. split; [done|].
    intros run Hin Hag Hkl. rewrite Hlen in Hopen. injection Hopen as Hn.
    destruct (Hdone (eq_sym Hn) run) as (q & Hq & Hc'); [by apply open_runs_mem|].
    exists q. split; [|done]. apply elem_of_app. right. by right.
Qed.

(** A stop is journaled step by step, reaches for every run it may, and
    touches nothing else.  When the console has a journal it holds exactly one
    line per step shown to the operator, in order, the last being the verdict.
    The first five hundred open runs of the agent each have a step, whether or
    not the ban held.  And every request sent is the ban, the listing, or a
    signed kill of an open run of this agent. *)
Theorem stop_is_journaled_and_bounded sc config st bus subject reason :
  ran [] (agent_stop debug_str sc config st bus subject reason) (fun r tr =>
    forall o, outcome_of r = Some o ->
      (exists s, records tr = lines s /\ s_list s = stop_steps o /\ s_bus s = bus /\ s_reason s = trim reason /\
         s_actor s = console_operator sc /\ s_action s = #"console.stop_agent") /\
      (exists front last, stop_steps o = front ++ [last] /\ sstep last = #"verdict" /\ sok last = stopped o) /\
      (forall q, q ∈ sent tr ->
         (exists url key, q.1 = ban_request url key subject (console_operator sc) (trim reason)) \/
         exists c, cloud_client st = Ok c /\
           (q.1 = list_request c \/ exists run, agent_id run = subject /\ killed run = false /\ kill_sent c run q)) /\
      (forall n, open_runs o = Some n -> exists c x listed, cloud_client st = Ok c /\ (list_request c, x) ∈ sent tr /\
         parse_response read_runs x = Ok listed /\ n = length (open_runs_of subject listed) /\
         forall run, run ∈ firstn MAX_RUNS_PER_STOP (open_runs_of subject listed) -> run_id run ∈ map starget (stop_steps o))).
Proof.
  eapply ran_mono; [apply ran_stop|]. cbn beta. intros r tr H o Ho.
  destruct (validate subject reason) as [[subj why]|e] eqn:Hv.
  2:{ destruct H as [-> ->]. unfold validate, checked_reason in Hv. repeat case_match; simplify_eq/=; done. }
  assert (subj = subject /\ why = trim reason) as [-> ->].
  { unfold validate, checked_reason in Hv. repeat case_match; simplify_eq/=; done. }
  destruct H as (o' & ban & k & s2 & tr2 & steps & Ho' & Hok & Hsub & Hko & Hst & Hr2 & (new & last & s3 & Hex & Hsteps & Hr3 & Hlast & Hlok)
    & Hban & tr3 & Hsw & Hs).
  rewrite Ho in Ho'. injection Ho' as <-. destruct Hr3 as [He3 Ha3].
  split; [|split; [|split]].
  - exists s3. split; [by apply Ha3; unfold audited, lines, steps_for; destruct (signature_or _ _ _), bus|].
    split; [done|]. rewrite He3. unfold steps_for. by destruct (signature_or _ _ _).
  - rewrite Hsteps, Hex. simpl. exists (s_list (k_steps k)), last. done.
  - destruct Hsw as (new' & sends & _ & Hs3 & Hcase). intros q. rewrite Hs, Hs3, elem_of_app. intros [Hq|Hq].
    + left. destruct Hban as [[Hn _]|(url & key & x & _ & Hn & _)]; rewrite Hn in Hq; [by apply elem_of_nil in Hq|].
      apply list_elem_of_singleton in Hq as ->. by exists url, key.
    + right. destruct Hcase as [(_ & _ & [->|(c & x & Hc & -> & _)])|(c & x & listed & kills & Hc & -> & _ & _ & Hall & _)].
      * by apply elem_of_nil in Hq.
      * apply list_elem_of_singleton in Hq as ->. exists c. auto.
      * apply elem_of_cons in Hq as [->|Hq]; [exists c; auto|]. rewrite List.Forall_forall in Hall.
        apply list_elem_of_In, Hall in Hq as (run & Hin & Hk). apply open_runs_mem in Hin as (_ & Hag & Hkl).
        exists c. split; [done|]. right. by exists run.
  - intros n Hn. destruct Hsw as (new' & sends & [Hek _] & Hs3 & Hcase).
    destruct Hcase as [(Hnone & _)|(c & x & listed & kills & Hc & -> & Hp & Hlen & _ & Htg & _)]; [congruence|].
    exists c, x, listed. split; [done|]. split; [rewrite Hs, Hs3, elem_of_app; right; by left|]. split; [done|].
    split; [congruence|]. intros run Hin. rewrite Hsteps, Hex. cbn [s_list]. rewrite map_app, elem_of_app. left.
    rewrite Hek. cbn [s_list]. rewrite map_app, elem_of_app. right. by apply Htg.
Qed.
End StopProofs.

(** ** The grammar, and one revocation *)

Definition domain_char (c : Z) : bool := ascii_lower c || ascii_digit c || (c =? 46) || (c =? 45).
Definition path_char (c : Z) : bool := ascii_lower c || ascii_digit c || existsb (Z.eqb c) #"._/-".

Lemma ascii_class (p : Z -> bool) s :
  (forall c, p c = true -> 0 <= c < 128) -> forallb p (str_bytes s) = forallb p s.
Proof.
  intros Hp. induction s as [|c s IH]; [done|]. simpl. rewrite forallb_app, IH. f_equal.
  unfold utf8_enc. destruct (c <? 128) eqn:Hc; [simpl; by rewrite andb_true_r|].
  destruct (p c) eqn:Hpc; [apply Hp in Hpc; b2p; lia|].
  assert (Hno : forall b, 128 <= b -> p b = false).
  { intros b Hb. destruct (p b) eqn:E; [|done]. apply Hp in E. lia. }
  b2p. repeat case_match; simpl; rewrite Hno; try done; b2p; Z.to_euclidean_division_equations; lia.
Qed.

(** An agent id is exactly [agent://], a domain, a slash and a path. *)
Theorem is_agent_id_iff s :
  is_agent_id s = true <->
  exists domain path, s = #"agent://" ++ domain ++ [47] ++ path /\ domain <> [] /\ path <> [] /\
    forallb domain_char domain = true /\ forallb path_char path = true.
Proof.
  assert (Hd : forall c, domain_char c = true -> 0 <= c < 128).
  { intros c. unfold domain_char, ascii_lower, ascii_digit. intros. b2p. lia. }
  assert (Hp : forall c, path_char c = true -> 0 <= c < 128).
  { intros c Hc. unfold path_char in Hc. apply orb_true_iff in Hc as [Hc|Hc].
    - unfold ascii_lower, ascii_digit in Hc. b2p. lia.
    - apply existsb_exists in Hc as (x & Hx & E). apply Z.eqb_eq in E as ->. vm_compute in Hx. intuition lia. }
  unfold is_agent_id. split.
  - destruct (strip_prefix _ s) as [rest|] eqn:E1; [|done]. apply strip_prefix_Some in E1 as ->.
    destruct (split_once [47] rest) as [[d p]|] eqn:E2; [|done]. apply split_once_Some in E2 as ->.
    intros H. exists d, p. repeat (apply andb_true_iff in H as [H ?]). rewrite !negb_true_iff, !bool_decide_eq_false in *.
    rewrite <- (ascii_class domain_char d), <- (ascii_class path_char p) by done. done.
  - intros (d & p & -> & Hdn & Hpn & Hdc & Hpc). rewrite strip_prefix_app. change ([47] ++ p) with (47 :: p).
    rewrite split_once_char_app.
    2:{ intros Hin. rewrite forallb_forall in Hdc. apply list_elem_of_In, Hdc in Hin. by vm_compute in Hin. }
    rewrite (ascii_class (fun b => ascii_lower b || ascii_digit b || (b =? 46) || (b =? 45))) by done.
    rewrite (ascii_class (fun b => ascii_lower b || ascii_digit b || existsb (Z.eqb b) #"._/-")) by done.
    rewrite !andb_true_iff, !negb_true_iff, !bool_decide_eq_false. done.
Qed.

(** A revocation is never assumed: whatever vouchryx answers, the command
    succeeds only on a 200 whose body says [revoked: true]; one request at
    most is sent, and if it was sent the journal (when there is one) holds
    exactly one line, with the status of the answer. *)
Theorem revocation_is_never_assumed {JT : JsonText} sc config bus subject jti reason :
  ran [] (delegation_revoke sc config bus subject jti reason) (fun r tr =>
    (tr = [] /\ is_ok r = false) \/
    exists req x rec, sent tr = [(req, x)] /\ records tr = (if bus then [rec] else []) /\
      trim reason <> [] /\ decision rec = #"break_glass" /\ params rec = obj [(#"reason", VStr (trim reason))] /\
      (is_ok r = true <-> exists answer, read_answer x = Ok (200, answer) /\ get_true #"revoked" answer = true) /\
      http_status rec = match read_answer x with Ok (status, _) => status | Err _ => 0 end).
Proof.
  unfold delegation_revoke. destruct (validate_args subject jti reason) as [[target why]|e] eqn:Hv; [|simpl; auto].
  assert (why = trim reason /\ trim reason <> []) as [-> Hne].
  { unfold validate_args, checked_reason in Hv. apply rbind_Ok in Hv as (t & _ & Hv).
    apply rbind_Ok in Hv as (w & Hw & [= <- <-]). destruct (_ || _) eqn:E in Hw; [done|]. injection Hw as <-.
    split; [done|]. intros Hn. rewrite Hn in E. done. }
  destruct config as [|url key]; [simpl; auto|].
  destruct (match target with Jti j => (j, []) | Subject s => ([], s) end) as [jf sf].
  apply ran_bind. unfold call_vouchryx, post_capped. apply ran_bind. cbn [wp]. split; [done|]. intros t x. cbn [wp event_of].
  destruct (fold_outcome _) as [[[hs vr] resp] err] eqn:Hf.
  destruct (signature_or sc _ _) as [alg fpr].
  apply ran_bind, ran_journal_on. intros w tr' Hl. cbn [wp]. right.
  eexists _, x, _. rewrite (records_line _ _ _ _ Hl), (sent_line _ _ _ _ Hl).
  split; [done|]. split; [done|]. split; [done|]. split; [done|]. split; [done|]. cbn [http_status].
  destruct (read_answer x) as [[status answer]|e].
  - destruct (status =? 200) eqn:Hs; cbn [negb] in Hf.
    + apply Z.eqb_eq in Hs as ->. destruct (get_true #"revoked" answer) eqn:Hrv; cbn [fold_outcome] in Hf; injection Hf as <- <- <- <-.
      * split; [|done]. split; [|done]. intros _. by exists answer.
      * split; [|done]. split; [done|]. intros (a & [= <-] & Hr). congruence.
    + assert (Hok : err <> None /\ hs = status).
      { cbn [fold_outcome] in Hf. destruct (status =? 503); injection Hf as <- <- <- <-; done. }
      destruct Hok as [Herr ->]. split; [|done]. split; [by destruct err|].
      intros (a & [= -> <-] & _). done.
  - cbn [fold_outcome] in Hf. injection Hf as <- <- <- <-. split; [|done]. split; [done|]. by intros (a & ? & _).
Qed.

(** ** A stop, played against one world

    vouchryx confirms a durable ban; the Cloud lists an open run of the agent,
    one already killed and one of another agent; the kill is confirmed. *)
Definition demo_reader : JsonText := {|
  json_of bytes := Some (obj [(#"revoked", VBool true); (#"banned", VBool true); (#"durable", VBool true)]);
  json_text _ := [];
|}.
Definition demo_scope : Scope := mkScope (Some #"alice") (Some (mkSignature CEREMONY_ALG #"cred")) (fun _ => None).
Definition demo_stop : result StopOutcome StopError * list event :=
  play demo_world []
    (@agent_stop demo_primitives demo_reader demo_cloud (fun s => s) demo_scope
       (Configured #"http://vouchryx" #"k") demo_money true #"agent://a/b" #" runaway ").

Example demo_stop_stops :
  match demo_stop.1 with
  | Ok o => stopped o = true /\ open_runs o = Some 1%nat /\ runs_killed o = 1%nat
  | Err _ => False
  end /\
  map (fun st => (sstep st, sok st)) (default [] (option_map stop_steps (rok demo_stop.1))) =
    [(#"ceremony", true); (#"ban", true); (#"list_runs", true); (#"kill_run", true); (#"verdict", true)] /\
  map url (map fst (sent demo_stop.2)) =
    [ #"http://vouchryx/v1/revoke"; #"http://cloud/v1/runs"; #"http://cloud/v1/runs/r1/kill"].
Proof. by vm_compute. Qed.
