(* ===== verification/Retained.v ===== *)
(** * Retained: closing a reservation the gateway kept
    ([crates/api/src/money/closure.rs], [retained.rs],
    [crates/connectors/src/gateway.rs])

    The gateway holds money for a call whose outcome it never learned.  A
    person closes it with evidence: the console checks the evidence, mints a
    token that binds the reservation, its revision and an expiry under a secret
    it shares with the gateway, and journals the attempt whatever comes of it.
    HMAC-SHA256 is another crate's: [Mac]. *)
From S2P Require Import Prelude Text Json Signing Jcs Ingest Command Http Prog Effects Cloud Delegation.

Class Mac := { hmac_sha256 : list Z -> list Z -> list Z }.
Class MacLaws `{Mac} := {
  mac_bytes key m : length (hmac_sha256 key m) = 32%nat /\ Forall (fun b => 0 <= b <= 255) (hmac_sha256 key m);
}.

(** ** The secret and the token ([closure.rs]) *)

Definition SECRET_FILE_VAR : str := #"GENARYX_CLOSURE_SECRET_FILE".
Definition MIN_SECRET_BYTES : Z := 32.
Definition TOKEN_TTL_MILLIS : Z := 120000.
Definition MAX_TOKEN_TTL_MILLIS : Z := 300000.
Definition MAC_DOMAIN : str := #"tokenfuse-closure-v1".

Inductive ClosureConfig : Type := ClosureOffHere | ClosureOn (secret : list Z).

Definition trim_ascii_whitespace (bytes : list Z) : list Z :=
  let drop := fix go l := match l with b :: l' => if ascii_white b then go l' else l | [] => [] end in
  rev (drop (rev (drop bytes))).

(** [from_secret_file]: [read] answers the bytes of a file. *)
Definition from_secret_file (read : str -> result (list Z) str) (path : option str) : result ClosureConfig str :=
  match (let! p := path in if bool_decide (trim p = []) then None else Some (trim p)) with
  | None => Ok ClosureOffHere
  | Some path =>
      let? raw := map_err (fun e => SECRET_FILE_VAR ++ #" (" ++ path ++ #") cannot be read: " ++ e) (read path) in
      let secret := trim_ascii_whitespace raw in
      if bool_decide (secret = []) then Err (SECRET_FILE_VAR ++ #" (" ++ path ++ #") is empty")
      else if Z.of_nat (length secret) <? MIN_SECRET_BYTES then
        Err (SECRET_FILE_VAR ++ #" (" ++ path ++ #") holds " ++ dec (Z.of_nat (length secret)) ++
             #" bytes; the closure secret must be at least " ++ dec MIN_SECRET_BYTES ++
             #" bytes, or unset the variable to turn closing off")
      else Ok (ClosureOn secret)
  end.

(** The bytes a token signs. *)
Definition mac_message (id : Z) (revision : str) (expiry_millis : Z) : str :=
  MAC_DOMAIN ++ [10] ++ dec id ++ [10] ++ revision ++ [10] ++ dec expiry_millis.
Definition mint_token {M : Mac} (secret : list Z) (id : Z) (revision : str) (expiry_millis : Z) : str :=
  #"v1." ++ dec id ++ [46] ++ revision ++ [46] ++ dec expiry_millis ++ [46] ++
  hex_bytes (hmac_sha256 secret (str_bytes (mac_message id revision expiry_millis))).
Definition expiry_for (now_millis : Z) : Z := i64_saturating (now_millis + TOKEN_TTL_MILLIS).

(** ** The gateway's client ([gateway.rs]) *)

Inductive GatewayError : Type :=
| GwTransport (e : str)
| GwJson (e : str)
| GwUnauthorized
| GwAdminKeysRequired
| GwApi (status : Z) (body : str)
| GwTooLarge (limit : Z).

Definition MAX_CLOSE_RESPONSE_BYTES : Z := 64 * 1024.
Definition CLOSURE_TOKEN_HEADER : str := #"x-fuse-closure-token".

Definition gateway_error_text (e : GatewayError) : str :=
  match e with
  | GwTransport e => #"http transport: " ++ e
  | GwJson e => #"json: " ++ e
  | GwUnauthorized => #"the gateway refused the presented key (401 unauthorized)"
  | GwAdminKeysRequired => #"the gateway requires TOKENFUSE_ADMIN_KEYS and refuses every request (403)"
  | GwApi status body => #"gateway returned HTTP " ++ dec status ++ #": " ++ body
  | GwTooLarge limit => #"the gateway's response exceeded " ++ dec limit ++ #" bytes; refused to read further"
  end.

Record Reservation : Type := mkReservation
  { reservation_id : Z; revision : str; rrun : str; chain : list str; amount_microusd : Z; unit_of : option str;
    rmodel : str; retained_at_millis : Z }.

(** serde's reader of the list. *)
Class RetainedWire := { read_retained : list Z -> result (list Reservation) str }.

Record GatewayClient : Type := mkGateway { gw_url : str; admin_key : option str }.
(** [GatewayClient::new], [with_admin_key]. *)
Definition new_gateway (base_url : str) : GatewayClient := mkGateway (base_url_of base_url) None.
Definition with_admin_key (c : GatewayClient) (key : option str) : GatewayClient := mkGateway (gw_url c) key.

Definition gateway_response {T} (read : list Z -> result T str) (x : result Response str) : result T GatewayError :=
  let? r := map_err GwTransport x in
  let? bytes := map_err GwTransport (whole (chunks r)) in
  if is_success (status r) then map_err GwJson (read bytes)
  else if status r =? 401 then Err GwUnauthorized
  else if (status r =? 403) && contains #"admin_keys_required" (from_utf8_lossy bytes) then Err GwAdminKeysRequired
  else Err (GwApi (status r) (from_utf8_lossy bytes)).

Record CloseAnswer : Type := mkCloseAnswer { ca_status : Z; ca_body : value }.

Section Gateway.
Context {JT : JsonText} {RW : RetainedWire}.

Definition get_retained (c : GatewayClient) : program (result (list Reservation) GatewayError) :=
  do x <- Send (mkRequest #"GET" (gw_url c ++ #"/v1/retained") (admin_key c) [] []);
  Ret (gateway_response read_retained x).

(** The client of a closure, which follows no redirect. *)
Definition closure_redirects : Redirects := NoRedirect.

(** What an answer to a closure is read as. *)
Definition close_answer (x : result Response str) : result CloseAnswer GatewayError :=
  let? r := map_err GwTransport x in
  let? raw := read_chunks MAX_CLOSE_RESPONSE_BYTES GwTransport (GwTooLarge MAX_CLOSE_RESPONSE_BYTES) [] (chunks r) in
  Ok (mkCloseAnswer (status r)
        (if bool_decide (raw = []) then VNull else default (VStr (from_utf8_lossy raw)) (json_of raw))).

Definition close_request (c : GatewayClient) (body : value) (token : str) : Request :=
  mkRequest #"POST" (gw_url c ++ #"/v1/retained/close") (admin_key c) [(CLOSURE_TOKEN_HEADER, token); json_header]
    (str_bytes (json_text body)).

Definition close_retained (c : GatewayClient) (body : value) (token : str) : program (result CloseAnswer GatewayError) :=
  do x <- Send (close_request c body token); Ret (close_answer x).
End Gateway.

(** ** The commands ([retained.rs]) *)

Definition MAX_EVIDENCE_REF_BYTES : Z := 512.
Inductive EvidenceKind : Type := Observed | NoCharge.
Definition evidence_str (k : EvidenceKind) : str := match k with Observed => #"observed" | NoCharge => #"no_charge" end.

Record CloseRetainedArgs : Type := mkClose
  { cl_id : Z; expected_revision : str; evidence_kind : EvidenceKind; observed_microusd : option Z; evidence_ref : str }.

Inductive RetainedError : Type :=
| RNotConfigured
| RBootstrapping
| RNoEnvironment
| RGatewayUnreachable (reason : str)
| RInvalidArgs (reason : str)
| RClosureOff
| RRefused (status : Z) (error message : str)
| RUnconfirmed (status : Z) (body : value)
| RUnreachable (detail : str).

Record CloseOutcome : Type := mkClosed
  { co_status : Z; co_verify : str; operation_id : str; replayed : bool; settled_microusd : option Z;
    gateway_answer : value; co_recorded : bool; co_bus_error : option str }.

Definition validate_close (args : CloseRetainedArgs) : result unit str :=
  let rev := expected_revision args in
  let ev := evidence_ref args in
  if negb (byte_len rev =? 16) || negb (forallb (fun b => ascii_digit b || ((97 <=? b) && (b <=? 102))) (str_bytes rev))
  then Err #"expected_revision must be the 16 lowercase hex digits GET /v1/retained lists"
  else if bool_decide (trim ev = []) || (MAX_EVIDENCE_REF_BYTES <? byte_len ev) || existsb is_control ev
  then Err (#"evidence_ref must name the evidence in 1 to " ++ dec MAX_EVIDENCE_REF_BYTES ++ #" bytes with no control characters")
  else match evidence_kind args, observed_microusd args with
       | Observed, None => Err #"an observed closure needs observed_microusd, the cost the evidence shows"
       | Observed, Some c => if c <? 0 then Err #"observed_microusd cannot be negative" else Ok tt
       | NoCharge, Some _ => Err #"a no_charge closure carries no observed_microusd: it releases at zero"
       | NoCharge, None => Ok tt
       end.

Definition refusal_of (body : value) : option str * str :=
  match get #"error" body with
  | Some (VObj o) =>
      (get_str #"type" (VObj o), default [] (get_str #"message" (VObj o)))
  | Some (VStr s) => (Some s, [])
  | _ => (None, [])
  end.

Definition list_error {JT : JsonText} (e : GatewayError) : RetainedError :=
  match e with
  | GwTransport e => RUnreachable e
  | GwTooLarge limit => RUnreachable (#"the gateway's response exceeded " ++ dec limit ++ #" bytes")
  | GwJson e => RUnconfirmed 200 (VStr (#"not a retained list: " ++ e))
  | GwUnauthorized =>
      RRefused 401 #"unauthorized" #"the gateway refused the console's key: check TOKENFUSE_GATEWAY_ADMIN_KEY against the gateway's TOKENFUSE_ADMIN_KEYS"
  | GwAdminKeysRequired =>
      RRefused 403 #"admin_keys_required" #"the gateway requires TOKENFUSE_ADMIN_KEYS on a non-loopback bind and the console holds no key (TOKENFUSE_GATEWAY_ADMIN_KEY is unset)"
  | GwApi status body =>
      let parsed := default VNull (json_of (str_bytes body)) in
      match status, refusal_of parsed with
      | 404, (None, _) => RClosureOff
      | _, (error, message) =>
          RRefused status (default #"unknown" error) (if bool_decide (message = []) then body else message)
      end
  end.

(** The credentials plane's state. *)
Inductive CredentialsInner : Type :=
| GwReady (c : GatewayClient)
| GwBootstrapping
| GwNoEnvironment
| GwUnreachable (reason : str).

Definition ready_gateway (st : CredentialsInner) : result GatewayClient RetainedError :=
  match st with
  | GwReady c => Ok c
  | GwBootstrapping => Err RBootstrapping
  | GwNoEnvironment => Err RNoEnvironment
  | GwUnreachable reason => Err (RGatewayUnreachable reason)
  end.

Definition kind_of (e : RetainedError) : str :=
  match e with
  | RNotConfigured => #"not_configured"
  | RBootstrapping => #"bootstrapping"
  | RNoEnvironment => #"no_environment"
  | RGatewayUnreachable _ => #"gateway_unreachable"
  | RInvalidArgs _ => #"invalid_args"
  | RClosureOff => #"closure_off"
  | RRefused _ _ _ => #"refused"
  | RUnconfirmed _ _ => #"unconfirmed"
  | RUnreachable _ => #"unreachable"
  end.

(** The first [n] bytes of an integer, the lowest first. *)
Fixpoint le_bytes (n : nat) (v : Z) : list Z :=
  match n with O => [] | S n => v mod 256 :: le_bytes n (v / 256) end.

(** [new_operation_id], from the seed the system gives. *)
Definition new_operation_id (seed : result (list Z) str * Z * Z) : str :=
  let '(buf, nanos, pid) := seed in
  let bytes := match buf with Ok bytes => bytes | Err _ => le_bytes 12 nanos ++ le_bytes 4 pid end in
  #"genaryx-" ++ hex_bytes bytes.

(** At most [max] bytes, cut between characters. *)
Fixpoint clip_to (room : Z) (s : str) : str :=
  match s with
  | c :: s => if utf8_len c <=? room then c :: clip_to (room - utf8_len c) s else []
  | [] => []
  end.
Definition clip (s : str) (max : Z) : str := if byte_len s <=? max then s else clip_to max s.

(** [Attempt::journal]: the record of one attempt. *)
Definition attempt_record (sc : Scope) (args : CloseRetainedArgs) (opid : str) (http_status : Z) (verify : str) : CommandRecord :=
  let '(sig_alg, sig_fpr) := signature_or sc #"software-signed" #"software-signed" in
  mkCommand (console_operator sc) (org_domain sc) #"console.close_retained" (#"reservation:" ++ dec (cl_id args))
    (obj [(#"reservation_id", VNum (NInt (cl_id args))); (#"expected_revision", VStr (clip (expected_revision args) 64));
          (#"operation_id", VStr opid); (#"evidence_kind", VStr (evidence_str (evidence_kind args)));
          (#"observed_microusd", opt_int (observed_microusd args));
          (#"evidence_ref", VStr (clip (evidence_ref args) MAX_EVIDENCE_REF_BYTES))])
    #"allow" sig_alg sig_fpr http_status verify.

Definition journal_attempt (sc : Scope) (bus : bool) (args : CloseRetainedArgs) (opid : str) (http_status : Z) (verify : str)
  : program (bool * option str) :=
  journal sc bus (org_domain sc) (attempt_record sc args opid http_status verify).

Definition close_body (args : CloseRetainedArgs) (opid : str) : value :=
  obj [(#"reservation_id", VNum (NInt (cl_id args))); (#"expected_revision", VStr (expected_revision args));
       (#"operation_id", VStr opid); (#"evidence_kind", VStr (evidence_str (evidence_kind args)));
       (#"observed_microusd", opt_int (observed_microusd args)); (#"evidence_ref", VStr (evidence_ref args))].

Section Commands.
Context {JT : JsonText} {RW : RetainedWire} {M : Mac}.

Definition money_list_retained (st : CredentialsInner) : program (result (list Reservation) RetainedError) :=
  match ready_gateway st with
  | Err e => Ret (Err e)
  | Ok c => do! r <- get_retained c; Ret (map_err list_error r)
  end.

(** An attempt that ends here: its journal line, then the error. *)
Definition refuse (sc : Scope) (bus : bool) (args : CloseRetainedArgs) (opid : str) (http_status : Z) (verify : str)
  (e : RetainedError) : program (result CloseOutcome RetainedError) :=
  do! _w <- journal_attempt sc bus args opid http_status verify; Ret (Err e).

(** What the gateway's answer makes of the attempt. *)
Definition conclude (sc : Scope) (bus : bool) (args : CloseRetainedArgs) (opid : str) (r : result CloseAnswer GatewayError)
  : program (result CloseOutcome RetainedError) :=
  match r with
  | Err e => refuse sc bus args opid 0 (#"unreachable: " ++ gateway_error_text e) (RUnreachable (gateway_error_text e))
  | Ok a =>
      let st := ca_status a in
      if (200 <=? st) && (st <? 300) then
        if negb (get_true #"closed" (ca_body a)) then
          refuse sc bus args opid st (dec st ++ #" without closed:true confirmation") (RUnconfirmed st (ca_body a))
        else
          let again := get_true #"replayed" (ca_body a) in
          let verify := if again then #"closed (replayed)" else #"closed" in
          do! written <- journal_attempt sc bus args opid st verify;
          Ret (Ok (mkClosed st verify opid again (let! v := get #"settled_microusd" (ca_body a) in as_i64 v) (ca_body a)
                     written.1 written.2))
      else
        let '(error, message) := refusal_of (ca_body a) in
        match error with
        | None =>
            if st =? 404 then refuse sc bus args opid st #"refused:closure_off" RClosureOff
            else refuse sc bus args opid st #"refused:unknown" (RRefused st #"unknown" message)
        | Some error => refuse sc bus args opid st (#"refused:" ++ error) (RRefused st error message)
        end
  end.

Definition money_close_retained (sc : Scope) (config : ClosureConfig) (st : CredentialsInner) (bus : bool)
  (args : CloseRetainedArgs) : program (result CloseOutcome RetainedError) :=
  do seed <- Seed;
  let opid := new_operation_id seed in
  match validate_close args with
  | Err reason => refuse sc bus args opid 0 #"refused:invalid_args" (RInvalidArgs reason)
  | Ok _ =>
      match config with
      | ClosureOffHere => refuse sc bus args opid 0 #"refused:not_configured" RNotConfigured
      | ClosureOn secret =>
          match ready_gateway st with
          | Err e => refuse sc bus args opid 0 (#"refused:" ++ kind_of e) e
          | Ok c =>
              do now <- Clock;
              do! answer <- close_retained c (close_body args opid)
                (mint_token secret (cl_id args) (expected_revision args) (expiry_for now));
              conclude sc bus args opid answer
          end
      end
  end.
End Commands.

(** ** Lemmas *)

Lemma clip_to_bound room s : 0 <= room -> byte_len (clip_to room s) <= room /\ clip_to room s `prefix_of` s.
Proof.
  revert room. induction s as [|c s IH]; intros room Hr; simpl; [split; [done|apply prefix_nil]|].
  destruct (utf8_len c <=? room) eqn:E; b2p; [|split; [done|apply prefix_nil]].
  destruct (IH (room - utf8_len c)) as [Hl Hp]; [lia|]. rewrite byte_len_cons. split; [lia|by apply prefix_cons].
Qed.

(** An oversized field never makes an oversized row. *)
Lemma clip_bound s max : 0 <= max -> byte_len (clip s max) <= max /\ clip s max `prefix_of` s.
Proof. intros. unfold clip. destruct (byte_len s <=? max) eqn:E; b2p; [done|by apply clip_to_bound]. Qed.

Lemma dec_digits n : 0 <= n -> Forall (fun c => ascii_digit c = true) (dec n).
Proof.
  intros Hn. unfold dec. replace (n <? 0) with false by (symmetry; b2p; lia).
  apply forallb_Forall. by apply dec_nat_spec.
Qed.

Lemma forallb_Forall_range s : forallb (fun c => (0 <=? c) && (c <? 128)) s = true -> Forall (fun c => 0 <= c < 128) s.
Proof. rewrite forallb_Forall. intros H. eapply Forall_impl; [exact H|]. intros c Hc. simpl in Hc. b2p. lia. Qed.

Lemma dec_no c n : 0 <= n -> ascii_digit c = false -> c ∉ dec n.
Proof.
  intros Hn Hc Hin. pose proof (dec_digits n Hn) as H. rewrite List.Forall_forall in H.
  apply list_elem_of_In, H in Hin. congruence.
Qed.

Lemma dec_inj n m : 0 <= n -> 0 <= m -> dec n = dec m -> n = m.
Proof.
  intros Hn Hm. unfold dec. replace (n <? 0) with false by (symmetry; b2p; lia).
  replace (m <? 0) with false by (symmetry; b2p; lia). by apply dec_nat_inj.
Qed.

Lemma field_inj c (a a' b b' : str) : c ∉ a -> c ∉ a' -> a ++ [c] ++ b = a' ++ [c] ++ b' -> a = a' /\ b = b'.
Proof.
  intros H H' E. apply (f_equal (split_once [c])) in E. simpl in E.
  rewrite !split_once_char_app in E by done. by simplify_eq.
Qed.

Lemma mac_message_inj id rev e id' rev' e' :
  0 <= id -> 0 <= id' -> 0 <= e -> 0 <= e' -> 10 ∉ rev -> 10 ∉ rev' ->
  mac_message id rev e = mac_message id' rev' e' -> id = id' /\ rev = rev' /\ e = e'.
Proof.
  intros Hi Hi' He He' Hr Hr' E. unfold mac_message in E. apply app_inv_head, app_inv_head in E.
  apply field_inj in E as [E1 E]; [|by apply dec_no..]. apply field_inj in E as [-> E]; [|done..].
  apply dec_inj in E1, E; auto.
Qed.

(** What one refused attempt adds. *)
Lemma ran_refuse sc bus args opid st verify e tr (post : result CloseOutcome RetainedError -> list event -> Prop) :
  (forall tr', line_of bus (attempt_record sc args opid st verify) tr tr' -> post (Err e) tr') ->
  ran tr (refuse sc bus args opid st verify e) post.
Proof. intros H. unfold refuse, journal_attempt. apply ran_bind, ran_journal_on. intros w tr' Hl. simpl. by apply H. Qed.

Section RetainedProofs.
Context {JT : JsonText} {RW : RetainedWire} {M : Mac}.

Definition closed_by (x : result Response str) : Prop :=
  exists a, close_answer x = Ok a /\ 200 <= ca_status a < 300 /\ get_true #"closed" (ca_body a) = true.
(** The status and the words of the journal's line: of the answer alone. *)
Definition verdict_of (x : result Response str) : Z * str :=
  match close_answer x with
  | Err e => (0, #"unreachable: " ++ gateway_error_text e)
  | Ok a =>
      (ca_status a,
       if (200 <=? ca_status a) && (ca_status a <? 300) then
         if get_true #"closed" (ca_body a)
         then #"closed" ++ if get_true #"replayed" (ca_body a) then #" (replayed)" else []
         else dec (ca_status a) ++ #" without closed:true confirmation"
       else #"refused:" ++ match (refusal_of (ca_body a)).1 with
                           | Some error => error
                           | None => if ca_status a =? 404 then #"closure_off" else #"unknown"
                           end)
  end.

Definition says_written (r : result CloseOutcome RetainedError) (rec : CommandRecord) (tr : list event) : Prop :=
  forall o, r = Ok o -> acknowledged tr = if co_recorded o then [rec] else [].

Lemma ran_conclude sc bus args opid x tr :
  acknowledged tr = [] ->
  ran tr (conclude sc bus args opid (close_answer x)) (fun r tr' =>
    let rec := attempt_record sc args opid (verdict_of x).1 (verdict_of x).2 in
    line_of bus rec tr tr' /\ says_written r rec tr' /\ (is_ok r = true <-> closed_by x)).
Proof.
  intros Hno. unfold conclude, verdict_of, closed_by. destruct (close_answer x) as [[st body]|e]; cbn [fst snd].
  2:{ apply ran_refuse. intros tr' Hl. split; [exact Hl|]. split; [done|]. split; [done|]. by intros (? & ? & _). }
  cbn [ca_status ca_body].
  assert (Href : forall st verify e, ~ (200 <= ca_status (mkCloseAnswer st body) < 300 /\ get_true #"closed" body = true) ->
     ran tr (refuse sc bus args opid st verify e) (fun r tr' =>
       line_of bus (attempt_record sc args opid st verify) tr tr' /\ says_written r (attempt_record sc args opid st verify) tr' /\
       (is_ok r = true <-> exists a, Ok (mkCloseAnswer st body) = @Ok CloseAnswer GatewayError a
          /\ 200 <= ca_status a < 300 /\ get_true #"closed" (ca_body a) = true))).
  { intros st' verify e Hn. apply ran_refuse. intros tr' Hl. split; [exact Hl|]. split; [done|]. split; [done|].
    intros (a & [= <-] & H). by destruct Hn. }
  destruct ((200 <=? st) && (st <? 300)) eqn:Hst.
  - destruct (get_true #"closed" body) eqn:Hc; cbn [negb]; [|apply Href; by intros [_ ?]].
    apply ran_bind, ran_journal_told. intros w tr' Hl Ha. rewrite Hno in Ha. cbn [wp].
    assert (Hw : (if get_true #"replayed" body then #"closed (replayed)" else #"closed")
                 = #"closed" ++ if get_true #"replayed" body then #" (replayed)" else [])
      by (destruct (get_true #"replayed" body); vm_compute; reflexivity).
    rewrite Hw in *. split; [exact Hl|]. split; [by intros o [= <-]|]. split; [|done]. intros _. eexists. split; [done|].
    b2p. cbn. split; [lia|exact Hc].
  - assert (Hn : ~ (200 <= ca_status (mkCloseAnswer st body) < 300 /\ get_true #"closed" body = true)) by (cbn; intros [? _]; b2p; lia).
    destruct (refusal_of body) as [[error|] message]; cbn [fst]; [by apply Href|].
    destruct (st =? 404); by apply Href.
Qed.

(** ** Properties *)

(** The request of a closure: to the gateway, under the console's key, with the
    evidence, the operation's id, and a token that binds the reservation and the
    revision until [expiry] under the secret. *)
Definition asks_to_close (c : GatewayClient) (secret : list Z) (args : CloseRetainedArgs) (opid : str) (expiry : Z)
  (req : Request) : Prop :=
  method req = #"POST" /\ url req = gw_url c ++ #"/v1/retained/close" /\ bearer req = admin_key c /\
  (#"x-fuse-closure-token",
   #"v1." ++ dec (cl_id args) ++ #"." ++ expected_revision args ++ #"." ++ dec expiry ++ #"." ++
   hex_bytes (hmac_sha256 secret (str_bytes (#"tokenfuse-closure-v1" ++ [10] ++ dec (cl_id args) ++ [10] ++
     expected_revision args ++ [10] ++ dec expiry)))) ∈ headers req /\
  exists v, body req = str_bytes (json_text v)
    /\ get #"reservation_id" v = Some (VNum (NInt (cl_id args))) /\ get_str #"expected_revision" v = Some (expected_revision args)
    /\ get_str #"operation_id" v = Some opid /\ get_str #"evidence_ref" v = Some (evidence_ref args)
    /\ get_str #"evidence_kind" v = Some match evidence_kind args with Observed => #"observed" | NoCharge => #"no_charge" end
    /\ get #"observed_microusd" v = Some match observed_microusd args with Some n => VNum (NInt n) | None => VNull end.

(** C38: an attempt to close a reservation is journaled once, whatever comes of
    it, and money moves only on the gateway's word.  What happens is exactly
    this: an operation id is drawn; a refusal of the console's own is one line
    handed to the journal (when there is one) that names it, and nothing is
    sent; otherwise, for valid evidence with a secret and a gateway, the clock
    is read, one request goes to the gateway with a token for this reservation,
    this revision and an expiry two minutes after that reading, and the line
    says the status and the verdict of the answer.  The line is made of the
    arguments, the id drawn, and those alone: never of the secret or the token.
    The request follows no redirect.  The command succeeds exactly on a 2xx
    whose body says [closed: true], and then says whether the journal
    acknowledged the line. *)
Theorem closure_attempt_is_journaled_once {HC : HttpClient} {HL : HttpClientLaws} sc config st bus args :
  ran [] (money_close_retained sc config st bus args) (fun r tr =>
    exists seed rec, says_written r rec tr /\
      ((exists e, r = Err e /\ rec = attempt_record sc args (new_operation_id seed) 0 (#"refused:" ++ kind_of e) /\
          line_of bus rec [Seeded seed] tr) \/
       exists c secret now req x, st = GwReady c /\ config = ClosureOn secret /\ validate_close args = Ok tt /\
         asks_to_close c secret args (new_operation_id seed) (i64_saturating (now + 120000)) req /\
         (forall w, on_the_wire closure_redirects req w -> w = [] \/ w = [req]) /\
         rec = attempt_record sc args (new_operation_id seed) (verdict_of x).1 (verdict_of x).2 /\
         line_of bus rec [Seeded seed; Read now; Sent req x] tr /\ (is_ok r = true <-> closed_by x))).
Proof.
  unfold money_close_retained. cbn [wp]. split; [done|]. intros t seed. cbn [event_of app].
  assert (Hearly : forall e, ran [Seeded seed] (refuse sc bus args (new_operation_id seed) 0 (#"refused:" ++ kind_of e) e)
    (fun r tr => exists seed rec, says_written r rec tr /\
      ((exists e, r = Err e /\ rec = attempt_record sc args (new_operation_id seed) 0 (#"refused:" ++ kind_of e) /\
          line_of bus rec [Seeded seed] tr) \/
       exists c secret now req x, st = GwReady c /\ config = ClosureOn secret /\ validate_close args = Ok tt /\
         asks_to_close c secret args (new_operation_id seed) (i64_saturating (now + 120000)) req /\
         (forall w, on_the_wire closure_redirects req w -> w = [] \/ w = [req]) /\
         rec = attempt_record sc args (new_operation_id seed) (verdict_of x).1 (verdict_of x).2 /\
         line_of bus rec [Seeded seed; Read now; Sent req x] tr /\ (is_ok r = true <-> closed_by x)))).
  { intros e. apply ran_refuse. intros tr Hl. exists seed. eexists. split; [done|]. left. exists e. done. }
  destruct (validate_close args) as [[]|reason] eqn:Hv; [|exact (Hearly (RInvalidArgs reason))].
  destruct config as [|secret]; [exact (Hearly RNotConfigured)|].
  destruct st as [c| | |why]; cbn [ready_gateway]; try apply Hearly.
  cbn [wp]. split; [done|]. intros t1 now. cbn [event_of app]. apply ran_bind. unfold close_retained. cbn [wp].
  split; [done|]. intros t2 x. cbn [event_of app].
  eapply ran_mono; [by apply ran_conclude|]. cbn beta zeta. intros r tr (Hl & Hw & Hok).
  exists seed. eexists. split; [exact Hw|]. right. exists c, secret, now. eexists. exists x.
  split; [done|]. split; [done|]. split; [done|]. split; [|split; [|split; [done|]; by split]].
  - split; [done|]. split; [done|]. split; [done|]. split; [by left|]. eexists. split; [done|]. repeat split.
  - by apply not_redirected.
Qed.

(** A token closes one reservation, at one revision, until one moment.
    The bytes the secret authenticates determine all three, and so does the
    token's text, whose five fields read back; and a token lives two minutes,
    inside the five the gateway accepts. *)
Theorem token_binds_one_closure {ML : MacLaws} secret id rev e id' rev' e' now :
  0 <= id -> 0 <= id' -> 0 <= e -> 0 <= e' -> Forall is_hex rev -> Forall is_hex rev' ->
  (str_bytes (mac_message id rev e) = str_bytes (mac_message id' rev' e') -> id = id' /\ rev = rev' /\ e = e') /\
  (mint_token secret id rev e = mint_token secret id' rev' e' -> id = id' /\ rev = rev' /\ e = e') /\
  split_char 46 (mint_token secret id rev e) =
    [ #"v1"; dec id; rev; dec e; hex_bytes (hmac_sha256 secret (str_bytes (mac_message id rev e)))] /\
  expiry_for now <= Z.max now i64_min + TOKEN_TTL_MILLIS /\ TOKEN_TTL_MILLIS <= MAX_TOKEN_TTL_MILLIS.
Proof.
  intros Hi Hi' He He' Hr Hr'.
  assert (Hno : forall c r, Forall is_hex r -> ~ is_hex c -> c ∉ r).
  { intros c r H Hc Hin. rewrite List.Forall_forall in H. by apply list_elem_of_In, H in Hin. }
  assert (Hascii : forall i r x, 0 <= i -> 0 <= x -> Forall is_hex r -> str_bytes (mac_message i r x) = mac_message i r x).
  { intros i r x H1 H2 H3. apply str_bytes_ascii. unfold mac_message.
    assert (Hd : forall n, 0 <= n -> Forall (fun c => 0 <= c < 128) (dec n)).
    { intros n Hn. eapply Forall_impl; [by apply dec_digits|]. intros c. unfold ascii_digit. intros. b2p. lia. }
    assert (Hlit : Forall (fun c => 0 <= c < 128) MAC_DOMAIN /\ Forall (fun c => 0 <= c < 128) [10]).
    { split; apply forallb_Forall_range; by vm_compute. }
    destruct Hlit as [Hm Hn]. repeat apply Forall_app_2; try done; try (by apply Hd).
    eapply Forall_impl; [exact H3|]. unfold is_hex. intros c Hc. simpl in Hc. lia. }
  assert (H46 : 46 ∉ rev /\ 46 ∉ rev') by (split; apply Hno; unfold is_hex; try done; lia).
  assert (H10 : 10 ∉ rev /\ 10 ∉ rev') by (split; apply Hno; unfold is_hex; try done; lia).
  split; [|split; [|split; [|split]]].
  - rewrite !Hascii by done. apply mac_message_inj; tauto.
  - unfold mint_token. intros E. apply app_inv_head in E.
    apply field_inj in E as [E1 E]; [|by apply dec_no..]. apply field_inj in E as [-> E]; [|tauto..].
    apply field_inj in E as [E2 E]; [|by apply dec_no..]. apply dec_inj in E1, E2; auto.
  - unfold mint_token. change (#"v1." ++ ?t) with (#"v1" ++ 46 :: t).
    rewrite split_char_app by (apply (bool_decide_unpack _); by vm_compute).
    cbn [app]. rewrite split_char_app by (by apply dec_no). rewrite split_char_app by tauto.
    rewrite split_char_app by (by apply dec_no). rewrite split_char_none; [done|].
    apply Hno; [|unfold is_hex; lia]. apply hex_bytes_chars, mac_bytes.
  - unfold expiry_for, i64_saturating, TOKEN_TTL_MILLIS, i64_min, i64_max. lia.
  - done.
Qed.
End RetainedProofs.

(** A mac for the witness: 32 bytes that depend on the message's length. *)
#[local] Instance demo_mac : Mac := {| hmac_sha256 key m := replicate 32 (Z.of_nat (length m) mod 256) |}.
#[local] Instance demo_mac_laws : MacLaws.
Proof.
  split. intros key m. split; [apply length_replicate|]. unfold hmac_sha256, demo_mac. apply Forall_replicate.
  pose proof (Z.mod_pos_bound (Z.of_nat (length m)) 256). lia.
Qed.

Lemma token_binds_one_closure_witness :
  mint_token [1] 7 #"0f" 9 <> mint_token [1] 7 #"0e" 9 /\
  split_char 46 (mint_token [1] 7 #"0f" 9) = [ #"v1"; #"7"; #"0f"; #"9"; hex_bytes (replicate 32 27)].
Proof.
  assert (Hh : Forall is_hex #"0f" /\ Forall is_hex #"0e") by (unfold is_hex; split; repeat constructor; simpl; lia).
  destruct Hh as [H1 H2].
  destruct (token_binds_one_closure [1] 7 #"0f" 9 7 #"0e" 9 0 ltac:(lia) ltac:(lia) ltac:(lia) ltac:(lia) H1 H2)
    as (_ & Hinj & Hsplit & _).
  split; [|rewrite Hsplit; by vm_compute].
  intros E. apply Hinj in E as (_ & E & _). by vm_compute in E.
Defined.

(** A reservation is closed on its evidence. *)
Definition demo_list : RetainedWire := {| read_retained _ := Err #"no" |}.
Definition demo_gateway_text : JsonText := {| json_of _ := Some (obj [(#"closed", VBool true)]); json_text _ := [] |}.
Definition demo_gateway_world (tr : list event) (o : op) : resp o :=
  match o return resp o with Send _ => Ok (mkResponse 200 [Ok #"{}"]) | o => demo_world tr o end.
Definition demo_evidence : CloseRetainedArgs := mkClose 7 #"0123456789abcdef" Observed (Some 12) #"invoice 4".
Definition demo_closed : result CloseOutcome RetainedError * list event :=
  play demo_gateway_world [] (@money_close_retained demo_gateway_text demo_mac nobody (ClosureOn (replicate 32 1))
    (GwReady (new_gateway #"http://gateway")) true demo_evidence).

Definition answered (tr : list event) : result Response str :=
  match tr with [_; _; Sent _ x; _] => x | _ => Err [] end.

Lemma closure_attempt_is_journaled_once_witness :
  is_ok demo_closed.1 = true /\ exists seed rec, acknowledged demo_closed.2 = [rec]
    /\ rec = attempt_record nobody demo_evidence (new_operation_id seed) 200 #"closed".
Proof.
  pose proof (play_ran demo_gateway_world [] _ _
    (@closure_attempt_is_journaled_once demo_gateway_text demo_mac demo_http demo_http_laws nobody (ClosureOn (replicate 32 1))
       (GwReady (new_gateway #"http://gateway")) true demo_evidence)) as H.
  fold demo_closed in H. assert (is_ok demo_closed.1 = true) as Hok by (vm_compute; reflexivity). split; [exact Hok|].
  destruct H as (seed & rec & Hw & [(e & He & _)|(c & secret & now & req & x & _ & _ & _ & _ & _ & Hrec & Hl & _)]);
    [rewrite He in Hok; discriminate Hok|].
  assert (match demo_closed.1 with Ok o => co_recorded o | Err _ => false end = true) as Hb by (vm_compute; reflexivity).
  exists seed, rec. destruct demo_closed.1 as [o|e] eqn:E; [|discriminate Hok]. split; [rewrite (Hw o eq_refl), Hb; reflexivity|].
  destruct Hl as (org & host & y & Hl). rewrite Hrec.
  assert (verdict_of (JT := demo_gateway_text) (answered demo_closed.2) = (200, #"closed")) as Hv by (vm_compute; reflexivity).
  rewrite Hl in Hv. change (answered _) with x in Hv. rewrite Hv. reflexivity.
Defined.
