(* ===== verification/Wireguard.v ===== *)
(** * Wireguard: handing out roads into the console
    ([crates/connectors/src/wg_uapi.rs], the keypair of [wg.rs],
    [crates/api/src/remote/wg_operator.rs], [crates/api/src/journal.rs])

    The tunnel's daemon is another program.  The console talks to it in lines
    of [key=value], over a socket or through the [wg] command: both are
    operations whose answers the world decides.  Curve25519 is another crate's:
    [Curve].  A Rust slice that would cut a character panics: that is the value
    [Panicked]. *)
From S2P Require Import Prelude Text Json Signing Jcs Ingest Command Http Prog Effects.

Class Curve := { x25519_base : list Z -> list Z (* the public half of a clamped key *) }.

(** ** Keys *)

Inductive WgUapiError : Type :=
| NoSocket (path : str)
| UapiIo (endpoint source : str)
| Errno (n : Z)
| Malformed (why : str)
| UapiTransport (endpoint message : str)
| BadKey (why : str)
| Panicked.

Section Keys.
Context {PR : Primitives}.
(** [{:?}] of a string. *)
Context (debug_str : str -> str).

(** [&s[..n]], in bytes. *)
Fixpoint slice_to (n : Z) (s : str) : option str :=
  if n <=? 0 then Some []
  else match s with
       | [] => None
       | c :: s => if utf8_len c <=? n then let! t := slice_to (n - utf8_len c) s in Some (c :: t) else None
       end.

Definition is_hexdigit (b : Z) : bool := bool_decide (is_Some (hex_value b)).

Definition decode_hex32 (hex : str) : result (list Z) WgUapiError :=
  let hex := trim hex in
  if negb (byte_len hex =? 64) || negb (forallb is_hexdigit (str_bytes hex)) then
    match slice_to (Z.min (byte_len hex) 16) hex with
    | Some excerpt => Err (BadKey (#"expected 64 hex characters, got " ++ debug_str excerpt))
    | None => Err Panicked
    end
  else match hex_to_bytes hex with Some bytes => Ok bytes | None => Err Panicked end.

Definition hex_to_b64 (hex : str) : result str WgUapiError :=
  let? bytes := decode_hex32 hex in Ok (b64_encode bytes).

Definition b64_to_hex (b64 : str) : result str WgUapiError :=
  let? bytes := ok_or (b64_decode (trim b64)) (BadKey (#"not base64: " ++ b64)) in
  if negb (length bytes =? 32)%nat
  then Err (BadKey (#"a wireguard key is 32 bytes, got " ++ dec (Z.of_nat (length bytes))))
  else Ok (hex_bytes bytes).

Definition clamp (k : list Z) : list Z :=
  alter (fun b => Z.lor (Z.land b 127) 64) 31%nat (alter (fun b => Z.land b 248) 0%nat k).

Record WgKeypair : Type := mkKeypair { private : list Z; public : list Z }.
Definition from_private {CV : Curve} (k : list Z) : WgKeypair := mkKeypair (clamp k) (x25519_base (clamp k)).
Definition private_hex (k : WgKeypair) : str := hex_bytes (private k).
Definition public_hex (k : WgKeypair) : str := hex_bytes (public k).

(** ** What is written to the daemon *)

Definition render_get : str := #"get=1" ++ [10; 10].

Definition render_add_peer (public_key_hex : str) (allowed_ips : list str) : result str WgUapiError :=
  let? _k := decode_hex32 public_key_hex in
  Ok (#"set=1" ++ [10] ++ #"public_key=" ++ trim public_key_hex ++ [10] ++ #"replace_allowed_ips=true" ++ [10]
      ++ flat_map (fun cidr => #"allowed_ip=" ++ cidr ++ [10]) allowed_ips ++ [10]).

Definition render_remove_peer (public_key_hex : str) : result str WgUapiError :=
  let? _k := decode_hex32 public_key_hex in
  Ok (#"set=1" ++ [10] ++ #"public_key=" ++ trim public_key_hex ++ [10] ++ #"remove=true" ++ [10] ++ [10]).

(** ** What the daemon answers *)

Record PeerState : Type := mkPeer
  { public_key_hex : str; allowed_ips : list str; last_handshake_unix : option Z; endpoint : option str;
    rx_bytes : Z; tx_bytes : Z }.
Record InterfaceState : Type := mkIface { server_key_hex : option str; listen_port : option Z; peers : list PeerState }.
Definition no_iface : InterfaceState := mkIface None None [].

Definition public_key_b64 (s : InterfaceState) : option str :=
  let! h := server_key_hex s in rok (hex_to_b64 h).
Definition has_peer (s : InterfaceState) (key_hex : str) : bool :=
  existsb (fun p => str_eqb (public_key_hex p) (trim key_hex)) (peers s).

(** The parser's state: the interface so far, the peer being read, and whether
    an [errno] line was seen. *)
Record Parse : Type := mkParse { iface : InterfaceState; current : option PeerState; saw_errno : bool }.

Definition on_peer (f : PeerState -> PeerState) (p : Parse) : Parse :=
  mkParse (iface p) (option_map f (current p)) (saw_errno p).
Definition with_server_key (key : str) (p : Parse) : Parse :=
  mkParse (mkIface (Some key) (listen_port (iface p)) (peers (iface p))) (current p) (saw_errno p).
(** [if let Some(done) = current.take() { state.peers.push(done) }]. *)
Definition flush (p : Parse) : InterfaceState :=
  match current p with
  | Some done => mkIface (server_key_hex (iface p)) (listen_port (iface p)) (peers (iface p) ++ [done])
  | None => iface p
  end.

Definition is_panic {A} (r : result A WgUapiError) : bool := match r with Err Panicked => true | _ => false end.

(** One [key=value] of the response. *)
Definition parse_kv {CV : Curve} (key v : str) (p : Parse) : result Parse WgUapiError :=
  if str_eqb key #"errno" then
    match parse_i64 v with
    | None => Err (Malformed #"errno was not a number")
    | Some n => if n =? 0 then Ok (mkParse (iface p) (current p) true) else Err (Errno n)
    end
  else if str_eqb key #"private_key" then
    match server_key_hex (iface p) with
    | Some _ => Ok p
    | None =>
        match decode_hex32 v with
        | Ok bytes => Ok (with_server_key (public_hex (from_private bytes)) p)
        | Err Panicked => Err Panicked
        | Err _ => Ok p
        end
    end
  else if str_eqb key #"interface_public_key" then
    match decode_hex32 v with
    | Ok _ => Ok (with_server_key (trim v) p)
    | Err Panicked => Err Panicked
    | Err _ => Ok p
    end
  else if str_eqb key #"public_key" then
    Ok (mkParse (flush p) (Some (mkPeer v [] None None 0 0)) (saw_errno p))
  else if str_eqb key #"listen_port" then
    Ok (mkParse (mkIface (server_key_hex (iface p)) (parse_unsigned 65535 v) (peers (iface p))) (current p) (saw_errno p))
  else if str_eqb key #"allowed_ip" then
    Ok (on_peer (fun q => mkPeer (public_key_hex q) (allowed_ips q ++ [v]) (last_handshake_unix q) (endpoint q)
                           (rx_bytes q) (tx_bytes q)) p)
  else if str_eqb key #"endpoint" then
    Ok (on_peer (fun q => mkPeer (public_key_hex q) (allowed_ips q) (last_handshake_unix q) (Some v)
                           (rx_bytes q) (tx_bytes q)) p)
  else if str_eqb key #"last_handshake_time_sec" then
    let t := match parse_u64 v with Some 0 | None => None | Some n => Some n end in
    Ok (on_peer (fun q => mkPeer (public_key_hex q) (allowed_ips q) t (endpoint q) (rx_bytes q) (tx_bytes q)) p)
  else if str_eqb key #"rx_bytes" then
    Ok (on_peer (fun q => mkPeer (public_key_hex q) (allowed_ips q) (last_handshake_unix q) (endpoint q)
                           (default 0 (parse_u64 v)) (tx_bytes q)) p)
  else if str_eqb key #"tx_bytes" then
    Ok (on_peer (fun q => mkPeer (public_key_hex q) (allowed_ips q) (last_handshake_unix q) (endpoint q)
                           (rx_bytes q) (default 0 (parse_u64 v))) p)
  else Ok p.

(** One line. *)
Definition parse_line {CV : Curve} (line : str) (p : Parse) : result Parse WgUapiError :=
  let line := trim line in
  if bool_decide (line = []) then Ok p
  else
    match split_once [61] line with
    | None => Err (Malformed #"a line carried no '='")
    | Some (key, v) => parse_kv key v p
    end.

Fixpoint parse_lines {CV : Curve} (ls : list str) (p : Parse) : result Parse WgUapiError :=
  match ls with [] => Ok p | l :: ls => let? p := parse_line l p in parse_lines ls p end.

Definition parse_get {CV : Curve} (response : str) : result InterfaceState WgUapiError :=
  let? p := parse_lines (Text.lines response) (mkParse no_iface None false) in
  if saw_errno p then Ok (flush p) else Err (Malformed #"response carried no errno").

Fixpoint set_result (ls : list str) : result unit WgUapiError :=
  match ls with
  | [] => Err (Malformed #"response carried no errno")
  | l :: ls =>
      match strip_prefix #"errno=" (trim l) with
      | Some v =>
          match parse_i64 v with
          | None => Err (Malformed #"errno was not a number")
          | Some n => if n =? 0 then Ok tt else Err (Errno n)
          end
      | None => set_result ls
      end
  end.
Definition parse_set_result (response : str) : result unit WgUapiError := set_result (Text.lines response).

(** ** Addresses *)

(** The host octet of a CIDR inside [10.9.0.0/24]. *)
Definition host_octet (cidr : str) : option Z :=
  match split_char 46 (hd [] (split_char 47 cidr)) with
  | [a; b; c; d] =>
      if str_eqb a #"10" && str_eqb b #"9" && str_eqb c #"0" then parse_unsigned 255 d else None
  | _ => None
  end.

(** [dedup] of a sorted list. *)
Fixpoint dedup_sorted (l : list Z) : list Z :=
  match l with
  | [] => []
  | a :: t => match t with b :: _ => if a =? b then dedup_sorted t else a :: dedup_sorted t | [] => [a] end
  end.

Definition taken_host_octets (s : InterfaceState) : list Z :=
  dedup_sorted (isort Z.leb (omap host_octet (flat_map allowed_ips (peers s)))).

Definition next_free_client_ip (s : InterfaceState) : option str :=
  let taken := taken_host_octets s in
  let! n := find (fun n => negb (existsb (Z.eqb n) taken)) (map Z.of_nat (seq 2 253)) in
  Some (#"10.9.0." ++ dec n).
End Keys.

(** ** The operator's commands ([wg_operator.rs]) *)

Definition wg_uapi_error_text (e : WgUapiError) : str :=
  match e with
  | NoSocket p => #"no wireguard UAPI at " ++ p ++ #": the interface is not up"
  | UapiIo endpoint source => #"wireguard UAPI at " ++ endpoint ++ #": " ++ source
  | Errno n => #"wireguard UAPI refused the operation: errno=" ++ dec n
  | Malformed why => #"wireguard UAPI response malformed: " ++ why
  | UapiTransport endpoint message => #"wireguard UAPI at " ++ endpoint ++ #": " ++ message
  | BadKey why => #"not a valid wireguard key: " ++ why
  | Panicked => []
  end.

(** [Panic] is not an error of the source: it is a panic on its way to the
    task's join. *)
Inductive WgOperatorError : Type :=
| ServerNotConfigured (iface message : str)
| Exec (message : str)
| Misconfigured (message : str)
| SubnetExhausted (message : str)
| Panic.

Inductive CliOutcome : Type :=
| NotFound
| CouldNotRun (e : str)
| Exited (code : option Z) (stderr : str)
| Done (stdout : str).

Inductive wop : Type :=
| Exists_                                        (* the endpoint's [exists] *)
| Exchange (body : str)                          (* [UapiSocket::request] *)
| WgVersion                                      (* [wg --version] can be run *)
| Run (cli : str) (args : list str)
| RandomKey                                      (* 32 bytes from the system *)
| WriteJournal (org host : str) (rec : CommandRecord).

Definition wresp (o : wop) : Type :=
  match o with
  | Exists_ => bool
  | Exchange _ => result str WgUapiError
  | WgVersion => bool
  | Run _ _ => CliOutcome
  | RandomKey => result (list Z) str
  | WriteJournal _ _ _ => result unit str
  end%type.

Abbreviation wprogram := (@prog wop wresp).

Inductive Endpoint : Type := Unix (path : str) | Tls (addr cert token : str).
Definition describe (e : Endpoint) : str := match e with Unix p => p | Tls addr _ _ => addr end.
Definition is_network (e : Endpoint) : bool := match e with Tls _ _ _ => true | _ => false end.

Inductive PeerBackend : Type := Uapi (sock : Endpoint) | Shell (iface : str).
Definition backend_label (b : PeerBackend) : str := match b with Uapi _ => #"uapi" | Shell _ => #"wg" end.

Definition SERVER_TUNNEL_IP : str := #"10.9.0.1".
Definition CONSOLE_PORT : Z := 7420.

Definition iface_name (sc : Scope) : str := default #"wg-op" (env_var sc #"GENARYX_WG_IFACE").
Definition console_tunnel_url (sc : Scope) : str :=
  match env_var sc #"GENARYX_WEB_ORIGIN" with
  | Some origin =>
      if bool_decide (trim origin = []) then #"http://" ++ SERVER_TUNNEL_IP ++ #":" ++ dec CONSOLE_PORT else trim origin
  | None => #"http://" ++ SERVER_TUNNEL_IP ++ #":" ++ dec CONSOLE_PORT
  end.

Definition uapi_endpoint (sc : Scope) : result Endpoint WgOperatorError :=
  let var key := default [] (env_var sc key) in
  let raw := var #"GENARYX_WG_UAPI_SOCKET" in
  if bool_decide (raw = []) then Ok (Unix (#"/var/run/wireguard/" ++ iface_name sc ++ #".sock"))
  else if starts_with #"/" raw || negb (contains #":" raw) then Ok (Unix raw)
  else
    let cert := var #"GENARYX_WG_UAPI_CERT" in
    let token := var #"GENARYX_WG_UAPI_TOKEN" in
    if bool_decide (cert = []) || bool_decide (token = []) then
      let missing :=
        if bool_decide (cert = []) then
          if bool_decide (token = []) then #"GENARYX_WG_UAPI_CERT and GENARYX_WG_UAPI_TOKEN are" else #"GENARYX_WG_UAPI_CERT is"
        else #"GENARYX_WG_UAPI_TOKEN is" in
      Err (Misconfigured (#"GENARYX_WG_UAPI_SOCKET is " ++ raw ++
        #", which is a network endpoint rather than a path, but " ++ missing ++
        #" not set. Reaching a tunnel daemon in another pod needs the proxy's certificate to pin and the bearer it checks; both are written into this console's Secret by install.sh."))
    else Ok (Tls raw cert token).

Definition uapi_failure (sc : Scope) (e : WgUapiError) : WgOperatorError :=
  match e with
  | NoSocket p => ServerNotConfigured (iface_name sc)
      (#"the WireGuard tunnel is not running: no UAPI socket at " ++ p ++
       #". On a single-box install this is the `wg` service in compose.yaml; start it with `docker compose up -d wg`.")
  | Panicked => Panic
  | other => Exec (wg_uapi_error_text other)
  end.

(** [containerised] is [place], what the process can see of its container. *)
Definition resolve_backend (place : option str) (sc : Scope) : wprogram (result PeerBackend WgOperatorError) :=
  let iface := iface_name sc in
  match uapi_endpoint sc with
  | Err e => Ret (Err e)
  | Ok sock =>
      do there <- Exists_;
      if (there : bool) then Ret (Ok (Uapi sock))
      else if is_network sock then
        Ret (Err (ServerNotConfigured iface (#"the tunnel daemon at " ++ describe sock ++
          #" did not answer. It is in another pod, so there is no local interface to fall back to: check that the wg pod is running and that a NetworkPolicy admits this one.")))
      else
        do wg <- WgVersion;
        if (wg : bool) then Ret (Ok (Shell iface))
        else Ret (Err (ServerNotConfigured iface
          (#"no WireGuard server this console can reach. It looked for a userspace API socket at " ++ describe sock ++
           #" (the `wg` sidecar service, which is how " ++ default #"this host" place ++
           #" is meant to reach one) and for a `wg` binary on PATH (a kernel interface on this host). Neither answered. On a single-box install: `docker compose up -d wg`.")))
  end.

Definition run_cli (cli : str) (args : list str) : wprogram (result str WgOperatorError) :=
  do out <- Run cli args;
  Ret (match out with
       | NotFound => Err (Exec (cli ++ #": command not found (is it installed and on PATH?)"))
       | CouldNotRun e => Err (Exec (#"could not run " ++ cli ++ #": " ++ e))
       | Exited code stderr =>
           Err (Exec (cli ++ #" " ++ join #" " args ++ #" exited " ++ dec (default (-1) code) ++ #": " ++ trim stderr))
       | Done stdout => Ok (trim stdout)
       end).

Section Operator.
Context {PR : Primitives} {CV : Curve} (debug_str : str -> str).

Definition field (n : nat) (f : list str) : option str :=
  let! s := nth_error f n in if bool_decide (s = []) then None else Some s.
Definition shown (n : nat) (f : list str) : option str :=
  let! s := field n f in if str_eqb s #"(none)" then None else Some s.

(** One peer line of [wg show dump]. *)
Definition dump_peer (line : str) : option PeerState :=
  let f := split_char 9 line in
  let! pk := field 0 f in
  let! key := rok (b64_to_hex pk) in
  Some (mkPeer key
          (match shown 3 f with Some s => map trim (split_char 44 s) | None => [] end)
          (let! s := nth_error f 4 in let! n := parse_u64 s in if n =? 0 then None else Some n)
          (shown 2 f)
          (default 0 (let! s := nth_error f 5 in parse_u64 s))
          (default 0 (let! s := nth_error f 6 in parse_u64 s))).

Definition parse_wg_dump (dump : str) : InterfaceState :=
  match List.filter (fun l => negb (bool_decide (trim l = []))) (Text.lines dump) with
  | [] => no_iface
  | first :: rest =>
      let f := split_char 9 first in
      mkIface (let! pk := shown 1 f in rok (b64_to_hex pk))
        (let! s := nth_error f 2 in parse_unsigned 65535 s)
        (omap dump_peer rest)
  end.

Definition read_state (sc : Scope) (b : PeerBackend) : wprogram (result InterfaceState WgOperatorError) :=
  match b with
  | Uapi _ =>
      do r <- Exchange render_get;
      Ret (map_err (uapi_failure sc) (let? text := r in parse_get debug_str text))
  | Shell iface =>
      do! dump <- run_cli #"wg" [ #"show"; iface; #"dump"];
      Ret (match dump with
           | Ok dump => Ok (parse_wg_dump dump)
           | Err (Exec message) =>
               Err (ServerNotConfigured iface (#"interface '" ++ iface ++ #"' is not up (" ++ message ++ #")"))
           | Err other => Err other
           end)
  end.

Definition exec_of (e : WgUapiError) : WgOperatorError :=
  match e with Panicked => Panic | e => Exec (wg_uapi_error_text e) end.

(** The two changes of the interface, each of one peer. *)
Definition set_peer (sc : Scope) (b : PeerBackend) (key_hex : str) (render : result str WgUapiError) (args : str -> list str)
  : wprogram (result unit WgOperatorError) :=
  match b with
  | Uapi _ =>
      match render with
      | Err e => Ret (Err (uapi_failure sc e))
      | Ok body =>
          do r <- Exchange body;
          Ret (map_err (uapi_failure sc) (let? text := r in parse_set_result text))
      end
  | Shell iface =>
      match hex_to_b64 debug_str key_hex with
      | Err e => Ret (Err (exec_of e))
      | Ok b64 =>
          do! r <- run_cli #"wg" ([ #"set"; iface; #"peer"; b64] ++ args b64);
          match r with
          | Err e => Ret (Err e)
          | Ok _ => do! _saved <- run_cli #"wg-quick" [ #"save"; iface]; Ret (Ok tt)
          end
      end
  end.

Definition add_peer (sc : Scope) (b : PeerBackend) (key_hex client_ip : str) : wprogram (result unit WgOperatorError) :=
  let allowed := client_ip ++ #"/32" in
  set_peer sc b key_hex (render_add_peer debug_str key_hex [allowed]) (fun _ => [ #"allowed-ips"; allowed]).
Definition remove_peer (sc : Scope) (b : PeerBackend) (key_hex : str) : wprogram (result unit WgOperatorError) :=
  set_peer sc b key_hex (render_remove_peer debug_str key_hex) (fun _ => [ #"remove"]).

Definition endpoint_host (sc : Scope) : result str WgOperatorError :=
  match env_var sc #"GENARYX_WG_ENDPOINT_HOST" with
  | Some h => if bool_decide (trim h = []) then Err (Misconfigured #"GENARYX_WG_ENDPOINT_HOST is not set, so there is no address to put in the client config. It is the public address of THIS box, the one a phone dials from outside; nothing on the interface can report it. install.sh writes it into .env; set it there and restart the console.") else Ok (trim h)
  | None => Err (Misconfigured #"GENARYX_WG_ENDPOINT_HOST is not set, so there is no address to put in the client config. It is the public address of THIS box, the one a phone dials from outside; nothing on the interface can report it. install.sh writes it into .env; set it there and restart the console.")
  end.

Definition render_conf (client_private_key_b64 client_ip server_public_key_b64 endpoint : str) : str :=
  #"[Interface]" ++ [10] ++ #"PrivateKey = " ++ client_private_key_b64 ++ [10] ++ #"Address = " ++ client_ip ++ #"/32" ++ [10; 10]
  ++ #"[Peer]" ++ [10] ++ #"PublicKey = " ++ server_public_key_b64 ++ [10] ++ #"Endpoint = " ++ endpoint ++ [10]
  ++ #"AllowedIPs = " ++ SERVER_TUNNEL_IP ++ #"/32" ++ [10] ++ #"PersistentKeepalive = 25" ++ [10].

(** The QR crate's document for a text. *)
Context (qr_document : str -> result str str).
Fixpoint from_svg (doc : str) : option str :=
  match doc with
  | [] => None
  | _ :: rest => if starts_with #"<svg" doc then Some doc else from_svg rest
  end.
Definition render_qr_svg (text : str) : result str WgOperatorError :=
  let? doc := map_err (fun e => Exec (#"could not encode the config as a QR: " ++ e)) (qr_document text) in
  Ok (default doc (from_svg doc)).

Record OperatorConfig : Type := mkOperatorConfig
  { conf : str; qr_svg : str; client_ip : str; conf_endpoint : str; server_public_key : str; peer_public_key : str;
    tunnel_url : str }.

(** What follows once the state was read. *)
Definition issue_from (sc : Scope) (b : PeerBackend) (host : str) (state : InterfaceState)
  : wprogram (result OperatorConfig WgOperatorError) :=
  let iface := iface_name sc in
  match public_key_b64 debug_str state with
  | None => Ret (Err (ServerNotConfigured iface (#"interface '" ++ iface ++ #"' reports no public key, so it is not a running server")))
  | Some server_key =>
  match listen_port state with
  | None => Ret (Err (ServerNotConfigured iface (#"interface '" ++ iface ++ #"' reports no listen port")))
  | Some port =>
  match next_free_client_ip state with
  | None => Ret (Err (SubnetExhausted (#"every address in 10.9.0.0/24 is already assigned (" ++ dec (Z.of_nat (length (peers state))) ++
      #" peers). Revoke a device before issuing another; handing out a duplicate address would break a working device to serve a new one.")))
  | Some ip =>
      do drawn <- RandomKey;
      match drawn with
      | Err e => Ret (Err (Exec (#"could not generate a client keypair: wg keygen: " ++ e)))
      | Ok bytes =>
          let pair := from_private bytes in
          match hex_to_b64 debug_str (private_hex pair), hex_to_b64 debug_str (public_hex pair) with
          | Ok private_b64, Ok public_b64 =>
              do! added <- add_peer sc b (public_hex pair) ip;
              match added with
              | Err e => Ret (Err e)
              | Ok _ =>
                  let endpoint := host ++ #":" ++ dec port in
                  let conf := render_conf private_b64 ip server_key endpoint in
                  match render_qr_svg conf with
                  | Err e => Ret (Err e)
                  | Ok svg => Ret (Ok (mkOperatorConfig conf svg ip endpoint server_key public_b64 (console_tunnel_url sc)))
                  end
              end
          | Err e, _ | _, Err e => Ret (Err (exec_of e))
          end
      end
  end end end.

Definition issue_blocking (place : option str) (sc : Scope) : wprogram (result OperatorConfig WgOperatorError) :=
  do! backend <- resolve_backend place sc;
  match backend with
  | Err e => Ret (Err e)
  | Ok b =>
      match endpoint_host sc with
      | Err e => Ret (Err e)
      | Ok host =>
          do! state <- read_state sc b;
          match state with Err e => Ret (Err e) | Ok state => issue_from sc b host state end
      end
  end.

Record RevokeDto : Type := mkRevokeDto { revoked_key : str; was_present : bool; remaining_peers : nat }.

Definition revoke_blocking (place : option str) (sc : Scope) (key_b64 : str) : wprogram (result RevokeDto WgOperatorError) :=
  do! backend <- resolve_backend place sc;
  match backend with
  | Err e => Ret (Err e)
  | Ok b =>
      match b64_to_hex key_b64 with
      | Err e => Ret (Err (Misconfigured (#"not a WireGuard public key: " ++ wg_uapi_error_text e)))
      | Ok hex =>
          do! before <- read_state sc b;
          match before with
          | Err e => Ret (Err e)
          | Ok before =>
              do! removed <- remove_peer sc b hex;
              match removed with
              | Err e => Ret (Err e)
              | Ok _ =>
                  do! after <- read_state sc b;
                  Ret (match after with
                       | Err e => Err e
                       | Ok after => Ok (mkRevokeDto key_b64 (has_peer before hex) (length (peers after)))
                       end)
              end
          end
      end
  end.

Record PeerDto : Type := mkPeerDto
  { dto_key : str; dto_ips : list str; dto_handshake : option Z; dto_endpoint : option str; dto_rx : Z; dto_tx : Z }.
Record PeersDto : Type := mkPeersDto
  { dto_iface : str; dto_server_key : option str; dto_port : option Z; dto_backend : str; dto_peers : list PeerDto }.

Definition peer_dto (p : PeerState) : result PeerDto WgOperatorError :=
  let dto key := mkPeerDto key (allowed_ips p) (last_handshake_unix p) (endpoint p) (rx_bytes p) (tx_bytes p) in
  match hex_to_b64 debug_str (public_key_hex p) with
  | Ok key => Ok (dto key)
  | Err Panicked => Err Panic
  | Err _ => Ok (dto (public_key_hex p))
  end.
Fixpoint peer_dtos (ps : list PeerState) : result (list PeerDto) WgOperatorError :=
  match ps with [] => Ok [] | p :: ps => let? d := peer_dto p in let? ds := peer_dtos ps in Ok (d :: ds) end.

Definition peers_blocking (place : option str) (sc : Scope) : wprogram (result PeersDto WgOperatorError) :=
  do! backend <- resolve_backend place sc;
  match backend with
  | Err e => Ret (Err e)
  | Ok b =>
      do! state <- read_state sc b;
      Ret (let? state := state in
           let? ds := peer_dtos (peers state) in
           Ok (mkPeersDto (iface_name sc) (public_key_b64 debug_str state) (listen_port state) (backend_label b) ds))
  end.

(** [record_console_action], for an action that has happened. *)
Definition action_record (sc : Scope) (action target verify : str) : CommandRecord :=
  let '(alg, fpr) := signature_or sc #"software-signed" #"software-signed" in
  mkCommand (operator_or sc (#"user://" ++ org_domain sc ++ #"/operator")) (org_domain sc) action target (obj []) #"allow"
    alg fpr 200 verify.
Definition journal_peer_action (sc : Scope) (bus : bool) (action target detail : str) : wprogram unit :=
  if bus then
    do _x <- WriteJournal (org_domain sc) (default #"console" (env_var sc #"HOSTNAME")) (action_record sc action target detail);
    Ret tt
  else Ret tt.

(** What the join makes of a task that panicked. *)
Definition joined {A} (why : str) (r : result A WgOperatorError) : result A WgOperatorError :=
  match r with Err Panic => Err (Exec why) | r => r end.

Definition operator_wg_config (place : option str) (sc : Scope) (bus : bool) (join_error : str)
  : wprogram (result OperatorConfig WgOperatorError) :=
  do! r <- issue_blocking place sc;
  match joined (#"operator wg config task failed to run: " ++ join_error) r with
  | Err e => Ret (Err e)
  | Ok issued =>
      do! _j <- journal_peer_action sc bus #"console.issue_wg_peer" (peer_public_key issued) (#"issued:" ++ client_ip issued);
      Ret (Ok issued)
  end.

Definition operator_wg_peers (place : option str) (sc : Scope) (join_error : str)
  : wprogram (result PeersDto WgOperatorError) :=
  do! r <- peers_blocking place sc;
  Ret (joined (#"operator wg peers task failed to run: " ++ join_error) r).

Definition operator_wg_revoke (place : option str) (sc : Scope) (bus : bool) (join_error key_b64 : str)
  : wprogram (result RevokeDto WgOperatorError) :=
  do! r <- revoke_blocking place sc key_b64;
  match joined (#"operator wg revoke task failed to run: " ++ join_error) r with
  | Err e => Ret (Err e)
  | Ok revoked =>
      do! _j <- journal_peer_action sc bus #"console.revoke_wg_peer" key_b64
        (#"revoked:was_present=" ++ (if was_present revoked then #"true" else #"false") ++ #" remaining=" ++
         dec (Z.of_nat (remaining_peers revoked)));
      Ret (Ok revoked)
  end.
End Operator.

(** ** Lemmas *)

Lemma elem_of_dedup n l : n ∈ dedup_sorted l <-> n ∈ l.
Proof.
  induction l as [|a [|b t] IH]; [done|done|]. cbn [dedup_sorted].
  destruct (Z.eqb_spec a b) as [->|].
  - rewrite IH, !elem_of_cons. tauto.
  - rewrite elem_of_cons, IH, !elem_of_cons. tauto.
Qed.

(** An octet is taken when some peer has an address with it. *)
Definition routed (s : InterfaceState) (n : Z) : Prop :=
  exists p cidr, p ∈ peers s /\ cidr ∈ allowed_ips p /\ host_octet cidr = Some n.

Lemma taken_routed s n : n ∈ taken_host_octets s <-> routed s n.
Proof.
  unfold taken_host_octets, routed. rewrite elem_of_dedup, elem_of_isort, list_elem_of_omap. split.
  - intros (cidr & Hin & Hh). apply list_elem_of_In, in_flat_map in Hin as (p & Hp & Hc).
    exists p, cidr. rewrite !list_elem_of_In. done.
  - intros (p & cidr & Hp & Hc & Hh). exists cidr. split; [|done].
    apply list_elem_of_In, in_flat_map. exists p. by rewrite <- !list_elem_of_In.
Qed.

Lemma find_seq_Some (f : Z -> bool) a n v :
  find f (map Z.of_nat (seq a n)) = Some v <->
  Z.of_nat a <= v < Z.of_nat a + Z.of_nat n /\ f v = true /\ forall m, Z.of_nat a <= m < v -> f m = false.
Proof.
  revert a. induction n as [|n IH]; intros a; cbn [seq map find]; [split; [done|lia]|].
  destruct (f (Z.of_nat a)) eqn:E.
  - split.
    + intros [= <-]. split; [lia|]. split; [done|]. lia.
    + intros (Hr & Hv & Hall). destruct (decide (v = Z.of_nat a)) as [->|]; [done|].
      rewrite Hall in E by lia. done.
  - rewrite IH. split.
    + intros (Hr & Hv & Hall). split; [lia|]. split; [done|]. intros m Hm.
      destruct (decide (m = Z.of_nat a)) as [->|]; [done|]. apply Hall. lia.
    + intros (Hr & Hv & Hall). assert (v <> Z.of_nat a) by congruence. split; [lia|]. split; [done|].
      intros m Hm. apply Hall. lia.
Qed.

(** The address handed out is the lowest one of [10.9.0.2] to [10.9.0.254]
    that no peer has, and there is none only when all are taken. *)
Lemma next_free_iff s ip :
  next_free_client_ip s = Some ip <->
  exists n, 2 <= n <= 254 /\ ip = #"10.9.0." ++ dec n /\ ~ routed s n /\ forall m, 2 <= m < n -> routed s m.
Proof.
  unfold next_free_client_ip.
  assert (Hf : forall n, negb (existsb (Z.eqb n) (taken_host_octets s)) = true <-> ~ routed s n).
  { intros n. rewrite <- taken_routed, negb_true_iff. split.
    - intros H Hin. apply list_elem_of_In in Hin. assert (existsb (Z.eqb n) (taken_host_octets s) = true); [|congruence].
      apply existsb_exists. exists n. split; [done|apply Z.eqb_refl].
    - intros Hn. destruct (existsb _ _) eqn:E; [|done]. apply existsb_exists in E as (x & Hx & Ex).
      apply Z.eqb_eq in Ex as <-. destruct Hn. by apply list_elem_of_In. }
  assert (Hg : forall n, negb (existsb (Z.eqb n) (taken_host_octets s)) = false <-> routed s n).
  { intros n. split.
    - intros H. apply taken_routed. apply negb_false_iff, existsb_exists in H as (x & Hx & Ex).
      apply Z.eqb_eq in Ex as <-. by apply list_elem_of_In.
    - intros H. destruct (negb _) eqn:E; [|done]. by apply Hf in E. }
  split.
  - destruct (find _ _) as [n|] eqn:E; [|done]. intros [= <-]. apply find_seq_Some in E as (Hr & Hv & Hall).
    exists n. split; [lia|]. split; [done|]. split; [by apply Hf|]. intros m Hm. apply Hg, Hall. lia.
  - intros (n & Hr & -> & Hn & Hall). assert (find (fun n => negb (existsb (Z.eqb n) (taken_host_octets s))) (map Z.of_nat (seq 2 253)) = Some n) as ->; [|done].
    apply find_seq_Some. split; [lia|]. split; [by apply Hf|]. intros m Hm. apply Hg, Hall. lia.
Qed.

(** An address handed out is routed by its own peer from then on. *)
Lemma octet_of_issued n : 2 <= n <= 254 -> host_octet (#"10.9.0." ++ dec n ++ #"/32") = Some n.
Proof.
  intros Hn. assert (Hd : forall c, ascii_digit c = false -> c ∉ dec n).
  { intros c Hc Hin. unfold dec in Hin. destruct (n <? 0) eqn:E; [b2p; lia|].
    destruct (dec_nat_spec n ltac:(lia)) as (Hall & _). unfold all_digits in Hall.
    rewrite forallb_forall in Hall. apply list_elem_of_In, Hall in Hin. congruence. }
  unfold host_octet.
  assert (E : split_char 47 (#"10.9.0." ++ dec n ++ #"/32") = [ #"10.9.0." ++ dec n; #"32"]).
  { change (#"/32") with (47 :: #"32"). rewrite app_assoc, split_char_app.
    - by rewrite split_char_none by (apply (bool_decide_unpack _); by vm_compute).
    - rewrite not_elem_of_app. split; [apply (bool_decide_unpack _); by vm_compute|by apply Hd]. }
  rewrite E. cbn [hd].
  change (#"10.9.0." ++ dec n) with (#"10" ++ 46 :: #"9" ++ 46 :: #"0" ++ 46 :: dec n).
  rewrite !split_char_app by (apply (bool_decide_unpack _); by vm_compute).
  rewrite split_char_none by by apply Hd. rewrite !str_eqb_refl. cbn [andb]. apply parse_unsigned_dec. lia.
Qed.

(** ** The daemon's text, read back *)

Section RoundTrip.
Context {PR : Primitives} {CV : Curve} (debug_str : str -> str).

(** What a relay writes of a state, as the protocol gives it. *)
Definition line (k v : str) : str := k ++ [61] ++ v.
Definition peer_lines (p : PeerState) : list str :=
  [line #"public_key" (public_key_hex p)]
  ++ (match endpoint p with Some e => [line #"endpoint" e] | None => [] end)
  ++ [line #"last_handshake_time_sec" (dec (default 0 (last_handshake_unix p)));
      line #"tx_bytes" (dec (tx_bytes p)); line #"rx_bytes" (dec (rx_bytes p))]
  ++ map (line #"allowed_ip") (allowed_ips p).
Definition state_lines (s : InterfaceState) : list str :=
  (match server_key_hex s with Some k => [line #"interface_public_key" k] | None => [] end)
  ++ (match listen_port s with Some n => [line #"listen_port" (dec n)] | None => [] end)
  ++ flat_map peer_lines (peers s)
  ++ [line #"errno" #"0"].
Definition state_text (s : InterfaceState) : str := flat_map (fun l => l ++ [10]) (state_lines s).

(** A value that survives a line: no line feed, no white space at its end. *)
Definition plain (v : str) : Prop := 10 ∉ v /\ exists front c, v = front ++ [c] /\ is_white c = false.
Definition peer_ok (p : PeerState) : Prop :=
  plain (public_key_hex p) /\ Forall plain (allowed_ips p) /\
  (forall e, endpoint p = Some e -> plain e) /\
  (forall n, last_handshake_unix p = Some n -> 0 < n <= u64_max) /\
  0 <= tx_bytes p <= u64_max /\ 0 <= rx_bytes p <= u64_max.
Definition state_ok (s : InterfaceState) : Prop :=
  (forall k, server_key_hex s = Some k -> plain k /\ trim k = k /\ is_ok (decode_hex32 debug_str k) = true) /\
  (forall n, listen_port s = Some n -> 0 <= n <= 65535) /\ Forall peer_ok (peers s).

Lemma trim_kept c t d : is_white c = false -> is_white d = false -> trim ((c :: t) ++ [d]) = (c :: t) ++ [d].
Proof.
  intros Hc Hd. unfold trim, trim_end. cbn [app trim_start]. rewrite Hc.
  change (c :: t ++ [d]) with ((c :: t) ++ [d]). rewrite rev_app_distr. cbn [app rev trim_start]. rewrite Hd.
  change (d :: (rev t ++ [c])) with ([d] ++ rev (c :: t)). by rewrite rev_app_distr, rev_involutive.
Qed.

Definition key_ok (k : str) : Prop := exists c t, k = c :: t /\ is_white c = false /\ 61 ∉ k /\ 10 ∉ k.

Lemma line_facts k v : key_ok k -> plain v ->
  trim (line k v) = line k v /\ strip_cr (line k v) = line k v /\ 10 ∉ line k v /\ line k v <> [] /\
  split_once [61] (line k v) = Some (k, v).
Proof.
  intros (c & t & -> & Hc & H61 & H10) (Hv & front & d & -> & Hd). unfold line.
  replace ((c :: t) ++ [61] ++ front ++ [d]) with ((c :: t ++ [61] ++ front) ++ [d]) by (simpl; by rewrite <- !app_assoc).
  split; [by apply trim_kept|]. split; [|split; [|split]].
  - unfold strip_cr, strip_suffix. rewrite rev_app_distr. cbn [rev app strip_prefix].
    destruct (Z.eqb_spec 13 d) as [<-|]; [by vm_compute in Hd|done].
  - set_solver.
  - done.
  - rewrite <- split_once_char_app with (a := c :: t) (b := front ++ [d]) (c := 61) by done.
    f_equal. simpl. by rewrite <- !app_assoc.
Qed.

Lemma parse_lines_app a b p :
  parse_lines debug_str (a ++ b) p = let? p := parse_lines debug_str a p in parse_lines debug_str b p.
Proof. revert p. induction a as [|l a IH]; intros p; [done|]. cbn [app parse_lines]. destruct (parse_line debug_str l p); [apply IH|done]. Qed.

Lemma plain_dec n : 0 <= n -> plain (dec n).
Proof.
  intros Hn. assert (Hall : Forall (fun c => ascii_digit c = true) (dec n)).
  { apply forallb_Forall. unfold dec. destruct (n <? 0) eqn:E; [b2p; lia|]. by apply dec_nat_spec. }
  split.
  - intros Hin. rewrite List.Forall_forall in Hall. by apply list_elem_of_In, Hall in Hin.
  - destruct (rev (dec n)) as [|d r] eqn:E.
    + apply (f_equal (@rev Z)) in E. rewrite rev_involutive in E. unfold dec in E.
      destruct (n <? 0) eqn:E'; [b2p; lia|]. by destruct (dec_nat_spec n Hn) as (_ & ? & _).
    + exists (rev r), d. assert (Hd : dec n = rev r ++ [d]) by (rewrite <- (rev_involutive (dec n)), E; done).
      split; [done|]. rewrite Hd in Hall. apply Forall_app in Hall as [_ Hall]. apply Forall_inv in Hall.
      unfold is_white. unfold ascii_digit in Hall. b2p. lia.
Qed.

(** The keys of the protocol are keys. *)
Lemma keys_ok : Forall key_ok [ #"public_key"; #"endpoint"; #"last_handshake_time_sec"; #"tx_bytes"; #"rx_bytes";
  #"allowed_ip"; #"interface_public_key"; #"listen_port"; #"errno"].
Proof.
  assert (H : forall k, match k with c :: t => is_white c = false /\ 61 ∉ k /\ 10 ∉ k | [] => False end -> key_ok k).
  { intros [|c t] Hk; [done|]. exists c, t. tauto. }
  repeat constructor; apply H; (split; [by vm_compute|]); split; apply (bool_decide_unpack _); by vm_compute.
Qed.

Lemma key_in k : In k [ #"public_key"; #"endpoint"; #"last_handshake_time_sec"; #"tx_bytes"; #"rx_bytes";
  #"allowed_ip"; #"interface_public_key"; #"listen_port"; #"errno"] -> key_ok k.
Proof. intros H. pose proof keys_ok as Hk. rewrite List.Forall_forall in Hk. by apply Hk. Qed.

Lemma parse_line_kv k v p : key_ok k -> plain v -> parse_line debug_str (line k v) p = parse_kv debug_str k v p.
Proof.
  intros Hk Hv. destruct (line_facts k v Hk Hv) as (Ht & _ & _ & Hne & Hs). unfold parse_line. rewrite Ht, Hs.
  by destruct (bool_decide (line k v = [])) eqn:Eb; [apply bool_decide_eq_true in Eb|].
Qed.

Ltac kv := rewrite parse_line_kv by (done || (apply key_in; simpl; tauto) || (by apply plain_dec; lia)).

Lemma parse_ips vs p q : Forall plain vs -> current p = Some q ->
  parse_lines debug_str (map (line #"allowed_ip") vs) p =
  Ok (mkParse (iface p) (Some (mkPeer (public_key_hex q) (allowed_ips q ++ vs) (last_handshake_unix q) (endpoint q)
                                 (rx_bytes q) (tx_bytes q))) (saw_errno p)).
Proof.
  intros Hv. revert p q. induction Hv as [|v vs Hv _ IH]; intros p q Hq.
  { cbn [map parse_lines]. rewrite app_nil_r. destruct p, q; simpl in *. by subst. }
  cbn [map parse_lines]. kv.
  change (parse_kv debug_str #"allowed_ip" v p) with
    (Ok (on_peer (fun q => mkPeer (public_key_hex q) (allowed_ips q ++ [v]) (last_handshake_unix q) (endpoint q)
                             (rx_bytes q) (tx_bytes q)) p) : result Parse WgUapiError).
  cbn [rbind]. erewrite IH by (unfold on_peer; simpl; by rewrite Hq). simpl. by rewrite <- app_assoc.
Qed.

Lemma parse_peer q p : peer_ok q ->
  parse_lines debug_str (peer_lines q) p = Ok (mkParse (flush p) (Some q) (saw_errno p)).
Proof.
  intros (Hk & Hips & He & Hh & Ht & Hr). unfold peer_lines.
  rewrite parse_lines_app. cbn [parse_lines]. kv.
  change (parse_kv debug_str #"public_key" (public_key_hex q) p) with
    (Ok (mkParse (flush p) (Some (mkPeer (public_key_hex q) [] None None 0 0)) (saw_errno p)) : result Parse WgUapiError).
  cbn [rbind].
  assert (Hend : parse_lines debug_str match endpoint q with Some e => [line #"endpoint" e] | None => [] end
                   (mkParse (flush p) (Some (mkPeer (public_key_hex q) [] None None 0 0)) (saw_errno p))
                 = Ok (mkParse (flush p) (Some (mkPeer (public_key_hex q) [] None (endpoint q) 0 0)) (saw_errno p))).
  { destruct (endpoint q) as [e|]; [|done]. cbn [parse_lines]. specialize (He _ eq_refl). kv. reflexivity. }
  rewrite parse_lines_app, Hend. cbn [rbind]. rewrite parse_lines_app. cbn [parse_lines].
  assert (Hhr : 0 <= default 0 (last_handshake_unix q) <= u64_max).
  { destruct (last_handshake_unix q) as [n|]; [specialize (Hh _ eq_refl)|]; simpl; unfold u64_max in *; lia. }
  kv.
  change (parse_kv debug_str #"last_handshake_time_sec" (dec (default 0 (last_handshake_unix q)))
            (mkParse (flush p) (Some (mkPeer (public_key_hex q) [] None (endpoint q) 0 0)) (saw_errno p))) with
    (Ok (mkParse (flush p) (Some (mkPeer (public_key_hex q) []
       (match parse_u64 (dec (default 0 (last_handshake_unix q))) with Some 0 | None => None | Some n => Some n end)
       (endpoint q) 0 0)) (saw_errno p)) : result Parse WgUapiError).
  rewrite parse_u64_dec by done. cbn [rbind]. kv.
  match goal with |- context [parse_kv debug_str #"tx_bytes" ?v (mkParse ?i (Some (mkPeer ?k ?ips ?t ?e ?r ?x)) ?b)] =>
    change (parse_kv debug_str #"tx_bytes" v (mkParse i (Some (mkPeer k ips t e r x)) b)) with
      (Ok (mkParse i (Some (mkPeer k ips t e r (default 0 (parse_u64 v)))) b) : result Parse WgUapiError) end.
  rewrite parse_u64_dec by done. cbn [rbind]. kv.
  match goal with |- context [parse_kv debug_str #"rx_bytes" ?v (mkParse ?i (Some (mkPeer ?k ?ips ?t ?e ?r ?x)) ?b)] =>
    change (parse_kv debug_str #"rx_bytes" v (mkParse i (Some (mkPeer k ips t e r x)) b)) with
      (Ok (mkParse i (Some (mkPeer k ips t e (default 0 (parse_u64 v)) x)) b) : result Parse WgUapiError) end.
  rewrite parse_u64_dec by done. cbn [rbind default].
  erewrite parse_ips by done. cbn. f_equal. f_equal. destruct q as [k ips t e r x]. cbn in *. do 2 f_equal.
  destruct t as [n|]; [|done]. specialize (Hh _ eq_refl). cbn. destruct n; [lia|done|lia].
Qed.

Lemma parse_peers qs p : Forall peer_ok qs ->
  parse_lines debug_str (flat_map peer_lines qs) p =
  Ok match rev qs with
     | [] => p
     | last :: front => mkParse (mkIface (server_key_hex (iface p)) (listen_port (iface p)) (peers (flush p) ++ rev front))
                          (Some last) (saw_errno p)
     end.
Proof.
  intros H. induction qs as [|q qs IH] using rev_ind; [done|].
  apply Forall_app in H as [Hqs Hq]. apply Forall_inv in Hq.
  rewrite flat_map_app, parse_lines_app, (IH Hqs). cbn [rbind flat_map]. rewrite app_nil_r, (parse_peer q _ Hq).
  f_equal. rewrite rev_app_distr. cbn [rev app]. destruct (rev qs) as [|l f] eqn:E.
  - cbn. rewrite app_nil_r. destruct p as [[k n ps] [c|] b]; reflexivity.
  - cbn. unfold flush. cbn. by rewrite <- app_assoc.
Qed.

Lemma lines_clean ls :
  Forall (fun l => strip_cr l = l /\ 10 ∉ l) ls -> Text.lines (flat_map (fun l => l ++ [10]) ls) = ls.
Proof.
  intros H. unfold Text.lines. rewrite split_char_unbroken, rev_app_distr.
  - simpl. rewrite rev_involutive. induction H as [|l ls [Hl _] _ IH]; [done|]. simpl. by rewrite IH, Hl.
  - eapply Forall_impl; [exact H|]. by intros l [_ Hl].
Qed.

Lemma state_lines_clean s : state_ok s -> Forall (fun l => strip_cr l = l /\ 10 ∉ l) (state_lines s).
Proof.
  intros (Hk & Hp & Hps).
  assert (Hline : forall k v, In k [ #"public_key"; #"endpoint"; #"last_handshake_time_sec"; #"tx_bytes"; #"rx_bytes";
    #"allowed_ip"; #"interface_public_key"; #"listen_port"; #"errno"] -> plain v ->
    strip_cr (line k v) = line k v /\ 10 ∉ line k v).
  { intros k v Hin Hv. destruct (line_facts k v (key_in k Hin) Hv) as (_ & ? & ? & _). done. }
  unfold state_lines. repeat apply Forall_app_2.
  - destruct (server_key_hex s) as [k|]; [|constructor]. constructor; [|constructor].
    apply Hline; [simpl; tauto|by apply Hk].
  - destruct (listen_port s) as [n|]; [|constructor]. constructor; [|constructor]. specialize (Hp n eq_refl).
    apply Hline; [simpl; tauto|apply plain_dec; lia].
  - clear Hk Hp. induction Hps as [|q qs (H1 & H2 & H3 & H4 & H5 & H6) _ IH]; [constructor|].
    cbn [flat_map]. apply Forall_app_2; [|exact IH]. unfold peer_lines. repeat apply Forall_app_2.
    + constructor; [|constructor]. apply Hline; [simpl; tauto|done].
    + destruct (endpoint q) as [e|]; [|constructor]. constructor; [|constructor]. apply Hline; [simpl; tauto|by apply H3].
    + assert (0 <= default 0 (last_handshake_unix q)).
      { destruct (last_handshake_unix q) as [n|]; [specialize (H4 n eq_refl)|]; simpl; lia. }
      repeat (constructor; [apply Hline; [simpl; tauto|apply plain_dec; lia]|]). constructor.
    + clear - H2 Hline. induction H2 as [|v vs Hv _ IH]; [constructor|]. cbn [map].
      constructor; [apply Hline; [simpl; tauto|done]|exact IH].
  - constructor; [|constructor]. apply Hline; [simpl; tauto|]. by apply (plain_dec 0).
Qed.

(** ** Properties *)

(** What the daemon writes of an interface is read back as it is: the
    server's key, the port, and every peer with its addresses, its last
    handshake (none for a peer that never connected), its endpoint and its
    counters, in order, none dropped and none invented. *)
Theorem interface_state_round_trip s :
  state_ok s -> parse_get debug_str (state_text s) = Ok s.
Proof.
  intros Hok. unfold parse_get, state_text. rewrite lines_clean by by apply state_lines_clean.
  destruct Hok as (Hk & Hp & Hps). unfold state_lines.
  assert (Hserver : parse_lines debug_str match server_key_hex s with Some k => [line #"interface_public_key" k] | None => [] end
                      (mkParse no_iface None false) = Ok (mkParse (mkIface (server_key_hex s) None []) None false)).
  { destruct (server_key_hex s) as [k|]; [|done]. destruct (Hk k eq_refl) as (Hpl & Htr & Hd). cbn [parse_lines]. kv.
    change (parse_kv debug_str #"interface_public_key" k (mkParse no_iface None false)) with
      (match decode_hex32 debug_str k with
       | Ok _ => Ok (with_server_key (trim k) (mkParse no_iface None false))
       | Err Panicked => Err Panicked
       | Err _ => Ok (mkParse no_iface None false)
       end).
    destruct (decode_hex32 debug_str k); [|done]. cbn [rbind]. by rewrite Htr. }
  assert (Hport : parse_lines debug_str match listen_port s with Some n => [line #"listen_port" (dec n)] | None => [] end
                    (mkParse (mkIface (server_key_hex s) None []) None false)
                  = Ok (mkParse (mkIface (server_key_hex s) (listen_port s) []) None false)).
  { destruct (listen_port s) as [n|]; [|done]. specialize (Hp n eq_refl). cbn [parse_lines]. kv.
    change (parse_kv debug_str #"listen_port" (dec n) (mkParse (mkIface (server_key_hex s) None []) None false)) with
      (Ok (mkParse (mkIface (server_key_hex s) (parse_unsigned 65535 (dec n)) []) None false) : result Parse WgUapiError).
    by rewrite parse_unsigned_dec. }
  rewrite parse_lines_app, Hserver. cbn [rbind]. rewrite parse_lines_app, Hport. cbn [rbind].
  rewrite parse_lines_app, parse_peers by done. cbn [rbind].
  assert (Herr : forall p, parse_lines debug_str [line #"errno" #"0"] p = Ok (mkParse (iface p) (current p) true)).
  { intros p. cbn [parse_lines]. rewrite parse_line_kv; [reflexivity|apply key_in; simpl; tauto|by apply (plain_dec 0)]. }
  rewrite Herr. cbn [rbind saw_errno]. destruct s as [k n ps]. cbn [peers].
  f_equal. destruct (rev ps) as [|l f] eqn:E; apply (f_equal (@rev PeerState)) in E; rewrite rev_involutive in E; subst ps; [done|].
  cbn. unfold flush. cbn. done.
Qed.
End RoundTrip.

(** A phone and a laptop on the interface, the laptop never connected. *)
Definition demo_key : str := flat_map (fun _ => #"0a") (seq 0 32).
Definition demo_curve : Curve := {| x25519_base := fun k => k |}.
Definition demo_state : InterfaceState :=
  mkIface (Some demo_key) (Some 51820)
    [mkPeer (flat_map (fun _ => #"b1") (seq 0 32)) [ #"10.9.0.2/32"] (Some 1769000000) (Some #"203.0.113.7:54321") 4096 8192;
     mkPeer (flat_map (fun _ => #"c2") (seq 0 32)) [ #"10.9.0.3/32"; #"fd00::3/128"] None None 0 0].

Lemma plain_by v : bool_decide (10 ∉ v) && negb (is_white (List.last v 32)) = true -> plain v.
Proof.
  intros [Hv Hw]%andb_true_iff. split; [by apply bool_decide_eq_true in Hv|].
  destruct v as [|c v] using rev_ind; [by vm_compute in Hw|]. exists v, c. rewrite last_last in Hw.
  split; [done|]. by apply negb_true_iff.
Qed.

Lemma interface_state_round_trip_witness :
  state_ok (fun s => s) demo_state /\
  @parse_get (fun s => s) demo_curve (state_text demo_state) = Ok demo_state.
Proof.
  assert (H : state_ok (fun s => s) demo_state).
  { unfold demo_state. split; [|split]; cbn [server_key_hex listen_port peers].
    - intros k E. assert (k = demo_key) as -> by congruence.
      split; [apply plain_by; by vm_compute|]. split; by vm_compute.
    - intros n E. assert (n = 51820) as -> by congruence. lia.
    - constructor; [|constructor; [|constructor]]; unfold peer_ok;
        cbn [public_key_hex allowed_ips endpoint last_handshake_unix tx_bytes rx_bytes]; unfold u64_max;
        (split; [apply plain_by; by vm_compute|]);
        (split; [repeat (constructor; [apply plain_by; by vm_compute|]); constructor|]).
      + split; [intros e E; assert (e = #"203.0.113.7:54321") as -> by congruence; apply plain_by; by vm_compute|].
        split; [intros n E; assert (n = 1769000000) as -> by congruence; lia|]. lia.
      + split; [done|]. split; [done|]. lia. }
  split; [exact H|]. exact (@interface_state_round_trip demo_curve (fun s => s) demo_state H).
Defined.

(** ** What an issued road rests on *)

Section Issued.
Context {PR : Primitives} {CV : Curve} (debug_str : str -> str) (qr_document : str -> result str str).

Definition wevent : Type := {o : wop & wresp o}.
Definition wevent_of (o : wop) (_ : Z) (x : wresp o) : wevent := existT o x.

(** The answer carries the interface's state. *)
Definition state_read (e : wevent) : option InterfaceState :=
  let '(existT o x) := e in
  match o return wresp o -> option InterfaceState with
  | Exchange body => fun x =>
      if str_eqb body render_get then rok (let? text := x in parse_get debug_str text) else None
  | Run cli args => fun x =>
      match x with
      | Done out =>
          if str_eqb cli #"wg" && bool_decide (args = [ #"show"; nth 1 args []; #"dump"])
          then Some (parse_wg_dump (trim out)) else None
      | _ => None
      end
  | _ => fun _ => None
  end x.

(** The daemon took a peer with this key and this one address. *)
Definition peer_added (hex ip : str) (e : wevent) : bool :=
  let '(existT o x) := e in
  match o return wresp o -> bool with
  | Exchange body => fun x =>
      match render_add_peer debug_str hex [ip ++ #"/32"], x with
      | Ok b, Ok text => str_eqb body b && is_ok (parse_set_result text)
      | _, _ => false
      end
  | Run cli args => fun x =>
      match hex_to_b64 debug_str hex, x with
      | Ok b64, Done _ =>
          str_eqb cli #"wg" &&
          bool_decide (args = [ #"set"; nth 1 args []; #"peer"; b64; #"allowed-ips"; ip ++ #"/32"])
      | _, _ => false
      end
  | _ => fun _ => false
  end x.

Definition journaled (tr : list wevent) : list CommandRecord :=
  omap (fun e : wevent => match projT1 e with WriteJournal _ _ rec => Some rec | _ => None end) tr.

Lemma journaled_app a b : journaled (a ++ b) = journaled a ++ journaled b.
Proof. apply omap_app. Qed.

Abbreviation wran tr p post := (wp wevent_of (fun _ _ => True) tr p post).

Lemma resolve_backend_ran place sc tr :
  wran tr (resolve_backend place sc) (fun _ tr' => journaled tr' = journaled tr).
Proof.
  unfold resolve_backend. destruct (uapi_endpoint sc) as [sock|]; [|done]. cbn [wp]. split; [done|]. intros t0 x0; destruct (x0 : bool).
  - cbn [wp]. by rewrite journaled_app, app_nil_r.
  - destruct (is_network sock); cbn [wp]; [by rewrite journaled_app, app_nil_r|].
    split; [done|]. intros t1 x1; destruct (x1 : bool); cbn [wp]; by rewrite !journaled_app, !app_nil_r.
Qed.

Lemma read_state_ran sc b tr :
  wran tr (read_state debug_str sc b) (fun r tr' => journaled tr' = journaled tr /\
    forall s, r = Ok s -> exists e, tr' = tr ++ [e] /\ state_read e = Some s).
Proof.
  destruct b as [sock|iface]; unfold read_state, run_cli; cbn [bind wp]; (split; [done|]); intros t0 x.
  - split; [by rewrite journaled_app, app_nil_r|]. intros s Hs. eexists. split; [done|].
    unfold state_read, wevent_of. rewrite str_eqb_refl. destruct x as [text|e]; [|done]. simpl in *.
    destruct (parse_get debug_str text); [|done]. by simplify_eq/=.
  - split; [by rewrite journaled_app, app_nil_r|]. intros s Hs. eexists. split; [done|].
    destruct x as [|e|code err|out]; [done..|]. assert (s = parse_wg_dump (trim out)) as -> by congruence.
    unfold state_read, wevent_of. rewrite str_eqb_refl. cbn [andb nth]. by rewrite bool_decide_eq_true_2.
Qed.

Lemma add_peer_ran sc b hex ip tr :
  wran tr (add_peer debug_str sc b hex ip) (fun r tr' => journaled tr' = journaled tr /\
    (r = Ok tt -> exists e t, tr' = tr ++ e :: t /\ peer_added hex ip e = true)).
Proof.
  unfold add_peer, set_peer. destruct b as [sock|iface].
  - destruct (render_add_peer debug_str hex [ip ++ #"/32"]) as [body|e] eqn:Eb; [|done].
    cbn [wp]. split; [done|]. intros t0 x. split; [by rewrite journaled_app, app_nil_r|]. intros Hr.
    eexists _, []. split; [done|]. unfold peer_added, wevent_of. rewrite Eb. destruct x as [text|]; [|done]. simpl in *.
    rewrite str_eqb_refl. by destruct (parse_set_result text).
  - destruct (hex_to_b64 debug_str hex) as [b64|e] eqn:Eb; [|done]. unfold run_cli. cbn [bind wp app].
    split; [done|]. intros t0 x. assert (Hj : forall ev : wevent, match projT1 ev with WriteJournal _ _ _ => False | _ => True end -> journaled [ev] = []).
    { intros [[] ?]; simpl; done. }
    destruct x as [|e|code err|out]; cbn [bind wp];
      try (split; [by rewrite journaled_app, Hj, app_nil_r|done]).
    split; [done|]. intros t1 y. split; [by rewrite !journaled_app, !Hj, !app_nil_r by done|]. intros _.
    eexists _, [_]. split; [by rewrite <- app_assoc|]. unfold peer_added, wevent_of. rewrite Eb.
    apply andb_true_iff. split; [done|]. by apply bool_decide_eq_true.
Qed.
(** What the operator is handed rests on what the daemon said and did. *)
Inductive rests_on (tr : list wevent) (cfg : OperatorConfig) : Prop :=
| rests before reading drawn adding after seen octet private_b64 :
    tr = before ++ reading :: existT RandomKey (Ok drawn) :: adding :: after ->
    state_read reading = Some seen ->
    2 <= octet <= 254 -> ~ routed seen octet -> (forall m, 2 <= m < octet -> routed seen m) ->
    client_ip cfg = #"10.9.0." ++ dec octet ->
    peer_added (public_hex (from_private drawn)) (client_ip cfg) adding = true ->
    hex_to_b64 debug_str (private_hex (from_private drawn)) = Ok private_b64 ->
    hex_to_b64 debug_str (public_hex (from_private drawn)) = Ok (peer_public_key cfg) ->
    public_key_b64 debug_str seen = Some (server_public_key cfg) ->
    conf cfg = render_conf private_b64 (client_ip cfg) (server_public_key cfg) (conf_endpoint cfg) ->
    rests_on tr cfg.

Lemma rests_on_app tr more cfg : rests_on tr cfg -> rests_on (tr ++ more) cfg.
Proof.
  destruct 1 as [b r d a t s n pb ->]. eapply (rests _ _ b r d a (t ++ more)); eauto. by rewrite <- app_assoc.
Qed.

Lemma issue_from_ran sc b host state e tr0 :
  state_read e = Some state ->
  wran (tr0 ++ [e]) (issue_from debug_str qr_document sc b host state) (fun r tr' =>
    journaled tr' = journaled (tr0 ++ [e]) /\ forall cfg, r = Ok cfg -> rests_on tr' cfg).
Proof.
  intros He. unfold issue_from.
  destruct (public_key_b64 debug_str state) as [server_key|] eqn:Esk; [|done].
  destruct (listen_port state) as [port|]; [|done].
  destruct (next_free_client_ip state) as [ip|] eqn:Eip; [|done].
  apply next_free_iff in Eip as (n & Hn & -> & Hfree & Hlow).
  cbn [wp]. split; [done|]. intros t0 x.
  assert (Hq : journaled ((tr0 ++ [e]) ++ [wevent_of RandomKey t0 x]) = journaled (tr0 ++ [e]))
    by by rewrite (journaled_app (tr0 ++ [e])), app_nil_r.
  destruct x as [bytes|err]; [|done].
  destruct (hex_to_b64 debug_str (private_hex (from_private bytes))) as [pb|] eqn:Epb; [|done].
  destruct (hex_to_b64 debug_str (public_hex (from_private bytes))) as [kb|] eqn:Ekb; [|done].
  apply wp_bind. eapply wp_mono; [apply add_peer_ran|]. intros added tr2 [Hj Hadd].
  rewrite Hq in Hj. destruct added as [[]|]; [|done].
  destruct (Hadd eq_refl) as (ea & t & Htr & Hea).
  destruct (render_qr_svg qr_document _) as [svg|]; [|done]. split; [done|].
  intros cfg E. assert (cfg = mkOperatorConfig (render_conf pb (#"10.9.0." ++ dec n) server_key (host ++ #":" ++ dec port)) svg
    (#"10.9.0." ++ dec n) (host ++ #":" ++ dec port) server_key kb (console_tunnel_url sc)) as -> by congruence.
  eapply (rests _ _ tr0 e bytes ea t state n pb); cbn [client_ip peer_public_key server_public_key conf conf_endpoint]; try done.
  rewrite Htr, <- !app_assoc. done.
Qed.

(** C10: a road into the console that was handed out rests, in this order, on
    the interface's state as the daemon gave it, on a key drawn fresh, and on
    the daemon's word that it took the key: the address is the lowest of the
    tunnel that no peer of that state has, the text carries the drawn key and
    the server's, and the grant is journaled once when there is a journal.  An
    error hands out nothing and journals nothing. *)
Theorem issued_road_is_free_and_authorized place sc bus join_error :
  wran [] (operator_wg_config debug_str qr_document place sc bus join_error) (fun r tr =>
    match r with
    | Ok cfg =>
        rests_on tr cfg /\
        journaled tr = (if bus then [action_record sc #"console.issue_wg_peer" (peer_public_key cfg) (#"issued:" ++ client_ip cfg)] else [])
    | Err _ => journaled tr = []
    end).
Proof.
  unfold operator_wg_config, issue_blocking. apply wp_bind.
  apply (wp_mono _ _ _ _ (fun r tr => journaled tr = [] /\ forall cfg, r = Ok cfg -> rests_on tr cfg)).
  - apply wp_bind. eapply wp_mono; [apply resolve_backend_ran|]. intros [b|] tr Htr; [|done].
    change (journaled []) with (@nil CommandRecord) in Htr.
    destruct (endpoint_host sc) as [host|]; [|done].
    apply wp_bind. eapply wp_mono; [apply read_state_ran|]. intros [state|] tr1 [Hj Hr]; [|split; [congruence|done]].
    destruct (Hr _ eq_refl) as (e & -> & He).
    eapply wp_mono; [by apply issue_from_ran|]. intros r tr2 [Hj2 Hok]. split; [congruence|done].
  - intros r tr [Hj Hok]. destruct r as [cfg|[]]; try done. cbn [joined].
    specialize (Hok cfg eq_refl). unfold journal_peer_action. destruct bus.
    + cbn [bind wp app]. split; [done|]. intros t0 x. cbn [wp].
      split; [by apply rests_on_app|]. by rewrite journaled_app, Hj.
    + done.
Qed.
End Issued.

(** ** A daemon to run against *)

(** It keeps peers and takes a request of one peer; the journal is beside it. *)
Record DemoBox : Type := mkBox { box_iface : InterfaceState; box_journal : list CommandRecord }.

Definition demo_added (body : str) : option PeerState :=
  match omap (strip_prefix #"public_key=") (Text.lines body), omap (strip_prefix #"allowed_ip=") (Text.lines body) with
  | [k], ips => Some (mkPeer k ips None None 0 0)
  | _, _ => None
  end.

(** One operation; the random bytes come from outside. *)
Definition demo_perform (random : list Z) (o : wop) (s : DemoBox) : wresp o * DemoBox :=
  match o return wresp o * DemoBox with
  | Exists_ => (true, s)
  | Exchange body =>
      if str_eqb body render_get then (Ok (state_text (box_iface s)), s)
      else match demo_added body with
           | Some p =>
               (Ok (#"errno=0" ++ [10; 10]),
                mkBox (mkIface (server_key_hex (box_iface s)) (listen_port (box_iface s)) (peers (box_iface s) ++ [p])) (box_journal s))
           | None => (Ok (#"errno=22" ++ [10; 10]), s)
           end
  | WgVersion => (false, s)
  | Run _ _ => (NotFound, s)
  | RandomKey => (Ok random, s)
  | WriteJournal _ _ rec => (Ok tt, mkBox (box_iface s) (box_journal s ++ [rec]))
  end.

Definition demo_scope : Scope :=
  mkScope None None (fun k => if str_eqb k #"GENARYX_WG_ENDPOINT_HOST" then Some #"203.0.113.1" else None).
Definition demo_issue (qr : str -> result str str) (_ : unit) : wprogram (result OperatorConfig WgOperatorError) :=
  @operator_wg_config demo_primitives demo_curve (fun s => s) qr None demo_scope true [].
Definition demo_box : DemoBox := mkBox (mkIface (Some demo_key) (Some 51820) []) [].

(** Two operators ask at once.  Each request reads the interface before the
    other's peer is on it: both are handed [10.9.0.2], each for its own key,
    and both grants are journaled.  The key of request [i] is drawn from
    [i + 1]. *)
Definition demo_run (qr : str -> result str str) (requests : nat) (schedule : list nat) :=
  final wevent_of (demo_issue qr) demo_perform (fun _ : list Z => 0) (initial demo_box 0)
    (repeat (Arrive tt) requests ++ map (fun i => Perform i (repeat (Z.of_nat i + 8) 32)) schedule).

Definition demo_address (t : option (wprogram (result OperatorConfig WgOperatorError))) : option (result str WgOperatorError) :=
  match t with Some (Ret (Ok cfg)) => Some (Ok (client_ip cfg)) | Some (Ret (Err e)) => Some (Err e) | _ => None end.

Example two_requests_one_address :
  let s := demo_run Ok 2 [0; 1; 0; 1; 0; 0; 0; 1; 1; 1]%nat in
  demo_address (sys_threads s !! 0%nat) = Some (Ok #"10.9.0.2") /\
  demo_address (sys_threads s !! 1%nat) = Some (Ok #"10.9.0.2") /\
  map allowed_ips (peers (box_iface (sys_state s))) = [[ #"10.9.0.2/32"]; [ #"10.9.0.2/32"]] /\
  length (box_journal (sys_state s)) = 2%nat.
Proof. vm_compute. repeat split; reflexivity. Qed.

(** The peer is on the interface before the picture is drawn: a text that no
    picture holds leaves a peer that nobody has the text of, and no line of
    the journal names it. *)
Example unfinished_issue_leaves_its_peer :
  let s := demo_run (fun _ => Err #"data too long") 1 [0; 0; 0; 0]%nat in
  demo_address (sys_threads s !! 0%nat) = Some (Err (Exec #"could not encode the config as a QR: data too long")) /\
  map allowed_ips (peers (box_iface (sys_state s))) = [[ #"10.9.0.2/32"]] /\
  box_journal (sys_state s) = [].
Proof. vm_compute. repeat split; reflexivity. Qed.

(** The excerpt of a key that is refused is cut at byte 16, which may be
    inside a character. *)
Example refused_key_panics :
  decode_hex32 (fun s => s) (#"aaaaaaaaaaaaaaa" ++ [233]) = Err Panicked.
Proof. reflexivity. Qed.
