(* ===== verification/Wardryx.v ===== *)
(** * Wardryx: the policy service's client ([crates/connectors/src/wardryx.rs])

    One request handed to the HTTP client and one answer per call, under one
    bearer.  An answer that is
    not a success becomes the one error its status and its message name.  The
    typed readers of the service's answers are serde's, the class
    [WardryxWire]; what the client itself reads out of a held approval's
    context and out of a token it reads here. *)
From S2P Require Import Prelude Text Json Signing Jcs Lifecycle Http Prog Effects Cloud.

Inductive WardryxError : Type :=
| WTransport (e : str)
| WJson (e : str)
| WInvalidPathSegment (e : PathSegmentError)
| WApi (status : Z) (body : str)
| ApprovalNotFound
| ApprovalAlreadyDecided
| NoApprovalSecret
| Forbidden
| BadToken (why : str).

Definition wardryx_text (e : WardryxError) : str :=
  match e with
  | WTransport e => #"http transport: " ++ e
  | WJson e => #"json: " ++ e
  | WInvalidPathSegment e => #"invalid id for a URL path segment: " ++ path_error_text e
  | WApi status body => #"wardryx returned HTTP " ++ dec status ++ #": " ++ body
  | ApprovalNotFound => #"approval not found"
  | ApprovalAlreadyDecided => #"approval was already decided"
  | NoApprovalSecret => #"WARDRYX_APPROVAL_SECRET is not configured on the server; grant refused"
  | Forbidden => #"admin role required"
  | BadToken why => #"could not decode approval_token: " ++ why
  end.

(** ** What the service answers *)

(** [context] is [None] when the service sent none. *)
Record Approval : Type := mkApproval
  { approval_id : str; ap_agent : str; ap_run : str; requested_at : str; decided_at : option str;
    decided_by : option str; ap_decision : option str; pending : bool; context : option (list (str * value)) }.

Record HeldToolCall : Type := mkHeld
  { held_name : option str; held_target : option str; arguments_truncated : option bool; held_digest : option str }.

Record PolicyRow : Type := mkRow { row_id : str; row_policy : Policy; updated_at : option str }.
Record WardryxStatus : Type := mkStatus
  { policy_version_now : str; base_policies : Z; store_policies : Z; effective_policies : Z }.
Record ApprovalDecideResponse : Type := mkDecided
  { decided_id : str; decided_as : str; approval_token : option str }.
Record ApprovalTokenClaims : Type := mkToken
  { tk_agent : str; tk_run : str; tools : list str; max_cost_usd : f64; tk_exp : Z; nonce : str;
    tool_call_digest : option str }.

Class WardryxWire := {
  read_error_envelope : list Z -> option str;            (* [ErrorEnvelope] *)
  read_approvals : list Z -> result (list Approval) str;
  read_policy : list Z -> result PolicyRow str;
  read_policies : list Z -> result (list PolicyRow) str;
  read_status : list Z -> result WardryxStatus str;
  read_decided : list Z -> result ApprovalDecideResponse str;
  read_claims_json : list Z -> option ApprovalTokenClaims;
  number_f64 : number -> f64;                            (* [Number::as_f64] *)
  show_f64_2 : f64 -> str;                               (* [{:.2}] *)
}.

(** ** Reading a held approval's context *)

Definition context_get (key : str) (a : Approval) : option value := let! ms := context a in obj_get key ms.

(** [collect] of an array of strings. *)
Fixpoint strings (vs : list value) : option (list str) :=
  match vs with
  | [] => Some []
  | v :: vs => let! s := as_str v in let! rest := strings vs in Some (s :: rest)
  end.
Definition context_strings (key : str) (a : Approval) : option (list str) :=
  let! v := context_get key a in let! vs := as_array v in strings vs.
Definition context_str (key : str) (a : Approval) : option str := let! v := context_get key a in as_str v.

Definition tool_names (a : Approval) : option (list str) := context_strings #"tool_names" a.
Definition est_cost_usd {WW : WardryxWire} (a : Approval) : option f64 :=
  match context_get #"est_cost_usd" a with Some (VNum n) => Some (number_f64 n) | _ => None end.
Definition ap_reason (a : Approval) : option str := context_str #"reason" a.
Definition on_behalf_of (a : Approval) : option (list str) := context_strings #"on_behalf_of" a.
Definition policy_version (a : Approval) : option str := context_str #"policy_version" a.
Definition ap_org (a : Approval) : option str := context_str #"org" a.
Definition ap_model (a : Approval) : option str := context_str #"model" a.

Definition tool_call (a : Approval) : option HeldToolCall :=
  match context_get #"tool_call" a with
  | None | Some VNull => None
  | Some call =>
      Some (mkHeld (get_str #"name" call) (get_str #"target" call) (get_bool #"arguments_truncated" call)
              (get_str #"digest" call))
  end.

(** ** The token of a grant *)

Section Token.
Context {PR : Primitives} {WW : WardryxWire}.

(** [ApprovalTokenClaims::decode]: the claims, which nobody verifies here. *)
Definition decode_token (token : str) : result ApprovalTokenClaims WardryxError :=
  let read payload :=
    if bool_decide (payload = []) then Err (BadToken #"empty claims payload")
    else
      let? decoded := ok_or (b64url_decode payload) (BadToken #"invalid base64url payload") in
      ok_or (read_claims_json decoded) (BadToken #"invalid claims JSON") in
  match split_char 46 token with
  | [_] => Err (BadToken #"missing '.' separator")
  | [payload; _] | [_; payload; _] => read payload
  | _ => Err (BadToken #"too many segments")
  end.
End Token.

(** Times in Unix nanoseconds. *)
Definition expires_at (c : ApprovalTokenClaims) : Z := Z.max (tk_exp c) 0 * 1000000000.
Definition is_expired (c : ApprovalTokenClaims) (now : Z) : bool := expires_at c <? now.
Definition ttl_remaining_secs (c : ApprovalTokenClaims) (now : Z) : Z := Z.max 0 (expires_at c - now) / 1000000000.

(** ** The client *)

Record WardryxClient : Type := mkWardryx { w_url : str; w_bearer : str }.
Definition new_wardryx (base_url bearer_token : str) : WardryxClient := mkWardryx (base_url_of base_url) bearer_token.

(** Its [reqwest] client, whose builder says nothing of redirects. *)
Definition wardryx_redirects : Redirects := DefaultPolicy.

Inductive ApprovalVerdict : Type := Grant | Deny.
Definition as_wire (v : ApprovalVerdict) : str := match v with Grant => #"grant" | Deny => #"deny" end.

(** The members of a struct, in the order they are declared. *)
Definition decide_request_body (verdict : ApprovalVerdict) (decided_by : str) (approver_statement : option str) : value :=
  VObj ([(#"decision", VStr (as_wire verdict)); (#"decided_by", VStr decided_by)]
        ++ match approver_statement with Some s => [(#"approver_statement", VStr s)] | None => [] end).

(** [skip_serializing_if]: a member that has its type's default is left out. *)
Definition f64_is_zero (x : f64) : bool := forallb (Z.eqb 0) (f_digits x).
Definition policy_body (p : Policy) : value :=
  let strs l := VArr (map VStr l) in
  let unless (b : bool) m := if b then [] else [m] in
  VObj (unless (bool_decide (name p = [])) (#"name", VStr (name p))
        ++ [(#"target", VStr (target p))]
        ++ unless (bool_decide (deny_tool p = [])) (#"deny_tool", strs (deny_tool p))
        ++ unless (bool_decide (allow_domains p = [])) (#"allow_domains", strs (allow_domains p))
        ++ unless (f64_is_zero (require_human_above_usd p)) (#"require_human_above_usd", VNum (NFloat (require_human_above_usd p)))
        ++ unless (f64_is_zero (deny_above_usd p)) (#"deny_above_usd", VNum (NFloat (deny_above_usd p)))
        ++ unless (max_steps p =? 0) (#"max_steps", VNum (NInt (max_steps p)))
        ++ unless (negb (deny_if_unattested p)) (#"deny_if_unattested", VBool true)).

Section Client.
Context {JT : JsonText} {WW : WardryxWire}.

Definition classify_wardryx (status : Z) (bytes : list Z) : WardryxError :=
  let message := default [] (read_error_envelope bytes) in
  if (status =? 404) && str_eqb message #"approval not found" then ApprovalNotFound
  else if status =? 409 then ApprovalAlreadyDecided
  else if status =? 403 then Forbidden
  else if (status =? 500) && contains #"WARDRYX_APPROVAL_SECRET" message then NoApprovalSecret
  else WApi status (from_utf8_lossy bytes).

Definition wardryx_response {T} (read : list Z -> result T str) (x : result Response str) : result T WardryxError :=
  let? r := map_err WTransport x in
  let? bytes := map_err WTransport (whole (chunks r)) in
  if is_success (status r) then map_err WJson (read bytes) else Err (classify_wardryx (status r) bytes).

(** A success whose body nobody reads. *)
Definition done_or_error (x : result Response str) : result unit WardryxError :=
  let? r := map_err WTransport x in
  if is_success (status r) then Ok tt
  else let? bytes := map_err WTransport (whole (chunks r)) in Err (classify_wardryx (status r) bytes).

Definition wardryx_get {T} (c : WardryxClient) (read : list Z -> result T str) (path : str)
  : program (result T WardryxError) :=
  do x <- Send (mkRequest #"GET" (w_url c ++ path) (Some (w_bearer c)) [] []);
  Ret (wardryx_response read x).

Definition json_request (c : WardryxClient) (method path : str) (body : value) : Request :=
  mkRequest method (w_url c ++ path) (Some (w_bearer c)) [json_header] (str_bytes (json_text body)).

Definition send_json {T} (c : WardryxClient) (read : list Z -> result T str) (method path : str) (body : value)
  : program (result T WardryxError) :=
  do x <- Send (json_request c method path body); Ret (wardryx_response read x).

Definition healthz (c : WardryxClient) : program (result unit WardryxError) :=
  do x <- Send (mkRequest #"GET" (w_url c ++ #"/healthz") None [] []); Ret (done_or_error x).

Definition wardryx_status (c : WardryxClient) : program (result WardryxStatus WardryxError) :=
  wardryx_get c read_status #"/v1/status".
Definition list_approvals (c : WardryxClient) : program (result (list Approval) WardryxError) :=
  wardryx_get c read_approvals #"/v1/approvals".

Definition decide_path (segment : str) : str := #"/v1/approvals/" ++ segment ++ #"/decide".

Definition decide_approval_with_statement (c : WardryxClient) (id : str) (verdict : ApprovalVerdict)
  (decided_by : str) (approver_statement : option str) : program (result ApprovalDecideResponse WardryxError) :=
  match path_segment id with
  | Err e => Ret (Err (WInvalidPathSegment e))
  | Ok segment =>
      send_json c read_decided #"POST" (decide_path segment) (decide_request_body verdict decided_by approver_statement)
  end.
Definition decide_approval (c : WardryxClient) (id : str) (verdict : ApprovalVerdict) (decided_by : str)
  : program (result ApprovalDecideResponse WardryxError) :=
  decide_approval_with_statement c id verdict decided_by None.

Definition wardryx_policies (c : WardryxClient) : program (result (list PolicyRow) WardryxError) :=
  wardryx_get c read_policies #"/v1/policies".

(** A call on the policy an id names. *)
Definition on_policy {T} (id : str) (call : str -> program (result T WardryxError)) : program (result T WardryxError) :=
  match path_segment id with
  | Err e => Ret (Err (WInvalidPathSegment e))
  | Ok segment => call (#"/v1/policies/" ++ segment)
  end.
Definition get_policy (c : WardryxClient) (id : str) : program (result PolicyRow WardryxError) :=
  on_policy id (wardryx_get c read_policy).
Definition wardryx_put (c : WardryxClient) (id : str) (p : Policy) : program (result PolicyRow WardryxError) :=
  on_policy id (fun path => send_json c read_policy #"PUT" path (policy_body p)).
Definition wardryx_delete (c : WardryxClient) (id : str) : program (result unit WardryxError) :=
  on_policy id (fun path =>
    do x <- Send (mkRequest #"DELETE" (w_url c ++ path) (Some (w_bearer c)) [] []); Ret (done_or_error x)).
End Client.
