(* ===== verification/Approvals.v ===== *)
(** * Approvals: a person decides a held call
    ([crates/api/src/policy/commands.rs], [policy/approver.rs],
    [policy/state.rs])

    The policy service holds a call until somebody grants or denies it.  The
    console sends the decision with a statement signed for the person whose
    passkey confirmed it, shows the token of a grant once, and journals the
    attempt whatever the service answers; a decision whose statement cannot be
    made is refused before anything is sent. *)
From S2P Require Import Prelude Text Json JsonCode Signing Approver Jcs Ingest Command Lifecycle Http Prog Effects Cloud Wardryx.

(** ** The console's approver key ([approver.rs]) *)

Definition statement_error_text (e : StatementError) : str :=
  match e with
  | EClaims why => #"the approver statement's claims are refused: " ++ why
  | EMalformed why => why
  | Unverified => #"the approver statement does not verify under the console key"
  | EKey e => signing_error_text e
  end.

Inductive ApproverKey : Type :=
| KeyNotConfigured
| KeyReady (signer : Es256Signer)
| KeyFailed (reason : str).

Definition STATEMENT_LIFETIME_SECS : Z := 120.

Record StatementRequest : Type := mkStatementRequest
  { sr_approval : str; sr_decision : str; sr_approver : str; passkey_credential : option str }.

Inductive Refusal : Type :=
| NoPasskeyConfirmed
| KeyUnusable (reason : str)
| StatementRefused (reason : str).

(** [ApproverKey::load]: [read] answers a file's text. *)
Definition load_key {PR : Primitives} (from_scalar : list Z -> result Es256Signer SigningError)
  (read : str -> result str str) (path : option str) : ApproverKey :=
  match path with
  | None => KeyNotConfigured
  | Some path =>
      match (let? pem := read path in map_err statement_error_text (signer_from_pkcs8_pem from_scalar pem)) with
      | Ok signer => KeyReady signer
      | Err reason => KeyFailed (path ++ #": " ++ reason)
      end
  end.


Definition statement_claims (request : StatementRequest) (credential : str) (now : Z) (jti : str) : Claims :=
  mkClaims (sr_approver request) credential (sr_approval request) (sr_decision request) now
    (now + STATEMENT_LIFETIME_SECS) jti.

(** The public key set of a key file, as its text ([to_string_pretty]). *)
Definition jwks_for_key_file {PR : Primitives} {JT : JsonText} (pretty : value -> str)
  (from_scalar : list Z -> result Es256Signer SigningError) (read : str -> result str str) (path : str) : result str str :=
  let named e := path ++ #": " ++ e in
  let? pem := map_err named (read path) in
  let? signer := map_err (fun e => named (statement_error_text e)) (signer_from_pkcs8_pem from_scalar pem) in
  let? public := map_err signing_error_text (public_key_x963 signer) in
  let? jwks := map_err statement_error_text (public_jwks public) in
  Ok (pretty jwks).

(** ** The policy plane's state ([state.rs]) *)

(** The discovered environment: [Taipan] carries its name. *)
Inductive EnvSource : Type := Taipan (name : str) | EnvFallback.
Record ResolvedEnv : Type := mkResolved { res_source : EnvSource; res_url : str; res_bearer : str }.

Record PolicyClient : Type := mkPolicyClient
  { wardryx : WardryxClient; pc_source : EnvSource; pc_url : str; org_domain_of : str; pc_operator : str; pc_host : str;
    pc_alg : str; pc_fpr : str; pc_bus : bool }.

Inductive PolicyInner : Type :=
| PBootstrapping
| PNoEnvironment
| PUnreachable (source : EnvSource) (url reason : str)
| PReady (c : PolicyClient).

Definition sanitize_domain (org : str) : str :=
  let s := map (fun c => let lower := to_ascii_lower c in
                         if ascii_alnum lower || (lower =? 46) || (lower =? 45) then lower else 45) (trim org) in
  if bool_decide (s = []) then #"genaryx.local" else s.
Definition org_domain_for (source : EnvSource) : str :=
  match source with Taipan name => sanitize_domain name | EnvFallback => #"wardryx.local" end.
Definition operator_principal (user : option str) (org_domain : str) : str :=
  let user := match user with Some u => if bool_decide (trim u = []) then #"operator" else u | None => #"operator" end in
  #"user://" ++ org_domain ++ #"/" ++ user.
(** [local_hostname]: [HOSTNAME], else what the [hostname] program printed. *)
Definition local_hostname (var : option str) (program : option str) : str :=
  match (let! h := var in if bool_decide (trim h = []) then None else Some h) with
  | Some h => h
  | None => default #"localhost" (let! out := program in if bool_decide (trim out = []) then None else Some (trim out))
  end.

Section Bootstrap.
Context {WW : WardryxWire}.

Definition connect (env : ResolvedEnv) : program (result WardryxClient str) :=
  let client := new_wardryx (res_url env) (res_bearer env) in
  do! alive <- healthz client;
  Ret (match alive with
       | Ok _ => Ok client
       | Err e => Err (#"wardryx health check failed: " ++ wardryx_text e)
       end).

(** What startup makes of the connection; [None] is the timeout. *)
Definition bootstrapped (user hostname_var hostname_program : option str) (bus : bool) (env : ResolvedEnv)
  (connected : option (result WardryxClient str)) : PolicyInner :=
  match connected with
  | Some (Ok client) =>
      let org := org_domain_for (res_source env) in
      PReady (mkPolicyClient client (res_source env) (res_url env) org (operator_principal user org)
                (local_hostname hostname_var hostname_program) #"none" #"bearer-admin" bus)
  | Some (Err reason) => PUnreachable (res_source env) (res_url env) reason
  | None => PUnreachable (res_source env) (res_url env) #"timed out after 10s waiting for wardryx to respond"
  end.
End Bootstrap.

(** ** The commands ([commands.rs]) *)

Inductive PolicyError : Type :=
| PEBootstrapping
| PEApproverStatement (reason : str)
| PENoEnvironment
| PEUnreachable (reason : str)
| PEWardryx (status : option Z) (message : str).

Definition policy_error (e : WardryxError) : PolicyError :=
  match e with
  | WTransport e => PEWardryx None (#"could not reach wardryx: " ++ e)
  | WJson e => PEWardryx None (#"unexpected response shape from wardryx: " ++ e)
  | WApi status body => PEWardryx (Some status) body
  | ApprovalNotFound => PEWardryx (Some 404) #"approval not found"
  | ApprovalAlreadyDecided => PEWardryx (Some 409) #"approval was already decided"
  | NoApprovalSecret => PEWardryx (Some 500) #"WARDRYX_APPROVAL_SECRET is not configured on the server; grant refused"
  | Forbidden => PEWardryx (Some 403) #"admin role required"
  | BadToken msg => PEWardryx None (#"could not decode approval_token: " ++ msg)
  | WInvalidPathSegment e => PEWardryx None (#"this id cannot be used in a request path: " ++ path_error_text e)
  end.


Definition ready_policy (st : PolicyInner) : result PolicyClient PolicyError :=
  match st with
  | PReady c => Ok c
  | PBootstrapping => Err PEBootstrapping
  | PNoEnvironment => Err PENoEnvironment
  | PUnreachable _ _ reason => Err (PEUnreachable reason)
  end.








Section Decide.
Context {PR : Primitives} {JT : JsonText} {WW : WardryxWire}.

Definition make_statement (signer : Es256Signer) (request : StatementRequest) (credential : str) (now : Z)
  (drawn : result (list Z) str) : result str Refusal :=
  let? jti := map_err (fun e => StatementRefused (signing_error_text e)) (random_hex drawn) in
  map_err (fun e => StatementRefused (statement_error_text e)) (sign signer (statement_claims request credential now jti)).




(** The reads. *)
Record ApprovalDto : Type := mkApprovalDto
  { ad_id : str; ad_agent : str; ad_run : str; ad_requested : str; ad_decided_at : option str; ad_decided_by : option str;
    ad_decision : option str; ad_pending : bool; ad_tools : list str; ad_cost : option f64; ad_reason : option str;
    ad_on_behalf_of : option (list str); ad_version : option str; ad_org : option str; ad_model : option str;
    ad_tool_call : option HeldToolCall }.
Definition approval_dto (a : Approval) : ApprovalDto :=
  mkApprovalDto (approval_id a) (ap_agent a) (ap_run a) (requested_at a) (decided_at a) (decided_by a) (ap_decision a)
    (pending a) (default [] (tool_names a)) (est_cost_usd a) (ap_reason a) (on_behalf_of a) (policy_version a) (ap_org a)
    (ap_model a) (tool_call a).

Definition policy_read {T} (st : PolicyInner) (call : WardryxClient -> program (result T WardryxError))
  : program (result T PolicyError) :=
  match ready_policy st with
  | Err e => Ret (Err e)
  | Ok c => do! r <- call (wardryx c); Ret (map_err policy_error r)
  end.
Definition policy_list_approvals (st : PolicyInner) : program (result (list ApprovalDto) PolicyError) :=
  do! r <- policy_read st list_approvals; Ret (let? l := r in Ok (map approval_dto l)).
Definition policy_list_policies (st : PolicyInner) : program (result (list PolicyRow) PolicyError) :=
  policy_read st wardryx_policies.
Definition policy_enforcement_status (st : PolicyInner) : program (result WardryxStatus PolicyError) :=
  policy_read st wardryx_status.
End Decide.

(** ** Lemmas *)

Section ApprovalsProofs.
Context {PR : Primitives} {JT : JsonText} {WW : WardryxWire}.









(** ** Properties *)

End ApprovalsProofs.

(** ** The statement at the service *)

(** A key that signs for its public half, whose thumbprint is text. *)
Definition working {PR : Primitives} (signer : Es256Signer) (key : list Z) : Prop :=
  public_key_x963 signer = Ok key /\
  (forall m raw, sign_raw signer m = Ok raw ->
     Forall (fun b => 0 <= b <= 255) raw /\ verify_es256 key m raw = Ok tt) /\
  (forall kid, thumbprint key = Ok kid -> valid_str kid).

Section Verified.
Context {PR : Primitives} {PL : PrimitivesLaws} {JT : JsonText} {JL : JsonTextLaws}.

Lemma readable_round ms : readable 127 (obj ms) -> json_round (obj ms).
Proof.
  intros Hr. split; [|by apply text_round].
  apply utf8_bytes. unfold obj in *. apply text_object in Hr. by apply braced_facts in Hr as (? & _).
Qed.

Lemma hex_lower_valid bytes : Forall (fun b => 0 <= b <= 255) bytes -> valid_str (hex_lower bytes).
Proof.
  intros H. eapply Forall_impl; [by apply hex_bytes_chars|]. unfold is_hex, is_scalar. intros c Hc. lia.
Qed.
Lemma payload_readable c :
  valid_str (sub c) -> valid_str (cred c) -> valid_str (aid c) -> valid_str (dec_ c) -> valid_str (jti c) ->
  in_i64 (iat c) = true -> in_i64 (exp c) = true -> readable 127 (jws_payload c).
Proof.
  intros ? ? ? ? ? Hi He. unfold in_i64, i64_min, i64_max in *. unfold jws_payload. apply obj_readable.
  repeat (apply Forall_cons_2; [split; [by apply lit_valid|]; first [done|cbn [readable snd]; lia]|]). constructor.
Qed.

Lemma header_readable kid : valid_str kid -> readable 127 (jws_header kid).
Proof.
  intros Hk. unfold jws_header. apply obj_readable.
  repeat (apply Forall_cons_2; [split; [by apply lit_valid|]; first [exact Hk|by apply lit_valid]|]). constructor.
Qed.

(** C20: the statement a decision carries is one the policy service accepts.
    Read at any time from its making to its end of life, two minutes later, it
    verifies under the public half of the console's key, and gives back the
    person, the passkey, the approval and the decision it was made for, under
    an id drawn for it alone. *)
Theorem made_statement_verifies signer key request credential now bytes jws at_ :
  working signer key ->
  Forall (fun b => 0 <= b <= 255) bytes ->
  Forall valid_str [sr_approval request; sr_decision request; sr_approver request; credential] ->
  make_statement signer request credential now (Ok bytes) = Ok jws ->
  0 <= now -> now <= at_ -> at_ < now + STATEMENT_LIFETIME_SECS -> now + 2 * STATEMENT_LIFETIME_SECS <= i64_max ->
  verify key jws at_ = Ok (mkClaims (sr_approver request) credential (sr_approval request) (sr_decision request) now
                             (now + STATEMENT_LIFETIME_SECS) (hex_lower bytes)).
Proof.
  intros (Hkey & Hsig & Hkid) Hb Hv Hm Hn Hlo Hhi Hmax. rewrite !Forall_cons in Hv. destruct Hv as (Ha & Hd & Hp & Hc & _).
  unfold make_statement in Hm. cbn [random_hex rbind map_err] in Hm. apply map_err_Ok in Hm.
  unfold STATEMENT_LIFETIME_SECS in *.
  apply (signed_verifies signer key (statement_claims request credential now (hex_lower bytes)) jws at_); try done;
    unfold statement_claims, STATEMENT_LIFETIME_SECS; cbn [iat exp].
  - intros kid Hk. apply readable_round, header_readable. by apply Hkid.
  - apply readable_round, payload_readable; cbn [sub cred aid dec_ jti iat exp]; try done.
    + by apply hex_lower_valid.
    + unfold in_i64, i64_min, i64_max in *. b2p. lia.
    + unfold in_i64, i64_min, i64_max in *. b2p. lia.
  - unfold in_i64, i64_min, i64_max in *. b2p. lia.
  - unfold in_i64, i64_min, i64_max in *. b2p. lia.
  - unfold MAX_FUTURE_SKEW_SECS. lia.
Qed.
End Verified.

(** ** A concrete instance *)

#[local] Existing Instance demo_primitives.
#[local] Existing Instance code_json.
#[local] Existing Instance code_json_laws.

Definition demo_request : StatementRequest := mkStatementRequest #"appr-7" #"grant" #"user://acme/alice" (Some #"Y3JlZC0x").
Definition demo_random : list Z := repeat 7 16.
Definition demo_made : str := match make_statement demo_signer demo_request #"Y3JlZC0x" 1000 (Ok demo_random) with Ok s => s | Err _ => [] end.

Lemma demo_works : working demo_signer demo_point.
Proof.
  split; [done|]. split.
  - intros m raw. simpl. case_match eqn:E; [|done]. intros [= <-]. rewrite forallb_Forall in E. split.
    + change (Forall (fun b => 0 <= b <= 255) (demo_point ++ m)). apply Forall_app. split; [repeat constructor; done|].
      eapply Forall_impl; [exact E|]. simpl. intros b Hb. b2p. lia.
    + change ((if bool_decide (demo_point ++ m = demo_point ++ m) then Ok tt
               else Err VerificationFailed) = @Ok unit SigningError tt).
      by rewrite bool_decide_eq_true_2.
  - intros kid Hk. assert (kid = match thumbprint demo_point with Ok k => k | Err _ => [] end) as -> by by rewrite Hk.
    apply forallb_Forall. by vm_compute.
Qed.

Lemma made_statement_verifies_witness :
  verify demo_point demo_made 1119 =
  Ok (mkClaims #"user://acme/alice" #"Y3JlZC0x" #"appr-7" #"grant" 1000 1120 (hex_lower demo_random)).
Proof.
  apply (made_statement_verifies demo_signer demo_point demo_request #"Y3JlZC0x" 1000 demo_random demo_made 1119 demo_works).
  - by repeat constructor.
  - repeat (constructor; [apply forallb_Forall; by vm_compute|]). constructor.
  - by vm_compute.
  - done.
  - done.
  - done.
  - done.
Defined.


