(* ===== verification/Unicode.v ===== *)
(** * Unicode: the character tables and the text scans of the copilot

    Rust's [char::is_alphanumeric], [char::is_alphabetic], [char::is_uppercase]
    and [str::to_lowercase] read the Unicode tables of the standard library:
    the tables are parameters, and the laws say what they hold for ASCII.
    The rest of the file is the scans of [str] the copilot's checks are made
    of, each as an executable function. *)
From S2P Require Import Prelude Text.

Class Unicode := {
  is_alphabetic : Z -> bool;
  is_alphanumeric : Z -> bool;
  is_uppercase : Z -> bool;
  to_lowercase : str -> str;
}.

Class UnicodeLaws {U : Unicode} := {
  alphanumeric_ascii c : 0 <= c < 128 -> is_alphanumeric c = ascii_alnum c;
  alphabetic_ascii c : 0 <= c < 128 -> is_alphabetic c = ascii_lower c || ascii_upper c;
  lowercase_ascii s : Forall (fun c => 0 <= c < 128) s -> to_lowercase s = map to_ascii_lower s;
}.

(** [str::split] with a closure. *)
Fixpoint split_by (p : Z -> bool) (s : str) : list str :=
  match s with
  | [] => [[]]
  | c :: s => if p c then [] :: split_by p s
              else match split_by p s with w :: ws => (c :: w) :: ws | [] => [[c]] end
  end.
Definition non_empty (s : str) : bool := negb (bool_decide (s = [])).

(** [str::match_indices] of a non-empty pattern: for each occurrence, left to
    right and not overlapping, the text before it (last character first) and
    the text after it.  Each step takes a character, so one more step than
    the text has characters is fuel enough. *)
Fixpoint occurrences_aux (fuel : nat) (p before s : str) : list (str * str) :=
  match fuel with
  | O => []
  | S fuel =>
      match strip_prefix p s with
      | Some after => (before, after) :: occurrences_aux fuel p (rev p ++ before) after
      | None => match s with [] => [] | c :: s => occurrences_aux fuel p (c :: before) s end
      end
  end.
Definition occurrences (p s : str) : list (str * str) := occurrences_aux (S (length s)) p [] s.

(** [str::replace]. *)
Definition replace (p q s : str) : str := join q (split_str p s).

(** [Option::is_some_and] on the character before or after. *)
Definition head_is (f : Z -> bool) (s : str) : bool := match s with c :: _ => f c | [] => false end.

(** [slice::windows]. *)
Fixpoint windows {A} (n : nat) (l : list A) : list (list A) :=
  if (n <=? length l)%nat then firstn n l :: match l with [] => [] | _ :: l => windows n l end else [].

(** [str::trim_matches], [str::trim_end_matches] with a closure. *)
Fixpoint trim_start_by (p : Z -> bool) (s : str) : str :=
  match s with c :: s' => if p c then trim_start_by p s' else s | [] => [] end.
Definition trim_end_by (p : Z -> bool) (s : str) : str := rev (trim_start_by p (rev s)).
Definition trim_by (p : Z -> bool) (s : str) : str := trim_end_by p (trim_start_by p s).

(** [str::eq_ignore_ascii_case]. *)
Definition eq_ignore_ascii_case (a b : str) : bool := str_eqb (map to_ascii_lower a) (map to_ascii_lower b).

(** [slice::contains] on a table of words. *)
Definition mem (w : str) (ws : list str) : bool := existsb (str_eqb w) ws.

Lemma mem_iff w ws : mem w ws = true <-> w ∈ ws.
Proof.
  unfold mem. rewrite existsb_exists. split.
  - intros (x&Hin&E). apply str_eqb_eq in E as ->. by apply list_elem_of_In.
  - intros Hin. exists w. split; [by apply list_elem_of_In|apply str_eqb_refl].
Qed.

(** ASCII tables, for evaluating the definitions on ASCII text. *)
Definition ascii_tables : Unicode := {|
  is_alphabetic := fun c => ascii_lower c || ascii_upper c;
  is_alphanumeric := ascii_alnum;
  is_uppercase := ascii_upper;
  to_lowercase := map to_ascii_lower;
|}.
#[export] Instance ascii_tables_laws : @UnicodeLaws ascii_tables.
Proof. by split. Qed.
