(* ===== verification/Residency.v ===== *)
(** * Residency: the copilot talks to this box alone
    ([crates/copilot/src/residency.rs], [resolver.rs], and the gate of
    [provider/mod.rs])

    Unless the operator opted into remote providers, the provider's address is
    a literal local one, or a name the operator listed, all of whose addresses
    are local when the client is built and again at every connection.  URL
    parsing is the [url] crate's, and name lookup the system's. *)
From S2P Require Import Prelude Text Unicode.

(** Four octets, or eight 16-bit segments. *)
Inductive IpAddr : Type :=
| V4 (a b c d : Z)
| V6 (s0 s1 s2 s3 s4 s5 s6 s7 : Z).

(** [is_loopback], [is_private] and [is_link_local] of the standard library. *)
Definition is_local_ipv4 (a b : Z) : bool :=
  (a =? 127) || ((a =? 10) || ((a =? 172) && (16 <=? b) && (b <=? 31)) || ((a =? 192) && (b =? 168)))
  || ((a =? 169) && (b =? 254)).
Definition is_local_ipv6 (segments : list Z) : bool :=
  if bool_decide (segments = [0; 0; 0; 0; 0; 0; 0; 1]) then true
  else
    let first := nth 0 segments 0 in
    (Z.land first 65472 =? 65152) || (Z.land first 65024 =? 64512).
Definition is_local_ip (ip : IpAddr) : bool :=
  match ip with
  | V4 a b _ _ => is_local_ipv4 a b
  | V6 s0 s1 s2 s3 s4 s5 s6 s7 => is_local_ipv6 [s0; s1; s2; s3; s4; s5; s6; s7]
  end.

(** The host of a URL, as the [url] crate parses it. *)
Inductive Host : Type := HostIp (ip : IpAddr) | Domain (name : str).
#[export] Instance IpAddr_eq_dec : EqDecision IpAddr.
Proof. solve_decision. Defined.

Class UrlParse := {
  url_host : str -> option (option Host);   (* [None]: not a URL *)
  show_ip : IpAddr -> str;
}.

Inductive HostResidency : Type := Literal (local : bool) | Hostname (name : str).

Section Gate.
Context {UP : UrlParse}.

Definition classify_host (base_url : str) : HostResidency :=
  match url_host base_url with
  | None | Some None => Literal false
  | Some (Some (HostIp ip)) => Literal (is_local_ip ip)
  | Some (Some (Domain name)) =>
      if eq_ignore_ascii_case name #"localhost" || eq_ignore_ascii_case name #"localhost.localdomain" then Literal true
      else Hostname name
  end.
Definition is_local_endpoint (base_url : str) : bool :=
  match classify_host base_url with Literal true => true | _ => false end.

(** ** The resolver *)

Record ResidencyRefusal : Type := mkRefusal { refused_host : str; refused_why : str }.
Definition refusal_display (r : ResidencyRefusal) : str :=
  #"hostname `" ++ refused_host r ++ #"` refused by the residency gate: " ++ refused_why r.

(** [answer] is what the lookup of this moment returned. *)
Definition resolve_all_local (answer : result (list IpAddr) str) (host : str) : result (list IpAddr) ResidencyRefusal :=
  match answer with
  | Err e => Err (mkRefusal host (#"it did not resolve (" ++ e ++ #")"))
  | Ok [] => Err (mkRefusal host #"it resolved to no addresses")
  | Ok addrs =>
      match find (fun a => negb (is_local_ip a)) addrs with
      | Some public => Err (mkRefusal host (#"it resolves to a non-local address (" ++ show_ip public ++ #")"))
      | None => Ok addrs
      end
  end.

(** ** The gate *)

(** The client: whether it is local, and the name whose every lookup it
    checks; [followed] says that it may follow a redirect or a proxy. *)
Record ProviderClient : Type := mkClient { local : bool; checked_name : option str; followed : bool }.

Definition refused_url (base_url : str) (why : option ResidencyRefusal) : str :=
  match why with Some r => base_url ++ #" (" ++ refusal_display r ++ #")" | None => base_url end.

(** [check_residency] and [residency_client]; an error is the refused URL. *)
Definition check_residency (base_url : str) (allow_non_local : bool) (local_hostnames : list str)
  (answer : result (list IpAddr) str) : result ProviderClient str :=
  match classify_host base_url with
  | Literal true => Ok (mkClient true None allow_non_local)
  | Literal false =>
      if allow_non_local then Ok (mkClient false None true) else Err (refused_url base_url None)
  | Hostname name =>
      if allow_non_local then Ok (mkClient false None true)
      else if negb (existsb (fun h => eq_ignore_ascii_case h name) local_hostnames) then Err (refused_url base_url None)
      else match resolve_all_local answer name with
           | Err r => Err (refused_url base_url (Some r))
           | Ok _ => Ok (mkClient true (Some name) false)
           end
  end.

(** The addresses a connection may go to: the URL's own, or what the lookup of
    that moment answers for its name, checked when the client checks it. *)
Definition connection (c : ProviderClient) (base_url : str) (answer : result (list IpAddr) str) : list IpAddr :=
  match url_host base_url with
  | Some (Some (HostIp ip)) => [ip]
  | Some (Some (Domain name)) =>
      match checked_name c with
      | Some _ => match resolve_all_local answer name with Ok addrs => addrs | Err _ => [] end
      | None => match answer with Ok addrs => addrs | Err _ => [] end
      end
  | _ => []
  end.
End Gate.

(** ** Lemmas *)

Lemma resolve_all_local_iff {UP : UrlParse} answer host addrs :
  resolve_all_local answer host = Ok addrs <->
  answer = Ok addrs /\ addrs <> [] /\ Forall (fun a => is_local_ip a = true) addrs.
Proof.
  unfold resolve_all_local. split.
  - destruct answer as [l|]; [|done]. destruct l as [|a l]; [done|]. destruct (find _ _) eqn:E; [done|].
    intros [= <-]. split; [done|]. split; [done|]. apply List.Forall_forall. intros x Hx.
    pose proof (find_none _ _ E x Hx) as Hf. by apply negb_false_iff in Hf.
  - intros (-> & Hne & Hall). destruct addrs as [|a l]; [done|].
    destruct (find _ _) as [x|] eqn:E; [|done]. apply find_some in E as [Hin Hx].
    rewrite List.Forall_forall in Hall. apply Hall in Hin. by rewrite Hin in Hx.
Qed.

(** The IPv6 ranges, by value: [fe80::/10] and [fc00::/7]. *)
Lemma ipv6_ranges s : 0 <= s < 65536 ->
  ((Z.land s 65472 =? 65152) = true <-> 65152 <= s < 65216) /\
  ((Z.land s 65024 =? 64512) = true <-> 64512 <= s < 65024).
Proof.
  intros Hs.
  assert (Hd : forall k, 0 <= k -> k <= 16 -> Z.land s (65536 - 2 ^ k) = s / 2 ^ k * 2 ^ k).
  { intros k Hk Hk16. rewrite <- Z.shiftr_div_pow2, <- Z.shiftl_mul_pow2 by done.
    rewrite <- Z.ldiff_ones_r by done. apply Z.bits_inj'. intros n Hn.
    rewrite Z.land_spec, Z.ldiff_spec. destruct (decide (n < 16)) as [Hlt|Hge].
    - replace (65536 - 2 ^ k) with (Z.ones (16 - k) * 2 ^ k).
      2:{ rewrite Z.ones_equiv, <- Z.sub_1_r, Z.mul_sub_distr_r, <- Z.pow_add_r by lia.
          replace (16 - k + k) with 16 by lia. lia. }
      destruct (decide (n < k)).
      + rewrite Z.ones_spec_low, Z.mul_pow2_bits_low by lia. by rewrite !andb_false_r.
      + rewrite Z.ones_spec_high, Z.mul_pow2_bits, Z.ones_spec_low by lia. done.
    - assert (Z.testbit s n = false) as ->; [|done].
      destruct (decide (s = 0)) as [->|]; [apply Z.bits_0|]. apply Z.bits_above_log2; [lia|].
      assert (Z.log2 s < 16) by (apply Z.log2_lt_pow2; lia). lia. }
  change 65472 with (65536 - 2 ^ 6). change 65024 with (65536 - 2 ^ 9) at 1.
  rewrite !Hd by lia. change (2 ^ 6) with 64. change (2 ^ 9) with 512. b2p.
  Z.to_euclidean_division_equations. lia.
Qed.

(** The addresses that are this box or its own network, by value: loopback,
    the private blocks of RFC 1918, link-local; [::1], [fe80::/10] and
    [fc00::/7]. *)
Definition own_network (ip : IpAddr) : Prop :=
  match ip with
  | V4 a b c d => a = 127 \/ a = 10 \/ (a = 172 /\ 16 <= b <= 31) \/ (a = 192 /\ b = 168) \/ (a = 169 /\ b = 254)
  | V6 s0 s1 s2 s3 s4 s5 s6 s7 =>
      [s0; s1; s2; s3; s4; s5; s6; s7] = [0; 0; 0; 0; 0; 0; 0; 1] \/ 65152 <= s0 < 65216 \/ 64512 <= s0 < 65024
  end.
Definition wf_ip (ip : IpAddr) : Prop :=
  match ip with V4 _ _ _ _ => True | V6 s0 _ _ _ _ _ _ _ => 0 <= s0 < 65536 end.

Lemma is_local_ip_iff ip : wf_ip ip -> is_local_ip ip = true <-> own_network ip.
Proof.
  destruct ip as [a b c d|s0 s1 s2 s3 s4 s5 s6 s7]; intros Hw; cbn [is_local_ip own_network wf_ip] in *.
  - unfold is_local_ipv4. repeat rewrite ?orb_true_iff, ?andb_true_iff, ?Z.eqb_eq, ?Z.leb_le. lia.
  - unfold is_local_ipv6. cbn [nth]. destruct (ipv6_ranges s0 Hw) as [H1 H2].
    destruct (bool_decide _) eqn:E.
    + apply bool_decide_eq_true in E. rewrite E. split; [by left|done].
    + apply bool_decide_eq_false in E. rewrite orb_true_iff, H1, H2. split; [tauto|]. intros [?|?]; [done|tauto].
Qed.

(** ** Properties *)

Section Stays.
Context {UP : UrlParse}.

(** Without the opt-in, what is asked of the copilot stays on this box and
    its own network.  A client that was built is local and follows neither
    redirect nor proxy; its address is a literal of the own network, or the
    name localhost, or a name the operator listed - and then at every later
    connection, whatever the name resolves to by then, each address it may
    connect to is of the own network, or there is none. *)
Theorem prompts_stay_on_the_own_network base_url hostnames at_build c :
  check_residency base_url false hostnames at_build = Ok c ->
  local c = true /\ followed c = false /\
  forall name, url_host base_url = Some (Some (Domain name)) ->
    (eq_ignore_ascii_case name #"localhost" || eq_ignore_ascii_case name #"localhost.localdomain") = false ->
    existsb (fun h => eq_ignore_ascii_case h name) hostnames = true /\
    (exists built, at_build = Ok built /\ Forall (fun ip => wf_ip ip -> own_network ip) built) /\
    forall later ip, ip ∈ connection c base_url later -> wf_ip ip -> own_network ip.
Proof.
  unfold check_residency, classify_host.
  destruct (url_host base_url) as [[[ip|name]|]|] eqn:Eu; try done.
  - destruct (is_local_ip ip) eqn:El; [|done]. intros [= <-]. split; [done|]. split; [done|]. done.
  - destruct (_ || _) eqn:Eloc.
    + intros [= <-]. split; [done|]. split; [done|]. intros n [= <-]. by rewrite Eloc.
    + destruct (existsb _ hostnames) eqn:Eh; [|done]. cbn [negb].
      destruct (resolve_all_local at_build name) as [addrs|r] eqn:Er; [|done]. intros [= <-].
      split; [done|]. split; [done|]. intros n [= <-] _. split; [done|]. split.
      * apply resolve_all_local_iff in Er as (-> & _ & Hall). exists addrs. split; [done|].
        eapply Forall_impl; [exact Hall|]. intros ip Hip Hw. by apply is_local_ip_iff.
      * intros later ip Hin Hw. unfold connection in Hin. rewrite Eu in Hin. cbn [checked_name] in Hin.
        destruct (resolve_all_local later name) as [l|] eqn:El; [|by apply not_elem_of_nil in Hin].
        apply resolve_all_local_iff in El as (_ & _ & Hall). rewrite List.Forall_forall in Hall.
        apply is_local_ip_iff; [done|]. apply Hall. by apply list_elem_of_In.
Qed.

(** A literal address of the own network connects to itself. *)
Theorem literal_is_its_own_address base_url hostnames at_build later c ip :
  check_residency base_url false hostnames at_build = Ok c -> url_host base_url = Some (Some (HostIp ip)) -> wf_ip ip ->
  connection c base_url later = [ip] /\ own_network ip.
Proof.
  unfold check_residency, classify_host, connection. intros H Eu Hw. rewrite Eu in *.
  destruct (is_local_ip ip) eqn:El; [|done]. split; [done|by apply is_local_ip_iff].
Qed.
End Stays.

(** ** A concrete instance: a gateway's service name *)
Definition demo_urls : UrlParse :=
  {| url_host := fun u => if str_eqb u #"http://tokenfuse-gateway:4100" then Some (Some (Domain #"tokenfuse-gateway")) else None;
     show_ip := fun _ => #"ip" |}.
#[local] Existing Instance demo_urls.

Definition demo_url : str := #"http://tokenfuse-gateway:4100".
Definition demo_name : str := #"tokenfuse-gateway".
Definition demo_client : ProviderClient := mkClient true (Some demo_name) false.

Example demo_built : check_residency demo_url false [ #"TokenFuse-Gateway"] (Ok [V4 10 0 0 5]) = Ok demo_client.
Proof. by vm_compute. Qed.
Example demo_host : url_host demo_url = Some (Some (Domain demo_name)).
Proof. by vm_compute. Qed.
Example demo_not_localhost :
  (eq_ignore_ascii_case demo_name #"localhost" || eq_ignore_ascii_case demo_name #"localhost.localdomain") = false.
Proof. by vm_compute. Qed.
(** A name that turned public connects nowhere. *)
Example demo_rebound : connection demo_client demo_url (Ok [V4 10 0 0 5; V4 8 8 8 8]) = [].
Proof. by vm_compute. Qed.
Example demo_later : V4 10 0 0 6 ∈ connection demo_client demo_url (Ok [V4 10 0 0 6]).
Proof. apply (bool_decide_unpack _). by vm_compute. Qed.

Lemma prompts_stay_on_the_own_network_witness : own_network (V4 10 0 0 6).
Proof.
  exact (proj2 (proj2 (proj2 (proj2 (prompts_stay_on_the_own_network demo_url [ #"TokenFuse-Gateway"] (Ok [V4 10 0 0 5])
    demo_client demo_built)) demo_name demo_host demo_not_localhost)) (Ok [V4 10 0 0 6]) (V4 10 0 0 6) demo_later I).
Defined.
