(* ===== verification/Action.v ===== *)
(** * Action: what the copilot may propose, and its tools

    [crates/copilot/src/action.rs], [tools/mod.rs] and [tools/propose.rs]: a
    proposal is a value and nothing else; a propose tool builds one from the
    model's arguments, and the registry holds the fixed set of tools.  The
    read tools answer from the planes and are arguments of the registry, as is
    the arithmetic of doubles. *)
From S2P Require Import Prelude Text Json.

(** Doubles: [Value::as_f64], [as f32] and [f32::clamp(0.0, 1.0)]. *)
Class Floats := { f64_of : number -> f64; to_f32 : f64 -> f64; clamp01 : f64 -> f64; half : f64 }.
Class FloatsLaws {F : Floats} := {
  f64_of_float x : f64_of (NFloat x) = x;
  f32_f64 x : to_f32 (to_f32 x) = to_f32 x;
  clamp01_f32 x : to_f32 (clamp01 (to_f32 x)) = clamp01 (to_f32 x);
}.

(** [v >= 0.0]: minus zero is. *)
Definition f64_nonneg (x : f64) : bool := negb (f_neg x) || forallb (Z.eqb 0) (f_digits x).

Inductive ActionKind : Type := Kill | Budget | GrantDeny | Rescan.
#[export] Instance ActionKind_eq_dec : EqDecision ActionKind.
Proof. solve_decision. Defined.

(** [rename_all = "snake_case"]. *)
Definition action_kind_name (k : ActionKind) : str :=
  match k with Kill => #"kill" | Budget => #"budget" | GrantDeny => #"grant_deny" | Rescan => #"rescan" end.
Definition action_kind_of (s : str) : option ActionKind :=
  find (fun k => str_eqb (action_kind_name k) s) [Kill; Budget; GrantDeny; Rescan].

Record ProposedAction : Type := mkAction
  { kind : ActionKind; target : str; params : value; rationale : str; confidence : f64;
    evidence_refs : list str; policy_context : list str }.

Record WithheldProposal : Type := mkWithheld { w_action : ProposedAction; w_reason : str }.

Definition as_f64 {F : Floats} (v : value) : option f64 :=
  match v with VNum n => Some (f64_of n) | _ => None end.

(** [json!(action)] and [serde_json::from_value::<ProposedAction>]. *)
Definition action_json (a : ProposedAction) : value :=
  obj [(#"kind", VStr (action_kind_name (kind a))); (#"target", VStr (target a)); (#"params", params a);
       (#"rationale", VStr (rationale a)); (#"confidence", VNum (NFloat (confidence a)));
       (#"evidence_refs", VArr (map VStr (evidence_refs a)));
       (#"policy_context", VArr (map VStr (policy_context a)))].

Fixpoint strings (vs : list value) : option (list str) :=
  match vs with
  | [] => Some []
  | VStr s :: vs => let! ss := strings vs in Some (s :: ss)
  | _ :: _ => None
  end.
Definition string_list (v : value) : option (list str) := let! vs := as_array v in strings vs.

Definition action_of_json {F : Floats} (v : value) : option ProposedAction :=
  let! k := get_str #"kind" v in
  let! k := action_kind_of k in
  let! t := get_str #"target" v in
  let! p := get #"params" v in
  let! r := get_str #"rationale" v in
  let! c := get #"confidence" v in
  let! c := as_f64 c in
  let! e := get #"evidence_refs" v in
  let! e := string_list e in
  let! pc := match get #"policy_context" v with Some pc => string_list pc | None => Some [] end in
  Some (mkAction k t p r (to_f32 c) e pc).

(** [ProposedAction::new]. *)
Definition new_action {F : Floats} (k : ActionKind) (t : str) (p : value) (r : str) (c : f64) (e : list str)
  : ProposedAction := mkAction k t p r (clamp01 c) e [].

(** ** The propose tools *)

Inductive ToolError : Type :=
| Unknown (name : str)
| Unavailable (name : str)
| BadArgs (tool detail : str)
| Connector (tool detail : str)
| Serialize (tool source : str).

Definition tick : str := [96].
Definition tool_error_text (e : ToolError) : str :=
  match e with
  | Unknown n => #"unknown tool " ++ tick ++ n ++ tick
  | Unavailable n => #"tool " ++ tick ++ n ++ tick ++ #" is unavailable: its backing plane is not configured"
  | BadArgs t d => #"tool " ++ tick ++ t ++ tick ++ #": bad arguments: " ++ d
  | Connector t d => #"tool " ++ tick ++ t ++ tick ++ #" failed: " ++ d
  | Serialize t d => #"could not serialize " ++ tick ++ t ++ tick ++ #" result: " ++ d
  end.

Definition strs_of (v : value) : list str :=
  match as_array v with Some vs => omap as_str vs | None => [] end.

Section Propose.
Context {F : Floats}.

Definition common (tool : str) (args : value) : result (str * f64 * list str) ToolError :=
  let? reason := ok_or (get_str #"reason" args) (BadArgs tool (tick ++ #"reason" ++ tick ++ #" (string) is required")) in
  let confidence := to_f32 (default half (let! c := get #"confidence" args in as_f64 c)) in
  Ok (reason, confidence, match get #"evidence_refs" args with Some v => strs_of v | None => [] end).

Definition require_str (tool : str) (args : value) (key : str) : result str ToolError :=
  ok_or (match get_str key args with Some [] => None | o => o end)
    (BadArgs tool (tick ++ key ++ tick ++ #" (non-empty string) is required")).

(** [policy_context]: the answer of [list_policies], when wardryx is there. *)
Definition policy_targets (policies : option (result (list str) str)) : list str :=
  match policies with
  | Some (Ok targets) => firstn 8 (List.filter (fun t => negb (bool_decide (t = []))) targets)
  | _ => []
  end.

Definition finish (policies : option (result (list str) str)) (a : ProposedAction) : value :=
  action_json (mkAction (kind a) (target a) (params a) (rationale a) (confidence a) (evidence_refs a)
                 (policy_targets policies)).

Definition propose_kill (policies : option (result (list str) str)) (args : value) : result value ToolError :=
  let? run_id := require_str #"propose_kill" args #"run_id" in
  let? '(reason, c, e) := common #"propose_kill" args in
  Ok (finish policies (new_action Kill run_id (obj []) reason c e)).

Definition propose_budget (policies : option (result (list str) str)) (args : value) : result value ToolError :=
  let? run_id := require_str #"propose_budget" args #"run_id" in
  let? usd_cap := ok_or (let! c := get #"usd_cap" args in let! c := as_f64 c in
                         if f64_nonneg c then Some c else None)
                    (BadArgs #"propose_budget" (tick ++ #"usd_cap" ++ tick ++ #" (non-negative number) is required")) in
  let? '(reason, c, e) := common #"propose_budget" args in
  Ok (finish policies (new_action Budget run_id (obj [(#"usd_cap", VNum (NFloat usd_cap))]) reason c e)).

Definition propose_grant_deny (policies : option (result (list str) str)) (args : value) : result value ToolError :=
  let? approval_id := require_str #"propose_grant_deny" args #"approval_id" in
  let? verdict := require_str #"propose_grant_deny" args #"verdict" in
  if negb (str_eqb verdict #"grant") && negb (str_eqb verdict #"deny")
  then Err (BadArgs #"propose_grant_deny"
              (tick ++ #"verdict" ++ tick ++ #" must be " ++ [34] ++ #"grant" ++ [34] ++ #" or " ++ [34] ++ #"deny" ++ [34]))
  else
    let? '(reason, c, e) := common #"propose_grant_deny" args in
    Ok (finish policies (new_action GrantDeny approval_id (obj [(#"verdict", VStr verdict)]) reason c e)).

Definition propose_rescan (policies : option (result (list str) str)) (args : value) : result value ToolError :=
  let target := match get_str #"target" args with Some (c :: t) => c :: t | _ => #"all" end in
  let? '(reason, c, e) := common #"propose_rescan" args in
  Ok (finish policies (new_action Rescan target (obj []) reason c e)).

(** ** The registry *)

Record Tool : Type := mkTool { t_name : str; is_propose : bool; t_run : value -> result value ToolError }.

(** [Clients]: which planes are configured, and what [list_policies] answers. *)
Record Clients : Type := mkClients
  { cloud : bool; idryx : bool; wardryx : option (result (list str) str); engram : bool; qryx_bin : bool;
    verdryx_db : bool; tokenfuse : bool }.

Definition cloud_tools : list str :=
  [ #"money_summary"; #"list_runs"; #"list_agents"; #"savings"; #"incidents"; #"alerts"].

Definition propose_tools (c : Clients) : list Tool :=
  [mkTool #"propose_kill" true (propose_kill (wardryx c)); mkTool #"propose_budget" true (propose_budget (wardryx c));
   mkTool #"propose_grant_deny" true (propose_grant_deny (wardryx c));
   mkTool #"propose_rescan" true (propose_rescan (wardryx c))].

(** [ToolRegistry::new]; [read] is what a read tool of this name answers. *)
Definition new_registry (read : str -> value -> result value ToolError) (c : Clients) : list Tool :=
  let reads (present : bool) names := if present then map (fun n => mkTool n false (read n)) names else [] in
  reads (cloud c) cloud_tools ++ reads (cloud c) [ #"budgets"]
  ++ reads (idryx c) [ #"identities"; #"identity_alerts"]
  ++ reads (bool_decide (is_Some (wardryx c))) [ #"policies"; #"approvals_inbox"]
  ++ reads (engram c) [ #"memory_recall"; #"memory_why"]
  ++ reads (qryx_bin c) [ #"crypto_scan"]
  ++ reads (verdryx_db c) [ #"quality_latest"]
  ++ reads (tokenfuse c) [ #"savings_breakdown"; #"cost_per_action"]
  ++ propose_tools c.

Definition tool_names (r : list Tool) : list str := map t_name r.
Definition tool_named (name : str) (r : list Tool) : option Tool := find (fun t => str_eqb (t_name t) name) r.
Definition is_propose_tool (r : list Tool) (name : str) : bool :=
  match tool_named name r with Some t => is_propose t | None => false end.
Definition dispatch (r : list Tool) (name : str) (args : value) : result value ToolError :=
  match tool_named name r with Some t => t_run t args | None => Err (Unknown name) end.
End Propose.

(** ** Properties *)

Lemma strings_map ss : strings (map VStr ss) = Some ss.
Proof. induction ss as [|s ss IH]; [done|]. simpl. by rewrite IH. Qed.

Lemma action_kind_of_name k : action_kind_of (action_kind_name k) = Some k.
Proof. by destruct k. Qed.

Lemma action_of_json_json {F : Floats} {L : FloatsLaws} a :
  to_f32 (confidence a) = confidence a -> action_of_json (action_json a) = Some a.
Proof.
  destruct a as [k t p r c e pc]. cbn [confidence]. intros Hc. unfold action_of_json.
  assert (get_str #"kind" (action_json (mkAction k t p r c e pc)) = Some (action_kind_name k)) as -> by reflexivity.
  rewrite action_kind_of_name.
  change (get_str #"target" (action_json (mkAction k t p r c e pc))) with (Some t).
  change (get #"params" (action_json (mkAction k t p r c e pc))) with (Some p).
  change (get_str #"rationale" (action_json (mkAction k t p r c e pc))) with (Some r).
  change (get #"confidence" (action_json (mkAction k t p r c e pc))) with (Some (VNum (NFloat c))).
  change (get #"evidence_refs" (action_json (mkAction k t p r c e pc))) with (Some (VArr (map VStr e))).
  change (get #"policy_context" (action_json (mkAction k t p r c e pc))) with (Some (VArr (map VStr pc))).
  cbn iota. unfold as_f64, string_list, as_array. rewrite f64_of_float, !strings_map, Hc. done.
Qed.

Lemma common_f32 {F : Floats} {L : FloatsLaws} tool args r c e :
  common tool args = Ok (r, c, e) -> to_f32 (clamp01 c) = clamp01 c.
Proof.
  unfold common. intros H. apply rbind_Ok in H as (reason&_&H).
  match type of H with Ok (_, ?x, _) = _ => assert (c = x) as -> by congruence end. apply clamp01_f32.
Qed.

(** What a propose tool answers when it answers. *)
Lemma propose_tool_answers {F : Floats} {L : FloatsLaws} c t args v :
  t ∈ propose_tools c -> t_run t args = Ok v ->
  exists a, v = action_json a /\ action_of_json v = Some a
    /\ get_str #"reason" args = Some (rationale a) /\ policy_context a = policy_targets (wardryx c).
Proof.
  intros Hin Hrun.
  enough (exists k tg p r cf e, v = finish (wardryx c) (new_action k tg p r cf e)
    /\ to_f32 (clamp01 cf) = clamp01 cf /\ get_str #"reason" args = Some r) as (k&tg&p&r&cf&e&->&Hc&Hr).
  { eexists. split; [reflexivity|]. split; [by apply action_of_json_json|]. by split. }
  assert (forall tool r cf e, common tool args = Ok (r, cf, e) ->
    to_f32 (clamp01 cf) = clamp01 cf /\ get_str #"reason" args = Some r) as Hcm.
  { intros tool r cf e H. split; [by eapply common_f32|]. unfold common in H.
    apply rbind_Ok in H as (reason&Hr&H). apply ok_or_Ok in Hr. congruence. }
  unfold propose_tools in Hin. rewrite !elem_of_cons, elem_of_nil in Hin.
  destruct Hin as [->|[->|[->|[->|[]]]]]; cbn [t_run] in Hrun.
  - apply rbind_Ok in Hrun as (id&_&Hrun). apply rbind_Ok in Hrun as ([[r cf] e]&Hc&Hrun).
    injection Hrun as <-. eauto 10.
  - apply rbind_Ok in Hrun as (id&_&Hrun). apply rbind_Ok in Hrun as (cap&_&Hrun).
    apply rbind_Ok in Hrun as ([[r cf] e]&Hc&Hrun). injection Hrun as <-. eauto 10.
  - apply rbind_Ok in Hrun as (id&_&Hrun). apply rbind_Ok in Hrun as (vd&_&Hrun).
    destruct (_ && _); [done|]. apply rbind_Ok in Hrun as ([[r cf] e]&Hc&Hrun). injection Hrun as <-. eauto 10.
  - unfold propose_rescan in Hrun. apply rbind_Ok in Hrun as ([[r cf] e]&Hc&Hrun). injection Hrun as <-. eauto 10.
Qed.

(** A propose tool only describes.  Whatever the model passes, and whatever
    the policy service answers, a propose tool of the registry that answers
    answers exactly the text of one proposal, which is read back whole, with
    the reason the model gave. *)
Theorem propose_tool_round_trips {F : Floats} {L : FloatsLaws} c t args v :
  t ∈ propose_tools c -> t_run t args = Ok v ->
  exists a, v = action_json a /\ action_of_json (action_json a) = Some a
    /\ get_str #"reason" args = Some (rationale a) /\ policy_context a = policy_targets (wardryx c).
Proof. intros Hin Hrun. destruct (propose_tool_answers c t args v Hin Hrun) as (a&->&?). by exists a. Qed.

(** Doubles that keep what they are given. *)
Definition exact_floats : Floats :=
  {| f64_of n := match n with NFloat x => x | NInt z => F64 (z <? 0) (dec_nat (Z.abs z)) 0 end;
     to_f32 x := x; clamp01 x := x; half := F64 false [5] (-1) |}.
#[export] Instance exact_floats_laws : @FloatsLaws exact_floats.
Proof. by split. Qed.

Definition no_clients : Clients := mkClients false false None false false false false.

Lemma propose_tool_round_trips_witness :
  exists a, target a = #"run-1" /\ action_of_json (F := exact_floats) (action_json a) = Some a.
Proof.
  pose (args := obj [(#"run_id", VStr #"run-1"); (#"reason", VStr #"runaway")]).
  destruct (propose_tool_round_trips (F := exact_floats) no_clients (mkTool #"propose_kill" true (propose_kill (F := exact_floats) None)) args
    (action_json (mkAction Kill #"run-1" (obj []) #"runaway" (F64 false [5] (-1)) [] []))) as (a&E&H&_).
  - left.
  - reflexivity.
  - exists a. split; [|done]. apply (f_equal (get_str #"target")) in E.
    change (Some #"run-1" = Some (target a)) in E. congruence.
Defined.
