(* ===== verification/Grounding.v ===== *)
(** * Grounding: what a draft says about a budget or a model

    [crates/copilot/src/grounding.rs].  The facts one answer's tools returned,
    and the clause-by-clause check of a draft against them.  A [BTreeSet] or
    [BTreeMap] of strings is the list of its elements in order. *)
From S2P Require Import Prelude Text Json Unicode Action.

(** [BTreeSet::insert], [BTreeMap::insert] and [entry(..).or_default()]. *)
Fixpoint set_insert (s : str) (xs : list str) : list str :=
  match xs with
  | [] => [s]
  | x :: xs' => if str_eqb s x then xs else if str_leb s x then s :: xs else x :: set_insert s xs'
  end.
Section Maps.
Context {A : Type}.
Fixpoint map_get (k : str) (m : list (str * A)) : option A :=
  match m with [] => None | (k', v) :: m => if str_eqb k k' then Some v else map_get k m end.
Fixpoint map_set (k : str) (v : A) (m : list (str * A)) : list (str * A) :=
  match m with
  | [] => [(k, v)]
  | (k', v') :: m' =>
      if str_eqb k k' then (k, v) :: m' else if str_leb k k' then (k, v) :: m else (k', v') :: map_set k v m'
  end.

Lemma map_get_set k k' v m : map_get k (map_set k' v m) = if str_eqb k k' then Some v else map_get k m.
Proof.
  induction m as [|[k2 v2] m IH]; simpl; [done|].
  destruct (str_eqb k' k2) eqn:E2.
  - apply str_eqb_eq in E2 as ->. simpl. by destruct (str_eqb k k2).
  - destruct (str_leb k' k2); simpl; [done|]. rewrite IH.
    destruct (str_eqb k k2) eqn:E3, (str_eqb k k') eqn:E4; try done.
    apply str_eqb_eq in E3 as ->, E4 as ->. by rewrite str_eqb_refl in E2.
Qed.
End Maps.

Record RunModels : Type := mkRunModels { models : option (list str); switches : option Z }.
Record BudgetFacts : Type := mkFacts
  { known_runs : list str; budgeted : list str; budgets_read : bool; runs_over : list str;
    run_agent : list (str * str); agents : list str; run_models : list (str * RunModels);
    known_models : list str }.
Definition no_facts : BudgetFacts := mkFacts [] [] false [] [] [] [] [].

(** [Value::as_u64], and [f >= 1.0] on a double. *)
Definition as_u64 (v : value) : option Z :=
  match v with VNum (NInt z) => if (0 <=? z) && (z <=? u64_max) then Some z else None | _ => None end.
Definition f64_ge_one (x : f64) : bool :=
  negb (f_neg x) && (0 <=? f_exp x) && negb (forallb (Z.eqb 0) (f_digits x)).
Definition is_null (v : value) : bool := match v with VNull => true | _ => false end.
Definition text_member (k : str) (ms : list (str * value)) : option str :=
  let! v := obj_get k ms in
  match as_str v with Some [] => None | o => o end.

Section Grounding.
Context {U : Unicode} {F : Floats}.

(** [record_models]. *)
Definition record_models (id : str) (ms : list (str * value)) (fs : BudgetFacts) : BudgetFacts :=
  let last := let! v := match obj_get #"last_model" ms with Some v => Some v | None => obj_get #"model" ms end in
              match as_str v with Some [] => None | o => o end in
  let list := let! v := obj_get #"models" ms in let! vs := as_array v in
              Some (omap (fun m => match get_str #"model" m with Some [] => None | o => o end) vs) in
  let sw := let! v := obj_get #"model_switches" ms in as_u64 v in
  match last, list, sw with
  | None, None, None => fs
  | _, _, _ =>
      let known := match last with Some m => set_insert m (known_models fs) | None => known_models fs end in
      let known := fold_left (fun ks m => set_insert m ks) (default [] list) known in
      let entry := default (mkRunModels None None) (map_get id (run_models fs)) in
      let entry := mkRunModels (match list with Some _ => list | None => models entry end)
                     (match sw with Some _ => sw | None => switches entry end) in
      mkFacts (known_runs fs) (budgeted fs) (budgets_read fs) (runs_over fs) (run_agent fs) (agents fs)
        (map_set id entry (run_models fs)) known
  end.

(** The facts of one object's own members. *)
Definition note_row (ms : list (str * value)) (fs : BudgetFacts) : BudgetFacts :=
  let fs :=
    match text_member #"run_id" ms with
    | None => fs
    | Some id =>
        let has_budget := match obj_get #"budget_usd" ms with Some b => negb (is_null b) | None => false end in
        let over := match obj_get #"at_or_over" ms with Some (VBool true) => true | _ => false end
                    || match (let! v := obj_get #"fraction" ms in as_f64 v) with Some f => f64_ge_one f | None => false end in
        let fs := mkFacts (set_insert id (known_runs fs))
                    (if has_budget then set_insert id (budgeted fs) else budgeted fs) (budgets_read fs)
                    (if over then set_insert id (runs_over fs) else runs_over fs)
                    (match text_member #"agent_id" ms with Some a => map_set id a (run_agent fs) | None => run_agent fs end)
                    (agents fs) (run_models fs) (known_models fs) in
        record_models id ms fs
    end in
  match text_member #"agent_id" ms with
  | Some a => mkFacts (known_runs fs) (budgeted fs) (budgets_read fs) (runs_over fs) (run_agent fs)
                (set_insert a (agents fs)) (run_models fs) (known_models fs)
  | None => fs
  end.

(** [walk]. *)
Fixpoint walk (v : value) (fs : BudgetFacts) : BudgetFacts :=
  match v with
  | VObj ms => (fix go (l : list (str * value)) fs := match l with [] => fs | (_, x) :: l => go l (walk x fs) end) ms (note_row ms fs)
  | VArr items => (fix go (l : list value) fs := match l with [] => fs | x :: l => go l (walk x fs) end) items fs
  | _ => fs
  end.

(** [record]. *)
Definition record_facts (tool : str) (ok : bool) (v : value) (fs : BudgetFacts) : BudgetFacts :=
  if negb ok then fs
  else
    walk v (if str_eqb tool #"budgets"
            then mkFacts (known_runs fs) (budgeted fs) true (runs_over fs) (run_agent fs) (agents fs)
                   (run_models fs) (known_models fs)
            else fs).

(** ** Words and clauses *)

Definition BUDGET_WORDS : list str := [ #"budget"; #"budgets"; #"budgeted"; #"cap"; #"caps"; #"capped"].
Definition OVER_WORDS : list str :=
  [ #"over"; #"overage"; #"overages"; #"overspent"; #"overspend"; #"overrun"; #"exceed"; #"exceeds"; #"exceeded";
    #"exceeding"; #"breach"; #"breached"].
Definition NOT_ABSENCE : list str :=
  [ #"issue"; #"issues"; #"problem"; #"problems"; #"concern"; #"concerns"; #"alert"; #"alerts"; #"overage";
    #"overages"; #"warning"; #"warnings"].
Definition NEGATORS : list str := [ #"no"; #"not"; #"without"; #"lack"; #"lacks"; #"lacking"; #"none"].
Definition FILLER : list str :=
  [ #"have"; #"has"; #"had"; #"a"; #"an"; #"any"; #"set"; #"its"; #"their"; #"the"; #"control"; #"plane";
    #"central"; #"run"; #"per"].
Definition is_over_word (w : str) : bool := mem w OVER_WORDS.
Definition is_budget_word (w : str) : bool := mem w BUDGET_WORDS.
Definition is_negator (w : str) : bool := mem w NEGATORS || ends_with #"n't" w.

(** [words]: the right quotation mark is U+2019. *)
Definition words (clause : str) : list str :=
  List.filter non_empty
    (split_by (fun c => negb (is_alphanumeric c || (c =? 39) || (c =? 95))) (replace [8217] [39] (to_lowercase clause))).

(** [says_no_budget]: back from a budget word over fillers to a negator. *)
Fixpoint back_to_negator (before : list str) : bool :=
  match before with
  | [] => false
  | w :: ws => if is_negator w then true else if negb (mem w FILLER) then false else back_to_negator ws
  end.
Fixpoint no_budget_from (before ws : list str) : bool :=
  match ws with
  | [] => false
  | w :: ws =>
      (is_budget_word w && negb (match ws with n :: _ => mem n NOT_ABSENCE | [] => false end) && back_to_negator before)
      || no_budget_from (w :: before) ws
  end.
Definition says_no_budget (ws : list str) : bool := mem #"unbudgeted" ws || no_budget_from [] ws.

(** [runs_named], [agents_named] and [models_named]: whole ids. *)
Definition is_id_char (c : Z) : bool := is_alphanumeric c || (c =? 45) || (c =? 95).
Definition whole_in (needle hay : str) : bool :=
  existsb (fun '(before, after) => negb (head_is is_id_char before) && negb (head_is is_id_char after))
    (occurrences needle hay).
Definition runs_named (clause : str) (known : list str) : list str :=
  List.filter (fun id => whole_in id clause) known.

Definition last_part (id : str) : str := match rsplit_once [47] id with Some (_, t) => t | None => id end.
Definition label_map (ids : list str) : list (str * list str) :=
  fold_left (fun m id =>
    let last := to_lowercase (last_part id) in
    if bool_decide (last = []) then m else map_set last (set_insert id (default [] (map_get last m))) m) ids [].
Definition agents_named (clause : str) (ids : list str) : list (str * list str) :=
  List.filter (fun e => whole_in e.1 (to_lowercase clause)) (label_map ids).

Definition models_named (clause : str) (known : list str) : list str :=
  let lower := to_lowercase clause in
  let idc c := is_alphanumeric c || existsb (Z.eqb c) #"-_/" in
  List.filter (fun id =>
    existsb (fun '(before, after) =>
      let continues := head_is idc after
                       || match after with 46 :: c :: _ => is_alphanumeric c | _ => false end in
      negb (head_is (fun c => idc c || (c =? 46)) before) && negb continues)
      (occurrences (to_lowercase id) lower)) known.

(** [clauses]. *)
Definition sentence_end (c : Z) : bool := (c =? 46) || (c =? 33) || (c =? 63).
Fixpoint pieces (s cur : str) : list str :=
  match s with
  | [] => [rev cur]
  | c :: s' =>
      let gap := match s' with [] => true | n :: _ => is_white n end in
      if (c =? 10) || (c =? 59) || (sentence_end c && gap) then rev cur :: pieces s' []
      else pieces s' (c :: cur)
  end.

(** [is_char_boundary] and slicing at a byte offset. *)
Fixpoint split_bytes (n : Z) (s : str) : option (str * str) :=
  if n =? 0 then Some ([], s)
  else match s with
       | [] => None
       | c :: s => if n <? utf8_len c then None else let! (a, b) := split_bytes (n - utf8_len c) s in Some (c :: a, b)
       end.

(** [split_contrast]: the cuts are byte offsets of the lowercased clause, used
    on the clause itself where both ends are character boundaries.  [off] is
    the byte offset [rest] starts at. *)
Definition pair_leb (a b : Z * Z) : bool := (a.1 <? b.1) || ((a.1 =? b.1) && (a.2 <=? b.2)).
Fixpoint cut_at (off : Z) (rest : str) (cuts : list (Z * Z)) : list str :=
  match cuts with
  | [] => [rest]
  | (at_, len) :: cuts =>
      if at_ <? off then cut_at off rest cuts
      else match split_bytes (at_ - off) rest with
           | Some (a, b) =>
               match split_bytes len b with
               | Some (_, r) => a :: cut_at (at_ + len) r cuts
               | None => cut_at off rest cuts
               end
           | None => cut_at off rest cuts
           end
  end.
Definition split_contrast (clause : str) : list str :=
  let lower := to_lowercase clause in
  let cuts := flat_map (fun w => map (fun o => (byte_len o.1, byte_len w)) (occurrences w lower))
                [ #" but "; #" while "; #" whereas "] in
  cut_at 0 clause (isort pair_leb cuts).
Definition clauses (text : str) : list str :=
  List.filter (fun c => negb (bool_decide (trim c = []))) (flat_map split_contrast (pieces text [])).

(** ** The check *)

Definition q (s : str) : str := tick ++ s ++ tick.
Definition LAST_MODEL_PHRASES : list str :=
  [ #"last model"; #"latest model"; #"most recent model"; #"last call"; #"latest call"; #"most recent call";
    #"last_model"].

(** [model_claim]. *)
Definition model_claim (clause : str) (fs : BudgetFacts) : option (str * str) :=
  match runs_named clause (known_runs fs) with
  | [run] =>
      let! fact := map_get run (run_models fs) in
      if existsb (fun p => contains p (to_lowercase clause)) LAST_MODEL_PHRASES then None
      else
        match models_named clause (known_models fs) with
        | [model] =>
            let named := #"names " ++ q model ++ #" as the model run " ++ q run ++ #" used, but the tools return" in
            match models fact with
            | Some list =>
                if (Z.of_nat (length list) =? 1) && str_eqb (hd [] list) model && (default 0 (switches fact) =? 0)
                then None
                else if 1 <? Z.of_nat (length list)
                then Some (#"model:" ++ run,
                           named ++ #"ed " ++ dec (Z.of_nat (length list)) ++ #" models for " ++ q run ++ #": "
                           ++ join #", " list)
                else Some (#"model:" ++ run,
                           named ++ #"ed " ++ (if bool_decide (list = []) then #"no model" else q (join #", " list))
                           ++ #" for " ++ q run)
            | None => Some (#"model:" ++ run,
                            named ++ #" only the model of " ++ q run ++ #"'s last call, so which models " ++ q run
                            ++ #" used is not known")
            end
        | _ => None
        end
  | _ => None
  end.

Definition UNREAD : str :=
  #"states budget facts without calling " ++ q #"budgets" ++ #", the only tool that says which runs have a budget".

(** What the check has seen: the findings, the keys of those made once, and
    whether the unread-budgets finding was made. *)
Record Seen : Type := mkSeen { found : list str; keys : list str; unread : bool }.
Definition once (key finding : str) (s : Seen) : Seen :=
  if mem key (keys s) then s else mkSeen (found s ++ [finding]) (key :: keys s) (unread s).

(** A clause that says a run, or an agent, is over a budget. *)
Definition over_claims (clause : str) (runs : list str) (fs : BudgetFacts) (s : Seen) : Seen :=
  let s := match runs with
           | [run] =>
               if mem run (budgeted fs) && negb (mem run (runs_over fs))
               then once (#"over:" ++ run)
                      (#"says run " ++ q run ++ #" is over its budget, but the tools returned " ++ q run ++ #" under it") s
               else s
           | _ => s
           end in
  fold_left (fun s '(label, ids) =>
      let any_over := existsb (fun r => match map_get r (run_agent fs) with Some a => mem a ids | None => false end)
                        (runs_over fs) in
      if any_over then s
      else once (#"agent-over:" ++ label)
             (#"says agent " ++ q label ++ #" is over a budget, but no tool returned a run of " ++ q label
              ++ #" at or over its budget") s)
    (agents_named clause (agents fs)) s.

(** A clause that says its runs have no budget, or that one run has one. *)
Definition budget_claims (ws runs : list str) (fs : BudgetFacts) (s : Seen) : Seen :=
  if says_no_budget ws
  then fold_left (fun s run =>
         if mem run (budgeted fs)
         then once (#"none:" ++ run)
                (#"says run " ++ q run ++ #" has no budget, but a tool returned a budget for " ++ q run) s
         else s) runs s
  else match runs with
       | [run] =>
           if mem run (budgeted fs) then s
           else once (#"has:" ++ run)
                  (#"states a budget for run " ++ q run ++ #", but no tool returned a budget for " ++ q run) s
       | _ => s
       end.

Definition check_clause (fs : BudgetFacts) (budgets_available : bool) (s : Seen) (clause : str) : Seen :=
  let s := match model_claim clause fs with Some (key, finding) => once key finding s | None => s end in
  let ws := words clause in
  if negb (existsb is_budget_word ws) then s
  else
    let runs := runs_named clause (known_runs fs) in
    let s := if budgets_available && negb (budgets_read fs) && negb (unread s)
                && (negb (bool_decide (runs = [])) || contains #"$" clause)
             then mkSeen (found s ++ [UNREAD]) (keys s) true else s in
    let s := if existsb is_over_word ws && negb (existsb is_negator ws) then over_claims clause runs fs s else s in
    budget_claims ws runs fs s.

(** [check]. *)
Definition check (text : str) (fs : BudgetFacts) (budgets_available : bool) : list str :=
  found (fold_left (check_clause fs budgets_available) (clauses text) (mkSeen [] [] false)).

(** ** What is said back *)

Definition model_rule (findings : list str) : str :=
  if existsb (contains #"as the model run") findings
  then #" A run's " ++ q #"last_model" ++ #" is the model of its last call only: name it as the last model, and say a run used one model only when "
       ++ q #"models" ++ #" lists exactly that one. When " ++ q #"models" ++ #" is null, say which models the run used is not known."
  else [].
Definition revision_request (findings : list str) : str :=
  #"Automatic check of your draft against this answer's tool results (this message is from the console, not the operator):"
  ++ flat_map (fun f => [10] ++ #"- Your draft " ++ f ++ #".") findings ++ [10; 10]
  ++ #"Revise the answer so every budget statement comes from a tool result. A run has a budget only if " ++ q #"budgets"
  ++ #" (or " ++ q #"alerts" ++ #") returned one for that run, and a budget returned for one run never belongs to another. If budgets cannot be read, say so."
  ++ model_rule findings
  ++ #" Reply with only the corrected answer for the operator, written as if it were your first answer. Do not mention this check, apologise, or say that you are revising.".
Definition residual_note (findings : list str) : str :=
  [10; 10] ++ #"Check: these statements are not supported by any tool result in this answer:"
  ++ flat_map (fun f => [10] ++ #"- the answer " ++ f) findings.
End Grounding.

(** ** Properties *)

Section Properties.
Context {U : Unicode} {F : Floats}.

Lemma once_found f s : f ∈ found s -> forall key' f', f ∈ found (once key' f' s).
Proof. intros H key' f'. unfold once. destruct (mem key' (keys s)); [done|]. simpl. set_solver. Qed.

Lemma over_claims_found clause runs fs f s : f ∈ found s -> f ∈ found (over_claims clause runs fs s).
Proof.
  intros H. unfold over_claims.
  assert (forall s, f ∈ found s -> f ∈ found (fold_left (fun s '(label, ids) =>
      if existsb (fun r => match map_get r (run_agent fs) with Some a => mem a ids | None => false end) (runs_over fs) then s
      else once (#"agent-over:" ++ label)
             (#"says agent " ++ q label ++ #" is over a budget, but no tool returned a run of " ++ q label
              ++ #" at or over its budget") s) (agents_named clause (agents fs)) s)) as Hl.
  { induction (agents_named _ _) as [|[l ids] ls IH]; intros s' Hs; [done|]. cbn [fold_left]. apply IH.
    destruct (existsb _ _); [done|]. by apply once_found. }
  apply Hl. destruct runs as [|run [|]]; [done| |done]. destruct (_ && _); [by apply once_found|done].
Qed.

Lemma budget_claims_found ws runs fs f s : f ∈ found s -> f ∈ found (budget_claims ws runs fs s).
Proof.
  intros H. unfold budget_claims. destruct (says_no_budget ws).
  - revert s H. induction runs as [|r runs IH]; intros s H; [done|]. cbn [fold_left]. apply IH.
    destruct (mem _ _); [by apply once_found|done].
  - destruct runs as [|run [|]]; [done| |done]. destruct (mem _ _); [done|by apply once_found].
Qed.

Lemma check_clause_found fs av f s clause : f ∈ found s -> f ∈ found (check_clause fs av s clause).
Proof.
  intros H. unfold check_clause.
  set (s1 := match model_claim clause fs with Some _ => _ | None => _ end).
  assert (f ∈ found s1) as H1 by (unfold s1; destruct (model_claim _ _) as [[]|]; [by apply once_found|done]).
  clearbody s1. destruct (negb _); [done|]. apply budget_claims_found.
  match goal with |- context [if ?b then mkSeen _ _ true else _] => destruct b end.
  - destruct (_ && _); [apply over_claims_found|]; simpl; set_solver.
  - destruct (_ && _); [by apply over_claims_found|done].
Qed.

Lemma check_found fs av f cs s : f ∈ found s -> f ∈ found (fold_left (check_clause fs av) cs s).
Proof. revert s; induction cs as [|c cs IH]; intros s H; [done|]. simpl. by apply IH, check_clause_found. Qed.

(** What the check reports of a run no tool returned a budget for. *)
Definition no_budget_finding (run : str) : str :=
  #"states a budget for run " ++ q run ++ #", but no tool returned a budget for " ++ q run.

(** A key stands for its finding, and so does the unread mark. *)
Definition seen_ok (s : Seen) : Prop :=
  (forall run, #"has:" ++ run ∈ keys s -> no_budget_finding run ∈ found s) /\ (unread s = true -> UNREAD ∈ found s).

Lemma once_ok key f s :
  (forall run, key = #"has:" ++ run -> f = no_budget_finding run) -> seen_ok s -> seen_ok (once key f s).
Proof.
  intros Hk [H1 H2]. unfold once. destruct (mem key (keys s)); [done|]. split; simpl.
  - intros run [E|Hin]%elem_of_cons; apply elem_of_app; [right|left; by apply H1].
    apply list_elem_of_singleton. symmetry. by apply Hk.
  - intros Hu. apply elem_of_app. left. by apply H2.
Qed.
Lemma once_in key f s : seen_ok s -> (forall run, key = #"has:" ++ run -> f = no_budget_finding run) ->
  forall run, key = #"has:" ++ run -> no_budget_finding run ∈ found (once key f s).
Proof.
  intros [H1 _] Hk run E. unfold once. destruct (mem key (keys s)) eqn:Em; simpl.
  - apply H1. rewrite <- E. by apply mem_iff.
  - apply elem_of_app. right. apply list_elem_of_singleton. symmetry. by apply Hk.
Qed.

Ltac other_key := intros ? E; discriminate E.

Lemma over_claims_ok clause runs fs s : seen_ok s -> seen_ok (over_claims clause runs fs s).
Proof.
  intros H. unfold over_claims. set (s1 := match runs with [_] => _ | _ => s end).
  assert (seen_ok s1) as H1.
  { unfold s1. destruct runs as [|run [|]]; [done| |done]. destruct (_ && _); [apply once_ok; [other_key|done]|done]. }
  clearbody s1. revert s1 H1. induction (agents_named _ _) as [|[l ids] ls IH]; intros s1 H1; [done|].
  cbn [fold_left]. apply IH. destruct (existsb _ _); [done|]. apply once_ok; [other_key|done].
Qed.

Lemma budget_claims_ok ws runs fs s : seen_ok s -> seen_ok (budget_claims ws runs fs s).
Proof.
  intros H. unfold budget_claims. destruct (says_no_budget ws).
  - revert s H. induction runs as [|r runs IH]; intros s H; [done|]. cbn [fold_left]. apply IH.
    destruct (mem _ _); [apply once_ok; [other_key|done]|done].
  - destruct runs as [|run [|]]; [done| |done]. destruct (mem _ _); [done|]. apply once_ok; [|done].
    intros r E. apply app_inv_head in E. by subst r.
Qed.

(** The state a clause's budget words are judged in. *)
Lemma model_claim_ok clause fs s :
  seen_ok s -> seen_ok (match model_claim clause fs with Some (key, finding) => once key finding s | None => s end).
Proof.
  intros H. destruct (model_claim clause fs) as [[key f]|] eqn:E; [|done]. apply once_ok; [|done].
  intros run Ek. exfalso. revert E. unfold model_claim.
  destruct (runs_named _ _) as [|r [|]]; [done| |done]. destruct (map_get r _); [|done].
  destruct (existsb _ _); [done|]. destruct (models_named _ _) as [|m [|]]; [done| |done].
  destruct (models r0); [destruct (_ && _); [done|]; destruct (_ <? _)|]; intros E; injection E as <- _; discriminate Ek.
Qed.

Definition judged (clause : str) (fs : BudgetFacts) (available : bool) (s : Seen) : Seen :=
  let ws := words clause in
  let runs := runs_named clause (known_runs fs) in
  let s := if available && negb (budgets_read fs) && negb (unread s)
              && (negb (bool_decide (runs = [])) || contains #"$" clause)
           then mkSeen (found s ++ [UNREAD]) (keys s) true else s in
  if existsb is_over_word ws && negb (existsb is_negator ws) then over_claims clause runs fs s else s.

Lemma judged_ok clause fs av s : seen_ok s -> seen_ok (judged clause fs av s).
Proof.
  intros H. unfold judged. destruct (existsb is_over_word _ && _); [apply over_claims_ok|];
    (destruct (_ && _); [|done]); (split; simpl; [intros run Hin; apply elem_of_app; left; by apply H
                                                 |intros _; apply elem_of_app; right; by apply list_elem_of_singleton]).
Qed.

Lemma judged_unread clause fs s :
  seen_ok s -> budgets_read fs = false ->
  runs_named clause (known_runs fs) <> [] \/ contains #"$" clause = true -> UNREAD ∈ found (judged clause fs true s).
Proof.
  intros [_ H] Hr Hn. unfold judged. rewrite Hr. cbn [andb negb].
  assert (negb (bool_decide (runs_named clause (known_runs fs) = [])) || contains #"$" clause = true) as ->.
  { destruct Hn as [Hn| ->]; [|by rewrite orb_true_r]. by rewrite bool_decide_eq_false_2. }
  rewrite andb_true_r. destruct (unread s) eqn:Eu; cbn [negb].
  - destruct (_ && _); [apply over_claims_found|]; by apply H.
  - destruct (_ && _); [apply over_claims_found|]; simpl; apply elem_of_app; right; by apply list_elem_of_singleton.
Qed.

Lemma check_clause_judged fs av s clause :
  let s1 := match model_claim clause fs with Some (key, finding) => once key finding s | None => s end in
  check_clause fs av s clause
  = if negb (existsb is_budget_word (words clause)) then s1
    else budget_claims (words clause) (runs_named clause (known_runs fs)) fs (judged clause fs av s1).
Proof. reflexivity. Qed.

Lemma check_clause_ok fs av s clause : seen_ok s -> seen_ok (check_clause fs av s clause).
Proof.
  intros H. rewrite check_clause_judged. apply (model_claim_ok clause fs) in H. destruct (negb _); [done|].
  by apply budget_claims_ok, judged_ok.
Qed.

Lemma clause_reported fs av s clause :
  seen_ok s -> existsb is_budget_word (words clause) = true ->
  (forall run, runs_named clause (known_runs fs) = [run] -> says_no_budget (words clause) = false ->
     mem run (budgeted fs) = false -> no_budget_finding run ∈ found (check_clause fs av s clause))
  /\ (av = true -> budgets_read fs = false ->
      runs_named clause (known_runs fs) <> [] \/ contains #"$" clause = true ->
      UNREAD ∈ found (check_clause fs av s clause)).
Proof.
  intros H Hb. rewrite check_clause_judged, Hb. cbn [negb]. apply (model_claim_ok clause fs) in H. split.
  - intros run Hr Hn Hm. unfold budget_claims. rewrite Hn, Hr, Hm. apply once_in; [by apply judged_ok| |done].
    intros r E. apply app_inv_head in E. by subst r.
  - intros -> Hr Hn. by apply budget_claims_found, judged_unread.
Qed.

(** The check reads the facts.  A clause of the draft that speaks of the
    budget of exactly one known run, and does not say there is none, is
    reported unless a tool returned a budget for that run; and a clause with a
    budget word and a run or a dollar sign is reported while the budgets tool
    was there and not called. *)
Theorem budget_claims_are_checked text fs available clause :
  clause ∈ clauses text -> existsb is_budget_word (words clause) = true ->
  (forall run, runs_named clause (known_runs fs) = [run] -> says_no_budget (words clause) = false ->
     mem run (budgeted fs) = false -> no_budget_finding run ∈ check text fs available)
  /\ (available = true -> budgets_read fs = false ->
      runs_named clause (known_runs fs) <> [] \/ contains #"$" clause = true -> UNREAD ∈ check text fs available).
Proof.
  intros Hc Hb. unfold check. apply list_elem_of_split in Hc as (l1&l2&->).
  rewrite fold_left_app. cbn [fold_left]. set (s0 := fold_left _ l1 _).
  assert (seen_ok s0) as H0.
  { unfold s0. assert (seen_ok (mkSeen [] [] false)) as H by (split; [intros run Hin; by apply elem_of_nil in Hin|done]).
    revert H. generalize (mkSeen [] [] false). induction l1 as [|c l1 IH]; intros s H; [done|]. cbn [fold_left]. apply IH.
    by apply check_clause_ok. }
  destruct (clause_reported fs available s0 clause H0 Hb) as [Ha Hu].
  split; intros; apply check_found; auto.
Qed.
End Properties.

(** ** Witnesses *)

#[local] Existing Instance ascii_tables.
#[local] Existing Instance exact_floats.

Definition demo_facts : BudgetFacts := mkFacts [ #"p1-beryl2"; #"p1-brume"] [ #"p1-brume"] true [] [] [] [] [].
Definition demo_draft : str := #"All quiet. The run p1-beryl2 exceeded its $0.001 cap; p1-brume is fine.".

Lemma budget_claims_are_checked_witness :
  no_budget_finding #"p1-beryl2" ∈ check demo_draft demo_facts true.
Proof.
  destruct (budget_claims_are_checked demo_draft demo_facts true #" The run p1-beryl2 exceeded its $0.001 cap") as [H _].
  - apply (bool_decide_unpack _). by vm_compute.
  - by vm_compute.
  - apply H; by vm_compute.
Defined.
