(* ===== verification/Felyx.v ===== *)
(** * Felyx: the agent loop of the copilot

    [crates/copilot/src/agent.rs], with the messages and turns of
    [provider/mod.rs].  The provider is a function of the number of the call
    and the conversation so far, and the registry a function of the number of
    calls dispatched, so that both may answer differently each time; the
    system prompt and the tool descriptions are constant and part of the
    provider. *)
From S2P Require Import Prelude Text Json Unicode Action Untrusted Grounding References.

Record Usage : Type := mkUsage { prompt_tokens : Z; completion_tokens : Z }.
Definition add_usage (a b : Usage) : Usage :=
  mkUsage (u32_saturating_add (prompt_tokens a) (prompt_tokens b))
    (u32_saturating_add (completion_tokens a) (completion_tokens b)).

Record ToolCall : Type := mkCall { call_id : str; call_name : str; arguments : value }.
Record ChatTurn : Type := mkTurn { turn_content : option str; tool_calls : list ToolCall; turn_usage : Usage }.
Inductive Role : Type := System | User | Assistant | ToolRole.
Record Message : Type := mkMessage
  { role : Role; m_content : str; m_calls : list ToolCall; tool_call_id : option str; tool_name : option str }.
Definition user_message (c : str) : Message := mkMessage User c [] None None.
Definition assistant_tool_calls (c : option str) (calls : list ToolCall) : Message :=
  mkMessage Assistant (default [] c) calls None None.
Definition tool_result (id name : str) (r : FencedResult) : Message :=
  mkMessage ToolRole (content r) [] (Some id) (Some name).

Record ToolInvocation : Type := mkInvocation { ti_name : str; ti_ok : bool; result_preview : str }.
Record Answer : Type := mkAnswer
  { text : str; tool_trace : list ToolInvocation; proposals : list ProposedAction; usage : Usage;
    unsupported_claims : list str; withheld_proposals : list WithheldProposal; untrusted : list UntrustedText }.
Inductive CopilotError : Type :=
| Provider (why : str)
| IterationLimit (n : nat)
| NoProvider.

Record Brief : Type := mkBrief { operator : option str; incident : option str }.

(** [Draft]. *)
Record Draft : Type := mkDraft
  { d_text : str; claims : list str; references_found : list Finding; no_incident : option str }.
Definition findings (d : Draft) : list str :=
  fold_left (fun out m => if mem m out then out else out ++ [m]) (map message (references_found d)) (claims d)
  ++ match no_incident d with Some m => [m] | None => [] end.
Definition is_some {A} (o : option A) : bool := match o with Some _ => true | None => false end.
Definition is_nil {A} (l : list A) : bool := match l with [] => true | _ => false end.
Definition finished (d : Draft) (b : Brief) : str :=
  if is_some (no_incident d) || (is_some (incident b) && negb (is_nil (references_found d)))
  then NO_CHAIN
  else without_statements (d_text d) (references_found d).
Definition notes (d : Draft) : str :=
  let removed := List.filter (fun f => negb (mem f (claims d))) (findings d) in
  (if is_nil (claims d) then [] else residual_note (claims d))
  ++ (if is_nil removed then [] else removal_note removed).

(** The longest prefix of at most [n] bytes: a cut at a character boundary. *)
Fixpoint prefix_bytes (n : Z) (s : str) : str :=
  match s with
  | c :: s => if utf8_len c <=? n then c :: prefix_bytes (n - utf8_len c) s else []
  | [] => []
  end.
Definition preview {JT : JsonText} (v : value) : str :=
  let s := json_text v in
  if byte_len s <=? 240 then s else prefix_bytes 240 s ++ [8230].

(** What one run has so far. *)
Record State : Type := mkState
  { messages : list Message; trace : list ToolInvocation; cards : list ProposedAction;
    withheld : list WithheldProposal; dropped_evidence : list str; used : Usage; facts : BudgetFacts;
    evidence : Evidence; revised : bool }.

Definition with_usage (u : Usage) (s : State) : State :=
  mkState (messages s) (trace s) (cards s) (withheld s) (dropped_evidence s) (add_usage (used s) u) (facts s)
    (evidence s) (revised s).
Definition say (ms : list Message) (s : State) : State :=
  mkState (messages s ++ ms) (trace s) (cards s) (withheld s) (dropped_evidence s) (used s) (facts s) (evidence s)
    (revised s).
Definition invoked (name : str) (ok : bool) (p : str) (s : State) : State :=
  mkState (messages s) (trace s ++ [mkInvocation name ok p]) (cards s) (withheld s) (dropped_evidence s) (used s)
    (facts s) (evidence s) (revised s).
Definition set_revised (s : State) : State :=
  mkState (messages s) (trace s) (cards s) (withheld s) (dropped_evidence s) (used s) (facts s) (evidence s) true.

Section Felyx.
Context {U : Unicode} {F : Floats} {M : Micros} {JT : JsonText}.
Context (registry : nat -> list Tool) (chat : nat -> list Message -> result ChatTurn str).

(** A propose tool's result: a card if the screen lets it, or the reason. *)
Definition propose_call (b : Brief) (v : value) (ok : bool) (s : State) : value * bool * State :=
  match action_of_json v with
  | Some a =>
      if ok then
        match screen (evidence s) a (operator b) with
        | (Ok dropped, e, a) =>
            (action_json a, true,
             mkState (messages s) (trace s) (cards s ++ [a]) (withheld s) (dropped_evidence s ++ dropped) (used s)
               (facts s) e (revised s))
        | (Err reason, e, a) =>
            (obj [(#"withheld", VBool true); (#"reason", VStr reason)], false,
             mkState (messages s) (trace s) (cards s) (withheld s ++ [mkWithheld a reason]) (dropped_evidence s) (used s)
               (facts s) e (revised s))
        end
      else (v, ok, s)
  | None => (v, ok, s)
  end.

(** One tool call of a turn.  [n] calls were dispatched before it. *)
Definition call_step (reads_case : bool) (b : Brief) (s : State) (c : ToolCall) : State :=
  if reads_case then
    let refusal := obj [(#"error", VStr #"this answer reads one case file and has no tools")] in
    say [tool_result (call_id c) (call_name c) (console refusal)] (invoked (call_name c) false (preview refusal) s)
  else
    let r := registry (length (trace s)) in
    let '(v, ok) := match dispatch r (call_name c) (arguments c) with
                    | Ok v => (v, true)
                    | Err e => (obj [(#"error", VStr (tool_error_text e))], false)
                    end in
    if is_propose_tool r (call_name c) then
      let '(fed_back, landed, s) := propose_call b v ok s in
      say [tool_result (call_id c) (call_name c) (console fed_back)] (invoked (call_name c) landed (preview fed_back) s)
    else
      let fenced := plane (call_name c) v in
      let s := mkState (messages s) (trace s) (cards s) (withheld s) (dropped_evidence s) (used s)
                 (record_facts (call_name c) ok v (facts s)) (record_evidence (call_name c) ok v fenced (evidence s))
                 (revised s) in
      say [tool_result (call_id c) (call_name c) fenced] (invoked (call_name c) ok (preview v) s).

Definition draft_of (b : Brief) (budgets_available : bool) (t : str) (s : State) : Draft :=
  mkDraft t (check t (facts s) budgets_available) (check_references (evidence s) t (operator b))
    (match incident b with
     | Some id => if grounded_as (evidence s) Incident id then None
                  else Some (#"explains incident " ++ q id ++ #", which no tool returned")
     | None => None
     end).

(** A turn without tool calls: one revision, or the answer. *)
Definition final_turn (b : Brief) (budgets_available : bool) (t : str) (s : State) : State + Answer :=
  let d := draft_of b budgets_available t s in
  if negb (is_nil (findings d)) && negb (revised s) then
    let request := revision_request (findings d)
                   ++ (if negb (is_nil (references_found d)) || is_some (no_incident d) then REVISION_RULE else []) in
    inl (say [assistant_tool_calls (Some t) []; user_message request] (set_revised s))
  else
    let '(shown, held) :=
      if is_some (no_incident d)
      then ([], map (fun a => mkWithheld a #"the incident it explains is not in this answer's tool results") (cards s))
      else (cards s, []) in
    let said := finished d b in
    inr (mkAnswer (trim_start (said ++ notes d)) (trace s) shown (used s) (findings d ++ dropped_evidence s)
           (withheld s ++ held) (untrusted_text (evidence s) said)).

(** The loop; [n] is the number of the next call of the provider. *)
Fixpoint turns (fuel n : nat) (reads_case : bool) (b : Brief) (budgets_available : bool) (s : State)
  : option (result Answer str) * nat * State :=
  match fuel with
  | O => (None, n, s)
  | S fuel =>
      match chat n (messages s) with
      | Err e => (Some (Err e), S n, s)
      | Ok t =>
          let s := with_usage (turn_usage t) s in
          match tool_calls t with
          | [] =>
              match final_turn b budgets_available (default [] (turn_content t)) s with
              | inl s => turns fuel (S n) reads_case b budgets_available s
              | inr a => (Some (Ok a), S n, s)
              end
          | calls =>
              let s := say [assistant_tool_calls (turn_content t) calls] s in
              turns fuel (S n) reads_case b budgets_available (fold_left (call_step reads_case b) calls s)
          end
      end
  end.

(** [run_with]: the answer, the number of calls of the provider, and the state
    it stopped in.  [case] is the case file and its fenced form. *)
Definition run_with (max_iterations : nat) (question : str) (b : Brief) (case : option (value * FencedResult))
  : result Answer CopilotError * nat * State :=
  let names := tool_names (registry 0) in
  let e := new_evidence names (operator b) in
  let e := match case with Some (raw, fenced) => record_evidence CASE_TOOL true raw fenced e | None => e end in
  let tr := match case with Some (raw, _) => [mkInvocation CASE_TOOL true (preview raw)] | None => [] end in
  let s := mkState [user_message question] tr [] [] [] (mkUsage 0 0) no_facts e false in
  let limit := Nat.max max_iterations 1 in
  let '(r, n, s) := turns limit 0 (is_some case) b (mem #"budgets" names) s in
  (match r with
   | Some (Ok a) => Ok a
   | Some (Err e) => Err (Provider e)
   | None => Err (IterationLimit limit)
   end, n, s).

(** [answer], [explain_incident] and [explain_case]. *)
Definition answer (max_iterations : nat) (question : str) : result Answer CopilotError * nat * State :=
  run_with max_iterations question (mkBrief (Some question) None) None.

Definition incident_prompt (incident_id : str) : str :=
  #"Explain the incident whose id is " ++ fence_text #"incident_id" incident_id
  ++ #" as a cross-plane root-cause chain. Work through the tools you have: use " ++ q #"incidents"
  ++ #", with that id, to find it; " ++ q #"alerts" ++ #" and " ++ q #"list_runs"
  ++ #" for the affected run's spend trajectory; " ++ q #"identity_alerts" ++ #" for the agent's identity posture; "
  ++ q #"policies" ++ #" for any governing policy; and " ++ q #"memory_recall"
  ++ #" to check whether this pattern was ruled on before (e.g. a past false alarm). Then give a SHORT root-cause chain (cause -> effect -> effect) and one recommended action, citing the specific run / incident / policy ids you relied on. You can recommend but not act; a human must approve and sign any change.".
Definition explain_incident (max_iterations : nat) (incident_id : str) : result Answer CopilotError * nat * State :=
  run_with max_iterations (incident_prompt incident_id) (mkBrief None (Some incident_id)) None.

Definition explain_case (max_iterations : nat) (case : value) : result Answer CopilotError * nat * State :=
  let fenced := fenced_case case in
  let incident := default [] (get_str #"incident_id" case) in
  run_with max_iterations
    (#"Explain the incident in this case file as a cross-plane root-cause chain. The case file follows, as data:"
     ++ [10] ++ content fenced)
    (mkBrief None (Some incident)) (Some (case, fenced)).

(** ** What a card rests on *)

(** The model called [c] in this run, and [c] was answered: it is a call of a
    turn of the model, it was dispatched in its place to the tools of that
    moment, it named no propose tool, and the model was given the result. *)
Definition answered (s : State) (c : ToolCall) (v : value) : Prop :=
  (exists m, m ∈ messages s /\ role m = Assistant /\ c ∈ m_calls m)
  /\ tool_result (call_id c) (call_name c) (plane (call_name c) v) ∈ messages s
  /\ exists i, trace s !! i = Some (mkInvocation (call_name c) true (preview v))
       /\ dispatch (registry i) (call_name c) (arguments c) = Ok v /\ is_propose_tool (registry i) (call_name c) = false.
(** The answer to a call of this run has a structured field that names [n] as a
    [k]; or the operator asked for an action on it. *)
Definition named_by_tool (s : State) (k : Kind) (n : str) : Prop :=
  exists c v key x, answered s c v
    /\ (key, x) ∈ fields (plane (call_name c) v) /\ kind_of (call_name c) key = k /\ n ∈ grounded_names x.
Definition named_by_operator (op : option str) (k : Kind) (n : str) : Prop :=
  exists ak t, asked op ak t = true /\ target_kind ak = k /\ n ∈ grounded_names t.
Definition named (s : State) (op : option str) (k : Kind) (n : str) : Prop := named_by_tool s k n \/ named_by_operator op k n.

(** A run only adds to its messages and to its trace. *)
Definition extends (s s' : State) : Prop := messages s `prefix_of` messages s' /\ trace s `prefix_of` trace s'.
Lemma extends_again s1 s2 s3 : extends s1 s2 -> extends s2 s3 -> extends s1 s3.
Proof. intros [? ?] [? ?]. split; by etrans. Qed.
Lemma named_mono s s' op k n : extends s s' -> named s op k n -> named s' op k n.
Proof.
  intros [[ms Hm] [tr Ht]] [(c & v & key & x & (Hc & Hr & i & Hi & Hd) & Hf)|H]; [left|by right].
  exists c, v, key, x. split; [|done]. destruct Hc as (m & Hin & Hmc). split; [|split].
  - exists m. split; [rewrite Hm; apply elem_of_app; by left|done].
  - rewrite Hm. apply elem_of_app. by left.
  - exists i. split; [rewrite Ht; by apply lookup_app_l_Some|done].
Qed.

Lemma call_step_extends rc b c s : extends s (call_step rc b s c).
Proof.
  unfold call_step. destruct rc; [split; simpl; by apply prefix_app_r|].
  destruct (match dispatch _ _ _ with Ok _ => _ | Err _ => _ end) as [v ok].
  destruct (is_propose_tool _ _); [|split; simpl; by apply prefix_app_r]. unfold propose_call.
  destruct (action_of_json v) as [a|]; [|split; simpl; by apply prefix_app_r].
  destruct ok; [|split; simpl; by apply prefix_app_r].
  destruct (screen _ _ _) as [[[] ?] ?]; split; simpl; by apply prefix_app_r.
Qed.

Definition state_ok (b : Brief) (s : State) : Prop :=
  rests (named s (operator b)) (evidence s) /\ Forall (carded (named s (operator b)) (operator b)) (cards s).
(** What a state held is still good in a later one. *)
Lemma state_ok_later b s s' :
  extends s s' -> state_ok b s ->
  rests (named s' (operator b)) (evidence s) /\ Forall (carded (named s' (operator b)) (operator b)) (cards s).
Proof.
  intros Hx [He Hc]. split.
  - intros id ks k H1 H2. eapply named_mono; [exact Hx|]. by eapply He.
  - eapply Forall_impl; [exact Hc|]. intros a [H|[H|H]]; [by left|right; by left|right; right]. by eapply named_mono.
Qed.

Definition was_called (s : State) (c : ToolCall) : Prop := exists m, m ∈ messages s /\ role m = Assistant /\ c ∈ m_calls m.
Lemma was_called_later s s' c : extends s s' -> was_called s c -> was_called s' c.
Proof. intros [[k Hk] _] (m & Hm & Hr). exists m. rewrite Hk. split; [apply elem_of_app; by left|done]. Qed.

Lemma call_step_ok b c s : was_called s c -> state_ok b s -> state_ok b (call_step false b s c).
Proof.
  intros Hcall Hok. pose proof (call_step_extends false b c s) as Hx.
  pose proof (was_called_later _ _ _ Hx Hcall) as Hcall'.
  destruct (state_ok_later b _ _ Hx Hok) as [He Hc]. clear Hok Hx Hcall. unfold state_ok.
  remember (named (call_step false b s c) (operator b)) as P eqn:EP.
  assert (forall v key x n, answered (call_step false b s c) c v -> (key, x) ∈ fields (plane (call_name c) v) ->
            n ∈ grounded_names x -> P (kind_of (call_name c) key) n) as Hnew
    by (intros v key x n Ha Hf Hn; rewrite EP; left; by exists c, v, key, x).
  assert (forall k n, named_by_operator (operator b) k n -> P k n) as Hop by (intros k n H; rewrite EP; by right).
  clear EP. unfold answered in Hnew. revert Hnew Hcall'. unfold was_called, call_step. set (r := registry (length (trace s))).
  destruct (dispatch r (call_name c) (arguments c)) as [v|err] eqn:Ed;
    destruct (is_propose_tool r (call_name c)) eqn:Ep; intros Hnew Hcall.
  - clear Hnew Hcall. unfold propose_call. destruct (action_of_json v) as [a|]; [|by split].
    pose proof (screen_rests P (evidence s) a (operator b) He) as Hs.
    destruct (screen (evidence s) a (operator b)) as [[res e'] a'].
    destruct Hs as [He' Ha']; [by intros Ha n Hn; apply Hop; exists (kind a), (target a)|].
    destruct res as [dropped|reason]; (split; [exact He'|]); [|exact Hc].
    simpl. apply Forall_app_2; [exact Hc|]. apply Forall_singleton. by apply Ha'.
  - split; [|exact Hc]. apply rests_record; [exact He|]. intros _ key x n Hin Hn.
    apply (Hnew v key x n); [|done|done]. split; [exact Hcall|]. split; [apply elem_of_app; right; by left|].
    exists (length (trace s)). split; [|by split]. simpl. by rewrite lookup_app_r, Nat.sub_diag by lia.
  - clear Hnew Hcall. unfold propose_call. destruct (action_of_json _); by split.
  - clear Hnew Hcall. split; [|exact Hc]. by apply rests_record.
Qed.

Lemma calls_ok b calls s :
  (forall c, c ∈ calls -> was_called s c) -> state_ok b s -> state_ok b (fold_left (call_step false b) calls s).
Proof.
  revert s; induction calls as [|c calls IH]; intros s Hall Hs; [exact Hs|]. simpl. apply IH.
  - intros c' Hc'. apply (was_called_later s); [exact (call_step_extends false b c s)|]. apply Hall. by right.
  - apply call_step_ok; [apply Hall; by left|done].
Qed.

Lemma final_turn_ok b av t s :
  state_ok b s ->
  match final_turn b av t s with
  | inl s' => state_ok b s'
  | inr a => Forall (carded (named s (operator b)) (operator b)) (proposals a) /\ tool_trace a = trace s
  end.
Proof.
  intros Hok. unfold final_turn. destruct (_ && _).
  - apply (state_ok_later b s); [|exact Hok]. split; simpl; [by apply prefix_app_r|done].
  - destruct Hok as [He Hc]. destruct (is_some _); by simpl.
Qed.

Lemma turns_ok b av fuel n s r n' s' :
  state_ok b s -> turns fuel n false b av s = (r, n', s') ->
  forall a, r = Some (Ok a) -> Forall (carded (named s' (operator b)) (operator b)) (proposals a) /\ tool_trace a = trace s'.
Proof.
  revert n s; induction fuel as [|fuel IH]; intros n s Hs; cbn [turns]; [by intros [= <- _ _]|].
  destruct (chat n (messages s)) as [t|e]; [|by intros [= <- _ _]].
  assert (state_ok b (with_usage (turn_usage t) s)) as Hu.
  { apply (state_ok_later b s); [by split|exact Hs]. }
  destruct (tool_calls t) as [|c calls] eqn:Ec.
  - pose proof (final_turn_ok b av (default [] (turn_content t)) _ Hu) as Hf.
    destruct (final_turn _ _ _ _) as [s2|a]; [by apply IH|]. intros [= <- _ <-] a' [= <-]. exact Hf.
  - apply IH. rewrite <- Ec. apply calls_ok.
    + intros c' Hc'. exists (assistant_tool_calls (turn_content t) (tool_calls t)).
      split; [apply elem_of_app; right; by left|]. split; [done|exact Hc'].
    + refine (state_ok_later b (with_usage (turn_usage t) s) _ _ Hu). split; simpl; [by apply prefix_app_r|done].
Qed.

(** ** The bound *)

(** The outcome of a loop: it calls the provider at most [fuel] times, it has
    no answer only when it called it exactly that often, and an error is the
    provider's. *)
Lemma turns_bounded fuel n rc b av s :
  let '(r, n', _) := turns fuel n rc b av s in
  (n <= n' <= n + fuel)%nat /\ (r = None -> n' = (n + fuel)%nat)
  /\ (forall e, r = Some (Err e) -> exists i ms, (n <= i < n')%nat /\ chat i ms = Err e).
Proof.
  revert n s; induction fuel as [|fuel IH]; intros n s; cbn [turns]; [split; [lia|split; [lia|done]]|].
  destruct (chat n (messages s)) as [t|e] eqn:Ec.
  2: { split; [lia|]. split; [done|]. intros e' [= <-]. exists n, (messages s). split; [lia|done]. }
  assert (forall s', let '(r, n', _) := turns fuel (S n) rc b av s' in
    (n <= n' <= n + S fuel)%nat /\ (r = None -> n' = (n + S fuel)%nat)
    /\ (forall e, r = Some (Err e) -> exists i ms, (n <= i < n')%nat /\ chat i ms = Err e)) as Hrec.
  { intros s'. specialize (IH (S n) s'). destruct (turns fuel (S n) rc b av s') as [[r n'] s2].
    destruct IH as (Hb&Hn&He). split; [lia|]. split; [intros Hr; specialize (Hn Hr); lia|].
    intros e Hr. destruct (He e Hr) as (i&ms&?&?). exists i, ms. split; [lia|done]. }
  destruct (tool_calls t); [|apply Hrec]. destruct (final_turn _ _ _ _); [apply Hrec|].
  split; [lia|]. by split.
Qed.

(** A turn that answers after a revision is the answer. *)
Lemma final_turn_revised b av t s : revised s = true -> exists a, final_turn b av t s = inr a.
Proof. unfold final_turn. intros ->. rewrite andb_false_r. destruct (if is_some _ then _ else _); eauto. Qed.
Lemma final_turn_revises b av t s s' : final_turn b av t s = inl s' -> revised s' = true.
Proof. unfold final_turn. destruct (_ && _); [by intros [= <-]|]. by destruct (if is_some _ then _ else _). Qed.
Lemma call_step_revised rc b c s : revised (call_step rc b s c) = revised s.
Proof.
  unfold call_step. destruct rc; [done|]. destruct (match dispatch _ _ _ with Ok _ => _ | Err _ => _ end) as [v ok].
  destruct (is_propose_tool _ _); [|done]. unfold propose_call. destruct (action_of_json v); [|done].
  destruct ok; [|done]. by destruct (screen _ _ _) as [[[] ?] ?].
Qed.
Lemma calls_revised rc b calls s : revised (fold_left (call_step rc b) calls s) = revised s.
Proof. revert s; induction calls as [|c calls IH]; intros s; [done|]. simpl. by rewrite IH, call_step_revised. Qed.

(** The provider answers, and these of its calls name no tool. *)
Definition answers_always : Prop := forall i ms, exists t, chat i ms = Ok t.
Definition plain_call (i : nat) : Prop := forall ms t, chat i ms = Ok t -> tool_calls t = [].

Lemma turns_revised_answer fuel n rc b av s j :
  answers_always -> revised s = true -> (n <= j < n + fuel)%nat -> plain_call j ->
  exists a, (turns fuel n rc b av s).1.1 = Some (Ok a).
Proof.
  intros Hch. revert n s; induction fuel as [|fuel IH]; intros n s Hr Hj Hp; [lia|]. cbn [turns].
  destruct (Hch n (messages s)) as [t Ht]. rewrite Ht.
  destruct (tool_calls t) as [|c calls] eqn:Etc.
  - destruct (final_turn_revised b av (default [] (turn_content t)) (with_usage (turn_usage t) s) Hr) as [a ->].
    by exists a.
  - assert (j <> n) by (intros ->; specialize (Hp _ _ Ht); congruence).
    apply IH; [|lia|done]. by rewrite calls_revised.
Qed.

Lemma turns_two_answers fuel n rc b av s i j :
  answers_always -> (n <= i < j)%nat -> (j < n + fuel)%nat -> plain_call i -> plain_call j ->
  exists a, (turns fuel n rc b av s).1.1 = Some (Ok a).
Proof.
  intros Hch. revert n s; induction fuel as [|fuel IH]; intros n s Hi Hj Hpi Hpj; [lia|]. cbn [turns].
  destruct (Hch n (messages s)) as [t Ht]. rewrite Ht.
  destruct (tool_calls t) as [|c calls] eqn:Etc.
  - destruct (final_turn _ _ _ _) as [s2|a] eqn:Ef; [|by exists a].
    apply final_turn_revises in Ef. apply (turns_revised_answer fuel (S n) rc b av s2 j); [done|done|lia|done].
  - assert (i <> n) by (intros ->; specialize (Hpi _ _ Ht); congruence). apply IH; [lia|lia|done|done].
Qed.
End Felyx.

(** ** Properties *)

Section Properties.
Context {U : Unicode} {F : Floats} {M : Micros} {JT : JsonText}.

(** C13: a proposal in an answer rests on something.  Whatever the provider and
    the tools answer, and however the model orders its calls, each proposal of
    an answer is one the operator asked for, or the whole-fleet rescan, or its
    target was named as the kind of thing the action is about: in asking for an
    action, by the operator, or by a structured field of the answer to a call
    the model made in this run, of a tool that is not a propose tool, which
    stands in the answer's trace as one that succeeded and whose result the
    model was given.  Text of a plane never is. *)
Theorem card_rests_on_evidence registry chat limit question b a n s :
  run_with registry chat limit question b None = (Ok a, n, s) ->
  tool_trace a = trace s /\
  Forall (fun p =>
    asked (operator b) (kind p) (target p) = true \/ (kind p = Rescan /\ target p = #"all")
    \/ named_by_tool registry s (target_kind (kind p)) (stem_of (target p))
    \/ named_by_operator (operator b) (target_kind (kind p)) (stem_of (target p))) (proposals a).
Proof.
  unfold run_with. destruct (turns _ _ _ _ _ _ _ _) as [[r n'] s'] eqn:E. intros H.
  assert (r = Some (Ok a)) as Hr by (destruct r as [[a'|e]|]; congruence). injection H as _ _ <-.
  eapply turns_ok in E as [E Ht]; [split; [exact Ht|exact E]| |exact Hr]. split; [apply rests_new|constructor].
Qed.

(** C15: the loop stops.  A run calls the provider at least once and at most
    [max(max_iterations, 1)] times; it ends in an answer, in an error one of
    those calls returned, or in the iteration limit after exactly that many. *)
Theorem loop_is_bounded registry chat limit question b case :
  let '(r, n, _) := run_with registry chat limit question b case in
  (1 <= n <= Nat.max limit 1)%nat
  /\ match r with
     | Ok _ => True
     | Err (Provider e) => exists i ms, (i < n)%nat /\ chat i ms = Err e
     | Err (IterationLimit m) => m = Nat.max limit 1 /\ n = m
     | Err NoProvider => False
     end.
Proof.
  unfold run_with. set (s0 := mkState _ _ _ _ _ _ _ _ _). set (av := mem _ _).
  pose proof (turns_bounded registry chat (Nat.max limit 1) 0 (is_some case) b av s0) as H.
  assert (1 <= (turns registry chat (Nat.max limit 1) 0 (is_some case) b av s0).1.2)%nat as H1.
  { clear H. destruct (Nat.max limit 1) as [|m] eqn:Em; [lia|]. cbn [turns]. destruct (chat 0%nat (messages s0)); [|simpl; lia].
    assert (forall s', (1 <= (turns registry chat m 1 (is_some case) b av s').1.2)%nat) as Hge.
    { intros s'. pose proof (turns_bounded registry chat m 1 (is_some case) b av s') as Hb.
      revert Hb. destruct (turns _ _ _ _ _ _ _ _) as [[r' n'] s2]. intros [Hb _]. simpl. lia. }
    destruct (tool_calls a); [|apply Hge]. destruct (final_turn _ _ _ _); [apply Hge|simpl; lia]. }
  revert H H1. destruct (turns _ _ _ _ _ _ _ _) as [[r n] s]. intros (Hb&Hn&He) H1. simpl in H1.
  split; [lia|]. destruct r as [[a|e]|]; [done| |].
  - destruct (He e eq_refl) as (i&ms&?&?). exists i, ms. split; [lia|done].
  - split; [done|]. rewrite (Hn eq_refl). lia.
Qed.

(** The model is heard.  When the provider never fails, two of its calls
    that ask for no tool, both within the bound, are enough for an answer:
    findings send the draft back once and never again. *)
Theorem two_plain_turns_answer registry chat limit question b case i j :
  answers_always chat -> (i < j < Nat.max limit 1)%nat -> plain_call chat i -> plain_call chat j ->
  exists a, (run_with registry chat limit question b case).1.1 = Ok a.
Proof.
  intros Hch Hij Hi Hj. unfold run_with. set (s0 := mkState _ _ _ _ _ _ _ _ _). set (av := mem _ _).
  destruct (turns_two_answers registry chat (Nat.max limit 1) 0 (is_some case) b av s0 i j) as [a Ha];
    [done|lia|lia|done|done|].
  revert Ha. destruct (turns _ _ _ _ _ _ _ _) as [[r n] s]. intros Ha. simpl in Ha. subst r. by exists a.
Qed.

Lemma turns_explained registry chat fuel n rc b av s a n' s' id :
  incident b = Some id -> turns registry chat fuel n rc b av s = (Some (Ok a), n', s') ->
  (grounded_as (evidence s') Incident id = true
   /\ exists t note, check_references (evidence s') t (operator b) = [] /\ text a = trim_start (t ++ note))
  \/ ((exists note, text a = NO_CHAIN ++ note)
      /\ (grounded_as (evidence s') Incident id = false -> proposals a = [])).
Proof.
  intros Hid. revert n s; induction fuel as [|fuel IH]; intros n s; cbn [turns]; [done|].
  destruct (chat n (messages s)) as [t|e]; [|done].
  destruct (tool_calls t) as [|c calls]; [|by apply IH].
  destruct (final_turn _ _ _ _) as [s2|a'] eqn:Ef; [by apply IH|]. intros [= <- _ <-].
  revert Ef. unfold final_turn. set (s1 := with_usage _ s). set (d := draft_of _ _ _ _).
  destruct (_ && _); [done|].
  assert (forall x, trim_start (NO_CHAIN ++ x) = NO_CHAIN ++ x) as Htr by reflexivity.
  assert (no_incident d = if grounded_as (evidence s1) Incident id then None
    else Some (#"explains incident " ++ q id ++ #", which no tool returned")) as Hno
    by (unfold d, draft_of; by rewrite Hid).
  unfold finished. rewrite Hid. cbn [is_some]. rewrite Hno.
  destruct (grounded_as (evidence s1) Incident id) eqn:Eg; cbn [is_some orb andb].
  - destruct (references_found d) as [|f fs] eqn:Er; cbn [is_nil negb]; intros [= <-].
    + left. split; [done|]. exists (d_text d), (notes d). split; [exact Er|done].
    + right. split; [|done]. exists (notes d). exact (Htr (notes d)).
  - intros [= <-]. right. split; [|done]. exists (notes d). exact (Htr (notes d)).
Qed.

(** An explanation stands on its incident or is not given.  The answer of
    a run about an incident either is a draft in which the check found no
    reference, amount or demand without evidence, with the incident itself
    returned by a tool of this run; or it begins with the sentence that says
    no chain is given, and then, when the incident was not returned, it carries
    no proposal. *)
Theorem explanation_rests_on_its_incident registry chat limit question b case a n s id :
  incident b = Some id ->
  run_with registry chat limit question b case = (Ok a, n, s) ->
  (grounded_as (evidence s) Incident id = true
   /\ exists t note, check_references (evidence s) t (operator b) = [] /\ text a = trim_start (t ++ note))
  \/ ((exists note, text a = NO_CHAIN ++ note)
      /\ (grounded_as (evidence s) Incident id = false -> proposals a = [])).
Proof.
  intros Hid. unfold run_with. destruct (turns _ _ _ _ _ _ _ _) as [[r n'] s'] eqn:E. intros H.
  assert (r = Some (Ok a) /\ s' = s) as [-> ->] by (destruct r as [[a'|e]|]; split; congruence).
  by eapply turns_explained in E.
Qed.

Lemma case_turns registry registry' chat fuel n b av s :
  turns registry chat fuel n true b av s = turns registry' chat fuel n true b av s.
Proof.
  revert n s; induction fuel as [|fuel IH]; intros n s; [done|]. cbn [turns].
  destruct (chat n (messages s)) as [t|e]; [|done].
  destruct (tool_calls t); [|apply IH]. destruct (final_turn _ _ _ _); [apply IH|done].
Qed.

Definition case_state (s : State) : Prop :=
  cards s = [] /\ exists p, exists tr, trace s = mkInvocation CASE_TOOL true p :: tr /\ Forall (fun i => ti_ok i = false) tr.

Lemma case_calls registry b calls s : case_state s -> case_state (fold_left (call_step registry true b) calls s).
Proof.
  revert s; induction calls as [|c calls IH]; intros s Hs; [exact Hs|]. simpl. apply IH.
  destruct Hs as (Hc&p&tr&Ht&Hf). split; [done|]. exists p. simpl. rewrite Ht. eexists. split; [reflexivity|].
  apply Forall_app_2; [done|by apply Forall_singleton].
Qed.

Lemma case_turns_ok registry chat fuel n b av s a n' s' :
  case_state s -> turns registry chat fuel n true b av s = (Some (Ok a), n', s') ->
  proposals a = [] /\ exists p tr, tool_trace a = mkInvocation CASE_TOOL true p :: tr /\ Forall (fun i => ti_ok i = false) tr.
Proof.
  revert n s; induction fuel as [|fuel IH]; intros n s Hs; cbn [turns]; [done|].
  destruct (chat n (messages s)) as [t|e]; [|done].
  destruct (tool_calls t) as [|c calls]; [|by apply IH, case_calls].
  destruct (final_turn _ _ _ _) as [s2|a'] eqn:Ef.
  - apply IH. unfold final_turn in Ef. destruct (_ && _); [injection Ef as <-; exact Hs|].
    by destruct (if is_some _ then _ else _).
  - intros [= -> _ _]. unfold final_turn in Ef. destruct (_ && _); [done|]. destruct Hs as (Hc&Ht).
    destruct (is_some _); injection Ef as <-; simpl; (split; [done|exact Ht]).
Qed.

(** Reading a case acts on nothing.  What the explanation of a case file
    is does not depend on what any tool does, only on the names the registry
    holds; it carries no proposal; and every tool the model asked for was
    refused. *)
Theorem case_reading_uses_no_tool registry registry' chat limit case :
  tool_names (registry 0%nat) = tool_names (registry' 0%nat) ->
  explain_case registry chat limit case = explain_case registry' chat limit case
  /\ forall a n s, explain_case registry chat limit case = (Ok a, n, s) ->
       proposals a = [] /\ Forall (fun i => ti_ok i = false) (tl (tool_trace a)).
Proof.
  intros Hn. unfold explain_case, run_with. rewrite Hn. split.
  - by rewrite (case_turns registry registry').
  - intros a n s. cbn [is_some]. destruct (turns _ _ _ _ _ _ _ _) as [[r n'] s'] eqn:E. intros H.
    assert (r = Some (Ok a)) as -> by (destruct r as [[a'|e]|]; congruence).
    apply case_turns_ok in E as (Hp&p&tr&Ht&Hf); [|by split; [|eexists _, []]].
    split; [done|]. by rewrite Ht.
Qed.
End Properties.

(** ** Witnesses *)

#[local] Existing Instance ascii_tables.
#[local] Existing Instance exact_floats.
#[local] Instance demo_micros : Micros := {| to_micros _ := 0 |}.
(** A writer that names the members of an object. *)
#[local] Instance demo_json : JsonText :=
  {| json_of _ := None; json_text v := match v with VObj ms => flat_map fst ms | _ => #"value" end |}.

Definition demo_read (name : str) (_ : value) : result value ToolError :=
  if str_eqb name #"list_runs" then Ok (obj [(#"run_id", VStr #"r-1")])
  else if str_eqb name #"incidents" then Ok (obj [(#"id", VStr #"inc-7")])
  else Err (Unavailable name).
Definition demo_registry (_ : nat) : list Tool :=
  new_registry demo_read (mkClients true false None false false false false).
Definition call (name : str) (args : value) : ToolCall := mkCall #"c" name args.
Definition says (t : str) : ChatTurn := mkTurn (Some t) [] (mkUsage 1 1).
Definition calls_of (cs : list ToolCall) : ChatTurn := mkTurn None cs (mkUsage 1 1).
Definition kill_args : value := obj [(#"run_id", VStr #"r-1"); (#"reason", VStr #"runaway")].

(** The model reads the runs, proposes to stop one, and answers. *)
Definition demo_chat (n : nat) (_ : list Message) : result ChatTurn str :=
  match n with
  | O => Ok (calls_of [call #"list_runs" (obj []); call #"propose_kill" kill_args])
  | _ => Ok (says #"Stop it.")
  end.
Abbreviation demo_result := (run_with demo_registry demo_chat 6 #"what now?" (mkBrief (Some #"what now?") None) None) (only parsing).

Lemma card_rests_on_evidence_witness :
  exists a n s p, demo_result = (Ok a, n, s) /\ proposals a = [p] /\ target p = #"r-1"
    /\ (asked (Some #"what now?") (kind p) (target p) = true \/ (kind p = Rescan /\ target p = #"all")
        \/ named_by_tool demo_registry s (target_kind (kind p)) (stem_of (target p))
        \/ named_by_operator (Some #"what now?") (target_kind (kind p)) (stem_of (target p))).
Proof.
  assert (match demo_result with (Ok a, _, _) => map target (proposals a) = [ #"r-1"] | _ => False end) as Hp
    by (vm_compute; reflexivity).
  destruct demo_result as [[[a|e] n] s] eqn:E; [|destruct Hp].
  pose proof (card_rests_on_evidence demo_registry demo_chat 6 #"what now?" (mkBrief (Some #"what now?") None) a n s E) as [_ H].
  destruct (proposals a) as [|p [|]] eqn:Ep; [discriminate Hp| |discriminate Hp]. apply Forall_cons in H as [H _].
  exists a, n, s, p. split; [reflexivity|]. split; [exact Ep|]. split; [|exact H]. cbn [map] in Hp. congruence.
Defined.

Lemma two_plain_turns_answer_witness :
  exists a, (run_with demo_registry (fun _ _ => Ok (says #"ok")) 2 #"hi" (mkBrief (Some #"hi") None) None).1.1 = Ok a.
Proof.
  apply (two_plain_turns_answer demo_registry (fun _ _ => Ok (says #"ok")) 2 #"hi" (mkBrief (Some #"hi") None) None 0 1).
  - intros i ms. by exists (says #"ok").
  - simpl. lia.
  - intros ms t [= <-]. reflexivity.
  - intros ms t [= <-]. reflexivity.
Defined.

Definition explain_chat (n : nat) (_ : list Message) : result ChatTurn str :=
  match n with
  | O => Ok (calls_of [call #"incidents" (obj [])])
  | _ => Ok (says #"The incident inc-7 is a budget stop.")
  end.
Definition explain_brief : Brief := mkBrief None (Some #"inc-7").
Abbreviation explain_result := (run_with demo_registry explain_chat 6 #"explain" explain_brief None) (only parsing).

Lemma explanation_rests_on_its_incident_witness :
  exists a n s, explain_result = (Ok a, n, s) /\ grounded_as (evidence s) Incident #"inc-7" = true
    /\ exists t note, check_references (evidence s) t None = [] /\ text a = trim_start (t ++ note).
Proof.
  assert (match explain_result with
          | (Ok a, _, s) => grounded_as (evidence s) Incident #"inc-7" = true /\ hd 0 (text a) = 84
          | _ => False end) as Hp by (vm_compute; by split).
  destruct explain_result as [[[a|e] n] s] eqn:E; [|destruct Hp]. destruct Hp as [Hg Ht].
  exists a, n, s. split; [reflexivity|]. split; [exact Hg|].
  destruct (explanation_rests_on_its_incident demo_registry explain_chat 6 #"explain" explain_brief None a n s #"inc-7"
    eq_refl E) as [[_ H]|[[note H] _]]; [exact H|].
  rewrite H in Ht. discriminate Ht.
Defined.

Lemma case_reading_uses_no_tool_witness :
  explain_case demo_registry demo_chat 2 (obj [(#"incident_id", VStr #"inc-7")])
  = explain_case (fun _ => new_registry (fun _ _ => Ok VNull) (mkClients true false None false false false false))
      demo_chat 2 (obj [(#"incident_id", VStr #"inc-7")]).
Proof. apply case_reading_uses_no_tool. by vm_compute. Defined.
