(* ===== verification/Provider.v ===== *)
(** * Provider: the copilot's configuration and its model clients
    ([crates/copilot/src/config.rs], [provider/mod.rs], [provider/openai.rs],
    [provider/anthropic.rs])

    A configuration becomes a client of one of two wire formats, or nothing,
    and its address passes the residency gate first ([Residency]).  A client
    turns a conversation into one request and an answer into one turn.  The
    key the console presents to its own gateway is taken out of every error a
    client returns. *)
From S2P Require Import Prelude Text Json JsonCode Signing Jcs Ingest Command Http Prog Effects Cloud Unicode Grounding Residency Untrusted Felyx.

(** ** Configuration ([config.rs]) *)

Inductive ProviderKind : Type := PNone | Ollama | LmStudio | OpenAiCompat | Anthropic | OpenRouter.
#[export] Instance ProviderKind_eq_dec : EqDecision ProviderKind.
Proof. solve_decision. Defined.
Definition default_base_url (k : ProviderKind) : option str :=
  match k with
  | Ollama => Some #"http://127.0.0.1:11434/v1"
  | LmStudio => Some #"http://127.0.0.1:1234/v1"
  | Anthropic => Some #"https://api.anthropic.com"
  | OpenRouter => Some #"https://openrouter.ai/api/v1"
  | OpenAiCompat | PNone => None
  end.
Definition provider_label (k : ProviderKind) : str :=
  match k with
  | PNone => #"none" | Ollama => #"ollama" | LmStudio => #"lmstudio" | OpenAiCompat => #"openai_compat"
  | Anthropic => #"anthropic" | OpenRouter => #"openrouter"
  end.

Inductive ProviderError : Type :=
| NonLocalEndpointRefused (url : str)
| ConfigText (why : str)
| ProviderTransport (why : str)
| HttpStatus (status : Z) (body : str)
| Decode (why : str).

Inductive ConfigError : Type :=
| MissingField (field : str)
| BadSecretRef
| BadApiKeyRef
| SecretUnavailable (why : str)
| BadAgentId (id : str)
| BadFuseKeyRef
| FuseKeyUnavailable (why : str)
| BadFuseKey (why : str)
| ProviderRefused (e : ProviderError).

Record CopilotConfig : Type := mkConfig
  { provider : ProviderKind; cfg_base_url : option str; cfg_model : option str; api_key_ref : option str;
    allow_non_local_endpoints : bool; local_hostnames : list str; max_iterations : Z; max_tokens : Z; run_id : str;
    cfg_agent_id : option str; fuse_key_ref : option str }.
Definition default_config : CopilotConfig :=
  mkConfig PNone None None None false [] 6 1024 #"genaryx-copilot" None None.

(** What the process reads when it builds a provider: variables and files. *)
Inductive Var : Type := VarSet (v : str) | NotPresent | NotUnicode.
Record Reads : Type := mkReads { env : str -> Var; read_to_string : str -> result str str }.
Definition var_ok (r : Reads) (key : str) : option str := match env r key with VarSet v => Some v | _ => None end.

Definition org_domain_name (r : Reads) : str :=
  match var_ok r #"GENARYX_ORG_DOMAIN" with
  | Some v => if bool_decide (trim v = []) then #"local" else trim v
  | None => #"local"
  end.

Definition is_valid_agent_id (id : str) : bool :=
  if 255 <? byte_len id then false
  else
    match strip_prefix #"agent://" id with
    | None => false
    | Some rest =>
        match split_once #"/" rest with
        | None => false
        | Some (domain, path) =>
            negb (bool_decide (domain = []))
            && forallb (fun c => ascii_lower c || ascii_digit c || (c =? 46) || (c =? 45)) domain
            && negb (bool_decide (path = []))
            && forallb (fun c => ascii_lower c || ascii_digit c || (c =? 46) || (c =? 95) || (c =? 47) || (c =? 45)) path
        end
    end.

Definition resolved_base_url (c : CopilotConfig) : result str ConfigError :=
  match cfg_base_url c with
  | Some url => Ok url
  | None => ok_or (default_base_url (provider c)) (MissingField #"base_url")
  end.
Definition require_model (c : CopilotConfig) : result str ConfigError := ok_or (cfg_model c) (MissingField #"model").

Inductive SecretRef : Type := SecretEnv (var : str) | SecretFile (path : str).
Definition parse_secret_ref (reference : str) : result SecretRef ConfigError :=
  match strip_prefix #"env:" reference with
  | Some [] => Err BadSecretRef
  | Some var => Ok (SecretEnv var)
  | None =>
      match strip_prefix #"file:" reference with
      | Some [] => Err BadSecretRef
      | Some path => Ok (SecretFile path)
      | None => Err BadSecretRef
      end
  end.
(** [trim_end_matches(['\n', '\r'])]. *)
Definition trim_line_end (s : str) : str := trim_end_by (fun c => (c =? 10) || (c =? 13)) s.
Definition resolve_secret (r : Reads) (s : SecretRef) : result str ConfigError :=
  match s with
  | SecretEnv var =>
      match var_ok r var with
      | Some v => Ok (trim v)
      | None => Err (SecretUnavailable (#"env var " ++ var ++ #" is not set"))
      end
  | SecretFile path =>
      let? v := map_err (fun e => SecretUnavailable (#"reading " ++ path ++ #": " ++ e)) (read_to_string r path) in
      Ok (trim_line_end v)
  end.

Definition resolve_api_key (r : Reads) (c : CopilotConfig) : result (option str) ConfigError :=
  match api_key_ref c with
  | None => Ok None
  | Some reference =>
      let? s := map_err (fun _ => BadApiKeyRef) (parse_secret_ref reference) in
      let? v := resolve_secret r s in Ok (Some v)
  end.

Definition resolved_agent_id (r : Reads) (c : CopilotConfig) : result str ConfigError :=
  let own := match cfg_agent_id c with Some v => trim v | None => [] end in
  if bool_decide (own = []) then Ok (#"agent://" ++ org_domain_name r ++ #"/genaryx/felyx")
  else if is_valid_agent_id own then Ok own
  else Err (BadAgentId own).

(** The key the console shows to its own gateway. *)
Definition FUSE_KEY_HEADER : str := #"x-fuse-key".
Definition FUSE_KEY_REDACTED : str := #"[x-fuse-key redacted]".
Definition MAX_FUSE_KEY_BYTES : Z := 1024.
Definition new_fuse_key (v : str) : result str str :=
  if bool_decide (v = []) then Err #"it is empty"
  else if MAX_FUSE_KEY_BYTES <? byte_len v then Err #"it is longer than 1024 bytes"
  else if negb (forallb ascii_graphic (str_bytes v))
  then Err #"it holds a character other than printable ASCII (a space, a control character or a non-ASCII byte)"
  else Ok v.

Definition resolve_fuse_key (r : Reads) (c : CopilotConfig) : result (option str) ConfigError :=
  match (let! v := fuse_key_ref c in if bool_decide (trim v = []) then None else Some (trim v)) with
  | None => Ok None
  | Some reference =>
      let? s := map_err (fun _ => BadFuseKeyRef) (parse_secret_ref reference) in
      let? v := match s with
                | SecretEnv var =>
                    match env r var with
                    | VarSet v => Ok v
                    | NotPresent => Err (FuseKeyUnavailable #"names an environment variable that is not set")
                    | NotUnicode => Err (FuseKeyUnavailable #"names an environment variable that is not valid UTF-8")
                    end
                | SecretFile path =>
                    map_err (fun e => FuseKeyUnavailable (#"names a file that cannot be read (" ++ e ++ #")")) (read_to_string r path)
                end in
      if bool_decide (trim v = []) then Ok None
      else let? key := map_err BadFuseKey (new_fuse_key (trim v)) in Ok (Some key)
  end.

(** ** Building a client ([provider/mod.rs]) *)

Record LlmClient : Type := mkLlm
  { kind : ProviderKind; base_url : str; model : str; api_key : option str; http : ProviderClient; lc_run_id : str;
    lc_agent_id : str; fuse_key : option str }.
Record ProviderDescriptor : Type := mkDescriptor { pd_provider : str; pd_model : str; pd_endpoint : str; pd_local : bool }.
Definition descriptor (c : LlmClient) : ProviderDescriptor :=
  mkDescriptor (provider_label (kind c)) (model c) (base_url c) (local (http c)).

(** [lookup] is the system's answer for a name at this moment. *)
Definition build_provider {UP : UrlParse} (r : Reads) (lookup : str -> result (list IpAddr) str) (c : CopilotConfig)
  : result (option LlmClient) ConfigError :=
  match provider c with
  | PNone => Ok None
  | k =>
      let? url := resolved_base_url c in
      let? model := require_model c in
      let? key := resolve_api_key r c in
      let? key := match k, key with
                  | Anthropic, None => Err (MissingField #"api_key_ref (Anthropic requires a key)")
                  | _, key => Ok key
                  end in
      let? agent_id := resolved_agent_id r c in
      let? fuse := resolve_fuse_key r c in
      let name := match classify_host url with Hostname n => n | _ => [] end in
      let? client := map_err (fun u => ProviderRefused (NonLocalEndpointRefused u))
                       (check_residency url (allow_non_local_endpoints c) (local_hostnames c) (lookup name)) in
      Ok (Some (mkLlm k url model key client (run_id c) agent_id fuse))
  end.

(** ** Errors without the key *)

Definition redact_fuse_key (text key : str) : str := replace key FUSE_KEY_REDACTED text.
Definition without_fuse_key (key : option str) (e : ProviderError) : ProviderError :=
  match key with
  | None => e
  | Some key =>
      let clean text := redact_fuse_key text key in
      match e with
      | NonLocalEndpointRefused url => NonLocalEndpointRefused (clean url)
      | ConfigText text => ConfigText (clean text)
      | ProviderTransport text => ProviderTransport (clean text)
      | HttpStatus status body => HttpStatus status (clean body)
      | Decode text => Decode (clean text)
      end
  end.
Definition error_parts (e : ProviderError) : str :=
  match e with
  | NonLocalEndpointRefused t | ConfigText t | ProviderTransport t | HttpStatus _ t | Decode t => t
  end.

(** ** One turn on the wire *)

Record ToolSpec : Type := mkSpec { spec_name : str; spec_description : str; params_schema : value }.
Record ChatRequest : Type := mkChat
  { system : str; messages : list Message; tools : list ToolSpec; req_max_tokens : Z; temperature : f64 }.

(** What the HTTP and JSON libraries decide: the text of an answer's body, the
    refusal a failed request carries in its chain of causes when the resolver
    gave one, and the words of a JSON error. *)
Class ModelWire := {
  response_text : Response -> result str str;
  refusal_of : str -> option ResidencyRefusal;
  decode_error : str -> str;
}.

Section Wire.
Context {JT : JsonText} {MW : ModelWire}.

Definition map_send_error (url e : str) : ProviderError :=
  match refusal_of e with
  | Some refusal => NonLocalEndpointRefused (url ++ #" (" ++ refusal_display refusal ++ #")")
  | None => ProviderTransport e
  end.

(** The answer of [send], its status and its body. *)
Definition answer_text (url : str) (x : result Response str) : result str ProviderError :=
  match x with
  | Err e => Err (map_send_error url e)
  | Ok r =>
      let? text := map_err ProviderTransport (response_text r) in
      if negb (is_success (status r)) then Err (HttpStatus (status r) text) else Ok text
  end.

Definition from_text (text : str) : result value ProviderError :=
  match json_of (str_bytes text) with Some v => Ok v | None => Err (Decode (decode_error text)) end.
Definition text_at (k : str) (v : value) : option str := let! x := get k v in as_str x.
Definition fuse_header (c : LlmClient) : list (str * str) :=
  match fuse_key c with Some key => [(FUSE_KEY_HEADER, key)] | None => [] end.
Definition no_arguments : value := obj [].

(** *** The [/chat/completions] format *)

Definition call_to_openai (c : ToolCall) : value :=
  obj [(#"id", VStr (call_id c)); (#"type", VStr #"function");
       (#"function", obj [(#"name", VStr (call_name c)); (#"arguments", VStr (json_text (arguments c)))])].
Definition message_to_openai (m : Message) : value :=
  match role m with
  | System => obj [(#"role", VStr #"system"); (#"content", VStr (m_content m))]
  | User => obj [(#"role", VStr #"user"); (#"content", VStr (m_content m))]
  | ToolRole => obj [(#"role", VStr #"tool"); (#"tool_call_id", VStr (default [] (tool_call_id m))); (#"content", VStr (m_content m))]
  | Assistant =>
      match m_calls m with
      | [] => obj [(#"role", VStr #"assistant"); (#"content", VStr (m_content m))]
      | calls =>
          obj [(#"role", VStr #"assistant");
               (#"content", if bool_decide (m_content m = []) then VNull else VStr (m_content m));
               (#"tool_calls", VArr (map call_to_openai calls))]
      end
  end.
Definition spec_to_openai (t : ToolSpec) : value :=
  obj [(#"type", VStr #"function");
       (#"function", obj [(#"name", VStr (spec_name t)); (#"description", VStr (spec_description t));
                          (#"parameters", params_schema t)])].
Definition openai_body (c : LlmClient) (req : ChatRequest) : value :=
  let before := if bool_decide (system req = []) then []
                else [obj [(#"role", VStr #"system"); (#"content", VStr (system req))]] in
  let own := [(#"model", VStr (model c)); (#"messages", VArr (before ++ map message_to_openai (messages req)));
              (#"max_tokens", VNum (NInt (req_max_tokens req))); (#"temperature", VNum (NFloat (temperature req)));
              (#"stream", VBool false)] in
  match tools req with
  | [] => obj own
  | ts => obj (own ++ [(#"tools", VArr (map spec_to_openai ts)); (#"tool_choice", VStr #"auto")])
  end.

(** [Value::pointer], one member at a time. *)
Definition item (i : nat) (v : value) : option value :=
  match v with
  | VArr vs => vs !! i
  | VObj ms => obj_get (dec (Z.of_nat i)) ms
  | _ => None
  end.

(** Tokens: kept in 32 bits. *)
Definition clamp_u32 (n : Z) : Z := if n <=? u32_max then n else u32_max.
Definition count (field : str) (v : value) : option Z :=
  let! u := get #"usage" v in let! n := get field u in as_u64 n.
Definition usage_from (v : value) : Usage :=
  let prompt := default 0 (count #"prompt_tokens" v) in
  let completion := default 0 (count #"completion_tokens" v) in
  let output := match count #"total_tokens" v with
                | Some total => Z.max completion (Z.max 0 (total - prompt))
                | None => completion
                end in
  mkUsage (clamp_u32 prompt) (clamp_u32 output).

Definition parse_arguments (v : value) : value :=
  match v with
  | VStr s => if bool_decide (trim s = []) then no_arguments else default no_arguments (json_of (str_bytes s))
  | other => other
  end.
Definition call_from_openai (i : nat) (call : value) : ToolCall :=
  let func := get #"function" call in
  mkCall (default (#"call_" ++ dec (Z.of_nat i)) (text_at #"id" call))
    (default [] (let! f := func in text_at #"name" f))
    (match (let! f := func in get #"arguments" f) with Some v => parse_arguments v | None => no_arguments end).
Definition parse_openai_response (text : str) : result ChatTurn ProviderError :=
  let? v := from_text text in
  match (let! choices := get #"choices" v in let! first := item 0 choices in get #"message" first) with
  | None => Err (Decode #"no choices[0].message")
  | Some message =>
      let said := let! s := text_at #"content" message in if bool_decide (s = []) then None else Some s in
      let calls := match (let! c := get #"tool_calls" message in as_array c) with
                   | Some calls => imap call_from_openai calls
                   | None => []
                   end in
      Ok (mkTurn said calls (usage_from v))
  end.

Definition openai_request (c : LlmClient) (req : ChatRequest) : Request :=
  mkRequest #"POST" (base_url_of (base_url c) ++ #"/chat/completions") (api_key c)
    ([(#"x-fuse-run-id", lc_run_id c); (#"x-fuse-agent-id", lc_agent_id c); json_header] ++ fuse_header c)
    (str_bytes (json_text (openai_body c req))).

(** *** The [/v1/messages] format *)

Definition ANTHROPIC_VERSION : str := #"2023-06-01".
Definition text_block (s : str) : value := obj [(#"type", VStr #"text"); (#"text", VStr s)].
Definition result_block (m : Message) : value :=
  obj [(#"type", VStr #"tool_result"); (#"tool_use_id", VStr (default [] (tool_call_id m))); (#"content", VStr (m_content m))].
Definition use_block (c : ToolCall) : value :=
  obj [(#"type", VStr #"tool_use"); (#"id", VStr (call_id c)); (#"name", VStr (call_name c)); (#"input", arguments c)].
Definition said_by (who : str) (blocks : list value) : value :=
  obj [(#"role", VStr who); (#"content", VArr blocks)].

(** The closure [flush]: the results held back become one message. *)
Definition flush_results (pending out : list value) : list value :=
  match pending with [] => out | _ => out ++ [said_by #"user" pending] end.
Definition assistant_blocks (m : Message) : list value :=
  (if bool_decide (m_content m = []) then [] else [text_block (m_content m)]) ++ map use_block (m_calls m).
Definition fold_message (m : Message) (st : list value * list value) : list value * list value :=
  let (pending, out) := st in
  match role m with
  | System => (pending, out)
  | ToolRole => (pending ++ [result_block m], out)
  | User => ([], flush_results pending out ++ [said_by #"user" [text_block (m_content m)]])
  | Assistant => ([], flush_results pending out ++ [said_by #"assistant" (assistant_blocks m)])
  end.
Definition messages_to_anthropic (ms : list Message) : list value :=
  let (pending, out) := fold_left (fun st m => fold_message m st) ms ([], []) in flush_results pending out.

Definition spec_to_anthropic (t : ToolSpec) : value :=
  obj [(#"name", VStr (spec_name t)); (#"description", VStr (spec_description t)); (#"input_schema", params_schema t)].
Definition anthropic_body (c : LlmClient) (req : ChatRequest) : value :=
  obj ([(#"model", VStr (model c)); (#"max_tokens", VNum (NInt (req_max_tokens req)));
        (#"messages", VArr (messages_to_anthropic (messages req)))]
       ++ (if bool_decide (system req = []) then [] else [(#"system", VStr (system req))])
       ++ match tools req with [] => [] | ts => [(#"tools", VArr (map spec_to_anthropic ts))] end).

(** [as u32]: the low 32 bits. *)
Definition as_u32 (n : Z) : Z := n mod 2 ^ 32.
Definition read_block (acc : str * list ToolCall) (block : value) : str * list ToolCall :=
  let (text_out, calls) := acc in
  match text_at #"type" block with
  | Some kind =>
      if str_eqb kind #"text" then
        match text_at #"text" block with Some t => (text_out ++ t, calls) | None => acc end
      else if str_eqb kind #"tool_use" then
        (text_out, calls ++ [mkCall (default [] (text_at #"id" block)) (default [] (text_at #"name" block))
                               (default no_arguments (get #"input" block))])
      else acc
  | None => acc
  end.
Definition parse_anthropic_response (text : str) : result ChatTurn ProviderError :=
  let? v := from_text text in
  match (let! c := get #"content" v in as_array c) with
  | None => Err (Decode #"no content array")
  | Some blocks =>
      let (text_out, calls) := fold_left read_block blocks ([], []) in
      Ok (mkTurn (if bool_decide (text_out = []) then None else Some text_out) calls
            (mkUsage (as_u32 (default 0 (count #"input_tokens" v))) (as_u32 (default 0 (count #"output_tokens" v)))))
  end.

Definition anthropic_request (c : LlmClient) (req : ChatRequest) : Request :=
  mkRequest #"POST" (base_url_of (base_url c) ++ #"/v1/messages") None
    ([(#"x-api-key", default [] (api_key c)); (#"anthropic-version", ANTHROPIC_VERSION);
      (#"x-fuse-run-id", lc_run_id c); (#"x-fuse-agent-id", lc_agent_id c)] ++ fuse_header c ++ [json_header])
    (str_bytes (json_text (anthropic_body c req))).

(** [chat] of the client's format: one exchange, and the key taken out of an error. *)
Definition wire_request (c : LlmClient) (req : ChatRequest) : Request :=
  match kind c with Anthropic => anthropic_request c req | _ => openai_request c req end.
Definition wire_answer (c : LlmClient) (text : str) : result ChatTurn ProviderError :=
  match kind c with Anthropic => parse_anthropic_response text | _ => parse_openai_response text end.
Definition exchange (c : LlmClient) (req : ChatRequest) : program (result ChatTurn ProviderError) :=
  do x <- Send (wire_request c req);
  Ret (let? text := answer_text (base_url c) x in wire_answer c text).
Definition chat (c : LlmClient) (req : ChatRequest) : program (result ChatTurn ProviderError) :=
  do! r <- exchange c req; Ret (map_err (without_fuse_key (fuse_key c)) r).
End Wire.

(** ** Properties *)

(** What [replace] leaves. *)
Lemma split_once_before p s a b : p <> [] -> split_once p s = Some (a, b) -> contains p a = false.
Proof.
  intros Hp. revert a. induction s as [|c s IH]; intros a; cbn [split_once].
  - destruct (strip_prefix p []) as [r|] eqn:E; [|done]. apply strip_prefix_Some in E.
    destruct p; [done|discriminate].
  - destruct (strip_prefix p (c :: s)) as [r|] eqn:E.
    + intros [= <- _]. apply not_true_iff_false. rewrite contains_iff. intros ([|]&y&H); [|done]. by destruct p.
    + destruct (split_once p s) as [[a' b']|] eqn:Es; [|done]. intros [= <- ->].
      apply not_true_iff_false. rewrite contains_iff. intros ([|d x]&y&H).
      * cbn [app] in H. apply split_once_Some in Es. subst s.
        rewrite app_comm_cons, H, <- app_assoc, strip_prefix_app in E. done.
      * injection H as <- H. specialize (IH a' eq_refl). apply not_true_iff_false in IH. apply IH, contains_iff. eauto.
Qed.

Lemma split_str_aux_pieces p fuel s :
  p <> [] -> (length s <= fuel)%nat -> Forall (fun w => contains p w = false) (split_str_aux fuel p s).
Proof.
  intros Hp. revert s. induction fuel as [|fuel IH]; intros s Hl; cbn [split_str_aux].
  - destruct s; [|cbn in Hl; lia]. constructor; [|constructor]. apply not_true_iff_false. rewrite contains_iff.
    intros ([|]&y&H); [|done]. by destruct p.
  - destruct (split_once p s) as [[a b]|] eqn:E.
    + constructor; [by eapply split_once_before|]. apply IH. apply split_once_Some in E. subst s.
      rewrite !length_app in Hl. destruct p; [done|]. cbn in Hl. lia.
    + constructor; [|constructor]. unfold contains. by rewrite E.
Qed.

(** A character the pattern does not hold separates its occurrences. *)
Lemma contains_across c p a b : c ∉ p -> contains p (a ++ c :: b) = contains p a || contains p b.
Proof.
  intros Hc. apply eq_true_iff_eq. rewrite orb_true_iff, !contains_iff. split.
  - intros (x&y&H). apply app_eq_inv in H as [(l & -> & H)|(l & -> & H)].
    + apply app_eq_inv in H as [(l2 & -> & H)|(l2 & -> & H)]; [|left; by exists x, l2].
      destruct l2 as [|d l2]; [left; exists x, []; by rewrite !app_nil_r|]. injection H as <- _. set_solver.
    + destruct l as [|d l]; [|injection H as <- ->; right; by exists l, y].
      destruct p as [|e p]; [left; exists a, []; by rewrite !app_nil_r|]. injection H as <- _. set_solver.
  - intros [(x&y&->)|(x&y&->)].
    + exists x, (y ++ c :: b). by rewrite <- !app_assoc.
    + exists (a ++ c :: x), y. by rewrite <- !app_assoc.
Qed.

(** A text whose occurrences of [key] are replaced by a mark in brackets. *)
Lemma replaced_is_gone key mark text :
  key <> [] -> 91 ∉ key -> 93 ∉ key -> contains key mark = false ->
  contains key (replace key ([91] ++ mark ++ [93]) text) = false.
Proof.
  intros Hk Ho Hc Hm. unfold replace, split_str.
  assert (H := split_str_aux_pieces key (length text) text Hk (le_n _)).
  induction H as [|w ws Hw Hws IH]; cbn [join].
  - apply not_true_iff_false. rewrite contains_iff. intros ([|]&y&H); [|done]. by destruct key.
  - destruct ws; [done|]. rewrite <- !app_assoc. cbn [app]. rewrite contains_across by done.
    match goal with |- contains _ w || contains _ ?r = false =>
      assert (contains key r = false) as ->; [|by rewrite Hw] end.
    rewrite contains_across by done. rewrite Hm. exact IH.
Qed.

Definition hides (key : str) : Prop :=
  91 ∉ key /\ 93 ∉ key /\ contains key #"x-fuse-key redacted" = false.
Lemma redacted_has_no_key key text : key <> [] -> hides key -> contains key (redact_fuse_key text key) = false.
Proof. intros Hk (Ho&Hc&Hm). by apply (replaced_is_gone key #"x-fuse-key redacted"). Qed.

Lemma map_err_bind {A B E E'} (f : E -> E') (x : result A E) (k : A -> result B E) b :
  map_err f (let? a := x in k a) = Ok b <-> exists a, x = Ok a /\ k a = Ok b.
Proof.
  destruct x as [a|e]; cbn; [|split; [done|by intros (?&?&?)]].
  destruct (k a) eqn:E1; cbn; (split; [|intros (a'&[= ->]&H2); congruence]); try done. intros [= ->]. eauto.
Qed.

Section Turns.
Context {JT : JsonText} {MW : ModelWire}.

(** A turn is one request, which shows the gateway's key under its header
    and nowhere else by its own doing, and the turn is what the answer to it
    says; when the turn fails, the error handed on does not hold the key,
    whatever the gateway echoed into its body and whatever the transport
    quoted.  The key is one that is not a part of its own replacement. *)
Theorem errors_hide_the_gateway_key c req key tr :
  fuse_key c = Some key -> key <> [] -> hides key ->
  ran tr (chat c req) (fun r tr' =>
    exists x, tr' = tr ++ [Sent (wire_request c req) x]
      /\ (FUSE_KEY_HEADER, key) ∈ headers (wire_request c req)
      /\ (forall t, r = Ok t <-> exists text, answer_text (base_url c) x = Ok text /\ wire_answer c text = Ok t)
      /\ (forall e, r = Err e -> contains key (error_parts e) = false)).
Proof.
  intros Hf Hk Hh. unfold chat, exchange. cbn [bind wp event_of]. split; [done|]. intros t0 x. exists x.
  split; [done|]. split.
  { unfold wire_request, anthropic_request, openai_request, fuse_header. rewrite Hf.
    destruct (kind c); cbn [headers]; set_solver. }
  rewrite Hf. split.
  - intros t. apply map_err_bind.
  - intros e. destruct (let? text := _ in _) as [t|e0]; cbn [map_err]; [done|]. intros [= <-].
    destruct e0; by apply redacted_has_no_key.
Qed.

(** *** Results fold into one message *)

Definition blocks_of (m : value) : list value := default [] (let! c := get #"content" m in as_array c).
Definition message_blocks (m : Message) : list value :=
  match role m with
  | System => []
  | User => [text_block (m_content m)]
  | Assistant => assistant_blocks m
  | ToolRole => [result_block m]
  end.
Definition spoken (m : Message) : Prop := role m = User \/ role m = Assistant.

Lemma blocks_of_said who blocks : blocks_of (said_by who blocks) = blocks.
Proof. unfold said_by. by destruct who. Qed.

Definition fold_all (ms : list Message) (st : list value * list value) : list value * list value :=
  fold_left (fun st m => fold_message m st) ms st.
Definition flat (st : list value * list value) : list value := flush_results st.1 st.2.
Lemma anthropic_flat ms : messages_to_anthropic ms = flat (fold_all ms ([], [])).
Proof. unfold messages_to_anthropic, flat, fold_all. by destruct (fold_left _ ms _). Qed.

Lemma blocks_of_flat st : flat_map blocks_of (flat st) = flat_map blocks_of st.2 ++ st.1.
Proof.
  destruct st as [[|p pending] out]; unfold flat; cbn [flush_results fst snd]; [by rewrite app_nil_r|].
  rewrite flat_map_app. cbn [flat_map]. by rewrite blocks_of_said, app_nil_r.
Qed.
Lemma fold_message_blocks m st :
  flat_map blocks_of (flat (fold_message m st)) = flat_map blocks_of (flat st) ++ message_blocks m.
Proof.
  destruct st as [pending out]. unfold fold_message, message_blocks.
  destruct (role m); rewrite !blocks_of_flat; cbn [fst snd];
    rewrite ?app_nil_r, ?app_assoc; try done;
    rewrite flat_map_app; cbn [flat_map]; rewrite blocks_of_said, app_nil_r; f_equal;
    exact (blocks_of_flat (pending, out)).
Qed.
Lemma fold_all_blocks ms st :
  flat_map blocks_of (flat (fold_all ms st)) = flat_map blocks_of (flat st) ++ flat_map message_blocks ms.
Proof.
  revert st. induction ms as [|m ms IH]; intros st; cbn [flat_map]; [by rewrite app_nil_r|].
  change (fold_all (m :: ms) st) with (fold_all ms (fold_message m st)).
  by rewrite IH, fold_message_blocks, app_assoc.
Qed.

(** What was written stays in front; a spoken message starts afresh. *)
Lemma fold_message_front m pending out :
  spoken m -> fold_message m (pending, out) = ([], flat (pending, out) ++ (fold_message m ([], [])).2).
Proof. unfold fold_message, spoken. by intros [->| ->]. Qed.
Lemma fold_all_front ms pending out pre :
  fold_all ms (pending, pre ++ out) = ((fold_all ms (pending, out)).1, pre ++ (fold_all ms (pending, out)).2).
Proof.
  revert pending out. induction ms as [|m ms IH]; intros pending out; [done|].
  assert (fold_message m (pending, pre ++ out)
          = ((fold_message m (pending, out)).1, pre ++ (fold_message m (pending, out)).2)) as E.
  { unfold fold_message. destruct (role m); cbn [fst snd]; try done;
      destruct pending; cbn [flush_results]; by rewrite <- ?app_assoc. }
  unfold fold_all in *. cbn [fold_left]. rewrite E, IH. by destruct (fold_message m (pending, out)).
Qed.
Lemma flat_front pre st : flat (st.1, pre ++ st.2) = pre ++ flat st.
Proof. destruct st as [[|p pending] out]; [done|]. unfold flat. cbn [flush_results fst snd]. by rewrite <- app_assoc. Qed.
Lemma fold_all_results results pending out :
  Forall (fun m => role m = ToolRole) results ->
  fold_all results (pending, out) = (pending ++ map result_block results, out).
Proof.
  intros H. revert pending. induction H as [|m ms Hm Hms IH]; intros pending; [by rewrite app_nil_r|].
  unfold fold_all in *. cbn [fold_left]. unfold fold_message at 2. rewrite Hm, IH. cbn [map]. by rewrite <- app_assoc.
Qed.
Lemma fold_all_spoken m ms pending out :
  spoken m -> flat (fold_all (m :: ms) (pending, out)) = flat (pending, out) ++ flat (fold_all (m :: ms) ([], [])).
Proof.
  intros Hm.
  change (fold_all (m :: ms) (pending, out)) with (fold_all ms (fold_message m (pending, out))).
  change (fold_all (m :: ms) ([], [])) with (fold_all ms (fold_message m ([], []))).
  rewrite (fold_message_front m pending) by done.
  rewrite fold_all_front, flat_front. f_equal. f_equal.
  assert ((fold_message m ([], [])).1 = []) as E by (by rewrite fold_message_front).
  destruct (fold_message m ([], [])) as [p o]. cbn in E. by subst p.
Qed.
Lemma fold_all_ends_spoken pre m : spoken m -> (fold_all (pre ++ [m]) ([], [])).1 = [].
Proof.
  intros Hm. unfold fold_all. rewrite fold_left_app. cbn [fold_left].
  destruct (fold_left _ pre _) as [pending out]. by rewrite fold_message_front.
Qed.

(** The flat conversation becomes the format's: every block of every
    message but the system's is sent, once and in order, and a run of tool
    results between two spoken messages, or at an end, is one message of the
    user that holds exactly them. *)
Theorem results_fold_into_one_message ms :
  flat_map blocks_of (messages_to_anthropic ms) = flat_map message_blocks ms
  /\ forall pre results post, ms = pre ++ results ++ post ->
       results <> [] -> Forall (fun m => role m = ToolRole) results ->
       (forall p m, pre = p ++ [m] -> spoken m) -> (forall m p, post = m :: p -> spoken m) ->
       messages_to_anthropic ms
       = messages_to_anthropic pre ++ [said_by #"user" (map result_block results)] ++ messages_to_anthropic post.
Proof.
  split.
  { rewrite anthropic_flat, fold_all_blocks. done. }
  intros pre results post -> Hne Hr Hpre Hpost. rewrite !anthropic_flat.
  assert ((fold_all pre ([], [])).1 = []) as E1.
  { destruct pre as [|m pre _] using rev_ind; [done|]. apply fold_all_ends_spoken. by eapply Hpre. }
  destruct (fold_all pre ([], [])) as [pending out] eqn:Ep. cbn in E1. subst pending.
  assert (flat (fold_all results ([], out)) = out ++ [said_by #"user" (map result_block results)]) as E2.
  { rewrite fold_all_results by done. by destruct results. }
  assert (fold_all (pre ++ results ++ post) ([], []) = fold_all post (fold_all results ([], out))) as ->.
  { unfold fold_all in *. by rewrite !fold_left_app, Ep. }
  change (flat ([], out)) with out. destruct post as [|m post].
  - change (fold_all [] ?st) with st. rewrite E2. by rewrite app_nil_r.
  - destruct (fold_all results ([], out)) as [p2 o2] eqn:E3. rewrite fold_all_spoken by by eapply Hpost.
    rewrite E2. by rewrite <- app_assoc.
Qed.

(** *** A call is read back as it was written *)

(** The arguments the model gave are handed back to it as it gave them: a
    call written in the [/chat/completions] format and read by the reader of
    answers, at whatever place, is the same call. *)
Theorem call_written_is_call_read {JL : JsonTextLaws} i c ms :
  arguments c = VObj ms -> readable 127 (VObj ms) -> call_from_openai i (call_to_openai c) = c.
Proof.
  intros Ea Hr. destruct (braced_facts _ (text_object ms Hr)) as (_ & _ & _ & Ht & Hne).
  destruct c as [id name args]. cbn [arguments] in Ea. subst args.
  transitivity (mkCall id name (parse_arguments (VStr (json_text (VObj ms))))); [done|].
  unfold parse_arguments. rewrite bool_decide_eq_false_2 by by rewrite Ht. by rewrite text_round.
Qed.

(** *** Tokens *)

Lemma clamp_u32_range n : 0 <= n -> 0 <= clamp_u32 n <= u32_max.
Proof. unfold clamp_u32. case_match; b2p; unfold u32_max in *; lia. Qed.
Lemma count_range field v : 0 <= default 0 (count field v).
Proof.
  unfold count. destruct (get #"usage" v) as [u|]; [|done]. cbn. destruct (get field u) as [n|]; [|done]. cbn.
  destruct n as [| |[z|]| | |]; cbn [as_u64 default]; try done. case_match; [|done]. b2p. cbn. lia.
Qed.

Lemma clamp_u32_min n : clamp_u32 n = Z.min u32_max n.
Proof. unfold clamp_u32. case_match; b2p; lia. Qed.
Lemma usage_from_range v :
  (0 <= prompt_tokens (usage_from v) <= u32_max) /\ (0 <= completion_tokens (usage_from v) <= u32_max).
Proof.
  pose proof (count_range #"prompt_tokens" v). pose proof (count_range #"completion_tokens" v).
  unfold usage_from. cbn [prompt_tokens completion_tokens]. split; apply clamp_u32_range; [done|]. case_match; lia.
Qed.
Lemma usage_from_counts v :
  prompt_tokens (usage_from v) = Z.min u32_max (default 0 (count #"prompt_tokens" v))
  /\ Z.min u32_max (default 0 (count #"completion_tokens" v)) <= completion_tokens (usage_from v)
  /\ (forall total, count #"total_tokens" v = Some total ->
        Z.min u32_max (total - default 0 (count #"prompt_tokens" v)) <= completion_tokens (usage_from v)).
Proof.
  unfold usage_from. cbn [prompt_tokens completion_tokens]. rewrite !clamp_u32_min.
  split; [done|]. split; [case_match; lia|]. intros total ->. lia.
Qed.
Lemma openai_usage text t :
  parse_openai_response text = Ok t -> exists v, json_of (str_bytes text) = Some v /\ turn_usage t = usage_from v.
Proof.
  unfold parse_openai_response, from_text. destruct (json_of _) as [v|]; [|done]. cbn [rbind].
  case_match; [|done]. intros [= <-]. eauto.
Qed.
Lemma anthropic_usage text t :
  parse_anthropic_response text = Ok t ->
  (0 <= prompt_tokens (turn_usage t) <= u32_max) /\ (0 <= completion_tokens (turn_usage t) <= u32_max).
Proof.
  unfold parse_anthropic_response, from_text. destruct (json_of _) as [v|]; [|done]. cbn [rbind].
  case_match; [|done]. destruct (fold_left _ _ _) as [said calls]. intros [= <-].
  cbn [turn_usage prompt_tokens completion_tokens]. unfold as_u32, u32_max.
  split; split; Z.to_euclidean_division_equations; lia.
Qed.

(** The tokens of a turn fit 32 bits in both formats; in the first the
    count of the prompt is the stated one and the output is never below the
    stated completion, nor below what the total leaves over the prompt, each
    up to the largest number that fits. *)
Theorem token_counts_fit c text t :
  wire_answer c text = Ok t ->
  (0 <= prompt_tokens (turn_usage t) <= u32_max /\ 0 <= completion_tokens (turn_usage t) <= u32_max)
  /\ (kind c <> Anthropic -> forall v, json_of (str_bytes text) = Some v ->
        prompt_tokens (turn_usage t) = Z.min u32_max (default 0 (count #"prompt_tokens" v))
        /\ Z.min u32_max (default 0 (count #"completion_tokens" v)) <= completion_tokens (turn_usage t)
        /\ (forall total, count #"total_tokens" v = Some total ->
              Z.min u32_max (total - default 0 (count #"prompt_tokens" v)) <= completion_tokens (turn_usage t))).
Proof.
  intros H. destruct (decide (kind c = Anthropic)) as [Ek|Ek].
  - split; [|done]. unfold wire_answer in H. rewrite Ek in H. by eapply anthropic_usage.
  - assert (parse_openai_response text = Ok t) as Ho by (unfold wire_answer in H; by destruct (kind c)).
    apply openai_usage in Ho as (v & Ev & ->). split; [apply usage_from_range|].
    intros _ v' Ev'. assert (v' = v) as -> by congruence. apply usage_from_counts.
Qed.
End Turns.

Section Built.
Context {UP : UrlParse} {JT : JsonText} {MW : ModelWire}.

Lemma build_provider_Ok r lookup cfg c :
  build_provider r lookup cfg = Ok (Some c) ->
  provider cfg = kind c /\ resolved_base_url cfg = Ok (base_url c) /\ resolved_agent_id r cfg = Ok (lc_agent_id c)
  /\ resolve_fuse_key r cfg = Ok (fuse_key c)
  /\ exists name, check_residency (base_url c) (allow_non_local_endpoints cfg) (local_hostnames cfg) (lookup name) = Ok (http c).
Proof.
  unfold build_provider. intros H.
  assert (provider cfg <> PNone) as Hn by (by intros E; rewrite E in H).
  destruct (provider cfg) eqn:Ek; try done;
    destruct (resolved_base_url cfg) as [url|] eqn:Eu; try done;
    destruct (require_model cfg) as [m|]; try done;
    destruct (resolve_api_key r cfg) as [[key|]|]; try done; cbn [rbind] in H; try done;
    destruct (resolved_agent_id r cfg) as [id|] eqn:Ea; try done;
    destruct (resolve_fuse_key r cfg) as [fk|] eqn:Ef; try done; cbn [rbind] in H;
    destruct (check_residency _ _ _ _) as [cl|] eqn:Ec; try done;
    cbn [rbind map_err] in H; injection H as <-; cbn; eauto 10.
Qed.

Lemma fuse_key_is_printable r cfg key :
  resolve_fuse_key r cfg = Ok (Some key) ->
  key <> [] /\ byte_len key <= MAX_FUSE_KEY_BYTES /\ forallb ascii_graphic (str_bytes key) = true.
Proof.
  unfold resolve_fuse_key. destruct (let! v := fuse_key_ref cfg in _) as [reference|]; [|done].
  destruct (parse_secret_ref reference) as [s|]; [|done]. cbn [map_err rbind].
  match goal with |- (let? v := ?x in _) = _ -> _ => destruct x as [v|]; [|done] end. cbn [rbind].
  case_bool_decide; [done|]. unfold new_fuse_key. case_bool_decide; [done|]. case_match; [done|].
  destruct (forallb _ _) eqn:E; [|done]. intros [= <-]. match goal with H : (_ <? _) = false |- _ => apply Z.ltb_ge in H end. done.
Qed.

Lemma wire_request_url c req :
  url (wire_request c req)
  = base_url_of (base_url c) ++ match kind c with Anthropic => #"/v1/messages" | _ => #"/chat/completions" end.
Proof. unfold wire_request. by destruct (kind c). Qed.

(** The headers by their names. *)
Definition header_is (n : str) (P : str -> Prop) (h : str * str) : Prop := h.1 = n -> P h.2.
Lemma header_skip n P m v : str_eqb m n = false -> header_is n P (m, v).
Proof. intros H. unfold header_is. simpl. intros ->. by rewrite (proj2 (str_eqb_eq n n) eq_refl) in H. Qed.
Lemma header_by_name n P h : Forall (header_is n P) h -> forall v, (n, v) ∈ h -> P v.
Proof. rewrite Forall_forall. intros H v Hv. exact (H _ Hv eq_refl). Qed.

Lemma fuse_header_only c req key : (FUSE_KEY_HEADER, key) ∈ headers (wire_request c req) -> fuse_key c = Some key.
Proof.
  apply (header_by_name FUSE_KEY_HEADER (fun k => fuse_key c = Some k)).
  unfold wire_request, anthropic_request, openai_request, fuse_header.
  destruct (kind c), (fuse_key c) as [k|]; cbn [headers app]; repeat constructor;
    first [by apply header_skip; vm_compute|done].
Qed.
Lemma agent_header_only c req id : (#"x-fuse-agent-id", id) ∈ headers (wire_request c req) -> id = lc_agent_id c.
Proof.
  apply (header_by_name #"x-fuse-agent-id" (fun i => i = lc_agent_id c)).
  unfold wire_request, anthropic_request, openai_request, fuse_header.
  destruct (kind c), (fuse_key c) as [k|]; cbn [headers app]; repeat constructor;
    first [by apply header_skip; vm_compute|done].
Qed.

Lemma valid_agent_id_graphic id : is_valid_agent_id id = true -> forallb ascii_graphic id = true.
Proof.
  unfold is_valid_agent_id. case_match; [done|]. destruct (strip_prefix _ id) as [rest|] eqn:Ep; [|done].
  apply strip_prefix_Some in Ep as ->. destruct (split_once _ rest) as [[domain path]|] eqn:Es; [|done].
  apply split_once_Some in Es as ->. rewrite !andb_true_iff. intros [[[_ Hd] _] Hp].
  assert (forall f (l : str), (forall c, f c = true -> ascii_graphic c = true) -> forallb f l = true ->
            forallb ascii_graphic l = true) as Hall.
  { intros f l Hf. rewrite !forallb_forall. auto. }
  rewrite !forallb_app. apply Hall in Hd, Hp; [by rewrite Hd, Hp|..];
    intros c Hc; unfold ascii_graphic, ascii_lower, ascii_digit in *; lia.
Qed.

(** C7: a copilot that was built without the opt-in asks nobody outside: each
    turn's request goes to the configured address in its own format, the
    client follows neither redirect nor proxy and says that it is local, and
    for an address that is a name other than localhost, listed by the
    operator, every address a connection may go to, whatever the name
    resolves to by then, is of the box or its own network.  Of what a
    request carries, an agent id is the operator's, printable, when the operator
    gave one, and a gateway key is not empty, not too long and printable; the
    run id, the model and the provider's own key are not checked. *)
Theorem built_copilot_stays_on_the_own_network r lookup cfg c :
  build_provider r lookup cfg = Ok (Some c) -> allow_non_local_endpoints cfg = false ->
  (pd_local (descriptor c) = true /\ followed (http c) = false)
  /\ (forall req, url (wire_request c req)
        = base_url_of (base_url c) ++ match kind c with Anthropic => #"/v1/messages" | _ => #"/chat/completions" end)
  /\ (forall name, url_host (base_url c) = Some (Some (Domain name)) ->
        (eq_ignore_ascii_case name #"localhost" || eq_ignore_ascii_case name #"localhost.localdomain") = false ->
        existsb (fun h => eq_ignore_ascii_case h name) (local_hostnames cfg) = true
        /\ forall later ip, ip ∈ connection (http c) (base_url c) later -> wf_ip ip -> own_network ip)
  /\ (forall ip later, url_host (base_url c) = Some (Some (HostIp ip)) -> wf_ip ip ->
        connection (http c) (base_url c) later = [ip] /\ own_network ip)
  /\ (forall req key, (FUSE_KEY_HEADER, key) ∈ headers (wire_request c req) ->
        key <> [] /\ byte_len key <= MAX_FUSE_KEY_BYTES /\ forallb ascii_graphic (str_bytes key) = true)
  /\ (forall req id, (#"x-fuse-agent-id", id) ∈ headers (wire_request c req) ->
        forall given, cfg_agent_id cfg = Some given -> trim given <> [] ->
        id = trim given /\ forallb ascii_graphic id = true).
Proof.
  intros Hb Hn. apply build_provider_Ok in Hb as (_ & _ & Ha & Hf & name & Hc). rewrite Hn in Hc.
  pose proof (prompts_stay_on_the_own_network _ _ _ _ Hc) as (Hl & Hfol & Hnames).
  split; [done|]. split; [intros req; by rewrite wire_request_url|].
  split; [intros n Hu Hloc; by destruct (Hnames n Hu Hloc) as (? & _ & ?)|].
  split; [intros ip later Hu Hw; by eapply literal_is_its_own_address|]. split.
  - intros req key Hin. apply fuse_header_only in Hin. rewrite Hin in Hf. by apply fuse_key_is_printable in Hf.
  - intros req id Hin given E Hne. apply agent_header_only in Hin as ->. unfold resolved_agent_id in Ha. rewrite E in Ha.
    rewrite bool_decide_eq_false_2 in Ha by done.
    destruct (is_valid_agent_id (trim given)) eqn:Ev; [|done]. injection Ha as <-. split; [done|]. by apply valid_agent_id_graphic.
Qed.
End Built.

(** ** A concrete instance: a gateway with client keys *)

#[local] Existing Instance demo_urls.
#[local] Existing Instance code_json.
#[local] Existing Instance code_json_laws.
#[local] Instance demo_wire : ModelWire :=
  {| response_text := fun r => match whole (chunks r) with Ok b => Ok (from_utf8_lossy b) | Err e => Err e end;
     refusal_of := fun _ => None; decode_error := fun _ => #"expected value" |}.

Definition demo_key : str := #"sk-felyx-1".
Definition demo_reads : Reads :=
  {| env := fun v => if str_eqb v #"FUSE" then VarSet (#" sk-felyx-1" ++ [10]) else NotPresent; read_to_string := fun _ => Err #"no file" |}.
Definition demo_config : CopilotConfig :=
  mkConfig OpenAiCompat (Some demo_url) (Some #"qwen3") None false [ #"tokenfuse-gateway"] 6 1024 #"genaryx-copilot"
    (Some #"agent://acme.example/genaryx/felyx ") (Some #"env:FUSE").
Definition demo_lookup (_ : str) : result (list IpAddr) str := Ok [V4 10 0 0 5].
Definition demo_llm : LlmClient :=
  mkLlm OpenAiCompat demo_url #"qwen3" None Residency.demo_client #"genaryx-copilot"
    #"agent://acme.example/genaryx/felyx" (Some demo_key).

Example demo_llm_built : build_provider demo_reads demo_lookup demo_config = Ok (Some demo_llm).
Proof. by vm_compute. Qed.
Lemma built_copilot_stays_on_the_own_network_witness : own_network (V4 10 0 0 6).
Proof.
  exact (proj2 (proj1 (proj2 (proj2 (built_copilot_stays_on_the_own_network demo_reads demo_lookup demo_config demo_llm
    demo_llm_built eq_refl))) demo_name demo_host demo_not_localhost) (Ok [V4 10 0 0 6]) (V4 10 0 0 6) demo_later I).
Defined.

(** A gateway that echoes the key into its refusal. *)
Definition demo_chat_request : ChatRequest := mkChat [] [user_message #"hello"] [] 10 (F64 false [2] (-1)).
Definition echo (tr : list event) (o : op) : resp o :=
  match o with
  | Send _ => Ok (mkResponse 401 [Ok #"unknown key sk-felyx-1 (sk-felyx-1)"])
  | Draw => (None, Err []) | Clock => 0 | Seed => (Err [], 0, 0) | Now => 0 | Random => Err []
  | Journal _ _ _ => Ok tt
  end.
Example demo_echo :
  (play echo [] (chat demo_llm demo_chat_request)).1
  = Err (HttpStatus 401 #"unknown key [x-fuse-key redacted] ([x-fuse-key redacted])").
Proof. by vm_compute. Qed.
Example demo_hides : hides demo_key.
Proof. split; [|split]; [apply (bool_decide_unpack _); by vm_compute..|by vm_compute]. Qed.
Example demo_key_ne : demo_key <> [].
Proof. done. Qed.
Lemma errors_hide_the_gateway_key_witness :
  ran [] (chat demo_llm demo_chat_request) (fun r _ => forall e, r = Err e -> contains demo_key (error_parts e) = false).
Proof.
  exact (wp_mono event_of _ _ _ _ _
    (errors_hide_the_gateway_key demo_llm demo_chat_request demo_key [] eq_refl demo_key_ne demo_hides)
    (fun r tr '(ex_intro _ x (conj _ (conj _ (conj _ H)))) => H)).
Defined.
(** A key that is a part of its own replacement stays in the text. *)
Example key_inside_its_replacement : contains #"key" (redact_fuse_key #"bad key" #"key") = true.
Proof. by vm_compute. Qed.

Definition demo_call : ToolCall := mkCall #"call_0" #"alerts" (obj [(#"limit", VNum (NInt 3))]).
Definition demo_talk : list Message :=
  [user_message #"q"; assistant_tool_calls None [demo_call; demo_call]; mkMessage ToolRole #"{}" [] (Some #"a") (Some #"alerts");
   mkMessage ToolRole #"[]" [] (Some #"b") (Some #"alerts"); assistant_tool_calls (Some #"done") []].
Lemma results_fold_into_one_message_witness :
  length (messages_to_anthropic demo_talk) = 4%nat
  /\ flat_map blocks_of (messages_to_anthropic demo_talk) = flat_map message_blocks demo_talk.
Proof. split; [by vm_compute|exact (proj1 (results_fold_into_one_message demo_talk))]. Defined.

Lemma one_number_readable d k z :
  valid_str k -> - 2 ^ 63 <= z < 2 ^ 64 -> readable (S (S d)) (VObj [(k, VNum (NInt z))]).
Proof.
  intros Hk Hz. split; [constructor; by constructor|]. constructor; [|constructor]. by split.
Qed.
Example demo_arguments : readable 127 (VObj [(#"limit", VNum (NInt 3))]).
Proof. apply one_number_readable; [by apply lit_valid|lia]. Qed.
Lemma call_written_is_call_read_witness : call_from_openai 4 (call_to_openai demo_call) = demo_call.
Proof. exact (call_written_is_call_read 4 demo_call _ eq_refl demo_arguments). Defined.

Definition demo_answer (prompt : Z) : str :=
  json_text (obj [(#"choices", VArr [obj [(#"message", obj [(#"content", VStr #"ok")])]]); (#"content", VArr [text_block #"ok"]);
    (#"usage", obj [(#"prompt_tokens", VNum (NInt prompt)); (#"completion_tokens", VNum (NInt 59)); (#"total_tokens", VNum (NInt 633));
                    (#"input_tokens", VNum (NInt prompt)); (#"output_tokens", VNum (NInt 59))])]).
(** Reasoning that the completion leaves out is counted. *)
Example demo_turn : wire_answer demo_llm (demo_answer 14) = Ok (mkTurn (Some #"ok") [] (mkUsage 14 619)).
Proof. by vm_compute. Qed.
Lemma token_counts_fit_witness : 0 <= 14 <= u32_max /\ 0 <= 619 <= u32_max.
Proof. exact (proj1 (token_counts_fit demo_llm (demo_answer 14) _ demo_turn)). Defined.
(** The two formats part at a count past 32 bits: one keeps the largest number,
    the other the low bits. *)
Example counts_past_32_bits :
  parse_openai_response (demo_answer (2 ^ 32 + 7)) = Ok (mkTurn (Some #"ok") [] (mkUsage u32_max 59))
  /\ parse_anthropic_response (demo_answer (2 ^ 32 + 7)) = Ok (mkTurn (Some #"ok") [] (mkUsage 7 59)).
Proof. split; by vm_compute. Qed.
(** The agent id derived from the organisation's domain is not checked. *)
Example derived_agent_id_is_unchecked :
  let r := {| env := fun _ => VarSet #"Acme Corp"; read_to_string := fun _ => Err [] |} in
  resolved_agent_id r default_config = Ok #"agent://Acme Corp/genaryx/felyx"
  /\ is_valid_agent_id #"agent://Acme Corp/genaryx/felyx" = false.
Proof. split; by vm_compute. Qed.
