(* ===== verification/Slots.v ===== *)
(** * Slots: how many proofs run at once ([crates/api/src/proof/slots.rs])

    A counter shared by every thread of the console.  [try_acquire] is
    [fetch_update], a load followed by a weak compare-and-exchange that is
    tried again with the value it found: each of those is a step, and any
    thread may take the next one.  A slot is named by its attempt; dropping it
    is [fetch_sub], which wraps at zero as the machine's does. *)
From S2P Require Import Prelude.

Definition MAX_CONCURRENT_PROOFS : Z := 2.
Definition usize_max : Z := u64_max.

(** [Busy]. *)
Record Busy : Type := mkBusy { busy_limit : Z }.

(** The shared counter, the slots held, and for each attempt under way the
    value it last saw. *)
Record Slots : Type := mkSlots
  { limit : Z; in_use : Z; held : gset nat; trying : gmap nat Z }.

Definition new (limit : Z) : Slots := mkSlots limit 0 ∅ ∅.

(** The closure of [try_acquire]: the next value, or none. *)
Definition next_value (limit n : Z) : option Z := if n <? limit then Some (n + 1) else None.

Inductive slot_event : Type :=
| Loaded (i : nat)
| Acquired (i : nat)
| Retried (i : nat)
| Refused (i : nat) (b : Busy)
| Dropped (i : nat).

(** One step of one thread. *)
Definition slot_fn (s : Slots) (e : slot_event) : option Slots :=
  match e with
  | Loaded i =>
      if decide (i ∈ held s) then None
      else if decide (is_Some (trying s !! i)) then None
      else Some (mkSlots (limit s) (in_use s) (held s) (<[i := in_use s]> (trying s)))
  | Acquired i =>
      let! n := trying s !! i in
      let! m := next_value (limit s) n in
      if n =? in_use s
      then Some (mkSlots (limit s) m ({[i]} ∪ held s) (delete i (trying s)))
      else None
  | Retried i =>
      let! n := trying s !! i in
      let! _ := next_value (limit s) n in
      Some (mkSlots (limit s) (in_use s) (held s) (<[i := in_use s]> (trying s)))
  | Refused i b =>
      let! n := trying s !! i in
      match next_value (limit s) n with
      | Some _ => None
      | None =>
          if busy_limit b =? limit s
          then Some (mkSlots (limit s) (in_use s) (held s) (delete i (trying s)))
          else None
      end
  | Dropped i =>
      if decide (i ∈ held s)
      then Some (mkSlots (limit s) ((in_use s - 1) mod (usize_max + 1)) (held s ∖ {[i]}) (trying s))
      else None
  end.
Definition slot_step (s : Slots) (e : slot_event) (s' : Slots) : Prop := slot_fn s e = Some s'.

(** The count is the number of slots held and never more than the limit, and
    an attempt has only seen such counts. *)
Definition counted (lim : Z) (s : Slots) : Prop :=
  limit s = lim /\ in_use s = Z.of_nat (size (held s)) /\ in_use s <= lim
  /\ (forall i, i ∈ held s -> trying s !! i = None)
  /\ map_Forall (fun _ n => 0 <= n <= lim) (trying s).

Lemma counted_step lim s e s' :
  0 <= lim <= usize_max -> counted lim s -> slot_step s e s' -> counted lim s'.
Proof.
  unfold slot_step. intros Hlim (El&Eu&Hle&Hd&Ht) Hs.
  destruct e as [i|i|i|i b|i]; cbn [slot_fn] in Hs; repeat case_match; simplify_eq;
    unfold counted; cbn [limit in_use held trying].
  - split; [done|]. split; [done|]. split; [done|]. split.
    + intros j Hj. rewrite lookup_insert_ne by congruence. by apply Hd.
    + apply map_Forall_insert_2; [lia|done].
  - unfold next_value in *. case_match; simplify_eq. b2p. assert (i ∉ held s) as Hi.
    { intros Hi. apply Hd in Hi. congruence. }
    split; [done|]. rewrite size_union, size_singleton by set_solver.
    split; [lia|]. split; [lia|]. split.
    + intros j [->%elem_of_singleton|Hj]%elem_of_union; [apply lookup_delete_eq|].
      rewrite lookup_delete_ne by congruence. by apply Hd.
    + by apply map_Forall_delete.
  - split; [done|]. split; [done|]. split; [done|]. split.
    + intros j Hj. rewrite lookup_insert_ne; [by apply Hd|]. intros ->. apply Hd in Hj. congruence.
    + apply map_Forall_insert_2; [lia|done].
  - split; [done|]. split; [done|]. split; [done|]. split.
    + intros j Hj. destruct (decide (i = j)) as [->|]; [apply lookup_delete_eq|].
      rewrite lookup_delete_ne by done. by apply Hd.
    + by apply map_Forall_delete.
  - assert (size (held s) = S (size (held s ∖ {[i]}))) as E.
    { rewrite (union_difference_L {[i]} (held s)) at 1 by set_solver.
      rewrite size_union, size_singleton by set_solver. done. }
    split; [done|]. rewrite Z.mod_small by (unfold usize_max in *; lia).
    split; [lia|]. split; [lia|]. split; [|done]. intros j Hj. apply Hd. set_solver.
Qed.

Lemma counted_run lim s es s' :
  0 <= lim <= usize_max -> counted lim s -> run slot_step s es s' -> counted lim s'.
Proof. intros Hl Hc Hr. eapply run_invariant; [|exact Hr|exact Hc]. intros. by eapply counted_step. Qed.

Lemma counted_new lim : 0 <= lim -> counted lim (new lim).
Proof. intros H. split; [done|]. split; [done|]. split; [done|]. split; [done|]. apply map_Forall_empty. Qed.

(** What an attempt last saw was the count at its last load. *)
Lemma seen_at lim es s i n :
  run slot_step (new lim) es s -> trying s !! i = Some n ->
  exists es1 e es2 s1, es = es1 ++ e :: es2 /\ (e = Loaded i \/ e = Retried i)
    /\ run slot_step (new lim) es1 s1 /\ in_use s1 = n.
Proof.
  revert s; induction es as [|e es IH] using rev_ind; intros s Hr Hi.
  { inversion Hr; subst. cbn in Hi. by rewrite lookup_empty in Hi. }
  apply run_snoc in Hr as (s0&Hr&Hs).
  assert (Hold : trying s0 !! i = Some n -> exists es1 e1 es2 s1, es ++ [e] = es1 ++ e1 :: es2
    /\ (e1 = Loaded i \/ e1 = Retried i) /\ run slot_step (new lim) es1 s1 /\ in_use s1 = n).
  { intros H. destruct (IH s0 Hr H) as (es1&e1&es2&s1&->&?). exists es1, e1, (es2 ++ [e]), s1.
    by rewrite <- app_assoc. }
  unfold slot_step in Hs. destruct e as [j|j|j|j b|j]; cbn [slot_fn] in Hs; repeat case_match; simplify_eq;
    cbn [trying] in Hi; try (apply lookup_delete_Some in Hi as [_ Hi]); try by apply Hold.
  all: apply lookup_insert_Some in Hi as [[-> <-]|[_ Hi]]; [|by apply Hold].
  all: eexists es, _, [], s0; split; [reflexivity|]; auto.
Qed.

(** At most the limit of proofs run at once.  Under every interleaving of
    any number of threads the counter is exactly the number of slots held, it
    never passes the limit, and an attempt is refused only when it saw every
    slot taken. *)
Theorem slots_bounded lim es s :
  0 <= lim <= usize_max -> run slot_step (new lim) es s ->
  in_use s = Z.of_nat (size (held s)) /\ in_use s <= lim
  /\ forall i b es1 es2, es = es1 ++ Refused i b :: es2 ->
       busy_limit b = lim
       /\ exists es3 e es4 s3, es1 = es3 ++ e :: es4 /\ (e = Loaded i \/ e = Retried i)
            /\ run slot_step (new lim) es3 s3 /\ Z.of_nat (size (held s3)) = lim.
Proof.
  intros Hl Hr. pose proof (counted_new lim ltac:(lia)) as Hn.
  destruct (counted_run lim _ _ _ Hl Hn Hr) as (_&H1&H2&_). split; [done|]. split; [done|].
  intros i b es1 es2 ->. replace (es1 ++ _ :: es2) with ((es1 ++ [Refused i b]) ++ es2) in Hr by by rewrite <- app_assoc.
  apply run_app_inv in Hr as (s2&Hr&_). apply run_snoc in Hr as (s1&Hr&Hs).
  destruct (counted_run lim _ _ _ Hl Hn Hr) as (E1&_&_&_&Ht).
  unfold slot_step in Hs. cbn [slot_fn] in Hs. unfold next_value in Hs. repeat case_match; simplify_eq. b2p.
  split; [done|]. match goal with H : trying s1 !! i = Some _ |- _ => pose proof (Ht _ _ H) as Hz;
    destruct (seen_at _ _ _ _ _ Hr H) as (es3&e&es4&s3&->&He&Hr3&Hu) end.
  exists es3, e, es4, s3. split; [done|]. split; [done|]. split; [done|].
  destruct (counted_run _ _ _ _ Hl Hn Hr3) as (_&E3&_). simpl in *. lia.
Qed.

Definition demo_events : list slot_event :=
  [Loaded 0; Loaded 1; Acquired 0; Retried 1; Acquired 1; Loaded 2; Refused 2 (mkBusy 2); Dropped 0;
   Loaded 3; Acquired 3].
Definition demo_slots : option Slots :=
  fold_left (fun s e => let! s := s in slot_fn s e) demo_events (Some (new MAX_CONCURRENT_PROOFS)).

Lemma slots_bounded_witness :
  match demo_slots with
  | Some s => in_use s = 2 /\ in_use s = Z.of_nat (size (held s))
  | None => False
  end.
Proof.
  destruct demo_slots as [s|] eqn:E; [|vm_compute in E; discriminate E].
  assert (in_use s = 2) as Hu by (vm_compute in E; injection E as <-; reflexivity). split; [exact Hu|].
  refine (proj1 (slots_bounded MAX_CONCURRENT_PROOFS demo_events s _ _)); [unfold MAX_CONCURRENT_PROOFS; done|].
  unfold demo_slots, demo_events in *. cbn [fold_left] in E.
  repeat (eapply run_cons; [unfold slot_step; vm_compute; reflexivity|]).
  vm_compute in E. injection E as <-. apply run_nil.
Defined.
