(* ===== verification/PolicyProof.v ===== *)
(** * PolicyProof: reading [wardryx replay] ([crates/api/src/proof/mod.rs])

    The report's parser, which refuses a report whose counts do not hold
    together, and the judgement of it in both halves.  Counters are 64-bit: a
    sum wraps, as it does in the console's release build. *)
From S2P Require Import Prelude Text Json Signing Case.

Record Outcomes : Type := mkOutcomes
  { reproduced : Z; approval_decided : Z; approval_spent : Z; approval_refused : Z;
    not_archived : Z; unreadable : Z; diverged : Z }.
Definition no_outcomes : Outcomes := mkOutcomes 0 0 0 0 0 0 0.

Definition u64_sum (ns : list Z) : Z := fold_left u64_add ns 0.
Definition total (o : Outcomes) : Z :=
  u64_sum [reproduced o; approval_decided o; approval_spent o; approval_refused o; not_archived o;
           unreadable o; diverged o].
Definition replayable_of (o : Outcomes) : Z :=
  u64_sum [reproduced o; approval_decided o; approval_spent o; approval_refused o].

Record ChangedRow : Type := mkChanged
  { from : str; to : str; agent : Data; run_of : Data; was : Data; now : Data }.

Record CandidateResult : Type := mkCandidate
  { changed : Z; replayable : Z; rows : list ChangedRow }.

Record ReplayReport : Type := mkReport
  { replayed : Z; outcomes : Outcomes; candidate : option CandidateResult }.

Inductive ParseError : Type :=
| Unrecognised
| Inconsistent (why : str).

Definition LABELS : list str :=
  [ #"reproduced"; #"approval-decided"; #"approval-spent"; #"approval-refused"; #"not archived";
   #"unreadable"; #"diverged"].

(** [split_whitespace().next()] *)
Definition first_word (s : str) : option str := head (split_whitespace s).

Definition counter (line label : str) : option Z :=
  let! rest := strip_prefix label (trim_start line) in
  if negb (starts_with #" " rest) then None
  else let! w := first_word rest in parse_u64 w.

(** The first counter line of each label wins. *)
Definition take_counters (found : list (option Z)) (line : str) : list (option Z) :=
  zip_with (fun slot label => match slot with Some _ => slot | None => counter line label end) found LABELS.

Definition is_verdict (v : str) : bool :=
  str_eqb v #"allow" || str_eqb v #"deny" || str_eqb v #"hold".

(** The row whose first line is [l] and whose next lines are [l1], [l2]. *)
Definition changed_row (l l1 l2 : str) : option ChangedRow :=
  let! (from, rest) := split_once #" -> " (trim_start l) in
  let! was := strip_prefix #"was: " (trim_start l1) in
  let! now := strip_prefix #"now: " (trim_start l2) in
  let words := split_whitespace rest in
  let to := default [] (words !! 0%nat) in
  let agent := default [] (words !! 1%nat) in
  let run := match words !! 2%nat with
             | Some w => if str_eqb w #"run" then default [] (words !! 3%nat) else []
             | None => []
             end in
  if negb (is_verdict from) || negb (is_verdict to) then None
  else Some (mkChanged from to (bounded agent) (bounded run) (bounded was) (bounded now)).

(** The loop over the lines after the head: each turn takes one line or three,
    so the number of lines is fuel enough. *)
Fixpoint changed_rows (fuel : nat) (ls : list str) : list ChangedRow :=
  match fuel, ls with
  | S fuel, l :: tl =>
      match tl with
      | l1 :: l2 :: tl' =>
          match changed_row l l1 l2 with
          | Some row => row :: changed_rows fuel tl'
          | None => changed_rows fuel tl
          end
      | _ => changed_rows fuel tl
      end
  | _, _ => []
  end.

(** The first line that starts with [p], and the lines after it. *)
Fixpoint find_line (p : str) (ls : list str) : option (str * list str) :=
  match ls with
  | [] => None
  | l :: tl => if starts_with p l then Some (l, tl) else find_line p tl
  end.

Definition parse_candidate (ls : list str) : result (option CandidateResult) ParseError :=
  match find_line #"Against " ls with
  | None => Ok None
  | Some (l, tl) =>
      let? head := ok_or (strip_suffix #" replayable decision(s) change:" l) Unrecognised in
      let? counts := ok_or (rsplit_once #", " head) Unrecognised in
      let? p := ok_or (split_once #" of " counts.2) Unrecognised in
      let? changed := ok_or (parse_u64 (trim p.1)) Unrecognised in
      let? replayable := ok_or (parse_u64 (trim p.2)) Unrecognised in
      let rows := changed_rows (length tl) tl in
      if negb (Z.of_nat (length rows) =? changed)
      then Err (Inconsistent #"the rows listed are not as many as the report says changed")
      else Ok (Some (mkCandidate changed replayable rows))
  end.

Definition parse_report (text : str) : result ReplayReport ParseError :=
  let ls := Text.lines text in
  let? first := ok_or (head ls) Unrecognised in
  let? replayed := ok_or (let! rest := strip_prefix #"Replayed " first in
                          let! w := first_word rest in parse_u64 w) Unrecognised in
  if replayed =? 0 then
    if existsb (contains #"no decisions in this file") ls
    then Ok (mkReport 0 no_outcomes None)
    else Err Unrecognised
  else
    match fold_left take_counters (tl ls) (replicate 7 None) with
    | [Some a; Some b; Some c; Some d; Some e; Some f; Some g] =>
        let outcomes := mkOutcomes a b c d e f g in
        if negb (total outcomes =? replayed)
        then Err (Inconsistent #"the outcomes do not add up to the decisions replayed")
        else
          let? candidate := parse_candidate ls in
          match candidate with
          | Some c =>
              if negb (replayable c =? replayable_of outcomes)
              then Err (Inconsistent #"the replayable decisions differ from the outcomes that carry a counterfactual")
              else Ok (mkReport replayed outcomes candidate)
          | None => Ok (mkReport replayed outcomes None)
          end
    | _ => Err Unrecognised
    end.

(** ** The judgement *)

Record Elsewhere : Type := mkElsewhere { tightened : Z; loosened : Z; reclassified : Z }.

Record PolicyProof : Type := mkProof
  { p_replayed : Z; p_outcomes : Outcomes; trustworthy : bool; candidate_given : bool;
    stops_this_incident : option bool; incident_changes : list ChangedRow; elsewhere : Elsewhere;
    elsewhere_changes : list ChangedRow }.

Definition stops (r : ChangedRow) : bool :=
  str_eqb (from r) #"allow" && (str_eqb (to r) #"deny" || str_eqb (to r) #"hold").

Definition tally (e : Elsewhere) (r : ChangedRow) : Elsewhere :=
  if str_eqb (from r) #"allow" then mkElsewhere (u64_add (tightened e) 1) (loosened e) (reclassified e)
  else if str_eqb (to r) #"allow" then mkElsewhere (tightened e) (u64_add (loosened e) 1) (reclassified e)
  else mkElsewhere (tightened e) (loosened e) (u64_add (reclassified e) 1).

Definition judge (report : ReplayReport) (incident_run : str) : PolicyProof :=
  let trustworthy := diverged (outcomes report) =? 0 in
  match candidate report with
  | None =>
      mkProof (replayed report) (outcomes report) trustworthy false None [] (mkElsewhere 0 0 0) []
  | Some c =>
      let own := fun row => str_eqb (dtext (run_of row)) incident_run in
      let '(incident_changes, elsewhere_changes) := List.partition own (rows c) in
      mkProof (replayed report) (outcomes report) trustworthy true
        (if trustworthy && (0 <? replayable c) then Some (existsb stops incident_changes) else None)
        incident_changes (fold_left tally elsewhere_changes (mkElsewhere 0 0 0)) elsewhere_changes
  end.

(** ** Lemmas *)

Lemma u64_sum_eq ns : u64_sum ns = fold_left Z.add ns 0 mod (u64_max + 1).
Proof.
  unfold u64_sum. assert (forall a, fold_left u64_add ns (a mod (u64_max + 1)) = fold_left Z.add ns a mod (u64_max + 1)) as H.
  { induction ns as [|n ns IH]; intros a; [done|]. simpl. rewrite <- IH. f_equal. unfold u64_add.
    change 18446744073709551616 with (u64_max + 1). by rewrite Zplus_mod_idemp_l. }
  rewrite <- H. by rewrite Z.mod_0_l.
Qed.

Lemma split_white_words s cur :
  Forall (fun c => is_white c = false) cur ->
  Forall (Forall (fun c => is_white c = false)) (split_white_aux s cur).
Proof.
  assert (Hrev : forall cur, Forall (fun c => is_white c = false) cur ->
    Forall (Forall (fun c => is_white c = false)) (if decide (cur = []) then [] else [rev cur])).
  { intros c Hc. case_decide; repeat constructor. by apply Forall_rev. }
  revert cur; induction s as [|c s IH]; intros cur Hc; simpl; [by apply Hrev|].
  destruct (is_white c) eqn:E; [|by apply IH; constructor]. apply Forall_app. split; [by apply Hrev|by apply IH].
Qed.

(** What a row can be: three-valued verdicts, and a run that is one word of at
    most 300 characters. *)
Definition row_ok (r : ChangedRow) : Prop :=
  is_verdict (from r) = true /\ is_verdict (to r) = true
  /\ Forall (fun c => is_white c = false) (dtext (run_of r))
  /\ Z.of_nat (length (dtext (run_of r))) <= UPSTREAM_TEXT_MAX.

Lemma changed_row_ok l l1 l2 r : changed_row l l1 l2 = Some r -> row_ok r.
Proof.
  unfold changed_row. intros H. repeat case_match; simplify_eq; b2p;
    unfold row_ok; cbn [from to run_of]; (split; [tauto|split; [tauto|]]).
  all: unfold bounded; cbn [dtext]; rewrite length_firstn;
    split; [|unfold UPSTREAM_TEXT_MAX; lia]; apply Forall_take.
  all: try constructor.
  all: match goal with |- context [split_whitespace ?s !! ?n] => destruct (split_whitespace s !! n) as [w|] eqn:E end;
    [|constructor].
  all: eapply Forall_lookup_1 in E; [exact E|]; by apply split_white_words.
Qed.

Lemma changed_rows_ok fuel ls : Forall row_ok (changed_rows fuel ls).
Proof.
  revert ls; induction fuel as [|fuel IH]; intros [|l [|l1 [|l2 tl]]]; simpl; try constructor;
    try apply IH. destruct (changed_row l l1 l2) eqn:E; [constructor|]; [by eapply changed_row_ok|apply IH..].
Qed.

Lemma parse_candidate_ok ls c :
  parse_candidate ls = Ok (Some c) ->
  Z.of_nat (length (rows c)) = changed c /\ Forall row_ok (rows c).
Proof.
  unfold parse_candidate. destruct (find_line _ ls) as [[l tl]|]; [|done]. intros H. oks H.
  injection H as <-. b2p. simpl. split; [lia|apply changed_rows_ok].
Qed.

Lemma parse_report_ok text r :
  parse_report text = Ok r ->
  total (outcomes r) = replayed r
  /\ (forall c, candidate r = Some c ->
        replayable c = replayable_of (outcomes r) /\ Z.of_nat (length (rows c)) = changed c
        /\ Forall row_ok (rows c)).
Proof.
  unfold parse_report. intros H. oks H. destruct (x0 =? 0) eqn:E0.
  { destruct (existsb _ _); [|done]. injection H as <-. simpl. split; [reflexivity|done]. }
  repeat (match type of H with context [match ?l with [] => _ | _ => _ end] => destruct l as [|[?|] ?]; try done end).
  oks H. b2p. destruct x1 as [c|].
  - oks H. injection H as <-. b2p. simpl. split; [lia|]. intros c' [= <-].
    destruct (parse_candidate_ok _ _ Hx1). split; [lia|done].
  - injection H as <-. simpl. split; [lia|done].
Qed.

Lemma partition_spec {A} (p : A -> bool) l :
  List.partition p l = (List.filter p l, List.filter (fun a => negb (p a)) l).
Proof. induction l as [|a l IH]; [done|]. simpl. rewrite IH. by destruct (p a). Qed.

Lemma fold_tally l e :
  tightened e + loosened e + reclassified e + Z.of_nat (length l) <= u64_max ->
  0 <= tightened e -> 0 <= loosened e -> 0 <= reclassified e ->
  let e' := fold_left tally l e in
  tightened e' + loosened e' + reclassified e' = tightened e + loosened e + reclassified e + Z.of_nat (length l).
Proof.
  revert e; induction l as [|r l IH]; intros e Hb Ht Hl Hr; simpl; [lia|]. simpl in Hb.
  assert (let e1 := tally e r in
    tightened e1 + loosened e1 + reclassified e1 = tightened e + loosened e + reclassified e + 1
    /\ 0 <= tightened e1 /\ 0 <= loosened e1 /\ 0 <= reclassified e1) as (E&?&?&?).
  { unfold tally. repeat case_match; simpl; rewrite u64_add_small by lia; lia. }
  rewrite IH by lia. lia.
Qed.

(** ** Properties *)

(** A report is taken only when it holds together.  The counters add up to
    the first line in 64-bit arithmetic, the rows listed are as many as the
    report says changed, the replayable count is the sum of the four outcomes
    that carry a counterfactual, and every row goes from one verdict to
    another. *)
Theorem report_adds_up text r :
  parse_report text = Ok r ->
  let o := outcomes r in
  (reproduced o + approval_decided o + approval_spent o + approval_refused o + not_archived o
   + unreadable o + diverged o) mod (u64_max + 1) = replayed r
  /\ forall c, candidate r = Some c ->
       Z.of_nat (length (rows c)) = changed c
       /\ (reproduced o + approval_decided o + approval_spent o + approval_refused o) mod (u64_max + 1)
          = replayable c
       /\ Forall (fun row => is_verdict (from row) = true /\ is_verdict (to row) = true) (rows c).
Proof.
  intros H. destruct (parse_report_ok text r H) as [Ht Hc]. simpl. split.
  - rewrite <- Ht. unfold total. by rewrite u64_sum_eq.
  - intros c Ec. destruct (Hc c Ec) as (Hr&Hl&Hrows). split; [done|]. split.
    + rewrite Hr. unfold replayable_of. by rewrite u64_sum_eq.
    + eapply Forall_impl; [exact Hrows|]. intros row (?&?&_). done.
Qed.

Definition line_feed : str := [10].
Definition wrapping_report : str :=
  join line_feed [ #"Replayed 1 decision(s)"; #"  reproduced 18446744073709551615"; #"  approval-decided 2";
                   #"  approval-spent 0"; #"  approval-refused 0"; #"  not archived 0"; #"  unreadable 0";
                   #"  diverged 0"].

(** The sum the parser checks can wrap.  There is a report whose counters
    add up to far more than the decisions it says were replayed and which is
    accepted. *)
Theorem report_total_wraps :
  exists r, parse_report wrapping_report = Ok r /\ replayed r = 1
    /\ reproduced (outcomes r) = 18446744073709551615 /\ approval_decided (outcomes r) = 2.
Proof. eexists. split; [vm_compute; reflexivity|]. by split. Qed.

(** The judgement says what it means.  It answers whether the incident is
    stopped exactly when the replay is trustworthy and something was
    replayable, and then it is "yes" exactly when the candidate turns a
    decision of the incident's run from allow into deny or hold; every change
    is on exactly one side, and every change elsewhere is in exactly one of the
    three tallies. *)
Theorem judge_exact report c run :
  candidate report = Some c -> Z.of_nat (length (rows c)) <= u64_max ->
  let j := judge report run in
  (is_Some (stops_this_incident j) <-> diverged (outcomes report) = 0 /\ 0 < replayable c)
  /\ (stops_this_incident j = Some true <->
        diverged (outcomes report) = 0 /\ 0 < replayable c
        /\ exists row, row ∈ rows c /\ dtext (run_of row) = run /\ from row = #"allow"
             /\ (to row = #"deny" \/ to row = #"hold"))
  /\ Permutation (rows c) (incident_changes j ++ elsewhere_changes j)
  /\ Forall (fun row => dtext (run_of row) = run) (incident_changes j)
  /\ Forall (fun row => dtext (run_of row) <> run) (elsewhere_changes j)
  /\ tightened (elsewhere j) + loosened (elsewhere j) + reclassified (elsewhere j)
     = Z.of_nat (length (elsewhere_changes j)).
Proof.
  intros Ec Hlen. unfold judge. rewrite Ec, partition_spec.
  cbn [stops_this_incident incident_changes elsewhere_changes elsewhere].
  set (own := fun row => str_eqb (dtext (run_of row)) run).
  assert (Permutation (rows c) (List.filter own (rows c) ++ List.filter (fun a => negb (own a)) (rows c))) as Hperm.
  { clear. induction (rows c) as [|r l IH]; [done|]. simpl. destruct (own r); simpl; [by f_equiv|].
    rewrite <- Permutation_middle. by f_equiv. }
  split; [|split; [|split; [exact Hperm|split; [|split]]]].
  - destruct (Z.eqb_spec (diverged (outcomes report)) 0), (Z.ltb_spec 0 (replayable c)); simpl;
      (split; [intros [? [=]]; lia || done|intros [? ?]; lia || by eexists]).
  - destruct (Z.eqb_spec (diverged (outcomes report)) 0) as [E1|E1], (Z.ltb_spec 0 (replayable c)) as [E2|E2];
      simpl; [|split; [done|intros (?&?&_); lia]..].
    split.
    + intros [= Hx]. split; [done|]. split; [done|]. apply existsb_exists in Hx as (row&Hin&Hs).
      apply List.filter_In in Hin as [Hin Ho]. exists row. unfold stops in Hs. b2p. apply str_eqb_eq in Ho.
      rewrite !str_eqb_eq in Hs. split; [by apply list_elem_of_In|]. tauto.
    + intros (_&_&row&Hin&Hrun&Hfrom&Hto). f_equal. apply existsb_exists. exists row. split.
      { apply List.filter_In. split; [by apply list_elem_of_In|]. by apply str_eqb_eq. }
      unfold stops. rewrite Hfrom. b2p. rewrite !str_eqb_eq. auto.
  - apply List.Forall_forall. intros row [_ Ho]%List.filter_In. by apply str_eqb_eq.
  - apply List.Forall_forall. intros row [_ Ho]%List.filter_In. b2p. by apply str_eqb_neq.
  - pose proof (Permutation_length Hperm) as Hl. rewrite length_app in Hl.
    rewrite fold_tally; cbn [tightened loosened reclassified]; [lia| |done..].
    change (fun a => negb (str_eqb (dtext (run_of a)) run)) with (fun a => negb (own a)). lia.
Qed.

(** An incident whose run id holds white space or is longer than 300
    characters is never its own.  Every change the candidate makes to it is
    counted as elsewhere, and a trustworthy replay answers that the candidate
    does not stop it, whatever the report says. *)
Theorem long_run_is_always_elsewhere text r run :
  parse_report text = Ok r ->
  Exists (fun c => is_white c = true) run \/ UPSTREAM_TEXT_MAX < Z.of_nat (length run) ->
  incident_changes (judge r run) = [] /\ stops_this_incident (judge r run) <> Some true.
Proof.
  intros Hp Hrun. destruct (parse_report_ok text r Hp) as [_ Hc]. unfold judge.
  destruct (candidate r) as [c|]; [|done]. destruct (Hc c eq_refl) as (_&_&Hrows). rewrite partition_spec.
  assert (List.filter (fun row => str_eqb (dtext (run_of row)) run) (rows c) = []) as E.
  { induction Hrows as [|row rows (_&_&Hw&Hl) _ IH]; [done|]. simpl.
    destruct (str_eqb _ _) eqn:E; [|by apply IH]. apply str_eqb_eq in E. rewrite E in *.
    destruct Hrun as [Hx|]; [|lia]. apply Exists_exists in Hx as (ch&Hin&Hx).
    rewrite Forall_forall in Hw. apply Hw in Hin. congruence. }
  rewrite E. cbn [incident_changes stops_this_incident]. split; [done|]. by destruct (_ && _).
Qed.

(** ** Witnesses *)

(** A report of one change, to the run [r1]. *)
Definition demo_report_text : str :=
  join line_feed [ #"Replayed 3 decision(s)"; #"  reproduced 2"; #"  approval-decided 0"; #"  approval-spent 0";
                   #"  approval-refused 0"; #"  not archived 1"; #"  unreadable 0"; #"  diverged 0";
                   #"Against new.yaml, 1 of 2 replayable decision(s) change:";
                   #"  allow -> deny agent://acme/ops/bot run r1"; #"    was: no rule matched";
                   #"    now: the tool is denied"].
Definition demo_report : ReplayReport :=
  match parse_report demo_report_text with Ok r => r | Err _ => mkReport 0 no_outcomes None end.
Definition demo_candidate : CandidateResult := default (mkCandidate 0 0 []) (candidate demo_report).

Lemma report_adds_up_witness : replayed demo_report = 3 /\ Z.of_nat (length (rows demo_candidate)) = 1.
Proof.
  destruct (report_adds_up demo_report_text demo_report ltac:(vm_compute; reflexivity)) as [H Hc].
  split; [rewrite <- H; vm_compute; reflexivity|].
  destruct (Hc demo_candidate ltac:(vm_compute; reflexivity)) as [Hl _]. rewrite Hl. vm_compute. reflexivity.
Defined.

Lemma judge_exact_witness :
  diverged (outcomes demo_report) = 0 /\ is_Some (stops_this_incident (judge demo_report #"r1")).
Proof.
  split; [vm_compute; reflexivity|].
  apply (judge_exact demo_report demo_candidate #"r1");
    [vm_compute; reflexivity|vm_compute; discriminate|]. split; vm_compute; reflexivity.
Defined.

Lemma long_run_is_always_elsewhere_witness :
  incident_changes (judge demo_report #"r1 ") = [] /\ stops_this_incident (judge demo_report #"r1 ") <> Some true.
Proof.
  apply (long_run_is_always_elsewhere demo_report_text demo_report #"r1 "); [vm_compute; reflexivity|].
  left. apply Exists_exists. exists 32. split; [apply (bool_decide_unpack _); vm_compute; exact I|reflexivity].
Defined.
