(* ===== verification/BudgetProof.v ===== *)
(** * BudgetProof: the budget proof ([crates/api/src/proof/budget.rs])

    The amounts an operator types, the query the incident's run is copied with,
    the reader of [tokenfuse backtest], and the judgement of the two reports.
    The text a candidate is described by ([BudgetCandidate::describe], which
    prints doubles) is an argument of the reader. *)
From S2P Require Import Prelude Text Json Signing Case.

Definition MICROS_PER_USD : Z := 1000000.
Definition MAX_LIMIT_MICROS : Z := 1000000 * MICROS_PER_USD.
Definition MAX_STEPS_LIMIT : Z := 1000000.
Definition RUN_ID_MAX_BYTES : Z := 128.

Definition AMOUNT_SHAPE : str := #"an amount is dollars with at most six decimals, such as 2 or 0.35".
Definition AMOUNT_ZERO : str := #"a limit of zero blocks every call, which is not a candidate budget".
Definition AMOUNT_LARGE : str := #"an amount is at most a million dollars".

(** [checked_mul] and [checked_add] of an [i64]. *)
Definition i64_mul (a b : Z) : option Z := i64_checked (a * b).
Definition i64_add (a b : Z) : option Z := i64_checked (a + b).

Definition parse_usd (text : str) : result Z str :=
  let '(whole, fraction) := default (text, []) (split_once #"." text) in
  let digits := fun s => forallb ascii_digit (str_bytes s) in
  if bool_decide (whole = []) || negb (digits whole) || negb (digits fraction)
     || (6 <? byte_len fraction) || (contains #"." text && bool_decide (fraction = []))
  then Err AMOUNT_SHAPE
  else
    let? whole := ok_or (parse_i64 whole) AMOUNT_LARGE in
    let? decimals := if bool_decide (fraction = []) then Ok 0
                     else ok_or (parse_i64 fraction) AMOUNT_SHAPE in
    let decimals := Nat.iter (6 - Z.to_nat (byte_len fraction)) (fun d => d * 10) decimals in
    let? micros := ok_or (let! w := i64_mul whole MICROS_PER_USD in i64_add w decimals) AMOUNT_LARGE in
    if micros =? 0 then Err AMOUNT_ZERO
    else if MAX_LIMIT_MICROS <? micros then Err AMOUNT_LARGE
    else Ok micros.

Record BudgetCandidate : Type := mkCandidate
  { per_run_micros : option Z; per_step_micros : option Z; max_steps : option Z }.

(** [Option::transpose] of a parsed amount. *)
Definition parse_opt (t : option str) : result (option Z) str :=
  match t with
  | None => Ok None
  | Some t => let? m := parse_usd t in Ok (Some m)
  end.

Definition from_parts (per_run per_step : option str) (max_steps : option Z) : result BudgetCandidate str :=
  let? run := parse_opt per_run in
  let? step := parse_opt per_step in
  if match max_steps with Some n => (n =? 0) || (MAX_STEPS_LIMIT <? n) | None => false end
  then Err #"the step limit is between 1 and 1,000,000"
  else match run, step, max_steps with
       | None, None, None => Err #"the candidate sets no limit"
       | _, _, _ => Ok (mkCandidate run step max_steps)
       end.

(** ** The query *)

Definition is_name_byte (b : Z) : bool :=
  ascii_alnum b || (b =? 46) || (b =? 95) || (b =? 58) || (b =? 45).
Definition is_path_byte (b : Z) : bool :=
  ascii_alnum b || (b =? 46) || (b =? 95) || (b =? 45) || (b =? 47).

Definition query_safe_run (run : str) : result unit str :=
  if bool_decide (run = []) || (RUN_ID_MAX_BYTES <? byte_len run)
  then Err #"the run id is empty or longer than 128 bytes"
  else if negb (forallb is_name_byte (str_bytes run))
  then Err #"the run id holds characters the proof will not put in a query"
  else Ok tt.

Definition copy_statement (run file : str) : result str str :=
  let? _ := query_safe_run run in
  if bool_decide (file = []) || negb (forallb is_path_byte (str_bytes file))
  then Err #"the scratch path holds characters the proof will not put in a query"
  else Ok (#"copy (select * from calls where run_id = '" ++ run
           ++ #"' order by ts_millis, step) to '" ++ file ++ #"' stored as parquet").

(** ** Reading the CLI *)

Definition border (l : str) : bool :=
  (3 <=? byte_len l) && forallb (fun b => (b =? 43) || (b =? 45)) (str_bytes l).
Definition cells (l : str) : option (list str) :=
  let! inner := strip_prefix #"| " l in
  let! inner := strip_suffix #" |" inner in
  Some (map trim (split_str #" | " inner)).

(** The rows between the borders, each as wide as the header. *)
Fixpoint table_rows (width : nat) (ls : list str) : option (list (list str)) :=
  match ls with
  | [] => Some []
  | l :: tl =>
      let! row := cells l in
      if negb (length row =? width)%nat then None
      else let! rows := table_rows width tl in Some (row :: rows)
  end.

Definition parse_table (text : str) : option (list (list str)) :=
  let ls := Text.lines text in
  if (length ls <? 4)%nat then None
  else if negb (border (nth 0 ls [])) || negb (border (nth 2 ls []))
          || negb (border (nth (length ls - 1) ls [])) then None
  else
    let! header := cells (nth 1 ls []) in
    let! rows := table_rows (length header) (removelast (skipn 3 ls)) in
    Some (header :: rows).

Definition count_of (cell : str) : option Z :=
  if bool_decide (cell = []) || negb (forallb ascii_digit (str_bytes cell)) then None
  else parse_u64 cell.

Definition parse_copy_count (text : str) : option Z :=
  let! table := parse_table text in
  match table with
  | [[h]; [cell]] => if str_eqb h #"count" then count_of cell else None
  | _ => None
  end.

Definition parse_step_counts (text : str) : option (Z * Z) :=
  let! table := parse_table text in
  match table with
  | [[h1; h2]; [c1; c2]] =>
      if str_eqb h1 #"n" && str_eqb h2 #"steps" then
        let! n := count_of c1 in let! steps := count_of c2 in Some (n, steps)
      else None
  | _ => None
  end.

Record BacktestReport : Type := mkBacktest
  { runs_total : Z; runs_affected : Z; calls_total : Z; calls_blocked : Z;
    spent_micros : Z; saved_micros : Z }.

Inductive BacktestParseError : Type :=
| NoCalls
| Unrecognised
| Inconsistent (why : str).

Definition HEAD : str := #"TokenFuse backtest".
Definition CANDIDATE_LINE : str := #"  candidate policy   : ".
Definition RUNS_LINE : str := #"  runs               : ".
Definition CALLS_LINE : str := #"  calls              : ".
Definition SPEND_LINE : str := #"  spend in trace     : ".
Definition SAVED_LINE : str := #"  would have saved   : ".
Definition PROJECTED_LINE : str := #"  projected spend    : ".

Definition money (text : str) : option Z :=
  let! rest := strip_prefix #"$" text in
  let '(negative, digits) := match strip_prefix #"-" rest with
                             | Some d => (true, d)
                             | None => (false, rest)
                             end in
  let! (whole, fraction) := split_once #"." digits in
  if bool_decide (whole = []) || negb (byte_len fraction =? 6)
     || negb (forallb ascii_digit (str_bytes whole)) || negb (forallb ascii_digit (str_bytes fraction))
  then None
  else
    let! w := parse_i64 whole in
    let! w := i64_mul w MICROS_PER_USD in
    let! f := parse_i64 fraction in
    let! micros := i64_add w f in
    Some (if negative : bool then - micros else micros).

Definition saved_amount (text : str) : option Z :=
  let! (amount, rest) := split_once #" (" text in
  let! percent := strip_suffix #"%)" rest in
  if bool_decide (percent = [])
     || negb (forallb (fun b => ascii_digit b || (b =? 46) || (b =? 45)) (str_bytes percent))
  then None else money amount.

Definition pair (text tail : str) : option (Z * Z) :=
  let! (total, rest) := split_once #" (" text in
  let! part := strip_suffix tail rest in
  let! t := count_of total in
  let! p := count_of part in
  Some (t, p).

(** [parse_backtest], [asked] being the asked candidate's [describe]. *)
Definition parse_backtest (text asked : str) : result BacktestReport BacktestParseError :=
  match Text.lines text with
  | [l0; l1; l2; l3; l4; l5; l6] =>
      if negb (str_eqb l0 HEAD) then Err Unrecognised
      else
        let read {A} (p l : str) (f : str -> option A) :=
          ok_or (let! v := strip_prefix p l in f v) Unrecognised in
        let? echoed := read CANDIDATE_LINE l1 Some in
        let? runs := read RUNS_LINE l2 (fun v => pair v #" affected)") in
        let? calls := read CALLS_LINE l3 (fun v => pair v #" would be blocked)") in
        let? spent := read SPEND_LINE l4 money in
        let? saved := read SAVED_LINE l5 saved_amount in
        let? projected := read PROJECTED_LINE l6 money in
        if negb (str_eqb echoed asked)
        then Err (Inconsistent #"the report is for another candidate than the one that was asked")
        else if (runs.1 <? runs.2) || (calls.1 <? calls.2) || (calls.2 <? runs.2)
        then Err (Inconsistent #"the report affects more runs or calls than it holds")
        else if negb (Bool.eqb (0 <? runs.2) (0 <? calls.2))
        then Err (Inconsistent #"the report blocks calls in no run, or affects a run with none")
        else if negb (match i64_checked (spent - saved) with Some d => projected =? d | None => false end)
        then Err (Inconsistent #"the projected spend is not the spend less the saving")
        else Ok (mkBacktest runs.1 runs.2 calls.1 calls.2 spent saved)
  | [l0] => Err (if starts_with #"no calls in the trace at " l0 then NoCalls else Unrecognised)
  | _ => Err Unrecognised
  end.

(** ** The judgement *)

Record RunEffect : Type := mkEffect
  { e_calls : Z; e_calls_blocked : Z; e_spent_micros : Z; e_saved_micros : Z; spent_after_micros : Z }.
Record BudgetElsewhere : Type := mkElsewhere
  { o_runs : Z; o_runs_affected : Z; o_calls : Z; o_calls_blocked : Z; o_saved_micros : Z }.
Record BudgetProof : Type := mkProof
  { run : Data; candidate : BudgetCandidate; stops_this_incident : bool; incident : RunEffect;
    elsewhere : BudgetElsewhere; elsewhere_exact : bool; trace : BacktestReport }.

(** A 64-bit subtraction of the release build. *)
Definition u64_sub (a b : Z) : Z := (a - b) mod (u64_max + 1).

Definition judge_budget (run_id : str) (candidate : BudgetCandidate) (run trace : BacktestReport)
  (copied : Z) (tied : bool) : result BudgetProof str :=
  if negb (runs_total run =? 1)
  then Err #"the incident's run was replayed together with other runs"
  else if negb (calls_total run =? copied)
  then Err #"the copy of the run and its replay disagree about how many calls it has"
  else if runs_total trace <? 1
  then Err #"the whole trace holds no run, and the incident's run was copied from it"
  else if calls_total trace <? calls_total run
  then Err #"the whole trace holds fewer calls than the incident's own run"
  else if (runs_affected trace <? runs_affected run) || (calls_blocked trace <? calls_blocked run)
  then Err #"the whole trace blocks less than the incident's own run"
  else
    Ok (mkProof (bounded run_id) candidate (0 <? calls_blocked run)
          (mkEffect (calls_total run) (calls_blocked run) (spent_micros run) (saved_micros run)
             (i64_saturating (spent_micros run - saved_micros run)))
          (mkElsewhere (u64_sub (runs_total trace) (runs_total run))
             (u64_sub (runs_affected trace) (runs_affected run))
             (u64_sub (calls_total trace) (calls_total run))
             (u64_sub (calls_blocked trace) (calls_blocked run))
             (i64_saturating (saved_micros trace - saved_micros run)))
          (negb tied) trace).

(** ** Lemmas *)

Lemma digits_bytes s : valid_str s -> forallb ascii_digit (str_bytes s) = all_digits s.
Proof. intros Hs. apply (forallb_bytes ascii_digit); [|done]. unfold ascii_digit. intros b Hb. b2p. lia. Qed.

Lemma digits_valid s : all_digits s = true -> valid_str s.
Proof.
  unfold all_digits. rewrite forallb_Forall. intros H. eapply Forall_impl; [exact H|].
  unfold ascii_digit, is_scalar. intros c Hc. simpl in *. b2p. lia.
Qed.

Lemma digits_len s : all_digits s = true -> byte_len s = Z.of_nat (length s).
Proof.
  unfold byte_len. intros H. rewrite str_bytes_ascii; [done|]. unfold all_digits in H. rewrite forallb_Forall in H.
  eapply Forall_impl; [exact H|]. unfold ascii_digit. intros c Hc. simpl in *. b2p. lia.
Qed.

Lemma digits_no c s : all_digits s = true -> ascii_digit c = false -> c ∉ s.
Proof.
  unfold all_digits. rewrite forallb_Forall, Forall_forall. intros H Hc Hin. apply H in Hin. congruence.
Qed.

Lemma parse_i64_digits s : all_digits s = true -> s <> [] -> parse_i64 s = i64_checked (digits_value s).
Proof.
  intros H Hne. unfold parse_i64. destruct s as [|c s]; [done|].
  assert (c <> 45 /\ c <> 43) as [H1 H2].
  { unfold all_digits, ascii_digit in H. simpl in H. b2p. lia. }
  assert (parse_digits (c :: s) = Some (digits_value (c :: s))) as E.
  { unfold parse_digits. rewrite bool_decide_eq_false_2 by done. by rewrite H. }
  rewrite E. repeat (case_match; try done; try lia).
Qed.

Lemma iter_tens n d : Nat.iter n (fun d => d * 10) d = d * 10 ^ Z.of_nat n.
Proof.
  induction n as [|n IH]; [simpl; lia|]. rewrite Nat.iter_succ, IH, Nat2Z.inj_succ, Z.pow_succ_r by lia. lia.
Qed.

(** The amount of [w.f] in micro-dollars. *)
Definition micros_of (w f : str) : Z :=
  digits_value w * MICROS_PER_USD + digits_value f * 10 ^ (6 - Z.of_nat (length f)).

Definition amount_shape (text w f : str) : Prop :=
  all_digits w = true /\ all_digits f = true /\ w <> [] /\ (length f <= 6)%nat
  /\ (text = w /\ f = [] \/ text = w ++ #"." ++ f /\ f <> []).

Lemma amount_split text w f :
  amount_shape text w f ->
  default (text, []) (split_once #"." text) = (w, f)
  /\ contains #"." text && bool_decide (f = []) = false.
Proof.
  intros (Hw&Hf&_&_&[[-> ->]|[-> Hne]]).
  - assert (split_once #"." w = None) as E.
    { destruct (split_once #"." w) as [[a b]|] eqn:E; [|done]. apply split_once_Some in E.
      destruct (digits_no 46 w Hw eq_refl). rewrite E. set_solver. }
    unfold contains. by rewrite E.
  - change (w ++ #"." ++ f) with (w ++ 46 :: f). change #"." with [46].
    rewrite split_once_char_app by by apply digits_no. split; [done|]. b2p. by right.
Qed.

Lemma i64_None z : i64_checked z = None -> z < i64_min \/ i64_max < z.
Proof. unfold i64_checked, in_i64. destruct (_ && _) eqn:E; [done|]. intros _. apply andb_false_iff in E. lia. Qed.

Lemma fraction_bound f : all_digits f = true -> 0 <= digits_value f < 10 ^ Z.of_nat (length f).
Proof.
  intros H. split; [by apply digits_value_nonneg|]. induction f as [|d f IH] using rev_ind; [done|].
  unfold all_digits in *. rewrite forallb_app in H. simpl in H. unfold ascii_digit at 2 in H. b2p.
  rewrite digits_value_snoc, length_app, Nat.add_1_r, Nat2Z.inj_succ, Z.pow_succ_r by lia.
  destruct H as [H ?]. apply IH in H. lia.
Qed.

(** What [parse_usd] answers on each amount of the right shape. *)
Lemma parse_usd_shape text w f :
  amount_shape text w f ->
  parse_usd text = if micros_of w f =? 0 then Err AMOUNT_ZERO
                   else if MAX_LIMIT_MICROS <? micros_of w f then Err AMOUNT_LARGE
                   else Ok (micros_of w f).
Proof.
  intros Hs. destruct (amount_split _ _ _ Hs) as [E1 E2]. destruct Hs as (Hw&Hf&Hne&Hlen&_).
  unfold parse_usd. rewrite E1, E2. clear E1 E2 text.
  rewrite !digits_bytes, Hw, Hf, bool_decide_eq_false_2, digits_len by (done || by apply digits_valid).
  destruct (Z.ltb_spec 6 (Z.of_nat (length f))); [lia|]. cbn [orb negb].
  rewrite parse_i64_digits by done. pose proof (digits_value_nonneg w Hw) as H0.
  pose proof (fraction_bound f Hf) as Hfb. rewrite Nat2Z.id.
  assert (10 ^ (6 - Z.of_nat (length f)) * 10 ^ Z.of_nat (length f) = MICROS_PER_USD) as Hpow.
  { rewrite <- Z.pow_add_r by lia. by replace (6 - _ + _) with 6 by lia. }
  assert (0 < 10 ^ (6 - Z.of_nat (length f))) as Hp by (apply Z.pow_pos_nonneg; lia).
  assert (0 <= digits_value f * 10 ^ (6 - Z.of_nat (length f)) < MICROS_PER_USD) as Hd by nia.
  assert ((if bool_decide (f = []) then Ok 0 else ok_or (parse_i64 f) AMOUNT_SHAPE) = Ok (digits_value f)) as ->.
  { case_bool_decide as Hfe; [by subst|]. rewrite parse_i64_digits by done.
    assert (i64_checked (digits_value f) = Some (digits_value f)) as ->; [|done].
    apply i64_checked_Some. split; [done|]. unfold MICROS_PER_USD, i64_min, i64_max in *. nia. }
  assert (i64_checked (digits_value w) = Some (digits_value w) \/ i64_max < digits_value w) as Hc.
  { destruct (Z.le_gt_cases (digits_value w) i64_max); [left|right; lia].
    apply i64_checked_Some. unfold i64_min in *. lia. }
  unfold micros_of in *. destruct Hc as [->|Hbig].
  - cbn [ok_or rbind]. rewrite iter_tens.
    replace (Z.of_nat (6 - length f)) with (6 - Z.of_nat (length f)) by lia.
    set (d := digits_value f * _) in *. unfold i64_mul, i64_add.
    destruct (i64_checked (digits_value w * MICROS_PER_USD)) as [x|] eqn:E1.
    + apply i64_checked_Some in E1 as [<- Hr].
      destruct (i64_checked (_ + d)) as [y|] eqn:E2.
      * apply i64_checked_Some in E2 as [<- _]. done.
      * cbn. destruct (Z.eqb_spec (digits_value w * MICROS_PER_USD + d) 0) as [E0|]; [exfalso|].
        { rewrite E0 in E2. done. }
        destruct (Z.ltb_spec MAX_LIMIT_MICROS (digits_value w * MICROS_PER_USD + d)) as [|Hle]; [done|exfalso].
        by apply i64_None in E2; unfold i64_min, i64_max, MAX_LIMIT_MICROS, MICROS_PER_USD in *; lia.
    + apply i64_None in E1. cbn. unfold i64_min, i64_max, MAX_LIMIT_MICROS, MICROS_PER_USD in *.
      destruct (Z.eqb_spec (digits_value w * 1000000 + d) 0); [lia|].
      destruct (Z.ltb_spec (1000000 * 1000000) (digits_value w * 1000000 + d)); [done|lia].
  - assert (i64_checked (digits_value w) = None) as ->.
    { unfold i64_checked, in_i64. destruct (Z.leb_spec (digits_value w) i64_max); [lia|]. by rewrite andb_false_r. }
    cbn. unfold i64_max, MAX_LIMIT_MICROS, MICROS_PER_USD in *.
    destruct (Z.eqb_spec (digits_value w * 1000000 + digits_value f * 10 ^ (6 - Z.of_nat (length f))) 0); [lia|].
    destruct (Z.ltb_spec (1000000 * 1000000) (digits_value w * 1000000 + digits_value f * 10 ^ (6 - Z.of_nat (length f))));
      [done|lia].
Qed.

Lemma parse_usd_Ok_shape text m :
  valid_str text -> parse_usd text = Ok m -> exists w f, amount_shape text w f.
Proof.
  intros Hv. unfold parse_usd. destruct (split_once #"." text) as [[w f]|] eqn:E; cbn [from_option id].
  - pose proof (split_once_Some _ _ _ _ E) as Ht. assert (valid_str w /\ valid_str f) as [Hvw Hvf].
    { rewrite Ht in Hv. apply Forall_app in Hv as [Hw Hv]. by inversion_clear Hv. }
    rewrite !digits_bytes by done. destruct (_ || _) eqn:Ec; [done|]. intros _. b2p.
    destruct Ec as [[[[H1 H2] H3] H4] H5]. exists w, f. rewrite digits_len in H4 by done.
    split; [done|]. split; [done|]. split; [done|]. split; [lia|]. right. split; [done|]. intros ->.
    destruct H5 as [H5|H5]; [|done]. unfold contains in H5. by rewrite E in H5.
  - rewrite !digits_bytes by (done || constructor). destruct (_ || _) eqn:Ec; [done|]. intros _. b2p.
    destruct Ec as [[[[H1 H2] H3] H4] H5]. exists text, [].
    split; [done|]. split; [done|]. split; [done|]. split; [simpl; lia|]. by left.
Qed.

Definition quote_char : Z := 39.
Definition quotes (s : str) : nat := length (List.filter (Z.eqb quote_char) s).

Lemma quotes_app a b : quotes (a ++ b) = (quotes a + quotes b)%nat.
Proof. unfold quotes. by rewrite List.filter_app, length_app. Qed.

Lemma quotes_none (p : Z -> bool) s :
  valid_str s -> (forall b, 128 <= b -> p b = false) -> p quote_char = false ->
  forallb p (str_bytes s) = true -> quotes s = 0%nat.
Proof.
  intros Hv Hp Hq H. rewrite forallb_bytes, forallb_Forall in H by done. unfold quotes.
  induction H as [|c s Hc Hs IH]; [done|]. inversion_clear Hv. cbn [List.filter].
  destruct (Z.eqb_spec quote_char c); [congruence|auto].
Qed.

(** ** Properties *)

(** An amount an operator types is read exactly or refused.  What is
    accepted is one or more digits, optionally a point and one to six more, and
    the result is that number of dollars in whole micro-dollars, between one
    and a million dollars' worth; nothing else is accepted, nothing is rounded
    and no 64-bit step overflows unnoticed. *)
Theorem parse_usd_exact text m :
  valid_str text ->
  parse_usd text = Ok m <->
    1 <= m <= MAX_LIMIT_MICROS /\ exists w f, amount_shape text w f /\ m = micros_of w f.
Proof.
  intros Hv. split.
  - intros H. destruct (parse_usd_Ok_shape text m Hv H) as (w&f&Hs). rewrite (parse_usd_shape _ _ _ Hs) in H.
    destruct (Z.eqb_spec (micros_of w f) 0); [done|]. destruct (Z.ltb_spec MAX_LIMIT_MICROS (micros_of w f)); [done|].
    injection H as <-. split; [|by exists w, f]. destruct Hs as (Hw&Hf&_).
    pose proof (digits_value_nonneg w Hw). pose proof (digits_value_nonneg f Hf).
    assert (0 <= 10 ^ (6 - Z.of_nat (length f))) by (apply Z.pow_nonneg; lia).
    unfold micros_of, MICROS_PER_USD in *. nia.
  - intros [Hm (w&f&Hs&->)]. rewrite (parse_usd_shape _ _ _ Hs).
    destruct (Z.eqb_spec (micros_of w f) 0); [lia|]. by destruct (Z.ltb_spec MAX_LIMIT_MICROS (micros_of w f)); [lia|].
Qed.

(** A run id cannot leave its place in the query.  A statement that is made
    holds the run id and the path between the template's own quotes, neither
    has a quote of its own, and the run id has at most 128 bytes. *)
Theorem copy_statement_is_not_injectable run file q :
  valid_str run -> valid_str file -> copy_statement run file = Ok q ->
  q = #"copy (select * from calls where run_id = '" ++ run ++ #"' order by ts_millis, step) to '"
      ++ file ++ #"' stored as parquet"
  /\ quotes run = 0%nat /\ quotes file = 0%nat /\ quotes q = 4%nat /\ byte_len run <= RUN_ID_MAX_BYTES.
Proof.
  intros Hr Hf. unfold copy_statement, query_safe_run. intros H. oks H. oks Hx.
  match type of H with Ok ?t = Ok q => assert (q = t) as -> by congruence end. clear H. b2p.
  assert (quotes run = 0%nat) as Eq1.
  { apply (quotes_none is_name_byte); [done| |done|tauto].
    intros b Hb. unfold is_name_byte, ascii_alnum, ascii_digit, ascii_lower, ascii_upper. lia. }
  assert (quotes file = 0%nat) as Eq2.
  { apply (quotes_none is_path_byte); try done; [|tauto].
    intros b Hb. unfold is_path_byte, ascii_alnum, ascii_digit, ascii_lower, ascii_upper. lia. }
  split; [done|]. split; [done|]. split; [done|]. split; [|lia]. rewrite !quotes_app, Eq1, Eq2. reflexivity.
Qed.

(** Every number of a report fits its type, as a parsed one does. *)
Definition u64_report (r : BacktestReport) : Prop :=
  0 <= runs_total r <= u64_max /\ 0 <= runs_affected r <= u64_max
  /\ 0 <= calls_total r <= u64_max /\ 0 <= calls_blocked r <= u64_max.

(** The two halves of a budget proof add up to the trace.  No subtraction
    of the second half wraps: the incident and everything else together hold
    exactly the runs and calls, affected and blocked, of the whole trace; and
    the incident is stopped exactly when one of its own calls is blocked. *)
Theorem budget_halves_add_up run_id c r t copied tied p :
  u64_report r -> u64_report t -> judge_budget run_id c r t copied tied = Ok p ->
  1 + o_runs (elsewhere p) = runs_total t
  /\ runs_affected r + o_runs_affected (elsewhere p) = runs_affected t
  /\ e_calls (incident p) + o_calls (elsewhere p) = calls_total t
  /\ e_calls_blocked (incident p) + o_calls_blocked (elsewhere p) = calls_blocked t
  /\ e_calls (incident p) = copied
  /\ 0 <= o_runs (elsewhere p) /\ 0 <= o_calls_blocked (elsewhere p)
  /\ (stops_this_incident p = true <-> 0 < e_calls_blocked (incident p)).
Proof.
  intros (R1&R2&R3&R4) (T1&T2&T3&T4) H. unfold judge_budget in H. oks H. injection H as <-. b2p.
  cbn [elsewhere incident stops_this_incident o_runs o_runs_affected o_calls o_calls_blocked e_calls e_calls_blocked].
  assert (forall a b, 0 <= b <= a -> a <= u64_max -> u64_sub a b = a - b) as Hsub.
  { intros a b ??. unfold u64_sub. apply Z.mod_small. lia. }
  rewrite !Hsub by lia. lia.
Qed.

(** ** Witnesses *)

Lemma parse_usd_exact_witness : parse_usd #"0.35" = Ok 350000 /\ 1 <= 350000 <= MAX_LIMIT_MICROS.
Proof.
  assert (parse_usd #"0.35" = Ok 350000) as E by (vm_compute; reflexivity). split; [exact E|].
  apply (parse_usd_exact #"0.35" 350000); [repeat constructor|exact E].
Defined.

Lemma copy_statement_is_not_injectable_witness : quotes #"run-9" = 0%nat /\ byte_len #"run-9" <= RUN_ID_MAX_BYTES.
Proof.
  destruct (copy_statement_is_not_injectable #"run-9" #"/tmp/x"
    (#"copy (select * from calls where run_id = '" ++ #"run-9" ++ #"' order by ts_millis, step) to '"
     ++ #"/tmp/x" ++ #"' stored as parquet")) as (_&H1&_&_&H2);
    [repeat constructor..|vm_compute; reflexivity|exact (conj H1 H2)].
Defined.

Definition demo_run_report : BacktestReport := mkBacktest 1 1 12 3 100 40.
Definition demo_trace_report : BacktestReport := mkBacktest 9 2 80 5 900 60.
Definition demo_proof : option BudgetProof :=
  rok (judge_budget #"run-9" (mkCandidate (Some 5) None None) demo_run_report demo_trace_report 12 false).

Lemma budget_halves_add_up_witness :
  match demo_proof with
  | Some p => stops_this_incident p = true /\ 1 + o_runs (elsewhere p) = 9
  | None => False
  end.
Proof.
  split; [vm_compute; reflexivity|].
  refine (proj1 (budget_halves_add_up #"run-9" (mkCandidate (Some 5) None None) demo_run_report demo_trace_report
            12 false _ _ _ _)); [unfold u64_report; vm_compute; repeat split; discriminate..|].
  vm_compute. reflexivity.
Defined.
