(* ===== verification/ProofRun.v ===== *)
(** * ProofRun: running a proof ([crates/api/src/proof/commands.rs],
    [proof/budget_commands.rs], and the candidate's flags of [proof/budget.rs])

    A proof checks its request, takes one of the slots every proof shares,
    makes a private directory, runs one command-line tool (for a policy) or
    four (for a budget) with a deadline, reads what it printed and judges it.
    The slot and the directory are guards: they are given back when their scope
    ends, on every path.  What the tool prints, the clock and the file system
    answer as they like.

    Two calls wait for as long as it takes: reaping a child that was killed, and
    joining the thread that reads one of its pipes, which reads until every
    process that holds the other end has closed it.  Their answer may never
    come. *)
From S2P Require Import Prelude Text Json Case Prog Slots.
From S2P Require PolicyProof BudgetProof.

(** ** What a proof does outside itself *)

(** The event row a lookup gives: its type and its run. *)
Record EventRow : Type := mkEventRow { er_type : str; er_run : option str }.
(** A scratch directory, and whether its path is text. *)
Record ScratchDir : Type := mkScratchDir { sd_path : str; sd_text : bool }.

Inductive stream : Type := Stdout | Stderr.

Inductive op : Type :=
| Lookup (id : Z)                                    (* [Store::open], [event_by_id] *)
| Acquire                                            (* [Slots::try_acquire] *)
| Release (slot : nat)                               (* the drop of a [Slot] *)
| MakeScratch                                        (* [Scratch::new] *)
| RemoveScratch (d : ScratchDir)                     (* the drop of a [Scratch] *)
| WriteFile (path text : str)
| Spawn (bin : str) (args : list str) (env : list (str * str))
| TryWait (child : nat)
| Kill (child : nat)
| Wait (child : nat)                                 (* reaping it: [false], it is not over *)
| Sleep (ms : Z)
| Instant                                            (* milliseconds *)
| Join (child : nat) (s : stream).                   (* what the reader of a pipe read, capped, as text: [None],
                                                        it reads on *)

Definition resp (o : op) : Type :=
  match o with
  | Lookup _ => result (option EventRow) str
  | Acquire => result nat Z
  | Release _ | RemoveScratch _ | Kill _ | Sleep _ => unit
  | MakeScratch => result ScratchDir str
  | WriteFile _ _ => result unit str
  | Spawn _ _ _ => result nat str
  | TryWait _ => result (option (option Z)) str
  | Instant => Z
  | Wait _ => bool
  | Join _ _ => option str
  end%type.

Inductive event : Type :=
| LookedUp (id : Z) (x : result (option EventRow) str)
| AcquiredSlot (x : result nat Z)
| ReleasedSlot (slot : nat)
| MadeScratch (x : result ScratchDir str)
| RemovedScratch (d : ScratchDir)
| Wrote (path text : str) (x : result unit str)
| Started (bin : str) (args : list str) (env : list (str * str)) (x : result nat str)
| Waited (child : nat) (x : result (option (option Z)) str)
| Killed (child : nat)
| Slept (ms : Z)
| Looked (now : Z)
| Reaped (child : nat) (x : bool)
| Joined (child : nat) (s : stream) (x : option str).

Definition event_of (o : op) (_ : Z) : resp o -> event :=
  match o with
  | Lookup id => LookedUp id
  | Acquire => AcquiredSlot
  | Release s => fun _ => ReleasedSlot s
  | MakeScratch => MadeScratch
  | RemoveScratch d => fun _ => RemovedScratch d
  | WriteFile p t => Wrote p t
  | Spawn b a e => Started b a e
  | TryWait c => Waited c
  | Kill c => fun _ => Killed c
  | Sleep ms => fun _ => Slept ms
  | Instant => Looked
  | Wait c => Reaped c
  | Join c s => Joined c s
  end.

(** ** Errors *)

Inductive ProofError : Type :=
| NotConfigured (missing : str)
| IncidentError (reason : str)
| NoRun
| CandidateRefused (reason : str)
| RunRefused (reason : str)
| NotInTrace (run : Data)
| SpawnFailed (detail : Data)
| ProofBusy (limit : Z)
| Timeout (seconds : Z)
| ReplayFailed (exit : option Z) (detail : Data)
| Unreadable (reason : str).

(** A run answers, or has not ended yet: [None] is a poll loop still going
    round after as many rounds as it was given, or a wait that is not over. *)
Abbreviation run A := (@prog op resp (option (result A ProofError))).
Definition fail {A} (e : ProofError) : run A := Ret (Some (Err e)).
Definition answer {A} (a : A) : run A := Ret (Some (Ok a)).
Definition lift {A} (r : result A ProofError) : run A := Ret (Some r).
Definition andthen {A B} (p : run A) (f : A -> run B) : run B :=
  bind p (fun r => match r with
                   | Some (Ok a) => f a
                   | Some (Err e) => Ret (Some (Err e))
                   | None => Ret None
                   end).
Definition perform_io {A} (p : @prog op resp (result A str)) (f : str -> ProofError) : run A :=
  bind p (fun r => Ret (Some (map_err f r))).
(** The scope of a guard: what it holds is given back when the scope ends. *)
Definition guarded {A} (p : run A) (give_back : @prog op resp unit) : run A :=
  bind p (fun r => match r with
                   | Some r => bind give_back (fun _ => Ret (Some r))
                   | None => Ret None
                   end).
Notation "'try!' x <- p ; k" := (andthen p (fun x => k)) (at level 10, x name, p at level 100, k at level 200).
Notation "'try!' ' x <- p ; k" := (andthen p (fun y => match y with x => k end))
  (at level 10, x pattern, p at level 100, k at level 200).

Definition spawn_failed (e : str) : ProofError := SpawnFailed (bounded e).

(** ** Running a child ([run_bounded]) *)

Record Finished : Type := mkFinished { exit : option Z; stdout : str; stderr : str }.

(** The loop: is it done, is it past the deadline, wait. *)
Fixpoint poll (rounds : nat) (child : nat) (deadline seconds : Z) : run (option Z) :=
  match rounds with
  | O => Ret None
  | S rounds =>
      bind (perform_op (TryWait child)) (fun x =>
      match x with
      | Ok (Some code) => answer code
      | Ok None =>
          bind (perform_op Instant) (fun now =>
          if deadline <=? now then
            bind (perform_op (Kill child)) (fun _ =>
            bind (perform_op (Wait child)) (fun reaped : bool => if reaped then fail (Timeout seconds) else Ret None))
          else bind (perform_op (Sleep 20)) (fun _ => poll rounds child deadline seconds))
      | Err e => fail (spawn_failed e)
      end)
  end.

(** [text(handle)]: the thread is waited for. *)
Definition text (child : nat) (s : stream) : run str :=
  bind (perform_op (Join child s)) (fun x : option str => Ret (Ok <$> x)).
Definition run_bounded (rounds : nat) (bin : str) (args : list str) (extra : list (str * str)) (deadline seconds : Z)
  : run Finished :=
  try! child <- perform_io (perform_op (Spawn bin args extra)) spawn_failed;
  try! code <- poll rounds child deadline seconds;
  try! out <- text child Stdout;
  try! err <- text child Stderr;
  answer (mkFinished code out err).

(** ** The incident's run *)

Record AppState : Type := mkApp { events_dir : option str; source_events_dir : option str }.
Definition join_path (dir name : str) : str :=
  if bool_decide (dir = []) then name else if ends_with #"/" dir then dir ++ name else dir ++ #"/" ++ name.

Definition event_row_of (bus : AppState) (incident_id : str) : run EventRow :=
  let incident e := IncidentError (describe e) in
  try! id <- lift (map_err incident (event_id_of incident_id));
  match events_dir bus with
  | None => fail (incident (NoStore []))
  | Some _ =>
      try! row <- perform_io (perform_op (Lookup id)) (fun e => incident (NoStore e));
      match row with
      | Some row => answer row
      | None => fail (incident (NotFound id))
      end
  end.
Definition run_id_of (bus : AppState) (incident_id : str) : run str :=
  try! row <- event_row_of bus incident_id;
  match er_run row with
  | Some r => if bool_decide (r = []) then fail NoRun else answer r
  | None => fail NoRun
  end.

Definition with_slot {A} (body : run A) : run A :=
  bind (perform_op Acquire) (fun x =>
  match x with
  | Ok slot => guarded body (perform_op (Release slot))
  | Err limit => fail (ProofBusy limit)
  end).
Definition with_scratch {A} (body : ScratchDir -> run A) : run A :=
  bind (perform_op MakeScratch) (fun x =>
  match x with
  | Ok d => guarded (body d) (perform_op (RemoveScratch d))
  | Err e => fail (spawn_failed e)
  end).

(** ** A policy proof ([commands.rs]) *)

Definition CANDIDATE_MAX_BYTES : Z := 65536.
Definition REPLAY_TIMEOUT : Z := 30.
Definition WARDRYX_EVENTS_FILE : str := #"wardryx.ndjson".

Record ProofConfig : Type := mkProofConfig { wardryx_bin : str; archive : option str; events : option str }.
Record ProofRequest : Type := mkProofRequest { pr_incident_id : str; pr_candidate : str }.

(** A trimmed variable, or none. *)
Definition set_and_named (v : option str) : option str :=
  let! v := v in if bool_decide (trim v = []) then None else Some (trim v).
(** [archive_var] is [WARDRYX_POLICY_ARCHIVE]. *)
Definition config_from_env (archive_var : option str) (bus : AppState) : ProofConfig :=
  mkProofConfig #"wardryx" (set_and_named archive_var)
    (option_map (fun dir => join_path dir WARDRYX_EVENTS_FILE) (source_events_dir bus)).

Definition check_candidate (candidate : str) : result unit ProofError :=
  if bool_decide (trim candidate = []) then Err (CandidateRefused #"the candidate policy is empty")
  else if CANDIDATE_MAX_BYTES <? byte_len candidate then Err (CandidateRefused #"the candidate policy is larger than 64 KiB")
  else if contains [0] candidate then Err (CandidateRefused #"the candidate policy holds a NUL byte")
  else Ok tt.

Definition replay_args (events archive candidate : str) : list str :=
  [ #"replay"; #"-events"; events; #"-archive"; archive; #"-policy"; candidate].
Definition run_replay (rounds : nat) (bin events archive candidate : str) (timeout : Z) : run Finished :=
  bind (perform_op Instant) (fun now =>
  run_bounded rounds bin (replay_args events archive candidate) [] (now + 1000 * timeout) timeout).

Definition read_replay (done : Finished) : result PolicyProof.ReplayReport ProofError :=
  match PolicyProof.parse_report (stdout done) with
  | Ok report => Ok report
  | Err (PolicyProof.Inconsistent reason) => Err (Unreadable reason)
  | Err PolicyProof.Unrecognised => Err (ReplayFailed (exit done) (bounded (stderr done)))
  end.

Definition candidate_file (d : ScratchDir) : str := join_path (sd_path d) #"candidate.yaml".
Definition prove_in (rounds : nat) (config : ProofConfig) (bus : AppState) (request : ProofRequest) (timeout : Z)
  : run PolicyProof.PolicyProof :=
  try! _ <- lift (check_candidate (pr_candidate request));
  try! archive <- lift (ok_or (archive config) (NotConfigured #"the policy archive (WARDRYX_POLICY_ARCHIVE)"));
  try! events <- lift (ok_or (events config) (NotConfigured #"the directory wardryx records its decisions in"));
  try! id <- run_id_of bus (pr_incident_id request);
  with_slot (with_scratch (fun d =>
    try! _ <- perform_io (perform_op (WriteFile (candidate_file d) (pr_candidate request))) spawn_failed;
    try! done <- run_replay rounds (wardryx_bin config) events archive (candidate_file d) timeout;
    try! report <- lift (read_replay done);
    answer (PolicyProof.judge report id))).

(** ** A budget proof ([budget_commands.rs]) *)

Definition BUDGET_TIMEOUT : Z := 30.
Definition STEP_COUNT_STATEMENT : str := #"select count(*) as n, count(distinct step) as steps from calls".
Definition AMOUNT_UNREADABLE : str := #"the amount cannot be handed to tokenfuse exactly".

Record BudgetConfig : Type := mkBudgetConfig { tokenfuse_bin : str; trace_dir : option str }.
Record BudgetRequest : Type := mkBudgetRequest
  { br_incident_id : str; per_run_usd : option str; per_step_usd : option str; br_max_steps : option Z }.
Definition budget_config_from_env (trace_var : option str) : BudgetConfig :=
  mkBudgetConfig #"tokenfuse" (set_and_named trace_var).

(** Double arithmetic: the text of [(micros + 0.5) / 1e6], what the tool's own
    arithmetic reads of a text, and [{:.4}] of [micros / 1e6]. *)
Class Dollars := { half_above : Z -> str; cli_reads : str -> option Z; usd4 : Z -> str }.

Section Budget.
Context {DO : Dollars}.

Definition cli_amount (micros : Z) : result str str :=
  if negb ((1 <=? micros) && (micros <=? BudgetProof.MAX_LIMIT_MICROS)) then Err BudgetProof.AMOUNT_LARGE
  else if bool_decide (cli_reads (half_above micros) = Some micros) then Ok (half_above micros)
  else Err AMOUNT_UNREADABLE.
Definition flag (name : str) (amount : option Z) : result (list str) str :=
  match amount with
  | Some micros => let? text := cli_amount micros in Ok [name; text]
  | None => Ok []
  end.
Definition candidate_args (c : BudgetProof.BudgetCandidate) : result (list str) str :=
  let? run := flag #"--budget" (BudgetProof.per_run_micros c) in
  let? step := flag #"--budget-per-step" (BudgetProof.per_step_micros c) in
  Ok (run ++ step ++ match BudgetProof.max_steps c with Some n => [ #"--max-steps"; dec n] | None => [] end).
Definition described (c : BudgetProof.BudgetCandidate) : str :=
  join #", " (match BudgetProof.per_run_micros c with Some m => [ #"budget/run $" ++ usd4 m] | None => [] end
              ++ match BudgetProof.per_step_micros c with Some m => [ #"budget/step $" ++ usd4 m] | None => [] end
              ++ match BudgetProof.max_steps c with Some n => [ #"max_steps " ++ dec n] | None => [] end).

Definition failed (done : Finished) : ProofError :=
  ReplayFailed (exit done) (bounded (if bool_decide (trim (stderr done) = []) then stdout done else stderr done)).
Definition deadline_of (started timeout : Z) : Z := started + 1000 * timeout.
Definition tokenfuse (rounds : nat) (config : BudgetConfig) (args : list str) (data_dir : str) (started timeout : Z)
  : run Finished :=
  run_bounded rounds (tokenfuse_bin config) args [(#"TOKENFUSE_DATA_DIR", data_dir)] (deadline_of started timeout) timeout.
Definition read_report (done : Finished) (asked : BudgetProof.BudgetCandidate) : result BudgetProof.BacktestReport ProofError :=
  match BudgetProof.parse_backtest (stdout done) (described asked) with
  | Ok report => Ok report
  | Err (BudgetProof.Inconsistent reason) => Err (Unreadable reason)
  | Err BudgetProof.NoCalls => Err (Unreadable #"tokenfuse found no calls in a trace that holds some")
  | Err BudgetProof.Unrecognised => Err (failed done)
  end.

(** The four children, in the scratch directory. *)
Definition prove_children (rounds : nat) (config : BudgetConfig) (candidate : BudgetProof.BudgetCandidate)
  (backtest : list str) (trace id : str) (started timeout : Z) (d : ScratchDir) : run BudgetProof.BudgetProof :=
  try! _ <- lift (if sd_text d then Ok tt else Err (RunRefused #"the scratch path is not text"));
  try! statement <- lift (map_err RunRefused (BudgetProof.copy_statement id (join_path (sd_path d) #"part.parquet")));
  try! copied <- tokenfuse rounds config [ #"sql"; statement] trace started timeout;
  try! count <- lift (ok_or (BudgetProof.parse_copy_count (stdout copied)) (failed copied));
  if count =? 0 then fail (NotInTrace (bounded id))
  else
    try! counted <- tokenfuse rounds config [ #"sql"; STEP_COUNT_STATEMENT] (sd_path d) started timeout;
    try! rows_steps <- lift (ok_or (BudgetProof.parse_step_counts (stdout counted)) (failed counted));
    if negb (rows_steps.1 =? count) then fail (Unreadable #"the copy of the run and a count of it disagree")
    else
      try! alone <- tokenfuse rounds config backtest (sd_path d) started timeout;
      try! run_report <- lift (read_report alone candidate);
      try! all <- tokenfuse rounds config backtest trace started timeout;
      try! trace_report <- lift (read_report all candidate);
      lift (map_err Unreadable (BudgetProof.judge_budget id candidate run_report trace_report count (rows_steps.2 <? rows_steps.1))).

Definition prove_budget_in (rounds : nat) (config : BudgetConfig) (bus : AppState) (request : BudgetRequest) (timeout : Z)
  : run BudgetProof.BudgetProof :=
  try! candidate <- lift (map_err CandidateRefused
                            (BudgetProof.from_parts (per_run_usd request) (per_step_usd request) (br_max_steps request)));
  try! flags <- lift (map_err CandidateRefused (candidate_args candidate));
  try! trace <- lift (ok_or (trace_dir config) (NotConfigured #"the gateway's trace directory (TOKENFUSE_DATA_DIR)"));
  try! id <- run_id_of bus (br_incident_id request);
  try! _ <- lift (map_err RunRefused (BudgetProof.query_safe_run id));
  with_slot (bind (perform_op Instant) (fun started =>
    with_scratch (prove_children rounds config candidate (#"backtest" :: flags) trace id started timeout))).
End Budget.

(** ** What is held while a child runs *)

Inductive holding : Type :=
| Nothing
| Slot (slot : nat)
| Scratched (slot : nat) (d : ScratchDir)
| Running (slot : nat) (d : ScratchDir) (child : nat).

(** One event of a proof, and what is held after it; [None] is an event out of
    place.  [may] says what may be written and started with this directory. *)
Definition track1 (may : ScratchDir -> event -> bool) (st : holding) (e : event) : option holding :=
  match st, e with
  | Nothing, LookedUp _ _ => Some Nothing
  | Nothing, AcquiredSlot (Ok s) => Some (Slot s)
  | Nothing, AcquiredSlot (Err _) => Some Nothing
  | Slot s, Looked _ => Some (Slot s)
  | Slot s, MadeScratch (Ok d) => Some (Scratched s d)
  | Slot s, MadeScratch (Err _) => Some (Slot s)
  | Slot s, ReleasedSlot s' => if bool_decide (s = s') then Some Nothing else None
  | Scratched s d, Looked _ | Scratched s d, Joined _ _ _ => Some (Scratched s d)
  | Scratched s d, Wrote _ _ _ => if may d e then Some (Scratched s d) else None
  | Scratched s d, Started _ _ _ x =>
      if may d e then Some (match x with Ok c => Running s d c | Err _ => Scratched s d end) else None
  | Scratched s d, RemovedScratch d' => if bool_decide (sd_path d = sd_path d') then Some (Slot s) else None
  | Running s d c, Looked _ | Running s d c, Slept _ => Some (Running s d c)
  | Running s d c, Waited c' x =>
      if bool_decide (c = c') then Some (match x with Ok None => Running s d c | _ => Scratched s d end) else None
  | Running s d c, Killed c' => if bool_decide (c = c') then Some (Running s d c) else None
  | Running s d c, Reaped c' x => if bool_decide (c = c') then Some (if x then Scratched s d else Running s d c) else None
  | _, _ => None
  end.
Fixpoint track (may : ScratchDir -> event -> bool) (st : holding) (tr : list event) : option holding :=
  match tr with
  | [] => Some st
  | e :: tr => let! st' := track1 may st e in track may st' tr
  end.
Lemma track_app may st a b : track may st (a ++ b) = (let! st' := track may st a in track may st' b).
Proof. revert st. induction a as [|e a IH]; intros st; cbn; [done|]. destruct (track1 may st e); [apply IH|done]. Qed.

Section Safe.
Context (may : ScratchDir -> event -> bool).

(** From [st], each event of [p] is in place, and [post] holds of its answer
    and of what is held then. *)
Fixpoint safe {A} (st : holding) (p : @prog op resp A) (post : A -> holding -> Prop) : Prop :=
  match p with
  | Ret a => post a st
  | Do o k => forall x, exists st', track1 may st (event_of o 0 x) = Some st' /\ safe st' (k x) post
  end.
Lemma safe_wp {A} st0 st tr (p : @prog op resp A) post :
  track may st0 tr = Some st -> safe st p post ->
  wp event_of (fun _ _ => True) tr p (fun a tr' => exists st', track may st0 tr' = Some st' /\ post a st').
Proof.
  revert st tr. induction p as [a|o k IH]; intros st tr Ht; cbn; [eauto|].
  intros H. split; [done|]. intros t x. destruct (H x) as (st'&Hst&Hk). eapply IH; [|exact Hk].
  rewrite track_app, Ht. cbn. assert (event_of o t x = event_of o 0 x) as -> by by destruct o. by rewrite Hst.
Qed.
Lemma safe_bind {A B} st (p : @prog op resp A) (f : A -> @prog op resp B) post :
  safe st p (fun a st' => safe st' (f a) post) -> safe st (bind p f) post.
Proof.
  revert st. induction p as [a|o k IH]; intros st; cbn; [done|]. intros H x.
  destruct (H x) as (st'&?&?). eauto.
Qed.
Lemma safe_mono {A} st (p : @prog op resp A) (post post' : A -> holding -> Prop) :
  safe st p post -> (forall a st', post a st' -> post' a st') -> safe st p post'.
Proof.
  revert st. induction p as [a|o k IH]; intros st; cbn; [auto|]. intros H Hp x.
  destruct (H x) as (st'&?&?). eauto.
Qed.

(** A part of a run that gives back what it took: it ends with what it had. *)
Definition balanced {A} (st : holding) (p : run A) : Prop := safe st p (fun r st' => r <> None -> st' = st).
Lemma balanced_ret {A} st (r : result A ProofError) : balanced st (lift r).
Proof. done. Qed.
Lemma balanced_andthen {A B} st (p : run A) (f : A -> run B) :
  balanced st p -> (forall a, balanced st (f a)) -> balanced st (andthen p f).
Proof.
  intros Hp Hf. apply safe_bind. eapply safe_mono; [exact Hp|]. intros [[a|e]|] st' H; cbn.
  - rewrite H by done. apply Hf.
  - intros _. by apply H.
  - done.
Qed.
Lemma balanced_with_slot {A} (body : run A) :
  (forall s, balanced (Slot s) body) -> balanced Nothing (with_slot body).
Proof.
  intros Hb [s|limit]; cbn; [|eauto]. eexists. split; [done|]. apply safe_bind.
  eapply safe_mono; [apply Hb|]. intros [r|] st H; cbn; [|done]. rewrite H by done. cbn. intros _.
  rewrite bool_decide_eq_true_2 by done. eauto.
Qed.
Lemma balanced_with_scratch {A} s (body : ScratchDir -> run A) :
  (forall d, balanced (Scratched s d) (body d)) -> balanced (Slot s) (with_scratch body).
Proof.
  intros Hb [d|e]; cbn; [|eauto]. eexists. split; [done|]. apply safe_bind.
  eapply safe_mono; [apply Hb|]. intros [r|] st H; cbn; [|done]. rewrite H by done. cbn. intros _.
  rewrite bool_decide_eq_true_2 by done. eauto.
Qed.
Lemma safe_poll s d rounds child deadline seconds :
  safe (Running s d child) (poll rounds child deadline seconds) (fun r st => r <> None -> st = Scratched s d).
Proof.
  induction rounds as [|rounds IH]; cbn; [done|]. intros x. rewrite bool_decide_eq_true_2 by done.
  destruct x as [[code|]|e]; cbn; [eauto| |eauto]. eexists. split; [done|]. intros now. eexists. split; [done|].
  destruct (deadline <=? now); cbn; intros _.
  - rewrite bool_decide_eq_true_2 by done. eexists. split; [done|]. intros x. cbn. rewrite bool_decide_eq_true_2 by done.
    destruct x; cbn; (eexists; split; done).
  - eexists. split; [done|]. exact IH.
Qed.
Lemma balanced_run_bounded s d rounds bin args extra deadline seconds :
  (forall x, may d (Started bin args extra x) = true) ->
  balanced (Scratched s d) (run_bounded rounds bin args extra deadline seconds).
Proof.
  intros Hm x. cbn. rewrite Hm. eexists. split; [done|]. destruct x as [child|e]; cbn; [|done].
  apply safe_bind. eapply safe_mono; [apply safe_poll|]. intros [[code|e]|] st H; cbn; [|auto|done].
  rewrite H by done. intros [out|]; cbn; (eexists; split; [done|]); [|done]. intros [err|]; cbn; eauto.
Qed.
Lemma balanced_instant {A} st (f : Z -> run A) :
  (forall now, track1 may st (Looked now) = Some st) -> (forall now, balanced st (f now)) ->
  balanced st (bind (perform_op Instant) f).
Proof. intros Ht Hf now. cbn. rewrite Ht. eexists. split; [done|]. apply Hf. Qed.

Lemma balanced_run_id_of bus id : balanced Nothing (run_id_of bus id).
Proof.
  apply balanced_andthen.
  - apply balanced_andthen; [apply balanced_ret|]. intros n. destruct (events_dir bus); [|apply balanced_ret].
    apply balanced_andthen; [|intros [row|]; apply balanced_ret]. intros x. cbn. eauto.
  - intros row. destruct (er_run row); [case_bool_decide|]; apply balanced_ret.
Qed.
End Safe.

(** What each kind of proof may write and start. *)
Definition policy_may (config : ProofConfig) (request : ProofRequest) (d : ScratchDir) (e : event) : bool :=
  match e with
  | Wrote path text _ => bool_decide (path = candidate_file d /\ text = pr_candidate request)
  | Started bin args env _ =>
      match events config, archive config with
      | Some ev, Some ar => bool_decide (bin = wardryx_bin config /\ args = replay_args ev ar (candidate_file d) /\ env = [])
      | _, _ => false
      end
  | _ => false
  end.
Definition budget_may {DO : Dollars} (config : BudgetConfig) (request : BudgetRequest) (d : ScratchDir) (e : event) : bool :=
  match e, trace_dir config, BudgetProof.from_parts (per_run_usd request) (per_step_usd request) (br_max_steps request) with
  | Started bin args env _, Some trace, Ok candidate =>
      bool_decide (bin = tokenfuse_bin config)
      && (bool_decide (env = [(#"TOKENFUSE_DATA_DIR", trace)]) || bool_decide (env = [(#"TOKENFUSE_DATA_DIR", sd_path d)]))
      && match args with
         | cmd :: rest =>
             if bool_decide (cmd = #"sql") then
               match rest with
               | [statement] =>
                   bool_decide (statement = STEP_COUNT_STATEMENT)
                   || (starts_with #"copy (select * from calls where run_id = '" statement
                       && ends_with (join_path (sd_path d) #"part.parquet" ++ #"' stored as parquet") statement)
               | _ => false
               end
             else bool_decide (cmd = #"backtest" /\ candidate_args candidate = Ok rest)
         | [] => false
         end
  | _, _, _ => false
  end.

Lemma andthen_ok {A B} (a : A) (f : A -> run B) : andthen (lift (Ok a)) f = f a.
Proof. done. Qed.
Lemma balanced_prove_in rounds config bus request timeout :
  balanced (policy_may config request) Nothing (prove_in rounds config bus request timeout).
Proof.
  unfold prove_in. apply balanced_andthen; [apply balanced_ret|]. intros _.
  destruct (archive config) as [ar|] eqn:Ea; [|done]. cbn [ok_or]. rewrite andthen_ok.
  destruct (events config) as [ev|] eqn:Ev; [|done]. cbn [ok_or]. rewrite andthen_ok. apply balanced_andthen; [apply balanced_run_id_of|]. intros id.
  apply balanced_with_slot. intros s. apply balanced_with_scratch. intros d.
  apply balanced_andthen.
  { intros x. cbn. rewrite bool_decide_eq_true_2 by done. eauto. }
  intros _. apply balanced_andthen; [|intros done; apply balanced_andthen; [apply balanced_ret|intros report; apply balanced_ret]].
  apply balanced_instant; [done|]. intros now. apply balanced_run_bounded.
  intros x. cbn. rewrite Ea, Ev. by apply bool_decide_eq_true_2.
Qed.

Section BudgetSafe.
Context {DO : Dollars}.
Lemma balanced_tokenfuse config request d s rounds args data started timeout :
  (forall x, budget_may config request d (Started (tokenfuse_bin config) args [(#"TOKENFUSE_DATA_DIR", data)] x) = true) ->
  balanced (budget_may config request) (Scratched s d) (tokenfuse rounds config args data started timeout).
Proof. intros H. by apply balanced_run_bounded. Qed.

Lemma copy_statement_shape run file st :
  BudgetProof.copy_statement run file = Ok st ->
  starts_with #"copy (select * from calls where run_id = '" st = true
  /\ ends_with (file ++ #"' stored as parquet") st = true.
Proof.
  unfold BudgetProof.copy_statement. destruct (BudgetProof.query_safe_run run); [|done]. cbn [rbind].
  destruct (_ || _); [done|]. intros H.
  assert (st = (#"copy (select * from calls where run_id = '" ++ run) ++ (#"' order by ts_millis, step) to '" ++ file ++ #"' stored as parquet")) as ->
    by (rewrite <- app_assoc; congruence).
  split.
  - unfold starts_with. by rewrite <- app_assoc, strip_prefix_app.
  - unfold ends_with. rewrite app_assoc.
    generalize ((#"copy (select * from calls where run_id = '" ++ run) ++ #"' order by ts_millis, step) to '").
    intros front. by rewrite (proj2 (strip_suffix_Some _ (front ++ file ++ #"' stored as parquet") front)).
Qed.

Lemma balanced_prove_budget_in rounds config bus request timeout :
  balanced (budget_may config request) Nothing (prove_budget_in rounds config bus request timeout).
Proof.
  unfold prove_budget_in.
  destruct (BudgetProof.from_parts _ _ _) as [candidate|] eqn:Ec; [|done]. cbn [map_err]. rewrite andthen_ok.
  destruct (candidate_args candidate) as [flags|] eqn:Ef; [|done]. cbn [map_err]. rewrite andthen_ok.
  destruct (trace_dir config) as [trace|] eqn:Et; [|done]. cbn [ok_or]. rewrite andthen_ok.
  apply balanced_andthen; [apply balanced_run_id_of|]. intros id.
  apply balanced_andthen; [apply balanced_ret|]. intros _.
  apply balanced_with_slot. intros s. apply balanced_instant; [done|]. intros started.
  apply balanced_with_scratch. intros d. unfold prove_children.
  apply balanced_andthen; [apply balanced_ret|]. intros _.
  destruct (BudgetProof.copy_statement _ _) as [statement|] eqn:Es; [|done]. cbn [map_err]. rewrite andthen_ok.
  apply copy_statement_shape in Es as [Es1 Es2].
  assert (forall x, budget_may config request d (Started (tokenfuse_bin config) (#"backtest" :: flags) [(#"TOKENFUSE_DATA_DIR", trace)] x) = true) as B1.
  { intros x. cbn [budget_may]. rewrite Et, Ec.
    rewrite (bool_decide_eq_true_2 (tokenfuse_bin config = _)), (bool_decide_eq_true_2 ([(_, trace)] = _)),
      (bool_decide_eq_false_2 (#"backtest" = #"sql")), (bool_decide_eq_true_2 (#"backtest" = #"backtest" /\ _)) by done. done. }
  assert (forall x, budget_may config request d (Started (tokenfuse_bin config) (#"backtest" :: flags) [(#"TOKENFUSE_DATA_DIR", sd_path d)] x) = true) as B2.
  { intros x. cbn [budget_may]. rewrite Et, Ec.
    rewrite (bool_decide_eq_true_2 (tokenfuse_bin config = _)), (bool_decide_eq_true_2 ([(_, sd_path d)] = [(_, sd_path d)])),
      (bool_decide_eq_false_2 (#"backtest" = #"sql")), (bool_decide_eq_true_2 (#"backtest" = #"backtest" /\ _)) by done.
    by rewrite orb_true_r. }
  apply balanced_andthen.
  { apply balanced_tokenfuse. intros x. cbn [budget_may].
    rewrite Et, Ec, Es1, Es2, (bool_decide_eq_true_2 (tokenfuse_bin config = _)), (bool_decide_eq_true_2 ([(_, trace)] = _)),
      (bool_decide_eq_true_2 (#"sql" = #"sql")) by done. by rewrite orb_true_r. }
  intros copied. apply balanced_andthen; [apply balanced_ret|]. intros count.
  destruct (count =? 0); [done|]. apply balanced_andthen.
  { apply balanced_tokenfuse. intros x. cbn [budget_may]. rewrite Et, Ec.
    rewrite (bool_decide_eq_true_2 (tokenfuse_bin config = _)), (bool_decide_eq_true_2 ([(_, sd_path d)] = [(_, sd_path d)])),
      (bool_decide_eq_true_2 (#"sql" = #"sql")), (bool_decide_eq_true_2 (STEP_COUNT_STATEMENT = _)) by done.
    by rewrite orb_true_r. }
  intros counted. apply balanced_andthen; [apply balanced_ret|]. intros rs. destruct (negb _); [done|].
  apply balanced_andthen; [by apply balanced_tokenfuse|]. intros alone.
  apply balanced_andthen; [apply balanced_ret|]. intros run_report.
  apply balanced_andthen; [by apply balanced_tokenfuse|]. intros all.
  apply balanced_andthen; [apply balanced_ret|]. intros trace_report. apply balanced_ret.
Qed.
End BudgetSafe.

(** A proof takes one slot and one directory and gives both back whatever
    happens, and does nothing but what it says while it holds them.  Whatever
    the store, the clock, the file system and the tools answer, every event is
    in its place: nothing is written or started without a slot and a
    directory, one child at a time; a policy proof writes the candidate to its
    own directory and starts the one replay over the configured files with no
    variable of its own; a budget proof writes nothing and starts the tool on
    the recorded trace or on its own copy, with its two statements or the
    candidate's flags alone.  A proof that answered holds nothing. *)
Theorem proof_gives_back_what_it_takes rounds bus timeout :
  (forall config request,
     wp event_of (fun _ _ => True) [] (prove_in rounds config bus request timeout) (fun r tr =>
       exists st, track (policy_may config request) Nothing tr = Some st /\ (r <> None -> st = Nothing)))
  /\ (forall {DO : Dollars} config request,
     wp event_of (fun _ _ => True) [] (prove_budget_in rounds config bus request timeout) (fun r tr =>
       exists st, track (budget_may config request) Nothing tr = Some st /\ (r <> None -> st = Nothing))).
Proof.
  split; intros; eapply safe_wp; try done; [apply balanced_prove_in|apply balanced_prove_budget_in].
Qed.

(** ** The answer is what the tool printed *)

Definition gives {A} (tr : list event) (p : run A) (Q : A -> list event -> Prop) : Prop :=
  wp event_of (fun _ _ => True) tr p (fun r tr' => forall a, r = Some (Ok a) -> Q a tr').

Lemma gives_andthen {A B} tr (p : run A) (f : A -> run B) Q :
  gives tr p (fun a tr' => gives tr' (f a) Q) -> gives tr (andthen p f) Q.
Proof.
  intros H. apply wp_bind. eapply wp_mono; [exact H|]. intros [[a|e]|] tr' Ha; [by apply Ha|done..].
Qed.
Lemma gives_lift {A} tr (r : result A ProofError) Q : (forall a, r = Ok a -> Q a tr) -> gives tr (lift r) Q.
Proof. intros H a [= E]. by apply H. Qed.
Lemma gives_mono {A} tr (p : run A) Q Q' :
  gives tr p Q -> (forall a tr', tr `prefix_of` tr' -> Q a tr' -> Q' a tr') -> gives tr p Q'.
Proof.
  intros H HQ. eapply wp_mono; [by apply wp_extends|]. intros r tr' [Hr Hp] a E. apply HQ; [done|]. by apply Hr.
Qed.
Lemma gives_with_slot {A} tr (body : run A) Q :
  (forall tr', tr `prefix_of` tr' -> gives tr' body Q) -> (forall a tr' e, Q a tr' -> Q a (tr' ++ [e])) ->
  gives tr (with_slot body) Q.
Proof.
  intros H HQ. split; [done|]. intros t [s|l]; [|done]. apply (wp_bind event_of _ _ body).
  eapply wp_mono; [apply H; by apply prefix_app_r|]. intros [r|] tr' Hr; [|done]. split; [done|]. intros t' x a E. apply HQ, Hr.
  congruence.
Qed.
Lemma gives_with_scratch {A} tr (body : ScratchDir -> run A) Q :
  (forall d tr', tr `prefix_of` tr' -> gives tr' (body d) Q) -> (forall a tr' e, Q a tr' -> Q a (tr' ++ [e])) ->
  gives tr (with_scratch body) Q.
Proof.
  intros H HQ. split; [done|]. intros t [d|e]; [|done]. apply (wp_bind event_of _ _ (body d)).
  eapply wp_mono; [apply H; by apply prefix_app_r|]. intros [r|] tr' Hr; [|done]. split; [done|]. intros t' x a E. apply HQ, Hr.
  congruence.
Qed.
Lemma gives_instant {A} tr (f : Z -> run A) Q :
  (forall now tr', tr `prefix_of` tr' -> gives tr' (f now) Q) -> gives tr (bind (perform_op Instant) f) Q.
Proof. intros H. split; [done|]. intros t now. apply H. by apply prefix_app_r. Qed.

Lemma wp_anything {A} tr (p : @prog op resp A) : wp event_of (fun _ _ => True) tr p (fun _ _ => True).
Proof. revert tr. induction p as [a|o k IH]; intros tr; [done|]. split; [done|]. intros t x. apply IH. Qed.

Lemma gives_run_id tr bus incident :
  gives tr (run_id_of bus incident) (fun id tr' =>
    exists n row, event_id_of incident = Ok n /\ LookedUp n (Ok (Some row)) ∈ tr' /\ er_run row = Some id /\ id <> []).
Proof.
  apply gives_andthen, gives_andthen, gives_lift. intros n En. destruct (event_id_of incident) as [n'|]; [|done].
  injection En as ->. destruct (events_dir bus) as [dir|]; [|done]. apply gives_andthen. split; [done|].
  intros t x [row|] Ex; [|done]. intros a [= <-]. destruct (er_run row) as [id|] eqn:Er; [|done].
  case_bool_decide; [done|]. intros a [= <-]. exists n, row. destruct x as [v|]; [|done]. injection Ex as ->.
  split; [done|]. split; [set_solver|done].
Qed.

(** What a tool printed is in the events. *)
Definition printed (text : str) (tr : list event) : Prop := exists c, Joined c Stdout (Some text) ∈ tr.
Lemma printed_prefix text tr tr' : tr `prefix_of` tr' -> printed text tr -> printed text tr'.
Proof. intros [l ->] (c&H). exists c. set_solver. Qed.
Lemma elem_of_later {A} (x : A) l l' : l `prefix_of` l' -> x ∈ l -> x ∈ l'.
Proof. intros [k ->]. set_solver. Qed.
(** The run of the incident's event row. *)
Definition run_in_row (incident id : str) (tr : list event) : Prop :=
  exists n row, event_id_of incident = Ok n /\ LookedUp n (Ok (Some row)) ∈ tr /\ er_run row = Some id /\ id <> [].
Lemma run_in_row_prefix incident id tr tr' : tr `prefix_of` tr' -> run_in_row incident id tr -> run_in_row incident id tr'.
Proof. intros Hp (n&row&H1&H2&H3). exists n, row. eauto using elem_of_later. Qed.

Lemma gives_tool tr rounds bin args extra deadline seconds :
  gives tr (run_bounded rounds bin args extra deadline seconds) (fun out tr' => printed (stdout out) tr').
Proof.
  apply gives_andthen. split; [done|]. intros t x c _. apply gives_andthen.
  eapply (wp_mono _ _ _ _ (fun _ _ => True)); [apply wp_anything|]. intros r tr' _ code _. apply gives_andthen.
  split; [done|]. intros t1 [out|] o; [|done]. intros [= ->]. apply gives_andthen. split; [done|].
  intros t2 [err|] e; [|done]. intros _. apply gives_lift. intros f [= <-]. exists c. set_solver.
Qed.

Lemma gives_replay tr rounds bin events archive candidate timeout :
  gives tr (run_replay rounds bin events archive candidate timeout) (fun out tr' => printed (stdout out) tr').
Proof. apply gives_instant. intros now tr' _. apply gives_tool. Qed.

Definition policy_fact (incident : str) (p : PolicyProof.PolicyProof) (tr : list event) : Prop :=
  exists id text report,
    run_in_row incident id tr /\ printed text tr /\ PolicyProof.parse_report text = Ok report
    /\ p = PolicyProof.judge report id.
Definition budget_fact {DO : Dollars} (request : BudgetRequest) (p : BudgetProof.BudgetProof) (tr : list event) : Prop :=
  exists id candidate copied counted alone all count rows steps run_report trace_report,
    run_in_row (br_incident_id request) id tr
    /\ BudgetProof.from_parts (per_run_usd request) (per_step_usd request) (br_max_steps request) = Ok candidate
    /\ (printed copied tr /\ printed counted tr /\ printed alone tr /\ printed all tr)
    /\ BudgetProof.parse_copy_count copied = Some count /\ count <> 0
    /\ BudgetProof.parse_step_counts counted = Some (rows, steps) /\ rows = count
    /\ BudgetProof.parse_backtest alone (described candidate) = Ok run_report
    /\ BudgetProof.parse_backtest all (described candidate) = Ok trace_report
    /\ BudgetProof.judge_budget id candidate run_report trace_report count (steps <? rows) = Ok p.

Lemma policy_fact_snoc incident p tr e : policy_fact incident p tr -> policy_fact incident p (tr ++ [e]).
Proof.
  intros (id&text&report&H1&H2&H3). exists id, text, report.
  assert (tr `prefix_of` tr ++ [e]) as Hp by by apply prefix_app_r.
  split; [by eapply run_in_row_prefix|]. split; [by eapply printed_prefix|done].
Qed.
Lemma budget_fact_snoc {DO : Dollars} request p tr e : budget_fact request p tr -> budget_fact request p (tr ++ [e]).
Proof.
  intros (id&candidate&copied&counted&alone&all&count&rows&steps&r1&r2&H1&H2&(P1&P2&P3&P4)&H3).
  exists id, candidate, copied, counted, alone, all, count, rows, steps, r1, r2.
  assert (tr `prefix_of` tr ++ [e]) as Hp by by apply prefix_app_r.
  split; [by eapply run_in_row_prefix|]. split; [done|].
  split; [|done]. split; [|split; [|split]]; by eapply printed_prefix.
Qed.

Lemma prove_gives tr rounds config bus request timeout :
  gives tr (prove_in rounds config bus request timeout) (policy_fact (pr_incident_id request)).
Proof.
  apply gives_andthen, gives_lift. intros u _. apply gives_andthen, gives_lift. intros ar _.
  apply gives_andthen, gives_lift. intros ev _. apply gives_andthen.
  eapply gives_mono; [apply gives_run_id|]. intros id tr1 _ Hid.
  apply gives_with_slot; [|intros; by apply policy_fact_snoc]. intros tr2 P2.
  apply gives_with_scratch; [|intros; by apply policy_fact_snoc]. intros d tr3 P3.
  apply gives_andthen. eapply (gives_mono _ _ (fun _ _ => True)).
  { eapply wp_mono; [apply wp_anything|done]. }
  intros u2 tr4 P4 _. apply gives_andthen. eapply gives_mono; [apply gives_replay|]. intros out tr5 P5 Hout.
  apply gives_andthen, gives_lift. intros report Er. apply gives_lift. intros p [= <-].
  exists id, (stdout out), report. split.
  { eapply run_in_row_prefix; [|exact Hid]. by repeat (etrans; [eassumption|]). }
  split; [done|]. split; [|done]. unfold read_replay in Er. destruct (PolicyProof.parse_report _) as [r|[]]; congruence.
Qed.

Section BudgetGives.
Context {DO : Dollars}.
Lemma read_report_Ok out c r : read_report out c = Ok r -> BudgetProof.parse_backtest (stdout out) (described c) = Ok r.
Proof. unfold read_report. destruct (BudgetProof.parse_backtest _ _) as [|[]]; congruence. Qed.

Lemma prove_budget_gives tr rounds config bus request timeout :
  gives tr (prove_budget_in rounds config bus request timeout) (budget_fact request).
Proof.
  apply gives_andthen, gives_lift. intros candidate Ec. apply gives_andthen, gives_lift. intros flags _.
  apply gives_andthen, gives_lift. intros trace _. apply gives_andthen.
  eapply gives_mono; [apply gives_run_id|]. intros id tr1 _ Hid.
  apply gives_andthen, gives_lift. intros u _.
  apply gives_with_slot; [|intros; by apply budget_fact_snoc]. intros tr2 P2.
  apply gives_instant. intros started tr3 P3.
  apply gives_with_scratch; [|intros; by apply budget_fact_snoc]. intros d tr4 P4.
  apply gives_andthen, gives_lift. intros u2 _. apply gives_andthen, gives_lift. intros statement _.
  apply gives_andthen. eapply gives_mono; [apply gives_tool|]. intros copied tr5 P5 H5.
  apply gives_andthen, gives_lift. intros count Ecount. destruct (Z.eqb_spec count 0) as [|Hne]; [done|].
  apply gives_andthen. eapply gives_mono; [apply gives_tool|]. intros counted tr6 P6 H6.
  apply gives_andthen, gives_lift. intros [rows steps] Ers. cbn [fst snd].
  destruct (Z.eqb_spec rows count) as [Hrc|]; [cbn [negb]|done].
  apply gives_andthen. eapply gives_mono; [apply gives_tool|]. intros alone tr7 P7 H7.
  apply gives_andthen, gives_lift. intros run_report Er%read_report_Ok.
  apply gives_andthen. eapply gives_mono; [apply gives_tool|]. intros all tr8 P8 H8.
  apply gives_andthen, gives_lift. intros trace_report Et%read_report_Ok. apply gives_lift. intros p Ep.
  exists id, candidate, (stdout copied), (stdout counted), (stdout alone), (stdout all), count, rows, steps, run_report, trace_report.
  split; [eapply run_in_row_prefix; [|exact Hid]; by repeat (etrans; [eassumption|])|].
  split; [by destruct (BudgetProof.from_parts _ _ _); [injection Ec as ->|]|].
  assert (tr6 `prefix_of` tr8) as Q6 by by etrans. assert (tr5 `prefix_of` tr8) as Q5 by by etrans.
  split; [split; [exact (printed_prefix _ _ _ Q5 H5)|split; [exact (printed_prefix _ _ _ Q6 H6)|split; [exact (printed_prefix _ _ _ P8 H7)|done]]]|].
  split; [by destruct (BudgetProof.parse_copy_count _); [injection Ecount as ->|]|]. split; [done|].
  split; [by destruct (BudgetProof.parse_step_counts _); [injection Ers as ->|]|]. split; [done|].
  split; [done|]. split; [done|]. by destruct (BudgetProof.judge_budget _ _ _ _ _ _); [injection Ep as ->|].
Qed.
End BudgetGives.

(** An answer is what the tool printed and nothing else.  A policy proof
    that answers is the judgement, for the run the incident's event row names,
    of a report that the started replay printed and that holds together; a
    budget proof that answers is the judgement of two reports for the asked
    candidate, one over a copy of the incident's run that holds at least one
    call and as many as the copy counted, one over the whole trace. *)
Theorem answer_is_what_the_tool_printed rounds bus timeout :
  (forall config request,
     wp event_of (fun _ _ => True) [] (prove_in rounds config bus request timeout) (fun r tr =>
       forall p, r = Some (Ok p) -> policy_fact (pr_incident_id request) p tr))
  /\ (forall {DO : Dollars} config request,
     wp event_of (fun _ _ => True) [] (prove_budget_in rounds config bus request timeout) (fun r tr =>
       forall p, r = Some (Ok p) -> budget_fact request p tr)).
Proof. split; intros; [apply prove_gives|apply prove_budget_gives]. Qed.

(** ** A proof ends *)

Fixpoint play {A} (world : list event -> forall o, resp o) (tr : list event) (p : @prog op resp A) : A * list event :=
  match p with
  | Ret a => (a, tr)
  | Do o k => let x := world tr o in play world (tr ++ [event_of o 0 x]) (k x)
  end.
Lemma play_bind {A B} world tr (p : @prog op resp A) (f : A -> @prog op resp B) :
  play world tr (bind p f) = let r := play world tr p in play world r.2 (f r.1).
Proof. revert tr. induction p as [a|o k IH]; intros tr; cbn; [done|]. apply IH. Qed.

(** What was played was answered by the world. *)
Lemma played_events {A} world tr (p : @prog op resp A) e :
  e ∈ (play world tr p).2 -> e ∈ tr \/ exists tr' o, e = event_of o 0 (world tr' o).
Proof.
  revert tr. induction p as [a|o k IH]; intros tr; cbn; [auto|]. intros [H|H]%IH; [|auto].
  apply elem_of_app in H as [H| ->%list_elem_of_singleton]; eauto.
Qed.
Lemma played_wp {A} world tr (p : @prog op resp A) post :
  wp event_of (fun _ _ => True) tr p post -> post (play world tr p).1 (play world tr p).2.
Proof.
  revert tr. induction p as [a|o k IH]; intros tr; cbn; [done|]. intros [_ H]. apply IH. apply (H 0).
Qed.
(** A judgement needs what a tool printed: there is none while the pipes are
    held. *)
Lemma held_gives_nothing {A} (world : list event -> forall o, resp o) (p : run A) a (Q : A -> list event -> Prop) :
  (forall tr c, world tr (Join c Stdout) = None) -> gives [] p Q ->
  (forall tr, Q a tr -> exists c text, Joined c Stdout (Some text) ∈ tr) -> (play world [] p).1 <> Some (Ok a).
Proof.
  intros Hheld Hg HQ Ha. apply (played_wp world) in Hg. destruct (HQ _ (Hg a Ha)) as (c&text&Hin).
  apply played_events in Hin as [[]%elem_of_nil|(tr&o&E)]. destruct o; try done. injection E as <- <- E.
  rewrite Hheld in E. done.
Qed.

Section Ends.
(** A clock that never goes back and that a sleep of [ms] moves by [ms] at least. *)
Context (world : list event -> forall o, resp o) (clock : list event -> Z).
Context (Hnow : forall tr, world tr Instant = clock tr).
Context (Hforward : forall tr e, clock tr <= clock (tr ++ [e])).
Context (Hsleep : forall tr ms, clock tr + ms <= clock (tr ++ [Slept ms])).
(** A child that was killed is reaped, and the pipes of a child are closed. *)
Context (Hreap : forall tr c, Killed c ∈ tr -> world tr (Wait c) = true).
Context (Hclose : forall tr c s, world tr (Join c s) <> None).

(** From any moment at or after [t0], [p] answers, and no earlier than it began. *)
Definition ends (t0 : Z) {A} (p : run A) : Prop :=
  forall tr, t0 <= clock tr -> let r := play world tr p in r.1 <> None /\ t0 <= clock r.2.

Lemma ends_lift t0 {A} (r : result A ProofError) : ends t0 (lift r).
Proof. by split. Qed.
Lemma ends_andthen t0 {A B} (p : run A) (f : A -> run B) :
  ends t0 p -> (forall a, ends t0 (f a)) -> ends t0 (andthen p f).
Proof.
  intros Hp Hf tr Ht. unfold andthen. rewrite play_bind. destruct (Hp tr Ht) as [H1 H2].
  destruct (play world tr p) as [[[a|e]|] tr']; cbn in *; [by apply Hf|done|done].
Qed.
Lemma ends_op t0 {A} o (f : resp o -> run A) : (forall x, ends t0 (f x)) -> ends t0 (bind (perform_op o) f).
Proof. intros Hf tr Ht. cbn. apply Hf. pose proof (Hforward tr (event_of o 0 (world tr o))). lia. Qed.
Lemma ends_io t0 {A} (o : op) (f : resp o -> option (result A ProofError)) :
  (forall x, f x <> None) -> ends t0 (bind (perform_op o) (fun x => Ret (f x))).
Proof. intros Hf. apply ends_op. intros x tr Ht. split; [apply Hf|done]. Qed.
Lemma ends_scope t0 {A} (body : run A) (o : op) :
  ends t0 body -> ends t0 (bind body (fun r => match r with Some r => bind (perform_op o) (fun _ => Ret (Some r)) | None => Ret None end)).
Proof.
  intros Hb tr Ht. rewrite play_bind. destruct (Hb tr Ht) as [H1 H2].
  destruct (play world tr body) as [[r|] tr']; cbn in *; [|done]. split; [done|].
  pose proof (Hforward tr' (event_of o 0 (world tr' o))). lia.
Qed.
Lemma ends_with_slot t0 {A} (body : run A) : ends t0 body -> ends t0 (with_slot body).
Proof. intros Hb. apply ends_op. intros [s|l]; [by apply (ends_scope t0 body (Release s))|apply ends_lift]. Qed.
Lemma ends_with_scratch t0 {A} (body : ScratchDir -> run A) : (forall d, ends t0 (body d)) -> ends t0 (with_scratch body).
Proof. intros Hb. apply ends_op. intros [d|e]; [by apply (ends_scope t0 (body d) (RemoveScratch d))|apply ends_lift]. Qed.

Lemma poll_ends rounds child deadline seconds tr :
  deadline - clock tr <= 20 * (Z.of_nat rounds - 1) -> (0 < rounds)%nat ->
  let r := play world tr (poll rounds child deadline seconds) in r.1 <> None /\ clock tr <= clock r.2.
Proof.
  cbn zeta. revert tr. induction rounds as [|rounds IH]; intros tr Hd Hr; [lia|]. cbn [poll].
  rewrite play_bind. cbn. set (tr1 := tr ++ [Waited child (world tr (TryWait child))]).
  assert (clock tr <= clock tr1) as H1 by apply Hforward.
  destruct (world tr (TryWait child)) as [[code|]|e]; [by split| |by split].
  cbn. set (tr2 := tr1 ++ [Looked (world tr1 Instant)]).
  assert (clock tr1 <= clock tr2) as H2 by apply Hforward. rewrite Hnow.
  destruct (Z.leb_spec deadline (clock tr1)) as [Hle|Hlt]; cbn.
  - rewrite Hreap by set_solver. cbn. split; [done|].
    match goal with |- _ <= clock (?t ++ [?e]) => pose proof (Hforward t e) as H3 end.
    pose proof (Hforward tr2 (Killed child)). lia.
  - pose proof (Hsleep tr2 20) as H3. destruct (IH (tr2 ++ [Slept 20])) as [E1 E2]; [lia| |split; [exact E1|lia]].
    destruct rounds; [lia|lia].
Qed.

Lemma ends_text t0 child s : ends t0 (text child s).
Proof.
  intros tr Ht. cbn. pose proof (Hforward tr (Joined child s (world tr (Join child s)))).
  split; [|lia]. pose proof (Hclose tr child s). by destruct (world tr (Join child s)).
Qed.
(** Enough rounds for the time from [t0] to the deadline. *)
Lemma ends_run_bounded t0 rounds bin args extra deadline seconds :
  deadline - t0 <= 20 * (Z.of_nat rounds - 1) -> (0 < rounds)%nat ->
  ends t0 (run_bounded rounds bin args extra deadline seconds).
Proof.
  intros Hd Hr. apply ends_andthen; [by apply ends_io|]. intros child. apply ends_andthen.
  - intros tr Ht. destruct (poll_ends rounds child deadline seconds tr) as [H1 H2]; [lia|done|]. split; [done|]. cbn in H2. lia.
  - intros code. apply ends_andthen; [apply ends_text|]. intros out.
    apply ends_andthen; [apply ends_text|]. intros err. apply ends_lift.
Qed.
Lemma ends_run_id t0 bus incident : ends t0 (run_id_of bus incident).
Proof.
  apply ends_andthen.
  - apply ends_andthen; [apply ends_lift|]. intros n. destruct (events_dir bus); [|apply ends_lift].
    apply ends_andthen; [by apply ends_io|]. intros [row|]; apply ends_lift.
  - intros row. destruct (er_run row); [case_bool_decide|]; apply ends_lift.
Qed.

Definition enough (rounds : nat) (timeout : Z) : Prop := 0 <= timeout /\ 50 * timeout + 1 <= Z.of_nat rounds.

(** What starts at some moment ends when it ends from that moment on. *)
Lemma ends_from_now t0 {A} (f : Z -> run A) :
  (forall now, t0 <= now -> ends now (f now)) -> ends t0 (bind (perform_op Instant) f).
Proof.
  intros Hf tr Ht. cbn. rewrite Hnow. pose proof (Hforward tr (Looked (clock tr))) as H1.
  destruct (Hf (clock tr) Ht (tr ++ [Looked (clock tr)]) H1) as [H2 H3]. split; [done|]. cbn in H3. lia.
Qed.
Lemma prove_ends rounds config bus request timeout :
  enough rounds timeout -> ends (clock []) (prove_in rounds config bus request timeout).
Proof.
  intros [Ht Hr]. apply ends_andthen; [apply ends_lift|]. intros _. apply ends_andthen; [apply ends_lift|]. intros ar.
  apply ends_andthen; [apply ends_lift|]. intros ev. apply ends_andthen; [apply ends_run_id|]. intros id.
  apply ends_with_slot, ends_with_scratch. intros d. apply ends_andthen; [by apply ends_io|]. intros _.
  apply ends_andthen; [|intros out; apply ends_andthen; [apply ends_lift|intros report; apply ends_lift]].
  apply ends_from_now. intros now Hn. apply ends_run_bounded; lia.
Qed.
Lemma prove_budget_ends {DO : Dollars} rounds config bus request timeout :
  enough rounds timeout -> ends (clock []) (prove_budget_in rounds config bus request timeout).
Proof.
  intros [Ht Hr]. apply ends_andthen; [apply ends_lift|]. intros candidate. apply ends_andthen; [apply ends_lift|]. intros flags.
  apply ends_andthen; [apply ends_lift|]. intros trace. apply ends_andthen; [apply ends_run_id|]. intros id.
  apply ends_andthen; [apply ends_lift|]. intros _.
  apply ends_with_slot, ends_from_now. intros started Hs. apply ends_with_scratch. intros d.
  assert (forall args data, ends started (tokenfuse rounds config args data started timeout)) as Htool.
  { intros args data. apply ends_run_bounded; unfold deadline_of; lia. }
  apply ends_andthen; [apply ends_lift|]. intros _. apply ends_andthen; [apply ends_lift|]. intros statement.
  apply ends_andthen; [apply Htool|]. intros copied. apply ends_andthen; [apply ends_lift|]. intros count.
  destruct (count =? 0); [apply ends_lift|]. apply ends_andthen; [apply Htool|]. intros counted.
  apply ends_andthen; [apply ends_lift|]. intros rs. destruct (negb _); [apply ends_lift|].
  apply ends_andthen; [apply Htool|]. intros alone. apply ends_andthen; [apply ends_lift|]. intros r1.
  apply ends_andthen; [apply Htool|]. intros all. apply ends_andthen; [apply ends_lift|]. intros r2. apply ends_lift.
Qed.
End Ends.

(** C36: A proof whose waits are over answers.  On a machine where a child that
    was killed is reaped and the pipes of a child that ended are closed, on any
    clock that never goes back and that a sleep moves, a proof answers whatever
    the tools do, run for ever included: fifty rounds of the waiting loop for
    each second of the deadline and one more are enough, for a policy proof's
    one child and for a budget proof's four together.  Where the output of every
    tool is held open by another process, no proof ever gives a judgement. *)
Theorem proof_answers_when_its_pipes_close (world : list event -> forall o, resp o) rounds bus timeout :
  (forall clock,
     (forall tr, world tr Instant = clock tr) -> (forall tr e, clock tr <= clock (tr ++ [e])) ->
     (forall tr ms, clock tr + ms <= clock (tr ++ [Slept ms])) ->
     (forall tr c, Killed c ∈ tr -> world tr (Wait c) = true) -> (forall tr c s, world tr (Join c s) <> None) ->
     enough rounds timeout ->
     (forall config request, (play world [] (prove_in rounds config bus request timeout)).1 <> None)
     /\ (forall {DO : Dollars} config request, (play world [] (prove_budget_in rounds config bus request timeout)).1 <> None))
  /\ ((forall tr c, world tr (Join c Stdout) = None) ->
     (forall config request p, (play world [] (prove_in rounds config bus request timeout)).1 <> Some (Ok p))
     /\ (forall {DO : Dollars} config request p, (play world [] (prove_budget_in rounds config bus request timeout)).1 <> Some (Ok p))).
Proof.
  split.
  - intros clock H1 H2 H3 H4 H5 He. split; intros; [eapply prove_ends|eapply prove_budget_ends]; eauto; lia.
  - intros Hheld. split; intros.
    + eapply held_gives_nothing; [exact Hheld|apply prove_gives|]. intros tr (id&text&report&_&[c Hc]&_). eauto.
    + eapply held_gives_nothing; [exact Hheld|apply prove_budget_gives|].
      intros tr (id&cand&copied&counted&alone&all&count&rows&steps&r1&r2&_&_&([c Hc]&_)&_). eauto.
Qed.

(** ** A concrete instance: a tool that never ends *)

Definition slept (tr : list event) : Z := fold_right (fun e n => match e with Slept ms => Z.max 0 ms + n | _ => n end) 0 tr.
Definition stuck (code : result (option (option Z)) str) (tr : list event) (o : op) : resp o :=
  match o with
  | Lookup _ => Ok (Some (mkEventRow #"policy_deny" (Some #"run-1")))
  | Acquire => Ok 0%nat
  | Release _ | RemoveScratch _ | Kill _ | Sleep _ => tt
  | MakeScratch => Ok (mkScratchDir #"/tmp/genaryx-proof-1" true)
  | WriteFile _ _ => Ok tt
  | Spawn _ _ _ => Ok 7%nat
  | TryWait _ => code
  | Instant => slept tr
  | Wait _ => true
  | Join _ _ => Some []
  end.
Definition demo_bus : AppState := mkApp (Some #"/data") (Some #"/events").
Definition demo_config : ProofConfig := config_from_env (Some #" /archive ") demo_bus.
Definition demo_request : ProofRequest := mkProofRequest #"bus:12" #"rules: []".

Lemma slept_snoc tr e : slept (tr ++ [e]) = slept tr + slept [e].
Proof.
  induction tr as [|x tr IH]; [done|]. cbn [slept fold_right app] in *. unfold slept in *. cbn [fold_right app].
  destruct x; rewrite ?IH; lia.
Qed.
Lemma stuck_forward tr e : slept tr <= slept (tr ++ [e]).
Proof. rewrite slept_snoc. unfold slept at 3. cbn. destruct e; lia. Qed.
Lemma stuck_sleeps tr ms : slept tr + ms <= slept (tr ++ [Slept ms]).
Proof. rewrite slept_snoc. unfold slept at 3. cbn. lia. Qed.

(** A tool that ends at once, and another process holds its output open. *)
Definition held (tr : list event) (o : op) : resp o :=
  match o with
  | TryWait _ => Ok (Some (Some 0))
  | Join _ _ => None
  | o => stuck (Ok None) tr o
  end.
Definition demo_judgement : PolicyProof.PolicyProof := PolicyProof.judge PolicyProof.demo_report #"run-1".

Example demo_timeout :
  (play (stuck (Ok None)) [] (prove_in 1501 demo_config demo_bus demo_request REPLAY_TIMEOUT)).1 = Some (Err (Timeout 30)).
Proof. by vm_compute. Qed.
Example demo_enough : enough 1501 REPLAY_TIMEOUT.
Proof. split; [done|]. by vm_compute. Qed.
Lemma proof_answers_when_its_pipes_close_witness :
  (play (stuck (Ok None)) [] (prove_in 1501 demo_config demo_bus demo_request REPLAY_TIMEOUT)).1 <> None
  /\ forall rounds, (play held [] (prove_in rounds demo_config demo_bus demo_request REPLAY_TIMEOUT)).1
                     <> Some (Ok demo_judgement).
Proof.
  split.
  - exact (proj1 (proj1 (proof_answers_when_its_pipes_close (stuck (Ok None)) 1501 demo_bus REPLAY_TIMEOUT) slept
      (fun _ => eq_refl) stuck_forward stuck_sleeps (fun _ _ _ => eq_refl) (fun _ _ _ => ltac:(done)) demo_enough)
      demo_config demo_request).
  - intros rounds. exact (proj1 (proj2 (proof_answers_when_its_pipes_close held rounds demo_bus REPLAY_TIMEOUT)
      (fun _ _ => eq_refl)) demo_config demo_request demo_judgement).
Defined.

(** A tool that ended and left a process with its output open is waited for past
    the deadline, and the slot is not given back. *)
Example held_pipe_is_waited_for rounds :
  let r := play held [] (prove_in (S rounds) demo_config demo_bus demo_request REPLAY_TIMEOUT) in
  r.1 = None /\ last r.2 = Some (Joined 7 Stdout None)
  /\ forallb (fun e => match e with ReleasedSlot _ | Killed _ | Slept _ => false | _ => true end) r.2 = true.
Proof. by vm_compute. Qed.

(** A child the system could not report on is left running: the slot is given
    back and nothing ends the child. *)
Example unreported_child_is_left_running :
  let r := play (stuck (Err #"no child")) [] (prove_in 3 demo_config demo_bus demo_request REPLAY_TIMEOUT) in
  r.1 = Some (Err (SpawnFailed (bounded #"no child"))) /\ last r.2 = Some (ReleasedSlot 0) /\ Killed 7 ∉ r.2.
Proof.
  cbn zeta. split; [by vm_compute|]. split; [by vm_compute|].
  assert (existsb (fun e => match e with Killed _ => true | _ => false end)
            (play (stuck (Err #"no child")) [] (prove_in 3 demo_config demo_bus demo_request REPLAY_TIMEOUT)).2 = false) as H by by vm_compute.
  intros Hin. apply not_true_iff_false in H. apply H. apply existsb_exists. exists (Killed 7). split; [by apply list_elem_of_In|done].
Qed.
