(* ===== verification/Remedy.v ===== *)
(** * Remedy: what may be done about an incident
    ([crates/api/src/remedy/mod.rs], [remedy/commands.rs])

    An incident's event type gives its class, a class the kinds of remedy
    offered for it; a remedy is checked, proved where a proof exists
    ([ProofRun]) and routed to the console command that applies it, which
    nothing here runs. *)
From S2P Require Import Prelude Text Json Roles Case Prog Command Effects Cloud Delegation.
From S2P Require PolicyProof BudgetProof.
From S2P Require Import ProofRun.

Definition NO_HISTORY_REPLAYS_AN_ACT : str :=
  #"a stop or a revocation is an act on one subject; no recorded history replays one, so it is unproven".
Definition IDENTITY_IS_FILED_UNDER_THE_KEY : str :=
  #"a refusal is filed under the key that made the call; stopping or revoking the agent it claimed would charge it with an attempt it did not make".
Definition NOT_CLASSIFIED : str :=
  #"the console does not know this type of incident, so it offers no remedy for it".

Inductive IncidentClass : Type :=
| CSpend | CLoop | CPolicy | CApproval | CData | CIdentity | CQuality | Unclassified.
#[export] Instance IncidentClass_eq_dec : EqDecision IncidentClass.
Proof. solve_decision. Defined.

Record Entry : Type := entry { en_type : str; en_class : IncidentClass; en_scenario : option str }.
Definition RUNAWAY : str := #"runaway-budget.yaml".
Definition DENIED_TOOL : str := #"wardryx-denied-tool.yaml".
Definition APPROVAL : str := #"approval-required.yaml".
Definition PII : str := #"pii-in-prompt.yaml".
Definition SECRET : str := #"dlp-secret-leak.yaml".
Definition TABLE : list Entry :=
  [ entry #"budget_exhausted" CSpend (Some RUNAWAY);
    entry #"budget_exceeded" CSpend (Some RUNAWAY);
    entry #"budget_threshold" CSpend (Some RUNAWAY);
    entry #"loop_detected" CLoop (Some RUNAWAY);
    entry #"policy_deny" CPolicy (Some DENIED_TOOL);
    entry #"policy_hold" CApproval (Some APPROVAL);
    entry #"approval_requested" CApproval (Some APPROVAL);
    entry #"approval_unanswered" CApproval (Some APPROVAL);
    entry #"approval_denied" CApproval (Some APPROVAL);
    entry #"dlp_pii" CData (Some PII);
    entry #"dlp_shadow" CData (Some PII);
    entry #"dlp_block" CData (Some SECRET);
    entry #"identity_mismatch" CIdentity None;
    entry #"quality_drift" CQuality None ].
Definition classify (event_type : str) : IncidentClass * option str :=
  match find (fun e => str_eqb (en_type e) event_type) TABLE with
  | Some e => (en_class e, en_scenario e)
  | None => (Unclassified, None)
  end.

Inductive RemedyKind : Type := KPolicyCandidate | KBudgetLimit | KStopAgent | KRevokeDelegation.
#[export] Instance RemedyKind_eq_dec : EqDecision RemedyKind.
Proof. solve_decision. Defined.
Definition offered (class : IncidentClass) : list RemedyKind :=
  match class with
  | CSpend | CLoop => [KBudgetLimit; KStopAgent]
  | CPolicy | CApproval | CData => [KPolicyCandidate; KStopAgent]
  | CQuality => [KStopAgent]
  | CIdentity | Unclassified => []
  end.
Definition why_none (class : IncidentClass) : option str :=
  match class with
  | CIdentity => Some IDENTITY_IS_FILED_UNDER_THE_KEY
  | Unclassified => Some NOT_CLASSIFIED
  | _ => None
  end.

Inductive Remedy : Type :=
| PolicyCandidate (candidate : str)
| BudgetLimit (per_run per_step : option str) (steps : option Z)
| StopAgent (subject : str)
| RevokeDelegation (subject : str).
Inductive ApplyRoute : Type :=
| RouteCommand (command : str) (arguments : value) (person_supplies : list str)
| Outside (at_ : str).
Definition ROUTED_COMMANDS : list str := [ #"agent_stop"; #"delegation_revoke"].

Definition kind (r : Remedy) : RemedyKind :=
  match r with
  | PolicyCandidate _ => KPolicyCandidate
  | BudgetLimit _ _ _ => KBudgetLimit
  | StopAgent _ => KStopAgent
  | RevokeDelegation _ => KRevokeDelegation
  end.
Definition is_user_id (s : str) : bool :=
  match strip_prefix #"user://" s with
  | Some rest =>
      negb (bool_decide (rest = []))
      && forallb (fun b => ascii_graphic b && negb (b =? 92) && negb (b =? 34)) (str_bytes rest)
  | None => false
  end.
Definition check (r : Remedy) : result unit str :=
  match r with
  | PolicyCandidate candidate =>
      match check_candidate candidate with
      | Err (CandidateRefused reason) => Err reason
      | _ => Ok tt
      end
  | BudgetLimit per_run per_step steps => let? _ := BudgetProof.from_parts per_run per_step steps in Ok tt
  | StopAgent subject => if is_agent_id subject then Ok tt else Err #"an agent to stop is named by its agent:// id"
  | RevokeDelegation subject =>
      if is_agent_id subject || is_user_id subject then Ok tt
      else Err #"a delegation to revoke is named by an agent:// or user:// id"
  end.
Definition route (r : Remedy) : ApplyRoute :=
  match r with
  | PolicyCandidate _ =>
      Outside #"the policy plane: this console decides approvals and writes block policies, and has no command that loads a policy"
  | BudgetLimit _ _ _ =>
      Outside #"the gateway's own configuration: this console sets one run's budget and a unit's month cap, and has no command that sets a limit for every run"
  | StopAgent subject => RouteCommand #"agent_stop" (obj [(#"subject", VStr subject)]) [ #"reason"]
  | RevokeDelegation subject => RouteCommand #"delegation_revoke" (obj [(#"subject", VStr subject)]) [ #"reason"]
  end.

(** ** The check of one remedy against one incident ([commands.rs]) *)

Record RemedyRequest : Type := mkRemedyRequest { rr_incident_id : str; remedy : Remedy }.
Inductive RemedyError : Type := RemedyRefused (reason : str) | NoIncident (reason : str).
Inductive ProofOutcome : Type :=
| PolicyMade (p : PolicyProof.PolicyProof)
| BudgetMade (p : BudgetProof.BudgetProof)
| Unproven (reason : str)
| ProofFailed (e : ProofError).
Record DrillSuggestion : Type := mkDrill { scenario : str; in_scenario_dir : option bool }.
Record RemedyCheck : Type := mkRemedyCheck
  { rc_incident_id : str; rc_event_type : Data; rc_class : IncidentClass; rc_offered : list RemedyKind;
    rc_why_none : option str; rc_remedy : Remedy; fits_class : bool; rc_proof : ProofOutcome;
    drill : option DrillSuggestion; apply_route : ApplyRoute }.

Section Check.
Context {DO : Dollars}.
(** [{:?}] of an error that is not about the incident, and [Path::is_file]. *)
Context (debug_error : ProofError -> str) (is_file : str -> bool).

Definition incident_error (e : ProofError) : RemedyError :=
  match e with
  | IncidentError reason => NoIncident reason
  | other => NoIncident (debug_error other)
  end.
Definition drill_for (sc dir : option str) : option DrillSuggestion :=
  option_map (fun sc => mkDrill sc (option_map (fun d => is_file (join_path d sc)) dir)) sc.

Definition outcome_of_run {A} (made : A -> ProofOutcome) (r : option (result A ProofError)) : option ProofOutcome :=
  match r with
  | Some (Ok p) => Some (made p)
  | Some (Err e) => Some (ProofFailed e)
  | None => None
  end.
Definition prove (rounds : nat) (policy : ProofConfig) (budget : BudgetConfig) (request : RemedyRequest) (bus : AppState)
  : @prog op resp (option ProofOutcome) :=
  match remedy request with
  | PolicyCandidate candidate =>
      bind (prove_in rounds policy bus (mkProofRequest (rr_incident_id request) candidate) REPLAY_TIMEOUT)
        (fun r => Ret (outcome_of_run PolicyMade r))
  | BudgetLimit per_run per_step steps =>
      bind (prove_budget_in rounds budget bus (mkBudgetRequest (rr_incident_id request) per_run per_step steps) BUDGET_TIMEOUT)
        (fun r => Ret (outcome_of_run BudgetMade r))
  | StopAgent _ | RevokeDelegation _ => Ret (Some (Unproven NO_HISTORY_REPLAYS_AN_ACT))
  end.

Definition remedy_check_in (rounds : nat) (policy : ProofConfig) (budget : BudgetConfig) (request : RemedyRequest)
  (bus : AppState) (scenario_dir : option str) : @prog op resp (option (result RemedyCheck RemedyError)) :=
  match check (remedy request) with
  | Err reason => Ret (Some (Err (RemedyRefused reason)))
  | Ok _ =>
      bind (event_row_of bus (rr_incident_id request)) (fun row =>
      match row with
      | None => Ret None
      | Some (Err e) => Ret (Some (Err (incident_error e)))
      | Some (Ok row) =>
          let (class, sc) := classify (er_type row) in
          let fits := bool_decide (kind (remedy request) ∈ offered class) in
          bind (prove rounds policy budget request bus) (fun p =>
          match p with
          | None => Ret None
          | Some proof =>
              Ret (Some (Ok (mkRemedyCheck (rr_incident_id request) (bounded (er_type row)) class (offered class)
                               (why_none class) (remedy request) fits proof (drill_for sc scenario_dir) (route (remedy request)))))
          end)
      end)
  end.
End Check.

(** ** Properties *)

(** A remedy that is routed to a command is one that command takes.  When
    a checked remedy names a console command, the console has that command,
    only an administrator runs it and only with a fresh ceremony; the person
    adds a reason and nothing else; and with any reason the command accepts,
    the filled-in subject passes the command's own validation unchanged. *)
Theorem routed_remedy_is_taken r command arguments supplies :
  check r = Ok tt -> route r = RouteCommand command arguments supplies ->
  requires_ceremony command = true /\ required_role command = Admin /\ gate_of command <> None /\ supplies = [ #"reason"]
  /\ exists subject, arguments = obj [(#"subject", VStr subject)]
     /\ forall reason said, checked_reason reason = Ok said ->
          (command = #"agent_stop" /\ validate subject reason = Ok (subject, said))
          \/ (command = #"delegation_revoke" /\ validate_args (Some subject) None reason = Ok (Subject subject, said)).
Proof.
  intros Hc Hr. destruct r as [c|a b n|subject|subject]; try done; cbn [route check] in *.
  - assert (command = #"agent_stop" /\ arguments = obj [(#"subject", VStr subject)] /\ supplies = [ #"reason"]) as (->&->&->)
      by (split; [|split]; congruence).
    split; [by vm_compute|]. split; [by vm_compute|]. split; [by vm_compute|]. split; [done|]. exists subject.
    split; [done|]. intros reason said Hs. left. split; [done|].
    destruct (is_agent_id subject) eqn:E; [|done]. unfold validate. rewrite E. cbn [negb]. by rewrite Hs.
  - assert (command = #"delegation_revoke" /\ arguments = obj [(#"subject", VStr subject)] /\ supplies = [ #"reason"]) as (->&->&->)
      by (split; [|split]; congruence).
    split; [by vm_compute|]. split; [by vm_compute|]. split; [by vm_compute|]. split; [done|]. exists subject.
    split; [done|]. intros reason said Hs. right. split; [done|].
    assert (starts_with #"agent://" subject || starts_with #"user://" subject = true) as E.
    { destruct (is_agent_id subject || is_user_id subject) eqn:E; [|done]. unfold is_agent_id, is_user_id, starts_with in *.
      destruct (strip_prefix #"agent://" subject); [done|]. by destruct (strip_prefix #"user://" subject). }
    unfold validate_args. rewrite E. cbn [negb rbind]. by rewrite Hs.
Qed.

(** What an event type is offered. *)
Lemma classify_iff t :
  offered (classify t).1 = [] <-> (t = #"identity_mismatch" \/ t ∉ map en_type TABLE).
Proof.
  unfold classify. destruct (find _ TABLE) as [e|] eqn:E; cbn [fst].
  - apply List.find_some in E as [Hin Ht]. apply str_eqb_eq in Ht as <-. 
    assert (en_type e ∈ map en_type TABLE) as Hm by by apply list_elem_of_fmap_2, list_elem_of_In.
    assert (forallb (fun e => bool_decide (offered (en_class e) = [] <-> en_type e = #"identity_mismatch")) TABLE = true) as Hall by by vm_compute.
    rewrite forallb_forall in Hall. specialize (Hall e Hin). apply bool_decide_eq_true in Hall. rewrite Hall. tauto.
  - split; [|done]. intros _. right. intros Hin. apply list_elem_of_fmap in Hin as (e&->&He).
    apply list_elem_of_In in He. eapply List.find_none in E; [|exact He]. cbn in E. by rewrite str_eqb_refl in E.
Qed.

Section Checked.
Context {DO : Dollars}.
Context (debug_error : ProofError -> str) (is_file : str -> bool).

Lemma gives_event_row tr bus incident :
  gives tr (event_row_of bus incident) (fun row tr' =>
    exists n, event_id_of incident = Ok n /\ LookedUp n (Ok (Some row)) ∈ tr').
Proof.
  apply gives_andthen, gives_lift. intros n En. destruct (event_id_of incident) as [n'|]; [|done].
  injection En as ->. destruct (events_dir bus) as [dir|]; [|done]. apply gives_andthen. split; [done|].
  intros t x [row|] Ex; [|done]. intros a [= <-]. exists n. destruct x as [v|]; [|done]. injection Ex as ->.
  split; [done|]. set_solver.
Qed.

(** What the proof in a check is, for each kind of remedy. *)
Definition proof_fits (request : RemedyRequest) (p : ProofOutcome) (tr : list ProofRun.event) : Prop :=
  match remedy request, p with
  | StopAgent _, Unproven why | RevokeDelegation _, Unproven why => why = NO_HISTORY_REPLAYS_AN_ACT
  | PolicyCandidate _, PolicyMade p => policy_fact (rr_incident_id request) p tr
  | BudgetLimit a b n, BudgetMade p => budget_fact (mkBudgetRequest (rr_incident_id request) a b n) p tr
  | PolicyCandidate _, ProofFailed _ | BudgetLimit _ _ _, ProofFailed _ => True
  | _, _ => False
  end.

Lemma prove_fits tr rounds policy budget request bus :
  wp ProofRun.event_of (fun _ _ => True) tr (prove rounds policy budget request bus) (fun r tr' =>
    forall p, r = Some p -> proof_fits request p tr').
Proof.
  unfold prove, proof_fits. destruct (remedy request) as [c|a b n|s|s].
  - apply wp_bind. eapply wp_mono; [apply prove_gives|]. intros [[q|e]|] tr' H p E; cbn in E; simplify_eq; [by apply H|done].
  - apply wp_bind. eapply wp_mono; [apply prove_budget_gives|]. intros [[q|e]|] tr' H p E; cbn in E; simplify_eq; [by apply H|done].
  - by intros p [= <-].
  - by intros p [= <-].
Qed.

(** A check says what it found.  A remedy that is not well formed is
    refused before anything is read, proved or started.  An answer is about
    the incident's own event row: its class is the row's, a remedy fits when
    its kind is offered for the class, a class is offered nothing exactly when
    the answer says why, the route is the remedy's, a stop or a revocation is
    called unproven, and a proof in the answer is of what the tool printed. *)
Theorem remedy_check_says_what_it_found rounds policy budget request bus scenario_dir :
  wp ProofRun.event_of (fun _ _ => True) [] (remedy_check_in debug_error is_file rounds policy budget request bus scenario_dir) (fun r tr =>
    (forall reason, check (remedy request) = Err reason -> r = Some (Err (RemedyRefused reason)) /\ tr = [])
    /\ forall c, r = Some (Ok c) ->
         check (remedy request) = Ok tt /\ rc_remedy c = remedy request /\ apply_route c = route (remedy request)
         /\ (exists n row, event_id_of (rr_incident_id request) = Ok n /\ LookedUp n (Ok (Some row)) ∈ tr
               /\ rc_class c = (classify (er_type row)).1)
         /\ rc_offered c = offered (rc_class c) /\ (fits_class c = true <-> kind (remedy request) ∈ rc_offered c)
         /\ (rc_offered c = [] <-> rc_why_none c <> None)
         /\ proof_fits request (rc_proof c) tr).
Proof.
  unfold remedy_check_in. destruct (check (remedy request)) as [[]|reason] eqn:Ec.
  - apply wp_bind. eapply wp_mono; [apply gives_event_row|]. intros [[row|e]|] tr1 Hrow; [|by split|by split].
    destruct (Hrow row eq_refl) as (n&En&Hin). destruct (classify (er_type row)) as [class sc] eqn:Ecl.
    apply wp_bind. eapply wp_mono; [by apply wp_extends, prove_fits|]. intros [proof|] tr2 [Hp Hpre]; [|by split].
    split; [done|]. intros c [= <-]. cbn. split; [done|]. split; [done|]. split; [done|]. split.
    { exists n, row. rewrite Ecl. eauto using elem_of_later. }
    split; [done|]. split; [apply bool_decide_eq_true|]. split; [by destruct class|]. by apply Hp.
  - split; [|done]. intros r [= ->]. done.
Qed.
End Checked.

(** ** A concrete instance *)
Definition demo_remedy : Remedy := RevokeDelegation #"user://acme.example/ann".
Lemma routed_remedy_is_taken_witness :
  requires_ceremony #"delegation_revoke" = true.
Proof. exact (proj1 (routed_remedy_is_taken demo_remedy #"delegation_revoke" _ _ eq_refl eq_refl)). Defined.
(** A revocation is never one of the kinds offered. *)
Example revocation_is_offered_for_no_class class : KRevokeDelegation ∉ offered class.
Proof. destruct class; cbn; set_solver. Qed.
