(* ===== verification/Bench.v ===== *)
(** * Bench: scoring an analyst's answers ([crates/api/src/bench/mod.rs])

    Which cause an answer names, whether a packet gives the cause away, and
    what a set of scores adds up to. *)
From S2P Require Import Prelude Text Unicode.

Definition WITHHELD_PREFIX : str := #"No root-cause chain is given".

Inductive Cause : Type := RetryLoop | DeniedTool | UnknownKey.
#[export] Instance Cause_eq_dec : EqDecision Cause.
Proof. solve_decision. Defined.
Definition CAUSES : list Cause := [RetryLoop; DeniedTool; UnknownKey].
Inductive RemedyFor : Type := ForBudget | ForPolicy.

Definition cause_label (c : Cause) : str :=
  match c with RetryLoop => #"retry_loop" | DeniedTool => #"denied_tool" | UnknownKey => #"unknown_key" end.
Definition groups (c : Cause) : list (list str) :=
  match c with
  | RetryLoop => [[ #"retry"; #"loop"]; [ #"repeat"; #"same tool"]; [ #"loop"]]
  | DeniedTool => [[ #"denied"; #"tool"]; [ #"denies"; #"tool"]; [ #"policy"; #"denied"]]
  | UnknownKey => [[ #"unknown"; #"key"]; [ #"key"; #"not held"]; [ #"does not hold"; #"key"]]
  end.
Definition giveaways (c : Cause) : list str :=
  match c with
  | RetryLoop => [ #"retry_loop"; #"retry"; #"loop"]
  | DeniedTool => [ #"denied_tool"; #"denied tool"]
  | UnknownKey => [ #"unknown_key"; #"unknown key"]
  end.
Definition remedy (c : Cause) : option RemedyFor :=
  match c with RetryLoop => Some ForBudget | DeniedTool => Some ForPolicy | UnknownKey => None end.

Inductive Named : Type := NamedCause (c : Cause) | NamedNothing | NamedSeveral.
#[export] Instance Named_eq_dec : EqDecision Named.
Proof. solve_decision. Defined.

Record CaseScore : Type := mkScore
  { case : str; truth : Cause; named : Named; s_cause_right : bool; s_ids_exist : bool; remedy_stops : option bool }.
Record Totals : Type := mkTotals
  { cases : nat; t_cause_right : nat; t_ids_exist : nat; remedy_applicable : nat; t_remedy_stops : nat }.

Section Bench.
Context {U : Unicode}.

Definition sentence_break (c : Z) : bool := existsb (Z.eqb c) [46; 10; 59; 33; 63].
Definition sentences (text : str) : list str := split_by sentence_break (to_lowercase text).
(** A sentence that holds every word of some one group. *)
Definition names_cause (text : str) (c : Cause) : bool :=
  existsb (fun group => existsb (fun sentence => forallb (fun word => contains word sentence) group) (sentences text)) (groups c).
Definition named_cause (text : str) : Named :=
  match List.filter (names_cause text) CAUSES with
  | [] => NamedNothing
  | [one] => NamedCause one
  | _ => NamedSeveral
  end.
Definition gives_away (packet : str) (c : Cause) : option str :=
  find (fun w => contains w (to_lowercase packet)) (giveaways c).
Definition cause_right (n : Named) (truth : Cause) : bool := bool_decide (n = NamedCause truth).
Definition ids_exist (unsupported : list str) (text : str) : bool :=
  bool_decide (unsupported = []) && negb (starts_with WITHHELD_PREFIX text).

Definition tally (scores : list CaseScore) : Totals :=
  let count p := length (List.filter p scores) in
  mkTotals (length scores) (count s_cause_right) (count s_ids_exist)
    (count (fun s => match remedy_stops s with Some _ => true | None => false end))
    (count (fun s => match remedy_stops s with Some true => true | _ => false end)).

(** *** The report *)
Definition mark (pass : bool) : str := if pass then #"yes" else #"NO".
(** [{:<n}]: padded on the right to [n] characters. *)
Definition pad (n : nat) (s : str) : str := s ++ replicate (n - length s) 32.
Definition render_row (s : CaseScore) : str :=
  let named := match named s with
               | NamedCause c => cause_label c
               | NamedNothing => #"(nothing)"
               | NamedSeveral => #"(several)"
               end in
  let remedy := match remedy_stops s with Some stops => mark stops | None => #"n/a" end in
  pad 20 (case s) ++ #" " ++ pad 12 (cause_label (truth s)) ++ #" " ++ pad 12 named ++ #" " ++ pad 6 (mark (s_cause_right s))
  ++ #" " ++ pad 4 (mark (s_ids_exist s)) ++ #" " ++ remedy ++ [10].
Definition count_text (n : nat) : str := dec (Z.of_nat n).
Definition render (scores : list CaseScore) : str :=
  let t := tally scores in
  #"case                 truth        named        cause  ids  remedy" ++ [10] ++ flat_map render_row scores
  ++ #"named the cause right: " ++ count_text (t_cause_right t) ++ #" of " ++ count_text (cases t)
  ++ #"; every cited id exists: " ++ count_text (t_ids_exist t) ++ #" of " ++ count_text (cases t)
  ++ #"; the remedy stops the replay: " ++ count_text (t_remedy_stops t) ++ #" of " ++ count_text (remedy_applicable t) ++ [10].

(** ** Properties *)

(** The text holds, in one sentence, all the words of one of the cause's groups. *)
Definition says (text : str) (c : Cause) : Prop :=
  exists group sentence, group ∈ groups c /\ sentence ∈ sentences text /\ forall w, w ∈ group -> contains w sentence = true.

Lemma names_cause_iff text c : names_cause text c = true <-> says text c.
Proof.
  unfold names_cause, says. rewrite existsb_exists. split.
  - intros (g&Hg&Hs). apply existsb_exists in Hs as (s&Hs&Hall). exists g, s.
    rewrite !list_elem_of_In. split; [done|]. split; [done|]. rewrite forallb_forall in Hall.
    intros w Hw. apply Hall. by apply list_elem_of_In.
  - intros (g&s&Hg&Hs&Hall). exists g. split; [by apply list_elem_of_In|]. apply existsb_exists. exists s.
    split; [by apply list_elem_of_In|]. apply forallb_forall. intros w Hw. apply Hall. by apply list_elem_of_In.
Qed.

(** An answer is right about the cause exactly when it says the true cause
    and says no other: naming two is naming none. *)
Theorem cause_is_right_iff text truth :
  cause_right (named_cause text) truth = true <-> says text truth /\ forall c, says text c -> c = truth.
Proof.
  unfold cause_right, named_cause, CAUSES. rewrite bool_decide_eq_true. setoid_rewrite <- names_cause_iff. cbn [List.filter].
  destruct (names_cause text RetryLoop) eqn:E1, (names_cause text DeniedTool) eqn:E2, (names_cause text UnknownKey) eqn:E3;
    (split; [intros H; first [discriminate H|injection H as <-; split; [done|intros []; congruence]]|
             intros [Ht Hc]; pose proof (Hc RetryLoop); pose proof (Hc DeniedTool); pose proof (Hc UnknownKey);
             destruct truth; try congruence; exfalso; intuition congruence]).
Qed.

Lemma count_le {A} (p q : A -> bool) l :
  (forall x, p x = true -> q x = true) -> (length (List.filter p l) <= length (List.filter q l))%nat.
Proof.
  intros H. induction l as [|x l IH]; cbn; [done|]. destruct (p x) eqn:Ep; [rewrite (H x Ep); cbn; lia|].
  destruct (q x); cbn; lia.
Qed.
Theorem totals_are_within scores :
  let t := tally scores in
  (t_cause_right t <= cases t)%nat /\ (t_ids_exist t <= cases t)%nat /\ (t_remedy_stops t <= remedy_applicable t)%nat
  /\ (remedy_applicable t <= cases t)%nat.
Proof.
  cbn. split; [|split; [|split]]; try (apply List.filter_length_le).
  apply count_le. intros s. by destruct (remedy_stops s).
Qed.
End Bench.

(** A packet that hides every giveaway word of a cause can still be read as
    naming it. *)
#[local] Existing Instance ascii_tables.
Example named_without_a_giveaway :
  named_cause #"The run will repeat the same tool call." = NamedCause RetryLoop
  /\ gives_away #"The run will repeat the same tool call." RetryLoop = None.
Proof. split; by vm_compute. Qed.
