(* ===== verification/Double.v ===== *)
(** * Double: binary64 arithmetic

    The doubles of the Standard Library's executable IEEE model, and Rust's
    conversions to and from them: [as f64], [f64::round], [as i64],
    [f64::max].  A double of a JSON value is carried as its shortest decimal
    digits; [of_dec] is the double those digits read back as. *)
From Stdlib Require Import Floats.SpecFloat.
From S2P Require Import Prelude Text Json.

Definition prec : Z := 53.
Definition emax : Z := 1024.
Abbreviation double := spec_float.

Definition zero : double := S754_zero false.
(** An integer as the nearest double. *)
Definition of_Z (n : Z) : double := binary_normalize prec emax n 0 false.
(** The quotient of two positive integers, rounded once. *)
Definition of_ratio (neg : bool) (num den : positive) : double :=
  let '(q, e, l) := SFdiv_core_binary prec emax (Zpos num) 0 (Zpos den) 0 in
  binary_round_aux prec emax neg q e l.
Definition digits_Z (ds : list Z) : Z := fold_left (fun a d => 10 * a + d) ds 0.
Definition of_dec (x : f64) : double :=
  let e := f_exp x - Z.of_nat (length (f_digits x)) + 1 in
  match digits_Z (f_digits x) with
  | Zpos m =>
      if 0 <=? e
      then binary_normalize prec emax (if f_neg x then - (Zpos m * 10 ^ e) else Zpos m * 10 ^ e) 0 false
      else of_ratio (f_neg x) m (Z.to_pos (10 ^ (- e)))
  | _ => S754_zero (f_neg x)
  end.
(** [Value::as_f64]. *)
Definition as_f64 (v : value) : option double :=
  match v with
  | VNum (NInt z) => Some (of_Z z)
  | VNum (NFloat x) => Some (of_dec x)
  | _ => None
  end.

Definition add : double -> double -> double := SFadd prec emax.
Definition sub : double -> double -> double := SFsub prec emax.
Definition mul : double -> double -> double := SFmul prec emax.
Definition div : double -> double -> double := SFdiv prec emax.
Definition ltb (a b : double) : bool := SFltb a b.
Definition leb (a b : double) : bool := SFleb a b.
(** [f64::max]: the other operand when one is not a number. *)
Definition fmax (a b : double) : double :=
  match a, b with
  | S754_nan, _ => b
  | _, S754_nan => a
  | _, _ => if ltb a b then b else a
  end.

(** The magnitude of a finite double, as its integer part, rounded half up. *)
Definition half_up (m : positive) (e : Z) : Z :=
  if 0 <=? e then Zpos m * 2 ^ e else (2 * Zpos m + 2 ^ (- e)) / 2 ^ (1 - e).
(** [f64::round]: half away from zero. *)
Definition round (x : double) : double :=
  match x with
  | S754_finite s m e =>
      match half_up m e with
      | Zpos n => binary_normalize prec emax (if s then Zneg n else Zpos n) 0 false
      | _ => S754_zero s
      end
  | _ => x
  end.
(** [as i64]: towards zero, saturating, zero when not a number. *)
Definition to_i64 (x : double) : Z :=
  match x with
  | S754_finite s m e =>
      let n := if 0 <=? e then Zpos m * 2 ^ e else Zpos m / 2 ^ (- e) in
      i64_saturating (if s then - n else n)
  | S754_infinity s => if s then i64_min else i64_max
  | _ => 0
  end.

(** ** What is not negative *)

(** Zero, or above it. *)
Definition nonneg (x : double) : bool :=
  match x with
  | S754_finite s _ _ | S754_infinity s => negb s
  | S754_zero _ => true
  | S754_nan => false
  end.
Lemma fmax_zero x : nonneg (fmax x zero) = true.
Proof. destruct x as [s|s| |s m e]; try done; by destruct s. Qed.

Lemma round_aux_sign s m e l : 0 <= m ->
  match binary_round_aux prec emax s m e l with
  | S754_finite s' _ _ | S754_infinity s' | S754_zero s' => s' = s
  | S754_nan => True
  end.
Proof.
  intros _. unfold binary_round_aux.
  destruct (shr_fexp _ _ _ _) as [mrs e1]. destruct (shr_fexp _ _ (round_nearest_even _ _) _ _) as [mrs' e2].
  destruct (shr_m mrs'); [done| |done]. by destruct (Z.leb _ _).
Qed.
Lemma round_aux_nonneg m e l : 0 <= m -> nonneg (binary_round_aux prec emax false m e l) = true \/ binary_round_aux prec emax false m e l = S754_nan.
Proof.
  intros Hm. pose proof (round_aux_sign false m e l Hm) as H.
  destruct (binary_round_aux _ _ _ _ _ _); subst; auto.
Qed.
Lemma mul_nonneg x y : nonneg x = true -> nonneg y = true -> nonneg (mul x y) = true \/ mul x y = S754_nan.
Proof.
  intros Hx Hy. unfold mul.
  destruct x as [[]|[]| |[] m e]; try discriminate Hx; destruct y as [[]|[]| |[] m' e']; try discriminate Hy;
    solve [by left | by right | by apply round_aux_nonneg].
Qed.
Lemma half_up_nonneg m e : 0 <= half_up m e.
Proof. unfold half_up. case_match; [nia|]. apply Z.div_pos; [|apply Z.pow_pos_nonneg; lia]. pose proof (Z.pow_nonneg 2 (- e)). lia. Qed.
Lemma round_nonneg x : nonneg x = true -> nonneg (round x) = true \/ round x = S754_nan.
Proof.
  destruct x as [s|s| |s m e]; try by left. cbn. intros Hs. destruct s; [done|].
  pose proof (half_up_nonneg m e) as Hh. destruct (half_up m e) as [|p|p]; [by left| |lia].
  unfold binary_normalize, binary_round. destruct (shl_align _ _ _) as [mz ez].
  by apply round_aux_nonneg.
Qed.
Lemma to_i64_nonneg x : nonneg x = true \/ x = S754_nan -> 0 <= to_i64 x <= i64_max.
Proof.
  unfold to_i64, i64_saturating, i64_max, i64_min. intros [H | ->]; [|lia].
  destruct x as [s|s| |s m e]; cbn in H; try lia; destruct s; try done; try lia.
  assert (0 <= (if 0 <=? e then Zpos m * 2 ^ e else Zpos m / 2 ^ (- e))); [|lia].
  case_match; [nia|]. apply Z.div_pos; [lia|]. apply Z.pow_pos_nonneg; lia.
Qed.
Lemma to_i64_range x : i64_min <= to_i64 x <= i64_max.
Proof. unfold to_i64, i64_saturating, i64_max, i64_min. destruct x as [s|s| |s m e]; try lia; destruct s; lia. Qed.

Example a_third_of_a_cent : to_i64 (round (mul (of_dec (F64 false [3; 3; 3] (-3))) (of_Z 1000000))) = 3330.
Proof. vm_compute. reflexivity. Qed.
Example point_three : leb (of_dec (F64 false [3] (-1))) (sub (of_dec (F64 false [4] (-1))) (of_dec (F64 false [1] (-1)))) = false
  \/ sub (of_dec (F64 false [4] (-1))) (of_dec (F64 false [1] (-1))) <> of_dec (F64 false [3] (-1)).
Proof. right. vm_compute. discriminate. Qed.
Example half_rounds_away : round (of_dec (F64 true [2; 5] 0)) = of_Z (-3).
Proof. vm_compute. reflexivity. Qed.
