(* ===== verification/Store.v ===== *)
(** * Store: the console's tables and what is read from them
    ([crates/core/src/store.rs])

    A table is the list of its rows in [id] order, which is the order SQLite
    keeps it in.  A query is a function of the table; a text column that holds
    JSON is the value it was written from.  Reading a time is chrono's. *)
From S2P Require Import Prelude Text Json Signing.
From S2P Require Ingest Case Graph.

Class Calendar := { parse_ts_ms : str -> option Z; ms_to_rfc3339 : Z -> str }.

(** A row of [events], with the two columns of the third migration. *)
Record Row : Type := mkRow
  { id : Z; env : str; ts : str; source : str; type_ : str; agent_id : str; run_id : option str;
    severity : option str; schema : str; on_behalf_of : list str; data : option value; prev_hash : option str;
    raw : str; file : option str; off : option Z; dedupe : str; ts_ms : option Z }.

(** ** Writing *)

(** The [id] of a new row: one past the largest held. *)
Definition next_id (rows : list Row) : Z := 1 + fold_right (fun r => Z.max (id r)) 0 rows.

Definition to_i64 (v : Z) : result Z str :=
  if v <=? i64_max then Ok v else Err #"out of range integral type conversion attempted".
Definition from_i64 (v : Z) : result Z str :=
  if 0 <=? v then Ok v else Err #"out of range integral type conversion attempted".
Definition offset_fits (e : Ingest.ConsoleEvent) : result (option Z) str :=
  match Ingest.p_offset (Ingest.provenance e) with
  | Some o => let? v := to_i64 o in Ok (Some v)
  | None => Ok None
  end.

Section Write.
Context {PR : Primitives} {CA : Calendar}.

Definition row_of (n : Z) (off : option Z) (e : Ingest.ConsoleEvent) : Row :=
  let v := Ingest.event e in
  let p := Ingest.provenance e in
  mkRow n (Ingest.env p) (Ingest.ts v) (Ingest.source v) (Ingest.event_type v) (Ingest.agent_id v)
    (Ingest.run_id v) (Ingest.severity v) (Ingest.schema v) (Ingest.on_behalf_of v) (Ingest.data v)
    (Ingest.prev_hash v) (Ingest.raw e) (Ingest.p_file p) off (Ingest.key_of e) (parse_ts_ms (Ingest.ts v)).

(** [INSERT OR IGNORE], the unique index being on [dedupe]; the number of rows
    written. *)
Definition insert_row (st : Z * list Row) (e : Ingest.ConsoleEvent) (off : option Z) : Z * list Row :=
  if existsb (fun r => str_eqb (dedupe r) (Ingest.key_of e)) st.2 then st
  else (st.1 + 1, st.2 ++ [row_of (next_id st.2) off e]).
(** The loop of one transaction: it ends at an event that does not fit. *)
Fixpoint insert_all (st : Z * list Row) (es : list Ingest.ConsoleEvent) : result (Z * list Row) str :=
  match es with
  | [] => Ok st
  | e :: es => let? off := offset_fits e in insert_all (insert_row st e off) es
  end.
(** [insert_batch], of what SQLite answers to its statements and its commit:
    the number reported and the table after it.  A transaction that is dropped
    before its commit is rolled back. *)
Definition insert_batch (committed : result unit str) (rows : list Row) (es : list Ingest.ConsoleEvent)
  : result Z str * list Row :=
  match insert_all (0, rows) es with
  | Err x => (Err x, rows)
  | Ok (n, rows') => match committed with Ok _ => (Ok n, rows') | Err x => (Err x, rows) end
  end.

(** Retention: an undated event has no age, so it stays. *)
Definition before (cutoff : Z) (t : option Z) : bool := match t with Some t => t <? cutoff | None => false end.
Definition prune_before (cutoff : Z) (rows : list Row) (refused : list Ingest.Quarantined)
  : (Z * Z) * (list Row * list Ingest.Quarantined) :=
  let kept := List.filter (fun r => negb (before cutoff (ts_ms r))) rows in
  let held := List.filter (fun q => negb (str_ltb (Ingest.q_ts q) (ms_to_rfc3339 cutoff))) refused in
  ((Z.of_nat (length rows) - Z.of_nat (length kept), Z.of_nat (length refused) - Z.of_nat (length held)), (kept, held)).
End Write.

(** ** Reading *)

Definition newest_first (rows : list Row) : list Row := rev rows.
Definition recent_events (limit : nat) (rows : list Row) : list Row := firstn limit (newest_first rows).
Definition events_for_agent (agent : str) (limit : nat) (rows : list Row) : list Row :=
  firstn limit (List.filter (fun r => str_eqb (agent_id r) agent) (newest_first rows)).
Definition events_for_run (run : str) (limit : nat) (rows : list Row) : list Row :=
  firstn limit (List.filter (fun r => bool_decide (run_id r = Some run)) rows).
Definition event_by_id (n : Z) (rows : list Row) : option Row := find (fun r => id r =? n) rows.
Definition similar_events (t : str) (before_id : Z) (limit : nat) (rows : list Row) : list Row :=
  firstn limit (List.filter (fun r => str_eqb (type_ r) t && (id r <? before_id)) (newest_first rows)).

(** [FILED_UNDER_SQL], and [subject_is]. *)
Definition filed (r : Row) : str := Case.filed_under (type_ r) (agent_id r) (data r).
Definition subject_is (subject : str) (r : Row) : bool :=
  (str_eqb (agent_id r) subject && negb (str_eqb (type_ r) Case.IDENTITY_MISMATCH))
  || (str_eqb (type_ r) Case.IDENTITY_MISMATCH && str_eqb (filed r) subject).

Definition delegation_events (rows : list Row) : list Graph.DelegationRow :=
  map (fun r => Graph.mkRow (filed r) (on_behalf_of r) (ts r) (source r) (type_ r) (run_id r)) rows.

(** A window is on the event's own clock; no window holds everything. *)
Definition since (cutoff : option Z) (r : Row) : bool :=
  match cutoff with
  | None => true
  | Some c => match ts_ms r with Some t => c <=? t | None => false end
  end.
Definition newer (a b : Row) : bool := default 0 (ts_ms b) <=? default 0 (ts_ms a).
Definition events_since (cutoff : Z) (limit : nat) (rows : list Row) : list Row :=
  firstn limit (isort newer (List.filter (since (Some cutoff)) rows)).

(** [MAX] of a text column. *)
Definition max_text (a b : str) : str := if str_leb a b then b else a.
Definition newest_ts (rows : list Row) : str := fold_left (fun m r => max_text m (ts r)) rows [].

(** *** One count for each subject and type *)

Record AgentTypeCount : Type := mkCount { c_agent : str; c_type : str; count : Z; last_ts : str }.
Definition group_key (r : Row) : str * str := (filed r, type_ r).
Definition in_group (k : str * str) (rows : list Row) : list Row := List.filter (fun r => bool_decide (group_key r = k)) rows.
Definition type_counts_since (cutoff : option Z) (rows : list Row) : list AgentTypeCount :=
  let window := List.filter (since cutoff) rows in
  map (fun k => let g := in_group k window in mkCount k.1 k.2 (Z.of_nat (length g)) (newest_ts g))
      (remove_dups (map group_key window)).

(** *** The rows whose data is needed *)

(** [json_extract] of a field that is there and not null. *)
Definition extracts (field : str) (r : Row) : bool :=
  match (let! d := data r in get field d) with Some VNull | None => false | Some _ => true end.
Definition wanted (types : list str) (pairs : list (str * str)) (r : Row) : bool :=
  existsb (str_eqb (type_ r)) types || existsb (fun p => extracts p.1 r && extracts p.2 r) pairs.
Definition events_of_types_since (types : list str) (pairs : list (str * str)) (cutoff : option Z) (limit : nat)
  (rows : list Row) : list Row :=
  match types, pairs with
  | [], [] => []
  | _, _ => firstn limit (List.filter (fun r => wanted types pairs r && since cutoff r) (newest_first rows))
  end.

(** *** Days *)

Definition DAY_MS : Z := 86400000.
(** SQLite's division, towards zero. *)
Definition day_of (r : Row) : option Z := option_map (fun t => Z.quot t DAY_MS) (ts_ms r).

Record DayTypeCount : Type := mkDay { d_day : Z; d_type : str; d_count : Z }.
Definition day_key (r : Row) : option (Z * str) := option_map (fun d => (d, type_ r)) (day_of r).
Definition earlier_day (a b : Z * str) : bool := a.1 <=? b.1.
Definition daily_type_counts (agent : str) (since_ms : Z) (rows : list Row) : list DayTypeCount :=
  let window := List.filter (fun r => subject_is agent r && since (Some since_ms) r) rows in
  map (fun k => mkDay k.1 k.2 (Z.of_nat (length (List.filter (fun r => bool_decide (day_key r = Some k)) window))))
      (isort earlier_day (remove_dups (omap day_key window))).

Definition times (rows : list Row) : list Z := omap ts_ms rows.
Definition min_of (l : list Z) : option Z :=
  match l with [] => None | x :: l => Some (fold_left Z.min l x) end.
Definition max_of (l : list Z) : option Z :=
  match l with [] => None | x :: l => Some (fold_left Z.max l x) end.
Definition first_day_for_agent (agent : str) (rows : list Row) : option Z :=
  option_map (fun t => Z.quot t DAY_MS) (min_of (times (List.filter (subject_is agent) rows))).
Definition undated_count (rows : list Row) : Z :=
  Z.of_nat (length (List.filter (fun r => bool_decide (ts_ms r = None)) rows)).
Definition ts_span (rows : list Row) : option (Z * Z) :=
  match min_of (times rows), max_of (times rows) with Some lo, Some hi => Some (lo, hi) | _, _ => None end.
Definition event_count (rows : list Row) : Z := Z.of_nat (length rows).

(** *** What was refused *)

Definition QUARANTINE_EXCERPT_CHARS : nat := 220.
Definition excerpt (s : str) (max : nat) : str :=
  if (length s <=? max)%nat then s else firstn max s ++ #"...".
Record QuarantineReason : Type := mkReason
  { qr_reason : str; qr_count : Z; qr_last_ts : str; example_file : option str; example_offset : option Z; raw_excerpt : str }.
(** [MAX] over the rows whose column is not null. *)
Definition max_file (l : list (option str)) : option str :=
  fold_left (fun m x => match m, x with Some a, Some b => Some (max_text a b) | None, x => x | m, None => m end) l None.
Definition max_off (l : list (option Z)) : option Z := max_of (omap (fun x => x) l).
Definition reason_of (reason : str) (refused : list Ingest.Quarantined) : QuarantineReason :=
  let g := List.filter (fun q => str_eqb (Ingest.q_reason q) reason) refused in
  mkReason reason (Z.of_nat (length g)) (fold_left (fun m q => max_text m (Ingest.q_ts q)) g [])
    (max_file (map Ingest.q_file g))
    (let! o := max_off (map Ingest.q_off g) in if 0 <=? o then Some o else None)
    (excerpt (fold_left (fun m q => max_text m (Ingest.q_raw q)) g []) QUARANTINE_EXCERPT_CHARS).
Definition worse (a b : QuarantineReason) : bool :=
  (qr_count b <? qr_count a) || ((qr_count a =? qr_count b) && str_leb (qr_last_ts b) (qr_last_ts a)).
Definition quarantine_by_reason (limit : nat) (refused : list Ingest.Quarantined) : list QuarantineReason :=
  firstn limit (isort worse (map (fun reason => reason_of reason refused) (remove_dups (map Ingest.q_reason refused)))).
Definition quarantine_count (refused : list Ingest.Quarantined) : Z := Z.of_nat (length refused).

(** ** What holds of a table *)

(** Every [id] is above the ones before it. *)
Definition ascending (rows : list Row) : Prop := StronglySorted (fun a b => id a < id b) rows.

Lemma below_next rows r : r ∈ rows -> id r < next_id rows.
Proof. unfold next_id. induction rows as [|x rows IH]; [by intros ?%not_elem_of_nil|]. intros [->|H]%elem_of_cons; simpl; [lia|]. specialize (IH H). lia. Qed.
Lemma StronglySorted_snoc {A} (R : A -> A -> Prop) l x : StronglySorted R l -> (forall y, y ∈ l -> R y x) -> StronglySorted R (l ++ [x]).
Proof.
  induction 1 as [|a l Hs IH Ha]; intros Hx; simpl; [by repeat constructor|]. constructor.
  - apply IH. intros y Hy. apply Hx. by right.
  - apply Forall_app. split; [done|]. constructor; [apply Hx; by left|done].
Qed.
Section Tables.
Context {PR : Primitives} {CA : Calendar}.

(** The row of an event the ingestion keeps, under its key. *)
Definition stores (r : Row) (ke : str * Ingest.ConsoleEvent) : Prop :=
  exists n, r = row_of n (Ingest.p_offset (Ingest.provenance ke.2)) ke.2 /\ ke.1 = Ingest.key_of ke.2.
Definition fits (e : Ingest.ConsoleEvent) : Prop := forall o, Ingest.p_offset (Ingest.provenance e) = Some o -> o <= i64_max.

Lemma offset_fits_iff e : offset_fits e = Ok (Ingest.p_offset (Ingest.provenance e)) <-> fits e.
Proof.
  unfold offset_fits, fits, to_i64. destruct (Ingest.p_offset _) as [o|]; [|by split].
  destruct (Z.leb_spec o i64_max); simpl; split; try done; [by intros _ ? [= <-]|]. intros H'. specialize (H' o eq_refl). lia.
Qed.

Lemma insert_row_ascending st e off : ascending st.2 -> ascending (insert_row st e off).2.
Proof.
  intros H. unfold insert_row. case_match; [done|]. apply StronglySorted_snoc; [done|]. intros y Hy. by apply below_next.
Qed.
Lemma insert_all_ascending es st st' : ascending st.2 -> insert_all st es = Ok st' -> ascending st'.2.
Proof.
  revert st. induction es as [|e es IH]; intros st H; simpl; [by intros [= <-]|]. destruct (offset_fits e) as [off|]; [|done].
  simpl. apply IH. by apply insert_row_ascending.
Qed.

Lemma held_alike rows es e : Forall2 stores rows es ->
  existsb (fun r => str_eqb (dedupe r) (Ingest.key_of e)) rows = existsb (fun r => str_eqb r.1 (Ingest.key_of e)) es.
Proof. induction 1 as [|r ke rows es (n&->&Hk) Ha IH]; [done|]. simpl. by rewrite IH, Hk. Qed.
Lemma insert_row_refines n rows es e :
  Forall2 stores rows es ->
  Forall2 stores (insert_row (n, rows) e (Ingest.p_offset (Ingest.provenance e))).2 (Ingest.insert_one es e) /\
  (insert_row (n, rows) e (Ingest.p_offset (Ingest.provenance e))).1 - n
    = Z.of_nat (length (Ingest.insert_one es e)) - Z.of_nat (length es).
Proof.
  intros H. unfold insert_row, Ingest.insert_one. cbn [fst snd]. rewrite (held_alike rows es e H).
  destruct (existsb _ es); simpl; [split; [done|lia]|]. rewrite length_app. simpl. split; [|lia].
  apply Forall2_app; [done|]. constructor; [|done]. by eexists.
Qed.
Lemma insert_all_refines es rows kept n :
  Forall2 stores rows kept -> Forall fits es ->
  exists rows', insert_all (n, rows) es
                = Ok (n + Z.of_nat (length (fold_left Ingest.insert_one es kept)) - Z.of_nat (length kept), rows')
    /\ Forall2 stores rows' (fold_left Ingest.insert_one es kept).
Proof.
  revert rows kept n. induction es as [|e es IH]; intros rows kept n H Hf; cbn [insert_all fold_left].
  { exists rows. split; [|done]. do 2 f_equal. lia. }
  inversion Hf as [|? ? He Hes]; subst. apply offset_fits_iff in He as ->. cbn [rbind].
  pose proof (insert_row_refines n rows kept e H) as [Hs Hn]. destruct (insert_row _ e _) as [n' rows1]. cbn [fst snd] in *.
  destruct (IH rows1 _ n' Hs Hes) as (rows'&Heq&Hr). exists rows'. split; [|done]. rewrite Heq. do 2 f_equal. lia.
Qed.
(** A batch adds to the table what it adds to the lines the ingestion keeps. *)
Theorem batch_refines_the_ingestion rows (s : Ingest.Store) es :
  Forall2 stores rows (Ingest.events s) -> Forall fits es ->
  exists rows', insert_batch (Ok tt) rows es = (Ok (Ingest.insert_batch s es).1, rows')
    /\ Forall2 stores rows' (Ingest.events (Ingest.insert_batch s es).2).
Proof.
  intros Hs Hf. destruct (insert_all_refines es rows (Ingest.events s) 0 Hs Hf) as (rows'&Heq&Hr). exists rows'.
  unfold insert_batch. rewrite Heq. by split.
Qed.


(** *** A table over its life *)










End Tables.

Lemma subject_is_iff s r : subject_is s r = true <-> filed r = s.
Proof.
  unfold subject_is, filed, Case.filed_under. destruct (str_eqb (type_ r) Case.IDENTITY_MISMATCH) eqn:E; cbn [negb].
  - rewrite andb_false_r. simpl. apply str_eqb_eq.
  - rewrite andb_true_r, orb_false_r. apply str_eqb_eq.
Qed.

(** ** Witnesses *)

#[local] Existing Instance demo_primitives.
(** A calendar whose times are numbers. *)
#[local] Instance demo_calendar : Calendar := {| parse_ts_ms := parse_u64; ms_to_rfc3339 := dec |}.

Definition demo_at (t : str) (line : Z) : Ingest.ConsoleEvent :=
  Ingest.mkConsole
    (Ingest.mkEvent #"s" t #"wardryx" #"policy_deny" #"agent://acme/ops/bot" None None [] None None [])
    (Ingest.mkProvenance #"local" #"tail" (Some #"/bus/w") (Some line) #"now") (#"line " ++ t) Ingest.V1_0.
Definition demo_rows : list Row := (insert_batch (Ok tt) [] [demo_at #"5" 0]).2.

(** Retention frees an [id]: the next event stored takes it, and an incident
    named by it is another event. *)
Definition demo_pruned : list Row := (prune_before 10 demo_rows []).2.1.
Definition demo_reused : list Row := (insert_batch (Ok tt) demo_pruned [demo_at #"20" 9]).2.
Example retention_frees_an_incident_id :
  option_map ts (event_by_id 1 demo_rows) = Some #"5" /\ option_map ts (event_by_id 1 demo_reused) = Some #"20".
Proof. split; vm_compute; reflexivity. Qed.

(** The example of a reason is put together from several lines: a file, an
    offset and a text that no refused line had together. *)
Definition demo_refused : list Ingest.Quarantined :=
  [Ingest.mkQuarantined #"local" (Some #"/bus/a") (Some 900) #"z line of a" #"bad id" #"t1";
   Ingest.mkQuarantined #"local" (Some #"/bus/b") (Some 7) #"a line of b" #"bad id" #"t2"].
Example example_of_a_reason_is_no_line :
  quarantine_by_reason 10 demo_refused
    = [mkReason #"bad id" 2 #"t2" (Some #"/bus/b") (Some 900) #"z line of a"]
  /\ Forall (fun q => (Ingest.q_file q, Ingest.q_off q) <> (Some #"/bus/b", Some 900)) demo_refused.
Proof. split; [vm_compute; reflexivity|]. repeat constructor; discriminate. Qed.
