(* ===== verification/Stats.v ===== *)
(** * Stats: how often an agent was stopped, and what its days look like
    ([crates/api/src/stats/mod.rs], [stats/profile.rs])

    The counts of a window are one aggregate; what a count cannot carry is read
    from the rows themselves, up to a cap.  Each query of a panel sees the
    table of its own moment. *)
From S2P Require Import Prelude Text Json.
From S2P Require Case Graph Approver.
From S2P Require Import Double Store.

(** ** The vocabulary *)

Definition BLOCKED_TYPES : list str :=
  [ #"policy_deny"; #"approval_denied"; #"approval_timeout"; #"approval_unanswered"; #"breaker_tripped";
    #"dlp_block"; #"taint_block"; #"mcp_drift"; #"identity_mismatch"; #"run_killed"; #"unit_cap_exceeded";
    #"web_blocked"].
Definition ANOMALY_TYPES : list str :=
  [ #"sustained_loop"; #"spend_spike"; #"fanout_explosion"; #"run_stalled"; #"quality_drift";
    #"contradiction_found"; #"sim_finding"; #"calibration_drift"; #"identity_finding"].
Definition IDENTITY_FINDING : str := #"identity_finding".
Definition BUDGET_TYPES : list str := [ #"budget_exhausted"; #"budget_threshold"].
Definition OPERATOR_BLOCK_ACTIONS : list str := [ #"console.block_agent"; #"console.block_unit"; #"console.block_user"].
Definition CONSOLE_COMMAND : str := #"console_command".
Definition DETAIL_TYPES : list str := [IDENTITY_FINDING; #"run_killed"; #"approval_denied"; CONSOLE_COMMAND].
Definition AMOUNT_FIELDS : list (str * str) :=
  [(#"budget_micros", #"spent_micros"); (#"budget_usd", #"spent_usd")].
Definition one_of (types : list str) (t : str) : bool := existsb (str_eqb t) types.

(** ** Reading one event *)

Definition AGENT_PREFIX : str := #"agent://".
Definition text_items (v : value) : list str := match as_array v with Some vs => omap as_str vs | None => [] end.
Definition agents_halted_by (data : option value) : list str :=
  match data with
  | None => []
  | Some d =>
      if negb (one_of OPERATOR_BLOCK_ACTIONS (default [] (get_str #"action" d))) then []
      else
        let members := List.filter (starts_with AGENT_PREFIX) (match get #"members" d with Some v => text_items v | None => [] end) in
        if negb (bool_decide (members = [])) then members
        else match get_str #"target" d with
             | Some t => if starts_with AGENT_PREFIX t then [t] else []
             | None => []
             end
  end.

(** A field that names somebody. *)
Definition says (o : option str) : bool :=
  match o with Some s => negb (bool_decide (trim s = [])) | None => false end.
Definition is_operator_stop (t : str) (data : option value) : bool :=
  let field := if str_eqb t #"run_killed" then Some #"actor"
               else if str_eqb t #"approval_denied" then Some #"decided_by" else None in
  match field with
  | None => false
  | Some f => says (let! d := data in get_str f d)
  end.

Definition MILLION : Z := 1000000.
Definition overshoot_of (data : value) : option Z :=
  match (let! b := get #"budget_micros" data in as_i64 b), (let! s := get #"spent_micros" data in as_i64 s) with
  | Some budget, Some spent => Some (Z.max (Approver.i64_wrap (spent - budget)) 0)
  | _, _ =>
      let! b := get #"budget_usd" data in
      let! budget := as_f64 b in
      let! s := get #"spent_usd" data in
      let! spent := as_f64 s in
      Some (Double.to_i64 (round (mul (fmax (sub spent budget) zero) (of_Z MILLION))))
  end.

(** ** The counts of a window *)

Record AgentStats : Type := mkStats
  { st_agent : str; blocked : Z; blocked_by_operator : Z; anomalies : Z; budget_events : Z;
    worst_overshoot_microusd : option Z; by_type : gmap str Z; by_detector : gmap str Z; last_seen : str }.
Definition new_stats (a : str) : AgentStats := mkStats a 0 0 0 0 None ∅ ∅ [].

Record StatsPanel : Type := mkPanel
  { measured : bool; note : option str; scanned : Z; detail_scanned : Z; detail_truncated : bool;
    window_days : Z; history_from : option str; undated : Z; agents : list AgentStats }.
Definition unmeasured (why : str) : StatsPanel := mkPanel false (Some why) 0 0 false 0 None 0 [].

Definition bump (t : str) (n : Z) (m : gmap str Z) : gmap str Z := <[t := default 0 (m !! t) + n]> m.
Definition when (b : bool) (n : Z) : Z := if b then n else 0.

(** Pass one: a count of the aggregate. *)
Definition add_count (c : AgentTypeCount) (e : AgentStats) : AgentStats :=
  mkStats (st_agent e) (blocked e + when (one_of BLOCKED_TYPES (c_type c)) (count c)) (blocked_by_operator e)
    (anomalies e + when (one_of ANOMALY_TYPES (c_type c)) (count c))
    (budget_events e + when (one_of BUDGET_TYPES (c_type c)) (count c))
    (worst_overshoot_microusd e) (bump (c_type c) (count c) (by_type e)) (by_detector e)
    (if str_ltb (last_seen e) (last_ts c) then last_ts c else last_seen e).

(** Pass two: what a row says. *)
Definition detector_of (r : Row) : option str :=
  if str_eqb (type_ r) IDENTITY_FINDING then
    let! s := (let! d := data r in get_str #"detector" d) in
    if bool_decide (trim s = []) then None else Some s
  else None.
Definition by_person (r : Row) : bool := one_of BLOCKED_TYPES (type_ r) && is_operator_stop (type_ r) (data r).
Definition overshot (r : Row) : option Z := let! d := data r in overshoot_of d.
Definition add_detail (r : Row) (e : AgentStats) : AgentStats :=
  mkStats (st_agent e) (blocked e) (blocked_by_operator e + when (by_person r) 1) (anomalies e) (budget_events e)
    (match overshot r with
     | Some over => Some (Z.max (default 0 (worst_overshoot_microusd e)) over)
     | None => worst_overshoot_microusd e
     end)
    (by_type e) (match detector_of r with Some d => bump d 1 (by_detector e) | None => by_detector e end) (last_seen e).
Definition halts_of (rows : list Row) : list str :=
  flat_map (fun r => if str_eqb (type_ r) CONSOLE_COMMAND then agents_halted_by (data r) else []) rows.

(** A stop by an operator. *)
Definition add_halt (_ : str) (e : AgentStats) : AgentStats :=
  mkStats (st_agent e) (blocked e + 1) (blocked_by_operator e + 1) (anomalies e) (budget_events e)
    (worst_overshoot_microusd e) (by_type e) (by_detector e) (last_seen e).

(** Rust's [entry(key).or_insert_with(new)] and what is done to it. *)
Definition at_entry {A} (key : A -> str) (f : A -> AgentStats -> AgentStats) (m : gmap str AgentStats) (x : A)
  : gmap str AgentStats := <[key x := f x (default (new_stats (key x)) (m !! key x))]> m.
Definition by_agent (counts : list AgentTypeCount) (rows : list Row) : gmap str AgentStats :=
  fold_left (at_entry (fun a => a) add_halt) (halts_of rows)
    (fold_left (at_entry filed add_detail) rows
       (fold_left (at_entry c_agent add_count) counts ∅)).

(** A [BTreeMap]'s values, in key order. *)
#[local] Existing Instance Graph.str_le_dec.
Definition into_values (m : gmap str AgentStats) : list AgentStats :=
  omap (fun a => m !! a) (merge_sort Graph.str_le (elements (dom m))).

Definition u64_saturating_add (a b : Z) : Z := Z.min u64_max (a + b).
Definition scanned_of (counts : list AgentTypeCount) : Z := fold_left (fun n c => u64_saturating_add n (count c)) counts 0.

Definition days_text (n : Z) : str := dec n.
Section Panel.
Context {CA : Calendar}.

Definition window_note (days scanned : Z) (oldest : option Z) (undated now : Z) (capped : option Z) : str :=
  (if days =? 0 then #"Counted from all " ++ dec scanned ++ #" event(s) on the bus, of any age."
   else #"Counted from all " ++ dec scanned ++ #" event(s) in the last " ++ days_text days
        ++ #" day(s), by each event's own timestamp.")
  ++ match oldest with
     | Some oldest =>
         let held := Z.quot (Z.max (now - oldest) 0) DAY_MS in
         #" This box holds " ++ days_text held ++ #" day(s) of history, from " ++ ms_to_rfc3339 oldest ++ #"."
         ++ (if (0 <? days) && (held <? days)
             then #" The window is longer than the history, so this is everything there is, not a quiet period."
             else [])
     | None => #" This box holds no dated events yet."
     end
  ++ (if 0 <? undated
      then #" " ++ dec undated ++ #" stored event(s) carry a timestamp this build cannot read and are in no window; a number that climbs means a producer's clock format changed."
      else [])
  ++ match capped with
     | Some read => #" The counts above are complete. The columns that need each event's own detail (which detector fired, the budget amounts, who halted whom) were read from the "
                    ++ dec read ++ #" most recent such events and may understate a longer window."
     | None => []
     end.

(** The table each query sees, or why it failed. *)
Record Reads : Type := mkReads
  { counts_read : result (list Row) str; detail_read : result (list Row) str;
    span_read : result (list Row) str; undated_read : result (list Row) str }.
Inductive Source : Type := NoDir | NotOpened (e : str) | Opened (reads : Reads).

Definition nothing_counted : str := #", so nothing here was counted. This is not a report that your agents were never stopped.".
Definition not_queried (e : str) : str := #"The event store could not be queried (" ++ e ++ #")" ++ nothing_counted.

Definition cutoff_of (days now : Z) : option Z := if 0 <? days then Some (now - days * DAY_MS) else None.
Definition stats_counts (detail_scan days now : Z) (src : Source) : StatsPanel :=
  match src with
  | NoDir => unmeasured (#"The console has no event store on this box" ++ nothing_counted)
  | NotOpened e => unmeasured (#"The event store could not be opened (" ++ e ++ #")" ++ nothing_counted)
  | Opened reads =>
      let cutoff := cutoff_of days now in
      match counts_read reads with
      | Err e => unmeasured (not_queried e)
      | Ok table1 =>
          match detail_read reads with
          | Err e => unmeasured (not_queried e)
          | Ok table2 =>
              let counts := type_counts_since cutoff table1 in
              let rows := events_of_types_since DETAIL_TYPES AMOUNT_FIELDS cutoff (Z.to_nat detail_scan) table2 in
              let oldest := match span_read reads with Ok t => option_map fst (ts_span t) | Err _ => None end in
              let undated := match undated_read reads with Ok t => undated_count t | Err _ => 0 end in
              let detail_scanned := Z.of_nat (length rows) in
              let truncated := (0 <? detail_scan) && (detail_scan <=? detail_scanned) in
              let m := by_agent counts rows in
              mkPanel true
                (Some (window_note days (scanned_of counts) oldest undated now
                         (if truncated then Some detail_scanned else None)))
                (scanned_of counts) detail_scanned truncated days (option_map ms_to_rfc3339 oldest) undated
                (into_values m)
          end
      end
  end.
End Panel.

(** ** One agent's row, of the three passes over its own events *)

Definition own {A} (key : A -> str) (a : str) (l : list A) : list A := List.filter (fun x => str_eqb (key x) a) l.

Lemma fold_at_entry {A} (key : A -> str) f l m a :
  (fold_left (at_entry key f) l m : gmap str AgentStats) !! a
    = match own key a l with
      | [] => m !! a
      | xs => Some (fold_left (fun e x => f x e) xs (default (new_stats a) (m !! a)))
      end.
Proof.
  revert m. induction l as [|x l IH]; intros m; [done|]. cbn [fold_left own List.filter]. rewrite IH. fold (own key a l).
  unfold at_entry. destruct (str_eqb (key x) a) eqn:E.
  - apply str_eqb_eq in E as <-. rewrite lookup_insert_eq. cbn [default fold_left]. by destruct (own key (key x) l).
  - apply str_eqb_neq in E. by rewrite lookup_insert_ne by done.
Qed.

(** The agents with an event in the window, or halted by one. *)
Definition told_of (a : str) (counts : list AgentTypeCount) (rows : list Row) : Prop :=
  (exists c, c ∈ counts /\ c_agent c = a) \/ (exists r, r ∈ rows /\ filed r = a) \/ a ∈ halts_of rows.
Definition row_of_agent (a : str) (counts : list AgentTypeCount) (rows : list Row) : AgentStats :=
  fold_left (fun e x => add_halt x e) (own (fun a => a) a (halts_of rows))
    (fold_left (fun e r => add_detail r e) (own filed a rows)
       (fold_left (fun e c => add_count c e) (own c_agent a counts) (new_stats a))).

Lemma own_nil {A} (key : A -> str) a l : own key a l = [] <-> forall x, x ∈ l -> key x <> a.
Proof.
  unfold own. split.
  - intros H x Hx E. assert (x ∈ List.filter (fun x => str_eqb (key x) a) l) as Hf; [|rewrite H in Hf; by apply not_elem_of_nil in Hf].
    apply in_filter. split; [done|]. by apply str_eqb_eq.
  - intros H. induction l as [|x l IH]; [done|]. simpl. assert (key x <> a) as Hx by (apply H; by left).
    apply str_eqb_neq in Hx as ->. apply IH. intros y Hy. apply H. by right.
Qed.
Lemma by_agent_row counts rows a :
  (told_of a counts rows -> by_agent counts rows !! a = Some (row_of_agent a counts rows)) /\
  (~ told_of a counts rows -> by_agent counts rows !! a = None).
Proof.
  unfold by_agent, row_of_agent, told_of. rewrite !fold_at_entry, lookup_empty. cbn [default].
  split; intros H.
  - destruct (own (fun a => a) a (halts_of rows)) as [|h hs] eqn:Eh.
    + destruct (own filed a rows) as [|r rs] eqn:Er; [|by destruct (own c_agent a counts)].
      destruct (own c_agent a counts) as [|c cs] eqn:Ec; [|done]. exfalso.
      pose proof (proj1 (own_nil _ _ _) Eh) as Hh.
      pose proof (proj1 (own_nil _ _ _) Er) as Hr. pose proof (proj1 (own_nil _ _ _) Ec) as Hc.
      destruct H as [(c&Hi&E)|[(r&Hi&E)|Hi]]; [by eapply Hc|by eapply Hr|by eapply Hh].
    + destruct (own filed a rows); by destruct (own c_agent a counts).
  - assert (own (fun a => a) a (halts_of rows) = []) as -> by (apply own_nil; intros x Hx ->; apply H; by right; right).
    assert (own filed a rows = []) as -> by (apply own_nil; intros x Hx E; apply H; right; left; by exists x).
    assert (own c_agent a counts = []) as -> by (apply own_nil; intros x Hx E; apply H; left; by exists x).
    done.
Qed.

(** *** What is counted *)

Definition cnt {A} (p : A -> bool) (l : list A) : Z := Z.of_nat (length (List.filter p l)).
Lemma cnt_nonneg {A} (p : A -> bool) l : 0 <= cnt p l.
Proof. unfold cnt. lia. Qed.
Lemma cnt_cons {A} (p : A -> bool) x l : cnt p (x :: l) = when (p x) 1 + cnt p l.
Proof. unfold cnt, when. simpl. destruct (p x); simpl; lia. Qed.
Lemma cnt_ext {A} (p q : A -> bool) l : (forall x, x ∈ l -> p x = q x) -> cnt p l = cnt q l.
Proof.
  induction l as [|x l IH]; intros H; [done|]. rewrite !cnt_cons, (H x), IH; [done| |by left]. intros y Hy. apply H. by right.
Qed.
Lemma cnt_filter {A} (p q : A -> bool) l : cnt p (List.filter q l) = cnt (fun x => q x && p x) l.
Proof. induction l as [|x l IH]; [done|]. simpl. rewrite cnt_cons. destruct (q x); simpl; by rewrite ?cnt_cons, IH. Qed.
Lemma cnt_split {A} (p q : A -> bool) l :
  (forall x, p x = true -> q x = true -> False) -> cnt (fun x => p x || q x) l = cnt p l + cnt q l.
Proof.
  intros H. induction l as [|x l IH]; [done|]. rewrite !cnt_cons, IH. specialize (H x). unfold when.
  destruct (p x), (q x); simpl; solve [lia | by destruct H].
Qed.
Lemma cnt_le {A} (p q : A -> bool) l : (forall x, x ∈ l -> p x = true -> q x = true) -> cnt p l <= cnt q l.
Proof.
  induction l as [|x l IH]; intros H; [done|]. rewrite !cnt_cons.
  assert (cnt p l <= cnt q l) by (apply IH; intros y Hy; apply H; by right). pose proof (H x ltac:(by left)) as Hx.
  unfold when. destruct (p x); [rewrite Hx by done|destruct (q x)]; lia.
Qed.

Definition sum_of (p : str -> bool) (cs : list AgentTypeCount) : Z :=
  fold_right (fun c n => when (p (c_type c)) (count c) + n) 0 cs.
Definition count_of (window : list Row) (k : str * str) : AgentTypeCount :=
  mkCount k.1 k.2 (Z.of_nat (length (in_group k window))) (newest_ts (in_group k window)).

Lemma sum_of_groups p a window ks : NoDup ks ->
  sum_of p (own c_agent a (map (count_of window) ks))
    = cnt (fun r => bool_decide (group_key r ∈ ks) && (str_eqb (filed r) a && p (type_ r))) window.
Proof.
  induction 1 as [|k ks Hk Hn IH].
  { unfold cnt. simpl. replace (List.filter _ window) with (@nil Row); [done|]. induction window; simpl; done. }
  transitivity (cnt (fun r => bool_decide (group_key r = k) && (str_eqb (filed r) a && p (type_ r))) window
                + cnt (fun r => bool_decide (group_key r ∈ ks) && (str_eqb (filed r) a && p (type_ r))) window).
  - rewrite <- IH. cbn [map own List.filter]. fold (own c_agent a (map (count_of window) ks)).
    rewrite <- cnt_filter. fold (in_group k window). unfold count_of at 1. cbn [c_agent].
    assert (cnt (fun r => str_eqb (filed r) a && p (type_ r)) (in_group k window)
            = when (str_eqb k.1 a && p k.2) (Z.of_nat (length (in_group k window)))) as ->.
    { transitivity (cnt (fun _ => str_eqb k.1 a && p k.2) (in_group k window)).
      - apply cnt_ext. intros r Hr. apply in_filter in Hr as [_ Hr]. apply bool_decide_eq_true in Hr. by rewrite <- Hr.
      - generalize (in_group k window). intros l. unfold when. induction l as [|x l IHl]; [by case_match|].
        rewrite cnt_cons, IHl. unfold when. case_match; simpl; lia. }
    unfold when. destruct (str_eqb k.1 a); simpl; [|done]. unfold when. by destruct (p k.2).
  - rewrite <- cnt_split.
    + apply cnt_ext. intros r _. destruct (decide (group_key r = k)) as [->|Hne].
      * rewrite (bool_decide_eq_true_2 (k = k)), (bool_decide_eq_true_2 (k ∈ k :: ks)), (bool_decide_eq_false_2 (k ∈ ks)) by (done || by left).
        simpl. by rewrite orb_false_r.
      * rewrite (bool_decide_eq_false_2 (group_key r = k)) by done. simpl. f_equal. apply bool_decide_ext. set_solver.
    + intros r H1 H2. b2p. destruct H1 as [H1 _], H2 as [H2 _]. congruence.
Qed.
Lemma sum_of_window p a cutoff table :
  sum_of p (own c_agent a (type_counts_since cutoff table))
    = cnt (fun r => since cutoff r && (str_eqb (filed r) a && p (type_ r))) table.
Proof.
  unfold type_counts_since. change (map _ ?l) with (map (count_of (List.filter (since cutoff) table)) l).
  rewrite sum_of_groups by apply NoDup_remove_dups. rewrite <- (cnt_filter (fun r => str_eqb (filed r) a && p (type_ r)) (since cutoff) table). apply cnt_ext. intros r Hr.
  rewrite bool_decide_eq_true_2; [done|]. apply elem_of_remove_dups. apply list_elem_of_fmap. by exists r.
Qed.

(** *** The three passes, field by field *)

Lemma sum_of_cons p c cs : sum_of p (c :: cs) = when (p (c_type c)) (count c) + sum_of p cs.
Proof. done. Qed.
Lemma default_bump t t' n m : default 0 (bump t n m !! t') = default 0 (m !! t') + when (str_eqb t' t) n.
Proof.
  unfold bump, when. destruct (str_eqb t' t) eqn:E.
  - apply str_eqb_eq in E as ->. by rewrite lookup_insert_eq.
  - apply str_eqb_neq in E. rewrite lookup_insert_ne by done. lia.
Qed.
Lemma add_counts cs e :
  let e' := fold_left (fun e c => add_count c e) cs e in
  st_agent e' = st_agent e /\ blocked e' = blocked e + sum_of (one_of BLOCKED_TYPES) cs
  /\ anomalies e' = anomalies e + sum_of (one_of ANOMALY_TYPES) cs
  /\ budget_events e' = budget_events e + sum_of (one_of BUDGET_TYPES) cs
  /\ blocked_by_operator e' = blocked_by_operator e
  /\ worst_overshoot_microusd e' = worst_overshoot_microusd e /\ by_detector e' = by_detector e
  /\ forall t, default 0 (by_type e' !! t) = default 0 (by_type e !! t) + sum_of (str_eqb t) cs.
Proof.
  revert e. induction cs as [|c cs IH]; intros e; cbn [fold_left]; [repeat split; intros; unfold sum_of; simpl; lia|].
  destruct (IH (add_count c e)) as (H1&H2&H3&H4&H5&H6&H7&H8). cbv zeta in *.
  rewrite H1, H2, H3, H4, H5, H6, H7, !sum_of_cons.
  cbn [add_count st_agent blocked anomalies budget_events blocked_by_operator worst_overshoot_microusd by_detector].
  repeat split; try lia. intros t. rewrite H8, sum_of_cons. cbn [add_count by_type]. rewrite default_bump. lia.
Qed.

Definition finds (d : str) (r : Row) : bool := bool_decide (detector_of r = Some d).
Lemma add_details rs e :
  let e' := fold_left (fun e r => add_detail r e) rs e in
  st_agent e' = st_agent e /\ blocked e' = blocked e /\ anomalies e' = anomalies e
  /\ budget_events e' = budget_events e /\ by_type e' = by_type e
  /\ blocked_by_operator e' = blocked_by_operator e + cnt by_person rs
  /\ forall d, default 0 (by_detector e' !! d) = default 0 (by_detector e !! d) + cnt (finds d) rs.
Proof.
  revert e. induction rs as [|r rs IH]; intros e; cbn [fold_left].
  { unfold cnt. simpl. repeat split; intros; lia. }
  destruct (IH (add_detail r e)) as (H1&H2&H3&H4&H5&H6&H7). cbv zeta in *. rewrite H1, H2, H3, H4, H5, H6.
  cbn [add_detail st_agent blocked anomalies budget_events by_type blocked_by_operator].
  repeat split; try (rewrite cnt_cons; lia). intros d. rewrite H7, cnt_cons. cbn [add_detail by_detector]. unfold finds at 2.
  destruct (detector_of r) as [d'|]; [|rewrite bool_decide_eq_false_2 by done; unfold when; lia].
  rewrite default_bump. destruct (decide (d = d')) as [->|Hne].
  - rewrite str_eqb_refl, bool_decide_eq_true_2 by done. lia.
  - apply str_eqb_neq in Hne as E. rewrite E, bool_decide_eq_false_2 by congruence. unfold when. lia.
Qed.

(** The worst of what was recorded. *)
Definition is_worst (w : option Z) (rs : list Row) : Prop :=
  match w with
  | None => forall r, r ∈ rs -> overshot r = None
  | Some w => (forall r o, r ∈ rs -> overshot r = Some o -> o <= w) /\ exists r, r ∈ rs /\ overshot r = Some w
  end.
Lemma million_nonneg : nonneg (of_Z MILLION) = true.
Proof. vm_compute. reflexivity. Qed.
Lemma dollars_nonneg x : 0 <= Double.to_i64 (round (mul (fmax x zero) (of_Z MILLION))).
Proof.
  apply to_i64_nonneg. destruct (mul_nonneg (fmax x zero) (of_Z MILLION) (fmax_zero x) million_nonneg) as [Hm|Hm].
  - by apply round_nonneg.
  - right. by rewrite Hm.
Qed.
Lemma overshoot_nonneg d o : overshoot_of d = Some o -> 0 <= o.
Proof.
  unfold overshoot_of. repeat case_match; intros [= <-]; first [lia | apply dollars_nonneg].
Qed.
Lemma overshot_nonneg r o : overshot r = Some o -> 0 <= o.
Proof. unfold overshot. destruct (data r); [apply overshoot_nonneg|done]. Qed.
Definition worse (w : option Z) (r : Row) : option Z :=
  match overshot r with Some o => Some (Z.max (default 0 w) o) | None => w end.
Lemma details_worst rs e :
  worst_overshoot_microusd (fold_left (fun e r => add_detail r e) rs e) = fold_left worse rs (worst_overshoot_microusd e).
Proof. revert e. induction rs as [|r rs IH]; intros e; [done|]. cbn [fold_left]. by rewrite IH. Qed.
Lemma worst_is_worst rs : is_worst (fold_left worse rs None) rs.
Proof.
  induction rs as [|r rs IH] using rev_ind; [by intros r ?%not_elem_of_nil|].
  rewrite fold_left_app. cbn [fold_left]. unfold worse at 1. unfold is_worst in *.
  destruct (overshot r) as [o|] eqn:E.
  - apply overshot_nonneg in E as Ho. destruct (fold_left worse rs None) as [w|]; cbn [from_option Datatypes.id].
    + destruct IH as [H1 (r0&H2&H3)]. apply overshot_nonneg in H3 as Hw. split.
      * intros r' o' [Hr| ->%list_elem_of_singleton]%elem_of_app Ho'; [specialize (H1 r' o' Hr Ho'); lia|].
        rewrite E in Ho'. injection Ho' as <-. lia.
      * destruct (Z.le_gt_cases w o); [exists r; rewrite Z.max_r by done|exists r0; rewrite Z.max_l by lia]; set_solver.
    + rewrite Z.max_r by done. split.
      * intros r' o' [Hr| ->%list_elem_of_singleton]%elem_of_app Ho'; [by rewrite IH in Ho'|].
        rewrite E in Ho'. injection Ho' as <-. lia.
      * exists r. set_solver.
  - destruct (fold_left worse rs None) as [w|].
    + destruct IH as [H1 (r0&H2&H3)]. split; [|exists r0; set_solver].
      intros r' o' [Hr| ->%list_elem_of_singleton]%elem_of_app Ho'; [by eapply H1|congruence].
    + intros r' [Hr| ->%list_elem_of_singleton]%elem_of_app; [by apply IH|done].
Qed.

Lemma add_halts hs e :
  let e' := fold_left (fun e x => add_halt x e) hs e in
  st_agent e' = st_agent e /\ blocked e' = blocked e + Z.of_nat (length hs)
  /\ blocked_by_operator e' = blocked_by_operator e + Z.of_nat (length hs)
  /\ anomalies e' = anomalies e /\ budget_events e' = budget_events e
  /\ worst_overshoot_microusd e' = worst_overshoot_microusd e /\ by_type e' = by_type e /\ by_detector e' = by_detector e.
Proof.
  revert e. induction hs as [|h hs IH]; intros e; cbn [fold_left length]; [repeat split; lia|].
  destruct (IH (add_halt h e)) as (H1&H2&H3&H4&H5&H6&H7&H8). cbv zeta in *. rewrite H1, H2, H3, H4, H5, H6, H7, H8.
  cbn [add_halt st_agent blocked anomalies budget_events by_type blocked_by_operator worst_overshoot_microusd by_detector].
  repeat split; lia.
Qed.

Lemma elem_of_into_values m e : e ∈ into_values m <-> exists a, m !! a = Some e.
Proof.
  unfold into_values. rewrite list_elem_of_omap. split; [by intros (a&_&H); exists a|]. intros [a H]. exists a. split; [|done].
  rewrite merge_sort_Permutation. apply elem_of_elements, elem_of_dom. by exists e.
Qed.

(** What the store's rows say of one agent: the events of the window filed
    under it, and the details read. *)
Definition of_agent (cutoff : option Z) (a : str) (p : str -> bool) (r : Row) : bool :=
  since cutoff r && (str_eqb (filed r) a && p (type_ r)).
Definition halted (a : str) (rows : list Row) : Z := cnt (fun h => str_eqb h a) (halts_of rows).
Definition says_the_window (cutoff : option Z) (table rows : list Row) (e : AgentStats) : Prop :=
  let a := st_agent e in
  let count p := cnt (of_agent cutoff a p) table in
  blocked e = count (one_of BLOCKED_TYPES) + halted a rows /\
  anomalies e = count (one_of ANOMALY_TYPES) /\
  budget_events e = count (one_of BUDGET_TYPES) /\
  (forall t, default 0 (by_type e !! t) = count (str_eqb t)) /\
  blocked_by_operator e = cnt (fun r => str_eqb (filed r) a && by_person r) rows + halted a rows /\
  (forall d, default 0 (by_detector e !! d) = cnt (fun r => str_eqb (filed r) a && finds d r) rows) /\
  is_worst (worst_overshoot_microusd e) (own filed a rows).

Lemma row_says_the_window cutoff table rows a :
  let e := row_of_agent a (type_counts_since cutoff table) rows in
  st_agent e = a /\ says_the_window cutoff table rows e.
Proof.
  cbv zeta. unfold row_of_agent.
  set (cs := own c_agent a (type_counts_since cutoff table)). set (e1 := fold_left (fun e c => add_count c e) cs (new_stats a)).
  set (e2 := fold_left (fun e r => add_detail r e) (own filed a rows) e1).
  destruct (add_counts cs (new_stats a)) as (A1&A2&A3&A4&A5&A6&A7&A8). fold e1 in A1, A2, A3, A4, A5, A6, A7, A8.
  destruct (add_details (own filed a rows) e1) as (B1&B2&B3&B4&B5&B6&B7). fold e2 in B1, B2, B3, B4, B5, B6, B7.
  pose proof (details_worst (own filed a rows) e1) as B8. fold e2 in B8.
  destruct (add_halts (own (fun h => h) a (halts_of rows)) e2) as (C1&C2&C3&C4&C5&C6&C7&C8). cbv zeta in *.
  set (e3 := fold_left (fun e x => add_halt x e) _ e2) in *.
  assert (st_agent e3 = a) as Ea by (rewrite C1, B1, A1; done). split; [exact Ea|].
  unfold says_the_window. cbv zeta. rewrite Ea. unfold of_agent, halted, cnt at 2 7 8.
  rewrite C2, C3, C4, C5, C6, C7, C8, B2, B3, B4, B5, B6, B8, A2, A3, A4, A5, A6.
  split; [|split; [|split; [|split; [|split; [|split]]]]].
  - unfold cs. rewrite sum_of_window. unfold own, cnt. simpl. lia.
  - unfold cs. rewrite sum_of_window. unfold own, cnt. simpl. lia.
  - unfold cs. rewrite sum_of_window. unfold own, cnt. simpl. lia.
  - intros t. rewrite A8. unfold cs. rewrite sum_of_window. cbn [new_stats by_type]. by rewrite lookup_empty.
  - unfold own at 1. rewrite cnt_filter. cbn [new_stats blocked_by_operator]. unfold own, cnt. simpl. lia.
  - intros d. rewrite B7, A7. unfold own. rewrite cnt_filter. cbn [new_stats by_detector]. by rewrite lookup_empty.
  - cbn [new_stats worst_overshoot_microusd]. apply worst_is_worst.
Qed.

(** *** The panel *)

Lemma cnt_firstn {A} (p : A -> bool) n l : cnt p (firstn n l) <= cnt p l.
Proof. rewrite <- (firstn_skipn n l) at 2. unfold cnt. rewrite List.filter_app, length_app. lia. Qed.
Lemma cnt_rev {A} (p : A -> bool) l : cnt p (rev l) = cnt p l.
Proof. unfold cnt. induction l as [|x l IH]; [done|]. simpl. rewrite List.filter_app, length_app. simpl. destruct (p x); simpl; lia. Qed.

Definition details (cutoff : option Z) (limit : Z) (table : list Row) : list Row :=
  events_of_types_since DETAIL_TYPES AMOUNT_FIELDS cutoff (Z.to_nat limit) table.
Definition all_details (cutoff : option Z) (table : list Row) : list Row :=
  List.filter (fun r => wanted DETAIL_TYPES AMOUNT_FIELDS r && since cutoff r) (newest_first table).
Lemma details_firstn cutoff limit table : details cutoff limit table = firstn (Z.to_nat limit) (all_details cutoff table).
Proof. done. Qed.
Lemma operator_stops_within cutoff limit table a :
  cnt (fun r => str_eqb (filed r) a && by_person r) (details cutoff limit table)
    <= cnt (of_agent cutoff a (one_of BLOCKED_TYPES)) table.
Proof.
  rewrite details_firstn. etrans; [apply cnt_firstn|]. unfold all_details, newest_first. rewrite cnt_filter, cnt_rev.
  apply cnt_le. intros r _ H. unfold of_agent, by_person in *. b2p. naive_solver.
Qed.
Lemma refusal_is_filed_under_a_key r : type_ r = Case.IDENTITY_MISMATCH -> starts_with Case.KEY_PREFIX (filed r) = true.
Proof.
  intros E. unfold filed, Case.filed_under. rewrite E, str_eqb_refl. cbn [negb].
  destruct (Case.key_id (data r)) as [k|]; [apply starts_with_app|done].
Qed.

Lemma halted_firstn a n rows : halted a (firstn n rows) <= halted a rows.
Proof.
  rewrite <- (firstn_skipn n rows) at 2. unfold halted, halts_of, cnt. rewrite flat_map_app, List.filter_app, length_app. lia.
Qed.
Lemma told_or_not counts rows a : told_of a counts rows \/ ~ told_of a counts rows.
Proof.
  unfold told_of.
  destruct (own c_agent a counts) as [|c cs] eqn:Ec; [|left; left; exists c; assert (c ∈ own c_agent a counts) as H by (rewrite Ec; by left); apply in_filter in H as [H ?%str_eqb_eq]; by split].
  destruct (own filed a rows) as [|r rs] eqn:Er; [|left; right; left; exists r; assert (r ∈ own filed a rows) as H by (rewrite Er; by left); apply in_filter in H as [H ?%str_eqb_eq]; by split].
  destruct (decide (a ∈ halts_of rows)) as [H|H]; [left; by right; right|]. right.
  pose proof (proj1 (own_nil _ _ _) Ec) as H1. pose proof (proj1 (own_nil _ _ _) Er) as H2.
  intros [(c&Hc&E)|[(r&Hr&E)|Ha]]; [by eapply H1|by eapply H2|done].
Qed.
Lemma own_nil_filter {A} (p : A -> bool) l : (forall x, x ∈ l -> p x = false) -> List.filter p l = [].
Proof. induction l as [|x l IH]; intros H; [done|]. simpl. rewrite H by (by left). apply IH. intros y Hy. apply H. by right. Qed.

Section Panels.
Context {CA : Calendar}.

(** C28: A panel says what the store holds, operator blocks as far as it read
    them.  Each row counts exactly the events of the window filed under its
    agent, by type and as stops, anomalies and budget events, whatever the cap
    on details; to the stops it adds one for each operator block that halted the
    agent among the detail rows read, so under a cap it is never more, and may be
    less, than the store's own count of both.  Every subject with an event in the
    window has its row and no two rows are one agent's.  Who halted whom, which
    detector fired and the worst overshoot are those of the detail rows; when the
    panel does not say it was cut, those are all there are.  Over one table the
    stops by a person are among the stops; and no identity refusal is counted
    under the agent its caller claimed to be. *)
Theorem panel_counts_the_window scan days now counts_table detail_table span undated :
  0 < scan ->
  let p := stats_counts scan days now (Opened (mkReads (Ok counts_table) (Ok detail_table) span undated)) in
  let cutoff := cutoff_of days now in
  let rows := details cutoff scan detail_table in
  measured p = true /\
  (forall e, e ∈ agents p -> says_the_window cutoff counts_table rows e) /\
  (forall e, e ∈ agents p ->
     let stops := cnt (of_agent cutoff (st_agent e) (one_of BLOCKED_TYPES)) counts_table in
     stops <= blocked e <= stops + halted (st_agent e) (all_details cutoff detail_table)) /\
  (forall r, r ∈ counts_table -> since cutoff r = true -> exists e, e ∈ agents p /\ st_agent e = filed r) /\
  (forall e e', e ∈ agents p -> e' ∈ agents p -> st_agent e = st_agent e' -> e = e') /\
  (detail_truncated p = false -> rows = all_details cutoff detail_table) /\
  (counts_table = detail_table -> forall e, e ∈ agents p -> blocked_by_operator e <= blocked e) /\
  (forall e, e ∈ agents p -> starts_with Case.KEY_PREFIX (st_agent e) = false ->
             default 0 (by_type e !! Case.IDENTITY_MISMATCH) = 0).
Proof.
  intros Hscan p cutoff rows.
  assert (forall e, e ∈ agents p -> exists a, by_agent (type_counts_since cutoff counts_table) rows !! a = Some e
            /\ e = row_of_agent a (type_counts_since cutoff counts_table) rows) as Hrow.
  { intros e He. apply elem_of_into_values in He as [a Ha]. exists a.
    change (by_agent (type_counts_since cutoff counts_table) rows !! a = Some e) in Ha. split; [exact Ha|].
    destruct (by_agent_row (type_counts_since cutoff counts_table) rows a) as [H1 H2].
    destruct (told_or_not (type_counts_since cutoff counts_table) rows a) as [Ht|Ht].
    - rewrite H1 in Ha by done. congruence.
    - by rewrite H2 in Ha by done. }
  assert (forall e, e ∈ agents p -> says_the_window cutoff counts_table rows e) as Hsays.
  { intros e He. destruct (Hrow e He) as (a&_& ->). apply row_says_the_window. }
  split; [done|]. split; [done|]. split; [|split; [|split; [|split; [|split]]]].
  - intros e He. destruct (Hsays e He) as [Hb _]. rewrite Hb. pose proof (halted_firstn (st_agent e) (Z.to_nat scan) (all_details cutoff detail_table)) as Hle.
    change rows with (firstn (Z.to_nat scan) (all_details cutoff detail_table)). unfold halted, cnt in *. lia.
  - intros r Hr Hw.
    assert (told_of (filed r) (type_counts_since cutoff counts_table) rows) as Ht.
    { left. exists (count_of (List.filter (since cutoff) counts_table) (group_key r)). split; [|done].
      unfold type_counts_since. apply list_elem_of_fmap. exists (group_key r). split; [done|].
      apply elem_of_remove_dups, list_elem_of_fmap. exists r. split; [done|]. by apply in_filter. }
    exists (row_of_agent (filed r) (type_counts_since cutoff counts_table) rows). split.
    + apply elem_of_into_values. exists (filed r). by apply by_agent_row.
    + apply row_says_the_window.
  - intros e e' He He' E. destruct (Hrow e He) as (a&_& ->), (Hrow e' He') as (a'&_& ->).
    rewrite (proj1 (row_says_the_window cutoff counts_table rows a)) in E.
    rewrite (proj1 (row_says_the_window cutoff counts_table rows a')) in E. by subst.
  - intros Ht. cbn [p stats_counts detail_truncated counts_read detail_read] in Ht. fold cutoff in Ht.
    change (events_of_types_since DETAIL_TYPES AMOUNT_FIELDS cutoff (Z.to_nat scan) detail_table) with rows in Ht.
    unfold rows in *. rewrite details_firstn in *. rewrite firstn_all2; [done|].
    rewrite length_firstn in Ht. apply andb_false_iff in Ht as [Ht|Ht]; b2p; lia.
  - intros <- e He. destruct (Hsays e He) as (Hb&_&_&_&Ho&_). rewrite Hb, Ho.
    pose proof (operator_stops_within cutoff scan counts_table (st_agent e)) as Hle. fold rows in Hle. lia.
  - intros e He Hk. destruct (Hsays e He) as (_&_&_&Ht&_). rewrite Ht. unfold cnt.
    replace (List.filter _ counts_table) with (@nil Row); [done|]. symmetry. apply own_nil_filter.
    intros r _. unfold of_agent. destruct (str_eqb Case.IDENTITY_MISMATCH (type_ r)) eqn:E; [|by rewrite !andb_false_r].
    apply str_eqb_eq in E. destruct (str_eqb (filed r) (st_agent e)) eqn:Ef; [|by rewrite andb_false_r].
    apply str_eqb_eq in Ef. rewrite <- Ef, refusal_is_filed_under_a_key in Hk by done. done.
Qed.
End Panels.

(** ** The stops of one agent *)

Record StopEntry : Type := mkStop
  { se_ts : str; se_type : str; se_source : str; actor : option str; reason : option str; se_by_operator : bool }.
Record StopsPanel : Type := mkStops
  { s_measured : bool; s_note : option str; total : Z; by_operator : Z; entries : list StopEntry }.
Definition stops_unmeasured (why : str) : StopsPanel := mkStops false (Some why) 0 0 [].
Definition REASON_KEYS : list str := [ #"reason"; #"detail"; #"summary"; #"policy_id"; #"wrongdoing"].

Definition filled (v : value) : option str :=
  let! s := as_str v in if bool_decide (trim s = []) then None else Some s.
Definition or_else {A} (a b : option A) : option A := match a with Some _ => a | None => b end.
Definition actor_of (data : option value) : option str :=
  let! v := (let! d := data in or_else (get #"actor" d) (or_else (get #"decided_by" d) (get #"operator" d))) in
  filled v.
Definition reason_of (data : option value) : option str :=
  hd_error (omap (fun k => let! v := (let! d := data in get k d) in filled v) REASON_KEYS).

Definition is_mine (agent : str) (r : Row) : bool :=
  if str_eqb (type_ r) CONSOLE_COMMAND then existsb (str_eqb agent) (agents_halted_by (data r))
  else str_eqb (filed r) agent.
Definition stop_entry (r : Row) : StopEntry :=
  mkStop (ts r) (type_ r) (source r) (actor_of (data r)) (reason_of (data r))
    (str_eqb (type_ r) CONSOLE_COMMAND || is_operator_stop (type_ r) (data r) || bool_decide (is_Some (actor_of (data r)))).
Definition newest_first_by_text (a b : StopEntry) : bool := str_leb (se_ts b) (se_ts a).
Definition STOP_TYPES : list str := BLOCKED_TYPES ++ [CONSOLE_COMMAND].
Definition stops_note (total by_operator : Z) : str :=
  dec total ++ #" stop(s) on the bus for this agent, " ++ dec by_operator ++ #" of them named a person."
  ++ #" An operator FREEZE is enforced as an ordinary deny-all policy, so the refusals that follow it arrive as plain policy_deny and are listed on the system side: the freeze itself is here, its consequences are not attributed to it.".
Definition nothing_read : str := #", so nothing here was read.                  This is not a report that this agent was never stopped.".

(** [table] is the store: no directory, not opened, or what the one query saw. *)
Definition agent_stops (agent : str) (limit : Z) (table : option (result (result (list Row) str) str)) : StopsPanel :=
  match table with
  | None => stops_unmeasured #"The console has no event store on this box, so nothing here was read.              This is not a report that this agent was never stopped."
  | Some (Err e) => stops_unmeasured (#"The event store could not be opened (" ++ e ++ #")" ++ nothing_read)
  | Some (Ok (Err e)) => stops_unmeasured (#"The event store could not be queried (" ++ e ++ #")" ++ nothing_read)
  | Some (Ok (Ok table)) =>
      let rows := events_of_types_since STOP_TYPES [] None (Z.to_nat (Z.max limit 1)) table in
      let entries := isort newest_first_by_text (map stop_entry (List.filter (is_mine agent) rows)) in
      let by_operator := cnt se_by_operator entries in
      let total := Z.of_nat (length entries) in
      mkStops true (Some (stops_note total by_operator)) total by_operator entries
  end.

(** The stops the store holds of an agent: what stopped it, and the console's
    own blocks that halted it. *)
Definition stopped (agent : str) (r : Row) : bool := one_of STOP_TYPES (type_ r) && is_mine agent r.

Lemma cnt_perm {A} (p : A -> bool) l l' : Permutation l l' -> cnt p l = cnt p l'.
Proof.
  induction 1 as [|x l l' H IH|x y l|l l' l'' H1 IH1 H2 IH2]; [done|by rewrite !cnt_cons, IH|rewrite !cnt_cons; lia|congruence].
Qed.
Lemma filter_filter {A} (p q : A -> bool) l : List.filter p (List.filter q l) = List.filter (fun x => q x && p x) l.
Proof. induction l as [|x l IH]; [done|]. simpl. destruct (q x); simpl; [|done]. by destruct (p x); rewrite IH. Qed.
Lemma filter_ext_all {A} (p q : A -> bool) l : (forall x, p x = q x) -> List.filter p l = List.filter q l.
Proof. intros H. induction l as [|x l IH]; [done|]. simpl. by rewrite H, IH. Qed.

(** While the stops the store holds of all agents fit the limit, an
    agent's list is complete: it has one entry for each of the agent's stops
    and nothing else, newest first by the producers' time text, and its two
    figures count that list. *)
Theorem stop_list_is_complete agent limit table :
  cnt (fun r => one_of STOP_TYPES (type_ r)) table <= limit ->
  let p := agent_stops agent limit (Some (Ok (Ok table))) in
  s_measured p = true /\
  Permutation (entries p) (map stop_entry (List.filter (stopped agent) table)) /\
  StronglySorted (fun a b => newest_first_by_text a b = true) (entries p) /\
  total p = cnt (stopped agent) table /\
  by_operator p = cnt (fun r => stopped agent r && se_by_operator (stop_entry r)) table.
Proof.
  intros Hl. cbv zeta. cbn [agent_stops s_measured entries total by_operator].
  set (rows := events_of_types_since STOP_TYPES [] None (Z.to_nat (Z.max limit 1)) table).
  assert (rows = List.filter (fun r => one_of STOP_TYPES (type_ r)) (rev table)) as ->.
  { unfold rows. change (events_of_types_since STOP_TYPES [] None (Z.to_nat (Z.max limit 1)) table)
      with (firstn (Z.to_nat (Z.max limit 1)) (List.filter (fun r => wanted STOP_TYPES [] r && true) (rev table))).
    rewrite (filter_ext_all _ (fun r => one_of STOP_TYPES (type_ r))).
    - apply firstn_all2. pose proof (cnt_rev (fun r => one_of STOP_TYPES (type_ r)) table) as Hr. unfold cnt in *. lia.
    - intros r. unfold wanted. cbn [existsb]. by rewrite orb_false_r, andb_true_r. }
  rewrite filter_filter. fold (stopped agent).
  assert (Permutation (isort newest_first_by_text (map stop_entry (List.filter (stopped agent) (rev table))))
            (map stop_entry (List.filter (stopped agent) table))) as Hp.
  { rewrite isort_perm. apply Permutation_map. rewrite filter_rev. symmetry. apply Permutation_rev. }
  split; [done|]. split; [exact Hp|]. split; [|split].
  - apply isort_sorted.
    + intros a b. unfold newest_first_by_text. apply lex_leb_total.
    + intros a b c. unfold newest_first_by_text. intros H1 H2. by eapply lex_leb_trans.
  - rewrite Hp, length_map. done.
  - rewrite (cnt_perm _ _ _ Hp). unfold cnt. f_equal. clear. induction table as [|r table IH]; [done|]. cbn [List.filter map].
    destruct (stopped agent r); cbn [List.filter map andb]; [|done]. by destruct (se_by_operator (stop_entry r)); cbn [length]; rewrite IH.
Qed.

(** ** One agent's days *)

Definition MIN_DAYS_FOR_NORMAL : Z := 14.
Definition TREND_DAYS : nat := 7.

Inductive Confidence : Type := NoData | TooNew | Normal.
Inductive Direction : Type := Rising | Falling | Steady | Unknown.
Record AgentProfile : Type := mkProfile
  { pf_agent : str; confidence : Confidence; days_held : Z; pf_total : Z; median_day : double; latest_full_day : Z;
    times_median : option double; busiest_day_share : double; direction : Direction; top_type : option str;
    top_type_share : double; daily : list Z }.
Definition empty_profile (agent : str) : AgentProfile :=
  mkProfile agent NoData 0 0 zero 0 None zero Unknown None zero [].

Definition hundredths (x : double) : double := div (round (mul x (of_Z 100))) (of_Z 100).
Definition median (values : list Z) : double :=
  match values with
  | [] => zero
  | _ =>
      let v := isort Z.leb values in
      let mid := (length v / 2)%nat in
      if Nat.odd (length v) then of_Z (nth mid v 0)
      else div (add (of_Z (nth (mid - 1) v 0)) (of_Z (nth mid v 0))) (of_Z 2)
  end.
Definition sum (l : list Z) : Z := fold_right Z.add 0 l.
(** The doubles nearest 1.25 and 0.8. *)
Definition above_band : double := of_dec (F64 false [1; 2; 5] 0).
Definition below_band : double := of_dec (F64 false [8] (-1)).
Definition direction_of (daily : list Z) : Direction :=
  let need := (TREND_DAYS * 2)%nat in
  let n := length daily in
  if (n <? need)%nat then Unknown
  else
    let recent := sum (skipn (n - TREND_DAYS) daily) in
    let prior := sum (firstn TREND_DAYS (skipn (n - need) daily)) in
    if recent =? prior then Steady
    else if prior =? 0 then Rising
    else
      let ratio := div (of_Z recent) (of_Z prior) in
      if leb above_band ratio then Rising else if leb ratio below_band then Falling else Steady.

(** The days from [start] to [today], each with no event yet. *)
Definition days_from (start today : Z) : list Z := map (fun n => start + Z.of_nat n) (seq 0 (Z.to_nat (today - start + 1))).
Definition fill (start today : Z) (rows : list DayTypeCount) : gmap Z Z :=
  fold_left (fun m r => <[d_day r := default 0 (m !! d_day r) + d_count r]> m) rows
    (list_to_map (map (fun d => (d, 0)) (days_from start today))).
Definition day_values (m : gmap Z Z) : list Z :=
  map (fun d => default 0 (m !! d)) (isort Z.leb (elements (dom m))).
Definition per_type (rows : list DayTypeCount) : gmap str Z :=
  fold_left (fun m r => bump (d_type r) (d_count r) m) rows ∅.
(** [max_by_key]: the last of the largest, in key order. *)
Definition largest (m : gmap str Z) : option (str * Z) :=
  fold_left (fun best x => match best with Some b => if x.2 <? b.2 then best else Some x | None => Some x end)
    (map (fun t => (t, default 0 (m !! t))) (isort str_leb (elements (dom m)))) None.

(** The profile of one agent from what its two queries gave. *)
Definition profile_of (agent : str) (window_days now : Z) (rows : list DayTypeCount) (first_day : option Z) : AgentProfile :=
  let today := Z.quot now DAY_MS in
  let window_start := today - Z.max window_days 1 + 1 in
  match first_day with
  | None => empty_profile agent
  | Some first_day =>
      let start := Z.max first_day window_start in
      let held := Z.max (today - start + 1) 0 in
      let mine := List.filter (fun r => start <=? d_day r) rows in
      let total := sum (map d_count mine) in
      let daily := day_values (fill start today mine) in
      let n := length daily in
      let latest := if (2 <=? n)%nat then nth (n - 2) daily 0 else 0 in
      let baseline := if (2 <=? n)%nat then firstn (n - 2) daily else [] in
      let m := median baseline in
      let conf := if (total =? 0) && (held =? 0) then NoData
                  else if held <? MIN_DAYS_FOR_NORMAL then TooNew else Normal in
      let times := match conf with
                   | Normal => if ltb zero m then Some (hundredths (div (of_Z latest) m)) else None
                   | _ => None
                   end in
      let busiest := fold_right Z.max 0 daily in
      let share := if 0 <? total then div (of_Z busiest) (of_Z total) else zero in
      let top := match largest (per_type mine) with
                 | Some (name, n) => if 0 <? total then (Some name, div (of_Z n) (of_Z total)) else (None, zero)
                 | None => (None, zero)
                 end in
      mkProfile agent conf held total m latest times (hundredths share) (direction_of daily) top.1 (hundredths top.2) daily
  end.
(** Each query sees its own table; no store, no answer.  The window's start in
    milliseconds is a 64-bit product, which wraps in a release build. *)
Definition agent_profile (agent : str) (window_days now : Z) (store : option (option (list Row) * option (list Row)))
  : option AgentProfile :=
  let! reads := store in
  let! table1 := reads.1 in
  let! table2 := reads.2 in
  let window_start := Z.quot now DAY_MS - Z.max window_days 1 + 1 in
  Some (profile_of agent window_days now (daily_type_counts agent (Approver.i64_wrap (window_start * DAY_MS)) table1)
          (first_day_for_agent agent table2)).

(** *** The days of a profile *)

Lemma sum_groups {A K} `{EqDecision K} (key : A -> option K) (q : K -> bool) l ks : NoDup ks ->
  sum (map (fun k => when (q k) (cnt (fun x => bool_decide (key x = Some k)) l)) ks)
    = cnt (fun x => match key x with Some k => bool_decide (k ∈ ks) && q k | None => false end) l.
Proof.
  induction 1 as [|k ks Hk Hn IH]; cbn [map].
  { unfold sum, cnt. rewrite (own_nil_filter _ l); [done|]. intros x _. by destruct (key x). }
  change (sum (?a :: ?b)) with (a + sum b). rewrite IH.
  transitivity (cnt (fun x => bool_decide (key x = Some k) && q k) l
                + cnt (fun x => match key x with Some k => bool_decide (k ∈ ks) && q k | None => false end) l).
  - f_equal. unfold when. destruct (q k).
    + apply cnt_ext. intros x _. by rewrite andb_true_r.
    + unfold cnt. rewrite (own_nil_filter _ l); [done|]. intros x _. by rewrite andb_false_r.
  - rewrite <- cnt_split.
    + apply cnt_ext. intros x _. destruct (key x) as [k'|]; [|by rewrite bool_decide_eq_false_2].
      destruct (decide (k' = k)) as [->|Hne].
      * rewrite (bool_decide_eq_true_2 (Some k = Some k)), (bool_decide_eq_true_2 (k ∈ k :: ks)), (bool_decide_eq_false_2 (k ∈ ks)) by (done || by left).
        simpl. by rewrite orb_false_r.
      * rewrite (bool_decide_eq_false_2 (Some k' = Some k)) by congruence. simpl. f_equal. apply bool_decide_ext. set_solver.
    + intros x H1 H2. destruct (key x) as [k'|]; [|done]. b2p. destruct H1 as [H1 _], H2 as [H2 _]. congruence.
Qed.

Definition on_day (d : Z) (rs : list DayTypeCount) : Z := sum (map (fun r => when (d_day r =? d) (d_count r)) rs).
Lemma fill_lookup start today rs d :
  fill start today rs !! d
    = if bool_decide (d ∈ days_from start today) || existsb (fun r => d_day r =? d) rs then Some (on_day d rs) else None.
Proof.
  unfold fill. set (m0 := list_to_map _ : gmap Z Z).
  assert (m0 !! d = if bool_decide (d ∈ days_from start today) then Some 0 else None) as H0.
  { unfold m0. case_bool_decide as Hd.
    - apply elem_of_list_to_map_1'.
      + intros y Hy. apply list_elem_of_fmap in Hy as (?&[= <- ->]&_). done.
      + apply list_elem_of_fmap. by exists d.
    - apply not_elem_of_list_to_map_1. intros (x&->&Hx)%list_elem_of_fmap. apply list_elem_of_fmap in Hx as (y&->&Hy). done. }
  clearbody m0. induction rs as [|r rs IH] using rev_ind; [by rewrite orb_false_r|].
  rewrite fold_left_app, existsb_app. cbn [fold_left existsb]. rewrite orb_false_r. unfold on_day in *. rewrite map_app.
  assert (forall a b, sum (a ++ b) = sum a + sum b) as Hsum
    by (intros a b; unfold sum; induction a as [|x a IHa]; simpl; [done|]; rewrite IHa; lia).
  rewrite Hsum. cbn [map]. unfold when at 2. destruct (Z.eqb_spec (d_day r) d) as [<-|Hne].
  - rewrite lookup_insert_eq, !orb_true_r. f_equal. rewrite IH.
    destruct (bool_decide _ || existsb _ rs) eqn:E; cbn [from_option Datatypes.id]; unfold sum at 3 || unfold sum at 2; simpl; [lia|].
    apply orb_false_iff in E as [_ E]. assert (sum (map (fun r' => when (d_day r' =? d_day r) (d_count r')) rs) = 0) as ->; [|simpl; lia].
    clear -E. induction rs as [|x rs IH]; [done|]. simpl in *. apply orb_false_iff in E as [E1 E2]. rewrite E1. simpl. by apply IH.
  - rewrite lookup_insert_ne, orb_false_r, IH by done. destruct (bool_decide _ || existsb _ rs); [|done]. f_equal. simpl. lia.
Qed.

Lemma elem_of_days start today d : d ∈ days_from start today <-> start <= d <= today.
Proof.
  unfold days_from. rewrite list_elem_of_fmap. split.
  - intros (n&->&Hn). apply elem_of_seq in Hn. lia.
  - intros H. exists (Z.to_nat (d - start)). split; [lia|]. apply elem_of_seq. lia.
Qed.
Lemma days_sorted start today : StronglySorted (fun a b => Z.leb a b = true) (days_from start today).
Proof.
  unfold days_from. generalize (Z.to_nat (today - start + 1)) as n, 0%nat as k. intros n. induction n as [|n IH]; intros k; simpl; constructor; [done|].
  apply Forall_forall. intros x Hx. apply list_elem_of_fmap in Hx as (y&->&Hy). apply elem_of_seq in Hy. lia.
Qed.
Lemma days_NoDup start today : NoDup (days_from start today).
Proof. unfold days_from. apply NoDup_fmap_2; [intros a b H; lia|apply NoDup_seq]. Qed.

Lemma day_values_fill start today rs :
  (forall r, r ∈ rs -> start <= d_day r <= today) ->
  day_values (fill start today rs) = map (fun d => on_day d rs) (days_from start today).
Proof.
  intros Hin. assert (forall d, d ∈ dom (fill start today rs) <-> d ∈ days_from start today) as Hdom.
  { intros d. rewrite elem_of_dom, fill_lookup. case_bool_decide as Hd; simpl; [by split|]. destruct (existsb _ rs) eqn:E.
    - exfalso. apply existsb_exists in E as (r&Hr&<-%Z.eqb_eq). apply Hd, elem_of_days, Hin. by apply list_elem_of_In.
    - split; [by intros [? ?]|done]. }
  assert (isort Z.leb (elements (dom (fill start today rs))) = days_from start today) as E.
  { assert (isort Z.leb (days_from start today) = days_from start today) as <-.
    { apply (sorted_unique Z.leb); [lia|apply isort_sorted; intros; lia|apply days_sorted|apply isort_perm]. }
    apply isort_unique; [lia..|]. apply NoDup_Permutation; [apply NoDup_elements|apply days_NoDup|].
    intros d. by rewrite elem_of_elements. }
  unfold day_values. rewrite E. apply map_ext_in. intros d Hd. apply list_elem_of_In in Hd. rewrite fill_lookup.
  by rewrite bool_decide_eq_true_2.
Qed.

(** The events filed under an agent on one day. *)
Definition events_on (agent : str) (table : list Row) (d : Z) : Z :=
  cnt (fun r => subject_is agent r && bool_decide (day_of r = Some d)) table.
Lemma day_in_window start ws r d : 0 < ws <= start -> start <= d -> day_of r = Some d -> since (Some (ws * DAY_MS)) r = true.
Proof.
  unfold day_of, since, DAY_MS. destruct (ts_ms r) as [t|]; [|done]. cbn [option_map]. intros Hw Hs [= <-].
  apply Z.leb_le. destruct (Z.le_gt_cases 0 t); [rewrite Z.quot_div_nonneg in Hs by lia|].
  - pose proof (Z.mul_div_le t 86400000). nia.
  - assert (Z.quot t 86400000 <= 0); [|lia]. rewrite <- (Z.quot_0_l 86400000) by lia. apply Z.quot_le_mono; lia.
Qed.

Lemma sum_app a b : sum (a ++ b) = sum a + sum b.
Proof. unfold sum. induction a as [|x a IH]; simpl; [done|]. rewrite IH. lia. Qed.
Lemma sum_indicator d n ds : NoDup ds -> d ∈ ds -> sum (map (fun x => when (d =? x) n) ds) = n.
Proof.
  induction 1 as [|x ds Hx Hn IH]; [by intros ?%not_elem_of_nil|]. intros Hd. cbn [map]. change (sum (?a :: ?b)) with (a + sum b).
  unfold when at 1. destruct (Z.eqb_spec d x) as [->|Hne].
  - assert (sum (map (fun y => when (x =? y) n) ds) = 0) as ->; [|lia]. clear -Hx. induction ds as [|y ds IH]; [done|].
    cbn [map]. change (sum (?a :: ?b)) with (a + sum b). rewrite IH by set_solver. unfold when.
    destruct (Z.eqb_spec x y); [set_solver|done].
  - rewrite IH; [lia|]. set_solver.
Qed.
Lemma sum_of_days rs ds : NoDup ds -> (forall r, r ∈ rs -> d_day r ∈ ds) ->
  sum (map (fun d => on_day d rs) ds) = sum (map d_count rs).
Proof.
  intros Hn. induction rs as [|r rs IH]; intros Hin.
  { clear. induction ds as [|d ds IH]; [done|]. cbn [map]. change (sum (?a :: ?b)) with (a + sum b). rewrite IH. done. }
  transitivity (sum (map (fun d => when (d_day r =? d) (d_count r)) ds) + sum (map (fun d => on_day d rs) ds)).
  - clear. induction ds as [|d ds IH]; [done|]. cbn [map]. change (sum (?a :: ?b)) with (a + sum b). rewrite IH.
    unfold on_day at 1. cbn [map]. change (sum (?a :: ?b)) with (a + sum b). fold (on_day d rs). lia.
  - rewrite sum_indicator, IH; [done| |done|apply Hin; by left]. intros r' Hr'. apply Hin. by right.
Qed.

Lemma on_day_counts agent ws start table d :
  0 < ws <= start -> start <= d ->
  on_day d (List.filter (fun r => start <=? d_day r) (daily_type_counts agent (ws * DAY_MS) table)) = events_on agent table d.
Proof.
  intros Hw Hd. unfold daily_type_counts.
  set (window := List.filter (fun r => subject_is agent r && since (Some (ws * DAY_MS)) r) table).
  set (ks := isort earlier_day (remove_dups (omap day_key window))).
  assert (NoDup ks) as Hn by (unfold ks; rewrite isort_perm; apply NoDup_remove_dups).
  transitivity (sum (map (fun k => when (k.1 =? d) (cnt (fun r => bool_decide (day_key r = Some k)) window)) ks)).
  { clear Hn. induction ks as [|k ks IH]; [done|]. cbn [map List.filter d_day].
    change (sum (?a :: ?b)) with (a + sum b). rewrite <- IH. unfold when. destruct (Z.eqb_spec k.1 d) as [E|E].
    - rewrite E. replace (start <=? d) with true by lia. unfold on_day. cbn [map d_day d_count].
      change (sum (?a :: ?b)) with (a + sum b). unfold when at 1. by rewrite Z.eqb_refl.
    - destruct (start <=? k.1); [|done]. unfold on_day at 1. cbn [map d_day d_count]. change (sum (?a :: ?b)) with (a + sum b).
      unfold when at 1. apply Z.eqb_neq in E. rewrite E. done. }
  rewrite (sum_groups day_key (fun k => k.1 =? d)) by done. unfold window, events_on. rewrite cnt_filter. apply cnt_ext. intros r Hr.
  destruct (subject_is agent r) eqn:Es; [|done]. cbn [andb]. unfold day_key. destruct (day_of r) as [d'|] eqn:Ed.
  - cbn [option_map fst]. destruct (Z.eqb_spec d' d) as [->|Hne].
    + rewrite (bool_decide_eq_true_2 (Some d = Some d)), andb_true_r by done.
      rewrite (day_in_window start ws r d Hw Hd Ed). cbn [andb]. apply bool_decide_eq_true_2. unfold ks.
      rewrite elem_of_isort, elem_of_remove_dups. apply list_elem_of_omap. exists r. split.
      * apply in_filter. split; [done|]. by rewrite Es, (day_in_window start ws r d Hw Hd Ed).
      * unfold day_key. by rewrite Ed.
    + rewrite (bool_decide_eq_false_2 (Some d' = Some d)) by congruence. by rewrite !andb_false_r.
  - rewrite bool_decide_eq_false_2 by done. cbn [option_map]. by rewrite andb_false_r.
Qed.

(** With no event of the agent dated after today, a profile is its days
    as they were: one figure for every day from the agent's first (or the
    window's start) to today, empty days included, each the number of events
    filed under the agent on that day; the total is their sum; the day judged is
    yesterday, and neither it nor today is part of the median. *)
Theorem profile_is_the_agents_days agent window_days now table first :
  let today := Z.quot now DAY_MS in
  let ws := today - Z.max window_days 1 + 1 in
  first_day_for_agent agent table = Some first -> first <= today ->
  0 < ws -> 0 <= now <= i64_max ->
  (forall r d, r ∈ table -> subject_is agent r = true -> day_of r = Some d -> d <= today) ->
  exists p, agent_profile agent window_days now (Some (Some table, Some table)) = Some p /\
    let start := Z.max first ws in
    daily p = map (events_on agent table) (days_from start today) /\
    days_held p = today - start + 1 /\
    pf_total p = sum (daily p) /\
    (start < today -> latest_full_day p = events_on agent table (today - 1)) /\
    median_day p = median (map (events_on agent table) (days_from start (today - 2))).
Proof.
  intros today ws Hf Hft Hws Hnow Hpast. eexists. split; [reflexivity|]. unfold agent_profile. cbn [fst snd].
  fold today ws. rewrite Hf. unfold profile_of. fold today ws.
  set (start := Z.max first ws).
  assert (Approver.i64_wrap (ws * DAY_MS) = ws * DAY_MS) as ->.
  { apply Approver.i64_wrap_id. unfold i64_min, DAY_MS in *. assert (ws * 86400000 <= now); [|unfold i64_max in *; nia].
    assert (ws <= today) by lia. unfold today, DAY_MS in *. rewrite Z.quot_div_nonneg in * by lia. pose proof (Z.mul_div_le now 86400000). nia. }
  set (mine := List.filter (fun r => start <=? d_day r) (daily_type_counts agent (ws * DAY_MS) table)).
  assert (forall r, r ∈ mine -> start <= d_day r <= today) as Hin.
  { intros r Hr. apply in_filter in Hr as [Hr Hs]. split; [lia|]. unfold daily_type_counts in Hr.
    apply list_elem_of_fmap in Hr as (k&->&Hk). cbn [d_day]. rewrite elem_of_isort, elem_of_remove_dups in Hk.
    apply list_elem_of_omap in Hk as (r&Hr&Ek). apply in_filter in Hr as [Hr Hb]. apply andb_true_iff in Hb as [Hb _].
    unfold day_key in Ek. destruct (day_of r) as [d|] eqn:Ed; [|done]. injection Ek as <-. cbn [fst]. by eapply Hpast. }
  assert (day_values (fill start today mine) = map (events_on agent table) (days_from start today)) as Hdays.
  { rewrite day_values_fill by done. apply map_ext_in. intros d Hd. apply list_elem_of_In, elem_of_days in Hd.
    unfold mine. apply on_day_counts; lia. }
  cbn [daily days_held pf_total latest_full_day median_day]. rewrite Hdays.
  assert (length (map (events_on agent table) (days_from start today)) = Z.to_nat (today - start + 1)) as Hlen
    by (unfold days_from; by rewrite !length_map, length_seq).
  rewrite Hlen. assert (start <= today) as Hst by lia.
  assert (days_from start today
          = days_from start (today - 2) ++ (if start <? today then [today - 1] else []) ++ [today]) as Hsplit.
  { unfold days_from. destruct (Z.ltb_spec start today).
    - replace (Z.to_nat (today - start + 1)) with (Z.to_nat (today - 2 - start + 1) + 2)%nat by lia.
      rewrite seq_app, map_app. f_equal. simpl. repeat f_equal; lia.
    - replace (Z.to_nat (today - start + 1)) with 1%nat by lia. replace (Z.to_nat (today - 2 - start + 1)) with 0%nat by lia.
      simpl. f_equal. lia. }
  assert (length (days_from start (today - 2)) = Z.to_nat (today - start - 1)) as Hl2
    by (unfold days_from; rewrite length_map, length_seq; f_equal; lia).
  split; [done|]. split; [lia|]. split; [|split].
  - rewrite <- Hdays, day_values_fill by done. symmetry. apply sum_of_days; [apply days_NoDup|].
    intros r Hr. by apply elem_of_days, Hin.
  - intros Hlt. replace (2 <=? Z.to_nat (today - start + 1))%nat with true by (symmetry; apply Nat.leb_le; lia).
    rewrite Hsplit. replace (start <? today) with true by lia. rewrite map_app, app_nth2; rewrite length_map, Hl2; [|lia].
    replace (_ - _)%nat with 0%nat by lia. done.
  - f_equal. rewrite Hsplit. destruct (Nat.leb_spec 2 (Z.to_nat (today - start + 1))).
    + replace (start <? today) with true by lia. rewrite map_app, firstn_app, length_map, Hl2.
      replace (_ - _ - _)%nat with 0%nat by lia. simpl. rewrite app_nil_r. apply firstn_all2. rewrite length_map, Hl2. lia.
    + unfold days_from. replace (Z.to_nat (today - 2 - start + 1)) with 0%nat by lia. done.
Qed.

(** ** Witnesses, and where the figures part from what they are called *)

#[local] Instance demo_calendar : Calendar := {| parse_ts_ms := parse_u64; ms_to_rfc3339 := dec |}.
Definition demo_agent : str := #"agent://acme/ops/bot".
Definition demo_row (n : Z) (t : str) (agent : str) (data : option value) (at_ms : option Z) : Row :=
  mkRow n #"local" #"t" #"wardryx" t agent None None #"s" [] data None [] None None [] at_ms.
Definition demo_block : value :=
  obj [(#"action", VStr #"console.block_agent"); (#"members", VArr [VStr demo_agent])].
Definition demo_table : list Row :=
  [demo_row 1 #"policy_deny" demo_agent None (Some 5);
   demo_row 2 CONSOLE_COMMAND #"agent://acme/console" (Some demo_block) (Some 6);
   demo_row 3 CONSOLE_COMMAND #"agent://acme/console" (Some demo_block) (Some 7);
   demo_row 4 Case.IDENTITY_MISMATCH demo_agent (Some (obj [(#"key_id", VStr #"k")])) (Some 8)].
Definition demo_source (t1 t2 : list Row) : Source := Opened (mkReads (Ok t1) (Ok t2) (Ok t1) (Ok t1)).
Definition stops_shown (p : StatsPanel) : list (str * (Z * Z)) :=
  map (fun e => (st_agent e, (blocked e, blocked_by_operator e))) (agents p).

Lemma panel_counts_the_window_witness :
  let p := stats_counts 9 0 10 (demo_source demo_table demo_table) in
  detail_truncated p = false /\ forall e, e ∈ agents p -> blocked_by_operator e <= blocked e.
Proof.
  intros p. split; [vm_compute; reflexivity|].
  exact (proj1 (proj2 (proj2 (proj2 (proj2 (proj2 (proj2
    (panel_counts_the_window 9 0 10 demo_table demo_table (Ok demo_table) (Ok demo_table) ltac:(lia)))))))) eq_refl).
Defined.
Example demo_panel :
  stops_shown (stats_counts 9 0 10 (demo_source demo_table demo_table))
    = [(#"agent://acme/console", (0, 0)); (demo_agent, (3, 2)); (#"key:k", (1, 0))].
Proof. vm_compute. reflexivity. Qed.
(** With the details cut to one row a recorded stop is missing from the count,
    under a note that says the counts are complete; with no details asked for
    both are, and the panel does not say it was cut. *)
Example cut_details_lose_stops :
  stops_shown (stats_counts 1 0 10 (demo_source demo_table demo_table))
    = [(#"agent://acme/console", (0, 0)); (demo_agent, (2, 1)); (#"key:k", (1, 0))]
  /\ detail_truncated (stats_counts 0 0 10 (demo_source demo_table demo_table)) = false
  /\ stops_shown (stats_counts 0 0 10 (demo_source demo_table demo_table))
    = [(#"agent://acme/console", (0, 0)); (demo_agent, (1, 0)); (#"key:k", (1, 0))].
Proof. split; [|split]; vm_compute; reflexivity. Qed.
(** A stop stored between the two queries is a person's and not a stop. *)
Definition demo_kill : Row := demo_row 5 #"run_killed" demo_agent (Some (obj [(#"actor", VStr #"ann")])) (Some 9).
Example a_stop_between_the_queries :
  stops_shown (stats_counts 9 0 10 (demo_source [] [demo_kill])) = [(demo_agent, (0, 1))].
Proof. vm_compute. reflexivity. Qed.

Lemma stop_list_is_complete_witness :
  cnt (fun r => one_of STOP_TYPES (type_ r)) demo_table <= 500 /\
  total (agent_stops demo_agent 500 (Some (Ok (Ok demo_table)))) = 3.
Proof.
  assert (cnt (fun r => one_of STOP_TYPES (type_ r)) demo_table <= 500) as H by (vm_compute; discriminate).
  split; [exact H|]. destruct (stop_list_is_complete demo_agent 500 demo_table H) as (_&_&_&E&_). rewrite E.
  vm_compute. reflexivity.
Defined.
(** The limit is on the stops of all agents: newer stops of another agent push
    an agent's own out, and the list says there are none. *)
Example other_agents_stops_use_the_limit :
  total (agent_stops demo_agent 1
           (Some (Ok (Ok [demo_row 1 #"policy_deny" demo_agent None None; demo_row 2 #"policy_deny" #"agent://acme/other" None None])))) = 0.
Proof. vm_compute. reflexivity. Qed.

Definition demo_days : list Row :=
  [demo_row 1 #"policy_deny" demo_agent None (Some (20000 * DAY_MS));
   demo_row 2 #"policy_deny" demo_agent None (Some (20002 * DAY_MS)); demo_row 3 #"dlp_block" demo_agent None (Some (20002 * DAY_MS + 5))].
Definition demo_now : Z := 20003 * DAY_MS + 7.
Lemma profile_is_the_agents_days_witness :
  exists p, agent_profile demo_agent 90 demo_now (Some (Some demo_days, Some demo_days)) = Some p
    /\ daily p = [1; 0; 2; 0] /\ latest_full_day p = 2.
Proof.
  assert (first_day_for_agent demo_agent demo_days = Some 20000) as Hf by (vm_compute; reflexivity).
  assert (Z.quot demo_now DAY_MS = 20003) as Ht by (vm_compute; reflexivity).
  assert (forall r d, r ∈ demo_days -> subject_is demo_agent r = true -> day_of r = Some d -> d <= Z.quot demo_now DAY_MS) as Hp.
  { intros r d Hr _. rewrite Ht. unfold demo_days in Hr. repeat (apply elem_of_cons in Hr as [->|Hr]; [vm_compute; intros [= <-]; discriminate|]).
    by apply not_elem_of_nil in Hr. }
  assert (0 <= demo_now <= i64_max) as Hn by (vm_compute; split; discriminate).
  assert (20000 <= Z.quot demo_now DAY_MS) as H1 by (rewrite Ht; lia).
  assert (0 < Z.quot demo_now DAY_MS - Z.max 90 1 + 1) as H2 by (rewrite Ht; lia).
  destruct (profile_is_the_agents_days demo_agent 90 demo_now demo_days 20000 Hf H1 H2 Hn Hp) as (p&Hp1&Hd&_&_&Hl&_).
  exists p. split; [exact Hp1|]. split; [rewrite Hd; vm_compute; reflexivity|]. rewrite Hl; [vm_compute; reflexivity|].
  rewrite Ht. vm_compute. reflexivity.
Defined.
(** An event dated after today is one more day at the end, so the day judged
    is today, which is not over. *)
Definition with_tomorrow : list Row := demo_days ++ [demo_row 4 #"policy_deny" demo_agent None (Some (20004 * DAY_MS))].
Example a_future_event_shifts_the_days :
  option_map (fun p => (daily p, latest_full_day p)) (agent_profile demo_agent 90 demo_now (Some (Some with_tomorrow, Some with_tomorrow)))
    = Some ([1; 0; 2; 0; 1], 0).
Proof. vm_compute. reflexivity. Qed.
(** A window so long that its start does not fit 64 bits finds no event of an
    agent that has some. *)
Example a_long_window_is_empty :
  option_map (fun p => (days_held p, pf_total p)) (agent_profile demo_agent 150000000000 demo_now (Some (Some demo_days, Some demo_days)))
    = Some (4, 0).
Proof. vm_compute. reflexivity. Qed.
