(* ===== verification/Onboard.v ===== *)
(** * Onboard: preparing a new agent ([crates/api/src/onboard/commands.rs])

    Three commands: what is provisioned already, the bundle for a new agent -
    its passport, its gateway key, its place in the identity map, its policy
    and its Terraform - and the one write, of the passport.  The files, the
    clock and the entropy answer; a text is read as the value serde_json makes
    of it. *)
From S2P Require Import Prelude Text Json Signing Prog Command.
From S2P Require ProofRun Unicode JsonCode.

Definition PASSPORT_SCHEMA : str := #"taipanbox.dev/agent-passport/v0.1".
Definition ATTESTATION_METHODS : list str := [ #"none"; #"oidc"; #"spiffe-svid"; #"enclave-key"; #"mtls-cert"].
Definition FS_MODES : list str := [ #"read"; #"write"].

Inductive OnboardError : Type := Invalid (message : str) | Io (message : str) | MapError (message : str).

(** What serde_json prints of a struct, how a double is shown, and how Rust
    shows a list of names. *)
Class Printing := { pretty : value -> str; f64_text : f64 -> str; names_text : list str -> str }.

(** ** Requests *)

Record FsScopeDto : Type := mkFs { fs_path : str; fs_mode : str }.
Record ModelDeclDto : Type := mkModel { md_provider : str; md_model : option str; md_endpoint : option str }.
Record OnboardGenerateRequest : Type := mkGenerate
  { trust_domain : str; rq_path : str; unit_ : str; owner : str; display_name : option str; runtime : option str;
    attestation_method : option str; rq_key_id : option str; bind_pattern : option str;
    require_human_above_usd : option f64; unit_budget_usd_month : option f64; rq_filesystem : list FsScopeDto;
    rq_models : list ModelDeclDto; rq_map_path : option str; rq_passports_dir : option str }.
Record OnboardWritePassportRequest : Type := mkWrite
  { w_passport_json : str; w_passport_path : str; w_passports_dir : option str; overwrite : bool }.

(** ** Grammar *)

Definition lower_or_digit (c : Z) : bool := ascii_lower c || ascii_digit c.
Definition valid_domain (domain : str) : bool :=
  negb (bool_decide (domain = []))
  && forallb (fun c => lower_or_digit c || (c =? 46) || (c =? 45)) domain
  && forallb (fun label => negb (bool_decide (label = []))) (split_char 46 domain).
Definition path_char (c : Z) : bool := lower_or_digit c || (c =? 46) || (c =? 95) || (c =? 45).
Definition valid_path (path : str) : bool :=
  negb (bool_decide (path = []))
  && forallb (fun seg => negb (bool_decide (seg = [])) && forallb path_char seg) (split_char 47 path).
Definition valid_agent_id (id : str) : bool :=
  match strip_prefix #"agent://" id with
  | None => false
  | Some rest =>
      match split_once #"/" rest with
      | None => false
      | Some (domain, path) => (byte_len id <=? 255) && valid_domain domain && valid_path path
      end
  end.
(** A literal, or one [*] at the end. *)
Definition valid_pattern (pattern : str) : bool :=
  match pattern with
  | [] => false
  | _ => match split_once #"*" pattern with None => true | Some (_, after) => bool_decide (after = []) end
  end.
Definition pattern_matches (pattern value : str) : bool :=
  match strip_suffix #"*" pattern with
  | Some prefix => starts_with prefix value
  | None => str_eqb pattern value
  end.

Section Onboard.
Context {JT : JsonText} {PN : Printing}.

Definition positive (x : f64) : bool := negb (f_neg x) && negb (forallb (Z.eqb 0) (f_digits x)).
Definition finite_positive (v : f64) (what : str) : result unit OnboardError :=
  if positive v then Ok tt
  else Err (Invalid (what ++ #" must be a finite number greater than zero, got `" ++ f64_text v ++ #"`")).
Definition check_positive (v : option f64) (what : str) : result unit OnboardError :=
  match v with Some v => finite_positive v what | None => Ok tt end.

(** A text with a character in it and no control character. *)
Definition plain_text (s : str) : bool := negb (bool_decide (s = [])) && negb (existsb (fun c => c <? 32) s).
Definition nth_text (n : nat) : str := dec (Z.of_nat n).

Fixpoint validate_filesystem_scopes (n : nat) (seen : list str) (scopes : list FsScopeDto)
  : result (list FsScopeDto) OnboardError :=
  match scopes with
  | [] => Ok []
  | s :: scopes =>
      let path := trim (fs_path s) in
      if negb (plain_text path)
      then Err (Invalid (#"filesystem scope #" ++ nth_text n ++ #": path must be non-empty and free of control characters, got `" ++ fs_path s ++ #"`"))
      else if negb (bool_decide (fs_mode s ∈ FS_MODES))
      then Err (Invalid (#"filesystem scope #" ++ nth_text n ++ #": mode `" ++ fs_mode s ++ #"` is not one of " ++ names_text FS_MODES))
      else if bool_decide (path ∈ seen)
      then Err (Invalid (#"filesystem scope `" ++ path ++ #"` is declared more than once; one row per folder (which mode would win is ambiguous otherwise)"))
      else let? rest := validate_filesystem_scopes (S n) (path :: seen) scopes in Ok (mkFs path (fs_mode s) :: rest)
  end.

Definition format_model_label (provider : str) (model endpoint : option str) : str :=
  match model, endpoint with
  | None, None => provider
  | Some m, None => provider ++ #" (model: " ++ m ++ #")"
  | None, Some e => provider ++ #" (endpoint: " ++ e ++ #")"
  | Some m, Some e => provider ++ #" (model: " ++ m ++ #", endpoint: " ++ e ++ #")"
  end.
(** An optional field: absent, blank or a text. *)
Definition optional_field (n : nat) (name : str) (v : option str) : result (option str) OnboardError :=
  match option_map trim v with
  | None | Some [] => Ok None
  | Some m =>
      if plain_text m then Ok (Some m)
      else Err (Invalid (#"model declaration #" ++ nth_text n ++ #": " ++ name ++ #" must be free of control characters, got `" ++ m ++ #"`"))
  end.
Fixpoint validate_model_decls (n : nat) (seen : list ModelDeclDto) (decls : list ModelDeclDto)
  : result (list ModelDeclDto) OnboardError :=
  match decls with
  | [] => Ok []
  | d :: decls =>
      let provider := trim (md_provider d) in
      if negb (plain_text provider)
      then Err (Invalid (#"model declaration #" ++ nth_text n ++ #": provider must be non-empty and free of control characters, got `" ++ md_provider d ++ #"`"))
      else
        let? model := optional_field n #"model" (md_model d) in
        let? endpoint := optional_field n #"endpoint" (md_endpoint d) in
        if existsb (fun m => bool_decide ((md_provider m, md_model m, md_endpoint m) = (provider, model, endpoint))) seen
        then Err (Invalid (#"model declaration `" ++ format_model_label provider model endpoint ++ #"` is declared more than once; one row per provider/model/endpoint combination (which entry would be authoritative is ambiguous otherwise)"))
        else
          let? rest := validate_model_decls (S n) (mkModel provider model endpoint :: seen) decls in
          Ok (mkModel provider model endpoint :: rest)
  end.

(** [quoted]: a backslash before each backslash and each quote. *)
Definition escaped (s : str) : str := flat_map (fun c => if (c =? 92) || (c =? 34) then [92; c] else [c]) s.
Definition quoted (s : str) : str := [34] ++ escaped s ++ [34].

(** [mint_secret], of the 16 random bytes. *)
Definition mint_secret (entropy : result (list Z) str) : result str OnboardError :=
  match entropy with
  | Ok bytes => Ok (#"gx_" ++ hex_lower bytes)
  | Err e => Err (Io (#"could not gather entropy for the secret: " ++ e))
  end.

(** *** Where things are *)

Definition named (arg : option str) : option str :=
  let! p := arg in if bool_decide (trim p = []) then None else Some (trim p).
(** [map_var] is [TOKENFUSE_IDENTITY_MAP]. *)
Definition resolve_map_path (map_var arg : option str) : option str :=
  match named arg with Some p => Some p | None => named map_var end.
Definition resolve_passports_dir (taipan_home home arg : option str) : str :=
  match named arg, taipan_home, home with
  | Some p, _, _ => p
  | None, Some t, _ => ProofRun.join_path t #"passports"
  | None, None, Some h => ProofRun.join_path (ProofRun.join_path h #".taipan") #"passports"
  | None, None, None => #".taipan/passports"
  end.

(** *** The identity map *)

(** The console reads of a key only the agents it binds ([MapKey]). *)
Record MapUnit : Type := mkUnit { u_id : str; u_name : option str; u_budget : option number }.
Record MapFile : Type := mkMap { units : list MapUnit; keys : list (list str) }.

(** A field of a derived reader: absent gives the default, another type is an
    error. *)
Definition field {A} (k : str) (absent : A) (read : value -> option A) (v : value) : option A :=
  match v with
  | VObj ms => match obj_get k ms with Some x => read x | None => Some absent end
  | _ => None
  end.
Definition nullable {A} (read : value -> option A) (v : value) : option (option A) :=
  match v with VNull => Some None | v => let! x := read v in Some (Some x) end.
Fixpoint all_some {A B} (f : A -> option B) (l : list A) : option (list B) :=
  match l with
  | [] => Some []
  | x :: l => let! y := f x in let! ys := all_some f l in Some (y :: ys)
  end.
Definition list_of {A} (read : value -> option A) (v : value) : option (list A) :=
  let! items := as_array v in all_some read items.
Definition as_number (v : value) : option number := match v with VNum n => Some n | _ => None end.

Definition read_unit (v : value) : option MapUnit :=
  let! id := field #"id" [] as_str v in
  let! name := field #"name" None (nullable as_str) v in
  let! budget := field #"budget_usd_month" None (nullable as_number) v in
  Some (mkUnit id name budget).
Definition read_map (v : value) : option MapFile :=
  let! units := field #"units" [] (list_of read_unit) v in
  let! keys := field #"keys" [] (list_of (field #"agents" [] (list_of as_str))) v in
  Some (mkMap units keys).
(** [load_map], of the file's bytes. *)
Definition load_map (path : str) (bytes : result (list Z) str) : result MapFile str :=
  match bytes with
  | Err e => Err (#"could not read " ++ path ++ #": " ++ e)
  | Ok bytes =>
      match (let! v := json_of bytes in read_map v) with
      | Some m => Ok m
      | None => Err (#"could not parse " ++ path)
      end
  end.
Definition id_bound_in_map (m : MapFile) (agent_id : str) : bool :=
  existsb (fun p => valid_pattern p && pattern_matches p agent_id) (concat (keys m)).

(** *** The passport *)

Definition opt_member (k : str) (v : option str) : list (str * value) :=
  match v with Some s => [(k, VStr s)] | None => [] end.
Definition list_member {A} (k : str) (f : A -> value) (l : list A) : list (str * value) :=
  match l with [] => [] | _ => [(k, VArr (map f l))] end.
Definition fs_json (s : FsScopeDto) : value := obj [(#"path", VStr (fs_path s)); (#"mode", VStr (fs_mode s))].
Definition model_json (m : ModelDeclDto) : value :=
  obj ([(#"provider", VStr (md_provider m))] ++ opt_member #"model" (md_model m) ++ opt_member #"endpoint" (md_endpoint m)).
Record PassportDoc : Type := mkPassport
  { p_id : str; p_owner : str; p_display_name : option str; p_runtime : option str; p_attestation : option str;
    p_filesystem : list FsScopeDto; p_models : list ModelDeclDto; created_at : str }.
Definition passport_value (p : PassportDoc) : value :=
  obj ([(#"schema", VStr PASSPORT_SCHEMA); (#"id", VStr (p_id p)); (#"owner", VStr (p_owner p))]
       ++ opt_member #"display_name" (p_display_name p) ++ opt_member #"runtime" (p_runtime p)
       ++ match p_attestation p with Some m => [(#"attestation", obj [(#"method", VStr m)])] | None => [] end
       ++ list_member #"filesystem" fs_json (p_filesystem p) ++ list_member #"models" model_json (p_models p)
       ++ [(#"created_at", VStr (created_at p))]).

(** [declared], and the tolerant readers of a passport. *)
Definition declared (raw : str) : option str := if bool_decide (trim raw = []) then None else Some (trim raw).
Record DeclaredFs : Type := mkDeclaredFs { df_path : option str; df_mode : option str }.
Record DeclaredModel : Type := mkDeclaredModel { dm_provider : option str; dm_model : option str; dm_endpoint : option str }.
Record PassportPeek : Type := mkPeek
  { k_schema : str; k_id : str; k_owner : str; k_filesystem : list DeclaredFs; k_models : list DeclaredModel }.
Definition peek_fs (v : value) : option DeclaredFs :=
  let! path := field #"path" [] as_str v in
  let! mode := field #"mode" [] as_str v in
  Some (mkDeclaredFs (declared path) (declared mode)).
Definition peek_model (v : value) : option DeclaredModel :=
  let! provider := field #"provider" [] as_str v in
  let! model := field #"model" [] as_str v in
  let! endpoint := field #"endpoint" [] as_str v in
  Some (mkDeclaredModel (declared provider) (declared model) (declared endpoint)).
Definition peek (v : value) : option PassportPeek :=
  let! schema := field #"schema" [] as_str v in
  let! id := field #"id" [] as_str v in
  let! owner := field #"owner" [] as_str v in
  let! filesystem := field #"filesystem" [] (list_of peek_fs) v in
  let! models := field #"models" [] (list_of peek_model) v in
  Some (mkPeek schema id owner filesystem models).
Definition peek_bytes (bytes : list Z) : option PassportPeek := let! v := json_of bytes in peek v.

(** ** What is there ([onboard_status]) *)

Record Provisioned : Type := mkProvisioned
  { pv_agent_id : str; pv_owner : str; pv_file : str; pv_filesystem : list DeclaredFs; pv_models : list DeclaredModel; in_map : bool }.
Definition filesystem_count (p : Provisioned) : Z := Z.of_nat (length (pv_filesystem p)).
Definition models_count (p : Provisioned) : Z := Z.of_nat (length (pv_models p)).
Record OnboardStatusDto : Type := mkStatus
  { s_map_path : option str; map_loaded : bool; map_error : option str; s_units : list MapUnit; passports_dir : str;
    passports : list Provisioned; skipped : list (str * str) }.
(** The listing of a directory: the names of its entries. *)
Inductive Listing : Type := Absent | CannotList (e : str) | Files (names : list str).

(** [Path::extension] of a file name. *)
Definition extension (name : str) : option str :=
  match rsplit_once #"." name with Some (_ :: _, ext) => Some ext | _ => None end.
(** One file: its passport, or why it is none. *)
Definition read_passport (m : option MapFile) (file : str) (bytes : result (list Z) str) : Provisioned + (str * str) :=
  match bytes with
  | Err e => inr (file, #"could not read: " ++ e)
  | Ok bytes =>
      match peek_bytes bytes with
      | None => inr (file, #"could not parse")
      | Some p =>
          if negb (str_eqb (k_schema p) PASSPORT_SCHEMA)
          then inr (file, #"schema is `" ++ k_schema p ++ #"`, expected `" ++ PASSPORT_SCHEMA ++ #"`")
          else if negb (valid_agent_id (k_id p))
          then inr (file, #"id `" ++ k_id p ++ #"` is not a well-formed agent:// id")
          else inl (mkProvisioned (k_id p) (k_owner p) file (k_filesystem p) (k_models p)
                      (match m with Some m => id_bound_in_map m (k_id p) | None => false end))
      end
  end.
Definition lefts {A B} (l : list (A + B)) : list A := omap (fun x => match x with inl a => Some a | inr _ => None end) l.
Definition rights {A B} (l : list (A + B)) : list B := omap (fun x => match x with inr b => Some b | inl _ => None end) l.
(** [contents] are the files' bytes by path. *)
Definition onboard_status (map_path : option str) (dir : str) (contents : str -> result (list Z) str) (listing : Listing)
  : OnboardStatusDto :=
  let loaded := option_map (fun p => load_map p (contents p)) map_path in
  let m := let! r := loaded in rok r in
  let read :=
    match listing with
    | Absent => []
    | CannotList e => [inr (dir, #"could not list the passports dir: " ++ e)]
    | Files names =>
        map (fun name => let file := ProofRun.join_path dir name in read_passport m file (contents file))
            (isort str_leb (List.filter (fun name => bool_decide (extension name = Some #"json")) names))
    end in
  mkStatus map_path (bool_decide (is_Some m)) (match loaded with Some (Err e) => Some e | _ => None end)
    (match m with Some m => units m | None => [] end) dir (lefts read) (rights read).

(** ** A bundle for a new agent ([onboard_generate]) *)

Record OnboardBundleDto : Type := mkBundle
  { agent_id : str; passport_json : str; passport_path : str; client_key_secret : str; client_keys_line : str;
    key_id : str; identity_map_fragment : str; unit_is_new : bool; wardryx_policy_stub : str; terraform_snippet : str }.

Definition replace_char (from to : Z) (s : str) : str := map (fun c => if c =? from then to else c) s.
Definition tf_char (c : Z) : Z := if (c =? 45) || (c =? 46) then 95 else c.
Definition line (s : str) : str := s ++ [10].
Definition present (o : option str) (f : str -> str) : str := match o with Some s => f s | None => [] end.
Definition enforced (attestation : option str) : bool :=
  match attestation with Some m => negb (str_eqb m #"none") | None => false end.

(** The identity-map fragment. *)
Definition fragment_value (new_unit : option str) (budget : option f64) (key unit pattern day : str) : value :=
  obj (match new_unit with
       | Some u => [(#"units", VArr [obj ([(#"id", VStr u)]
                      ++ match budget with Some b => [(#"budget_usd_month", VNum (NFloat b))] | None => [] end)])]
       | None => []
       end
       ++ [(#"keys", VArr [obj [(#"key_id", VStr key); (#"unit", VStr unit); (#"agents", VArr [VStr pattern]); (#"created", VStr day)]])]).

Definition pad_6 (s : str) : str := s ++ replicate (6 - length s) 32.
Definition policy_stub (key pattern : str) (above : option f64) (attestation : option str) (scopes : list FsScopeDto) : str :=
  line #"# Wardryx policy stub generated by the Genaryx onboard wizard (docs/ONBOARD.md)."
  ++ line #"# Review, adjust, and commit it next to your other policies."
  ++ line (#"name: onboard-" ++ key)
  ++ line (#"target: " ++ quoted pattern)
  ++ match above with Some v => line (#"require_human_above_usd: " ++ f64_text v) | None => [] end
  ++ (if enforced attestation then line #"deny_if_unattested: true" else [])
  ++ match scopes with
     | [] => []
     | _ => line #"# filesystem scopes declared on the passport (informational):"
            ++ concat (map (fun s => line (#"#   " ++ pad_6 (fs_mode s ++ #":") ++ #" " ++ fs_path s)) scopes)
            ++ line #"# NOTE: wardryx does not enforce filesystem paths in v1 (its policy"
            ++ line #"# surface is deny_tool / allow_domains / require_human_above_usd /"
            ++ line #"# deny_above_usd / max_steps / deny_if_unattested). These lines are a"
            ++ line #"# declaration carried on the passport, not an enforced control."
     end.
Definition terraform (doc : PassportDoc) (key pattern : str) (above : option f64) : str :=
  let name := map tf_char key in
  line #"# Generated by the Genaryx onboard wizard (docs/ONBOARD.md). Review and commit."
  ++ line (#"resource " ++ quoted #"taipan_agent_passport" ++ #" " ++ [34] ++ name ++ [34] ++ #" {")
  ++ line (#"  id    = " ++ quoted (p_id doc))
  ++ line (#"  owner = " ++ quoted (p_owner doc))
  ++ present (p_display_name doc) (fun d => line (#"  display_name = " ++ quoted d))
  ++ present (p_runtime doc) (fun r => line (#"  runtime = " ++ quoted r))
  ++ present (p_attestation doc) (fun m => line (#"  attestation_method = " ++ quoted m))
  ++ concat (map (fun s => line #"  filesystem {" ++ line (#"    path = " ++ quoted (fs_path s))
                           ++ line (#"    mode = " ++ quoted (fs_mode s)) ++ line #"  }") (p_filesystem doc))
  ++ concat (map (fun m => line #"  models {" ++ line (#"    provider = " ++ quoted (md_provider m))
                           ++ present (md_model m) (fun v => line (#"    model = " ++ quoted v))
                           ++ present (md_endpoint m) (fun v => line (#"    endpoint = " ++ quoted v)) ++ line #"  }") (p_models doc))
  ++ line #"}" ++ line []
  ++ line (#"resource " ++ quoted #"taipan_wardryx_policy" ++ #" " ++ [34] ++ name ++ [34] ++ #" {")
  ++ line (#"  id     = " ++ quoted (#"onboard-" ++ key))
  ++ line (#"  target = " ++ quoted pattern)
  ++ match above with Some v => line (#"  require_human_above_usd = " ++ f64_text v) | None => [] end
  ++ (if enforced (p_attestation doc) then line #"  deny_if_unattested = true" else [])
  ++ line #"}".

(** What the host has: the map file's bytes, entropy, the time and the day. *)
Record Host : Type := mkHost
  { map_var : option str; taipan_home : option str; home : option str; contents_of : str -> result (list Z) str;
    entropy : result (list Z) str; now_rfc3339 : str; today : str }.

Definition check_attestation (v : option str) : result (option str) OnboardError :=
  match option_map trim v with
  | None | Some [] => Ok None
  | Some m => if bool_decide (m ∈ ATTESTATION_METHODS) then Ok (Some m)
              else Err (Invalid (#"attestation method `" ++ m ++ #"` is not one of " ++ names_text ATTESTATION_METHODS))
  end.
Definition known_units (map_path : option str) (contents : str -> result (list Z) str) : result (list str) OnboardError :=
  match map_path with
  | None => Ok []
  | Some p => let? m := map_err MapError (load_map p (contents p)) in Ok (map u_id (units m))
  end.
Definition or_text (v : option str) (absent : str) : str :=
  match option_map trim v with None | Some [] => absent | Some s => s end.
Definition require (ok : bool) (why : str) : result unit OnboardError := if ok then Ok tt else Err (Invalid why).

Definition onboard_generate (h : Host) (rq : OnboardGenerateRequest) : result OnboardBundleDto OnboardError :=
  let domain := trim (trust_domain rq) in
  let path := Unicode.trim_by (Z.eqb 47) (trim (rq_path rq)) in
  let unit := trim (unit_ rq) in
  let own := trim (owner rq) in
  let? _ := require (valid_domain domain) (#"trust domain `" ++ domain ++ #"` is not valid: lowercase labels of [a-z0-9-] separated by dots (SPEC.md section 3)") in
  let? _ := require (valid_path path) (#"agent path `" ++ path ++ #"` is not valid: non-empty segments of [a-z0-9._-] separated by `/` (SPEC.md section 3)") in
  let? _ := require (negb (bool_decide (unit = []))) #"the unit must not be empty" in
  let? _ := require (negb (bool_decide (own = []))) #"the owner must not be empty" in
  let? attestation := check_attestation (attestation_method rq) in
  let? _ := check_positive (require_human_above_usd rq) #"require_human_above_usd" in
  let? _ := check_positive (unit_budget_usd_month rq) #"unit_budget_usd_month" in
  let? filesystem := validate_filesystem_scopes 0 [] (rq_filesystem rq) in
  let? models := validate_model_decls 0 [] (rq_models rq) in
  let id := #"agent://" ++ domain ++ #"/" ++ path in
  let? _ := require (valid_agent_id id) (#"the generated agent id `" ++ id ++ #"` is not valid (it may be over the 255-byte cap)") in
  let key := or_text (rq_key_id rq) (replace_char 47 45 path) in
  let? _ := require (negb (bool_decide (key = [])) && forallb path_char key)
              (#"key id `" ++ key ++ #"` is not valid: non-empty, chars [a-z0-9._-] (it becomes half of a TOKENFUSE_CLIENT_KEYS entry, so `:` and `,` cannot appear)") in
  let pattern := or_text (bind_pattern rq) id in
  let? _ := require (valid_pattern pattern) (#"bind pattern `" ++ pattern ++ #"` is not valid: a literal, or a single `*` as the final character (docs/20)") in
  let? _ := require (pattern_matches pattern id)
              (#"bind pattern `" ++ pattern ++ #"` does not match the generated agent id `" ++ id ++ #"`; a binding that misses its own agent cannot be intended") in
  let? known := known_units (resolve_map_path (map_var h) (rq_map_path rq)) (contents_of h) in
  let new := negb (bool_decide (unit ∈ known)) in
  let doc := mkPassport id own (declared (default [] (display_name rq))) (declared (default [] (runtime rq))) attestation
               filesystem models (now_rfc3339 h) in
  let dir := resolve_passports_dir (taipan_home h) (home h) (rq_passports_dir rq) in
  let? secret := mint_secret (entropy h) in
  Ok (mkBundle id (line (pretty (passport_value doc)))
        (ProofRun.join_path dir (replace_char 47 45 path ++ #".json")) secret (secret ++ #":" ++ key) key
        (line (pretty (fragment_value (if new then Some unit else None) (unit_budget_usd_month rq) key unit pattern (today h))))
        new (policy_stub key pattern (require_human_above_usd rq) attestation filesystem)
        (terraform doc key pattern (require_human_above_usd rq))).

(** ** The one write ([onboard_write_passport]) *)

(** [Path::components]. *)
Inductive component : Type := RootDir | CurDir | ParentDir | Named (s : str).
#[export] Instance component_eq_dec : EqDecision component.
Proof. solve_decision. Defined.
Definition component_of (s : str) : option component :=
  if bool_decide (s = []) || str_eqb s #"." then None else if str_eqb s #".." then Some ParentDir else Some (Named s).
Definition components (p : str) : list component :=
  match split_char 47 p with
  | first :: rest =>
      (if starts_with #"/" p then [RootDir] else if str_eqb first #"." then [CurDir] else [])
      ++ omap component_of (first :: rest)
  | [] => []
  end.
(** [Path::parent], when it is not empty, and [Path::file_name]. *)
Definition parent (p : str) : option (list component) :=
  match rev (components p) with
  | [] | [RootDir] | [_] => None
  | _ :: dir => Some (rev dir)
  end.
Definition file_name (p : str) : option str :=
  match rev (components p) with Named s :: _ => Some s | _ => None end.

Inductive op : Type :=
| DirExists (dir : str)
| CreateDirAll (dir : str)
| Canonicalize (p : list component)
| TargetExists (target : str)
| WriteFile (target text : str).
Definition resp (o : op) : Type :=
  match o with
  | DirExists _ | TargetExists _ => bool
  | CreateDirAll _ | WriteFile _ _ => result unit str
  | Canonicalize _ => result str str
  end%type.
Inductive event : Type :=
| DirLooked (dir : str) (x : bool)
| Created (dir : str) (x : result unit str)
| Resolved (p : list component) (x : result str str)
| TargetLooked (target : str) (x : bool)
| Wrote (target text : str) (x : result unit str).
Definition event_of (o : op) (_ : Z) : resp o -> event :=
  match o with
  | DirExists d => DirLooked d
  | CreateDirAll d => Created d
  | Canonicalize p => Resolved p
  | TargetExists t => TargetLooked t
  | WriteFile t x => Wrote t x
  end.

Record OnboardWriteDto : Type := mkWritten { written_path : str; created_dir : bool }.
Abbreviation run A := (@prog op resp (result A OnboardError)).
Definition refuse {A} (e : OnboardError) : run A := Ret (Err e).
Definition io_step {A B} (p : @prog op resp (result A str)) (f : str -> OnboardError) (k : A -> run B) : run B :=
  bind p (fun x => match x with Ok a => k a | Err e => refuse (f e) end).
Definition is_passport (text : str) : result PassportPeek OnboardError :=
  let? p := ok_or (peek_bytes (str_bytes text)) (Invalid #"the content is not valid JSON") in
  if negb (str_eqb (k_schema p) PASSPORT_SCHEMA)
  then Err (Invalid (#"the content's schema is `" ++ k_schema p ++ #"`, expected `" ++ PASSPORT_SCHEMA ++ #"`; this command writes passports only"))
  else if negb (valid_agent_id (k_id p))
  then Err (Invalid (#"the content's id `" ++ k_id p ++ #"` is not a well-formed agent:// id"))
  else if bool_decide (trim (k_owner p) = [])
  then Err (Invalid #"the content has no owner; a passport without an owner is not valid (SPEC.md section 4)")
  else Ok p.

Definition onboard_write_passport (dir : str) (rq : OnboardWritePassportRequest) : run OnboardWriteDto :=
  match is_passport (w_passport_json rq) with
  | Err e => refuse e
  | Ok _ =>
      let path := w_passport_path rq in
      if existsb (fun c => bool_decide (c = ParentDir)) (components path)
      then refuse (Invalid (#"`" ++ path ++ #"` contains `..`; the passport must land inside the passports dir `" ++ dir ++ #"`"))
      else
        match parent path with
        | None => refuse (Invalid (#"`" ++ path ++ #"` has no parent directory; expected a path inside `" ++ dir ++ #"`"))
        | Some above =>
            match file_name path with
            | None => refuse (Invalid (#"`" ++ path ++ #"` has no file name"))
            | Some name =>
                bind (perform_op (DirExists dir)) (fun there =>
                io_step (perform_op (CreateDirAll dir)) (fun e => Io (#"could not create `" ++ dir ++ #"`: " ++ e)) (fun _ =>
                io_step (perform_op (Canonicalize (components dir))) (fun e => Io (#"could not resolve `" ++ dir ++ #"`: " ++ e)) (fun dir_canon =>
                io_step (perform_op (Canonicalize above))
                  (fun e => Invalid (#"`" ++ path ++ #"` does not resolve inside the passports dir `" ++ dir ++ #"`: " ++ e)) (fun parent_canon =>
                if negb (str_eqb parent_canon dir_canon)
                then refuse (Invalid (#"`" ++ path ++ #"` resolves outside the passports dir `" ++ dir ++ #"`; refusing to write there"))
                else
                  let target := ProofRun.join_path dir_canon name in
                  bind (perform_op (TargetExists target)) (fun exists_ =>
                  if exists_ && negb (overwrite rq)
                  then refuse (Io (#"`" ++ target ++ #"` already exists; enable overwrite to replace it"))
                  else
                    io_step (perform_op (WriteFile target (w_passport_json rq))) (fun e => Io (#"could not write `" ++ target ++ #"`: " ++ e)) (fun _ =>
                    Ret (Ok (mkWritten target (negb there)))))))))
            end
        end
  end.

(** ** What holds of them *)

Definition no_slash (name : str) : Prop := 47 ∉ name.
Lemma split_char_no d s x : x ∈ split_char d s -> d ∉ x.
Proof.
  revert x. induction s as [|c s IH]; intros x; simpl; [intros ->%list_elem_of_singleton; apply not_elem_of_nil|].
  destruct (Z.eqb_spec c d) as [->|Hne].
  - intros [->|Hx]%elem_of_cons; [apply not_elem_of_nil|by apply IH].
  - destruct (split_char d s) as [|y ys] eqn:E.
    + intros ->%list_elem_of_singleton. intros [?|?%not_elem_of_nil]%elem_of_cons; congruence.
    + intros [->|Hx]%elem_of_cons; [|apply IH; by right]. intros [?|H]%elem_of_cons; [congruence|].
      assert (y ∈ y :: ys) as Hy by left. by apply (IH y) in Hy.
Qed.
Lemma file_name_no_slash p name : file_name p = Some name -> no_slash name /\ name <> [] /\ name <> #"." /\ name <> #"..".
Proof.
  unfold file_name. destruct (rev (components p)) as [|c cs] eqn:E; [done|]. destruct c; try done. intros [= ->].
  assert (Named name ∈ components p) as Hin by (apply list_elem_of_In, in_rev; rewrite E; by left).
  unfold components in Hin. destruct (split_char 47 p) as [|f r] eqn:Es; [by apply not_elem_of_nil in Hin|].
  apply elem_of_app in Hin as [Hin|Hin].
  - repeat case_match; [apply list_elem_of_singleton in Hin|apply list_elem_of_singleton in Hin|by apply not_elem_of_nil in Hin]; done.
  - apply list_elem_of_omap in Hin as (s&Hs&Hc). unfold component_of in Hc.
    destruct (bool_decide (s = []) || str_eqb s #".") eqn:E1; [done|]. destruct (str_eqb s #"..") eqn:E2; [done|].
    injection Hc as ->. apply orb_false_iff in E1 as [E0 E1]. apply bool_decide_eq_false in E0.
    split; [apply (split_char_no 47 p); by rewrite Es|]. split; [done|]. split; by apply str_eqb_neq.
Qed.

(** The one write of the wizard goes where it may.  Whatever the file
    system answers, a file is written only after the text was read as a
    passport - its schema, a well-formed id, an owner - the directory and the
    path's own directory resolved to the same place, and, unless overwriting
    was asked for, nothing was seen there; it is written once, with exactly
    that text, under a plain name in that place; and the answer names it. *)
Theorem passport_is_written_in_its_directory dir rq :
  let text := w_passport_json rq in
  let name_of canon target := exists name, file_name (w_passport_path rq) = Some name /\ no_slash name /\ name <> #".."
                                /\ target = ProofRun.join_path canon name in
  wp event_of
    (fun tr o => match o with
       | WriteFile target text' =>
           text' = text /\ (exists p, is_passport text = Ok p) /\ (forall t x y, Wrote t x y ∉ tr) /\
           (overwrite rq = true \/ TargetLooked target false ∈ tr) /\
           exists above canon, parent (w_passport_path rq) = Some above /\ name_of canon target
             /\ Resolved (components dir) (Ok canon) ∈ tr /\ Resolved above (Ok canon) ∈ tr
       | _ => True
       end)
    [] (onboard_write_passport dir rq)
    (fun r tr => forall d, r = Ok d -> Wrote (written_path d) text (Ok tt) ∈ tr).
Proof.
  intros text name_of. unfold onboard_write_passport. destruct (is_passport (w_passport_json rq)) as [p|e] eqn:Ep; [|done].
  destruct (existsb _ (components (w_passport_path rq))); [done|].
  destruct (parent (w_passport_path rq)) as [above|] eqn:Ea; [|done].
  destruct (file_name (w_passport_path rq)) as [name|] eqn:En; [|done].
  apply file_name_no_slash in En as Hn. destruct Hn as (Hn1&_&_&Hn2).
  split; [done|]. intros t0 there. split; [done|]. intros t1 [[]|e1]; [|done].
  split; [done|]. intros t2 [canon|e2]; [|done]. split; [done|]. intros t3 [pc|e3]; [|done].
  cbn [bind]. destruct (str_eqb pc canon) eqn:Ec; cbn [negb]; [|done]. apply str_eqb_eq in Ec as ->.
  split; [done|]. intros t4 ex. cbn [bind]. destruct (ex && negb (overwrite rq)) eqn:Ew; [done|]. split.
  - split; [done|]. split; [by exists p|]. split; [set_solver|]. split.
    + destruct (overwrite rq); [by left|]. right. rewrite andb_true_r in Ew. subst ex. cbn [event_of app]. set_solver.
    + exists above, canon. split; [done|]. split; [by exists name|]. cbn [event_of app]. set_solver.
  - intros t5 [[]|e5]; [|done]. intros d [= <-]. cbn [written_path event_of app]. set_solver.
Qed.

(** *** A passport reads back *)

Lemma passport_fields p :
  get #"schema" (passport_value p) = Some (VStr PASSPORT_SCHEMA) /\
  get #"id" (passport_value p) = Some (VStr (p_id p)) /\
  get #"owner" (passport_value p) = Some (VStr (p_owner p)) /\
  get #"filesystem" (passport_value p) = match p_filesystem p with [] => None | l => Some (VArr (map fs_json l)) end /\
  get #"models" (passport_value p) = match p_models p with [] => None | l => Some (VArr (map model_json l)) end.
Proof.
  destruct p as [id own [d|] [r|] [a|] [|f fs] [|m ms] at_]; cbn [p_filesystem p_models p_id p_owner]; repeat split.
Qed.
Lemma field_get {A} k (absent : A) read ms :
  field k absent read (obj ms) = match get k (obj ms) with Some x => read x | None => Some absent end.
Proof. done. Qed.
Lemma all_some_map {A B C} (f : A -> option B) (g : C -> A) (h : C -> B) l :
  (forall x, f (g x) = Some (h x)) -> all_some f (map g l) = Some (map h l).
Proof. intros H. induction l as [|x l IH]; [done|]. cbn [map all_some]. by rewrite H, IH. Qed.

Definition declared_fs (s : FsScopeDto) : DeclaredFs := mkDeclaredFs (declared (fs_path s)) (declared (fs_mode s)).
Definition declared_model (m : ModelDeclDto) : DeclaredModel :=
  mkDeclaredModel (declared (md_provider m)) (let! s := md_model m in declared s) (let! s := md_endpoint m in declared s).
Lemma peek_fs_json s : peek_fs (fs_json s) = Some (declared_fs s).
Proof. by destruct s. Qed.
Lemma peek_model_json m : peek_model (model_json m) = Some (declared_model m).
Proof. destruct m as [p [m|] [e|]]; reflexivity. Qed.
Lemma peek_passport p :
  peek (passport_value p) = Some (mkPeek PASSPORT_SCHEMA (p_id p) (p_owner p) (map declared_fs (p_filesystem p)) (map declared_model (p_models p))).
Proof.
  destruct (passport_fields p) as (H1&H2&H3&H4&H5). unfold peek, passport_value in *. rewrite !field_get, H1, H2, H3, H4, H5.
  cbn [as_str].
  assert (match match p_filesystem p with [] => None | l => Some (VArr (map fs_json l)) end with
          | Some x => list_of peek_fs x | None => Some [] end = Some (map declared_fs (p_filesystem p))) as ->.
  { destruct (p_filesystem p) as [|f fs]; [done|]. unfold list_of. cbn [as_array]. apply all_some_map, peek_fs_json. }
  assert (match match p_models p with [] => None | l => Some (VArr (map model_json l)) end with
          | Some x => list_of peek_model x | None => Some [] end = Some (map declared_model (p_models p))) as ->.
  { destruct (p_models p) as [|f fs]; [done|]. unfold list_of. cbn [as_array]. apply all_some_map, peek_model_json. }
  done.
Qed.

Definition valid_opt (o : option str) : Prop := match o with Some s => valid_str s | None => True end.
Record passport_valid (p : PassportDoc) : Prop := {
  pv_id : valid_str (p_id p); pv_own : valid_str (p_owner p); pv_name : valid_opt (p_display_name p);
  pv_run : valid_opt (p_runtime p); pv_att : valid_opt (p_attestation p);
  pv_fs : Forall (fun s => valid_str (fs_path s) /\ valid_str (fs_mode s)) (p_filesystem p);
  pv_ms : Forall (fun m => valid_str (md_provider m) /\ valid_opt (md_model m) /\ valid_opt (md_endpoint m)) (p_models p);
  pv_at : valid_str (created_at p) }.

Lemma opt_member_readable d k v : valid_str k -> valid_opt v ->
  Forall (fun kv => valid_str kv.1 /\ readable d kv.2) (opt_member k v).
Proof. intros Hk Hv. destruct v; [|constructor]. constructor; [|constructor]. split; [done|]. by destruct d. Qed.
Lemma str_readable d s : valid_str s -> readable d (VStr s).
Proof. by destruct d. Qed.
Lemma passport_readable p : passport_valid p -> readable 127 (passport_value p).
Proof.
  intros []. unfold passport_value. apply obj_readable. rewrite !Forall_app.
  assert (forall s : string, forallb is_scalar (lit s) = true -> valid_str (lit s)) as Hl by apply lit_valid.
  repeat split.
  - repeat (apply Forall_cons_2; [split; [by apply Hl|apply str_readable; first [done|by apply Hl]]|]). constructor.
  - by apply opt_member_readable; [apply Hl|].
  - by apply opt_member_readable; [apply Hl|].
  - destruct (p_attestation p) as [m|]; [|constructor]. constructor; [|constructor]. split; [by apply Hl|].
    apply obj_readable. constructor; [|constructor]. split; [by apply Hl|]. done.
  - destruct (p_filesystem p) as [|f fs] eqn:E; [constructor|]. rewrite <- E in *. unfold list_member. rewrite E. constructor; [|constructor].
    split; [by apply Hl|]. rewrite <- E. apply readable_arr. apply List.Forall_map. eapply Forall_impl; [exact pv_fs0|].
    intros s [H1 H2]. apply obj_readable.
    repeat (apply Forall_cons_2; [split; [by apply Hl|by apply str_readable]|]). constructor.
  - destruct (p_models p) as [|f fs] eqn:E; [constructor|]. rewrite <- E in *. unfold list_member. rewrite E. constructor; [|constructor].
    split; [by apply Hl|]. rewrite <- E. apply readable_arr. apply List.Forall_map. eapply Forall_impl; [exact pv_ms0|].
    intros m (H1&H2&H3). apply obj_readable. rewrite !Forall_app. repeat split.
    + constructor; [|constructor]. split; [by apply Hl|by apply str_readable].
    + by apply opt_member_readable; [apply Hl|].
    + by apply opt_member_readable; [apply Hl|].
  - constructor; [|constructor]. split; [by apply Hl|by apply str_readable].
Qed.

(** *** A bundle holds together *)

(** What is printed is read back. *)
Class PrintingLaws := pretty_round v : readable 127 v -> json_of (str_bytes (line (pretty v))) = Some v.
Context {PL : PrintingLaws}.

Lemma valid_trim s : valid_str s -> valid_str (trim s).
Proof.
  assert (forall s, valid_str s -> valid_str (trim_start s)) as Hs.
  { intros l. induction 1 as [|c l Hc Hl IH]; simpl; [constructor|]. case_match; [done|]. by constructor. }
  intros H. unfold trim, trim_end. apply Forall_rev, Hs, Forall_rev, Hs, H.
Qed.
Lemma valid_trim_by p s : valid_str s -> valid_str (Unicode.trim_by p s).
Proof.
  assert (forall s, valid_str s -> valid_str (Unicode.trim_start_by p s)) as Hs.
  { intros l. induction 1 as [|c l Hc Hl IH]; simpl; [constructor|]. case_match; [done|]. by constructor. }
  intros H. unfold Unicode.trim_by, Unicode.trim_end_by. apply Forall_rev, Hs, Forall_rev, Hs, H.
Qed.
Lemma valid_declared o : valid_opt o -> valid_opt (declared (default [] o)).
Proof.
  intros H. unfold declared. case_bool_decide; [done|]. apply valid_trim. by destruct o; [|constructor].
Qed.
Lemma modes_valid m : m ∈ FS_MODES -> valid_str m.
Proof. unfold FS_MODES. intros H. repeat (apply elem_of_cons in H as [->|H]; [by apply lit_valid|]). by apply not_elem_of_nil in H. Qed.
Lemma methods_valid m : m ∈ ATTESTATION_METHODS -> valid_str m.
Proof. unfold ATTESTATION_METHODS. intros H. repeat (apply elem_of_cons in H as [->|H]; [by apply lit_valid|]). by apply not_elem_of_nil in H. Qed.

Lemma validated_scopes n seen scopes out : validate_filesystem_scopes n seen scopes = Ok out ->
  Forall (fun s => valid_str (fs_path s)) scopes ->
  Forall (fun s => valid_str (fs_path s) /\ valid_str (fs_mode s)) out /\
  map (fun s => (trim (fs_path s), fs_mode s)) scopes = map (fun s => (fs_path s, fs_mode s)) out.
Proof.
  revert n seen out. induction scopes as [|s scopes IH]; intros n seen out H Hv; cbn [validate_filesystem_scopes] in H.
  { injection H as <-. repeat constructor. }
  inversion Hv as [|? ? Hs Hss]; subst.
  destruct (negb (plain_text _)); [done|]. destruct (negb (bool_decide (fs_mode s ∈ FS_MODES))) eqn:Em; [done|].
  destruct (bool_decide (_ ∈ seen)); [done|]. destruct (validate_filesystem_scopes _ _ scopes) as [rest|] eqn:Er; [|done].
  cbn [rbind] in H. injection H as <-. destruct (IH _ _ _ Er Hss) as (H1&H2). apply negb_false_iff, bool_decide_eq_true in Em.
  split; [constructor; [split; [by apply valid_trim|by apply modes_valid]|done]|].
  cbn [map fs_path fs_mode]. by rewrite H2.
Qed.
Lemma optional_field_valid n name v out : optional_field n name v = Ok out -> valid_opt v -> valid_opt out.
Proof.
  unfold optional_field. destruct v as [s|]; cbn [option_map]; [|by intros [= <-]]. intros H Hv. apply valid_trim in Hv.
  destruct (trim s) as [|c t]; [by injection H as <-|]. destruct (plain_text _); [|done]. by injection H as <-.
Qed.
Lemma validated_models n seen decls out : validate_model_decls n seen decls = Ok out ->
  Forall (fun m => valid_str (md_provider m) /\ valid_opt (md_model m) /\ valid_opt (md_endpoint m)) decls ->
  Forall (fun m => valid_str (md_provider m) /\ valid_opt (md_model m) /\ valid_opt (md_endpoint m)) out.
Proof.
  revert n seen out. induction decls as [|m decls IH]; intros n seen out H Hv; cbn [validate_model_decls] in H.
  { injection H as <-. constructor. }
  inversion Hv as [|? ? (H1&H2&H3) Hms]; subst. destruct (negb (plain_text _)); [done|].
  destruct (optional_field n #"model" _) as [mo|] eqn:Emo; [|done]. cbn [rbind] in H.
  destruct (optional_field n #"endpoint" _) as [en|] eqn:Een; [|done]. cbn [rbind] in H.
  destruct (existsb _ seen); [done|]. destruct (validate_model_decls _ _ decls) as [rest|] eqn:Er; [|done].
  cbn [rbind] in H. injection H as <-. constructor; [|by eapply IH].
  split; [by apply valid_trim|]. split; by eapply optional_field_valid.
Qed.

(** The strings of a request and of the host are text, its bytes are bytes. *)
Record input_valid (h : Host) (rq : OnboardGenerateRequest) : Prop := {
  iv_domain : valid_str (trust_domain rq); iv_path : valid_str (rq_path rq); iv_owner : valid_str (owner rq);
  iv_name : valid_opt (display_name rq); iv_run : valid_opt (runtime rq);
  iv_fs : Forall (fun s => valid_str (fs_path s)) (rq_filesystem rq);
  iv_ms : Forall (fun m => valid_str (md_provider m) /\ valid_opt (md_model m) /\ valid_opt (md_endpoint m)) (rq_models rq);
  iv_unit : valid_str (unit_ rq); iv_pattern : valid_opt (bind_pattern rq); iv_today : valid_str (today h);
  iv_now : valid_str (now_rfc3339 h);
  iv_bytes : forall bytes, entropy h = Ok bytes -> Forall (fun b => 0 <= b <= 255) bytes }.

Lemma fragment_reads unit budget key u pattern day :
  exists m, read_map (fragment_value unit budget key u pattern day) = Some m /\ keys m = [[pattern]]
    /\ map u_id (units m) = match unit with Some x => [x] | None => [] end.
Proof. destruct unit as [x|]; [destruct budget as [b|]|]; eexists; (split; [reflexivity|]); split; reflexivity. Qed.

Lemma fragment_key unit budget key u pattern day :
  exists entry, get #"keys" (fragment_value unit budget key u pattern day) = Some (VArr [entry])
    /\ get_str #"key_id" entry = Some key /\ get_str #"unit" entry = Some u.
Proof. destruct unit as [x|]; [destruct budget as [b|]|]; eexists; (split; [reflexivity|]); split; reflexivity. Qed.
Lemma fragment_readable unit key u pattern day :
  valid_opt unit -> valid_str u -> valid_str key -> valid_str pattern -> valid_str day ->
  readable 127 (fragment_value unit None key u pattern day).
Proof.
  intros Hn Hu Hk Hp Hd. unfold fragment_value. apply obj_readable. apply Forall_app. split.
  - destruct unit as [x|]; [|constructor]. apply Forall_singleton. split; [by apply lit_valid|]. apply readable_arr, Forall_singleton.
    apply obj_readable, Forall_singleton. split; [by apply lit_valid|by apply str_readable].
  - apply Forall_singleton. split; [by apply lit_valid|]. apply readable_arr, Forall_singleton, obj_readable.
    repeat (apply Forall_cons_2; [split; [by apply lit_valid|first [by apply str_readable|apply readable_arr, Forall_singleton; by apply str_readable]]|]).
    constructor.
Qed.
Lemma path_chars_valid s : forallb path_char s = true -> valid_str s.
Proof.
  rewrite forallb_Forall. intros H. eapply Forall_impl; [exact H|]. unfold path_char, lower_or_digit, ascii_lower, ascii_digit, is_scalar.
  simpl. intros c Hc. lia.
Qed.
Lemma path_chars_apart s c : forallb path_char s = true -> path_char c = false -> c ∉ s.
Proof. rewrite forallb_Forall, Forall_forall. intros H Hc Hin. apply H in Hin. congruence. Qed.
Lemma secret_no_colon e s : mint_secret e = Ok s -> (forall bytes, e = Ok bytes -> Forall (fun b => 0 <= b <= 255) bytes) -> 58 ∉ s.
Proof.
  unfold mint_secret. destruct e as [bytes|]; [|done]. intros H Hb. specialize (Hb bytes eq_refl).
  assert (s = #"gx_" ++ hex_lower bytes) as -> by congruence. rewrite elem_of_app. intros [Hin|Hin].
  - assert (forallb (fun c => negb (c =? 58)) #"gx_" = true) as Hg by reflexivity. apply forallb_Forall in Hg.
    rewrite Forall_forall in Hg. apply Hg in Hin. done.
  - pose proof (hex_bytes_chars bytes Hb) as Hc. rewrite Forall_forall in Hc. apply Hc in Hin. unfold is_hex in Hin. lia.
Qed.

Definition head_dark (s : str) : bool := match s with c :: _ => negb (is_white c) | [] => false end.
Lemma trim_start_dark s : trim_start s <> [] -> head_dark (trim_start s) = true.
Proof. induction s as [|c s IH]; simpl; [done|]. destruct (is_white c) eqn:E; [done|]. simpl. by rewrite E. Qed.
Lemma dark_start s : head_dark s = true -> trim_start s = s.
Proof. destruct s as [|c s]; [done|]. simpl. by destruct (is_white c). Qed.
Lemma trim_start_suffix s : exists w, s = w ++ trim_start s.
Proof.
  induction s as [|c s [w IH]]; [by exists []|]. simpl. destruct (is_white c); [|by exists []]. exists (c :: w). simpl. by rewrite <- IH.
Qed.
Lemma trim_end_prefix s : exists w, s = trim_end s ++ w.
Proof.
  unfold trim_end. destruct (trim_start_suffix (rev s)) as [w Hw]. exists (rev w). rewrite <- rev_app_distr, <- Hw. by rewrite rev_involutive.
Qed.
Lemma trim_end_start s : head_dark s = true -> head_dark (trim_end s) = true.
Proof.
  intros H. destruct (trim_end_prefix s) as [w Hw]. destruct (trim_end s) as [|c t] eqn:E; [|by rewrite Hw in H].
  exfalso. destruct s as [|c s]; [done|]. simpl in H, Hw. unfold trim_end in E. apply (f_equal (@rev Z)) in E.
  rewrite rev_involutive in E. simpl in E. clear Hw w. induction (rev s) as [|x l IH]; simpl in E; [by destruct (is_white c)|].
  by destruct (is_white x); [apply IH|].
Qed.
Lemma trim_twice s : trim s <> [] -> trim (trim s) <> [].
Proof.
  intros Hne. destruct (trim_start s) as [|c t] eqn:E.
  - unfold trim in Hne. rewrite E in Hne. done.
  - assert (head_dark (trim_start s) = true) as Hd by (apply trim_start_dark; by rewrite E).
    unfold trim at 1. assert (head_dark (trim s) = true) as Ht by (unfold trim; by apply trim_end_start).
    rewrite (dark_start _ Ht). intros E'. apply trim_end_start in Ht. by rewrite E' in Ht.
Qed.

Definition owner_of (rq : OnboardGenerateRequest) : str := trim (owner rq).
(** C30: A bundle for a new agent holds together.  Its passport is one the
    write command accepts and the status command lists, under the bundle's own
    well-formed id and the owner asked for.  Its map fragment is the text of an
    object, read back from it when it states no budget, that the map's reader
    takes: its one key has the bundle's key id and the unit asked for and binds
    the agent's id, so any map that takes the key in binds it and the agent is
    then listed as in the map; it declares the unit exactly when the consulted
    map did not.  And its gateway line is the secret and that key id with a
    colon between, where neither holds a colon, nor the key id a comma. *)
Theorem generated_bundle_holds_together h rq b :
  onboard_generate h rq = Ok b -> input_valid h rq ->
  valid_agent_id (agent_id b) = true /\
  (exists p, is_passport (passport_json b) = Ok p /\ k_id p = agent_id b /\ k_owner p = owner_of rq) /\
  (exists v frag entry, identity_map_fragment b = line (pretty v)
     /\ (unit_budget_usd_month rq = None -> json_of (str_bytes (identity_map_fragment b)) = Some v)
     /\ (get #"keys" v = Some (VArr [entry]) /\ get_str #"key_id" entry = Some (key_id b) /\ get_str #"unit" entry = Some (trim (unit_ rq)))
     /\ read_map v = Some frag
     /\ map u_id (units frag) = (if unit_is_new b then [trim (unit_ rq)] else [])
     /\ forall m file, (forall k, k ∈ keys frag -> k ∈ keys m) ->
          exists pv, read_passport (Some m) file (Ok (str_bytes (passport_json b))) = inl pv
            /\ pv_agent_id pv = agent_id b /\ pv_owner pv = owner_of rq /\ in_map pv = true
            /\ filesystem_count pv = Z.of_nat (length (rq_filesystem rq))) /\
  (client_keys_line b = client_key_secret b ++ #":" ++ key_id b
   /\ 58 ∉ client_key_secret b /\ 58 ∉ key_id b /\ 44 ∉ key_id b) /\
  (forall known, known_units (resolve_map_path (map_var h) (rq_map_path rq)) (contents_of h) = Ok known ->
     unit_is_new b = negb (bool_decide (trim (unit_ rq) ∈ known))).
Proof.
  intros H Hv. unfold onboard_generate in H. cbv zeta in H.
  set (domain := trim (trust_domain rq)) in *. set (path := Unicode.trim_by (Z.eqb 47) (trim (rq_path rq))) in *.
  set (id := #"agent://" ++ domain ++ #"/" ++ path) in *. set (key := or_text (rq_key_id rq) (replace_char 47 45 path)) in *.
  set (pattern := or_text (bind_pattern rq) id) in *.
  apply rbind_Ok in H as ([]&_&H). apply rbind_Ok in H as ([]&_&H). apply rbind_Ok in H as ([]&_&H). apply rbind_Ok in H as ([]&Hown&H).
  apply rbind_Ok in H as (att&Hatt&H). apply rbind_Ok in H as ([]&_&H). apply rbind_Ok in H as ([]&_&H).
  apply rbind_Ok in H as (fs&Hfs&H). apply rbind_Ok in H as (ms&Hms&H). apply rbind_Ok in H as ([]&Hid&H).
  apply rbind_Ok in H as ([]&Hkey&H). apply rbind_Ok in H as ([]&Hpat&H). apply rbind_Ok in H as ([]&Hmat&H).
  apply rbind_Ok in H as (known&Hknown&H). apply rbind_Ok in H as (secret&Hsec&H).
  assert (forall (ok : bool) why, require ok why = Ok tt -> ok = true) as Hreq by (by intros [] ?).
  apply Hreq in Hid, Hown, Hpat, Hmat. apply Hreq in Hkey. clear Hreq. apply andb_true_iff in Hkey as [_ Hkey].
  destruct Hv. destruct (validated_scopes _ _ _ _ Hfs iv_fs0) as (Hvfs&Hlen). pose proof (validated_models _ _ _ _ Hms iv_ms0) as Hvms.
  set (doc := mkPassport id (trim (owner rq)) (declared (default [] (display_name rq))) (declared (default [] (runtime rq))) att fs ms (now_rfc3339 h)) in *.
  assert (passport_valid doc) as Hdoc.
  { constructor; cbn [doc p_id p_owner p_display_name p_runtime p_attestation p_filesystem p_models created_at]; try done.
    - unfold id, domain, path. apply Forall_app; split; [by apply lit_valid|]. apply Forall_app; split; [by apply valid_trim|].
      apply Forall_app; split; [by apply lit_valid|]. by apply valid_trim_by, valid_trim.
    - by apply valid_trim.
    - by apply valid_declared.
    - by apply valid_declared.
    - unfold check_attestation in Hatt. destruct (option_map trim _) as [[|c t]|]; [by injection Hatt as <-| |by injection Hatt as <-].
      destruct (bool_decide (c :: t ∈ ATTESTATION_METHODS)) eqn:Hm; [|discriminate Hatt]. apply bool_decide_eq_true in Hm.
      injection Hatt as <-. by apply methods_valid. }
  pose proof (pretty_round _ (passport_readable doc Hdoc)) as Hjson. pose proof (peek_passport doc) as Hpeek.
  assert (peek_bytes (str_bytes (line (pretty (passport_value doc)))) = Some (mkPeek PASSPORT_SCHEMA id (trim (owner rq)) (map declared_fs fs) (map declared_model ms))) as Hpk
    by (unfold peek_bytes; rewrite Hjson; exact Hpeek).
  injection H as <-. cbn [agent_id passport_json identity_map_fragment unit_is_new client_keys_line client_key_secret key_id].
  split; [exact Hid|]. split; [|split; [|split]].
  - eexists. unfold is_passport. rewrite Hpk. cbn [ok_or rbind k_schema k_id k_owner]. rewrite str_eqb_refl, Hid. cbn [negb].
    assert (trim (trim (owner rq)) <> []) as Hne by (apply trim_twice; apply negb_true_iff, bool_decide_eq_false in Hown; exact Hown).
    rewrite bool_decide_eq_false_2 by exact Hne. by split.
  - eexists. destruct (fragment_reads (if negb (bool_decide (trim (unit_ rq) ∈ known)) then Some (trim (unit_ rq)) else None)
                         (unit_budget_usd_month rq) key (trim (unit_ rq)) pattern (today h)) as (m0&Hm&Hk&Hu).
    destruct (fragment_key (if negb (bool_decide (trim (unit_ rq) ∈ known)) then Some (trim (unit_ rq)) else None)
                (unit_budget_usd_month rq) key (trim (unit_ rq)) pattern (today h)) as [entry Hentry].
    exists m0, entry. split; [reflexivity|]. split.
    { intros Hnb. apply pretty_round. rewrite Hnb. apply fragment_readable.
      - destruct (bool_decide (trim (unit_ rq) ∈ known)); [exact I|by apply valid_trim].
      - by apply valid_trim.
      - by apply path_chars_valid.
      - unfold pattern, or_text. destruct (option_map trim (bind_pattern rq)) as [[|c t]|] eqn:Ep; [exact (pv_id _ Hdoc)| |exact (pv_id _ Hdoc)].
        destruct (bind_pattern rq) as [bp|]; [|done]. injection Ep as <-. by apply valid_trim.
      - done. }
    split; [exact Hentry|]. split; [exact Hm|]. split; [rewrite Hu; by destruct (bool_decide (trim (unit_ rq) ∈ known))|].
    intros m file Hin. eexists. unfold read_passport. rewrite Hpk. cbn [k_schema k_id k_owner k_filesystem k_models].
    rewrite str_eqb_refl, Hid. cbn [negb]. split; [reflexivity|]. cbn [pv_agent_id pv_owner in_map]. split; [done|]. split; [done|]. split.
    + unfold id_bound_in_map. apply existsb_exists. exists pattern. rewrite Hpat, Hmat. split; [|done].
      apply in_concat. exists [pattern]. split; [|by left]. apply list_elem_of_In, Hin. rewrite Hk. by left.
    + unfold filesystem_count. cbn [pv_filesystem]. apply (f_equal length) in Hlen. rewrite !length_map in Hlen. rewrite length_map. lia.
  - split; [done|]. split; [by eapply secret_no_colon|]. by split; apply path_chars_apart.
  - intros known' Hk. rewrite Hknown in Hk. by injection Hk as <-.
Qed.

(** A quoted text ends at its own quote, whatever is in it. *)
Fixpoint unquote (s : str) : option (str * str) :=
  match s with
  | [] => None
  | c :: s =>
      if c =? 34 then Some ([], s)
      else if c =? 92 then
        match s with
        | d :: s => let! (t, rest) := unquote s in Some (d :: t, rest)
        | [] => None
        end
      else let! (t, rest) := unquote s in Some (c :: t, rest)
  end.
Theorem quoted_text_ends_at_its_quote s rest : unquote (escaped s ++ [34] ++ rest) = Some (s, rest).
Proof.
  change ([34] ++ rest) with (34 :: rest). induction s as [|c s IH]; [done|]. unfold escaped in *. cbn [flat_map].
  destruct (Z.eqb_spec c 92) as [->|H1]; [simpl; by rewrite IH|].
  destruct (Z.eqb_spec c 34) as [->|H2]; [simpl; by rewrite IH|].
  simpl. apply Z.eqb_neq in H1, H2. by rewrite H1, H2, IH.
Qed.
End Onboard.

(** ** Witnesses *)

(** Texts of [JsonCode], one to a line. *)
#[local] Instance demo_lines : JsonText :=
  {| json_of bs := JsonCode.code_read (if bool_decide (last bs = Some 10) then removelast bs else bs); json_text := JsonCode.code_text |}.
#[local] Instance demo_printing : Printing :=
  {| pretty := JsonCode.code_text; f64_text := fun x => f_digits x; names_text := fun l => join #", " l |}.
#[local] Instance demo_printing_laws : PrintingLaws.
Proof.
  intros v _. unfold line, pretty, demo_printing. cbn [json_of demo_lines]. rewrite str_bytes_app.
  change (str_bytes [10]) with [10]. rewrite last_snoc, removelast_last, bool_decide_eq_true_2 by done. apply JsonCode.code_round.
Qed.
Definition demo_host : Host :=
  mkHost None None (Some #"/home/ann") (fun _ => Err #"absent") (Ok (replicate 16 171)) #"2026-08-11T10:00:00Z" #"2026-08-11".
Definition demo_request : OnboardGenerateRequest :=
  mkGenerate #"acme.example" #"/ops/bot/" #"ops" #"  Ann " None None (Some #"oidc") None None None None
    [mkFs #" /srv " #"read"] [] None None.
Definition demo_bundle : OnboardBundleDto := match onboard_generate demo_host demo_request with Ok b => b | Err _ => mkBundle [] [] [] [] [] [] [] false [] [] end.
Example demo_generated : onboard_generate demo_host demo_request = Ok demo_bundle.
Proof. vm_compute. reflexivity. Qed.
Example demo_input : input_valid demo_host demo_request.
Proof.
  constructor; try (by apply lit_valid); try exact I; try (by repeat constructor).
  intros bytes [= <-]. repeat (constructor; [lia|]). constructor.
Qed.
Lemma generated_bundle_holds_together_witness :
  agent_id demo_bundle = #"agent://acme.example/ops/bot" /\ exists p, is_passport (passport_json demo_bundle) = Ok p /\ k_owner p = #"Ann".
Proof.
  split; [vm_compute; reflexivity|].
  destruct (generated_bundle_holds_together demo_host demo_request demo_bundle demo_generated demo_input) as (_&(p&H1&_&H2)&_).
  exists p. split; [exact H1|]. rewrite H2. vm_compute. reflexivity.
Defined.

(** Two agents of one domain can be given the same key and passport file. *)
Definition with_path (p : str) : OnboardGenerateRequest :=
  mkGenerate #"acme.example" p #"ops" #"Ann" None None None None None None None [] [] None None.
Definition bundle_names (rq : OnboardGenerateRequest) : option (str * str * str) :=
  let! b := rok (onboard_generate demo_host rq) in Some (agent_id b, key_id b, passport_path b).
Example two_agents_one_key :
  bundle_names (with_path #"ops/bot") = Some (#"agent://acme.example/ops/bot", #"ops-bot", #"/home/ann/.taipan/passports/ops-bot.json") /\
  bundle_names (with_path #"ops-bot") = Some (#"agent://acme.example/ops-bot", #"ops-bot", #"/home/ann/.taipan/passports/ops-bot.json").
Proof. split; vm_compute; reflexivity. Qed.
(** An interpolation in a free text is left as it is, and a line break too. *)
Example interpolation_is_not_escaped :
  quoted #"${path.root}" = [34] ++ #"${path.root}" ++ [34] /\ quoted (#"a" ++ [10] ++ #"b") = [34] ++ #"a" ++ [10] ++ #"b" ++ [34].
Proof. split; vm_compute; reflexivity. Qed.
