(* ===== verification/Remote.v ===== *)
(** * Remote: one remote box, over a tunnel and SSH
    ([crates/api/src/remote/commands.rs], [remote/state.rs], [remote/env.rs],
    [crates/connectors/src/ssh.rs], the tunnel of [wg.rs])

    The panel keeps five cells, each behind its own lock: the environment the
    operator saved, the console's key, the tunnel, the SSH client and the tail.
    A command is a program whose operations each take one lock or do one thing
    outside, so commands interleave as they do.  The outside answers as it
    likes; a poisoned lock and a task that does not run, which need a panic,
    are left out.  The build is the one for Linux, where an interface is named
    by the caller. *)
From S2P Require Import Prelude Text Json Signing Prog Command.
From S2P Require Wireguard ProofRun Retained.

(** ** SSH ([ssh.rs]) *)

Record SshTarget : Type := mkTarget
  { host : str; port : Z; user : str; identity_file : str; pinned_host_key : str }.
(** A client is its target and the file its pin is in. *)
Record SshClient : Type := mkClient { target : SshTarget; known_hosts : str }.

Definition base_ssh_args (t : SshTarget) (known_hosts : str) : list str :=
  [ #"-o"; #"StrictHostKeyChecking=yes"; #"-o"; #"UserKnownHostsFile=" ++ known_hosts; #"-o";
    #"GlobalKnownHostsFile=/dev/null"; #"-o"; #"BatchMode=yes"; #"-o"; #"PasswordAuthentication=no"; #"-o";
    #"KbdInteractiveAuthentication=no"; #"-o"; #"IdentitiesOnly=yes"; #"-i"; identity_file t; #"-p"; dec (port t);
    user t ++ #"@" ++ host t].
Definition known_hosts_line (t : SshTarget) : str :=
  (if port t =? 22 then host t else #"[" ++ host t ++ #"]:" ++ dec (port t)) ++ #" " ++ trim (pinned_host_key t) ++ [10].
Definition shell_single_quote (s : str) : str :=
  [39] ++ flat_map (fun c => if c =? 39 then [39; 92; 39; 39] else [c]) s ++ [39].

Definition true_command : str := #"true".
Definition read_command (path : str) : str := #"cat -- " ++ shell_single_quote path.
Definition u64_saturating_succ (n : Z) : Z := Z.min u64_max (n + 1).
Definition tail_command (path : str) (from_offset : Z) : str :=
  #"tail -c +" ++ dec (u64_saturating_succ from_offset) ++ #" -F " ++ shell_single_quote path.
(** [SshClient::run], [spawn_tail] and [spawn_forward], as the arguments of
    [ssh]. *)
Definition run_args (c : SshClient) (command : str) : list str := base_ssh_args (target c) (known_hosts c) ++ [command].
Definition tail_args (c : SshClient) (path : str) (from_offset : Z) : list str :=
  base_ssh_args (target c) (known_hosts c) ++ [tail_command path from_offset].
Definition forward_args (c : SshClient) (local_port remote_port : Z) : list str :=
  base_ssh_args (target c) (known_hosts c)
  ++ [ #"-N"; #"-L"; #"127.0.0.1:" ++ dec local_port ++ #":127.0.0.1:" ++ dec remote_port].

Inductive SshError : Type := Pin (path source : str) | SpawnError (e : str) | RemoteExit (code : Z) (stderr : str).
Definition ssh_error_text (e : SshError) : str :=
  match e with
  | Pin path source => #"write pinned known_hosts " ++ path ++ #": " ++ source
  | SpawnError e => #"ssh spawn: " ++ e
  | RemoteExit code stderr => #"ssh remote exited " ++ dec code ++ #": " ++ stderr
  end.

(** *** How the words are read *)

(** A POSIX shell's words, for the characters the commands use: a quoted part
    is taken as it is, a backslash takes the next character, a space ends a
    word. *)
Fixpoint sh_words (s : str) (quoted : bool) (word : option str) : option (list str) :=
  match s with
  | [] => if quoted then None else Some (match word with Some w => [w] | None => [] end)
  | c :: s =>
      let w := default [] word in
      if quoted then if c =? 39 then sh_words s false (Some w) else sh_words s true (Some (w ++ [c]))
      else if c =? 39 then sh_words s true (Some w)
      else if c =? 92 then match s with d :: s => sh_words s false (Some (w ++ [d])) | [] => None end
      else if c =? 32
      then let! ws := sh_words s false None in Some (match word with Some w => w :: ws | None => ws end)
      else sh_words s false (Some (w ++ [c]))
  end.
(** ** The panel's state ([state.rs]) *)

Record RemoteEnvironmentConfig : Type := mkEnv
  { name : str; wireguard_go_bin : str; wg_peer_public_key_hex : str; wg_endpoint : str; wg_allowed_ips : list str;
    wg_persistent_keepalive : option Z; wg_listen_port : option Z; wg_local_ip : str; wg_peer_ip : str;
    ssh_target : SshTarget }.
Record WgPeer : Type := mkWgPeer
  { public_key_hex : str; endpoint : str; allowed_ips : list str; persistent_keepalive : option Z }.
Record WgConfig : Type := mkWgConfig { private_key_hex : str; listen_port : option Z; peers : list WgPeer }.
Record WgInterfaceAddr : Type := mkAddr { local_ip : str; peer_ip : str }.
(** A tunnel is its child, its interface and, for the statements below, what it
    was brought up with. *)
Record BringUp : Type := mkBringUp { interface : str; config : WgConfig; addr : WgInterfaceAddr }.
Record WgTunnel : Type := mkTunnel { t_child : nat; real_name : str; brought_up : BringUp }.
Inductive TunnelState : Type := Disconnected | Connecting | Connected (t : WgTunnel) | Failed (message : str).
(** A tail is its child and path and, for the statements below, the client it
    was started with. *)
Record TailSession : Type := mkTail { child : nat; tail_path : str; tail_of : SshClient }.

(** The lines of a UAPI [set] ([WgConfig::render_uapi]). *)
Definition uapi_line (k v : str) : str := k ++ #"=" ++ v ++ [10].
Definition render_peer (p : WgPeer) : str :=
  uapi_line #"public_key" (public_key_hex p) ++ uapi_line #"endpoint" (endpoint p)
  ++ match persistent_keepalive p with Some k => uapi_line #"persistent_keepalive_interval" (dec k) | None => [] end
  ++ uapi_line #"replace_allowed_ips" #"true" ++ concat (map (uapi_line #"allowed_ip") (allowed_ips p)).
Definition render_uapi (c : WgConfig) : str :=
  uapi_line #"set" #"1" ++ uapi_line #"private_key" (private_key_hex c)
  ++ match listen_port c with Some p => uapi_line #"listen_port" (dec p) | None => [] end
  ++ uapi_line #"replace_peers" #"true" ++ concat (map render_peer (peers c)) ++ [10].

(** ** Bringing a tunnel up ([wg.rs]) *)

Inductive WgError : Type :=
| KeyGen (e : str) | WgSpawn (e : str) | UapiTimeout | Configure (e : str) | Network (e : str).
Definition wg_error_text (e : WgError) : str :=
  match e with
  | KeyGen e => #"wg keygen: " ++ e
  | WgSpawn e => #"wireguard-go spawn: " ++ e
  | UapiTimeout => #"wireguard-go UAPI socket did not appear within 5s"
  | Configure e => #"wireguard-go UAPI configure: " ++ e
  | Network e => #"wg interface address/route: " ++ e
  end.

Definition generate {CV : Wireguard.Curve} (drawn : result (list Z) str) : result Wireguard.WgKeypair WgError :=
  match drawn with
  | Ok bytes => Ok (Wireguard.from_private (Wireguard.clamp bytes))
  | Err e => Err (KeyGen e)
  end.

(** What the daemon and the [ip] command answer: the socket that appears in
    five seconds, the exchange on it, and what each [ip] run ends with. *)
Record Exit : Type := mkExit { success : bool; status_text : str; stderr : list Z }.
Record WgWorld : Type := mkWgWorld
  { w_spawn : result unit str; w_socket : bool; w_connect : result unit str; w_write : str -> result unit str;
    w_read : result str str; w_ip : list str -> result Exit str }.

Definition addr_args (interface : str) (addr : WgInterfaceAddr) : list str :=
  [ #"address"; #"add"; local_ip addr ++ #"/32"; #"peer"; peer_ip addr ++ #"/32"; #"dev"; interface].
Definition uapi_set (w : WgWorld) (config : str) : result unit WgError :=
  let? _ := map_err (fun e => Configure (#"connect uapi: " ++ e)) (w_connect w) in
  let? _ := map_err (fun e => Configure (#"write uapi: " ++ e)) (w_write w config) in
  let? resp := map_err (fun e => Configure (#"read uapi: " ++ e)) (w_read w) in
  if existsb (str_eqb #"errno=0") (lines resp) then Ok tt
  else Err (Configure (#"uapi rejected config: " ++ trim resp)).
Definition set_addr (w : WgWorld) (interface : str) (addr : WgInterfaceAddr) : result unit WgError :=
  let? out := map_err (fun e => Network (#"spawn ip: " ++ e)) (w_ip w (addr_args interface addr)) in
  if negb (success out)
  then Err (Network (#"ip exited " ++ status_text out ++ #": " ++ trim (from_utf8_lossy (stderr out))))
  else
    let? up := map_err (fun e => Network (#"ip link set up: " ++ e))
                 (w_ip w [ #"link"; #"set"; #"up"; #"dev"; interface]) in
    if negb (success up)
    then Err (Network (#"ip link set up exited " ++ status_text up ++ #": " ++ trim (from_utf8_lossy (stderr up))))
    else Ok tt.
(** What [bring_up] does once the child runs; the interface's name is the
    caller's. *)
Definition configure (w : WgWorld) (b : BringUp) : result str WgError :=
  if negb (w_socket w) then Err UapiTimeout
  else
    let? _ := uapi_set w (render_uapi (config b)) in
    let? _ := set_addr w (interface b) (addr b) in
    Ok (interface b).

(** [latest_handshake_secs], of what the daemon answers to a [get]. *)
Fixpoint handshake_line (ls : list str) : option Z :=
  match ls with
  | [] => None
  | l :: ls =>
      match strip_prefix #"last_handshake_time_sec=" l with Some v => parse_u64 v | None => handshake_line ls end
  end.
Definition latest_handshake_secs (got : result str str) : option Z :=
  match got with Ok resp => handshake_line (lines resp) | Err _ => None end.

(** ** The default binary ([env.rs]) *)

Definition well_known_bin_path (home : str) : str :=
  ProofRun.join_path (ProofRun.join_path (ProofRun.join_path home #".taipan") #"bin") #"wireguard-go".
Fixpoint find_on_path (is_file : str -> bool) (nm : str) (dirs : list str) : option str :=
  match dirs with
  | [] => None
  | dir :: dirs =>
      let candidate := ProofRun.join_path dir nm in
      if is_file candidate then Some candidate else find_on_path is_file nm dirs
  end.
(** [discover]: the home, the directories of [$PATH] and the files there are. *)
Definition discover (home : option str) (path_var : option (list str)) (is_file : str -> bool) : option str :=
  match home with
  | Some h => if is_file (well_known_bin_path h) then Some (well_known_bin_path h)
              else let! dirs := path_var in find_on_path is_file #"wireguard-go" dirs
  | None => let! dirs := path_var in find_on_path is_file #"wireguard-go" dirs
  end.

(** ** The panel *)

(** The cells, and what runs outside: the children that are alive, and the pin
    files by their paths, with what they hold.  [temp_dir] and [process_id] do not change; [pin_count]
    is the counter of [connect], 32 bits wide. *)
Record Panel : Type := mkPanel
  { temp_dir : str; process_id : Z; ready : option (option str);
    environment : option RemoteEnvironmentConfig; console_keypair : option Wireguard.WgKeypair;
    tunnel : TunnelState; ssh : option SshClient; tail : option TailSession;
    alive : gset nat; fresh : nat; pins : gmap str str; pin_count : Z }.

(** [RemoteState::pending] and [bootstrap]. *)
Definition pending (dir : str) (pid : Z) : Panel :=
  mkPanel dir pid None None None Disconnected None None ∅ 0 ∅ 0.
Definition bootstrap (default_bin : option str) (s : Panel) : Panel :=
  mkPanel (temp_dir s) (process_id s) (Some default_bin) None None Disconnected None None ∅ 0 ∅ 0.

Definition with_cells (e : option RemoteEnvironmentConfig) (k : option Wireguard.WgKeypair) (t : TunnelState)
  (c : option SshClient) (l : option TailSession) (s : Panel) : Panel :=
  mkPanel (temp_dir s) (process_id s) (ready s) e k t c l (alive s) (fresh s) (pins s) (pin_count s).
Definition with_outside (a : gset nat) (n : nat) (p : gmap str str) (m : Z) (s : Panel) : Panel :=
  mkPanel (temp_dir s) (process_id s) (ready s) (environment s) (console_keypair s) (tunnel s) (ssh s) (tail s) a n p m.

Definition tunnel_child (t : TunnelState) : gset nat := match t with Connected t => {[t_child t]} | _ => ∅ end.
Definition tail_child (t : option TailSession) : gset nat := match t with Some s => {[child s]} | None => ∅ end.
Definition pin_of (c : option SshClient) : gset str := match c with Some c => {[known_hosts c]} | None => ∅ end.
(** [Drop for SshClient], best effort: what the removal answers is ignored. *)
Definition unpin (removed : bool) (c : option SshClient) (p : gmap str str) : gmap str str :=
  match c with Some c => if removed then delete (known_hosts c) p else p | None => p end.

Definition put_environment (c : RemoteEnvironmentConfig) (s : Panel) : Panel :=
  with_cells (Some c) (console_keypair s) (tunnel s) (ssh s) (tail s) s.
Definition put_keypair (k : Wireguard.WgKeypair) (s : Panel) : Panel :=
  with_cells (environment s) (Some k) (tunnel s) (ssh s) (tail s) s.
(** Replacing a cell drops what it held: a tunnel's child is killed, a client's
    pin file removed ([Drop for WgTunnel], [Drop for SshClient]).  A tail's child
    is not: dropping a [Child] leaves the process to run. *)
Definition put_tunnel (t : TunnelState) (s : Panel) : Panel :=
  with_outside (alive s ∖ tunnel_child (tunnel s)) (fresh s) (pins s) (pin_count s)
    (with_cells (environment s) (console_keypair s) t (ssh s) (tail s) s).
Definition put_ssh (removed : bool) (c : SshClient) (s : Panel) : Panel :=
  with_outside (alive s) (fresh s) (unpin removed (ssh s) (pins s)) (pin_count s)
    (with_cells (environment s) (console_keypair s) (tunnel s) (Some c) (tail s) s).
Definition put_tail (t : option TailSession) (s : Panel) : Panel :=
  with_cells (environment s) (console_keypair s) (tunnel s) (ssh s) t s.
Definition kill (dead : gset nat) (s : Panel) : Panel :=
  with_outside (alive s ∖ dead) (fresh s) (pins s) (pin_count s) s.
Definition spawned (s : Panel) : Panel :=
  with_outside ({[fresh s]} ∪ alive s) (S (fresh s)) (pins s) (pin_count s) s.

(** [SshClient::connect]: the pin's file is named after the process and the
    count, which goes up whether or not the file can be written. *)
Definition pin_file (dir : str) (pid n : Z) : str :=
  ProofRun.join_path dir (#"genaryx-ssh-known-" ++ dec pid ++ #"-" ++ dec n).
Definition next_pin (s : Panel) : str := pin_file (temp_dir s) (process_id s) (pin_count s).
(** [write_pinned_known_hosts], of what the open and the write answer: a file
    that was opened is there, empty, before anything is written to it, and is
    left as it is when the write fails after some characters. *)
Definition PinWrite : Type := result unit (option nat * str).
Definition write_pinned (written : PinWrite) (path line : str) (p : gmap str str) : result unit SshError * gmap str str :=
  match written with
  | Ok _ => (Ok tt, <[path := line]> p)
  | Err (Some n, e) => (Err (Pin path e), <[path := firstn n line]> p)
  | Err (None, e) => (Err (Pin path e), p)
  end.
Definition connect (written : PinWrite) (t : SshTarget) (s : Panel) : result SshClient SshError * Panel :=
  let file := next_pin s in
  let '(r, p) := write_pinned written file (known_hosts_line t) (pins s) in
  (let? _ := r in Ok (mkClient t file), with_outside (alive s) (fresh s) p ((pin_count s + 1) mod (u32_max + 1)) s).

(** ** What is shown *)

(** The request and the answer name an environment by the same fields. *)
Record RemoteEnvironmentDto : Type := mkEnvDto
  { d_name : str; d_wireguard_go_bin : str; d_wg_peer_public_key_hex : str; d_wg_endpoint : str;
    d_wg_allowed_ips : list str; d_wg_persistent_keepalive : option Z; d_wg_listen_port : option Z;
    d_wg_local_ip : str; d_wg_peer_ip : str; d_ssh_host : str; d_ssh_port : Z; d_ssh_user : str;
    d_ssh_identity_file : str; d_ssh_pinned_host_key : str }.
Abbreviation RemoteEnvironmentRequest := RemoteEnvironmentDto.
Definition dto_of (c : RemoteEnvironmentConfig) : RemoteEnvironmentDto :=
  let t := ssh_target c in
  mkEnvDto (name c) (wireguard_go_bin c) (wg_peer_public_key_hex c) (wg_endpoint c) (wg_allowed_ips c)
    (wg_persistent_keepalive c) (wg_listen_port c) (wg_local_ip c) (wg_peer_ip c) (host t) (port t) (user t)
    (identity_file t) (pinned_host_key t).
Definition target_of (r : RemoteEnvironmentRequest) : SshTarget :=
  mkTarget (d_ssh_host r) (d_ssh_port r) (d_ssh_user r) (d_ssh_identity_file r) (d_ssh_pinned_host_key r).
Definition config_of (r : RemoteEnvironmentRequest) : RemoteEnvironmentConfig :=
  mkEnv (d_name r) (d_wireguard_go_bin r) (d_wg_peer_public_key_hex r) (d_wg_endpoint r) (d_wg_allowed_ips r)
    (d_wg_persistent_keepalive r) (d_wg_listen_port r) (d_wg_local_ip r) (d_wg_peer_ip r) (target_of r).

Inductive TunnelStatusDto : Type :=
| TDisconnected | TConnecting | TConnected (interface : str) (latest_handshake_secs : option Z) | TFailed (message : str).
Definition tunnel_dto (got : result str str) (t : TunnelState) : TunnelStatusDto :=
  match t with
  | Disconnected => TDisconnected
  | Connecting => TConnecting
  | Connected t => TConnected (real_name t) (latest_handshake_secs got)
  | Failed message => TFailed message
  end.
Record TailStatusDto : Type := mkTailDto { s_path : str; running : bool }.
Inductive RemoteStatusDto : Type :=
| Bootstrapping
| Ready (default_wireguard_go_bin : option str) (environment : option RemoteEnvironmentDto)
    (console_public_b64 : option str) (tunnel : TunnelStatusDto) (tail : option TailStatusDto).

Record RemoteFileDto : Type := mkFileDto { content : str; valid_utf8 : bool; size_bytes : Z }.
Definition from_bytes (bytes : list Z) : RemoteFileDto :=
  match read_to_string bytes with
  | Some content => mkFileDto content true (Z.of_nat (length bytes))
  | None => mkFileDto (from_utf8_lossy bytes) false (Z.of_nat (length bytes))
  end.

Inductive RemoteError : Type :=
| EBootstrapping | NoEnvironment | EInvalid (message : str) | NoWireguardGoBinary | EWg (message : str) | ESsh (message : str).
Definition from_wg (e : WgError) : RemoteError := EWg (wg_error_text e).
Definition from_ssh (e : SshError) : RemoteError := ESsh (ssh_error_text e).

(** *** The tail's reader *)

Inductive TailEvent : Type := TailLine (path line : str) | TailEnded (path reason : str).
(** What the reader's thread hands to the sink, of the lines of the child's
    output; [None] is a line that cannot be read. *)
Fixpoint tail_reader (path : str) (ls : list (option str)) : list TailEvent :=
  match ls with
  | Some text :: ls => TailLine path text :: tail_reader path ls
  | None :: _ | [] => [TailEnded path #"the remote tail stream ended"]
  end.

(** ** Operations *)

Inductive SshCall : Type := Reach | ReadFile (path : str).
Definition call_command (c : SshCall) : str := match c with Reach => true_command | ReadFile path => read_command path end.

Inductive op : Type :=
| ReadyClient
| GetEnvironment | PutEnvironment (c : RemoteEnvironmentConfig)
| GetKeypair | EnsureKeypair
| GetTunnel | PutTunnel (t : TunnelState)
| BringUpTunnel (bin : str) (b : BringUp)
| PinTarget (t : SshTarget) | PutSsh (c : SshClient)
| WithSsh (call : SshCall) | SpawnTail (path : str) (from_offset : Z)
| GetTail | PutTail (s : TailSession) | StopTail.
Definition resp (o : op) : Type :=
  match o with
  | ReadyClient => option (option str)
  | GetEnvironment => option RemoteEnvironmentConfig
  | GetKeypair => option Wireguard.WgKeypair
  | EnsureKeypair => result Wireguard.WgKeypair RemoteError
  | GetTunnel => TunnelStatusDto
  | BringUpTunnel _ _ => result WgTunnel WgError
  | PinTarget _ => result SshClient SshError
  | WithSsh _ => result (list Z) RemoteError
  | SpawnTail _ _ => result TailSession RemoteError
  | GetTail => option TailSession
  | PutEnvironment _ | PutTunnel _ | PutSsh _ | PutTail _ | StopTail => unit
  end%type.
Definition event : Type := {o : op & resp o}.
Definition event_of (o : op) (_ : Z) (x : resp o) : event := existT o x.

(** What the outside does in one operation: the time, the key's bytes, the
    tunnel's daemon started as a binary, its answer to a [get], the pin's file
    written and the last one's removed, and what [ssh] ends with on its arguments. *)
Record Outside : Type := mkOutside
  { o_time : Z; o_drawn : result (list Z) str; o_wg : str -> WgWorld; o_get : result str str;
    o_written : PinWrite; o_removed : bool; o_run : list str -> result (Z * list Z * list Z) str; o_tail : list str -> result unit str }.

(** [SshClient::run], of the exit code, the output and the errors. *)
Definition run (e : Outside) (c : SshClient) (command : str) : result (list Z) SshError :=
  let? '(code, out, err) := map_err SpawnError (o_run e (run_args c command)) in
  if negb (code =? 0) then Err (RemoteExit code (trim (from_utf8_lossy err))) else Ok out.

Section Panel.
Context {CV : Wireguard.Curve} {PR : Primitives}.

Definition perform (e : Outside) (o : op) (s : Panel) : resp o * Panel :=
  match o with
  | ReadyClient => (ready s, s)
  | GetEnvironment => (environment s, s)
  | PutEnvironment c => (tt, put_environment c s)
  | GetKeypair => (console_keypair s, s)
  | EnsureKeypair =>
      match console_keypair s with
      | Some k => (Ok k, s)
      | None => match generate (o_drawn e) with Ok k => (Ok k, put_keypair k s) | Err x => (Err (from_wg x), s) end
      end
  | GetTunnel => (tunnel_dto (o_get e) (tunnel s), s)
  | PutTunnel t => (tt, put_tunnel t s)
  | BringUpTunnel bin b =>
      (* [WgTunnel::bring_up]: the guard kills the child when a later step fails *)
      match w_spawn (o_wg e bin) with
      | Err x => (Err (WgSpawn x), s)
      | Ok _ =>
          match configure (o_wg e bin) b with
          | Ok name => (Ok (mkTunnel (fresh s) name b), spawned s)
          | Err x => (Err x, kill {[fresh s]} (spawned s))
          end
      end
  | PinTarget t => connect (o_written e) t s
  | PutSsh c => (tt, put_ssh (o_removed e) c s)
  | WithSsh call =>
      match ssh s with
      | None => (Err NoEnvironment, s)
      | Some c => (map_err from_ssh (run e c (call_command call)), s)
      end
  | SpawnTail path from_offset =>
      match ssh s with
      | None => (Err NoEnvironment, s)
      | Some c =>
          match o_tail e (tail_args c path from_offset) with
          | Ok _ => (Ok (mkTail (fresh s) path c), spawned s)
          | Err x => (Err (from_ssh (SpawnError x)), s)
          end
      end
  | GetTail => (tail s, s)
  | PutTail t => (tt, put_tail (Some t) s)
  | StopTail => (tt, put_tail None (kill (tail_child (tail s)) s))
  end.

(** ** The commands ([commands.rs]) *)

Abbreviation program := (@prog op resp).
#[local] Arguments Do {op resp A} & _ _.
#[local] Notation "'ask!' x <- p ; k" :=
  (bind p (fun r => match r with Ok x => k | Err e => Ret (Err e) end))
  (at level 10, x name, p at level 100, k at level 200) : prog_scope.

Definition require (field value : str) : result unit RemoteError :=
  if str_eqb (trim value) [] then Err (EInvalid (field ++ #" is required")) else Ok tt.
Definition resolve_wireguard_go_bin (env : RemoteEnvironmentConfig) (default_bin : option str) : option str :=
  let overridden := trim (wireguard_go_bin env) in
  if str_eqb overridden [] then default_bin else Some overridden.
Definition build_wg_bring_up_args (env : RemoteEnvironmentConfig) (private_key_hex : str) : BringUp :=
  mkBringUp #"genaryx0"
    (mkWgConfig private_key_hex (wg_listen_port env)
       [mkWgPeer (wg_peer_public_key_hex env) (wg_endpoint env) (wg_allowed_ips env) (wg_persistent_keepalive env)])
    (mkAddr (wg_local_ip env) (wg_peer_ip env)).

(** A client is [Arc]s onto the cells: what it holds itself is the default
    binary. *)
Definition ready_client : program (result (option str) RemoteError) :=
  do c <- ReadyClient; Ret (ok_or c EBootstrapping).
Definition build_status (default_bin : option str) : program RemoteStatusDto :=
  do env <- GetEnvironment;
  do key <- GetKeypair;
  do tail <- GetTail;
  do tunnel <- GetTunnel;
  Ret (Ready default_bin (dto_of <$> env) ((fun k => b64_encode (Wireguard.public k)) <$> key) tunnel
         ((fun t => mkTailDto (tail_path t) true) <$> tail)).
Definition stop_tail : program unit := do x <- StopTail; Ret x.

(** The answers of all the commands. *)
Inductive Answer : Type :=
| AStatus (r : result RemoteStatusDto RemoteError)
| AReached (r : result unit RemoteError)
| AFile (r : result RemoteFileDto RemoteError).
Definition showing (default_bin : option str) : program (result RemoteStatusDto RemoteError) :=
  do! st <- build_status default_bin; Ret (Ok st).

Definition remote_status : program (result RemoteStatusDto RemoteError) :=
  do c <- ReadyClient; match c with None => Ret (Ok Bootstrapping) | Some default_bin => showing default_bin end.

Definition required (r : RemoteEnvironmentRequest) : list (str * str) :=
  [ ( #"name", d_name r); ( #"wg_peer_public_key_hex", d_wg_peer_public_key_hex r); ( #"wg_endpoint", d_wg_endpoint r);
    ( #"wg_local_ip", d_wg_local_ip r); ( #"wg_peer_ip", d_wg_peer_ip r); ( #"ssh_host", d_ssh_host r);
    ( #"ssh_user", d_ssh_user r); ( #"ssh_identity_file", d_ssh_identity_file r);
    ( #"ssh_pinned_host_key", d_ssh_pinned_host_key r)].
Fixpoint require_all (fields : list (str * str)) : result unit RemoteError :=
  match fields with
  | [] => Ok tt
  | (field, value) :: fields => let? _ := require field value in require_all fields
  end.

Definition remote_set_environment (r : RemoteEnvironmentRequest) : program (result RemoteStatusDto RemoteError) :=
  match require_all (required r) with
  | Err e => Ret (Err e)
  | Ok _ =>
      ask! default_bin <- ready_client;
      let cfg := config_of r in
      do pinned <- PinTarget (ssh_target cfg);
      match pinned with
      | Err e => Ret (Err (from_ssh e))
      | Ok new_ssh =>
          do a <- PutEnvironment cfg;
          do b <- PutSsh new_ssh;
          do c <- PutTunnel Disconnected;
          do! d <- stop_tail;
          showing default_bin
      end
  end.

(** The end of a connect: the tunnel is marked, brought up and recorded. *)
Definition bring_up_and_record (default_bin : option str) (bin_path : str) (b : BringUp)
  : program (result RemoteStatusDto RemoteError) :=
  do x <- PutTunnel Connecting;
  do up <- BringUpTunnel bin_path b;
  do y <- PutTunnel (match up with Ok t => Connected t | Err e => Failed (wg_error_text e) end);
  showing default_bin.
Definition remote_wg_connect : program (result RemoteStatusDto RemoteError) :=
  ask! default_bin <- ready_client;
  do e <- GetEnvironment;
  match e with
  | None => Ret (Err NoEnvironment)
  | Some env =>
      match resolve_wireguard_go_bin env default_bin with
      | None => Ret (Err NoWireguardGoBinary)
      | Some bin_path =>
          do k <- EnsureKeypair;
          match k with
          | Err e => Ret (Err e)
          | Ok key =>
              bring_up_and_record default_bin bin_path (build_wg_bring_up_args env (Wireguard.private_hex key))
          end
      end
  end.
Definition remote_wg_disconnect : program (result RemoteStatusDto RemoteError) :=
  ask! default_bin <- ready_client;
  do a <- PutTunnel Disconnected;
  showing default_bin.

Definition remote_ssh_check_reachable : program (result unit RemoteError) :=
  ask! default_bin <- ready_client;
  do x <- WithSsh Reach;
  Ret (let? _ := x in Ok tt).
Definition remote_ssh_read_file (path : str) : program (result RemoteFileDto RemoteError) :=
  match require #"path" path with
  | Err e => Ret (Err e)
  | Ok _ =>
      ask! default_bin <- ready_client;
      do x <- WithSsh (ReadFile path);
      Ret (let? bytes := x in Ok (from_bytes bytes))
  end.
Definition remote_ssh_tail_start (path : str) (from_offset : Z) : program (result RemoteStatusDto RemoteError) :=
  match require #"path" path with
  | Err e => Ret (Err e)
  | Ok _ =>
      ask! default_bin <- ready_client;
      do! a <- stop_tail;
      do child <- SpawnTail path from_offset;
      match child with
      | Err e => Ret (Err e)
      | Ok session => do b <- PutTail session; showing default_bin
      end
  end.
Definition remote_ssh_tail_stop : program (result RemoteStatusDto RemoteError) :=
  ask! default_bin <- ready_client;
  do! a <- stop_tail;
  showing default_bin.

Inductive Request : Type :=
| Status | SetEnvironment (r : RemoteEnvironmentRequest) | WgConnect | WgDisconnect
| SshCheckReachable | SshReadFile (path : str) | SshTailStart (path : str) (from_offset : Z) | SshTailStop.
Definition answering {A} (f : A -> Answer) (p : program A) : program Answer := do! a <- p; Ret (f a).
Definition handle (r : Request) : program Answer :=
  match r with
  | Status => answering AStatus remote_status
  | SetEnvironment r => answering AStatus (remote_set_environment r)
  | WgConnect => answering AStatus remote_wg_connect
  | WgDisconnect => answering AStatus remote_wg_disconnect
  | SshCheckReachable => answering AReached remote_ssh_check_reachable
  | SshReadFile path => answering AFile (remote_ssh_read_file path)
  | SshTailStart path n => answering AStatus (remote_ssh_tail_start path n)
  | SshTailStop => answering AStatus remote_ssh_tail_stop
  end.

(** A command that no other overlaps: the outside answers its operations in
    turn. *)
Fixpoint alone {A} (w : nat -> Outside) (n : nat) (p : program A) (s : Panel) : A * Panel :=
  match p with
  | Ret a => (a, s)
  | Do o k => let '(x, s) := perform (w n) o s in alone w (S n) (k x) s
  end.
(** Commands one after another. *)
Fixpoint in_turn (w : nat -> nat -> Outside) (n : nat) (rs : list Request) (s : Panel) : list Answer * Panel :=
  match rs with
  | [] => ([], s)
  | r :: rs =>
      let '(a, s) := alone (w n) 0 (handle r) s in
      let '(answers, s) := in_turn w (S n) rs s in (a :: answers, s)
  end.

(** ** A coherent panel *)

(** The client is pinned to the saved environment's box, in a file that holds
    the pin; a tunnel that is up was brought up from the saved environment and
    the console's key, and no tunnel is left coming up; the tail was started
    with that client; and the children alive are the two the cells hold. *)
Record coherent (s : Panel) : Prop := mkCoherent
  { co_ssh : target <$> ssh s = ssh_target <$> environment s;
    co_tunnel : match tunnel s with
                | Connected t => exists e k, environment s = Some e /\ console_keypair s = Some k
                                   /\ brought_up t = build_wg_bring_up_args e (Wireguard.private_hex k)
                | Connecting => False
                | Disconnected | Failed _ => True
                end;
    co_tail : forall l, tail s = Some l -> ssh s = Some (tail_of l);
    co_alive : alive s = tunnel_child (tunnel s) ∪ tail_child (tail s);
    co_apart : tunnel_child (tunnel s) ## tail_child (tail s);
    co_fresh : forall n, n ∈ alive s -> (n < fresh s)%nat;
    co_pins : forall c, ssh s = Some c -> pins s !! known_hosts c = Some (known_hosts_line (target c));
    co_count : 0 <= pin_count s;
    co_pin : forall c, ssh s = Some c ->
               exists n, 0 <= n < pin_count s /\ known_hosts c = pin_file (temp_dir s) (process_id s) n }.

(** No file but the client's pin. *)
Definition only_pin (s : Panel) : Prop := dom (pins s) = pin_of (ssh s).
(** A pin's write that fails makes no file, and its removal goes through. *)
Definition tidy (e : Outside) : Prop := (forall n x, o_written e <> Err (Some n, x)) /\ o_removed e = true.

Lemma pin_file_inj dir pid n m : 0 <= n -> 0 <= m -> pin_file dir pid n = pin_file dir pid m -> n = m.
Proof.
  intros Hn Hm. unfold pin_file, ProofRun.join_path. intros E.
  apply Retained.dec_inj; [done|done|]. repeat case_match; simplify_list_eq; try done.
Qed.

Lemma coherent_disconnected s : coherent s -> coherent (put_tunnel Disconnected s).
Proof.
  intros [H1 H2 H3 H4 H5 H6 H7 H8 H9]. constructor; simpl; try done.
  all: try (intros n Hn; apply H6; set_solver).
  all: rewrite ?H4; set_solver.
Qed.

Lemma coherent_tail_stopped s : coherent s -> coherent (put_tail None (kill (tail_child (tail s)) s)).
Proof.
  intros [H1 H2 H3 H4 H5 H6 H7 H8 H9]. constructor; simpl; try done.
  all: try (intros n Hn; apply H6; set_solver).
  all: rewrite ?H4; set_solver.
Qed.
#[local] Hint Resolve coherent_disconnected coherent_tail_stopped : remote.

(** A tail started once the last is stopped. *)
Lemma coherent_tail_started s path c :
  coherent s -> tail s = None -> ssh s = Some c ->
  coherent (put_tail (Some (mkTail (fresh s) path c)) (spawned s)).
Proof.
  intros [H1 H2 H3 H4 H5 H6 H7 H8 H9] Ht Hc. rewrite Ht in *. constructor; simpl; try done.
  - by intros l [= <-].
  - rewrite H4. set_solver.
  - assert (fresh s ∉ tunnel_child (tunnel s)); [|set_solver]. intros Hin. apply (Nat.lt_irrefl (fresh s)), H6. set_solver.
  - intros n [->%elem_of_singleton|Hn%H6]%elem_of_union; lia.
Qed.

Lemma coherent_keypair s k : coherent s -> console_keypair s = None -> coherent (put_keypair k s).
Proof.
  intros [H1 H2 H3 H4 H5 H6 H7 H8 H9] Hk. constructor; simpl; try done.
  destruct (tunnel s) as [| |t|]; try done. destruct H2 as (e&k'&?&?&?). congruence.
Qed.

(** Marking the tunnel as coming up, and what comes of it. *)
Lemma coherent_connected s t e k :
  coherent s -> environment s = Some e -> console_keypair s = Some k ->
  t_child t = fresh s -> brought_up t = build_wg_bring_up_args e (Wireguard.private_hex k) ->
  coherent (put_tunnel (Connected t) (spawned (put_tunnel Connecting s))).
Proof.
  intros [H1 H2 H3 H4 H5 H6 H7 H8 H9] He Hk Ht Hb. constructor; simpl; try done.
  - by exists e, k.
  - rewrite H4, Ht. set_solver.
  - rewrite Ht. assert (fresh s ∉ tail_child (tail s)); [|set_solver]. intros Hin. apply (Nat.lt_irrefl (fresh s)), H6. set_solver.
  - intros n [[->%elem_of_singleton|Hn]%elem_of_union _]%elem_of_difference; [lia|].
    apply elem_of_difference in Hn as [Hn%H6 _]. lia.
Qed.
Lemma coherent_failed s x : coherent s -> coherent (put_tunnel (Failed x) (put_tunnel Connecting s)).
Proof.
  intros [H1 H2 H3 H4 H5 H6 H7 H8 H9]. constructor; simpl; try done.
  all: try (intros n Hn; apply H6; set_solver).
  all: rewrite ?H4; set_solver.
Qed.
Lemma coherent_killed s x :
  coherent s -> coherent (put_tunnel (Failed x) (kill {[fresh s]} (spawned (put_tunnel Connecting s)))).
Proof.
  intros [H1 H2 H3 H4 H5 H6 H7 H8 H9]. assert (fresh s ∉ alive s) by (intros Hin; apply (Nat.lt_irrefl (fresh s)), H6, Hin).
  constructor; simpl; try done.
  - rewrite H4 in *. set_solver.
  - intros n Hn. assert (n ∈ alive s) as Hn'%H6 by set_solver. lia.
Qed.

(** The next pin's file is not the client's. *)
Lemma next_pin_new s c : coherent s -> ssh s = Some c -> next_pin s <> known_hosts c.
Proof. intros H Hc. destruct (co_pin _ H _ Hc) as (n&Hlt&E). unfold next_pin. rewrite E. intros Heq%pin_file_inj; lia. Qed.

(** A count that goes up, with the file written in part or not at all. *)
Lemma coherent_unpinned s p :
  coherent s -> pin_count s < u32_max -> p = pins s \/ (exists l, p = <[next_pin s := l]> (pins s)) ->
  coherent (with_outside (alive s) (fresh s) p ((pin_count s + 1) mod (u32_max + 1)) s).
Proof.
  intros H Hn Hp. assert (forall c, ssh s = Some c -> next_pin s <> known_hosts c) as Hne by (intros; by apply next_pin_new).
  destruct H as [H1 H2 H3 H4 H5 H6 H7 H8 H9].
  rewrite Z.mod_small by (unfold u32_max in *; lia). constructor; simpl; try done; [|lia|].
  - intros c Hc. destruct Hp as [->|[l ->]]; [by apply H7|]. rewrite lookup_insert_ne; [by apply H7|]. by apply Hne.
  - intros c (n&?&?)%H9. exists n. split; [lia|done].
Qed.

(** An environment saved: the cells replaced in the source's order. *)
Definition saved (removed : bool) (cfg : RemoteEnvironmentConfig) (c : SshClient) (s : Panel) : Panel :=
  let s := put_tunnel Disconnected (put_ssh removed c (put_environment cfg s)) in
  put_tail None (kill (tail_child (tail s)) s).
Lemma coherent_saved removed s cfg :
  coherent s -> pin_count s < u32_max ->
  let file := next_pin s in
  let s' := saved removed cfg (mkClient (ssh_target cfg) file)
              (with_outside (alive s) (fresh s) (<[file := known_hosts_line (ssh_target cfg)]> (pins s))
                 ((pin_count s + 1) mod (u32_max + 1)) s) in
  coherent s' /\ (removed = true -> only_pin s -> only_pin s').
Proof.
  intros H Hn file s'.
  assert (forall c, ssh s = Some c -> file <> known_hosts c) as Hne by (intros; by apply next_pin_new). unfold s'. clear s'. rewrite Z.mod_small by (destruct H; unfold u32_max in *; lia).
  split.
  - destruct H as [H1 H2 H3 H4 H5 H6 H7 H8 H9]. constructor; simpl; try done.
    + rewrite H4. set_solver.
    + intros n Hin. apply H6. set_solver.
    + intros c [= <-]. simpl. unfold unpin. destruct (ssh s) as [c|] eqn:Ec; [|by rewrite lookup_insert_eq].
      destruct removed; [|by rewrite lookup_insert_eq]. rewrite lookup_delete_ne by (symmetry; by apply Hne).
      by rewrite lookup_insert_eq.
    + lia.
    + intros c [= <-]. exists (pin_count s). split; [lia|done].
  - intros -> Ho. unfold only_pin in *. simpl. unfold unpin. destruct (ssh s) as [c|] eqn:Ec.
    + rewrite dom_delete_L, dom_insert_L, Ho. simpl. specialize (Hne c eq_refl). set_solver.
    + rewrite dom_insert_L, Ho. simpl. set_solver.
Qed.

Lemma bring_up_coherent w n bin path env k s :
  coherent s -> environment s = Some env -> console_keypair s = Some k ->
  let s' := snd (alone w n (answering AStatus (bring_up_and_record bin path
                   (build_wg_bring_up_args env (Wireguard.private_hex k)))) s) in
  coherent s' /\ pin_count s' = pin_count s /\ pins s' = pins s /\ ssh s' = ssh s.
Proof.
  intros H Henv Hk. cbn [answering bring_up_and_record bind alone perform].
  destruct (w_spawn _) as [u|x]; [destruct (configure _ _) as [nm|x]|];
    cbn [bind alone perform showing build_status snd]; (split; [|done]).
  - by apply (coherent_connected s (mkTunnel (fresh s) nm _) env k).
  - exact (coherent_killed s _ H).
  - exact (coherent_failed s _ H).
Qed.

(** Only saving an environment pins, and it pins once. *)
Lemma command_coherent w r s :
  coherent s -> pin_count s < u32_max ->
  let s' := snd (alone w 0 (handle r) s) in
  (coherent s' /\ ((forall i, tidy (w i)) -> only_pin s -> only_pin s')) /\ pin_count s <= pin_count s' <= pin_count s + 1.
Proof.
  intros H Hn. assert (forall s', coherent s' -> pins s' = pins s -> ssh s' = ssh s -> pin_count s' = pin_count s ->
    (coherent s' /\ ((forall i, tidy (w i)) -> only_pin s -> only_pin s')) /\ pin_count s <= pin_count s' <= pin_count s + 1) as Hsame.
  { intros s' Hs Ep Ec En. split; [split; [done|]|lia]. intros _. unfold only_pin. by rewrite Ep, Ec. }
  destruct r as [|r| | | |path|path m|]; cbn [handle].
  - unfold remote_status. cbn [answering bind alone perform]. destruct (ready s); cbn; by apply Hsame.
  - unfold remote_set_environment. destruct (require_all (required r)) as [u|e]; [|cbn; by apply Hsame].
    cbn [answering bind ready_client alone perform]. destruct (ready s) as [bin|]; [|cbn; by apply Hsame].
    cbn [ok_or bind alone perform]. unfold connect, write_pinned.
    destruct (o_written (w 1%nat)) as [v|[[n|] e]] eqn:Ew; cbn [rbind bind alone perform stop_tail showing build_status snd].
    + destruct (coherent_saved (o_removed (w 3%nat)) s (config_of r) H Hn) as [Hc Ho].
      split; [split; [exact Hc|intros Ht; apply Ho; by destruct (Ht 3%nat)]|].
      cbn. rewrite Z.mod_small; [lia|]. destruct H. unfold u32_max in *. lia.
    + split; [split; [apply coherent_unpinned; eauto|]|].
      * intros Ht. destruct (Ht 1%nat) as [Hw _]. by destruct (Hw n e).
      * cbn. rewrite Z.mod_small; [lia|]. destruct H. unfold u32_max in *. lia.
    + split; [split; [apply coherent_unpinned; eauto|done]|].
      cbn. rewrite Z.mod_small; [lia|]. destruct H. unfold u32_max in *. lia.
  - unfold remote_wg_connect. cbn [answering bind ready_client alone perform].
    destruct (ready s) as [bin|]; [|cbn; by apply Hsame]. cbn [ok_or bind alone perform].
    destruct (environment s) as [env|] eqn:Eenv; [|cbn; by apply Hsame].
    destruct (resolve_wireguard_go_bin env bin) as [path|]; [|cbn; by apply Hsame].
    cbn [bind alone perform].
    destruct (console_keypair s) as [k|] eqn:Ek.
    + cbn [bind]. destruct (bring_up_coherent w 3 bin path env k s) as (Hc&Hp&Hpins&Hssh); [done..|].
      apply Hsame; [exact Hc|exact Hpins|exact Hssh|exact Hp].
    + destruct (generate _) as [k|x]; [|cbn; by apply Hsame]. cbn [bind].
      destruct (bring_up_coherent w 3 bin path env k (put_keypair k s)) as (Hc&Hp&Hpins&Hssh); [by apply coherent_keypair|done|done|].
      apply Hsame; [exact Hc|exact Hpins|exact Hssh|exact Hp].
  - unfold remote_wg_disconnect. cbn [answering bind ready_client alone perform].
    destruct (ready s) as [bin|]; [|cbn; by apply Hsame].
    apply (Hsame (put_tunnel Disconnected s)); [auto with remote|done..].
  - unfold remote_ssh_check_reachable. cbn [answering bind ready_client alone perform].
    destruct (ready s) as [bin|]; [|cbn; by apply Hsame]. cbn. destruct (ssh s) eqn:?; cbn; by apply Hsame.
  - unfold remote_ssh_read_file. destruct (require _ _); [|cbn; by apply Hsame].
    cbn [answering bind ready_client alone perform].
    destruct (ready s) as [bin|]; [|cbn; by apply Hsame]. cbn. destruct (ssh s) eqn:?; cbn; by apply Hsame.
  - unfold remote_ssh_tail_start. destruct (require _ _); [|cbn; by apply Hsame].
    cbn [answering bind ready_client alone perform].
    destruct (ready s) as [bin|]; [|cbn; by apply Hsame]. cbn [ok_or bind stop_tail alone perform].
    pose proof (coherent_tail_stopped s H) as Hs.
    set (s1 := put_tail None _) in *. destruct (ssh s1) as [c|] eqn:Ec; [|by apply (Hsame s1)].
    destruct (o_tail _ _); cbn [bind alone perform showing build_status snd]; [|by apply (Hsame s1)].
    apply (Hsame (put_tail (Some (mkTail (fresh s1) path c)) (spawned s1))); [by apply coherent_tail_started|done..].
  - unfold remote_ssh_tail_stop. cbn [answering bind ready_client alone perform].
    destruct (ready s) as [bin|]; [|cbn; by apply Hsame].
    apply (Hsame (put_tail None (kill (tail_child (tail s)) s))); [auto with remote|done..].
Qed.

Lemma in_turn_coherent w n rs s :
  coherent s -> pin_count s + Z.of_nat (length rs) <= u32_max ->
  let s' := snd (in_turn w n rs s) in coherent s' /\ ((forall m i, tidy (w m i)) -> only_pin s -> only_pin s').
Proof.
  revert n s; induction rs as [|r rs IH]; intros n s H Hn; cbn [in_turn length] in *; [done|].
  pose proof (command_coherent (w n) r s H) as [[Hc Ho] Hp]; [unfold u32_max in *; lia|].
  destruct (alone (w n) 0 (handle r) s) as [a s1]. simpl in *.
  destruct (IH (S n) s1 Hc ltac:(lia)) as [Hc' Ho']. destruct (in_turn w (S n) rs s1). simpl in *. auto.
Qed.

Lemma coherent_bootstrap dir pid bin : coherent (bootstrap bin (pending dir pid)).
Proof. constructor; simpl; try done. Qed.

(** C27: in one life of the panel, whatever the outside answers, commands that do
    not overlap leave it coherent, up to as many as the count of pins has
    values: a saved environment's client is pinned to its box and the file it
    gives to [ssh] holds that pin, a tunnel shown up was brought up with the
    saved environment and the console's key, none is left coming up, the tail
    runs over the current client, and the only children alive are the tunnel's
    and the tail's.  When besides no write of a pin failed once its file was
    open and no removal of one failed, the client's file is the only one left. *)
Theorem commands_in_turn_keep_the_panel_coherent w dir pid bin rs :
  Z.of_nat (length rs) <= u32_max ->
  let s := snd (in_turn w 0 rs (bootstrap bin (pending dir pid))) in
  coherent s
  /\ ((forall n i, (forall k x, o_written (w n i) <> Err (Some k, x)) /\ o_removed (w n i) = true) -> dom (pins s) = pin_of (ssh s)).
Proof.
  intros H. destruct (in_turn_coherent w 0 rs _ (coherent_bootstrap dir pid bin) H) as [Hc Ho].
  split; [exact Hc|]. intros Ht. by apply Ho.
Qed.

(** ** Commands that overlap *)

Definition one_life (_ _ : Panel) : Prop := False.
Abbreviation system := (@sys op resp Answer Panel).
Abbreviation steps := (Prelude.run (sys_step event_of handle perform o_time one_life)).

Definition key_of (e : event) : option Wireguard.WgKeypair :=
  match e with existT EnsureKeypair (Ok k) => Some k | _ => None end.
Definition brought_up_by (e : event) : option WgTunnel :=
  match e with existT (BringUpTunnel _ _) (Ok t) => Some t | _ => None end.

Lemma perform_keeps_key e o s k : console_keypair s = Some k -> console_keypair (snd (perform e o s)) = Some k.
Proof.
  intros H. destruct o; simpl; try done; unfold connect.
  - by rewrite H.
  - destruct (w_spawn _); [|done]. by destruct (configure _ _).
  - unfold write_pinned. by destruct (o_written e) as [|[[] ?]].
  - by destruct (ssh s).
  - destruct (ssh s); [|done]. by destruct (o_tail _ _).
Qed.
Lemma perform_key e o s k t :
  key_of (event_of o t (fst (perform e o s))) = Some k -> console_keypair (snd (perform e o s)) = Some k.
Proof.
  destruct o; try done. simpl. destruct (console_keypair s) as [k0|] eqn:E; [simpl; congruence|].
  destruct (generate _); simpl; congruence.
Qed.

(** However commands overlap, every connect is handed the same key: the
    console's key is drawn once in the life of the process. *)
Theorem console_key_is_drawn_once (s0 : Panel) (t0 : Z) h (s : system) :
  steps (initial s0 t0) h s ->
  forall i j e e' k k', Did i e ∈ h -> Did j e' ∈ h -> key_of e = Some k -> key_of e' = Some k' -> k = k'.
Proof.
  intros Hr. assert (forall i e k, Did i e ∈ h -> key_of e = Some k -> console_keypair (sys_state s) = Some k) as H.
  { eapply (history_invariant event_of handle perform o_time one_life
      (fun h s => forall i e k, Did i e ∈ h -> key_of e = Some k -> console_keypair (sys_state s) = Some k) _ _ _ Hr).
    - by intros i e k ?%elem_of_nil.
    - clear. intros h s se s' H Hs i e k Hin Hk.
      destruct Hs as [s T n t r|s T n t j o kk x y s' Hj Ht Hp|s T n t s' []]; simpl in *.
      + apply elem_of_app in Hin as [Hin|Hin%list_elem_of_singleton]; [by eapply H|done].
      + replace s' with (snd (perform x o s)) by (by rewrite Hp).
        apply elem_of_app in Hin as [Hin|Hin%list_elem_of_singleton].
        * eapply perform_keeps_key, H; eauto.
        * injection Hin as -> ->. apply (perform_key _ _ _ _ (o_time x)). by rewrite Hp. }
  intros i j e e' k k' Hi Hj Hk Hk'. pose proof (H i e k Hi Hk). pose proof (H j e' k' Hj Hk'). congruence.
Qed.

Definition records_its_own (tr : list event) (o : op) : Prop :=
  match o with PutTunnel (Connected t) => exists e, e ∈ tr /\ brought_up_by e = Some t | _ => True end.

Lemma shows_nothing_up tr bin : wp event_of records_its_own tr (showing bin) (fun _ _ => True).
Proof. cbn. repeat (split; [done|]; intros). done. Qed.
#[local] Hint Resolve shows_nothing_up : remote.

Lemma bring_up_records tr bin path b :
  wp event_of records_its_own tr (bring_up_and_record bin path b) (fun _ _ => True).
Proof.
  cbn [bring_up_and_record wp]. split; [done|]. intros t1 x1. split; [done|]. intros t2 up. split.
  - destruct up as [t|]; [|done]. exists (event_of (BringUpTunnel path b) t2 (Ok t)).
    split; [apply elem_of_app; right; by apply list_elem_of_singleton|done].
  - intros t3 x3. apply shows_nothing_up.
Qed.
#[local] Hint Resolve bring_up_records : remote.

(** Whether or not a command ends in the status, what remains is to look at
    the cells. *)
Ltac looks := repeat (first [done | progress cbn | split; [done|]; intros]).

Lemma handlers_record_their_own r : wp event_of records_its_own [] (handle r) (fun _ _ => True).
Proof.
  destruct r as [|r| | | |path|path m|]; cbn [handle]; apply wp_bind;
    (eapply (wp_mono event_of _ _ _ (fun _ _ => True)); [|by intros]).
  - unfold remote_status. split; [done|]. intros t [bin|]; auto with remote. done.
  - unfold remote_set_environment. destruct (require_all (required r)) as [u|e]; [|done].
    cbn. split; [done|]. intros t [bin|]; [|done]. cbn. split; [done|]. intros t2 [c|]; [|done]. looks.
  - unfold remote_wg_connect. cbn. split; [done|]. intros t [bin|]; [|done]. cbn. split; [done|]. intros t2 [env|]; [|done].
    destruct (resolve_wireguard_go_bin env bin) as [path|]; [|done]. split; [done|]. intros t3 [k|]; auto with remote. done.
  - cbn. split; [done|]. intros t [bin|]; [|done]. looks.
  - cbn. split; [done|]. intros t [bin|]; [|done]. looks.
  - unfold remote_ssh_read_file. destruct (require _ _); [|done]. cbn. split; [done|]. intros t [bin|]; [|done]. looks.
  - unfold remote_ssh_tail_start. destruct (require _ _); [|done]. cbn. split; [done|]. intros t [bin|]; [|done].
    cbn. split; [done|]. intros t2 x2. split; [done|]. intros t3 [c|]; looks.
  - cbn. split; [done|]. intros t [bin|]; [|done]. looks.
Qed.

(** However commands overlap, a tunnel is shown up only by the command whose
    own bring-up gave it. *)
Theorem connected_is_its_own_bring_up (s0 : Panel) (t0 : Z) h (s : system) :
  steps (initial s0 t0) h s ->
  forall h1 h2 i t x, h = h1 ++ Did i (existT (PutTunnel (Connected t)) x) :: h2 ->
  exists e, Did i e ∈ h1 /\ brought_up_by e = Some t.
Proof.
  intros Hr h1 h2 i t x E.
  destruct (audited_run event_of handle perform o_time one_life records_its_own s0 t0 h s
    handlers_record_their_own Hr h1 h2 i _ E) as (o&t1&x1&Ho&Hpre).
  assert (PutTunnel (Connected t) = o) as <- by exact (f_equal (@projT1 op resp) Ho).
  destruct Hpre as (e&Hin&He). exists e. split; [|done]. by apply elem_of_trace_of in Hin.
Qed.
End Panel.

(** ** The shell's words *)

Lemma sh_words_quoted s w rest :
  sh_words (flat_map (fun c => if c =? 39 then [39; 92; 39; 39] else [c]) s ++ 39 :: rest) true (Some w)
  = sh_words rest false (Some (w ++ s)).
Proof.
  revert w; induction s as [|c s IH]; intros w; simpl; [by rewrite app_nil_r|].
  destruct (c =? 39) eqn:E; simpl.
  - apply Z.eqb_eq in E as ->. simpl. rewrite IH. by rewrite <- app_assoc.
  - rewrite E. simpl. rewrite IH. by rewrite <- app_assoc.
Qed.

(** A path quoted is one word, whatever it holds. *)
Lemma sh_words_single_quote s : sh_words (shell_single_quote s) false None = Some [s].
Proof. unfold shell_single_quote. simpl. change [39] with (39 :: []). by rewrite (sh_words_quoted s [] []). Qed.

(** Characters that stand for themselves outside quotes. *)
Lemma sh_words_plain p w s :
  Forall (fun c => c <> 39 /\ c <> 92 /\ c <> 32) p -> p <> [] ->
  sh_words (p ++ s) false w = sh_words s false (Some (default [] w ++ p)).
Proof.
  intros Hp Hne. revert w. induction Hp as [|c p (H1&H2&H3) Hp IH]; intros w; [done|]. simpl.
  rewrite !(proj2 (Z.eqb_neq _ _)) by done. destruct p as [|d p]; [done|].
  rewrite IH by done. simpl. by rewrite <- app_assoc.
Qed.

Definition plain (p : str) : Prop := Forall (fun c => c <> 39 /\ c <> 92 /\ c <> 32) p /\ p <> [].
Lemma sh_words_word p s ws :
  plain p -> sh_words s false None = Some ws -> sh_words (p ++ 32 :: s) false None = Some (p :: ws).
Proof. intros [H1 H2] H. rewrite sh_words_plain by done. simpl. by rewrite H. Qed.
Lemma offset_word_plain n : 0 <= n -> plain (43 :: dec n).
Proof.
  intros Hn. split; [|done]. constructor; [lia|]. eapply Forall_impl; [by apply Retained.dec_digits|].
  intros c Hc. unfold ascii_digit in Hc. lia.
Qed.
Ltac plain_word := split; [cbn; repeat (apply Forall_cons; split; [lia|]); apply Forall_nil; done|done].

(** The command for a remote file is read by a shell as its program, its
    options and the path as one word, whatever the path holds: no path adds a
    command or an argument. *)
Theorem remote_path_is_one_word path n :
  0 <= n ->
  sh_words (read_command path) false None = Some [ #"cat"; #"--"; path]
  /\ sh_words (tail_command path n) false None
     = Some [ #"tail"; #"-c"; #"+" ++ dec (u64_saturating_succ n); #"-F"; path].
Proof.
  intros Hn. split.
  - change (read_command path) with ( #"cat" ++ 32 :: #"--" ++ 32 :: shell_single_quote path).
    repeat (apply sh_words_word; [plain_word|]). apply sh_words_single_quote.
  - set (k := u64_saturating_succ n).
    replace (tail_command path n)
      with ( #"tail" ++ 32 :: #"-c" ++ 32 :: (43 :: dec k) ++ 32 :: #"-F" ++ 32 :: shell_single_quote path)
      by (unfold tail_command; fold k; simpl; by rewrite <- ?app_assoc).
    do 2 (apply sh_words_word; [plain_word|]). apply sh_words_word; [apply offset_word_plain; unfold k, u64_saturating_succ, u64_max; lia|].
    apply sh_words_word; [plain_word|]. apply sh_words_single_quote.
Qed.

Lemma remote_path_is_one_word_witness :
  0 <= 4 /\ sh_words (read_command #"it's; rm -rf /") false None = Some [ #"cat"; #"--"; #"it's; rm -rf /"].
Proof. split; [lia|]. apply (remote_path_is_one_word #"it's; rm -rf /" 4). lia. Defined.

(** The reader ends a stream once, last. *)
Lemma tail_reader_ends path ls :
  exists lines, tail_reader path ls = map (TailLine path) lines ++ [TailEnded path #"the remote tail stream ended"].
Proof.
  induction ls as [|[text|] ls [lines E]]; [by exists []| |by exists []]. exists (text :: lines). cbn [tail_reader map app]. by rewrite E.
Qed.

(** ** Runs *)

Module Example.
#[local] Instance keys : Wireguard.Curve := {| Wireguard.x25519_base := map (Z.lxor 85) |}.
#[local] Existing Instance Command.demo_hash.

Definition quiet : WgWorld :=
  mkWgWorld (Ok tt) true (Ok tt) (fun _ => Ok tt) (Ok (#"errno=0" ++ [10])) (fun _ => Ok (mkExit true #"exit status: 0" [])).
Definition outside : Outside :=
  mkOutside 0 (Ok [1; 2; 3]) (fun _ => quiet) (Ok (#"last_handshake_time_sec=0" ++ [10])) (Ok tt) true
    (fun _ => Ok (0, [104; 105], [])) (fun _ => Ok tt).
Definition box (user host : str) : RemoteEnvironmentRequest :=
  mkEnvDto #"campaign" [] #"bb" #"203.0.113.9:51820" [ #"10.9.0.1/32"] (Some 25) None #"10.9.0.2" #"10.9.0.1"
    host 22 user #"/home/op/id" #"ssh-ed25519 AAAA".
Definition panel : Panel := bootstrap (Some #"/bin/wireguard-go") (pending #"/tmp" 7).
Definition always (_ _ : nat) : Outside := outside.

(** A box saved, connected, read and followed. *)
Example campaign :
  let '(answers, s) := in_turn always 0
    [SetEnvironment (box #"root" #"one"); WgConnect; SshReadFile #"/etc/hostname"; SshTailStart #"/var/log/syslog" 0] panel in
  (answers !! 2%nat, alive s, dom (pins s), tail_path <$> tail s)
  = (Some (AFile (Ok (mkFileDto #"hi" true 2))), {[0%nat; 1%nat]}, {[ #"/tmp/genaryx-ssh-known-7-0"]}, Some #"/var/log/syslog").
Proof. vm_compute. reflexivity. Qed.

Lemma commands_in_turn_keep_the_panel_coherent_witness :
  Z.of_nat (length [SetEnvironment (box #"root" #"one"); WgConnect]) <= u32_max
  /\ let s := snd (in_turn always 0 [SetEnvironment (box #"root" #"one"); WgConnect] panel) in
     coherent s /\ dom (pins s) = pin_of (ssh s).
Proof.
  split; [by vm_compute|]. intros s.
  destruct (commands_in_turn_keep_the_panel_coherent always #"/tmp" 7 (Some #"/bin/wireguard-go")
    [SetEnvironment (box #"root" #"one"); WgConnect]) as [Hc Ho]; [by vm_compute|].
  split; [exact Hc|]. apply Ho. intros n i. by split.
Defined.

(** A disk that fills up while a pin is written: the environment is not saved
    and the file stays. *)
Definition disk_full : Outside :=
  mkOutside 0 (Ok [1; 2; 3]) (fun _ => quiet) (Ok []) (Err (Some 3%nat, #"No space left on device")) true
    (fun _ => Ok (0, [], [])) (fun _ => Ok tt).
Example failed_pin_is_left :
  let '(answers, s) := in_turn (fun _ _ => disk_full) 0 [SetEnvironment (box #"root" #"one")] panel in
  (bool_decide (is_Some (environment s)), map_to_list (pins s)) = (false, [( #"/tmp/genaryx-ssh-known-7-0", #"one")]).
Proof. vm_compute. reflexivity. Qed.

(** *** Overlaps *)

Definition saved_panel : Panel := snd (in_turn always 0 [SetEnvironment (box #"root" #"one")] panel).
Definition go (i : nat) (n : nat) : list (Prog.action Request Outside) := repeat (Perform i outside) n.
Abbreviation runs := (run_fn event_of handle perform o_time (initial saved_panel 0)).
Definition ended (acts : list (Prog.action Request Outside)) : option Panel :=
  (fun hs => sys_state (snd hs)) <$> runs acts.
Definition endpoint_of (t : TunnelState) : list str :=
  match t with Connected t => map endpoint (peers (config (brought_up t))) | _ => [] end.

(** An environment saved while a connect is at work: the tunnel shown up is the
    old environment's. *)
Definition elsewhere : RemoteEnvironmentRequest :=
  mkEnvDto #"other" [] #"cc" #"198.51.100.1:51820" [] None None #"10.8.0.2" #"10.8.0.1" #"two" 22 #"root" #"/home/op/id" #"ssh-ed25519 BBBB".
Definition connect_overtaken : list (Prog.action Request Outside) :=
  [Arrive WgConnect] ++ go 0 5 ++ [Arrive (SetEnvironment elsewhere)] ++ go 1 6 ++ go 0 1.
Example connect_outlives_its_environment :
  (fun s => (wg_endpoint <$> environment s, endpoint_of (tunnel s), host ∘ target <$> ssh s)) <$> ended connect_overtaken
  = Some (Some #"198.51.100.1:51820", [ #"203.0.113.9:51820"], Some #"two").
Proof. vm_compute. reflexivity. Qed.

(** Two tails started at once: the first one's child is left to run, held by no
    cell. *)
Definition tails_at_once : list (Prog.action Request Outside) :=
  [Arrive (SshTailStart #"/a" 0); Arrive (SshTailStart #"/b" 0)] ++ go 0 3 ++ go 1 4 ++ go 0 1.
Example a_tail_is_left_running :
  (fun s => (alive s, tail_child (tail s))) <$> ended tails_at_once = Some ({[0%nat; 1%nat]}, {[0%nat]}).
Proof. vm_compute. reflexivity. Qed.

(** A client's pin goes before the tail that uses it is stopped. *)
Definition pin_goes_first : list (Prog.action Request Outside) :=
  [Arrive (SshTailStart #"/a" 0)] ++ go 0 4 ++ [Arrive (SetEnvironment elsewhere)] ++ go 1 4.
Example pin_goes_before_its_tail :
  (fun s => (bool_decide (alive s = {[0%nat]}), (fun l => known_hosts (tail_of l)) <$> tail s, dom (pins s))) <$> ended pin_goes_first
  = Some (true, Some #"/tmp/genaryx-ssh-known-7-0", {[ #"/tmp/genaryx-ssh-known-7-1"]}).
Proof. vm_compute. reflexivity. Qed.

(** *** One command *)

(** A user that begins with a dash is saved, and is the last argument before the
    command, where [ssh] looks for an option. *)
Definition dashed : RemoteEnvironmentRequest := box #"-oProxyCommand=id;" #"one".
Example dashed_user_is_saved :
  let '(a, s) := alone (always 0) 0 (handle (SetEnvironment dashed)) panel in
  (match a with AStatus (Ok (Ready _ (Some e) _ _ _)) => Some (d_ssh_user e) | _ => None end,
   (fun c => last (base_ssh_args (target c) (known_hosts c))) <$> ssh s)
  = (Some #"-oProxyCommand=id;", Some (Some #"-oProxyCommand=id;@one")).
Proof. vm_compute. reflexivity. Qed.

(** [cat] is told where its options end, [tail] is not. *)
Example tail_takes_a_path_for_an_option :
  (sh_words (read_command #"--help") false None, sh_words (tail_command #"--help" 0) false None)
  = (Some [ #"cat"; #"--"; #"--help"], Some [ #"tail"; #"-c"; #"+1"; #"-F"; #"--help"]).
Proof. vm_compute. reflexivity. Qed.

(** A tunnel whose peer never answered a handshake is shown up. *)
Example connected_without_a_handshake :
  match fst (alone (always 0) 0 (handle WgConnect) saved_panel) with
  | AStatus (Ok (Ready _ _ _ t _)) => t
  | _ => TDisconnected
  end = TConnected #"genaryx0" (Some 0).
Proof. vm_compute. reflexivity. Qed.

Lemma console_key_is_drawn_once_witness :
  let acts := [Arrive WgConnect; Arrive WgConnect] ++ go 0 3 ++ go 1 3 in
  let h := history event_of handle perform o_time (initial saved_panel 0) acts in
  let k := Wireguard.from_private (Wireguard.clamp [1; 2; 3]) in
  omap (fun e => match e with Did i e => (fun k => (i, k)) <$> key_of e | _ => None end) h = [(0%nat, k); (1%nat, k)]
  /\ forall i j e e' k k', Did i e ∈ h -> Did j e' ∈ h -> key_of e = Some k -> key_of e' = Some k' -> k = k'.
Proof.
  split; [by vm_compute|].
  apply (console_key_is_drawn_once saved_panel 0 _
    (final event_of handle perform o_time (initial saved_panel 0) ([Arrive WgConnect; Arrive WgConnect] ++ go 0 3 ++ go 1 3))).
  apply history_run. by vm_compute.
Defined.
End Example.
