(* ===== verification/Feed.v ===== *)
(** * Feed: which streams fill the console's bus, and where its history lives
    ([crates/api/src/bus/feed.rs], [bus/mod.rs], [crates/api/src/events.rs],
    [replay.rs], [crates/core/src/bus.rs], [taipan_home.rs])

    A live bus tails every [*.ndjson] file of the environment's directory and
    the streams an operator names, each of those pinned to the source its file
    is named for.  A tick lists the files there are, takes up the new ones and
    polls them all ([Ingest]); the disk it finds is whatever it is then.  The
    synthetic feeder of a machine without an environment writes fixtures and is
    not modelled. *)
From S2P Require Import Prelude Text Json Signing.
From S2P Require Ingest Store ProofRun Approver.
From S2P Require Import Onboard.

(** ** Paths *)

(** [Path]'s equality: by components. *)
#[local] Existing Instance component_eq_dec.
Definition same_path (a b : str) : bool := bool_decide (components a = components b).
Definition is_absolute (p : str) : bool := starts_with #"/" p.
Definition extension_of (p : str) : option str := let! name := file_name p in extension name.
(** [Path::file_stem]. *)
Definition stem_of_name (name : str) : str :=
  match rsplit_once #"." name with Some ((_ :: _) as stem, _) => stem | _ => name end.
Definition file_stem (p : str) : option str := stem_of_name <$> file_name p.
Definition climbs (p : str) : bool := existsb (fun c => bool_decide (c = ParentDir)) (components p).
Definition is_ndjson (p : str) : bool := bool_decide (extension_of p = Some #"ndjson").

(** ** The environment ([core/src/bus.rs], [taipan_home.rs]) *)

Record ResolvedBus : Type := mkResolved { env_name : str; events_dir : str }.
Definition source_path (b : ResolvedBus) (source : str) : str := ProofRun.join_path (events_dir b) (source ++ #".ndjson").
Definition writer_path (is_dir : str -> bool) (b : ResolvedBus) (source : str) : option str :=
  if is_dir (events_dir b) then Some (source_path b source) else None.
Definition environments_dir (taipan_home home : option str) : option str :=
  match taipan_home with
  | Some t => Some (ProofRun.join_path t #"environments")
  | None => (fun h => ProofRun.join_path (ProofRun.join_path h #".taipan") #"environments") <$> home
  end.

(** A file of the environments directory: its path, when it was last modified
    and its bytes. *)
Record Descriptor : Type := mkDescriptor { d_path : str; modified : option Z; d_bytes : option (list Z) }.
Definition is_descriptor (d : Descriptor) : bool :=
  bool_decide (extension_of (d_path d) = Some #"json")
  && (let stem := default [] (file_stem (d_path d)) in
      negb (ends_with #".keys" stem) && negb (ends_with #".pid" stem)).
(** The newest first; a file whose time is not known comes last. *)
Definition newer (a b : Descriptor) : bool :=
  match modified a, modified b with
  | Some x, Some y => y <=? x
  | _, None => true
  | None, Some _ => false
  end.
Fixpoint find_map {A B} (f : A -> option B) (l : list A) : option B :=
  match l with [] => None | x :: l => match f x with Some y => Some y | None => find_map f l end end.

Section Environment.
Context {JT : JsonText}.
(** What serde reads of a descriptor: the name, and the directory of its
    events.  A struct is read from an object or, by position, from an array. *)
Definition read_dir (dir : option value) : option (option str) :=
  match dir with None | Some VNull => Some None | Some (VStr d) => Some (Some d) | Some _ => None end.
Definition read_events (v : value) : option (option str) :=
  match v with
  | VObj ms => read_dir (obj_get #"dir" ms)
  | VArr [] => Some None
  | VArr [d] => read_dir (Some d)
  | _ => None
  end.
Definition read_descriptor (v : value) : option (str * option str) :=
  match v with
  | VObj ms =>
      let! name := get_str #"name" v in
      let! dir := match obj_get #"events" ms with None => Some None | Some e => read_events e end in
      Some (name, dir)
  | VArr [VStr name] => Some (name, None)
  | VArr [VStr name; e] => let! dir := read_events e in Some (name, dir)
  | _ => None
  end.
Definition try_load (d : Descriptor) : option ResolvedBus :=
  let! bytes := d_bytes d in
  let! v := json_of bytes in
  let! (name, dir) := read_descriptor v in
  let! dir := dir in
  if bool_decide (trim dir = []) then None else Some (mkResolved name dir).
Definition discover_in (entries : list Descriptor) : option ResolvedBus :=
  find_map try_load (isort newer (List.filter is_descriptor entries)).
End Environment.

(** ** The streams ([feed.rs]) *)

Section Streams.
(** [{:?}] of a string. *)
Context (debug_str : str -> str).

(** One entry of the variable: the path it names, or why it is not read. *)
Definition extra_stream (entry : str) : result str str :=
  if negb (is_absolute entry) then Err (debug_str entry ++ #" is not an absolute path")
  else if climbs entry then Err (debug_str entry ++ #" climbs out of its directory with `..`")
  else if negb (is_ndjson entry) || bool_decide (default [] (file_stem entry) = [])
  then Err (debug_str entry ++ #" is not one *.ndjson file; a directory is not read")
  else Ok entry.
Definition entries_of (raw : str) : list str :=
  List.filter (fun e => negb (bool_decide (e = []))) (map trim (split_char 44 raw)).
Definition take_entry (st : list str * list str) (entry : str) : list str * list str :=
  match extra_stream entry with
  | Err reason => (st.1, st.2 ++ [reason])
  | Ok path => if existsb (same_path path) st.1 then st else (st.1 ++ [path], st.2)
  end.
Definition parse_extra_streams (raw : str) : list str * list str := fold_left take_entry (entries_of raw) ([], []).
End Streams.

Record BusPaths : Type := mkPaths { dir : str; extra : list str }.

(** What a tick finds: the names in the events directory, the paths that are
    regular files and no links, what can be read, the paths the store lets be
    registered, and the time. *)
Record Disk : Type := mkDisk
  { listing : option (list str); regular : str -> bool; files : Ingest.Fs; registers : str -> result unit str; now : str }.

Definition collect_ndjson_files (d : Disk) (dir : str) : option (list str) :=
  let! names := listing d in
  Some (map (ProofRun.join_path dir)
          (isort str_leb (List.filter (fun n => bool_decide (extension n = Some #"ndjson")) names))).
Definition add_extra (d : Disk) (out : list str) (e : str) : list str :=
  if negb (regular d e) then out else if existsb (same_path e) out then out else out ++ [e].
Definition collect_sources (d : Disk) (paths : BusPaths) : list str :=
  fold_left (add_extra d) (extra paths) (default [] (collect_ndjson_files d (dir paths))).
Definition is_extra (paths : BusPaths) (path : str) : bool := existsb (fun e => same_path e path) (extra paths).

(** ** The tailer *)

Section Tailer.
Context {PR : Primitives} {SC : Ingest.Schemas} (map_order : gmap str Z -> list (str * Z)).
Abbreviation IngestService := Ingest.IngestService.

Definition stem_or_unknown (path : str) : str := default #"unknown" (file_stem path).
Definition add_source (svc : IngestService) (d : Disk) (path : str) : result IngestService str :=
  let? _ := registers d path in
  Ok (Ingest.add_file_source svc (files d) (#"filetail:" ++ stem_or_unknown path) path).
Definition add_bus_source (svc : IngestService) (d : Disk) (paths : BusPaths) (path : str) : result IngestService str :=
  if negb (is_extra paths path) then add_source svc d path
  else
    let stem := stem_or_unknown path in
    let? _ := registers d path in
    Ok (Ingest.add_pinned_file_source svc (files d) (#"filetail:" ++ stem) path stem).

(** The service and the paths it tails. *)
Record Bus : Type := mkBus { svc : IngestService; tailed : list str }.
Definition pick_up (d : Disk) (paths : BusPaths) (b : Bus) (path : str) : Bus :=
  if existsb (same_path path) (tailed b) then b
  else match add_bus_source (svc b) d paths path with
       | Ok s => mkBus s (tailed b ++ [path])
       | Err _ => b
       end.
Definition pick_up_new_sources (d : Disk) (paths : BusPaths) (b : Bus) : Bus :=
  fold_left (pick_up d paths) (collect_sources d paths) b.

Definition BROADCAST_CAPACITY : nat := 1024.
(** What a receiver still holds of the events sent since it last read: the
    oldest are dropped past the channel's capacity. *)
Definition received (sent : list Ingest.ConsoleEvent) : list Ingest.ConsoleEvent :=
  skipn (length sent - BROADCAST_CAPACITY) sent.

(** One round of [run_tailer]: the events given to the sink, [waiting] being
    those sent before. *)
Definition tick (paths : BusPaths) (waiting : list Ingest.ConsoleEvent) (d : Disk) (b : Bus)
  : Bus * (list Ingest.ConsoleEvent * list Ingest.ConsoleEvent) :=
  let b := pick_up_new_sources d paths b in
  let '(stats, sent, s) := Ingest.poll_once map_order (svc b) (files d) (now d) in
  let b := mkBus s (tailed b) in
  match stats with
  | Err _ => (b, (waiting ++ sent, []))
  | Ok _ => (b, ([], received (waiting ++ sent)))
  end.
Fixpoint run_tailer (paths : BusPaths) (waiting : list Ingest.ConsoleEvent) (ds : list Disk) (b : Bus)
  : Bus * list Ingest.ConsoleEvent :=
  match ds with
  | [] => (b, [])
  | d :: ds =>
      let '(b, (waiting, out)) := tick paths waiting d b in
      let '(b, outs) := run_tailer paths waiting ds b in (b, out ++ outs)
  end.

(** [bootstrap_live], from its store on: the first file that cannot be
    registered, or a poll that fails, ends it. *)
Fixpoint add_all (d : Disk) (paths : BusPaths) (new : list str) (b : Bus) : result Bus str :=
  match new with
  | [] => Ok b
  | path :: new =>
      let? s := add_bus_source (svc b) d paths path in add_all d paths new (mkBus s (tailed b ++ [path]))
  end.
Definition bootstrap_live (paths : BusPaths) (env : str) (store : Ingest.Store) (d : Disk)
  : result (Bus * list Ingest.ConsoleEvent) str :=
  let? b := add_all d paths (collect_sources d paths) (mkBus (Ingest.mkService store env [] ∅) []) in
  let '(stats, sent, s) := Ingest.poll_once map_order (svc b) (files d) (now d) in
  let? _ := stats in
  Ok (mkBus s (tailed b), sent).
End Tailer.

(** ** Where history lives *)

Definition safe_char (c : Z) : Z := if ascii_alnum c || (c =? 45) || (c =? 95) then c else 45.
Definition safe_segment (env : str) : str :=
  let safe := map safe_char env in if bool_decide (safe = []) then #"default" else safe.
Definition store_dir_candidates (env : str) (state_dir taipan_home home : option str) : list str :=
  let safe := safe_segment env in
  let out := match state_dir with Some d => [ProofRun.join_path d safe] | None => [] end
             ++ match taipan_home with Some t => [ProofRun.join_path (ProofRun.join_path t #"genaryx") safe] | None => [] end in
  match home with
  | Some h =>
      let under_home := ProofRun.join_path (ProofRun.join_path (ProofRun.join_path h #".taipan") #"genaryx") safe in
      if existsb (same_path under_home) out then out else out ++ [under_home]
  | None => out
  end.
(** [first_creatable]: what creating each directory answers. *)
Fixpoint first_creatable_from (create : str -> result unit str) (refused : list str) (candidates : list str) : result str str :=
  match candidates with
  | [] =>
      Err (#"no durable store directory could be created; tried "
           ++ (if bool_decide (refused = []) then #"nothing: neither GENARYX_STATE_DIR, TAIPAN_HOME nor HOME is set"
               else join #"; " refused)
           ++ #". Set GENARYX_STATE_DIR to a writable directory.")
  | d :: candidates =>
      match create d with
      | Ok _ => Ok d
      | Err e => first_creatable_from create (refused ++ [d ++ #": " ++ e]) candidates
      end
  end.
Definition first_creatable (create : str -> result unit str) (candidates : list str) : result str str :=
  first_creatable_from create [] candidates.
Definition non_empty_var (v : option str) : option str := let! v := v in if bool_decide (v = []) then None else Some v.
(** [create_store_dir], of the three variables; the parent of
    [environments_dir] is the directory it joins [environments] to. *)
Definition create_store_dir (state_dir taipan_home home : option str) (create : str -> result unit str) (env : str)
  : result str str :=
  first_creatable create
    (store_dir_candidates env (non_empty_var state_dir)
       (match taipan_home with Some t => Some t | None => (fun h => ProofRun.join_path h #".taipan") <$> home end)
       (non_empty_var home)).

Definition DEFAULT_HISTORY_DAYS : Z := 90.
Definition history_days (var : option str) : Z := default DEFAULT_HISTORY_DAYS (let! v := var in parse_i64 v).
(** The moment before which events go; a release build's arithmetic wraps. *)
Definition horizon (days now_ms : Z) : option Z :=
  if days <=? 0 then None else Some (Approver.i64_wrap (now_ms - Approver.i64_wrap (days * Store.DAY_MS))).
Definition prune_history {CA : Store.Calendar} (var : option str) (now_ms : Z) (rows : list Store.Row)
  (refused : list Ingest.Quarantined) : list Store.Row * list Ingest.Quarantined :=
  match horizon (history_days var) now_ms with
  | None => (rows, refused)
  | Some cutoff => (Store.prune_before cutoff rows refused).2
  end.

(** ** What holds of the streams *)

(** The rows, and the events given to the sink, of an extra stream claim the
    source its file is named for. *)
Definition keeps_source (paths : BusPaths) (e : Ingest.ConsoleEvent) : Prop :=
  forall f, Ingest.p_file (Ingest.provenance e) = Some f -> is_extra paths f = true ->
  Ingest.source (Ingest.event e) = stem_or_unknown f.
Definition store_keeps (paths : BusPaths) (s : Ingest.Store) : Prop :=
  Forall (fun r => keeps_source paths r.2) (Ingest.events s).

Section Pins.
Context {PR : Primitives} {SC : Ingest.Schemas} (map_order : gmap str Z -> list (str * Z)).

(** An event a poll of [s] gathers. *)
Definition gathered (s : Ingest.IngestService) (e : Ingest.ConsoleEvent) : Prop :=
  exists t, t ∈ Ingest.tails s /\ Ingest.p_file (Ingest.provenance e) = Some (Ingest.t_path t)
  /\ forall w, Ingest.pinned s !! Ingest.t_path t = Some w -> Ingest.source (Ingest.event e) = w.

(** What a poll has so far: no rows written, and only such events. *)
Definition sound (s : Ingest.IngestService) (g : Ingest.Gathered) : Prop :=
  Forall (fun w => exists q, w = Ingest.WQuarantine q) (Ingest.g_writes g) /\ Forall (gathered s) (Ingest.g_valid g).
(** A record of one of the tails. *)
Definition of_tail (s : Ingest.IngestService) (r : Ingest.RawRecord) : Prop :=
  exists t, t ∈ Ingest.tails s /\ Ingest.r_file r = Some (Ingest.t_path t).

Lemma ingest_record_sound s conn now g r : of_tail s r -> sound s g -> sound s (fst (Ingest.ingest_record s conn now g r)).
Proof.
  intros (t&Ht&Hf) [Hw Hv]. unfold Ingest.ingest_record.
  assert (forall q next, sound s (Ingest.mkGathered (Ingest.g_writes g ++ [Ingest.WQuarantine q]) (Ingest.g_valid g) next)) as Hq
    by (intros; split; [apply Forall_app; split; [done|]; constructor; eauto|done]).
  destruct (Ingest.parse_valid (Ingest.r_raw r)) as [v|report]; [|apply Hq]. rewrite Hf.
  assert (forall x next,
    (forall w, Ingest.pinned s !! Ingest.t_path t = Some w -> Ingest.source v = w) ->
    sound s (Ingest.mkGathered (Ingest.g_writes g)
      (Ingest.g_valid g ++ [Ingest.mkConsole v (Ingest.mkProvenance (Ingest.service_env s) conn (Some (Ingest.t_path t)) (Ingest.r_offset r) now)
         (Ingest.r_raw r) x]) next)) as Hs
    by (intros x next Hx; split; [done|]; apply Forall_app; split; [done|]; constructor; [|done]; by exists t).
  destruct (Ingest.pinned s !! Ingest.t_path t) as [w|].
  - destruct (str_eqb (Ingest.source v) w) eqn:Ew; [|apply Hq]. apply str_eqb_eq in Ew as <-. cbn [negb].
    destruct (Ingest.schema_version v); [|done]. apply Hs. by intros ? [= <-].
  - destruct (Ingest.schema_version v); [|done]. by apply Hs.
Qed.
Lemma ingest_records_sound s conn now rs g :
  Forall (of_tail s) rs -> sound s g -> sound s (fst (Ingest.ingest_records s conn now g rs)).
Proof.
  intros Hrs. revert g; induction Hrs as [|r rs Hr Hrs IH]; intros g Hg; simpl; [done|].
  pose proof (ingest_record_sound s conn now g r Hr Hg) as H1.
  destruct (Ingest.ingest_record s conn now g r) as [g1 [x|]]; [done|]. by apply IH.
Qed.

Lemma poll_files fs t rs t' : Ingest.poll fs t = (Ok rs, t') -> forall r, r ∈ rs -> Ingest.r_file r = Some (Ingest.t_path t).
Proof.
  unfold Ingest.poll. intros E r Hr. destruct (fs !! Ingest.t_path t) as [f|]; [|injection E as <- _; by apply elem_of_nil in Hr].
  destruct (negb (Ingest.f_readable f)); [done|]. destruct (_ =? _); [injection E as <- _; by apply elem_of_nil in Hr|].
  destruct (Ingest.complete _ _ _) as [ls c]. injection E as <- _. by apply list_elem_of_fmap in Hr as (l&->&_).
Qed.
Lemma poll_path fs t : Ingest.t_path (snd (Ingest.poll fs t)) = Ingest.t_path t.
Proof.
  unfold Ingest.poll. destruct (fs !! Ingest.t_path t) as [f|]; [|done]. destruct (negb (Ingest.f_readable f)); [done|].
  destruct (_ =? _); [done|]. by destruct (Ingest.complete _ _ _).
Qed.

Lemma ingest_sources_sound s fs now ts g :
  Forall (fun t => exists t', t' ∈ Ingest.tails s /\ Ingest.t_path t' = Ingest.t_path t) ts -> sound s g ->
  let '(g', x, ts') := Ingest.ingest_sources s fs now g ts in
  sound s g' /\ map Ingest.t_path ts' = map Ingest.t_path ts.
Proof.
  intros Hts. revert g; induction Hts as [|t ts (t'&Hin&E) Hts IH]; intros g Hg; simpl; [done|].
  pose proof (poll_files fs t) as Hp. pose proof (poll_path fs t) as Hq.
  destruct (Ingest.poll fs t) as [[rs|x] t1]; simpl in Hq; [|by simpl; rewrite Hq].
  assert (Forall (of_tail s) rs) as Hrs.
  { apply Forall_forall. intros r Hr. exists t'. split; [done|]. rewrite E. by apply (Hp rs t1 eq_refl). }
  pose proof (ingest_records_sound s (Ingest.t_id t1) now rs g Hrs Hg) as H1.
  destruct (Ingest.ingest_records s (Ingest.t_id t1) now g rs) as [g1 [x|]]; simpl in *; [by rewrite Hq|].
  specialize (IH g1 H1). destruct (Ingest.ingest_sources s fs now g1 ts) as [[g2 x] ts2]. destruct IH as [H2 H3].
  split; [done|]. simpl. by rewrite Hq, H3.
Qed.

Lemma insert_all_from es rows r : r ∈ fold_left Ingest.insert_one es rows -> r ∈ rows \/ r.2 ∈ es.
Proof.
  revert rows; induction es as [|e es IH]; intros rows; simpl; [by left|]. intros [H|H]%IH; [|right; by right].
  unfold Ingest.insert_one in H. destruct (existsb _ rows); [by left|].
  apply elem_of_app in H as [H| ->%list_elem_of_singleton]; [by left|right; by left].
Qed.
(** A poll adds only events of its tails that keep to their pins, to the rows
    and to what it sends. *)
Lemma apply_quarantine_events ws s :
  Forall (fun w => exists q, w = Ingest.WQuarantine q) ws -> Ingest.events (fold_left Ingest.apply_write ws s) = Ingest.events s.
Proof. intros H. revert s; induction H as [|w ws [q ->] _ IH]; intros s; simpl; [done|]. by rewrite IH. Qed.
Lemma apply_offset_events (f : str * Z -> Ingest.write) l s :
  (forall x, exists p st, f x = Ingest.WOffset p st) -> Ingest.events (fold_left Ingest.apply_write (map f l) s) = Ingest.events s.
Proof. intros H. revert s; induction l as [|x l IH]; intros s; simpl; [done|]. destruct (H x) as (p&st&->). by rewrite IH. Qed.

Lemma poll_once_sound s fs now :
  let '(stats, sent, s') := Ingest.poll_once map_order s fs now in
  (forall r, r ∈ Ingest.events (Ingest.store s') -> r ∈ Ingest.events (Ingest.store s) \/ gathered s r.2)
  /\ Forall (gathered s) sent /\ map Ingest.t_path (Ingest.tails s') = map Ingest.t_path (Ingest.tails s)
  /\ Ingest.pinned s' = Ingest.pinned s.
Proof.
  unfold Ingest.poll_once, Ingest.poll_writes.
  pose proof (ingest_sources_sound s fs now (Ingest.tails s) (Ingest.mkGathered [] [] ∅)) as H.
  destruct (Ingest.ingest_sources s fs now _ (Ingest.tails s)) as [[g x] ts].
  destruct H as [[Hw Hv] Hp]; [apply Forall_forall; eauto|by repeat constructor|].
  destruct x as [x|]; cbn [Ingest.store Ingest.tails Ingest.pinned].
  - rewrite apply_quarantine_events by done. split; [by left|done].
  - rewrite fold_left_app. cbn [fold_left]. rewrite apply_offset_events by (intros [f o]; by do 2 eexists). simpl.
    rewrite apply_quarantine_events by done. rewrite Forall_forall in Hv. split; [|split; [|done]].
    + intros r [Hr|Hr]%insert_all_from; [by left|right; by apply Hv].
    + rewrite Forall_forall. intros e (l&(w&<-&Hin)%in_map_iff&He)%list_elem_of_In%in_concat. apply Hv.
      apply in_app_iff in Hin as [Hin|[<-|Hin]]; [|by apply list_elem_of_In|].
      * rewrite Forall_forall in Hw. by destruct (Hw w) as [q ->]; [apply list_elem_of_In|].
      * by apply in_map_iff in Hin as (fo&<-&_).
Qed.

(** The pins are right: each pinned path is pinned to its own stem, and every
    extra stream that is tailed is pinned. *)
Definition pins_right (paths : BusPaths) (s : Ingest.IngestService) : Prop :=
  (forall p w, Ingest.pinned s !! p = Some w -> w = stem_or_unknown p)
  /\ forall p, p ∈ map Ingest.t_path (Ingest.tails s) -> is_extra paths p = true -> is_Some (Ingest.pinned s !! p).
Definition holds (paths : BusPaths) (s : Ingest.IngestService) : Prop :=
  pins_right paths s /\ store_keeps paths (Ingest.store s).

Lemma gathered_keeps paths s e : pins_right paths s -> gathered s e -> keeps_source paths e.
Proof.
  intros [H1 H2] (t&Ht&Hf&Hw) f Hf' Hx. assert (Ingest.t_path t = f) as <- by congruence.
  destruct (H2 (Ingest.t_path t)) as [w Ew]; [by apply list_elem_of_fmap_2|done|]. rewrite (Hw w Ew). by apply H1.
Qed.

Lemma add_holds paths d s path s' :
  holds paths s -> add_bus_source s d paths path = Ok s' -> holds paths s' /\ Ingest.store s' = Ingest.store s.
Proof.
  intros [[H1 H2] H3] Ha. unfold add_bus_source, add_source in Ha. destruct (is_extra paths path) eqn:Ex; cbn [negb] in Ha;
    destruct (registers d path); cbn [rbind] in Ha; [|done| |done]; injection Ha as <-; (split; [|done]);
    (split; [|done]); split; cbn [Ingest.add_pinned_file_source Ingest.add_file_source Ingest.pinned Ingest.tails].
  - intros p w [[<- <-]|[_ Hw]]%lookup_insert_Some; [done|by apply H1].
  - intros p Hp Hx. destruct (decide (p = path)) as [->|Hne]; [by rewrite lookup_insert_eq|]. rewrite lookup_insert_ne by done.
    rewrite map_app in Hp. apply elem_of_app in Hp as [Hp|Hp%list_elem_of_singleton]; [by apply H2|done].
  - done.
  - intros p Hp Hx. rewrite map_app in Hp. apply elem_of_app in Hp as [Hp| ->%list_elem_of_singleton]; [by apply H2|].
    cbn in Hx. congruence.
Qed.

Lemma pick_up_holds d paths b : holds paths (svc b) -> holds paths (svc (pick_up_new_sources d paths b)).
Proof.
  unfold pick_up_new_sources. generalize (collect_sources d paths) as ps. intros ps. revert b.
  induction ps as [|p ps IH]; intros b H; simpl; [done|]. apply IH. unfold pick_up.
  destruct (existsb _ _); [done|]. destruct (add_bus_source _ _ _ _) eqn:E; [|done]. by apply (add_holds _ _ _ _ _ H) in E as [? _].
Qed.

Lemma poll_holds paths s fs now :
  holds paths s ->
  let '(stats, sent, s') := Ingest.poll_once map_order s fs now in holds paths s' /\ Forall (keeps_source paths) sent.
Proof.
  intros [Hp Hs]. pose proof (poll_once_sound s fs now) as H.
  destruct (Ingest.poll_once map_order s fs now) as [[stats sent] s']. destruct H as (H1&H2&H3&H4).
  split; [split|].
  - destruct Hp as [P1 P2]. split; rewrite H4; [done|]. by rewrite H3.
  - unfold store_keeps in *. rewrite Forall_forall in *. intros r [Hr|Hr]%H1; [by apply Hs|by eapply gathered_keeps].
  - eapply Forall_impl; [exact H2|]. intros e. by apply gathered_keeps.
Qed.

Lemma received_keeps {P : Ingest.ConsoleEvent -> Prop} es : Forall P es -> Forall P (received es).
Proof. apply Forall_drop. Qed.

Lemma tick_holds paths w d b :
  holds paths (svc b) -> Forall (keeps_source paths) w ->
  let '(b', (w', out)) := tick map_order paths w d b in
  holds paths (svc b') /\ Forall (keeps_source paths) w' /\ Forall (keeps_source paths) out.
Proof.
  intros Hb Hw. unfold tick. pose proof (poll_holds paths _ (files d) (now d) (pick_up_holds d paths b Hb)) as H.
  destruct (Ingest.poll_once map_order _ _ _) as [[[stats|x] sent] s']; destruct H as [H1 H2]; (split; [done|]);
    (split; [|try apply received_keeps]); rewrite ?Forall_app; done.
Qed.

Lemma run_tailer_holds paths ds w b :
  holds paths (svc b) -> Forall (keeps_source paths) w ->
  let '(b', out) := run_tailer map_order paths w ds b in holds paths (svc b') /\ Forall (keeps_source paths) out.
Proof.
  revert w b; induction ds as [|d ds IH]; intros w b Hb Hw; simpl; [done|].
  pose proof (tick_holds paths w d b Hb Hw) as H. destruct (tick map_order paths w d b) as [b1 [w1 out]].
  destruct H as (H1&H2&H3). specialize (IH w1 b1 H1 H2). destruct (run_tailer map_order paths w1 ds b1) as [b2 outs].
  destruct IH as [H4 H5]. split; [done|]. by apply Forall_app.
Qed.

Lemma add_all_holds d paths ps b b' : holds paths (svc b) -> add_all d paths ps b = Ok b' -> holds paths (svc b').
Proof.
  revert b; induction ps as [|p ps IH]; intros b H; simpl; [by intros [= <-]|].
  destruct (add_bus_source _ _ _ _) as [s|] eqn:E; [|done]. cbn [rbind]. apply IH.
  by apply (add_holds _ _ _ _ _ H) in E as [? _].
Qed.

(** From a history in which it holds, whatever is written to the files, in
    whatever order files come and go, and whichever cannot be read, every row
    stored and every event shown of an extra stream claims the source its file
    is named for: who writes that file cannot speak for another plane. *)
Theorem extra_stream_speaks_for_its_file_only paths env st d ds b w :
  store_keeps paths st -> bootstrap_live map_order paths env st d = Ok (b, w) ->
  let '(b', shown) := run_tailer map_order paths w ds b in
  store_keeps paths (Ingest.store (svc b')) /\ Forall (keeps_source paths) shown.
Proof.
  intros Hst. unfold bootstrap_live. destruct (add_all _ _ _ _) as [b1|] eqn:Ea; [|done]. cbn [rbind].
  apply add_all_holds in Ea; [|by split; [split; [intros p x; simpl; by rewrite lookup_empty|intros p ?%elem_of_nil]|]].
  pose proof (poll_holds paths _ (files d) (now d) Ea) as H.
  destruct (Ingest.poll_once map_order _ _ _) as [[[stats|x] sent] s']; [|done]. cbn [rbind]. intros [= <- <-].
  destruct H as [H1 H2]. pose proof (run_tailer_holds paths ds sent (mkBus s' (tailed b1)) H1 H2) as H.
  destruct (run_tailer _ _ _ _ _) as [b' out]. destruct H as [[_ H3] H4]. done.
Qed.
End Pins.

(** ** What holds of the choices *)

Lemma newer_total a b : newer a b = true \/ newer b a = true.
Proof. unfold newer. destruct (modified a), (modified b); rewrite ?Z.leb_le; lia || auto. Qed.
Lemma newer_trans a b c : newer a b = true -> newer b c = true -> newer a c = true.
Proof. unfold newer. destruct (modified a), (modified b), (modified c); rewrite ?Z.leb_le; lia || done. Qed.

Lemma find_map_None {A B} (f : A -> option B) l : find_map f l = None <-> forall x, x ∈ l -> f x = None.
Proof.
  induction l as [|x l IH]; simpl; [by split; [intros _ y ?%elem_of_nil|]|]. destruct (f x) eqn:E.
  - split; [done|]. intros H. rewrite (H x) in E; [done|by left].
  - rewrite IH. split; [by intros H y [->|Hy]%elem_of_cons; [|apply H]|]. intros H y Hy. apply H. by right.
Qed.
Lemma find_map_sorted {A B} (R : A -> A -> Prop) (f : A -> option B) l y :
  (forall x, R x x) -> StronglySorted R l -> find_map f l = Some y ->
  exists x, x ∈ l /\ f x = Some y /\ forall x', x' ∈ l -> is_Some (f x') -> R x x'.
Proof.
  intros Hr. induction 1 as [|x l Hs IH Hx]; simpl; [done|]. destruct (f x) as [z|] eqn:E.
  - intros [= <-]. exists x. split; [by left|]. split; [done|]. intros x' [->|Hin]%elem_of_cons _; [apply Hr|].
    rewrite Forall_forall in Hx. by apply Hx.
  - intros (x0&Hin&Hf&Hb)%IH. exists x0. split; [by right|]. split; [done|]. intros x' [->|Hin']%elem_of_cons Hsome; [|by apply Hb].
    rewrite E in Hsome. by destruct Hsome.
Qed.

(** The environment is the newest descriptor that can be read, and there is none
    only when none can. *)
Theorem newest_readable_environment_is_taken {JT : JsonText} entries :
  match discover_in entries with
  | Some b => exists d, d ∈ entries /\ is_descriptor d = true /\ try_load d = Some b
                /\ forall d', d' ∈ entries -> is_descriptor d' = true -> is_Some (try_load d') -> newer d d' = true
  | None => forall d, d ∈ entries -> is_descriptor d = true -> try_load d = None
  end.
Proof.
  unfold discover_in. destruct (find_map _ _) as [b|] eqn:E.
  - apply (find_map_sorted (fun a b => newer a b = true)) in E as (d&Hd&Hl&Hb);
      [|intros x; unfold newer; destruct (modified x); [lia|done]|apply isort_sorted; [apply newer_total|apply newer_trans]].
    apply elem_of_isort, in_filter in Hd as [Hd Hk]. exists d. split_and!; [done..|].
    intros d' Hd' Hk'. apply Hb. apply elem_of_isort, in_filter. done.
  - rewrite find_map_None in E. intros d Hd Hk. apply E, elem_of_isort, in_filter. done.
Qed.

Lemma same_path_eq a b : same_path a b = true <-> components a = components b.
Proof. unfold same_path. apply bool_decide_eq_true. Qed.

Section Extras.
Context (debug_str : str -> str).
Lemma extra_stream_ok e p :
  extra_stream debug_str e = Ok p ->
  p = e /\ is_absolute e = true /\ climbs e = false /\ extension_of e = Some #"ndjson" /\ default [] (file_stem e) <> [].
Proof.
  unfold extra_stream, is_ndjson. destruct (is_absolute e); [|done]. destruct (climbs e); [done|].
  destruct (bool_decide_reflect (extension_of e = Some #"ndjson")) as [Hx|]; [|done]. cbn [negb orb].
  destruct (bool_decide_reflect (default [] (file_stem e) = [])); [done|]. by intros [= <-].
Qed.

(** What has been taken of the entries so far. *)
Definition taken (st : list str * list str) (es : list str) : Prop :=
  NoDup (map components st.1)
  /\ (forall p, p ∈ st.1 -> p ∈ es /\ is_ok (extra_stream debug_str p) = true)
  /\ (forall e, e ∈ es -> is_ok (extra_stream debug_str e) = true -> exists p, p ∈ st.1 /\ components p = components e)
  /\ length st.2 = length (List.filter (fun e => negb (is_ok (extra_stream debug_str e))) es).

Lemma take_entry_taken st es e : taken st es -> taken (take_entry debug_str st e) (es ++ [e]).
Proof.
  intros (H1&H2&H3&H4). unfold taken, take_entry. rewrite List.filter_app, length_app.
  destruct (extra_stream debug_str e) as [p|x] eqn:E.
  - pose proof E as (->&_)%extra_stream_ok. cbn [List.filter is_ok negb length]. rewrite E. cbn [is_ok negb length].
    destruct (existsb (same_path e) st.1) eqn:Ex.
    + apply existsb_exists in Ex as (p&Hp%list_elem_of_In&Hs%same_path_eq). split_and!; [done| | |lia].
      * intros q Hq. destruct (H2 q Hq). split; [|done]. apply elem_of_app. by left.
      * intros q [Hq| ->%list_elem_of_singleton]%elem_of_app Hok; [by apply H3|by exists p].
    + cbn [fst snd]. split_and!; [| | |lia].
      * rewrite map_app. apply NoDup_app. split; [done|]. split; [|apply NoDup_singleton].
        intros c Hc ->%list_elem_of_singleton. apply list_elem_of_fmap in Hc as (q&Eq&Hq).
        apply not_true_iff_false in Ex. apply Ex, existsb_exists. exists q. split; [by apply list_elem_of_In|by apply same_path_eq].
      * intros q [Hq| ->%list_elem_of_singleton]%elem_of_app.
        -- destruct (H2 q Hq). split; [|done]. apply elem_of_app. by left.
        -- split; [apply elem_of_app; right; by left|by rewrite E].
      * intros q [Hq| ->%list_elem_of_singleton]%elem_of_app Hok.
        -- destruct (H3 q Hq Hok) as (p&Hp&Hc). exists p. split; [|done]. apply elem_of_app. by left.
        -- exists e. split; [|done]. apply elem_of_app. right. by left.
  - cbn [fst snd List.filter]. rewrite E. cbn [is_ok negb length]. rewrite length_app. cbn [length]. split_and!; [done| | |lia].
    + intros q Hq. destruct (H2 q Hq). split; [|done]. apply elem_of_app. by left.
    + intros q [Hq| ->%list_elem_of_singleton]%elem_of_app Hok; [by apply H3|by rewrite E in Hok].
Qed.
Lemma take_entries_taken es st done_ : taken st done_ -> taken (fold_left (take_entry debug_str) es st) (done_ ++ es).
Proof.
  revert st done_; induction es as [|e es IH]; intros st done_ H; simpl; [by rewrite app_nil_r|].
  specialize (IH _ _ (take_entry_taken _ _ e H)). by rewrite <- app_assoc in IH.
Qed.

(** The streams named: each is an absolute path to one [*.ndjson] file that
    climbs nowhere, each path once; and every entry is taken or refused with a
    reason. *)
Theorem extra_streams_are_taken_or_refused raw :
  let '(kept, refused) := parse_extra_streams debug_str raw in
  (forall p, p ∈ kept -> p ∈ entries_of raw /\ is_absolute p = true /\ climbs p = false /\ extension_of p = Some #"ndjson")
  /\ NoDup (map components kept)
  /\ (forall e, e ∈ entries_of raw -> is_ok (extra_stream debug_str e) = true -> exists p, p ∈ kept /\ components p = components e)
  /\ length refused = length (List.filter (fun e => negb (is_ok (extra_stream debug_str e))) (entries_of raw)).
Proof.
  unfold parse_extra_streams. pose proof (take_entries_taken (entries_of raw) ([], []) []) as H.
  destruct (fold_left _ _ _) as [kept refused]. destruct H as (H1&H2&H3&H4).
  { split_and!; [constructor|intros p ?%elem_of_nil; done|intros p ?%elem_of_nil; done|done]. }
  cbn [fst snd app] in *. split_and!; [|done..]. intros p Hp. destruct (H2 p Hp) as [Hin Hok].
  destruct (extra_stream debug_str p) as [q|] eqn:E; [|done]. apply extra_stream_ok in E as (_&?&?&?&_). done.
Qed.
End Extras.

(** *** The directory of a history *)

Lemma split_char_nonempty d s : split_char d s <> [].
Proof. destruct s as [|c s]; simpl; [done|]. destruct (c =? d); [done|]. by destruct (split_char d s). Qed.
Lemma split_char_cut d a t : split_char d (a ++ d :: t) = split_char d a ++ split_char d t.
Proof.
  induction a as [|c a IH]; simpl; [by rewrite Z.eqb_refl|]. destruct (c =? d); [by rewrite IH|]. rewrite IH.
  pose proof (split_char_nonempty d a). by destruct (split_char d a).
Qed.

(** A name that is one component: not empty, no slash, no dots alone. *)
Definition one_component (s : str) : Prop := s <> [] /\ 47 ∉ s /\ s <> #"." /\ s <> #"..".
Lemma one_component_of s : one_component s -> component_of s = Some (Named s).
Proof.
  intros (H1&_&H2&H3). unfold component_of. rewrite bool_decide_eq_false_2 by done.
  by rewrite (proj2 (str_eqb_neq _ _) H2), (proj2 (str_eqb_neq _ _) H3).
Qed.
Lemma starts_with_slash c t : starts_with #"/" (c :: t) = (47 =? c).
Proof. unfold starts_with. change #"/" with [47]. cbn [strip_prefix]. by destruct (47 =? c). Qed.
Lemma components_below r s : one_component s -> components (r ++ 47 :: s) = components (r ++ [47]) ++ [Named s].
Proof.
  intros H. unfold components. rewrite !split_char_cut. cbn [split_char].
  rewrite (split_char_none 47 s) by apply H. pose proof (split_char_nonempty 47 r) as Hne.
  destruct (split_char 47 r) as [|f rest]; [done|]. cbn [app].
  replace (starts_with #"/" (r ++ 47 :: s)) with (starts_with #"/" (r ++ [47]))
    by (destruct r as [|d r]; [done|]; cbn [app]; by rewrite !starts_with_slash).
  rewrite <- app_assoc. f_equal. rewrite !app_comm_cons, !omap_app. cbn [omap list_omap].
  rewrite (one_component_of s) by done. change (component_of []) with (@None component). by rewrite app_nil_r.
Qed.
Lemma components_trailing r : r <> [] -> components (r ++ [47]) = components r.
Proof.
  intros Hr. unfold components. rewrite split_char_cut. cbn [split_char]. pose proof (split_char_nonempty 47 r) as Hne.
  destruct (split_char 47 r) as [|f rest]; [done|]. cbn [app].
  replace (starts_with #"/" (r ++ [47])) with (starts_with #"/" r)
    by (destruct r as [|d r]; [done|]; cbn [app]; by rewrite !starts_with_slash).
  f_equal. rewrite app_comm_cons, omap_app. cbn [omap list_omap]. change (component_of []) with (@None component).
  by rewrite app_nil_r.
Qed.
Lemma components_join r s : one_component s -> components (ProofRun.join_path r s) = components r ++ [Named s].
Proof.
  intros H. unfold ProofRun.join_path. destruct (bool_decide_reflect (r = [])) as [->|Hr].
  - unfold components. rewrite (split_char_none 47 s) by apply H. cbn [omap list_omap].
    rewrite (one_component_of s) by done. assert (starts_with #"/" s = false) as ->.
    { destruct s as [|c s]; [done|]. rewrite starts_with_slash. apply Z.eqb_neq. intros <-.
      destruct H as (_&Hn&_). destruct Hn. by left. }
    by rewrite (proj2 (str_eqb_neq _ _)) by apply H.
  - destruct (ends_with #"/" r) eqn:E.
    + assert (exists r', r = r' ++ [47]) as [r' ->].
      { unfold ends_with, strip_suffix in E. destruct (rev r) as [|c t] eqn:Er; [done|].
        change (rev #"/") with [47] in E. cbn [strip_prefix] in E. destruct (47 =? c) eqn:Ec; [|done]. apply Z.eqb_eq in Ec as <-.
        exists (rev t). by rewrite <- (rev_involutive r), Er. }
      rewrite <- app_assoc. by apply components_below.
    + change (#"/" ++ s) with (47 :: s). rewrite components_below by done. by rewrite components_trailing.
Qed.

Lemma safe_char_ok c : safe_char c <> 47 /\ safe_char c <> 46.
Proof.
  unfold safe_char, ascii_alnum, ascii_digit, ascii_lower, ascii_upper.
  destruct (_ || _) eqn:E; [|lia]. split; intros ->; cbn in E; done.
Qed.
Lemma safe_segment_one env : one_component (safe_segment env).
Proof.
  unfold safe_segment, one_component. destruct (bool_decide_reflect (map safe_char env = [])) as [|Hne]; [split_and!; [done| |done|done]|].
  - intros H. cbn in H. rewrite !elem_of_cons, elem_of_nil in H. lia.
  - split_and!; [done| | |].
    + intros (c&E&_)%list_elem_of_fmap. by apply (proj1 (safe_char_ok c)).
    + intros E. destruct env as [|c [|? ?]]; try done. cbn in E. injection E as E. by apply (proj2 (safe_char_ok c)).
    + intros E. destruct env as [|c ?]; [done|]. cbn in E. injection E as E _. by apply (proj2 (safe_char_ok c)).
Qed.

(** Whatever an environment calls itself, each directory its history may be
    kept in is one directory, directly below one of the three roots: the name
    can climb nowhere and cannot go deeper. *)
Theorem history_is_one_directory_below_its_root env state_dir taipan_home home c :
  c ∈ store_dir_candidates env state_dir taipan_home home ->
  exists root,
    (Some root = state_dir \/ Some root = (fun t => ProofRun.join_path t #"genaryx") <$> taipan_home
     \/ Some root = (fun h => ProofRun.join_path (ProofRun.join_path h #".taipan") #"genaryx") <$> home)
    /\ components c = components root ++ [Named (safe_segment env)].
Proof.
  intros H. assert (exists root,
    (Some root = state_dir \/ Some root = (fun t => ProofRun.join_path t #"genaryx") <$> taipan_home
     \/ Some root = (fun h => ProofRun.join_path (ProofRun.join_path h #".taipan") #"genaryx") <$> home)
    /\ c = ProofRun.join_path root (safe_segment env)) as (root&Hr&->); [|exists root; split; [done|apply components_join, safe_segment_one]].
  unfold store_dir_candidates in H.
  assert (forall c', c' ∈ (match state_dir with Some d => [ProofRun.join_path d (safe_segment env)] | None => [] end
             ++ match taipan_home with Some t => [ProofRun.join_path (ProofRun.join_path t #"genaryx") (safe_segment env)] | None => [] end) ->
    exists root, (Some root = state_dir \/ Some root = (fun t => ProofRun.join_path t #"genaryx") <$> taipan_home)
      /\ c' = ProofRun.join_path root (safe_segment env)) as Hout.
  { intros c' [Hc|Hc]%elem_of_app.
    - destruct state_dir as [d|]; [|by apply elem_of_nil in Hc]. apply list_elem_of_singleton in Hc as ->. exists d. auto.
    - destruct taipan_home as [t|]; [|by apply elem_of_nil in Hc]. apply list_elem_of_singleton in Hc as ->. eexists. split; [by right|done]. }
  destruct home as [h|]; [|apply Hout in H as (root&[?|?]&?); exists root; auto].
  destruct (existsb _ _); [apply Hout in H as (root&[?|?]&?); exists root; auto|].
  apply elem_of_app in H as [H|H%list_elem_of_singleton]; [apply Hout in H as (root&[?|?]&?); exists root; auto|].
  subst c. eexists. split; [right; by right|done].
Qed.

Lemma first_creatable_creates create cs refused d :
  first_creatable_from create refused cs = Ok d ->
  exists before after, cs = before ++ d :: after /\ create d = Ok tt /\ Forall (fun c => is_ok (create c) = false) before.
Proof.
  revert refused; induction cs as [|c cs IH]; intros refused; simpl; [done|]. destruct (create c) as [[]|e] eqn:E.
  - intros [= <-]. by exists [], cs.
  - intros (b&a&->&Hd&Hb)%IH. exists (c :: b), a. split_and!; [done|done|]. constructor; [by rewrite E|done].
Qed.

(** *** Retention *)

(** With a horizon that fits, an event goes only when it is dated and older
    than the days asked for, and every such event goes; with none, nothing
    goes. *)
Theorem retention_keeps_the_days_asked_for {CA : Store.Calendar} var now_ms rows refused r :
  0 <= now_ms -> history_days var * Store.DAY_MS <= i64_max -> now_ms <= i64_max ->
  r ∈ (prune_history var now_ms rows refused).1
  <-> r ∈ rows /\ (0 < history_days var -> forall t, Store.ts_ms r = Some t -> now_ms - t <= history_days var * Store.DAY_MS).
Proof.
  intros Hn Hd Hm. unfold prune_history, horizon. set (k := history_days var) in *. destruct (Z.leb_spec k 0) as [Hk|Hk].
  - cbn. split; [|by intros [? _]]. intros H. split; [done|lia].
  - assert (0 <= k * Store.DAY_MS) by (unfold Store.DAY_MS; lia).
    rewrite (Approver.i64_wrap_id (k * _)) by (unfold i64_min in *; lia).
    rewrite Approver.i64_wrap_id by (unfold i64_min, i64_max in *; lia).
    cbn [Store.prune_before fst snd]. rewrite in_filter, negb_true_iff. unfold Store.before.
    destruct (Store.ts_ms r) as [t|].
    + rewrite Z.ltb_ge. split; intros [H1 H2]; (split; [done|]); [intros _ t' [= <-]; lia|]. specialize (H2 Hk t eq_refl). lia.
    + by split; intros [H1 H2].
Qed.

(** ** What the console shows of it ([events.rs], [bus/mod.rs], [replay.rs]) *)

Record UiEvent : Type := mkUi
  { u_id : Z; u_env : str; u_ts : str; u_source : str; u_type : str; u_agent_id : str; u_run_id : option str;
    u_severity : option str; u_schema : str; u_on_behalf_of : list str; u_data : option value; u_prev_hash : option str;
    u_raw : str; u_file : option str; u_off : option Z }.
Definition ui_of_stored (r : Store.Row) : UiEvent :=
  mkUi (Store.id r) (Store.env r) (Store.ts r) (Store.source r) (Store.type_ r) (Store.agent_id r) (Store.run_id r)
    (Store.severity r) (Store.schema r) (Store.on_behalf_of r) (Store.data r) (Store.prev_hash r) (Store.raw r)
    (Store.file r) (Store.off r).
(** A live event takes the next number below zero. *)
Definition ui_of_live (next_live_id : Z) (e : Ingest.ConsoleEvent) : UiEvent * Z :=
  let v := Ingest.event e in
  let p := Ingest.provenance e in
  (mkUi next_live_id (Ingest.env p) (Ingest.ts v) (Ingest.source v) (Ingest.event_type v) (Ingest.agent_id v)
     (Ingest.run_id v) (Ingest.severity v) (Ingest.schema v) (Ingest.on_behalf_of v) (Ingest.data v) (Ingest.prev_hash v)
     (Ingest.raw e) (Ingest.p_file p) (Ingest.p_offset p), next_live_id - 1).
Fixpoint drain_and_emit (next_live_id : Z) (es : list Ingest.ConsoleEvent) : list UiEvent * Z :=
  match es with
  | [] => ([], next_live_id)
  | e :: es =>
      let '(u, n) := ui_of_live next_live_id e in let '(us, n) := drain_and_emit n es in (u :: us, n)
  end.

(** *** The mock timeline *)
Definition TOPICS : list str := [ #"customer_refund_policy"; #"kyc_verification_steps"; #"fraud_hold_criteria"; #"sla_response_times"; #"chargeback_procedure"; #"aml_screening_rules"].
Definition EVAL_SUITES : list str := [ #"refund-policy-qa"; #"kyc-accuracy-qa"; #"fraud-triage-qa"; #"sla-compliance-qa"; #"aml-screening-qa"].
Definition SCENARIOS : list str := [ #"prod-deploy-rehearsal"; #"budget-exhaustion-drill"; #"policy-bypass-drill"; #"credential-leak-drill"; #"runaway-agent-drill"].
Record Seed : Type := mkSeed { s_source : str; s_v2 : bool; s_event_type : str; s_severity : str; s_agent : str; s_run : Z; s_delegated : bool }.
Definition seeds : list Seed :=
  [mkSeed #"wardryx" true #"policy_allow" #"info" #"tier1-bot" 1 false;
   mkSeed #"tokenfuse" false #"budget_exhausted" #"critical" #"tier1-bot" 1 false;
   mkSeed #"engram" false #"memory_written" #"info" #"tier1-bot" 1 false;
   mkSeed #"wardryx" true #"policy_allow" #"info" #"tier2-bot" 2 false;
   mkSeed #"tokenfuse" false #"breaker_tripped" #"critical" #"tier2-bot" 2 false;
   mkSeed #"engram" false #"memory_written" #"info" #"tier2-bot" 2 false;
   mkSeed #"wardryx" true #"policy_deny" #"high" #"ci-fixer" 3 true;
   mkSeed #"wardryx" true #"approval_requested" #"medium" #"ci-fixer" 3 true;
   mkSeed #"wardryx" true #"approval_granted" #"info" #"ci-fixer" 3 true;
   mkSeed #"tokenfuse" false #"spend_spike" #"high" #"fraud-bot" 4 false;
   mkSeed #"verdryx" true #"quality_score" #"info" #"fraud-bot" 4 false;
   mkSeed #"engram" false #"memory_written" #"info" #"kyc-bot" 5 false;
   mkSeed #"engram" false #"contradiction_found" #"medium" #"kyc-bot" 5 false;
   mkSeed #"verdryx" true #"quality_score" #"info" #"refund-bot" 6 false;
   mkSeed #"verdryx" true #"quality_drift" #"high" #"refund-bot" 6 false;
   mkSeed #"mockryx" true #"sim_run" #"info" #"audit-bot" 7 false;
   mkSeed #"mockryx" true #"sim_finding" #"medium" #"audit-bot" 7 false;
   mkSeed #"mockryx" true #"blast_radius_measured" #"medium" #"audit-bot" 7 false;
   mkSeed #"qryx" false #"crypto_finding" #"medium" #"verifier" 8 false;
   mkSeed #"qryx" false #"evidence_signed" #"info" #"verifier" 8 false;
   mkSeed #"tokenfuse" false #"sustained_loop" #"high" #"router" 9 false;
   mkSeed #"wardryx" true #"policy_allow" #"info" #"router" 9 false;
   mkSeed #"tokenfuse" false #"fanout_explosion" #"high" #"orchestrator" 10 false;
   mkSeed #"engram" false #"memory_written" #"info" #"orchestrator" 10 false;
   mkSeed #"wardryx" true #"policy_deny" #"high" #"deploy-bot" 11 true;
   mkSeed #"wardryx" true #"approval_requested" #"medium" #"deploy-bot" 11 true;
   mkSeed #"wardryx" true #"approval_granted" #"info" #"deploy-bot" 11 true;
   mkSeed #"verdryx" true #"quality_score" #"info" #"collections-bot" 12 false;
   mkSeed #"mockryx" true #"sim_run" #"info" #"sentinel" 13 false;
   mkSeed #"mockryx" true #"sim_finding" #"medium" #"sentinel" 13 false;
   mkSeed #"qryx" false #"crypto_finding" #"medium" #"auditor" 14 false;
   mkSeed #"qryx" false #"evidence_signed" #"info" #"auditor" 14 false;
   mkSeed #"tokenfuse" false #"budget_exhausted" #"critical" #"billing-bot" 15 false;
   mkSeed #"engram" false #"memory_written" #"info" #"billing-bot" 15 false;
   mkSeed #"wardryx" true #"policy_allow" #"info" #"scheduler" 16 false;
   mkSeed #"verdryx" true #"quality_drift" #"high" #"onboarding-bot" 17 false;
   mkSeed #"mockryx" true #"blast_radius_measured" #"medium" #"reconciler" 18 false;
   mkSeed #"qryx" false #"crypto_finding" #"medium" #"translator" 19 false;
   mkSeed #"wardryx" true #"policy_deny" #"high" #"support-bot" 20 true;
   mkSeed #"tokenfuse" false #"breaker_tripped" #"critical" #"support-bot" 20 true;
   mkSeed #"tokenfuse" true #"identity_mismatch" #"high" #"billing-bot" 21 false].
Definition cycled (l : list str) (run : Z) : str := nth (Z.to_nat run mod length l) l [].
Definition padded (width : nat) (n : Z) : str := let d := dec n in repeat 48 (width - length d) ++ d.
Definition seed_data (event_type : str) (run : Z) (agent_id : str) : value :=
  let named t := str_eqb event_type t in
  if named #"identity_mismatch" then obj [ (#"key_id", VStr #"forge-imposter"); (#"agent_id", VStr agent_id); (#"reason", VStr #"agent_id_not_allowed")]
  else if named #"budget_exhausted" then obj [ (#"budget_usd", VNum (NFloat (F64 false #"12" (-3)))); (#"spent_usd", VNum (NFloat (F64 false #"28" (-3)))); (#"reason", VStr #"budget_exceeded"); (#"policy_id", VStr #"default")]
  else if named #"breaker_tripped" then obj [ (#"budget_usd", VNum (NFloat (F64 false #"9" (-4)))); (#"spent_usd", VNum (NFloat (F64 false #"21" (-3)))); (#"reason", VStr #"budget_exceeded"); (#"policy_id", VStr #"default")]
  else if named #"spend_spike" then obj [ (#"window_s", VNum (NInt 60)); (#"spend_usd", VNum (NFloat (F64 false #"742" 0))); (#"baseline_usd", VNum (NFloat (F64 false #"115" 0))); (#"multiplier", VNum (NFloat (F64 false #"64" 0)))]
  else if named #"sustained_loop" then obj [ (#"calls", VNum (NInt 88)); (#"window_s", VNum (NInt 120)); (#"pattern", VStr #"repeated_tool_call")]
  else if named #"fanout_explosion" then obj [ (#"child_agents", VNum (NInt 7)); (#"depth", VNum (NInt 3)); (#"budget_usd", VNum (NFloat (F64 false #"285" 0)))]
  else if named #"policy_allow" then obj [ (#"policy", VStr #"default-allow"); (#"reason", VStr #"within policy")]
  else if named #"policy_deny" then obj [ (#"policy", VStr #"prod-deploy-requires-approval"); (#"reason", VStr #"no approval on file for deploy:prod scope")]
  else if named #"approval_requested" then obj [ (#"policy", VStr #"prod-deploy-requires-approval"); (#"reason", VStr #"awaiting operator approval")]
  else if named #"approval_granted" then obj [ (#"policy", VStr #"prod-deploy-requires-approval"); (#"granted_by", VStr #"user://taipanbox.dev/j.doe")]
  else if named #"memory_written" then obj [ (#"memory_id", VStr (#"mem-" ++ padded 4 (3000 + run))); (#"topic", VStr (cycled TOPICS run))]
  else if named #"contradiction_found" then obj [ (#"memory_id", VStr (#"mem-" ++ padded 4 (3000 + run))); (#"conflicting_memory_id", VStr (#"mem-" ++ padded 4 (2000 + run))); (#"topic", VStr (cycled TOPICS run))]
  else if named #"quality_score" then obj [ (#"eval_suite", VStr (cycled EVAL_SUITES run)); (#"current_score", VNum (NFloat (F64 false #"93" (-1))))]
  else if named #"quality_drift" then obj [ (#"eval_suite", VStr (cycled EVAL_SUITES run)); (#"baseline_score", VNum (NFloat (F64 false #"97" (-1)))); (#"current_score", VNum (NFloat (F64 false #"89" (-1)))); (#"delta", VNum (NFloat (F64 true #"8" (-2))))]
  else if named #"sim_run" then obj [ (#"scenario", VStr (cycled SCENARIOS run)); (#"status", VStr #"completed")]
  else if named #"sim_finding" then obj [ (#"scenario", VStr (cycled SCENARIOS run)); (#"finding", VStr #"gap_found")]
  else if named #"blast_radius_measured" then obj [ (#"scenario", VStr (cycled SCENARIOS run)); (#"blast_radius_score", VNum (NFloat (F64 false #"52" (-1)))); (#"affected_resources", VNum (NInt 14))]
  else if named #"crypto_finding" then obj [ (#"algorithm", VStr #"rsa-2048"); (#"risk", VStr #"quantum-vulnerable"); (#"recommended", VStr #"ml-dsa-65")]
  else if named #"evidence_signed" then obj [ (#"evidence_id", VStr (#"ev-" ++ padded 5 (55000 + run))); (#"algorithm", VStr #"ml-dsa-65"); (#"subject", VStr agent_id)]
  else obj [].

Section Shown.
Context {JT : JsonText}.
(** [to_rfc3339_opts] with milliseconds. *)
Context (rfc3339_millis : Z -> str).

Definition raw_line (schema ts source event_type agent_id severity run_id : str) (on_behalf_of : list str) (data : value) : str :=
  json_text (obj ([ (#"schema", VStr schema); (#"ts", VStr ts); (#"source", VStr source); (#"type", VStr event_type);
                    (#"agent_id", VStr agent_id); (#"severity", VStr severity); (#"run_id", VStr run_id)]
                  ++ (if bool_decide (on_behalf_of = []) then [] else [ (#"on_behalf_of", VArr (map VStr on_behalf_of))])
                  ++ [ (#"data", data)])).
(** The [i]th of [n] seeds. *)
Definition mock_event (now_ms : Z) (n i : nat) (s : Seed) : UiEvent :=
  let ts := rfc3339_millis (now_ms - (Z.of_nat n - Z.of_nat i) * 45 * 1000) in
  let schema := Ingest.schema_as_str (if s_v2 s then Ingest.V0_2 else Ingest.V0_1) in
  let agent_id := #"agent://taipanbox.dev/demo/" ++ s_agent s in
  let run_id := #"demo-run-" ++ padded 3 (s_run s) in
  let data := seed_data (s_event_type s) (s_run s) agent_id in
  let on_behalf_of := if s_delegated s then [ #"user://taipanbox.dev/j.doe"; #"agent://taipanbox.dev/demo/orchestrator"] else [] in
  mkUi (Z.of_nat i + 1) #"local" ts (s_source s) (s_event_type s) agent_id (Some run_id) (Some (s_severity s)) schema
    on_behalf_of (Some data) None
    (raw_line schema ts (s_source s) (s_event_type s) agent_id (s_severity s) run_id on_behalf_of data)
    (Some (#"~/.taipan/events/" ++ s_source s ++ #".ndjson")) (Some (Z.of_nat i * 128)).
Definition mock_events (now_ms : Z) (limit : nat) : list UiEvent :=
  firstn limit (rev (imap (mock_event now_ms (length seeds)) seeds)).

Inductive BusMode : Type := Live (env dir : str) | Demo (dir : str) | Unavailable (reason : str).
Record AppState : Type := mkApp { store_dir : option str; source_dir : option str; mode : BusMode }.
Definition bus_status (state : AppState) : BusMode := mode state.

(** What a reader finds in the store: opening it, and the rows, may fail. *)
Abbreviation reading := (result (result (list Store.Row) str) str).
(** [recent_events]. *)
Definition recent_events (read : reading) (now_ms : Z) (limit : nat) (state : AppState) : list UiEvent :=
  match store_dir state, read with
  | Some _, Ok (Ok rows) => map ui_of_stored (Store.recent_events limit rows)
  | _, _ => mock_events now_ms limit
  end.
(** [build_run_events] and [run_events] of [replay.rs]. *)
Definition run_events (read : reading) (run_id : str) (limit : nat) (state : AppState) : list UiEvent :=
  match store_dir state, read with
  | Some _, Ok (Ok rows) => map ui_of_stored (Store.events_for_run run_id limit rows)
  | _, _ => []
  end.

Definition QUARANTINE_REASONS : nat := 12.
Record QuarantinePanel : Type := mkPanel
  { measured : bool; note : option str; total : Z; reasons : list Store.QuarantineReason }.
Definition unmeasured (note : str) : QuarantinePanel := mkPanel false (Some note) 0 [].
Definition nothing_checked : str :=
  #" so nothing could be checked. This is not a report that every line your producers sent was accepted.".
(** [quarantine]: opening the store, and each of its two queries, may fail. *)
Definition quarantine (opened : result (list Ingest.Quarantined) str) (count reasons : result unit str) (state : AppState)
  : QuarantinePanel :=
  match store_dir state with
  | None => unmeasured (#"The console has no event store on this box," ++ nothing_checked)
  | Some _ =>
      match opened with
      | Err e => unmeasured (#"The event store could not be opened (" ++ e ++ #")," ++ nothing_checked)
      | Ok refused =>
          match count with
          | Err e => unmeasured (#"The event store could not be queried (" ++ e ++ #")," ++ nothing_checked)
          | Ok _ =>
              let total := Store.quarantine_count refused in
              let rs := match reasons with Ok _ => Store.quarantine_by_reason QUARANTINE_REASONS refused | Err _ => [] end in
              let shown := fold_right (fun r n => Store.qr_count r + n) 0 rs in
              let note :=
                if total =? 0 then
                  #"Every line this bus has read conformed to the envelope. A producer that starts emitting a broken one will appear here, and its agents would otherwise just look quiet."
                else
                  #"The agents these lines were about will look quieter than they were. Fix the producer at the file and offset below; nothing here rewrites a line to make it fit."
                  ++ (if shown <? total then
                        #" Showing the " ++ dec (Z.of_nat QUARANTINE_REASONS) ++ #" most common reasons, covering " ++ dec shown ++ #" of them."
                      else []) in
              mkPanel true (Some note) total rs
          end
      end
  end.

(** A live row is the row stored of the same event, but for its number. *)
Lemma live_row_is_the_stored_row {PR : Primitives} {CA : Store.Calendar} n id e :
  let u := (ui_of_live n e).1 in
  let r := ui_of_stored (Store.row_of id (Ingest.p_offset (Ingest.provenance e)) e) in
  r = mkUi id (u_env u) (u_ts u) (u_source u) (u_type u) (u_agent_id u) (u_run_id u) (u_severity u) (u_schema u)
        (u_on_behalf_of u) (u_data u) (u_prev_hash u) (u_raw u) (u_file u) (u_off u).
Proof. done. Qed.

(** Live numbers are below zero and no two are the same. *)
Lemma live_numbers n es : n < 0 ->
  let '(us, m) := drain_and_emit n es in
  m = n - Z.of_nat (length es) /\ Forall (fun u => m < u_id u <= n) us /\ NoDup (map u_id us).
Proof.
  revert n; induction es as [|e es IH]; intros n Hn; cbn [drain_and_emit ui_of_live]; [split; [simpl; lia|by split; constructor]|].
  specialize (IH (n - 1) ltac:(lia)). destruct (drain_and_emit (n - 1) es) as [us m]. destruct IH as (->&H1&H2).
  cbn [length]. split; [lia|]. split.
  - constructor; [cbn [u_id]; lia|]. eapply Forall_impl; [exact H1|]. cbn. intros u Hu. lia.
  - cbn [map u_id]. constructor; [|done]. intros (u&E&Hin)%list_elem_of_fmap. rewrite Forall_forall in H1. specialize (H1 u Hin). lia.
Qed.
End Shown.

(** ** Runs *)

Module Example.
#[local] Existing Instance demo_primitives.
#[local] Existing Instance Ingest.demo_schemas.

Definition paths : BusPaths := mkPaths #"/bus" [ #"/w/keyryx.ndjson"].
Definition no_rows : Ingest.Store := Ingest.mkStore [] [] ∅.
Definition line : list Z := Ingest.demo_line ++ [10].
Definition disk (names : list str) (fs : Ingest.Fs) : Disk := mkDisk (Some names) (fun p => bool_decide (is_Some (fs !! p))) fs (fun _ => Ok tt) #"t".
Definition held (bytes : list Z) : Ingest.File := Ingest.mkFile None bytes true.
Definition unreadable : Ingest.File := Ingest.mkFile None [] false.
Definition starting (d : Disk) (ds : list Disk) : option (Bus * list Ingest.ConsoleEvent) :=
  match bootstrap_live map_to_list paths #"box" no_rows d with
  | Ok (b, w) => Some (run_tailer map_to_list paths w ds b)
  | Err _ => None
  end.
Definition stored (o : option (Bus * list Ingest.ConsoleEvent)) : option (nat * nat * nat) :=
  (fun r => (length (Ingest.events (Ingest.store (svc r.1))), length (Ingest.quarantine_rows (Ingest.store (svc r.1))), length r.2)) <$> o.

(** An event of wardryx is stored from its own file and refused from the extra
    stream of keyryx. *)
Definition both : Disk := disk [ #"wardryx.ndjson"; #"notes.txt"] {[ #"/bus/wardryx.ndjson" := held line; #"/w/keyryx.ndjson" := held line ]}.
Example pinned_stream_is_refused : stored (starting (disk [] ∅) [both]) = Some (1%nat, 1%nat, 1%nat).
Proof. vm_compute. reflexivity. Qed.

(** One file that cannot be read ends every poll, and the lines read before it
    are passed over: when it is gone they are not stored. *)
Definition broken : Disk := disk [ #"a.ndjson"; #"z.ndjson"] {[ #"/bus/a.ndjson" := held line; #"/bus/z.ndjson" := unreadable ]}.
Definition mended : Disk := disk [ #"a.ndjson"] {[ #"/bus/a.ndjson" := held line ]}.
Example unreadable_file_loses_anothers_lines :
  (stored (starting (disk [] ∅) [broken; mended]), stored (starting (disk [] ∅) [mended; mended]))
  = (Some (0%nat, 0%nat, 0%nat), Some (1%nat, 0%nat, 1%nat)).
Proof. vm_compute. reflexivity. Qed.

(** The events found at the start are given to the sink at the first tick. *)
Example first_batch_is_shown_live : stored (starting mended [mended]) = Some (1%nat, 0%nat, 1%nat).
Proof. vm_compute. reflexivity. Qed.

Definition begun : Bus := {| svc := Ingest.mkService no_rows #"box" [] ∅; tailed := [] |}.
Lemma extra_stream_speaks_for_its_file_only_witness :
  bootstrap_live map_to_list paths #"box" no_rows (disk [] ∅) = Ok (begun, []) /\
  let '(b', shown) := run_tailer map_to_list paths [] [both] begun in
  store_keeps paths (Ingest.store (svc b')) /\ Forall (keeps_source paths) shown.
Proof.
  assert (bootstrap_live map_to_list paths #"box" no_rows (disk [] ∅) = Ok (begun, [])) as H by (vm_compute; reflexivity).
  split; [exact H|].
  exact (extra_stream_speaks_for_its_file_only map_to_list paths #"box" no_rows (disk [] ∅) [both] begun [] (Forall_nil_2 _) H).
Defined.

(** Two environments whose names differ in a character that is no letter keep
    one history. *)
Example environments_share_a_history :
  store_dir_candidates #"acme.prod" None (Some #"/t") None = store_dir_candidates #"acme prod" None (Some #"/t") None
  /\ store_dir_candidates #"acme.prod" None (Some #"/t") None = [ #"/t/genaryx/acme-prod"].
Proof. split; vm_compute; reflexivity. Qed.

(** A history to be kept for ever, by a number of days past 64 bits, is deleted
    whole. *)
#[local] Instance demo_calendar : Store.Calendar := {| Store.parse_ts_ms := parse_u64; Store.ms_to_rfc3339 := dec |}.
Definition today : Z := 1790000000000.
Definition a_minute_ago : Store.Row :=
  Store.mkRow 1 #"box" #"1789999940000" #"wardryx" #"policy_deny" #"agent://acme/ops/bot" None None #"v" [] None None #"{}" None None #"k"
    (Some 1789999940000).
Example long_history_is_deleted :
  (prune_history (Some #"999999999999") today [a_minute_ago] []).1 = []
  /\ (prune_history (Some #"36500") today [a_minute_ago] []).1 = [a_minute_ago].
Proof. split; vm_compute; reflexivity. Qed.

Lemma retention_keeps_the_days_asked_for_witness :
  history_days (Some #"30") * Store.DAY_MS <= i64_max
  /\ (a_minute_ago ∈ (prune_history (Some #"30") today [a_minute_ago] []).1
      <-> a_minute_ago ∈ [a_minute_ago]
          /\ (0 < history_days (Some #"30") -> forall t, Store.ts_ms a_minute_ago = Some t ->
              today - t <= history_days (Some #"30") * Store.DAY_MS)).
Proof.
  split; [by vm_compute|]. apply (retention_keeps_the_days_asked_for (Some #"30") today [a_minute_ago] [] a_minute_ago); by vm_compute.
Defined.

Lemma history_is_one_directory_below_its_root_witness :
  #"/s/------etc" ∈ store_dir_candidates #"../../etc" (Some #"/s") (Some #"/t") (Some #"/h")
  /\ exists root,
      (Some root = Some #"/s" \/ Some root = (fun t => ProofRun.join_path t #"genaryx") <$> Some #"/t"
       \/ Some root = (fun h => ProofRun.join_path (ProofRun.join_path h #".taipan") #"genaryx") <$> Some #"/h")
      /\ components #"/s/------etc" = components root ++ [Named (safe_segment #"../../etc")].
Proof.
  assert (#"/s/------etc" ∈ store_dir_candidates #"../../etc" (Some #"/s") (Some #"/t") (Some #"/h")) as H
    by (left).
  split; [exact H|]. exact (history_is_one_directory_below_its_root _ _ _ _ _ H).
Defined.

(** The console of a resolved environment shows the mock timeline when its store
    cannot be read. *)
Example live_bus_shows_mock_events {JT : JsonText} :
  map u_agent_id (recent_events dec (Ok (Err #"database is locked")) today 2 (mkApp (Some #"/s/box") (Some #"/bus") (Live #"box" #"/bus")))
  = [ #"agent://taipanbox.dev/demo/billing-bot"; #"agent://taipanbox.dev/demo/support-bot"].
Proof. vm_compute. reflexivity. Qed.
End Example.
