(* ===== verification/Dispatch.v ===== *)
(** * Dispatch: one command by its name ([crates/web/src/dispatch.rs])

    A command is an arm: the arguments it reads from the request's body, as
    [serde] reads a struct from a JSON value, and what it does with them.  Most
    arms hand them to one plane's function and answer with what it answers: what
    the planes answer is the [World]'s.  The block toggles, the projections of
    the block store and the remedy's scenario directory are the arms' own steps
    and use [Lifecycle]. *)
From S2P Require Import Prelude Text Json.
From S2P Require Roles Lifecycle.

(** ** Arguments *)

(** The types of an argument; [TOwn] is a type of a plane's own, by its Rust
    name. *)
Inductive Ty : Type :=
| TStr | TBool | TUnsigned (max : Z) | TI64 | TF64 | TJson | TAmount | TOption (t : Ty) | TVec (t : Ty)
| TOwn (rust : str).
Record Field : Type := mkField { f_name : str; f_ty : Ty; f_default : option value }.
Definition field (n : str) (t : Ty) (default : option value) : Field := mkField n t default.
Definition req (n : str) (t : Ty) : Field := mkField n t None.

(** What an arm does with its arguments. *)
Inductive Does : Type :=
| Answers (call : str)            (* [reply] of a plane's result *)
| NoStore (call : str)            (* the same, marked not to be kept *)
| Says (call : str)               (* [ok] of a plane's value *)
| RunsProjected (call : str)      (* a result, through the block store *)
| GraphProjected (call : str)     (* a value, through the block store *)
| Rehearsed (drills call : str)   (* a result, after the drills' status *)
| Block (kind : str)              (* a block toggle *)
| Blocks.                         (* the block store *)
Record Arm : Type := mkArm { command : str; args : option (list Field); deny_unknown : bool; does : Does }.
Definition arm (n : str) (fields : option (list Field)) (deny : bool) (d : Does) : Arm := mkArm n fields deny d.

Definition default_profile_window : Z := 90.
Definition default_spend_days : Z := 30.
Definition default_stops_scan : Z := 20000.

Section Decode.
(** Whether a value reads as a type of a plane's own. *)
Context (reads_own : str -> value -> bool).

Fixpoint read (t : Ty) (v : value) : bool :=
  match t, v with
  | TStr, VStr _ | TBool, VBool _ | TF64, VNum _ | TJson, _ | TAmount, VStr _ | TAmount, VNum _ => true
  | TUnsigned max, VNum (NInt z) => (0 <=? z) && (z <=? max)
  | TI64, VNum (NInt z) => (i64_min <=? z) && (z <=? i64_max)
  | TOption _, VNull => true
  | TVec t, VArr vs => forallb (read t) vs
  | TOption t, v => read t v
  | TOwn rust, v => reads_own rust v
  | _, _ => false
  end.
(** A field that is not there: its default, or nothing for an [Option]. *)
Definition missing (f : Field) : option value :=
  match f_default f, f_ty f with Some d, _ => Some d | None, TOption _ => Some VNull | None, _ => None end.
Fixpoint read_members (fs : list Field) (ms : list (str * value)) : option (list value) :=
  match fs with
  | [] => Some []
  | f :: fs =>
      let! x := match obj_get (f_name f) ms with
                | Some v => if read (f_ty f) v then Some v else None
                | None => missing f
                end in
      let! xs := read_members fs ms in Some (x :: xs)
  end.
(** By position, as [visit_seq] does: an element that is not there has its
    default or none, and there may be no more elements than fields. *)
Fixpoint read_items (fs : list Field) (items : list value) : option (list value) :=
  match fs, items with
  | [], [] => Some []
  | [], _ :: _ => None
  | f :: fs, [] => let! x := f_default f in let! xs := read_items fs [] in Some (x :: xs)
  | f :: fs, v :: items => if read (f_ty f) v then let! xs := read_items fs items in Some (v :: xs) else None
  end.
Definition known_only (a : Arm) (fs : list Field) (ms : list (str * value)) : bool :=
  negb (deny_unknown a) || forallb (fun m => existsb (fun f => str_eqb (f_name f) m.1) fs) ms.
(** [decode] of an arm's struct; an arm without one reads nothing. *)
Definition decode (a : Arm) (v : value) : option (list value) :=
  match args a with
  | None => Some []
  | Some fs =>
      match v with
      | VObj ms => if known_only a fs ms then read_members fs ms else None
      | VArr items => read_items fs items
      | _ => None
      end
  end.
End Decode.

(** ** The arms *)

Definition arms_1 : list Arm :=
  [arm #"admission_baseline" (Some [req #"evalset_path" TStr; req #"model" TStr; req #"agent_id" TStr; req #"api_key" TStr]) false (Answers #"admission::commands::admission_baseline");
   arm #"admission_check" (Some [req #"key_id" TStr; req #"agent_id" TStr]) false (Answers #"admission::commands::admission_check");
   arm #"admission_status" None false (Answers #"admission::commands::admission_status");
   arm #"agent_events" (Some [req #"agent_id" TStr; req #"limit" (TUnsigned u64_max)]) false (Says #"graph::agent_events");
   arm #"agent_graph" None false (GraphProjected #"graph::agent_graph");
   arm #"agent_slice" (Some [req #"agent_id" TStr]) false (Says #"graph::agent_slice");
   arm #"bus_status" None false (Says #"bus::bus_status");
   arm #"bus_quarantine" None false (Says #"bus::quarantine");
   arm #"egress_recent" (Some [req #"limit" (TUnsigned u64_max)]) false (Says #"egress::egress_recent");
   arm #"stats_counts" (Some [req #"scan" (TUnsigned u64_max); field #"window_days" (TUnsigned u32_max) (Some (VNum (NInt 0)))]) false (Says #"stats::stats_counts");
   arm #"agent_profile" (Some [req #"agent_id" TStr; field #"window_days" TI64 (Some (VNum (NInt default_profile_window)))]) false (Says #"stats::profile::agent_profile")].
Definition arms_2 : list Arm :=
  [arm #"agent_stops" (Some [req #"agent_id" TStr; field #"limit" (TUnsigned u64_max) (Some (VNum (NInt default_stops_scan)))]) false (Says #"stats::agent_stops");
   arm #"recent_events" (Some [req #"limit" (TUnsigned u64_max)]) false (Says #"bus::recent_events");
   arm #"case_file" (Some [req #"incident_id" TStr]) false (Answers #"case::commands::case_file");
   arm #"copilot_ask" (Some [req #"question" TStr]) false (Answers #"copilot::commands::copilot_ask");
   arm #"copilot_explain" (Some [req #"incident_id" TStr]) false (Answers #"copilot::commands::copilot_explain");
   arm #"copilot_explain_case" (Some [req #"incident_id" TStr]) false (Answers #"copilot::commands::copilot_explain_case");
   arm #"copilot_log_proposal_approved" (Some [req #"kind" TStr; req #"target" TStr; req #"params" TJson]) false (Answers #"copilot::commands::copilot_log_proposal_approved");
   arm #"copilot_status" None false (Answers #"copilot::commands::copilot_status");
   arm #"credentials_gateway_retained_runs" None false (Answers #"credentials::commands::credentials_gateway_retained_runs");
   arm #"credentials_posture" None false (Answers #"credentials::posture::credentials_posture");
   arm #"credentials_keys" None false (Answers #"credentials::commands::credentials_keys");
   arm #"credentials_status" None false (Answers #"credentials::commands::credentials_status");
   arm #"crypto_scan_cbom" (Some [req #"path" TStr]) false (Answers #"crypto::commands::crypto_scan_cbom")].
Definition arms_3 : list Arm :=
  [arm #"crypto_scan_evidence" (Some [req #"path" TStr; req #"sign_key" (TOption TStr)]) false (Answers #"crypto::commands::crypto_scan_evidence");
   arm #"crypto_scan_ncsc" (Some [req #"path" TStr]) false (Answers #"crypto::commands::crypto_scan_ncsc");
   arm #"crypto_status" None false (Answers #"crypto::commands::crypto_status");
   arm #"crypto_verify_evidence" (Some [req #"file" TStr]) false (Answers #"crypto::commands::crypto_verify_evidence");
   arm #"delegation_revoke" (Some [field #"subject" (TOption TStr) (Some VNull); field #"jti" (TOption TStr) (Some VNull); req #"reason" TStr]) false (Answers #"delegation::commands::delegation_revoke");
   arm #"agent_stop" (Some [req #"subject" TStr; req #"reason" TStr]) false (Answers #"delegation::stop::agent_stop");
   arm #"agent_lift" (Some [req #"subject" TStr; req #"reason" TStr]) false (Answers #"delegation::stop::agent_lift");
   arm #"drills_run" (Some [req #"scenario_dir" TStr; req #"api_key" (TOption TStr); req #"fail_on_skip" TBool; req #"save_path" (TOption TStr)]) false (Answers #"drills::commands::drills_run");
   arm #"drills_status" None false (Answers #"drills::commands::drills_status");
   arm #"evidence_build" (Some [req #"request" (TOwn #"EvidenceBuildRequest")]) false (Answers #"evidence::commands::evidence_build")].
Definition arms_4 : list Arm :=
  [arm #"evidence_status" None false (Answers #"evidence::commands::evidence_status");
   arm #"identity_list_alerts" None false (Answers #"identity::commands::identity_list_alerts");
   arm #"identity_list_identities" None false (Answers #"identity::commands::identity_list_identities");
   arm #"identity_list_remediations" None false (Answers #"identity::commands::identity_list_remediations");
   arm #"identity_rescan" None false (Answers #"identity::commands::identity_rescan");
   arm #"identity_status" None false (Answers #"identity::commands::identity_status");
   arm #"memory_forget" (Some [req #"memory_id" TStr]) false (Answers #"memory::commands::memory_forget");
   arm #"memory_recall" (Some [req #"query" TStr; req #"limit" (TUnsigned u32_max); req #"mode" TStr; req #"agent_id" (TOption TStr)]) false (Answers #"memory::commands::memory_recall");
   arm #"memory_stats" (Some [req #"agent_id" (TOption TStr)]) false (Answers #"memory::commands::memory_stats");
   arm #"memory_status" None false (Answers #"memory::commands::memory_status");
   arm #"memory_why" (Some [req #"memory_id" TStr]) false (Answers #"memory::commands::memory_why");
   arm #"money_ack_incident" (Some [req #"id" TStr]) false (Answers #"money::commands::money_ack_incident");
   arm #"money_incidents" None false (Answers #"money::commands::money_incidents");
   arm #"money_list_retained" None false (Answers #"money::retained::money_list_retained");
   arm #"money_close_retained" (Some [req #"reservation_id" (TUnsigned u64_max); req #"expected_revision" TStr; req #"evidence_kind" (TOwn #"EvidenceKind"); field #"observed_microusd" (TOption TI64) (Some VNull); req #"evidence_ref" TStr]) false (Answers #"money::retained::money_close_retained");
   arm #"money_kill_run" (Some [req #"run_id" TStr; req #"reason" TStr]) false (Answers #"money::commands::money_kill_run");
   arm #"agent_block" (Some [req #"agent_id" TStr; req #"blocked" TBool]) false (Block #"agent")].
Definition arms_5 : list Arm :=
  [arm #"unit_block" (Some [req #"team" TStr; req #"blocked" TBool]) false (Block #"unit");
   arm #"user_block" (Some [req #"user" TStr; req #"blocked" TBool]) false (Block #"user");
   arm #"lifecycle_blocks" None false (Blocks);
   arm #"money_overview" None false (Answers #"money::commands::money_overview");
   arm #"money_runs" None false (RunsProjected #"money::commands::money_runs");
   arm #"money_spend_window" (Some [field #"days" TI64 (Some (VNum (NInt default_spend_days)))]) false (Answers #"money::commands::money_spend_window");
   arm #"money_owners" None false (Answers #"money::commands::money_owners");
   arm #"money_savings" None false (Answers #"money::commands::money_savings");
   arm #"money_set_budget" (Some [req #"run_id" TStr; req #"budget_usd" TF64; req #"reason" TStr]) false (Answers #"money::commands::money_set_budget");
   arm #"money_status" None false (Answers #"money::commands::money_status");
   arm #"money_gateways" None false (Answers #"money::gateways::money_gateways");
   arm #"money_units" None false (Answers #"money::units::money_units");
   arm #"money_set_unit_budget" (Some [req #"unit" TStr; req #"budget_usd" TF64; req #"reason" TStr]) false (Answers #"money::units::money_set_unit_budget");
   arm #"onboard_generate" (Some [req #"request" (TOwn #"OnboardGenerateRequest")]) false (Answers #"onboard::commands::onboard_generate");
   arm #"onboard_status" (Some [req #"request" (TOwn #"OnboardStatusRequest")]) false (Answers #"onboard::commands::onboard_status")].
Definition arms_6 : list Arm :=
  [arm #"onboard_write_passport" (Some [req #"request" (TOwn #"OnboardWritePassportRequest")]) false (Answers #"onboard::commands::onboard_write_passport");
   arm #"policy_decide_approval" (Some [req #"id" TStr; req #"decision" (TOwn #"DecisionDto")]) false (NoStore #"policy::commands::policy_decide_approval");
   arm #"policy_list_approvals" None false (Answers #"policy::commands::policy_list_approvals");
   arm #"policy_list_policies" None false (Answers #"policy::commands::policy_list_policies");
   arm #"policy_enforcement_status" None false (Answers #"policy::commands::policy_enforcement_status");
   arm #"case_seal" (Some [req #"incident_id" TStr; field #"proofs" (TVec (TOwn #"genaryx_api::seal::ProofSpec")) (Some (VArr [])); req #"decision" (TOwn #"genaryx_api::seal::Decision")]) true (Answers #"seal::commands::case_seal");
   arm #"remedy_check" (Some [req #"incident_id" TStr; req #"remedy" (TOwn #"genaryx_api::remedy::Remedy")]) false (Rehearsed #"drills::commands::drills_status" #"remedy::commands::remedy_check");
   arm #"case_pack" (Some [req #"digest" TStr]) false (Answers #"seal::commands::case_pack")].
Definition arms_7 : list Arm :=
  [arm #"budget_proof" (Some [req #"incident_id" TStr; req #"per_run_usd" (TOption TAmount); req #"per_step_usd" (TOption TAmount); req #"max_steps" (TOption (TUnsigned u32_max))]) false (Answers #"proof::budget_commands::budget_proof");
   arm #"policy_proof" (Some [req #"incident_id" TStr; req #"candidate" TStr]) false (Answers #"proof::commands::policy_proof");
   arm #"policy_status" None false (Answers #"policy::commands::policy_status");
   arm #"quality_list_baselines" None false (Answers #"quality::commands::quality_list_baselines");
   arm #"quality_list_run_summaries" None false (Answers #"quality::commands::quality_list_run_summaries");
   arm #"quality_run_scores" (Some [req #"run_id" TStr]) false (Answers #"quality::commands::quality_run_scores");
   arm #"quality_status" None false (Answers #"quality::commands::quality_status");
   arm #"remote_cloud_list" (Some [req #"provider" TStr; req #"options" (TOption (TOwn #"CloudListOptions"))]) false (Answers #"remote::commands::remote_cloud_list");
   arm #"remote_hetzner_list" (Some [req #"token" TStr; req #"label_selector" (TOption TStr)]) false (Answers #"remote::commands::remote_hetzner_list");
   arm #"remote_operator_wg_config" None false (Answers #"remote::commands::remote_operator_wg_config");
   arm #"remote_operator_wg_peers" None false (Answers #"remote::commands::remote_operator_wg_peers");
   arm #"remote_operator_wg_revoke" (Some [req #"public_key" TStr]) false (Answers #"remote::commands::remote_operator_wg_revoke");
   arm #"remote_set_environment" (Some [req #"request" (TOwn #"RemoteEnvironmentRequest")]) false (Answers #"remote::commands::remote_set_environment");
   arm #"remote_ssh_check_reachable" None false (Answers #"remote::commands::remote_ssh_check_reachable")].
Definition arms_8 : list Arm :=
  [arm #"remote_ssh_read_file" (Some [req #"path" TStr]) false (Answers #"remote::commands::remote_ssh_read_file");
   arm #"remote_ssh_tail_start" (Some [req #"path" TStr; req #"from_offset" (TUnsigned u64_max)]) false (Answers #"remote::commands::remote_ssh_tail_start");
   arm #"remote_ssh_tail_stop" None false (Answers #"remote::commands::remote_ssh_tail_stop");
   arm #"remote_status" None false (Answers #"remote::commands::remote_status");
   arm #"remote_wg_connect" None false (Answers #"remote::commands::remote_wg_connect");
   arm #"remote_wg_disconnect" None false (Answers #"remote::commands::remote_wg_disconnect");
   arm #"routines_history" (Some [req #"routine" (TOption TStr); req #"limit" (TOption (TUnsigned u32_max))]) false (Answers #"routines::commands::routines_history");
   arm #"routines_status" None false (Answers #"routines::commands::routines_status");
   arm #"run_events" (Some [req #"run_id" TStr; req #"limit" (TUnsigned u64_max)]) false (Says #"replay::run_events")].
Definition arms : list Arm := arms_1 ++ arms_2 ++ arms_3 ++ arms_4 ++ arms_5 ++ arms_6 ++ arms_7 ++ arms_8.

(** ** Running an arm *)

(** A response: its status, its body, and whether it is marked not to be kept. *)
Record Response : Type := mkResponse { status : Z; body : value; no_store : bool }.
Definition ok (v : value) : Response := mkResponse 200 v false.
Definition reply (r : result value value) : Response :=
  match r with Ok v => ok v | Err e => mkResponse 422 e false end.
Definition not_kept (r : Response) : Response := mkResponse (status r) (body r) true.

(** A journal line of a toggle: action, target, policies written, members and
    the outcome's text ([journal_block]). *)
Record BlockLine : Type := mkBlockLine { action : str; target : str; policies : Z; members : list str; outcome : str }.

Section Dispatch.
Context `{Lifecycle.PolicyService}.

(** What the planes answer while a command runs: each function's result or
    value on its arguments, whether an argument reads as a plane's own type and
    what serde says when one does not, the identities and the runs' agents as
    the block toggles find them, and the policy service's client. *)
Record World : Type := mkWorld
  { answer : str -> list value -> result value value; total : str -> list value -> value;
    reads_own : str -> value -> bool; serde_says : str -> value -> str;
    identities : option (list Lifecycle.IdentityDto); run_agents : option (list str); client : result unit str }.

(** The block store and the policy service. *)
Definition State : Type := (Lifecycle.LifecycleStore * Lifecycle.svc)%type.

Definition block_line (kind key : str) (blocked : bool) (affected : Z) (members : list str) : BlockLine :=
  mkBlockLine (Lifecycle.block_action kind blocked) key affected members (#"blocked:" ++ if blocked then #"true" else #"false").
(** [apply_block] with its journal. *)
Definition apply_block (w : World) (kind key : str) (blocked : bool) (members : list str) (s : State)
  : Response * option BlockLine * State :=
  match Lifecycle.apply_block (client w) kind key blocked members s.1 s.2 with
  | (Ok affected, st, sv) => (reply (Ok VNull), Some (block_line kind key blocked affected members), (st, sv))
  | (Err e, st, sv) => (reply (Err (obj [ (#"error", VStr e)])), None, (st, sv))
  end.
(** The members of a toggle, and the store with its owners. *)
Definition toggled (w : World) (kind key : str) (s : State) : list str * State :=
  if str_eqb kind #"agent" then ([key], s)
  else if str_eqb kind #"unit" then (Lifecycle.agents_in_unit (identities w) (run_agents w) key, s)
  else let '(ms, st) := Lifecycle.agents_of_user (identities w) key s.1 in (ms, (st, s.2)).

(** The directory of a drills status that is ready. *)
Definition scenario_dir (r : result value value) : value :=
  match r with
  | Ok v => match get_str #"state" v, get #"scenario_dir" v with
            | Some st, Some d => if str_eqb st #"ready" then d else VNull
            | _, _ => VNull
            end
  | Err _ => VNull
  end.

Definition run_arm (w : World) (d : Does) (xs : list value) (s : State) : Response * option BlockLine * State :=
  match d with
  | Answers call => (reply (answer w call xs), None, s)
  | NoStore call => (not_kept (reply (answer w call xs)), None, s)
  | Says call => (ok (total w call xs), None, s)
  | RunsProjected call =>
      (reply (let? runs := answer w call xs in Ok (Lifecycle.project_runs runs s.1)), None, s)
  | GraphProjected call => (ok (Lifecycle.project_graph (total w call xs) s.1), None, s)
  | Rehearsed drills call => (reply (answer w call (xs ++ [scenario_dir (answer w drills [])])), None, s)
  | Block kind =>
      match xs with
      | [VStr key; VBool blocked] =>
          let '(ms, s) := toggled w kind key s in apply_block w kind key blocked ms s
      | _ => (reply (Err VNull), None, s)
      end
  | Blocks => (ok (Lifecycle.to_json s.1), None, s)
  end.

Definition arm_of (name : str) : option Arm := List.find (fun a => str_eqb (command a) name) arms.
(** [dispatch]: the error side is a command that is unknown or whose arguments
    cannot be read. *)
Definition dispatch (w : World) (name : str) (v : value) (s : State) : result Response Response * option BlockLine * State :=
  match arm_of name with
  | None => (Err (mkResponse 404 (obj [ (#"error", VStr #"unknown command"); (#"command", VStr name)]) false), None, s)
  | Some a =>
      match decode (reads_own w) a v with
      | None => (Err (mkResponse 400 (obj [ (#"error", VStr #"bad arguments"); (#"detail", VStr (serde_says w name v))]) false), None, s)
      | Some xs => let '(r, line, s) := run_arm w (does a) xs s in (Ok r, line, s)
      end
  end.

(** ** What holds of it *)

(** What a value of each type is. *)
Inductive has_type (own : str -> value -> bool) : Ty -> value -> Prop :=
| ht_str s : has_type own TStr (VStr s)
| ht_bool b : has_type own TBool (VBool b)
| ht_unsigned max z : 0 <= z <= max -> has_type own (TUnsigned max) (VNum (NInt z))
| ht_i64 z : i64_min <= z <= i64_max -> has_type own TI64 (VNum (NInt z))
| ht_f64 n : has_type own TF64 (VNum n)
| ht_json v : has_type own TJson v
| ht_amount_text s : has_type own TAmount (VStr s)
| ht_amount n : has_type own TAmount (VNum n)
| ht_none t : has_type own (TOption t) VNull
| ht_some t v : has_type own t v -> has_type own (TOption t) v
| ht_vec t vs : Forall (has_type own t) vs -> has_type own (TVec t) (VArr vs)
| ht_own rust v : own rust v = true -> has_type own (TOwn rust) v.
#[local] Hint Constructors has_type : dispatch.

Lemma read_typed own t v : read own t v = true -> has_type own t v.
Proof.
  revert v; induction t as [| |max| | | | |t IH|t IH|rust]; intros v; destruct v as [|b|[z|x]|s|items|ms]; simpl; intros Hr;
    try done; auto with dispatch.
  - constructor. lia.
  - constructor. lia.
  - constructor. apply Forall_forall. intros v Hv. apply IH. rewrite forallb_forall in Hr. by apply Hr, list_elem_of_In.
Qed.
Lemma read_mono own own' t v :
  (forall r v, own r v = true -> own' r v = true) -> read own t v = true -> read own' t v = true.
Proof.
  intros Ho. revert v; induction t as [| |max| | | | |t IH|t IH|rust]; intros v; destruct v as [|b|[z|x]|s|items|ms]; simpl; auto.
  rewrite !forallb_forall. intros Hr v Hv. by apply IH, Hr.
Qed.
Definition default_typed (f : Field) : Prop := forall own d, f_default f = Some d -> has_type own (f_ty f) d.
Lemma missing_typed own f d : default_typed f -> missing f = Some d -> has_type own (f_ty f) d.
Proof.
  unfold missing. intros Hd. destruct (f_default f) eqn:E; [intros [= <-]; by apply Hd|].
  destruct (f_ty f); try done. intros [= <-]. constructor.
Qed.
Lemma read_members_typed own fs ms xs :
  Forall default_typed fs -> read_members own fs ms = Some xs -> Forall2 (has_type own) (map f_ty fs) xs.
Proof.
  intros Hd. revert xs; induction Hd as [|f fs Hf Hd IH]; intros xs; simpl; [intros [= <-]; constructor|].
  destruct (match obj_get (f_name f) ms with Some _ => _ | None => _ end) as [x|] eqn:Ex; [|done].
  destruct (read_members own fs ms) as [ys|]; [|done]. intros [= <-]. constructor; [|by apply IH].
  destruct (obj_get (f_name f) ms) as [v|]; [|by apply missing_typed].
  destruct (read own (f_ty f) v) eqn:Er; [|done]. injection Ex as <-. by apply read_typed.
Qed.
Lemma read_items_typed own fs items xs :
  Forall default_typed fs -> read_items own fs items = Some xs -> Forall2 (has_type own) (map f_ty fs) xs.
Proof.
  intros Hd. revert items xs; induction Hd as [|f fs Hf Hd IH]; intros items xs; destruct items as [|v items]; simpl; try done.
  - intros [= <-]. constructor.
  - destruct (f_default f) as [d|] eqn:E; [|done]. destruct (read_items own fs []) as [ys|] eqn:Ey; [|done].
    intros [= <-]. constructor; [by apply Hf|by eapply IH].
  - destruct (read own (f_ty f) v) eqn:Er; [|done]. destruct (read_items own fs items) as [ys|] eqn:Ey; [|done].
    intros [= <-]. constructor; [by apply read_typed|by eapply IH].
Qed.

(** The defaults of the arms have their types. *)
Definition default_reads (f : Field) : bool :=
  match f_default f with Some d => read (fun _ _ => false) (f_ty f) d | None => true end.
Lemma arms_defaults a fs : a ∈ arms -> args a = Some fs -> Forall default_typed fs.
Proof.
  intros Ha Hfs. assert (forallb (fun a => forallb default_reads (default [] (args a))) arms = true) as Hall
    by (vm_compute; reflexivity).
  rewrite forallb_forall in Hall. apply list_elem_of_In in Ha. specialize (Hall a Ha). rewrite Hfs in Hall.
  rewrite forallb_forall in Hall. apply Forall_forall. intros f Hf own d Hd. apply list_elem_of_In, Hall in Hf.
  unfold default_reads in Hf. rewrite Hd in Hf. apply read_typed. by apply (read_mono (fun _ _ => false)); [intros|].
Qed.
Lemma decode_typed own a v xs :
  a ∈ arms -> decode own a v = Some xs -> Forall2 (has_type own) (map f_ty (default [] (args a))) xs.
Proof.
  intros Ha. unfold decode. destruct (args a) as [fs|] eqn:E; [|intros [= <-]; constructor].
  pose proof (arms_defaults a fs Ha E) as Hd. destruct v as [| | | |items|ms]; try done.
  - by apply read_items_typed.
  - destruct (known_only a fs ms); [|done]. by apply read_members_typed.
Qed.

Lemma arm_of_Some name a : arm_of name = Some a -> a ∈ arms /\ command a = name.
Proof. unfold arm_of. intros [Hin He]%List.find_some. apply str_eqb_eq in He. split; [by apply list_elem_of_In|done]. Qed.
Lemma arm_of_None name : arm_of name = None -> name ∉ map command arms.
Proof.
  unfold arm_of. intros Hn (a&->&Ha)%list_elem_of_fmap. apply list_elem_of_In in Ha.
  pose proof (List.find_none _ _ Hn a Ha) as Hf. simpl in Hf. by rewrite str_eqb_refl in Hf.
Qed.

(** The commands dispatched are the commands with a row in the role table. *)
Lemma arms_are_gated : forall name, name ∈ map command arms <-> name ∈ map Roles.name Roles.COMMANDS.
Proof.
  assert (forallb (fun n => bool_decide (n ∈ map Roles.name Roles.COMMANDS)) (map command arms) = true) as H1
    by (vm_compute; reflexivity).
  assert (forallb (fun n => bool_decide (n ∈ map command arms)) (map Roles.name Roles.COMMANDS) = true) as H2
    by (vm_compute; reflexivity).
  rewrite forallb_forall in H1, H2. intros name.
  split; intros Hin%list_elem_of_In; [apply H1 in Hin|apply H2 in Hin]; by apply bool_decide_eq_true in Hin.
Qed.
Lemma gate_of_None name : Roles.gate_of name = None -> name ∉ map Roles.name Roles.COMMANDS.
Proof.
  unfold Roles.gate_of. intros Hn (g&->&Hg)%list_elem_of_fmap. apply list_elem_of_In in Hg.
  pose proof (List.find_none _ _ Hn g Hg) as Hf. simpl in Hf. by rewrite str_eqb_refl in Hf.
Qed.
Lemma arm_iff_gate name : is_Some (arm_of name) <-> is_Some (Roles.gate_of name).
Proof.
  split; intros [x Hx].
  - destruct (Roles.gate_of name) eqn:E; [done|]. apply gate_of_None in E. destruct E. apply arms_are_gated.
    apply arm_of_Some in Hx as [Hin <-]. by apply list_elem_of_fmap_2.
  - destruct (arm_of name) eqn:E; [done|]. apply arm_of_None in E. destruct E. apply arms_are_gated.
    apply Roles.gate_of_Some in Hx as [Hin <-]. by apply list_elem_of_fmap_2.
Qed.

(** The blocks a store records. *)
Definition blocks_of (st : Lifecycle.LifecycleStore) : gset str * gset str * gset str :=
  (Lifecycle.frozen_agents st, Lifecycle.stopped_units st, Lifecycle.stopped_users st).
(** The policy service took a toggle: it holds a deny-all policy of this block
    under the id of every member, and nothing else of it changed; or it holds no
    policy of this block any more, and every other as before. *)
Definition took {Laws : Lifecycle.PolicyServiceLaws} (kind key : str) (blocked : bool) (ms : list str) (before after : Lifecycle.svc) : Prop :=
  if blocked
  then ms <> []
    /\ (forall a, a ∈ ms -> exists a', a' ∈ ms
          /\ Lifecycle.stored after !! Lifecycle.block_id kind key a
             = Some (Lifecycle.deny_all_policy (Lifecycle.block_name kind key) a'))
    /\ (forall id, id ∉ map (Lifecycle.block_id kind key) ms -> Lifecycle.stored after !! id = Lifecycle.stored before !! id)
  else forall id, Lifecycle.stored after !! id =
         if starts_with (Lifecycle.block_prefix kind key) id then None else Lifecycle.stored before !! id.

(** What a command leaves.  Nothing is journaled: the blocks are as they were,
    and but for a toggle that failed so is the policy service.  Or one toggle is
    journaled: the service took it, the blocks have it, and the line says it. *)
Definition accounted {Laws : Lifecycle.PolicyServiceLaws} (w : World) (d : Does) (xs : list value) (s : State) (line : option BlockLine) (s' : State) : Prop :=
  match line with
  | None => blocks_of s'.1 = blocks_of s.1 /\ (s' = s \/ exists kind, d = Block kind)
  | Some l => exists kind key blocked affected ms,
      d = Block kind /\ xs = [VStr key; VBool blocked] /\ ms = (toggled w kind key s).1
      /\ l = block_line kind key blocked affected ms
      /\ took kind key blocked ms s.2 s'.2
      /\ blocks_of s'.1 = blocks_of (Lifecycle.record_block kind key blocked s.1)
  end.

Lemma record_block_of kind key blocked st st' :
  blocks_of st = blocks_of st' ->
  blocks_of (Lifecycle.record_block kind key blocked st) = blocks_of (Lifecycle.record_block kind key blocked st').
Proof.
  unfold blocks_of, Lifecycle.record_block. intros E. injection E as H1 H2 H3.
  destruct (str_eqb kind #"agent"), (str_eqb kind #"unit");
    cbn [Lifecycle.frozen_agents Lifecycle.stopped_units Lifecycle.stopped_users]; by rewrite H1, H2, H3.
Qed.
Lemma toggled_blocks w kind key s : blocks_of (toggled w kind key s).2.1 = blocks_of s.1.
Proof.
  unfold toggled. destruct (str_eqb kind #"agent"); [done|]. destruct (str_eqb kind #"unit"); [done|].
  unfold Lifecycle.agents_of_user. by destruct (identities w).
Qed.
Lemma toggled_service w kind key s : (toggled w kind key s).2.2 = s.2.
Proof.
  unfold toggled. destruct (str_eqb kind #"agent"); [done|]. destruct (str_eqb kind #"unit"); [done|].
  by destruct (Lifecycle.agents_of_user _ _ _).
Qed.
Lemma apply_block_accounted {Laws : Lifecycle.PolicyServiceLaws} w kind key blocked ms s :
  let '(r, line, s') := apply_block w kind key blocked ms s in
  (status r = 200 /\ is_Some line \/ status r = 422 /\ line = None) /\ no_store r = false /\
  match line with
  | None => s'.1 = s.1
  | Some l => exists affected, l = block_line kind key blocked affected ms /\ took kind key blocked ms s.2 s'.2
                /\ s'.1 = Lifecycle.record_block kind key blocked s.1
  end.
Proof.
  unfold apply_block, Lifecycle.apply_block.
  destruct (if blocked then _ else _) as [[n|e] sv] eqn:E; cbn; [|by split; [right|]].
  split; [left; by split; [|eexists]|]. split; [done|]. exists n. split; [done|]. split; [|done]. unfold took. destruct blocked.
  - pose proof (Lifecycle.block_Ok _ _ _ _ _ _ _ E) as (Hn&_&_). split; [done|]. by eapply Lifecycle.block_taken.
  - by eapply Lifecycle.unblock_stored.
Qed.

Lemma run_arm_accounted {Laws : Lifecycle.PolicyServiceLaws} w d xs s :
  let '(r, line, s') := run_arm w d xs s in
  (status r = 200 \/ status r = 422 /\ line = None) /\ accounted w d xs s line s'
  /\ (no_store r = true <-> exists call, d = NoStore call).
Proof.
  assert (forall x : result value value, (status (reply x) = 200 \/ status (reply x) = 422 /\ @None BlockLine = None) /\ no_store (reply x) = false) as Hr
    by (intros [x|x]; cbn; auto).
  assert (forall kind, no_store (reply (Err VNull)) = true <-> exists call, Block kind = NoStore call) as Hn
    by (intros kind; split; [done|by intros [? ?]]).
  destruct d as [call|call|call|call|call|drills call|kind|]; cbn [run_arm].
  7:{ destruct xs as [|[| | |key| |] [|[|blocked| | | |] [|? ?]]];
        try (split; [cbn; auto|split; [by split; [|left]|apply (Hn kind)]]).
      pose proof (toggled_blocks w kind key s) as Ht. pose proof (toggled_service w kind key s) as Hv.
      destruct (toggled w kind key s) as [ms s1] eqn:Et. cbn in Ht, Hv.
      pose proof (apply_block_accounted w kind key blocked ms s1) as Ha.
      destruct (apply_block w kind key blocked ms s1) as [[r line] s2]. destruct Ha as (H1&Hf&H3).
      split; [destruct H1 as [[? _]|?]; auto|]. split; [|rewrite Hf; split; [done|by intros [? ?]]].
      destruct line as [l|]; cbn.
      - destruct H3 as (n&->&Htk&Hb). exists kind, key, blocked, n, ms. rewrite Et, <- Hv, Hb.
        repeat (split; [done|]). by apply record_block_of.
      - rewrite H3. split; [done|]. right. by eexists. }
  2:{ split; [apply (Hr (answer w call xs))|]. split; [by split; [|left]|]. split; [by eexists|done]. }
  all: split; [first [apply Hr|cbn; auto]|]; (split; [by split; [|left]|]); split; [|by intros [? ?]].
  all: first [done | rewrite (proj2 (Hr _)); done].
Qed.

(** The toggles are the arms of the three block commands, and the answer that is
    not to be kept is that of one arm. *)
Definition toggles : list (str * str) :=
  [(#"agent_block", #"agent"); (#"unit_block", #"unit"); (#"user_block", #"user")].
Lemma toggle_arms a kind : a ∈ arms -> does a = Block kind -> (command a, kind) ∈ toggles.
Proof.
  intros Hin Hd.
  assert (forallb (fun a => match does a with Block k => bool_decide ((command a, k) ∈ toggles) | _ => true end) arms = true) as Hall
    by (vm_compute; reflexivity).
  rewrite forallb_forall in Hall. apply list_elem_of_In, Hall in Hin. rewrite Hd in Hin. by apply bool_decide_eq_true in Hin.
Qed.
Lemma not_kept_arm a : a ∈ arms -> (exists call, does a = NoStore call) <-> command a = #"policy_decide_approval".
Proof.
  intros Hin.
  assert (forallb (fun a => Bool.eqb (bool_decide (command a = #"policy_decide_approval"))
                                     (match does a with NoStore _ => true | _ => false end)) arms = true) as Hall
    by (vm_compute; reflexivity).
  rewrite forallb_forall in Hall. apply list_elem_of_In, Hall, eqb_prop in Hin.
  destruct (bool_decide_reflect (command a = #"policy_decide_approval")), (does a); try done;
    split; try done; try (by eexists); by intros [? ?].
Qed.

(** C4: a command is run only when the role table has a row for it, with
    arguments of the types its arm names; any other name or body is refused
    before anything is called, and changes nothing.  What runs answers 200 or
    422.  A line of the block journal is written only for one of the three
    toggles, with the key and the members it was made for, and only when the
    policy service took the change - a deny-all policy under the id of every
    member, or none of this block left - and then the block store has exactly
    that change and the answer is 200; without a line the blocks are as they
    were, and of any other command so is the policy service.  Only the decision
    of a held call is answered as not to be kept. *)
Theorem command_runs_with_its_row_and_its_types {Laws : Lifecycle.PolicyServiceLaws} w name v s :
  let '(r, line, s') := dispatch w name v s in
  match r with
  | Err e => (status e = 404 /\ Roles.gate_of name = None \/ status e = 400 /\ is_Some (Roles.gate_of name))
             /\ line = None /\ s' = s
  | Ok x =>
      (status x = 200 \/ status x = 422 /\ line = None) /\ is_Some (Roles.gate_of name)
      /\ (exists a xs, arm_of name = Some a /\ decode (reads_own w) a v = Some xs
           /\ Forall2 (has_type (reads_own w)) (map f_ty (default [] (args a))) xs
           /\ accounted w (does a) xs s line s'
           /\ (forall kind, does a = Block kind -> (name, kind) ∈ toggles))
      /\ (no_store x = true <-> name = #"policy_decide_approval")
  end.
Proof.
  unfold dispatch. pose proof (arm_iff_gate name) as Hg. destruct (arm_of name) as [a|] eqn:Ea.
  - assert (is_Some (Roles.gate_of name)) as Hs by (apply Hg; by eexists).
    destruct (decode (reads_own w) a v) as [xs|] eqn:Ed; [|split; [by right|done]].
    pose proof (run_arm_accounted w (does a) xs s) as Hr. destruct (run_arm w (does a) xs s) as [[x line] s'].
    destruct Hr as (H1&H2&H3). split; [done|]. split; [done|]. pose proof (arm_of_Some _ _ Ea) as [Hin Hnm]. split.
    + exists a, xs. split; [done|]. split; [done|]. split; [by apply (decode_typed _ _ v)|]. split; [done|].
      intros kind Hd. rewrite <- Hnm. by apply toggle_arms.
    + rewrite H3, <- Hnm. by apply not_kept_arm.
  - split; [|done]. left. split; [done|]. destruct (Roles.gate_of name); [|done].
    assert (is_Some (@None Arm)) as [? ?] by (apply Hg; by eexists). done.
Qed.
End Dispatch.

(** ** Runs *)

Module Example.
Section Example.
Context `{Lifecycle.PolicyService}.

Definition world : World :=
  mkWorld (fun call xs => if str_eqb call #"money::commands::money_kill_run" then Err (obj [ (#"kind", VStr #"no_environment")]) else Ok (VArr xs))
    (fun call xs => VStr call) (fun _ _ => true) (fun _ _ => #"invalid type") None None (Ok tt).
Definition asked (name : str) (v : value) (s : State) : Z * bool :=
  match (dispatch world name v s).1.1 with Ok r => (status r, true) | Err r => (status r, false) end.

(** A command is read by names or by position; a field too many is passed over,
    except by the seal; a number out of range, a missing reason and an unknown
    name are refused. *)
Example asked_of_the_console s :
  asked #"money_kill_run" (obj [ (#"run_id", VStr #"r"); (#"reason", VStr #"loop"); (#"x", VNull)]) s = (422, true)
  /\ asked #"money_kill_run" (VArr [VStr #"r"; VStr #"loop"]) s = (422, true)
  /\ asked #"money_kill_run" (obj [ (#"run_id", VStr #"r")]) s = (400, false)
  /\ asked #"recent_events" (obj [ (#"limit", VNum (NInt (-1)))]) s = (400, false)
  /\ asked #"stats_counts" (obj [ (#"scan", VNum (NInt 10))]) s = (200, true)
  /\ asked #"case_seal" (obj [ (#"incident_id", VStr #"bus:1"); (#"decision", VNull); (#"x", VNull)]) s = (400, false)
  /\ asked #"delegation_revoke" (obj [ (#"reason", VStr #"x")]) s = (200, true)
  /\ asked #"delegation_revoke" (VArr [VNull; VNull; VStr #"x"]) s = (200, true)
  /\ asked #"routines_history" (VArr []) s = (400, false)
  /\ asked #"routines_history" (obj []) s = (200, true)
  /\ asked #"money_owners" (VStr #"anything") s = (200, true)
  /\ asked #"money_owner" (obj []) s = (404, false).
Proof. repeat split; vm_compute; reflexivity. Qed.
End Example.

(** An agent is stopped, through a service that keeps its policies. *)
Definition stop_agent : result Response Response * option BlockLine * @State Lifecycle.demo_service :=
  @dispatch Lifecycle.demo_service world #"agent_block" (obj [ (#"agent_id", VStr #"agent://a/b/c"); (#"blocked", VBool true)])
    (Lifecycle.empty_store, ∅).

Definition stopped : Response := mkResponse 200 VNull false.
Definition stop_line : BlockLine := mkBlockLine #"console.block_agent" #"agent://a/b/c" 1 [ #"agent://a/b/c"] #"blocked:true".

Lemma command_runs_with_its_row_and_its_types_witness :
  stop_agent.1 = (Ok stopped, Some stop_line) /\ is_Some (Roles.gate_of #"agent_block").
Proof.
  assert (stop_agent.1 = (Ok stopped, Some stop_line)) as E by (vm_compute; reflexivity).
  split; [exact E|].
  pose proof (@command_runs_with_its_row_and_its_types Lifecycle.demo_service Lifecycle.demo_service_laws world #"agent_block"
    (obj [ (#"agent_id", VStr #"agent://a/b/c"); (#"blocked", VBool true)]) (Lifecycle.empty_store, ∅)) as H.
  fold stop_agent in H. destruct stop_agent as [p s']. cbn in E. rewrite E in H. exact (proj1 (proj2 H)).
Defined.
End Example.
