(* ===== verification/Mcp.v ===== *)
(** * Mcp: tool calls over a child's standard input and output
    ([crates/connectors/src/mcp_stdio.rs], [crates/connectors/src/engram.rs])

    The client writes one JSON-RPC message a line to its child and reads the
    child's lines from a channel that a reader thread fills.  A call writes its
    request under a fresh number and reads lines until one carries that number,
    or until its deadline.  What was not read stays in the channel, so the
    answer of a call that gave up is read by a later call.

    A [Turn] is what the world does during one call: when the request is
    written and whether that succeeds, which lines arrive and when, and the
    time the client spends on each.  Times are nanoseconds of the process's
    monotonic clock. *)
From S2P Require Import Prelude Text Json JsonCode.

Definition PROTOCOL_VERSION : str := #"2025-06-18".
Definition DEFAULT_TIMEOUT : Z := 60 * 1000000000.

Inductive McpError : Type :=
| Spawn (command source : str)
| Io (e : str)
| Protocol (message : str)
| Rpc (code : Z) (message : str)
| Tool (message : str)
| Scope (message : str)
| Timeout (after : Z).

#[export] Instance McpError_eq_dec : EqDecision McpError.
Proof. solve_decision. Defined.

Record ToolDef : Type := mkToolDef { name : str; description : str; input_schema : value }.

(** ** The envelope of a tool's result *)

Definition is_object (v : value) : bool := match v with VObj _ => true | _ => false end.
Definition is_null (v : value) : bool := match v with VNull => true | _ => false end.

Definition text_blocks (result : value) : str :=
  match (let! c := get #"content" result in as_array c) with
  | Some blocks => join [10] (omap (get_str #"text") blocks)
  | None => []
  end.

Definition unwrap_fastmcp_structured (v : value) : value :=
  match v with
  | VObj ([_] as map) =>
      match obj_get #"result" map with
      | Some inner => if is_object inner then v else inner
      | None => v
      end
  | _ => v
  end.

Section Client.
Context {JT : JsonText}.
(** The text of serde_json's error for a line it does not read. *)
Context (json_error : str -> str).

Definition parse_tool_result (result : value) : Prelude.result value McpError :=
  if get_true #"isError" result then
    let msg := text_blocks result in
    Err (Tool (if bool_decide (msg = []) then #"tool reported isError with no message" else msg))
  else
    match (let! sc := get #"structuredContent" result in if is_null sc then None else Some sc) with
    | Some sc => Ok (unwrap_fastmcp_structured sc)
    | None =>
        let text := text_blocks result in
        if bool_decide (text = []) then
          Err (Protocol #"tools/call result had neither structuredContent nor text content")
        else
          match json_of (str_bytes text) with
          | Some v => Ok (unwrap_fastmcp_structured v)
          | None => Ok (VStr text)
          end
    end.

(** ** The client *)

(** A started process, by the program and the arguments it was started with. *)
Record Child : Type := mkChild { c_program : str; c_args : list str }.
(** [Command::new(program).args(args).spawn()]; [started] is how the operating
    system answers. *)
Definition start_process (started : list str -> result unit str) (program : str) (args : list str) : result Child str :=
  let? _ := started args in Ok (mkChild program args).

(** [pipe] is what has gone into the child's standard input, [rx] the lines
    that came out and were not read, each with the time it arrived, [closed]
    when the reader thread ended. *)
Record Client : Type := mkClient
  { child : Child; pipe : str; rx : list (Z * str); closed : option Z; next_id : Z; timeout : Z; server_info : value }.

(** [wrote]: the write succeeds, or fails after some characters of the line. *)
Record Turn : Type := mkTurn
  { start : Z; wrote : result unit (nat * str); arrivals : list (Z * str); ended : option Z; pauses : list Z }.

Definition wrap_i64 (z : Z) : Z := (z + 9223372036854775808) mod 18446744073709551616 - 9223372036854775808.

Definition take_id (c : Client) : Z * Client :=
  (next_id c, mkClient (child c) (pipe c) (rx c) (closed c) (wrap_i64 (next_id c + 1)) (timeout c) (server_info c)).

Definition push (c : Client) (sent : str) : Client :=
  mkClient (child c) (pipe c ++ sent) (rx c) (closed c) (next_id c) (timeout c) (server_info c).

Definition send (w : result unit (nat * str)) (c : Client) (msg : value) : result unit McpError * Client :=
  let line := json_text msg ++ [10] in
  match w with
  | Ok _ => (Ok tt, push c line)
  | Err (k, e) => (Err (Io e), push c (firstn k line))
  end.

(** The loop of [recv_response]: [now] is the clock at the top of a turn of the
    loop.  A line is taken when it arrives by the deadline; an empty channel
    answers at the deadline, or as soon as the reader thread has ended. *)
Fixpoint recv_loop (after deadline id : Z) (ends : option Z) (now : Z) (pauses : list Z) (rx : list (Z * str))
  : result value McpError * list (Z * str) * Z :=
  if deadline <? now then (Err (Timeout after), rx, now)
  else
    match rx with
    | [] => (Err (Timeout after), [], match ends with Some t => Z.min deadline (Z.max now t) | None => deadline end)
    | (arrived, line) :: rest =>
        if deadline <? arrived then (Err (Timeout after), rx, deadline)
        else
          let now := Z.max now arrived + hd 0 pauses in
          let trimmed := trim line in
          if bool_decide (trimmed = []) then recv_loop after deadline id ends now (tl pauses) rest
          else
            match json_of (str_bytes trimmed) with
            | None => (Err (Protocol (#"stdout line not JSON: " ++ json_error trimmed)), rest, now)
            | Some v =>
                if bool_decide ((let! i := get #"id" v in as_i64 i) = Some id) then (Ok v, rest, now)
                else recv_loop after deadline id ends now (tl pauses) rest
            end
    end.

(** What arrives in the turn is behind what the channel already holds. *)
Definition channel (t : Turn) (c : Client) : list (Z * str) := rx c ++ arrivals t.
Definition hung_up (t : Turn) (c : Client) : option Z := match closed c with Some z => Some z | None => ended t end.

Definition recv_response (t : Turn) (c : Client) (id : Z) : result value McpError * Client :=
  let deadline := start t + timeout c in
  let '(r, rest, _) := recv_loop (timeout c) deadline id (hung_up t c) (start t) (pauses t) (channel t c) in
  (r, mkClient (child c) (pipe c) rest (hung_up t c) (next_id c) (timeout c) (server_info c)).

Definition result_or_rpc_err (resp : value) : result value McpError :=
  match get #"error" resp with
  | Some err =>
      Err (Rpc (default 0 (let! c := get #"code" err in as_i64 c))
               (default #"<no message>" (let! m := get #"message" err in as_str m)))
  | None => ok_or (get #"result" resp) (Protocol #"response had neither result nor error")
  end.

(** ** Requests *)

Definition request_msg (id : Z) (method : str) (params : value) : value :=
  obj [ (#"jsonrpc", VStr #"2.0"); (#"id", VNum (NInt id)); (#"method", VStr method); (#"params", params)].

Definition tool_params (name : str) (arguments : value) : value :=
  obj [ (#"name", VStr name); (#"arguments", arguments)].

Definition call_tool (t : Turn) (c : Client) (name : str) (arguments : value) : result value McpError * Client :=
  let '(id, c) := take_id c in
  let '(r, c) := send (wrote t) c (request_msg id #"tools/call" (tool_params name arguments)) in
  match r with
  | Err e => (Err e, c)
  | Ok _ =>
      let '(r, c) := recv_response t c id in
      (let? resp := r in let? result := result_or_rpc_err resp in parse_tool_result result, c)
  end.

(** [serde_json::from_value::<Vec<ToolDef>>]. *)
Context (tools_of : value -> result (list ToolDef) str).

Definition list_tools (t : Turn) (c : Client) : result (list ToolDef) McpError * Client :=
  let '(id, c) := take_id c in
  let '(r, c) := send (wrote t) c (request_msg id #"tools/list" (VObj [])) in
  match r with
  | Err e => (Err e, c)
  | Ok _ =>
      let '(r, c) := recv_response t c id in
      (let? resp := r in let? result := result_or_rpc_err resp in
       let tools := default (VArr []) (get #"tools" result) in
       map_err (fun e => Protocol (#"tools/list shape: " ++ e)) (tools_of tools), c)
  end.

(** [env!("CARGO_PKG_VERSION")]. *)
Context (version : str).

Definition init_params : value :=
  obj [ (#"protocolVersion", VStr PROTOCOL_VERSION); (#"capabilities", VObj []);
        (#"clientInfo", obj [ (#"name", VStr #"genaryx"); (#"version", VStr version)])].
Definition initialized : value := obj [ (#"jsonrpc", VStr #"2.0"); (#"method", VStr #"notifications/initialized")].

(** [noted] is how the write of the notification ends. *)
Definition handshake (t : Turn) (noted : result unit (nat * str)) (c : Client) : result unit McpError * Client :=
  let '(id, c) := take_id c in
  let '(r, c) := send (wrote t) c (request_msg id #"initialize" init_params) in
  match r with
  | Err e => (Err e, c)
  | Ok _ =>
      let '(r, c) := recv_response t c id in
      match r with
      | Err e => (Err e, c)
      | Ok resp =>
          let c := mkClient (child c) (pipe c) (rx c) (closed c) (next_id c) (timeout c) (default VNull (get #"result" resp)) in
          send noted c initialized
      end
  end.

Definition fresh (child : Child) : Client := mkClient child [] [] None 0 DEFAULT_TIMEOUT VNull.

Definition spawn (program : str) (args : list str) (started : list str -> result unit str) (t : Turn)
  (noted : result unit (nat * str)) : result Client McpError :=
  match start_process started program args with
  | Err e => Err (Spawn program e)
  | Ok child => let '(r, c) := handshake t noted (fresh child) in let? _ := r in Ok c
  end.
Definition with_timeout (c : Client) (d : Z) : Client :=
  mkClient (child c) (pipe c) (rx c) (closed c) (next_id c) d (server_info c).
End Client.

(** ** Engram's tools over the client ([engram.rs]) *)

Record EngramCounts : Type := mkCounts { episodic : Z; semantic : Z; procedural : Z }.
Record EngramStats : Type := mkStats
  { st_agent_id : option str; counts : EngramCounts; vector_index_size : Z; facts_total : Z; facts_active : Z;
    facts_superseded : Z; entities : Z; reflections : Z; st_db_path : str; db_size_bytes : option Z }.
Record EngramMemory : Type := mkMemory
  { m_id : str; m_content : str; score : f64; importance : f64; m_timestamp : str; m_actors : list str; m_tags : list str }.
Inductive EngramProvenance : Type :=
| Semantic (id subject predicate object : str) (confidence : f64) (valid_from : str) (valid_to : option str)
    (recorded_at : str) (extracted_from extracted_by_reflection_run extraction_model : option str)
| Episodic (id content timestamp : str) (actors tags : list str) (salience emotional_valence importance_score : option f64)
    (summary_of : list str) (agent_id : option str) (access_count : Z) (last_accessed : option str) (note : str).
Record ForgetResult : Type := mkForget { f_id : str; f_kind : str; deleted : bool }.

(** serde's readers of the tools' values, with their errors. *)
Class EngramShapes := {
  stats_of : value -> result EngramStats str;
  memories_of : value -> result (list EngramMemory) str;
  provenance_of : value -> result EngramProvenance str;
  forget_of : value -> result ForgetResult str;
}.

Definition spawn_args (db_path : str) (agent_id : option str) : list str :=
  [ #"--db"; db_path] ++ match agent_id with Some id => [ #"--agent-id"; id] | None => [] end.

Definition check_scope (asked scope : option str) : result unit McpError :=
  if bool_decide (asked = scope) then Ok tt
  else Err (Scope (#"this engram-mcp serves " ++ default #"the whole file" scope ++ #", not "
                   ++ default #"the whole file" asked ++ #": a read names the agent its server is scoped to")).

Definition stats_args (asked scope : option str) : result value McpError :=
  let? _ := check_scope asked scope in Ok (VObj []).
Definition recall_args (query : str) (limit : Z) (mode : str) (asked scope : option str) : result value McpError :=
  let? _ := check_scope asked scope in
  Ok (obj [ (#"query", VStr query); (#"limit", VNum (NInt limit)); (#"mode", VStr mode)]).

Record EngramClient : Type := mkEngram { mcp : Client; scope : option str }.

Section Engram.
Context {JT : JsonText} {SH : EngramShapes} (json_error : str -> str).

(** One tool call and its typed reading. *)
Definition typed_call {A} (reader : value -> result A str) (what : str) (t : Turn) (e : EngramClient) (name : str) (args : value)
  : result A McpError * EngramClient :=
  let '(r, c) := call_tool json_error t (mcp e) name args in
  (let? v := r in map_err (fun m => Protocol (what ++ #" shape: " ++ m)) (reader v), mkEngram c (scope e)).

Definition stats (t : Turn) (e : EngramClient) (agent_id : option str) : result EngramStats McpError * EngramClient :=
  match stats_args agent_id (scope e) with
  | Err x => (Err x, e)
  | Ok args => typed_call stats_of #"stats" t e #"stats" args
  end.
Definition recall (t : Turn) (e : EngramClient) (query : str) (limit : Z) (mode : str) (agent_id : option str)
  : result (list EngramMemory) McpError * EngramClient :=
  match recall_args query limit mode agent_id (scope e) with
  | Err x => (Err x, e)
  | Ok args => typed_call memories_of #"recall" t e #"recall" args
  end.
Definition why (t : Turn) (e : EngramClient) (memory_id : str) : result EngramProvenance McpError * EngramClient :=
  typed_call provenance_of #"why" t e #"why" (obj [ (#"memory_id", VStr memory_id)]).
Definition forget (t : Turn) (e : EngramClient) (memory_id : str) : result ForgetResult McpError * EngramClient :=
  typed_call forget_of #"forget" t e #"forget" (obj [ (#"memory_id", VStr memory_id)]).

(** The child is started with [spawn_args db_path agent_id] and no variables of
    its own. *)
Definition engram_spawn (version bin : str) (started : list str -> result unit str) (t : Turn)
  (noted : result unit (nat * str)) (db_path : str) (agent_id : option str) : result EngramClient McpError :=
  let? c := spawn json_error version bin (spawn_args db_path agent_id) started t noted in
  Ok (mkEngram c agent_id).

(** The child of a new client is the process started for this scope. *)
Lemma send_child w c m : child (send w c m).2 = child c.
Proof. by destruct w as [|[]]. Qed.
Lemma recv_child t c id : child (recv_response json_error t c id).2 = child c.
Proof. unfold recv_response. by destruct (recv_loop _ _ _ _ _ _ _ _) as [[]]. Qed.
Lemma engram_spawn_child version bin started t noted db_path agent_id e :
  engram_spawn version bin started t noted db_path agent_id = Ok e ->
  scope e = agent_id /\ child (mcp e) = mkChild bin (spawn_args db_path agent_id).
Proof.
  unfold engram_spawn, spawn, start_process. destruct (started _); [|done]. cbn [rbind].
  destruct (handshake _ _ _ _ _) as [[[]|] c] eqn:E; [|done]. intros [= <-]. split; [done|]. simpl.
  replace c with (handshake json_error version t noted (fresh (mkChild bin (spawn_args db_path agent_id)))).2 by by rewrite E.
  clear E. unfold handshake. cbn [take_id].
  match goal with |- context [send ?w ?c ?m] => pose proof (send_child w c m) as Hs; destruct (send w c m) as [[[]|] c1] end; [|exact Hs].
  match goal with |- context [recv_response _ ?t ?c ?i] => pose proof (recv_child t c i) as Hr; destruct (recv_response _ t c i) as [[v|] c2] end;
    rewrite ?send_child; simpl in *; congruence.
Qed.
End Engram.

(** ** A session: one client, its calls in turn *)

Section Session.
Context {JT : JsonText} (json_error : str -> str) (tools_of : value -> result (list ToolDef) str).

Inductive Call : Type := ListTools | CallTool (name : str) (arguments : value).
Inductive Answer : Type := Listed (r : result (list ToolDef) McpError) | Called (r : result value McpError).

(** What a call asks for: the method and the parameters of its request. *)
Definition asks (k : Call) : str * value :=
  match k with
  | ListTools => (#"tools/list", VObj [])
  | CallTool n a => (#"tools/call", tool_params n a)
  end.

Definition do_call (t : Turn) (c : Client) (k : Call) : Answer * Client :=
  match k with
  | ListTools => let '(r, c) := list_tools json_error tools_of t c in (Listed r, c)
  | CallTool n a => let '(r, c) := call_tool json_error t c n a in (Called r, c)
  end.

Fixpoint session (ks : list (Turn * Call)) (c : Client) : list Answer * Client :=
  match ks with
  | [] => ([], c)
  | (t, k) :: ks =>
      let '(a, c) := do_call t c k in
      let '(r, c) := session ks c in (a :: r, c)
  end.

(** What the answer to a call is, given the server's response to it. *)
Definition read_answer (k : Call) (resp : value) : Answer :=
  match k with
  | ListTools =>
      Listed (let? result := result_or_rpc_err resp in
              map_err (fun e => Protocol (#"tools/list shape: " ++ e))
                (tools_of (default (VArr []) (get #"tools" result))))
  | CallTool _ _ => Called (let? result := result_or_rpc_err resp in parse_tool_result result)
  end.

(** The call's request or its answer did not go through. *)
Definition lost (e : McpError) : Prop :=
  match e with
  | Io _ | Timeout _ => True
  | Protocol m => exists l, m = #"stdout line not JSON: " ++ json_error l
  | _ => False
  end.
Definition failed (a : Answer) (e : McpError) : Prop :=
  match a with Listed r => r = Err e | Called r => r = Err e end.

(** [Replied i m p v]: the server answered request [i], of method [m] and
    parameters [p], with [v].  A line is honest when, if it carries a number, it
    is an answer to the request of that number, asked before it arrived. *)
Context (Replied : Z -> str -> value -> value -> Prop).

Definition id_of (v : value) : option Z := let! i := get #"id" v in as_i64 i.
Definition honest (asked : list (str * value)) (l : Z * str) : Prop :=
  forall v i, json_of (str_bytes (trim l.2)) = Some v -> id_of v = Some i ->
    exists m p, 0 <= i /\ asked !! Z.to_nat i = Some (m, p) /\ Replied i m p v.

Fixpoint honest_session (asked : list (str * value)) (ks : list (Turn * Call)) : Prop :=
  match ks with
  | [] => True
  | (t, k) :: ks =>
      Forall (honest (asked ++ [asks k])) (arrivals t) /\ honest_session (asked ++ [asks k]) ks
  end.

Lemma honest_mono asked more l : honest asked l -> honest (asked ++ more) l.
Proof.
  intros H v i Hv Hi. destruct (H v i Hv Hi) as (m&p&?&Hl&?). exists m, p.
  split_and!; [done| |done]. by apply lookup_app_l_Some.
Qed.

(** A call takes a line of the channel that carries its number, and leaves the
    lines behind it. *)
Lemma recv_loop_spec after deadline id ends rx : forall now pauses r rest z,
  recv_loop json_error after deadline id ends now pauses rx = (r, rest, z) ->
  rest `suffix_of` rx
  /\ match r with
     | Ok v => exists l, l ∈ rx /\ json_of (str_bytes (trim l.2)) = Some v /\ id_of v = Some id
     | Err e => lost e
     end.
Proof.
  induction rx as [|[arrived line] rx IH]; intros now pauses r rest z; cbn [recv_loop].
  - destruct (_ <? _); intros [= <- <- <-]; by split.
  - destruct (_ <? now); [intros [= <- <- <-]; by split|].
    destruct (_ <? arrived); [intros [= <- <- <-]; by split|].
    assert (Hskip : forall now' p', recv_loop json_error after deadline id ends now' p' rx = (r, rest, z) ->
      rest `suffix_of` (arrived, line) :: rx
      /\ match r with
         | Ok v => exists l, l ∈ (arrived, line) :: rx /\ json_of (str_bytes (trim l.2)) = Some v /\ id_of v = Some id
         | Err e => lost e
         end).
    { intros now' p' E. apply IH in E as [Hs Hr]. split; [by apply suffix_cons_r|].
      destruct r; [|done]. destruct Hr as (l&Hl&Hv). exists l. split; [by right|done]. }
    case_bool_decide; [by apply Hskip|]. destruct (json_of _) as [v|] eqn:Ej.
    + case_bool_decide as Hid; [|by apply Hskip]. intros [= <- <- <-]. split; [by apply suffix_cons_r|].
      exists (arrived, line). split; [left|done].
    + intros [= <- <- <-]. split; [by apply suffix_cons_r|]. simpl. eauto.
Qed.

(** The clock when a call ends. *)
Lemma recv_loop_ends after deadline id ends slow rx : forall now pauses r rest z,
  Forall (fun p => 0 <= p <= slow) pauses -> 0 <= slow -> now <= deadline + slow ->
  recv_loop json_error after deadline id ends now pauses rx = (r, rest, z) -> z <= deadline + slow.
Proof.
  induction rx as [|[arrived line] rx IH]; intros now pauses r rest z Hp H0 Hn; cbn [recv_loop].
  - destruct (_ <? _); intros [= <- <- <-]; [done|]. destruct ends; lia.
  - destruct (_ <? now) eqn:E1; [by intros [= <- <- <-]|].
    destruct (_ <? arrived) eqn:E2; [intros [= <- <- <-]; lia|]. b2p.
    assert (Hh : hd 0 pauses <= slow) by (destruct Hp; simpl; lia).
    assert (Ht : Forall (fun p => 0 <= p <= slow) (tl pauses)) by (destruct Hp; simpl; [constructor|done]).
    case_bool_decide; [apply IH; [done|done|lia]|]. destruct (json_of _).
    + case_bool_decide; [intros [= <- <- <-]; lia|apply IH; [done|done|lia]].
    + intros [= <- <- <-]. lia.
Qed.

(** The client numbers its requests by their place. *)
Definition numbered (asked : list (str * value)) (c : Client) : Prop :=
  next_id c = Z.of_nat (length asked) /\ Forall (honest asked) (rx c).

Lemma wrap_small z : i64_min <= z <= i64_max -> wrap_i64 z = z.
Proof. unfold wrap_i64, i64_min, i64_max. intros. rewrite Z.mod_small; lia. Qed.

Lemma take_id_spec asked c ask id c' :
  numbered asked c -> Z.of_nat (length asked) < i64_max -> take_id c = (id, c') ->
  id = Z.of_nat (length asked) /\ numbered (asked ++ [ask]) c'.
Proof.
  intros [Hn Hf] Hlt [= <- <-]. split; [done|]. split; simpl.
  - rewrite length_app, Hn, wrap_small; simpl; unfold i64_max, i64_min in *; lia.
  - eapply Forall_impl; [exact Hf|]. intros l. apply honest_mono.
Qed.

Lemma send_spec asked w c msg r c' :
  numbered asked c -> send w c msg = (r, c') ->
  numbered asked c' /\ match r with Err e => lost e | Ok _ => True end.
Proof. intros H. unfold send. destruct w as [|[k e]]; intros [= <- <-]; done. Qed.

Lemma recv_response_spec asked t c id r c' :
  numbered asked c -> Forall (honest asked) (arrivals t) -> recv_response json_error t c id = (r, c') ->
  numbered asked c'
  /\ match r with
     | Ok v => exists m p, 0 <= id /\ asked !! Z.to_nat id = Some (m, p) /\ Replied id m p v
     | Err e => lost e
     end.
Proof.
  intros [Hn Hf] Ht. unfold recv_response. destruct (recv_loop _ _ _ _ _ _ _) as [[r' rest] z] eqn:E.
  intros [= <- <-]. apply recv_loop_spec in E as [Hs Hr].
  assert (Hall : Forall (honest asked) (channel t c)) by (by apply Forall_app).
  split; [split; [done|]; destruct Hs as [pre Hs]; rewrite Hs in Hall; by apply Forall_app in Hall as [_ ?]|].
  destruct r'; [|done]. destruct Hr as (l&Hl&Hv&Hi). rewrite Forall_forall in Hall. by apply (Hall l).
Qed.

Definition answered (asked : list (str * value)) (k : Call) (a : Answer) : Prop :=
  (exists e, failed a e /\ lost e)
  \/ exists resp, Replied (Z.of_nat (length asked)) (asks k).1 (asks k).2 resp /\ a = read_answer k resp.

Lemma do_call_spec asked t c k a c' :
  numbered asked c -> Z.of_nat (length asked) < i64_max -> Forall (honest (asked ++ [asks k])) (arrivals t) ->
  do_call t c k = (a, c') -> numbered (asked ++ [asks k]) c' /\ answered asked k a.
Proof.
  intros Hn Hlt Ht.
  assert (Hid : forall id c1, take_id c = (id, c1) -> id = Z.of_nat (length asked) /\ numbered (asked ++ [asks k]) c1)
    by (intros id c1; by apply take_id_spec).
  assert (Hlast : forall m p, (asked ++ [asks k]) !! Z.to_nat (Z.of_nat (length asked)) = Some (m, p) -> asks k = (m, p)).
  { intros m p. rewrite Nat2Z.id, list_lookup_middle by done. by intros [= ->]. }
  destruct k as [|n args]; unfold do_call, list_tools, call_tool; destruct (take_id c) as [id c1] eqn:E1;
    (destruct (send (wrote t) c1 _) as [w c2] eqn:E2); destruct (Hid _ _ eq_refl) as [-> H1];
    destruct (send_spec _ _ _ _ _ _ H1 E2) as [H2 Hw];
    (destruct w as [[]|e]; [|intros [= <- <-]; split; [done|left; by exists e]]);
    (destruct (recv_response _ t c2 _) as [r c3] eqn:E3); intros [= <- <-];
    destruct (recv_response_spec _ _ _ _ _ _ H2 Ht E3) as [H3 Hr]; (split; [done|]);
    (destruct r as [v|e]; [right|left; by exists e]);
    destruct Hr as (m&p&_&Hl&Hrep); apply Hlast in Hl; exists v; rewrite Hl; split; [done|reflexivity|done|reflexivity].
Qed.

Lemma session_spec ks : forall asked c,
  numbered asked c -> Z.of_nat (length asked + length ks) <= i64_max -> honest_session asked ks ->
  forall i t k a, ks !! i = Some (t, k) -> (session ks c).1 !! i = Some a ->
    answered (asked ++ map (fun tk => asks tk.2) (firstn i ks)) k a.
Proof.
  induction ks as [|[t0 k0] ks IH]; intros asked c Hn Hlen Hh i t k a; [done|].
  cbn [session]. destruct (do_call t0 c k0) as [a0 c0] eqn:E0. destruct (session ks c0) as [r c1] eqn:E1.
  destruct Hh as [Ht Hh]. cbn [length] in Hlen.
  destruct (do_call_spec _ _ _ _ _ _ Hn ltac:(unfold i64_max in *; lia) Ht E0) as [Hn0 Ha0].
  destruct i as [|i]; simpl.
  - intros [= <- <-] [= <-]. by rewrite app_nil_r.
  - intros Hk Ha. rewrite cons_middle, app_assoc. eapply (IH _ c0 Hn0).
    + rewrite length_app. simpl. lia.
    + done.
    + exact Hk.
    + by rewrite E1.
Qed.

(** C17: A tool call is answered by its own response or not at all.  Over a
    server whose numbered messages are responses to requests it was sent, in any
    session of one child, after the handshake: whatever order the server
    answers in, and whichever calls gave up and left their answers in the
    channel, the outcome of a call is either a loss in transport (the write
    failed, the deadline passed, the stream ended, a line was not JSON) or
    exactly what the server's response to that very request - its number, its
    method, its arguments - says, an error included. *)
Theorem answers_belong_to_their_calls version program args started t0 noted c ks i t k a :
  Forall (honest [(#"initialize", init_params version)]) (arrivals t0) ->
  honest_session [(#"initialize", init_params version)] ks ->
  Z.of_nat (length ks) < i64_max ->
  spawn json_error version program args started t0 noted = Ok c ->
  ks !! i = Some (t, k) -> (session ks c).1 !! i = Some a ->
  (exists e, failed a e /\ lost e)
  \/ exists resp, Replied (Z.of_nat (S i)) (asks k).1 (asks k).2 resp /\ a = read_answer k resp.
Proof.
  intros Ht0 Hh Hlen Hs Hk Ha.
  assert (Hn : numbered [(#"initialize", init_params version)] c).
  { unfold spawn in Hs. destruct (start_process _ _ _) as [ch|]; [|done]. destruct (handshake _ _ _ _ _) as [[]] eqn:E; [|done].
    cbn [rbind] in Hs. injection Hs as <-. unfold handshake in E. destruct (take_id (fresh ch)) as [id c1] eqn:E1.
    assert (Hf : numbered [] (fresh ch)) by (split; [done|constructor]).
    destruct (take_id_spec _ _ (#"initialize", init_params version) _ _ Hf ltac:(done) E1) as [-> H1].
    destruct (send (wrote t0) c1 _) as [w c2] eqn:E2. destruct (send_spec _ _ _ _ _ _ H1 E2) as [H2 _].
    destruct w; [|done]. destruct (recv_response _ t0 c2 _) as [r c3] eqn:E3.
    destruct (recv_response_spec _ _ _ _ _ _ H2 Ht0 E3) as [H3 _]. destruct r; [|done].
    refine (proj1 (send_spec _ _ _ _ _ _ _ E)). exact H3. }
  pose proof (session_spec ks _ c Hn ltac:(simpl; unfold i64_max in *; lia) Hh i t k a Hk Ha) as H.
  unfold answered in H. rewrite length_app, length_map, length_take in H. apply lookup_lt_Some in Hk. simpl in H.
  by rewrite Nat.min_l in H by lia.
Qed.
End Session.

(** ** What is written is one message a line *)

(** serde_json's compact writer leaves no control character in its text. *)
Class OneLine `{JT : JsonText} : Prop := {
  text_has_no_break : forall v, 10 ∉ json_text v /\ 13 ∉ json_text v;
  text_is_read_back : forall v, json_of (str_bytes (json_text v)) = Some v;
}.

Section Framing.
Context {JT : JsonText} {OL : OneLine} (json_error : str -> str) (tools_of : value -> result (list ToolDef) str).

Definition framed (vs : list value) : str := flat_map (fun v => json_text v ++ [10]) vs.

Lemma strip_cr_none s : 13 ∉ s -> strip_cr s = s.
Proof.
  intros H. unfold strip_cr. destruct (strip_suffix [13] s) as [l|] eqn:E; [|done].
  apply strip_suffix_Some in E as ->. destruct H. apply elem_of_app. right. by left.
Qed.

Lemma split_framed vs : split_char 10 (framed vs) = map json_text vs ++ [[]].
Proof.
  induction vs as [|v vs IH]; [done|]. cbn [framed flat_map map]. rewrite <- app_assoc. cbn [app].
  rewrite split_char_app by apply text_has_no_break. f_equal. exact IH.
Qed.

Lemma lines_framed vs : lines (framed vs) = map json_text vs.
Proof.
  unfold lines. rewrite split_framed, rev_app_distr. cbn [rev app]. rewrite rev_involutive, map_map.
  apply map_ext. intros v. apply strip_cr_none, text_has_no_break.
Qed.

(** The message a call writes when it is the [n]th the client numbers. *)
Definition message (n : Z) (k : Call) : value := request_msg n (asks k).1 (asks k).2.
Fixpoint messages (n : Z) (ks : list Call) : list value :=
  match ks with [] => [] | k :: ks => message n k :: messages (wrap_i64 (n + 1)) ks end.

Lemma do_call_writes t c k :
  is_ok (wrote t) = true ->
  pipe (do_call json_error tools_of t c k).2 = pipe c ++ json_text (message (next_id c) k) ++ [10]
  /\ next_id (do_call json_error tools_of t c k).2 = wrap_i64 (next_id c + 1).
Proof.
  intros Hw. destruct k; unfold do_call, list_tools, call_tool, take_id, send;
    (destruct (wrote t); [|done]); (destruct (recv_response _ _ _ _) as [r c'] eqn:E); simpl;
    unfold recv_response in E; (destruct (recv_loop _ _ _ _ _ _ _ _) as [[? ?] ?]);
    injection E as <- <-; done.
Qed.

(** A session writes one message a line: read line by line, the child's
    input after a session whose writes went through is what it was before and
    then the calls' requests, in their order, each with its own number, and each
    line reads back as the request that was sent. *)
Theorem requests_are_lines ks c :
  Forall (fun tk => is_ok (wrote tk.1) = true) ks ->
  exists vs, vs = messages (next_id c) (map snd ks)
    /\ pipe (session json_error tools_of ks c).2 = pipe c ++ framed vs
    /\ lines (framed vs) = map json_text vs
    /\ map (fun l => json_of (str_bytes l)) (lines (framed vs)) = map Some vs.
Proof.
  intros H. exists (messages (next_id c) (map snd ks)). split; [done|]. split; [|split].
  - revert c. induction H as [|[t k] ks Hw Hks IH]; intros c; [by rewrite app_nil_r|]. cbn [session map messages snd].
    destruct (do_call_writes t c k Hw) as [Hp Hn]. destruct (do_call _ _ t c k) as [a c0]. cbn [snd] in *.
    specialize (IH c0). destruct (session _ _ ks c0) as [r c1]. cbn [snd] in *.
    rewrite IH, Hp, Hn. cbn [framed flat_map]. by rewrite <- !app_assoc.
  - apply lines_framed.
  - rewrite lines_framed, map_map. apply map_ext. intros v. apply text_is_read_back.
Qed.
End Framing.

(** ** Runs *)

Module Example.
#[local] Existing Instance code_json.
Definition no_error (_ : str) : str := #"expected value".
Definition no_tools (_ : value) : result (list ToolDef) str := Ok [].

#[local] Instance code_one_line : OneLine.
Proof.
  split; [|exact code_round]. intros v.
  assert (H : Forall (fun c => 44 <= c) (code_text v)).
  { unfold code_text. rewrite !Forall_app. split_and!; [by repeat constructor| |by repeat constructor].
    eapply Forall_impl; [apply code_chars|]. simpl. lia. }
  rewrite Forall_forall in H. split; intros Hin; apply H in Hin; lia.
Qed.

Definition response (id : Z) (result : value) : value := obj [ (#"id", VNum (NInt id)); (#"result", result)].
Definition said (at_ : Z) (v : value) : Z * str := (at_, code_text v).
Definition structured (v : value) : value := obj [ (#"structuredContent", v)].
Definition second : Z := 1000000000.

(** The handshake, a call whose answer comes a minute late, and a call that
    reads that answer, skips it and takes its own. *)
Definition hello : Turn := mkTurn 0 (Ok tt) [said 5 (response 0 VNull)] None [].
Definition slow : Turn := mkTurn (1 * second) (Ok tt) [said (70 * second) (response 1 (structured (VNum (NInt 11))))] None [].
Definition quick : Turn := mkTurn (62 * second) (Ok tt) [said (71 * second) (response 2 (structured (VNum (NInt 22))))] None [].
Definition calls : list (Turn * Call) :=
  [(slow, CallTool #"stats" (VObj [])); (quick, CallTool #"recall" (VObj []))].
Definition client : option Client := rok (spawn no_error #"1" #"engram-mcp" [] (fun _ => Ok tt) hello (Ok tt)).
Definition begun : Client := default (fresh (mkChild [] [])) client.

Example late_answer_is_not_taken :
  (session no_error no_tools calls begun).1
  = [Called (Err (Timeout DEFAULT_TIMEOUT)); Called (Ok (VNum (NInt 22)))].
Proof. vm_compute. reflexivity. Qed.

Definition gave (i : Z) (m : str) (p v : value) : Prop :=
  v = response i VNull \/ v = response i (structured (VNum (NInt (i * 11)))).

Lemma honest_said asked at_ v i m p :
  id_of v = Some i -> 0 <= i -> asked !! Z.to_nat i = Some (m, p) -> gave i m p v -> trim (code_text v) = code_text v ->
  honest gave asked (said at_ v).
Proof.
  intros Hi H0 Hl Hg Ht v' i' Hv' Hi'. simpl in Hv'. rewrite Ht in Hv'.
  assert (v' = v) as -> by (pose proof (code_round v); change (code_read (str_bytes (code_text v)) = Some v') in Hv'; congruence).
  rewrite Hi in Hi'. injection Hi' as <-. by exists m, p.
Qed.

Lemma answers_belong_to_their_calls_witness :
  is_Some client /\
  ((exists e, failed (Called (Ok (VNum (NInt 22)))) e /\ lost no_error e)
   \/ exists resp, gave 2 #"tools/call" (tool_params #"recall" (VObj [])) resp
        /\ Called (Ok (VNum (NInt 22))) = read_answer no_tools (CallTool #"recall" (VObj [])) resp).
Proof.
  split; [vm_compute; eauto|].
  apply (answers_belong_to_their_calls no_error no_tools gave #"1" #"engram-mcp" [] (fun _ => Ok tt) hello (Ok tt) begun calls 1 quick
           (CallTool #"recall" (VObj []))).
  - constructor; [|constructor]. eapply (honest_said _ _ _ 0); [reflexivity|lia|reflexivity|by left|vm_compute; reflexivity].
  - split; [|split]; [| |done]; (constructor; [|constructor]).
    + eapply (honest_said _ _ _ 1); [reflexivity|lia|reflexivity|by right|vm_compute; reflexivity].
    + eapply (honest_said _ _ _ 2); [reflexivity|lia|reflexivity|by right|vm_compute; reflexivity].
  - vm_compute. reflexivity.
  - vm_compute. reflexivity.
  - reflexivity.
  - vm_compute. reflexivity.
Defined.

Lemma requests_are_lines_witness :
  exists vs, vs = messages (next_id begun) (map snd calls)
    /\ pipe (session no_error no_tools calls begun).2 = pipe begun ++ framed vs
    /\ lines (framed vs) = map json_text vs
    /\ map (fun l => json_of (str_bytes l)) (lines (framed vs)) = map Some vs.
Proof. apply (requests_are_lines no_error no_tools calls begun). repeat constructor. Defined.

(** A server that refuses the handshake is taken for one that accepted it: the
    [error] of its answer is not looked at. *)
Definition refusal : value :=
  obj [ (#"id", VNum (NInt 0)); (#"error", obj [ (#"code", VNum (NInt (-32602))); (#"message", VStr #"Unsupported protocol version")])].
Example refused_handshake_is_ready :
  (rok (spawn no_error #"1" #"engram-mcp" [] (fun _ => Ok tt) (mkTurn 0 (Ok tt) [said 5 refusal] None []) (Ok tt)) ≫= fun c => Some (server_info c))
  = Some VNull.
Proof. vm_compute. reflexivity. Qed.

(** A server numbers its own requests too.  One whose number is that of the
    call in flight is taken for the call's answer, and the answer that follows
    is left for the next call to skip. *)
Definition ping : value := obj [ (#"id", VNum (NInt 1)); (#"method", VStr #"ping")].
Example server_request_is_taken_for_the_answer :
  let t := mkTurn second (Ok tt) [said (2 * second) ping; said (3 * second) (response 1 (structured (VNum (NInt 11))))] None [] in
  (call_tool no_error t begun #"stats" (VObj [])).1 = Err (Protocol #"response had neither result nor error").
Proof. vm_compute. reflexivity. Qed.

(** A stream that ends is reported as the whole deadline having passed. *)
Example closed_stream_is_a_timeout :
  let t := mkTurn second (Ok tt) [] (Some second) [] in
  (call_tool no_error t begun #"stats" (VObj [])).1 = Err (Timeout DEFAULT_TIMEOUT).
Proof. vm_compute. reflexivity. Qed.
End Example.
