(* ===== verification/Memory.v ===== *)
(** * Memory: the servers an agent's memory is read through
    ([crates/api/src/memory/pool.rs], [commands.rs], [state.rs])

    The panel holds one [engram-mcp] child for the whole file and a pool of
    children started for one agent each.  A read of one agent goes to that
    agent's child, started on the first read; the pool holds at most four,
    closes the least recently read to make room and closes any not read for ten
    minutes.

    The pool is a list with a sequence number per entry, from which the source
    removes by swapping with the last; [Recent] is what it promises: a list
    kept in order of use.  Commands run at once, each holding the state, the
    pool or one child's lock for one operation ([Prog]). *)
From S2P Require Import Prelude Text Json JsonCode Prog Mcp.

(** ** The pool *)

Definition MAX_SCOPED_SERVERS : nat := 4.
Definition IDLE_AFTER : Z := 600 * 1000000000.

Definition valid_agent_scope (agent_id : str) : bool :=
  negb (bool_decide (agent_id = [])) && (byte_len agent_id <=? 256) && negb (starts_with #"-" agent_id)
  && forallb ascii_graphic agent_id.

Section Pool.
Context {C : Type}.

Record Entry : Type := mkEntry { e_scope : str; client : C; last_used : Z; seq : Z }.
Record ScopePool : Type := mkPool { entries : list Entry; max : nat; idle : Z; next_seq : Z }.

Definition new (max : nat) (idle : Z) : ScopePool := mkPool [] (Nat.max max 1) idle 0.

(** [now.saturating_duration_since(last_used) <= idle]. *)
Definition fresh_at (idle now last_used : Z) : bool := Z.max 0 (now - last_used) <=? idle.
Definition close_idle (now : Z) (idle : Z) (es : list Entry) : list Entry :=
  List.filter (fun e => fresh_at idle now (last_used e)) es.

(** [iter().enumerate().min_by_key(|(_, e)| e.seq)]: the first of the least. *)
Fixpoint oldest (es : list Entry) : option (nat * Z) :=
  match es with
  | [] => None
  | e :: es =>
      match oldest es with
      | None => Some (0%nat, seq e)
      | Some (i, s) => if seq e <=? s then Some (0%nat, seq e) else Some (S i, s)
      end
  end.

(** [Vec::swap_remove] at an index of the vector. *)
Definition swap_remove (i : nat) (es : list Entry) : list Entry :=
  match last es with
  | None => es
  | Some e => if bool_decide (S i = length es) then removelast es else <[i := e]> (removelast es)
  end.

Definition close_least_recent (es : list Entry) : list Entry :=
  match oldest es with Some (i, _) => swap_remove i es | None => es end.

(** [while self.entries.len() >= self.max]: each turn removes an entry, so the
    length is fuel enough. *)
Fixpoint make_room (fuel : nat) (max : nat) (es : list Entry) : list Entry :=
  match fuel with
  | O => es
  | S fuel => if (max <=? length es)%nat then make_room fuel max (close_least_recent es) else es
  end.

(** [entries.iter_mut().find(..)] and the two assignments through it. *)
Fixpoint reuse (scope : str) (now seq' : Z) (es : list Entry) : option (C * list Entry) :=
  match es with
  | [] => None
  | e :: es =>
      if bool_decide (e_scope e = scope) then Some (client e, mkEntry (e_scope e) (client e) now seq' :: es)
      else let! (c, es) := reuse scope now seq' es in Some (c, e :: es)
  end.

(** [spawn] is the closure: what it returns and what it does to the state [st]
    around the pool; it runs only when no entry serves the scope. *)
Definition client_for {E S} (p : ScopePool) (scope : str) (now : Z) (spawn : S -> result C E * S) (st : S)
  : result C E * ScopePool * S :=
  let es := close_idle now (idle p) (entries p) in
  let seq := u64_add (next_seq p) 1 in
  match reuse scope now seq es with
  | Some (c, es) => (Ok c, mkPool es (max p) (idle p) seq, st)
  | None =>
      match spawn st with
      | (Err e, st) => (Err e, mkPool es (max p) (idle p) seq, st)
      | (Ok c, st) =>
          let es := make_room (length es) (max p) es in
          (Ok c, mkPool (es ++ [mkEntry scope c now seq]) (max p) (idle p) seq, st)
      end
  end.

Definition len (p : ScopePool) : nat := length (entries p).
Definition is_empty (p : ScopePool) : bool := Nat.eqb (len p) 0.

(** ** What the pool promises: a list in order of use, the latest first *)

Definition Held : Type := (str * C * Z).
Definition scope_of (h : Held) : str := h.1.1.

Definition recent_for {E S} (max : nat) (idle : Z) (l : list Held) (scope : str) (now : Z) (spawn : S -> result C E * S) (st : S)
  : result C E * list Held * S :=
  let l := List.filter (fun h : Held => fresh_at idle now h.2) l in
  match List.find (fun h => bool_decide (scope_of h = scope)) l with
  | Some h => (Ok h.1.2, (h.1, now) :: List.filter (fun h => negb (bool_decide (scope_of h = scope))) l, st)
  | None =>
      match spawn st with
      | (Err e, st) => (Err e, l, st)
      | (Ok c, st) => (Ok c, firstn max ((scope, c, now) :: l), st)
      end
  end.

Definition held (e : Entry) : Held := (e_scope e, client e, last_used e).
Definition later (a b : Entry) : Prop := seq b < seq a.

(** The pool is the list: its entries in the order of their numbers. *)
Definition is_recent (p : ScopePool) (l : list Held) : Prop :=
  exists es, Permutation es (entries p) /\ StronglySorted later es /\ l = map held es
    /\ NoDup (map e_scope es) /\ Forall (fun e => 0 < seq e <= next_seq p) es
    /\ (length es <= max p)%nat /\ (1 <= max p)%nat /\ 0 <= next_seq p.

(** *** Lemmas on the pool's steps *)

Lemma oldest_spec es i s :
  oldest es = Some (i, s) -> exists e, es !! i = Some e /\ seq e = s /\ Forall (fun x => s <= seq x) es.
Proof.
  revert i s; induction es as [|e es IH]; intros i s; [done|]. simpl.
  destruct (oldest es) as [[j t]|] eqn:E.
  - destruct (IH _ _ eq_refl) as (x&Hx&Hs&Hf). destruct (_ <=? _) eqn:Hle; b2p; intros [= <- <-].
    + exists e. split_and!; [done|done|]. constructor; [lia|]. eapply Forall_impl; [exact Hf|]. simpl. lia.
    + exists x. split_and!; [done|done|]. constructor; [lia|done].
  - intros [= <- <-]. exists e. split_and!; [done|done|]. constructor; [lia|].
    destruct es as [|x es]; [constructor|]. simpl in E. destruct (oldest es) as [[]|]; [destruct (_ <=? _)|]; done.
Qed.

Lemma swap_remove_perm i es e : es !! i = Some e -> Permutation es (e :: swap_remove i es).
Proof.
  intros Hi. unfold swap_remove. destruct es as [|x es' _] using rev_ind; [done|].
  rewrite last_snoc, removelast_last, length_app. simpl.
  case_bool_decide as Hl.
  - rewrite lookup_app_r in Hi by lia. replace (i - length es')%nat with 0%nat in Hi by lia.
    injection Hi as ->. by rewrite Permutation_app_comm.
  - assert (i < length es')%nat as Hlt by (apply lookup_lt_Some in Hi; rewrite length_app in Hi; simpl in Hi; lia).
    rewrite lookup_app_l in Hi by done. rewrite insert_take_drop by done.
    rewrite <- (take_drop_middle es' i e Hi) at 1.
    rewrite <- app_assoc. simpl. rewrite (Permutation_app_comm (drop (S i) es') [x]). simpl.
    symmetry. apply Permutation_middle.
Qed.

Lemma reuse_None scope now s es : reuse scope now s es = None <-> scope ∉ map e_scope es.
Proof.
  induction es as [|e es IH]; simpl; [split; [intros _ ?%elem_of_nil|]; done|]. rewrite not_elem_of_cons.
  case_bool_decide as H; [split; [done|intros [? _]; congruence]|].
  destruct (reuse _ _ _ es) as [[]|]; split; try done.
  - intros [_ Hn]. by apply IH in Hn.
  - intros _. split; [congruence|by apply IH].
Qed.

Lemma reuse_Some scope now s es c es' :
  reuse scope now s es = Some (c, es') ->
  exists a e b, es = a ++ e :: b /\ e_scope e = scope /\ client e = c /\ es' = a ++ mkEntry scope c now s :: b.
Proof.
  revert es'; induction es as [|e es IH]; intros es'; [done|]. simpl. case_bool_decide as H.
  - intros [= <- <-]. exists [], e, es. by subst scope.
  - destruct (reuse _ _ _ es) as [[c' es'']|]; [|done]. intros [= -> <-].
    destruct (IH _ eq_refl) as (a&x&b&->&?&?&->). by exists (e :: a), x, b.
Qed.

(** The entry that is closed to make room is the last of the recent ones. *)
Lemma close_least_recent_perm es z fr :
  Permutation (fr ++ [z]) es -> StronglySorted later (fr ++ [z]) -> Permutation fr (close_least_recent es).
Proof.
  intros Hp Hs. unfold close_least_recent. destruct (oldest es) as [[i s]|] eqn:E.
  - destruct (oldest_spec _ _ _ E) as (e&Hi&He&Hall). rewrite (swap_remove_perm i es e Hi) in Hp.
    assert (e = z) as ->; [|rewrite Permutation_app_comm in Hp; by apply Permutation_cons_inv in Hp].
    assert (Hin : e ∈ fr ++ [z]) by (rewrite Hp; left).
    apply elem_of_app in Hin as [Hin|Hin]; [|by apply list_elem_of_singleton in Hin].
    assert (z ∈ es) as Hz.
    { rewrite (swap_remove_perm i es e Hi), <- Hp. apply elem_of_app. right. left. }
    rewrite Forall_forall in Hall. apply Hall in Hz.
    pose proof (StronglySorted_app_1_elem_of _ _ _ e z Hs Hin ltac:(left)) as Hl. unfold later in Hl. lia.
  - destruct es as [|e es]; [by apply Permutation_length in Hp; rewrite length_app in Hp; simpl in Hp; lia|].
    simpl in E. destruct (oldest es) as [[]|]; [destruct (_ <=? _)|]; done.
Qed.

Lemma make_room_perm fuel max es rs :
  Permutation rs es -> StronglySorted later rs -> (length rs <= max)%nat -> (1 <= max)%nat -> (length es <= fuel)%nat ->
  Permutation (firstn (max - 1) rs) (make_room fuel max es).
Proof.
  intros Hp Hs Hle H1 Hf. pose proof (Permutation_length Hp) as Hlen. destruct fuel as [|fuel]; simpl.
  { destruct es; [|simpl in Hf; lia]. apply Permutation_sym, Permutation_nil in Hp as ->. by rewrite take_nil. }
  destruct (Nat.leb_spec max (length es)).
  - destruct rs as [|z fr _] using rev_ind; [simpl in *; lia|]. rewrite length_app in *. simpl in *.
    pose proof (close_least_recent_perm es z fr Hp Hs) as Hc. rewrite take_app_le, take_ge by lia.
    destruct fuel as [|fuel]; simpl; [done|]. apply Permutation_length in Hc as Hl.
    destruct (Nat.leb_spec max (length (close_least_recent es))); [lia|done].
  - rewrite take_ge by lia. done.
Qed.

Lemma find_recent es scope :
  List.find (fun h : Held => bool_decide (scope_of h = scope)) (map held es)
  = held <$> List.find (fun e => bool_decide (e_scope e = scope)) es.
Proof. induction es as [|e es IH]; [done|]. simpl. change (scope_of (held e)) with (e_scope e). by destruct (bool_decide _). Qed.

Lemma find_unique e es :
  NoDup (map e_scope es) -> e ∈ es -> List.find (fun x => bool_decide (e_scope x = e_scope e)) es = Some e.
Proof.
  intros Hd Hin. destruct (List.find _ es) as [x|] eqn:E.
  - apply find_some in E as [Hx Hs]. b2p. f_equal. eapply NoDup_map_inj; [exact Hd| |done|done]. by apply list_elem_of_In.
  - apply list_elem_of_In in Hin. by apply (find_none _ _ E), bool_decide_eq_false in Hin.
Qed.

Lemma others_of e es :
  NoDup (map e_scope (e :: es)) -> List.filter (fun x => negb (bool_decide (e_scope x = e_scope e))) (e :: es) = es.
Proof.
  simpl. intros [Hn _]%NoDup_cons. rewrite bool_decide_eq_true_2 by done. simpl.
  induction es as [|x es IH]; simpl; [done|]. simpl in Hn. apply not_elem_of_cons in Hn as [Hx Hn].
  rewrite bool_decide_eq_false_2 by congruence. simpl. f_equal. by apply IH.
Qed.

Lemma not_found scope es : scope ∉ map e_scope es -> List.find (fun x => bool_decide (e_scope x = scope)) es = None.
Proof.
  intros Hn. destruct (List.find _ es) as [x|] eqn:E; [|done]. apply find_some in E as [Hx Hs]. b2p.
  destruct Hn. rewrite <- Hs. by apply list_elem_of_In, in_map.
Qed.

(** One call of the pool is one step of the list in order of use. *)
Lemma client_for_recent {E S} p l scope now (spawn : S -> result C E * S) st :
  is_recent p l -> next_seq p < u64_max ->
  exists r p' l' st', client_for p scope now spawn st = (r, p', st')
    /\ recent_for (max p) (idle p) l scope now spawn st = (r, l', st')
    /\ is_recent p' l' /\ max p' = max p /\ idle p' = idle p /\ next_seq p' = next_seq p + 1.
Proof.
  intros (es&Hp&Hs&->&Hd&Hq&Hlen&H1&H0) Hlt. unfold client_for, recent_for. rewrite filter_map_swap. cbn [held snd].
  set (fresh := fun e : Entry => fresh_at (idle p) now (last_used e)).
  change (List.filter (fun a : Entry => fresh_at (idle p) now (last_used a)) es) with (List.filter fresh es).
  change (close_idle now (idle p) (entries p)) with (List.filter fresh (entries p)).
  assert (Hseq : u64_add (next_seq p) 1 = next_seq p + 1) by (apply u64_add_small; lia). rewrite Hseq.
  assert (Hpf : Permutation (List.filter fresh es) (List.filter fresh (entries p))) by (by rewrite Hp). pose proof (StronglySorted_filter later fresh _ Hs) as Hsf.
  assert (Hdf : NoDup (map e_scope (List.filter fresh es))).
  { clear -Hd. induction es as [|e es IH]; simpl in *; [constructor|]. apply NoDup_cons in Hd as [Hn Hd].
    destruct (fresh e); [|by apply IH]. apply NoDup_cons. split; [|by apply IH]. intros Hin. apply Hn.
    apply list_elem_of_In, in_map_iff in Hin as (x&<-&[Hx _]%filter_In). by apply list_elem_of_In, in_map. }
  assert (Hqf : Forall (fun e => 0 < seq e <= next_seq p) (List.filter fresh es)).
  { rewrite List.Forall_forall in Hq |- *. intros x [Hx _]%filter_In. by apply Hq. }
  assert (Hlf : (length (List.filter fresh es) <= max p)%nat) by (pose proof (filter_length_le fresh es); lia).
  revert Hpf Hsf Hdf Hqf Hlf. generalize (List.filter fresh es) as rs. generalize (List.filter fresh (entries p)) as qs.
  clear es Hp Hs Hd Hq Hlen. intros qs rs Hp Hs Hd Hq Hlen. rewrite find_recent.
  destruct (reuse scope now (next_seq p + 1) qs) as [[c qs']|] eqn:Er.
  - destruct (reuse_Some _ _ _ _ _ _ Er) as (a&e&b&->&<-&<-&->).
    assert (Hin : e ∈ rs) by (rewrite Hp; apply elem_of_app; right; left).
    rewrite find_unique by done. cbn [fmap option_fmap option_map]. eexists _, _, _, _. split; [reflexivity|]. split; [reflexivity|].
    split; [|done]. rewrite filter_map_swap.
    change (List.filter (fun x => negb (bool_decide (scope_of (held x) = e_scope e))) rs)
      with (List.filter (fun x => negb (bool_decide (e_scope x = e_scope e))) rs).
    set (rest := List.filter _ rs).
    assert (Hrest : Permutation rest (a ++ b)).
    { unfold rest. rewrite Hp, <- Permutation_middle.
      rewrite others_of; [done|]. change (NoDup (map e_scope (e :: a ++ b))). by rewrite (Permutation_middle a b e), <- Hp. }
    exists (mkEntry (e_scope e) (client e) now (next_seq p + 1) :: rest). cbn [entries max idle next_seq].
    assert (Hqr : Forall (fun x => 0 < seq x <= next_seq p) rest).
    { rewrite List.Forall_forall in Hq |- *. intros x [Hx _]%filter_In. by apply Hq. }
    split_and!; [by rewrite Hrest, Permutation_middle| |done| | | |done|lia].
    + constructor; [by apply StronglySorted_filter|]. eapply Forall_impl; [exact Hqr|]. unfold later. simpl. lia.
    + cbn [map e_scope]. rewrite Hrest. change (NoDup (map e_scope (e :: a ++ b))). by rewrite (Permutation_middle a b e), <- Hp.
    + constructor; [simpl; lia|]. eapply Forall_impl; [exact Hqr|]. simpl. lia.
    + cbn [length]. rewrite Hrest. rewrite Hp in Hlen. rewrite length_app in *. simpl in *. lia.
  - apply reuse_None in Er. rewrite not_found by (by rewrite Hp). cbn [fmap option_fmap option_map].
    destruct (spawn st) as [[c|x] st'].
    + eexists _, _, _, _. split; [reflexivity|]. split; [reflexivity|]. split; [|done].
      exists (mkEntry scope c now (next_seq p + 1) :: firstn (max p - 1) rs). cbn [entries max idle next_seq].
      pose proof (make_room_perm _ _ _ _ Hp Hs Hlen H1 (le_n _)) as Hroom.
      assert (Hqr : Forall (fun x => 0 < seq x <= next_seq p) (firstn (max p - 1) rs)) by (by apply Forall_take).
      split_and!; [by rewrite Hroom, Permutation_app_comm| | | | | |done|lia].
      * constructor; [|eapply Forall_impl; [exact Hqr|]; unfold later; simpl; lia].
        rewrite <- (take_drop (max p - 1) rs) in Hs. by apply StronglySorted_app_1_l in Hs.
      * destruct (max p); [lia|]. cbn [firstn map held]. by rewrite Nat.sub_succ, Nat.sub_0_r, firstn_map.
      * cbn [map e_scope]. apply NoDup_cons. rewrite <- firstn_map. split.
        { intros Hin%elem_of_take. destruct Hin as (i&Hi&_). apply list_elem_of_lookup_2 in Hi. by rewrite Hp in Hi. }
        { rewrite <- (take_drop (max p - 1) (map e_scope rs)) in Hd. by apply NoDup_app in Hd as [? _]. }
      * constructor; [simpl; lia|]. eapply Forall_impl; [exact Hqr|]. simpl. lia.
      * cbn [length]. rewrite length_take. lia.
    + eexists _, _, _, _. split; [reflexivity|]. split; [reflexivity|]. split; [|done].
      exists rs. cbn [entries max idle next_seq]. split_and!; try done; [|lia].
      eapply Forall_impl; [exact Hq|]. simpl. lia.
Qed.
(** Calls of the pool in turn. *)
Definition Use (E S : Type) : Type := (str * Z * (S -> result C E * S))%type.

Fixpoint used {E S} (us : list (Use E S)) (p : ScopePool) (st : S) : list (result C E) * ScopePool * S :=
  match us with
  | [] => ([], p, st)
  | (scope, now, spawn) :: us =>
      let '(r, p, st) := client_for p scope now spawn st in
      let '(rs, p, st) := used us p st in (r :: rs, p, st)
  end.
Fixpoint recent_used {E S} (max : nat) (idle : Z) (us : list (Use E S)) (l : list Held) (st : S)
  : list (result C E) * list Held * S :=
  match us with
  | [] => ([], l, st)
  | (scope, now, spawn) :: us =>
      let '(r, l, st) := recent_for max idle l scope now spawn st in
      let '(rs, l, st) := recent_used max idle us l st in (r :: rs, l, st)
  end.

(** C22: The pool of per-agent servers is the list of the most recently read
    ones.  Whatever agents are read, at whatever times, and however the starts
    of servers end, the pool built by [new] - a vector searched for its least
    number and emptied by swapping with the last - gives each read the server,
    or the error, that a list kept in order of use would give, starts a server
    in the same calls, and holds the same servers: at most [max] of them and at
    most one per agent, none of them unread for longer than [idle] at the last
    call, and the least recently read closed first. *)
Theorem pool_is_the_recent_servers {E S} (bound : nat) (idle_for : Z) (us : list (Use E S)) (st : S) :
  Z.of_nat (length us) <= u64_max ->
  exists rs p l st', used us (new bound idle_for) st = (rs, p, st')
    /\ recent_used (Nat.max bound 1) idle_for us [] st = (rs, l, st')
    /\ is_recent p l /\ (len p <= Nat.max bound 1)%nat.
Proof.
  intros Hlen.
  assert (H : forall (us : list (Use E S)) p l (st : S), is_recent p l -> next_seq p + Z.of_nat (length us) <= u64_max ->
    exists rs p' l' st', used us p st = (rs, p', st') /\ recent_used (max p) (idle p) us l st = (rs, l', st')
      /\ is_recent p' l' /\ max p' = max p).
  { clear. intros us. induction us as [|[[scope now] spawn] us IH]; intros p l st Hr Hb; [by exists [], p, l, st|].
    cbn [length] in Hb. destruct (client_for_recent p l scope now spawn st Hr ltac:(lia)) as (r&p1&l1&st1&E1&E2&Hr1&Hm&Hi&Hn).
    destruct (IH p1 l1 st1 Hr1 ltac:(lia)) as (rs&p2&l2&st2&E3&E4&Hr2&Hm2). rewrite Hm, Hi in E4.
    exists (r :: rs), p2, l2, st2. cbn [used recent_used]. rewrite E1, E2, E3, E4. split_and!; [done|done|done|congruence]. }
  assert (Hnew : is_recent (new bound idle_for) []).
  { exists []. cbn [new entries max next_seq]. split_and!; [done|constructor|done|constructor|constructor|simpl; lia|lia|lia]. }
  destruct (H us _ _ st Hnew) as (rs&p&l&st'&E1&E2&Hr&Hm); [cbn [new next_seq]; lia|].
  exists rs, p, l, st'. split_and!; [done|exact E2|done|].
  destruct Hr as (es&Hp&_&_&_&_&Hl&_). unfold len. rewrite <- Hp. rewrite Hm in Hl. exact Hl.
Qed.
End Pool.
Arguments Entry : clear implicits.
Arguments ScopePool : clear implicits.
Arguments Held : clear implicits.

(** ** The panel ([state.rs], [commands.rs]) *)

Inductive EnvSource : Type := Taipan (name : str) | WellKnown.
Record ResolvedEnv : Type := mkResolved { r_source : EnvSource; r_engram_mcp_bin : str; r_db_path : str }.

(** A handle of a child and of the pool stand for their [Arc]s. *)
Record MemoryClient : Type := mkMemoryClient
  { source : EnvSource; engram_mcp_bin : str; db_path : str; whole : nat; scoped : nat }.
Inductive MemoryInner : Type :=
| Bootstrapping
| NoEnvironment
| Unreachable (source : EnvSource) (engram_mcp_bin db_path reason : str)
| Ready (client : MemoryClient).

Inductive MemoryStatusDto : Type :=
| SBootstrapping
| SNoEnvironment
| SUnreachable (source : EnvSource) (engram_mcp_bin db_path reason : str)
| SReady (source : EnvSource) (engram_mcp_bin db_path : str).
Inductive MemoryError : Type := EBootstrapping | ENoEnvironment | EUnreachable (reason : str) | EMcp (message : str).

Definition status_dto (inner : MemoryInner) : MemoryStatusDto :=
  match inner with
  | Bootstrapping => SBootstrapping
  | NoEnvironment => SNoEnvironment
  | Unreachable source bin db reason => SUnreachable source bin db reason
  | Ready c => SReady (source c) (engram_mcp_bin c) (db_path c)
  end.

Definition read_scope (agent_id : option str) : result (option str) MemoryError :=
  match agent_id with
  | None => Ok None
  | Some id =>
      if bool_decide (id = []) then Ok None
      else if valid_agent_scope id then Ok (Some id)
      else Err (EMcp #"an agent name must be one printable word; no engram-mcp was started for it")
  end.

(** The Display of a failure ([thiserror]); [debug_duration] is [Duration]'s
    Debug. *)
Definition mcp_text (debug_duration : Z -> str) (e : McpError) : str :=
  match e with
  | Spawn command source => #"mcp spawn " ++ command ++ #": " ++ source
  | Io e => #"mcp io: " ++ e
  | Protocol m => #"mcp protocol: " ++ m
  | Rpc code m => #"mcp rpc error " ++ dec code ++ #": " ++ m
  | Tool m => #"mcp tool error: " ++ m
  | Scope m => #"mcp scope: " ++ m
  | Timeout d => #"mcp timeout/closed after " ++ debug_duration d
  end.

(** *** The state and the operations on it *)

(** Every child the panel started, and every pool. *)
Record Panel : Type := mkPanel
  { inner : MemoryInner; servers : gmap nat EngramClient; pools : gmap nat (ScopePool nat); next : nat }.
Definition pending : Panel := mkPanel Bootstrapping ∅ ∅ 0.

Inductive Query : Type :=
| Stats (agent_id : option str)
| Recall (query : str) (limit : Z) (mode : str) (agent_id : option str)
| Why (memory_id : str)
| Forget (memory_id : str).
Inductive Reply : Type :=
| RStats (x : EngramStats)
| RRecall (x : list EngramMemory)
| RWhy (x : EngramProvenance)
| RForget (x : ForgetResult).

(** The agent a query is about; [why] and [forget] name none. *)
Definition agent_of (q : Query) : option str :=
  match q with Stats a => a | Recall _ _ _ a => a | Why _ | Forget _ => None end.

Inductive op : Type :=
| Boot                                  (* [env::discover], [spawn_client] *)
| Install (x : MemoryInner)             (* [*state.inner.lock() = x] *)
| Look                                  (* [state.inner.lock()], cloned *)
| Target (m : MemoryClient) (scope : str)  (* [scoped.lock()], [client_for] *)
| Ask (n : nat) (q : Query).            (* [lock_engram], one call *)

(** An operation that may start a child also says which arguments the child it
    started runs with. *)
Definition resp (o : op) : Type :=
  match o with
  | Boot => MemoryInner * option (list str)
  | Install _ => unit
  | Look => MemoryInner
  | Target _ _ => result nat McpError * option (list str)
  | Ask _ _ => result Reply McpError
  end%type.

Inductive event : Type :=
| Booted (started : option (list str)) (x : MemoryInner)
| Installed (x : MemoryInner)
| Looked (x : MemoryInner)
| Targeted (m : MemoryClient) (scope : str) (started : option (list str)) (r : result nat McpError)
| Asked (n : nat) (q : Query) (r : result Reply McpError).

Definition event_of (o : op) (_ : Z) : resp o -> event :=
  match o with
  | Boot => fun x => Booted x.2 x.1
  | Install x => fun _ => Installed x
  | Look => Looked
  | Target m s => fun x => Targeted m s x.2 x.1
  | Ask n q => Asked n q
  end.

Section Panel.
Context {JT : JsonText} {SH : EngramShapes} (json_error : str -> str) (debug_duration : Z -> str) (version : str).

(** What the outside does during one operation. *)
Record Outside : Type := mkOutside
  { o_time : Z; discovered : option ResolvedEnv; child : list str -> result unit str; hello : Turn;
    noted : result unit (nat * str); turn : Turn }.

(** [EngramClient::spawn], its child filed under the next handle. *)
Definition start_child (e : Outside) (bin db : str) (agent_id : option str) (s : Panel) : result nat McpError * Panel :=
  match engram_spawn json_error version bin (child e) (hello e) (noted e) db agent_id with
  | Err x => (Err x, s)
  | Ok c => (Ok (next s), mkPanel (inner s) (<[next s := c]> (servers s)) (pools s) (S (next s)))
  end.

Definition spawn_client (e : Outside) (r : ResolvedEnv) (s : Panel) : MemoryInner * Panel :=
  match start_child e (r_engram_mcp_bin r) (r_db_path r) None s with
  | (Ok n, s) =>
      (Ready (mkMemoryClient (r_source r) (r_engram_mcp_bin r) (r_db_path r) n n),
       mkPanel (inner s) (servers s) (<[n := new MAX_SCOPED_SERVERS IDLE_AFTER]> (pools s)) (next s))
  | (Err x, s) => (Unreachable (r_source r) (r_engram_mcp_bin r) (r_db_path r) (mcp_text debug_duration x), s)
  end.

Definition ask_engram (t : Turn) (c : EngramClient) (q : Query) : result Reply McpError * EngramClient :=
  match q with
  | Stats a => let '(r, c) := stats json_error t c a in (let? x := r in Ok (RStats x), c)
  | Recall query limit mode a => let '(r, c) := recall json_error t c query limit mode a in (let? x := r in Ok (RRecall x), c)
  | Why id => let '(r, c) := why json_error t c id in (let? x := r in Ok (RWhy x), c)
  | Forget id => let '(r, c) := forget json_error t c id in (let? x := r in Ok (RForget x), c)
  end.

(** The arguments of the child filed between two states, if one was. *)
Definition started_between (s s' : Panel) : option (list str) :=
  if bool_decide (next s' = next s) then None
  else (fun c => c_args (Mcp.child (mcp c))) <$> servers s' !! next s.

Definition perform (e : Outside) (o : op) (s : Panel) : resp o * Panel :=
  match o with
  | Boot =>
      match discovered e with
      | None => ((NoEnvironment, None), s)
      | Some r => let '(x, s') := spawn_client e r s in ((x, started_between s s'), s')
      end
  | Install x => (tt, mkPanel x (servers s) (pools s) (next s))
  | Look => (inner s, s)
  | Target m scope =>
      match pools s !! scoped m with
      | None => ((Err (Protocol #"scoped engram pool mutex poisoned"), None), s)
      | Some p =>
          let '(r, p, s') := client_for p scope (o_time e) (start_child e (engram_mcp_bin m) (db_path m) (Some scope)) s in
          ((r, started_between s s'),
           mkPanel (inner s') (servers s') (<[scoped m := p]> (pools s')) (next s'))
      end
  | Ask n q =>
      match servers s !! n with
      | None => (Err (Protocol #"engram client mutex poisoned"), s)
      | Some c => let '(r, c) := ask_engram (turn e) c q in (r, mkPanel (inner s) (<[n := c]> (servers s)) (pools s) (next s))
      end
  end.

(** *** The commands *)

Abbreviation program := (@prog op resp).
#[local] Arguments Do {op resp A} & _ _.
#[local] Notation "'ask!' x <- p ; k" :=
  (bind p (fun r => match r with Ok x => k | Err e => Ret (Err e) end))
  (at level 10, x name, p at level 100, k at level 200) : prog_scope.

Definition ready_client : program (result MemoryClient MemoryError) :=
  do x <- Look;
  match x with
  | Ready c => Ret (Ok c)
  | Bootstrapping => Ret (Err EBootstrapping)
  | NoEnvironment => Ret (Err ENoEnvironment)
  | Unreachable _ _ _ reason => Ret (Err (EUnreachable reason))
  end.

Definition bootstrap : program unit :=
  do x <- Boot; do _ <- Install x.1; Ret tt.

Definition memory_status : program MemoryStatusDto := do x <- Look; Ret (status_dto x).

Definition target_client (m : MemoryClient) (scope : option str) : program (result nat McpError) :=
  match scope with
  | None => Ret (Ok (whole m))
  | Some scope => do x <- Target m scope; Ret x.1
  end.

(** The closure of [run_blocking], and [From<McpError>]. *)
Definition run_query (m : MemoryClient) (scope : option str) (q : Query) : program (result Reply MemoryError) :=
  do! t <- target_client m scope;
  match t with
  | Err e => Ret (Err (EMcp (mcp_text debug_duration e)))
  | Ok n => do r <- Ask n q; Ret (map_err (fun e => EMcp (mcp_text debug_duration e)) r)
  end.

Definition memory_stats (agent_id : option str) : program (result Reply MemoryError) :=
  match read_scope agent_id with
  | Err e => Ret (Err e)
  | Ok scope => ask! m <- ready_client; run_query m scope (Stats scope)
  end.
Definition memory_recall (query : str) (limit : Z) (mode : str) (agent_id : option str) : program (result Reply MemoryError) :=
  match read_scope agent_id with
  | Err e => Ret (Err e)
  | Ok scope => ask! m <- ready_client; run_query m scope (Recall query limit mode scope)
  end.
Definition memory_why (memory_id : str) : program (result Reply MemoryError) :=
  ask! m <- ready_client; run_query m None (Why memory_id).
Definition memory_forget (memory_id : str) : program (result Reply MemoryError) :=
  ask! m <- ready_client; run_query m None (Forget memory_id).

Inductive Request : Type :=
| BootR | StatusR | StatsR (a : option str) | RecallR (q : str) (limit : Z) (mode : str) (a : option str) | WhyR (id : str) | ForgetR (id : str).
Inductive Response : Type := Done | AStatus (x : MemoryStatusDto) | AReply (r : result Reply MemoryError).

Definition handle (r : Request) : program Response :=
  match r with
  | BootR => do! _ <- bootstrap; Ret Done
  | StatusR => do! x <- memory_status; Ret (AStatus x)
  | StatsR a => do! x <- memory_stats a; Ret (AReply x)
  | RecallR q l m a => do! x <- memory_recall q l m a; Ret (AReply x)
  | WhyR id => do! x <- memory_why id; Ret (AReply x)
  | ForgetR id => do! x <- memory_forget id; Ret (AReply x)
  end.
End Panel.

(** ** Every read reaches the server of its agent *)

Section Reach.
Context {JT : JsonText} {SH : EngramShapes} (json_error : str -> str) (debug_duration : Z -> str) (version : str).
Abbreviation perform := (perform json_error debug_duration version).
Abbreviation handle := (handle debug_duration).
Abbreviation step := (sys_step event_of handle perform o_time (fun _ _ => False)).

Definition serves (s : Panel) (n : nat) (scope : option str) : Prop :=
  exists c, servers s !! n = Some c /\ Mcp.scope c = scope.

Definition not_scope {A} (r : result A McpError) : Prop := forall m, r <> Err (Mcp.Scope m).

Lemma call_tool_not_scope t c name args : not_scope (call_tool json_error t c name args).1.
Proof.
  intros m. unfold call_tool. destruct (take_id c) as [id c1]. destruct (send _ c1 _) as [[[]|e] c2] eqn:Es; simpl.
  - unfold recv_response. destruct (recv_loop _ _ _ _ _ _ _ _) as [[r rest] z] eqn:E.
    apply recv_loop_spec in E as [_ Hr]. destruct r as [v|e]; simpl.
    + unfold result_or_rpc_err. destruct (get #"error" v); [done|]. destruct (get #"result" v) as [x|]; [|done]. simpl.
      unfold parse_tool_result. cases.
    + intros [= ->]. done.
  - unfold send in Es. destruct (wrote t) as [|[? ?]]; simplify_eq/=. done.
Qed.

Lemma typed_call_spec {A} (reader : value -> result A str) what t c name args :
  not_scope (typed_call json_error reader what t c name args).1
  /\ Mcp.scope (typed_call json_error reader what t c name args).2 = Mcp.scope c.
Proof.
  unfold typed_call. pose proof (call_tool_not_scope t (mcp c) name args) as H.
  destruct (call_tool _ _ _ _ _) as [[v|e] c1]; simpl in *; (split; [|done]).
  - intros m. simpl. destruct (reader v); done.
  - intros m [= ->]. by eapply H.
Qed.

(** A query never changes what a child serves, and is refused for its agent
    only by a child of another scope. *)
Lemma ask_engram_spec t c q :
  Mcp.scope (ask_engram json_error t c q).2 = Mcp.scope c
  /\ (match q with Stats a | Recall _ _ _ a => Mcp.scope c = a | _ => True end -> not_scope (ask_engram json_error t c q).1).
Proof.
  destruct q as [a|qu l m a|id|id]; unfold ask_engram, stats, recall, why, forget, stats_args, recall_args, check_scope.
  1,2: case_bool_decide as Ha; simpl; [|split; [done|by intros E]].
  all: match goal with |- context [typed_call _ ?f ?w ?t ?c ?n ?x] =>
         pose proof (typed_call_spec f w t c n x) as [H Hs]; destruct (typed_call _ f w t c n x) as [[v|e] c1] end;
    simpl in *; (split; [done|]); intros _ k; simpl; try done; intros [= ->]; by eapply H.
Qed.

Lemma client_for_scopes {S} (p : ScopePool nat) scope now (spawn : S -> result nat McpError * S) st r p' st' :
  client_for p scope now spawn st = (r, p', st') ->
  (forall e, e ∈ entries p' -> (exists e', e' ∈ entries p /\ e_scope e' = e_scope e /\ client e' = client e)
     \/ e_scope e = scope /\ spawn st = (Ok (client e), st'))
  /\ match r with
     | Ok n => (exists e', e' ∈ entries p /\ e_scope e' = scope /\ client e' = n) /\ st' = st \/ spawn st = (Ok n, st')
     | Err x => spawn st = (Err x, st')
     end.
Proof.
  unfold client_for. set (es := close_idle now (idle p) (entries p)).
  assert (Hsub : forall e, e ∈ es -> e ∈ entries p).
  { intros e He. apply list_elem_of_In in He. apply filter_In in He as [He _]. by apply list_elem_of_In. }
  destruct (reuse _ _ _ es) as [[c es']|] eqn:Er.
  - intros [= <- <- <-]. destruct (reuse_Some _ _ _ _ _ _ Er) as (a&e0&b&Hes&<-&<-&->). cbn [entries].
    assert (Hin : e0 ∈ entries p) by (apply Hsub; rewrite Hes; apply elem_of_app; right; left).
    split; [|left; split; [by exists e0|done]]. intros e He. left.
    apply elem_of_app in He as [He|[->|He]%elem_of_cons]; [|by exists e0|]; exists e; (split; [|done]); apply Hsub; rewrite Hes; apply elem_of_app; [by left|by right; right].
  - destruct (spawn st) as [[c|x] st1] eqn:Es; intros [= <- <- <-]; cbn [entries]; (split; [|auto]).
    + intros e [He|He%list_elem_of_singleton]%elem_of_app; [|right; by subst e].
      left. exists e. split; [|done]. apply Hsub. clear -He. clearbody es. revert He. generalize (length es) as fuel. intros fuel. revert es.
      induction fuel as [|fuel IH]; intros es; [done|]. simpl. destruct (_ <=? _)%nat; [|done]. intros He. apply IH in He.
      unfold close_least_recent in He. destruct (oldest es) as [[i s]|] eqn:Eo; [|done].
      destruct (oldest_spec _ _ _ Eo) as (z&Hz&_&_). rewrite (swap_remove_perm i es z Hz). by right.
    + intros e He. left. exists e. auto.
Qed.

(** The child of handle [n] was started for this scope: with the arguments of
    the whole file at the bootstrap, or with the agent's at its first read. *)
Definition started_for (h : list (sys_event event Request)) (n : nat) (scope : option str) : Prop :=
  match scope with
  | None => exists j m, Did j (Booted (Some (spawn_args (db_path m) None)) (Ready m)) ∈ h /\ whole m = n
  | Some a => valid_agent_scope a = true
      /\ exists j m, Did j (Targeted m a (Some (spawn_args (db_path m) (Some a))) (Ok n)) ∈ h
  end.
Definition reached (h : list (sys_event event Request)) (n : nat) (q : Query) (r : result Reply McpError) : Prop :=
  started_for h n (agent_of q) /\ not_scope r.

(** What a command has seen when it performs an operation. *)
Definition seen (tr : list event) (o : op) : Prop :=
  match o with
  | Install x => exists st, Booted st x ∈ tr
  | Target m a => valid_agent_scope a = true /\ Looked (Ready m) ∈ tr
  | Ask n q =>
      match agent_of q with
      | Some a => exists m st, Targeted m a st (Ok n) ∈ tr
      | None => exists m, Looked (Ready m) ∈ tr /\ whole m = n
      end
  | _ => True
  end.

(** What the state keeps, and what each event of the past promises of it. *)
Record kept (h : list (sys_event event Request)) (s : Panel) : Prop := mkKept
  { k_next : forall n c, servers s !! n = Some c -> (n < next s)%nat;
    k_origin : forall n c, servers s !! n = Some c -> started_for h n (Mcp.scope c);
    k_pools : forall k p e, pools s !! k = Some p -> e ∈ entries p -> serves s (client e) (Some (e_scope e));
    k_inner : forall m, inner s = Ready m -> exists j st, Did j (Booted st (Ready m)) ∈ h }.

Definition owed (h : list (sys_event event Request)) (s : Panel) (se : sys_event event Request) : Prop :=
  match se with
  | Did _ (Booted _ (Ready m)) => serves s (whole m) None
  | Did _ (Looked (Ready m)) => exists j st, Did j (Booted st (Ready m)) ∈ h
  | Did _ (Targeted _ a _ (Ok n)) => serves s n (Some a)
  | Did _ (Asked n q r) => reached h n q r
  | _ => True
  end.

Definition coherent (h : list (sys_event event Request)) (s : Panel) : Prop :=
  kept h s /\ forall h1 h2 se, h = h1 ++ se :: h2 -> owed h1 s se.

Definition grows (s s' : Panel) : Prop := forall n sc, serves s n sc -> serves s' n sc.

Lemma grows_insert s n c i p k :
  (forall c', servers s !! n = Some c' -> Mcp.scope c' = Mcp.scope c) -> grows s (mkPanel i (<[n := c]> (servers s)) p k).
Proof.
  intros H n' sc (c'&Hc&Hs). destruct (decide (n = n')) as [<-|Hn].
  - exists c. simpl. rewrite lookup_insert_eq. split; [done|]. rewrite <- Hs. symmetry. by apply H.
  - exists c'. simpl. by rewrite lookup_insert_ne.
Qed.

Lemma started_for_mono h se n sc : started_for h n sc -> started_for (h ++ [se]) n sc.
Proof.
  destruct sc; simpl; [intros [Hv (j&m&H)]; split; [done|]|intros (j&m&H&Hw)]; exists j, m;
    rewrite ?elem_of_app; auto.
Qed.

Lemma kept_snoc h se s : kept h s -> kept (h ++ [se]) s.
Proof.
  intros [H1 H2 H3 H4]. split; [done| |done|].
  - intros n c Hc. by apply started_for_mono, H2.
  - intros m Hm. destruct (H4 m Hm) as (j&st&H). exists j, st. apply elem_of_app. by left.
Qed.

(** One step: what it keeps, that nothing kept is lost, and what it owes. *)
Lemma coherent_snoc h s se s' :
  coherent h s -> grows s s' -> kept (h ++ [se]) s' -> owed h s' se -> coherent (h ++ [se]) s'.
Proof.
  intros [_ Ho] Hg Hk He. split; [done|]. intros h1 h2 se' [(->&->&_)|(h3&_&->)]%split_snoc; [done|].
  specialize (Ho h1 h3 se' eq_refl). destruct se' as [|j e|]; [done| |done].
  destruct e as [st [| | |m]| |[| | |m]|m a st [n|]|]; simpl in *; auto.
Qed.

Lemma start_child_spec e bin db a s r s' :
  start_child json_error version e bin db a s = (r, s') ->
  match r with
  | Err _ => s' = s
  | Ok n => n = next s /\ exists c, Mcp.scope c = a /\ c_args (Mcp.child (mcp c)) = spawn_args db a
      /\ s' = mkPanel (inner s) (<[n := c]> (servers s)) (pools s) (S n)
  end.
Proof.
  unfold start_child. destruct (engram_spawn _ _ _ _ _ _ _ _) as [c|x] eqn:E; intros [= <- <-]; [|done].
  apply engram_spawn_child in E as [? Ec]. split; [done|]. exists c. by rewrite Ec.
Qed.

(** A new child under the next handle. *)
Lemma kept_new h s c se k :
  kept h s -> k = S (next s) -> started_for (h ++ [se]) (next s) (Mcp.scope c) ->
  kept (h ++ [se]) (mkPanel (inner s) (<[next s := c]> (servers s)) (pools s) k)
  /\ grows s (mkPanel (inner s) (<[next s := c]> (servers s)) (pools s) k).
Proof.
  intros Hk -> Hst. pose proof Hk as [H1 H2 H3 H4].
  assert (Hg : grows s (mkPanel (inner s) (<[next s := c]> (servers s)) (pools s) (S (next s)))).
  { apply grows_insert. intros c' Hc. apply H1 in Hc. lia. }
  split; [|done]. apply kept_snoc with (se := se) in Hk. destruct Hk as [H1' H2' H3' H4']. split; simpl; [| | |done].
  - intros n c' [[<- <-]|[_ Hc]]%lookup_insert_Some; [lia|]. apply H1 in Hc. lia.
  - intros n c' [[<- <-]|[_ Hc]]%lookup_insert_Some; [done|]. by apply H2'.
  - intros k p e Hp He. by apply Hg, (H3 k p).
Qed.

Lemma coherent_in h s se : coherent h s -> se ∈ h -> exists h1 h2, h = h1 ++ se :: h2 /\ owed h1 s se.
Proof. intros [_ Ho] (h1&h2&E)%list_elem_of_split. eauto. Qed.

(** The child a command asks serves what the command asks about. *)
Lemma seen_serves h s i n q : coherent h s -> seen (trace_of i h) (Ask n q) -> serves s n (agent_of q).
Proof.
  intros Hc. simpl. destruct (agent_of q) as [a|].
  - intros (m&st&Hin). apply elem_of_trace_of in Hin. by destruct (coherent_in _ _ _ Hc Hin) as (h1&h2&_&Ho).
  - intros (m&Hin&<-). apply elem_of_trace_of in Hin.
    destruct (coherent_in _ _ _ Hc Hin) as (h1&h2&->&j&st&Hb).
    destruct (coherent_in _ _ (Did j (Booted st (Ready m))) Hc) as (h3&h4&_&Ho); [|done]. apply elem_of_app. by left.
Qed.

Lemma coherent_same h s se : coherent h s -> owed h s se -> coherent (h ++ [se]) s.
Proof. intros Hc Ho. eapply coherent_snoc; [exact Hc|by intros n|by apply kept_snoc, Hc|done]. Qed.

Lemma target_coherent h i m a e s x s' :
  coherent h s -> valid_agent_scope a = true ->
  perform e (Target m a) s = (x, s') -> coherent (h ++ [Did i (event_of (Target m a) 0 x)]) s'.
Proof.
  intros Hc Hv. simpl. destruct (pools s !! scoped m) as [p|] eqn:Hp; [|intros [= <- <-]; by apply coherent_same].
  destruct (client_for _ _ _ _ _) as [[r p'] s1] eqn:Ec. intros [= <- <-]. cbn [fst snd].
  destruct (client_for_scopes _ _ _ _ _ _ _ _ Ec) as [He Hr]. set (se := Did _ _).
  set (spawn := start_child json_error version e (engram_mcp_bin m) (db_path m) (Some a)) in *.
  assert (Hsp : forall n, spawn s = (Ok n, s1) -> n = next s /\ exists c, Mcp.scope c = Some a
    /\ c_args (Mcp.child (mcp c)) = spawn_args (db_path m) (Some a) /\ s1 = mkPanel (inner s) (<[next s := c]> (servers s)) (pools s) (S (next s))).
  { intros n Es. destruct (start_child_spec _ _ _ _ _ _ _ Es) as [-> Hx]. done. }
  assert (Hcase : s1 = s \/ exists n, spawn s = (Ok n, s1) /\ r = Ok n).
  { destruct r as [n|z]; [destruct Hr as [[_ ?]|?]; eauto|]. left. exact (start_child_spec _ _ _ _ _ _ _ Hr). }
  assert (Hs1 : grows s s1 /\ kept (h ++ [se]) s1 /\ pools s1 = pools s).
  { destruct Hcase as [->|(n&Es&Er)]; [split_and!; [by intros n|by apply kept_snoc, Hc|done]|].
    destruct (Hsp n Es) as [-> (c&Hsc&Harg&E1)].
    destruct (kept_new h s c se _ (proj1 Hc) eq_refl) as [Hk Hg].
    - rewrite Hsc. split; [done|]. exists i, m. apply elem_of_app. right. apply list_elem_of_singleton. unfold se.
      unfold started_between. rewrite Er, E1. cbn [next servers]. rewrite bool_decide_eq_false_2, lookup_insert_eq by lia.
      simpl. by rewrite Harg.
    - rewrite <- E1 in Hk, Hg. split_and!; [exact Hg|exact Hk|by rewrite E1]. }
  destruct Hs1 as (Hg&[K1 K2 K3 K4]&Hps).
  assert (Hnew : forall n, spawn s = (Ok n, s1) -> serves s1 n (Some a)).
  { intros n Es. destruct (Hsp n Es) as [-> (c&Hsc&_&->)]. exists c. simpl. by rewrite lookup_insert_eq. }
  assert (Hold : forall z, z ∈ entries p -> serves s1 (client z) (Some (e_scope z)))
    by (intros z Hz; by apply Hg, (k_pools _ _ (proj1 Hc) (scoped m) p)).
  apply coherent_snoc with (s := s); [done|exact Hg| |].
  - split; [exact K1|exact K2| |exact K4]. intros k q z. simpl. rewrite Hps. intros [[<- <-]|[_ Hq]]%lookup_insert_Some Hz.
    + destruct (He z Hz) as [(z'&Hz'&<-&<-)|[-> Hn]]; [by apply Hold|by apply Hnew].
    + by apply Hg, (k_pools _ _ (proj1 Hc) k q).
  - unfold se. simpl. destruct r as [n|]; [|done]. destruct Hr as [[(z&Hz&<-&<-) _]|Hn]; [by apply Hold|by apply Hnew].
Qed.

Lemma boot_coherent h i e s x s' :
  coherent h s -> perform e Boot s = (x, s') -> coherent (h ++ [Did i (event_of Boot 0 x)]) s'.
Proof.
  intros Hc. simpl. destruct (discovered e) as [r|]; [|intros [= <- <-]; by apply coherent_same].
  unfold spawn_client. destruct (start_child _ _ _ _ _ _ _) as [[n|z] s1] eqn:Es; pose proof (start_child_spec _ _ _ _ _ _ _ Es) as Hs;
    intros [= <- <-]; cbn [fst snd]; [|rewrite Hs; by apply coherent_same].
  destruct Hs as [-> (c&Hsc&Harg&->)]. cbn [inner servers pools next].
  unfold started_between. cbn [servers next]. rewrite bool_decide_eq_false_2, lookup_insert_eq by lia. simpl fmap. rewrite Harg.
  set (se := Did _ _).
  destruct (kept_new h s c se _ (proj1 Hc) eq_refl) as [[K1 K2 K3 K4] Hg].
  { rewrite Hsc. exists i, (mkMemoryClient (r_source r) (r_engram_mcp_bin r) (r_db_path r) (next s) (next s)).
    split; [apply elem_of_app; right; by apply list_elem_of_singleton|done]. }
  eapply coherent_snoc; [exact Hc|exact Hg| |].
  - split; [exact K1|exact K2| |exact K4]. intros k q z. simpl. intros [[<- <-]|[_ Hq]]%lookup_insert_Some Hz; [by apply elem_of_nil in Hz|].
    by apply (K3 k q).
  - simpl. exists c. simpl. by rewrite lookup_insert_eq.
Qed.

Lemma perform_coherent h i o e s x s' :
  coherent h s -> seen (trace_of i h) o -> perform e o s = (x, s') -> coherent (h ++ [Did i (event_of o (o_time e) x)]) s'.
Proof.
  intros Hc Hseen. destruct o as [|y| |m a|n q].
  - by apply boot_coherent.
  - simpl. intros [= <- <-]. destruct Hseen as [st Hb]. apply elem_of_trace_of in Hb.
    eapply coherent_snoc; [exact Hc|by intros n| |done].
    pose proof (kept_snoc h (Did i (Installed y)) s (proj1 Hc)) as [K1 K2 K3 K4]. split; [done|done|done|]. simpl.
    intros m ->. exists i, st. apply elem_of_app. by left.
  - simpl. intros [= <- <-]. apply coherent_same; [done|]. simpl. destruct (inner s) eqn:E; [done..|]. by apply (k_inner _ _ (proj1 Hc)).
  - destruct Hseen as [Hv _]. by apply target_coherent.
  - intros Hp. destruct (seen_serves _ _ _ _ _ Hc Hseen) as (c&Hl&Hs). simpl in Hp. rewrite Hl in Hp.
    pose proof (ask_engram_spec (turn e) c q) as [Hsc Hns].
    destruct (ask_engram json_error (turn e) c q) as [r c'] eqn:Ea. injection Hp as <- <-. simpl in *.
    assert (Hg : grows s (mkPanel (inner s) (<[n := c']> (servers s)) (pools s) (next s)))
      by (apply grows_insert; intros z Hz; congruence).
    eapply coherent_snoc; [exact Hc|exact Hg| |].
    + pose proof (kept_snoc h (Did i (Asked n q r)) s (proj1 Hc)) as [K1 K2 K3 K4]. split; simpl; [| | |done].
      * intros n' z [[<- _]|[_ Hz]]%lookup_insert_Some; [by apply (K1 n c)|by apply (K1 n' z)].
      * intros n' z [[<- <-]|[_ Hz]]%lookup_insert_Some; [|by apply K2]. rewrite Hsc. by apply K2.
      * intros k p z Hk Hz. by apply Hg, (K3 k p).
    + simpl. split; [rewrite <- Hs; by apply (k_origin _ _ (proj1 Hc))|]. apply Hns. destruct q; done.
Qed.

(** Every command looks before it asks. *)
Lemma read_scope_valid a scope : read_scope a = Ok (Some scope) -> valid_agent_scope scope = true.
Proof. destruct a as [a|]; [|done]. simpl. case_bool_decide; [done|]. destruct (valid_agent_scope a) eqn:E; [|done]. by intros [= <-]. Qed.

Lemma run_query_seen tr m scope q :
  Looked (Ready m) ∈ tr -> agent_of q = scope -> (forall a, scope = Some a -> valid_agent_scope a = true) ->
  wp event_of seen tr (run_query debug_duration m scope q) (fun _ _ => True).
Proof.
  intros Hl Hq Hv. destruct scope as [a|]; unfold run_query, target_client; simpl.
  - split; [split; [by apply Hv|done]|]. intros t [[n|x] st]; simpl; [|done]. split; [|done]. rewrite Hq.
    exists m, st. apply elem_of_app. right. by apply list_elem_of_singleton.
  - split; [|done]. rewrite Hq. eauto.
Qed.

Lemma ready_then tr (k : MemoryClient -> prog resp (result Reply MemoryError)) :
  (forall m, wp event_of seen (tr ++ [Looked (Ready m)]) (k m) (fun _ _ => True)) ->
  wp event_of seen tr (bind ready_client (fun r => match r with Ok x => k x | Err e => Ret (Err e) end)) (fun _ _ => True).
Proof. intros H. unfold ready_client. simpl. split; [done|]. intros t [| | |m]; simpl; [done..|]. by apply H. Qed.

Lemma handle_seen r : wp event_of seen [] (handle r) (fun _ _ => True).
Proof.
  assert (Hread : forall m scope q, agent_of q = scope -> (forall a, scope = Some a -> valid_agent_scope a = true) ->
    wp event_of seen ([] ++ [Looked (Ready m)]) (run_query debug_duration m scope q) (fun _ _ => True))
    by (intros; apply run_query_seen; [by left|done|done]).
  destruct r as [| |a|q l mo a|id|id]; unfold handle.
  - simpl. split; [done|]. intros t [x st]. simpl. split; [|done]. exists st. by left.
  - simpl. split; [done|]. done.
  - apply wp_bind, (wp_mono _ _ _ _ (fun _ _ => True)); [|done]. unfold memory_stats. destruct (read_scope a) as [scope|] eqn:E; [|done].
    apply ready_then. intros m. apply Hread; [done|]. intros b ->. by apply (read_scope_valid a).
  - apply wp_bind, (wp_mono _ _ _ _ (fun _ _ => True)); [|done]. unfold memory_recall. destruct (read_scope a) as [scope|] eqn:E; [|done].
    apply ready_then. intros m. apply Hread; [done|]. intros b ->. by apply (read_scope_valid a).
  - apply wp_bind, (wp_mono _ _ _ _ (fun _ _ => True)); [|done]. apply ready_then. intros m. by apply Hread.
  - apply wp_bind, (wp_mono _ _ _ _ (fun _ _ => True)); [|done]. apply ready_then. intros m. by apply Hread.
Qed.

Lemma coherent_run t h sy :
  run step (initial pending t) h sy -> audited event_of seen h sy /\ coherent h (sys_state sy).
Proof.
  intros Hr. eapply (history_invariant event_of handle perform o_time (fun _ _ => False)
    (fun h sy => audited event_of seen h sy /\ coherent h (sys_state sy))); [exact Hr| |].
  - split.
    + split; [|split]; simpl; [by intros i p|done|by intros [] h2 i e].
    + split; [by split|]. intros h1 h2 se E. by destruct h1.
  - clear h sy Hr. intros h sy se sy' [Ha Hc] Hs.
    assert (Ha' : audited event_of seen (h ++ [se]) sy') by (eapply audited_step; [exact handle_seen|exact Ha|exact Hs]).
    split; [done|]. destruct Hs as [s T n z r|s T n z i o k e x s' Hi Htm Hp|s T n z s' []]; simpl in *.
    + by apply coherent_same.
    + apply perform_coherent with (s := s); [done| |done]. destruct Ha as (Ht&_&_). by destruct (Ht i _ Hi) as [_ [? _]].
Qed.

(** C16: A read of an agent's memory reaches that agent's server.  In every
    interleaving of the panel's commands and its bootstrap, whatever the
    children and the file system answer: a call that asks about an agent goes
    to a child that was started earlier with [--agent-id] and exactly that
    agent, a name that is not empty, all printable and no flag; a call for the
    whole file, every [why] and every [forget] go to a child started with the
    store and no agent; and no call is ever refused for asking a child of
    another scope. *)
Theorem read_reaches_its_agents_server t h sy h1 h2 i n q r :
  run step (initial pending t) h sy -> h = h1 ++ Did i (Asked n q r) :: h2 ->
  match agent_of q with
  | Some a => a <> [] /\ forallb ascii_graphic a = true /\ starts_with #"-" a = false
      /\ exists j m, Did j (Targeted m a (Some [ #"--db"; db_path m; #"--agent-id"; a]) (Ok n)) ∈ h1
  | None => exists j m, Did j (Booted (Some [ #"--db"; db_path m]) (Ready m)) ∈ h1 /\ whole m = n
  end
  /\ forall m, r <> Err (Mcp.Scope m).
Proof.
  intros Hr E. destruct (coherent_run t h sy Hr) as [_ [_ Ho]]. destruct (Ho _ _ _ E) as [Hst Hns].
  split; [|exact Hns]. unfold started_for in Hst. destruct (agent_of q) as [a|]; [|exact Hst].
  destruct Hst as [Hv (j&m&Hin)]. unfold valid_agent_scope in Hv. b2p. split_and!; [tauto..|by exists j, m].
Qed.
End Reach.

(** ** Runs *)

Module Example.
#[local] Existing Instance code_json.
#[local] Instance shapes : EngramShapes := {|
  stats_of := fun v => match v with VNum (NInt n) => Ok (mkStats None (mkCounts n 0 0) 0 0 0 0 0 0 [] None) | _ => Err #"not a count" end;
  memories_of := fun _ => Ok []; provenance_of := fun _ => Err #"none"; forget_of := fun _ => Err #"none" |}.
Definition no_error (_ : str) : str := [].
Definition shown (_ : Z) : str := #"60s".

Definition bot : str := #"agent://acme.example/support/bot".
Definition other : str := #"agent://acme.example/support/other".

(** A pool of two, with starts numbered as they happen. *)
Definition numbered (n : nat) : result nat str * nat := (Ok n, S n).
Definition refused (n : nat) : result nat str * nat := (Err #"no binary", S n).
Definition reads : list (Use (C := nat) str nat) :=
  [(bot, 0, numbered); (other, 1, numbered); (bot, 2, numbered); (#"third", 3, refused); (#"third", 4, numbered);
   (bot, 5, numbered); (other, 6, numbered)].
Example least_recent_is_closed :
  (used reads (new 2 600) 0%nat).1.1 = [Ok 0; Ok 1; Ok 0; Err #"no binary"; Ok 3; Ok 0; Ok 4]%nat
  /\ map e_scope (entries (used reads (new 2 600) 0%nat).1.2) = [bot; other].
Proof. vm_compute. split; reflexivity. Qed.

Lemma pool_is_the_recent_servers_witness :
  exists rs p l st', used reads (new 2 600) 0%nat = (rs, p, st')
    /\ recent_used 2 600 reads [] 0%nat = (rs, l, st') /\ is_recent p l /\ (len p <= 2)%nat.
Proof. apply (pool_is_the_recent_servers 2 600 reads 0%nat). by vm_compute. Defined.

(** A server that answers its handshake and one count. *)
Definition answer (id n : Z) : Z * str :=
  (0, code_text (obj [ (#"id", VNum (NInt id)); (#"result", obj [ (#"structuredContent", VNum (NInt n))])])).
Definition works (at_ : Z) : Outside :=
  mkOutside at_ (Some (mkResolved WellKnown #"/bin/engram-mcp" #"/home/op/.taipan/.engram")) (fun _ => Ok tt)
    (mkTurn at_ (Ok tt) [answer 0 0] None []) (Ok tt) (mkTurn at_ (Ok tt) [answer 1 7] None []).
Definition perform := perform no_error shown #"1".
Definition handle := handle shown.

(** The bootstrap, one read of the whole file and one of an agent. *)
Definition acts : list (action Request Outside) :=
  [Arrive BootR; Perform 0 (works 0); Perform 0 (works 1); Arrive (StatsR None); Arrive (StatsR (Some bot));
   Perform 1 (works 2); Perform 2 (works 3); Perform 2 (works 4); Perform 1 (works 5); Perform 2 (works 6)].
Definition ran := history event_of handle perform o_time (initial pending 0) acts.

Definition calls : list (nat * option str * bool) :=
  omap (fun se => match se with Did _ (Asked n q r) => Some (n, agent_of q, is_ok r) | _ => None end) ran.
Example each_read_has_its_server : calls = [(0%nat, None, true); (1%nat, Some bot, true)].
Proof. vm_compute. reflexivity. Qed.

Definition query : Query := Stats (Some bot).
Definition count : Reply := RStats (mkStats None (mkCounts 7 0 0) 0 0 0 0 0 0 [] None).

Lemma read_reaches_its_agents_server_witness :
  removelast ran ++ [Did 2 (Asked 1 query (Ok count))] = ran
  /\ (match agent_of query with
      | Some a => a <> [] /\ forallb ascii_graphic a = true /\ starts_with #"-" a = false
          /\ exists j m, Did j (Targeted m a (Some [ #"--db"; db_path m; #"--agent-id"; a]) (Ok 1%nat)) ∈ removelast ran
      | None => exists j m, Did j (Booted (Some [ #"--db"; db_path m]) (Ready m)) ∈ removelast ran /\ whole m = 1%nat
      end
      /\ forall m, Ok count <> Err (Mcp.Scope m)).
Proof.
  split; [vm_compute; reflexivity|].
  apply (read_reaches_its_agents_server no_error shown #"1" 0 ran
           (final event_of handle perform o_time (initial pending 0) acts) (removelast ran) [] 2 1 query (Ok count)).
  - apply history_run. vm_compute. reflexivity.
  - vm_compute. reflexivity.
Defined.

(** A child that has ended is handed out for as long as its agent is read: each
    read that fails renews the entry it came from. *)
Definition ended (at_ : Z) : Outside :=
  mkOutside at_ None (fun _ => Ok tt) (mkTurn at_ (Ok tt) [answer 0 0] None []) (Ok tt)
    (mkTurn at_ (Err (0%nat, #"Broken pipe")) [] (Some at_) []).
Definition minute : Z := 60 * 1000000000.
Definition dead : list (action Request Outside) :=
  concat (map (fun i => let t := Z.of_nat i * 9 * minute in
                        [Arrive (StatsR (Some bot)); Perform (2 + i) (ended t); Perform (2 + i) (ended t); Perform (2 + i) (ended t)])
            (List.seq 1 5)).
Definition minutes_later := history event_of handle perform o_time (initial pending 0) (acts ++ dead).
Example dead_server_is_handed_out_again :
  omap (fun se => match se with Did _ (Targeted _ _ st r) => Some (st, rok r) | _ => None end) minutes_later
  = (Some [ #"--db"; #"/home/op/.taipan/.engram"; #"--agent-id"; bot], Some 1%nat) :: repeat (None, Some 1%nat) 5
  /\ omap (fun se => match se with Did _ (Asked 1 _ r) => Some (is_ok r) | _ => None end) minutes_later = [true; false; false; false; false; false].
Proof. vm_compute. split; reflexivity. Qed.
End Example.
