(* ===== verification/Discover.v ===== *)
(** * Discover: the environment each plane of the console finds
    ([crates/api/src/*/env.rs], [identity/state.rs])

    Every plane looks for its own service: it lists the descriptors that
    [taipan up] left in the environments directory, the newest first, and takes
    the first that has what it needs; some have a fixed place or variables to
    fall back on.  The planes share no code in the source, each has its copy of
    the search; here the search is one definition ([discover_in]) and a plane is
    what it loads from one descriptor.

    The disk and the variables at the moment of the search are a [World].  A
    path that is not UTF-8 does not occur.  A descriptor is read as the value
    serde_json makes of it. *)
From S2P Require Import Prelude Text Json JsonCode.
From S2P Require ProofRun Feed.
From S2P Require Import Onboard.

Record World : Type := mkWorld
  { var : str -> option str; names : str -> option (list str); mtime : str -> option Z;
    read : str -> option (list Z); is_file : str -> bool; is_dir : str -> bool }.

(** [Path::join]: an absolute name replaces the directory. *)
Definition join (dir name : str) : str := if Feed.is_absolute name then name else ProofRun.join_path dir name.
Definition joins (dir : str) (ns : list str) : str := fold_left join ns dir.

Definition environments_dir (w : World) : option str := Feed.environments_dir (var w #"TAIPAN_HOME") (var w #"HOME").

(** ** The search *)

(** A file of a directory, as [read_dir] names it. *)
Record Candidate : Type := mkCandidate { c_dir : str; c_name : str }.
Definition path (c : Candidate) : str := join (c_dir c) (c_name c).
(** [with_file_name]. *)
Definition sibling (c : Candidate) (name : str) : str := join (c_dir c) name.

Definition is_descriptor_name (name : str) : bool :=
  ends_with #".json" name && negb (ends_with #".keys.json" name) && negb (ends_with #".pid.json" name).
Definition list_descriptor_paths (w : World) (dir : str) : list Candidate :=
  match names w dir with
  | None => []
  | Some ns => map (mkCandidate dir) (List.filter is_descriptor_name ns)
  end.
(** A file whose time is not known is as old as the epoch. *)
Definition modified_time (w : World) (c : Candidate) : Z := default 0 (mtime w (path c)).
Definition newer (w : World) (a b : Candidate) : bool := modified_time w b <=? modified_time w a.
Definition discover_in {A} (w : World) (try_load : Candidate -> option A) (dir : str) : option A :=
  Feed.find_map try_load (isort (newer w) (list_descriptor_paths w dir)).

(** ** What serde reads of a descriptor *)

(** A struct is read from an object by name or from an array by position. *)
Definition fields (ns : list str) (v : value) : option (list (option value)) :=
  match v with
  | VObj ms => Some (map (fun n => obj_get n ms) ns)
  | VArr vs => if (length vs <=? length ns)%nat then Some (map Some vs ++ repeat None (length ns - length vs)) else None
  | _ => None
  end.
Definition map_of {A} (reader : value -> option A) (v : value) : option (list (str * A)) :=
  match v with VObj ms => mapM (fun kv => (fun a => (kv.1, a)) <$> reader kv.2) ms | _ => None end.
Definition look {A} (k : str) (m : list (str * A)) : option A :=
  match List.find (fun kv => str_eqb kv.1 k) m with Some kv => Some kv.2 | None => None end.

Definition service_of (v : value) : option str :=
  match fields [ #"url"] v with Some [Some (VStr url)] => Some url | _ => None end.
Definition opt_string_of (v : value) : option (option str) :=
  match v with VNull => Some None | VStr s => Some (Some s) | _ => None end.
(** [Option] and [default]: nothing when the field is not there. *)
Definition key_ref_of (field : str) (v : option value) : option (option str) :=
  match v with
  | None => Some None
  | Some v =>
      match fields [field] v with
      | Some [None] => Some None
      | Some [Some x] => opt_string_of x
      | _ => None
      end
  end.
Definition events_of (v : option value) : option (str * list (str * str)) :=
  match v with
  | None => Some ([], [])
  | Some v =>
      match fields [ #"dir"; #"files"] v with
      | Some [d; f] =>
          let! d := match d with None => Some [] | Some d => as_str d end in
          let! f := match f with None => Some [] | Some f => map_of as_str f end in
          Some (d, f)
      | _ => None
      end
  end.

Section Load.
Context {JT : JsonText}.

Definition read_json (w : World) (p : str) : option value := let! bytes := read w p in json_of bytes.

(** The three shapes of [Descriptor]: name and services; those and one
    reference of [keys]; those and the events. *)
Definition plain_descriptor (w : World) (c : Candidate) : option (str * list (str * str)) :=
  let! v := read_json w (path c) in
  match fields [ #"name"; #"services"] v with
  | Some [Some (VStr name); Some s] => let! services := map_of service_of s in Some (name, services)
  | _ => None
  end.
Definition keyed_descriptor (field : str) (w : World) (c : Candidate) : option (str * list (str * str) * option str) :=
  let! v := read_json w (path c) in
  match fields [ #"name"; #"services"; #"keys"] v with
  | Some [Some (VStr name); Some s; k] =>
      let! services := map_of service_of s in
      let! ref := key_ref_of field k in
      Some (name, services, ref)
  | _ => None
  end.

(** [KeyFile]. *)
Definition keyfile_of (v : value) : option (list (str * str)) :=
  match fields [ #"secrets"] v with
  | Some [None] => Some []
  | Some [Some s] => map_of as_str s
  | _ => None
  end.
(** [rsplit('/').next()]: always there. *)
Definition label_of (ref : str) : str := match rsplit_once #"/" ref with Some (_, label) => label | None => ref end.
Definition keys_path (c : Candidate) (name : str) : str := sibling c (name ++ #".keys.json").
Definition secret (w : World) (c : Candidate) (name ref : str) : option str :=
  let! v := read_json w (keys_path c name) in
  let! secrets := keyfile_of v in
  look (label_of ref) secrets.
End Load.

Inductive EnvSource : Type := Taipan (name : str) | WellKnown | EnvFallback.

(** ** The planes *)

(** The Cloud and the policy service: a URL and the bearer that goes with it. *)
Module Keyed.
Record ResolvedEnv_keyed : Type := mkResolved { source : EnvSource; url : str; admin_bearer : str }.

Section Keyed.
Context {JT : JsonText}.
Definition try_load_descriptor_keyed (service field : str) (w : World) (c : Candidate) : option ResolvedEnv_keyed :=
  let! (name, services, ref) := keyed_descriptor field w c in
  let! url := look service services in
  let! ref := ref in
  let! bearer := secret w c name ref in
  Some (mkResolved (Taipan name) url bearer).
Definition env_fallback_from (fallback : str) (url admin_bearer : option str) : option ResolvedEnv_keyed :=
  let! bearer := admin_bearer in
  if bool_decide (trim bearer = []) then None
  else
    let url := match url with Some u => if bool_decide (trim u = []) then fallback else u | None => fallback end in
    Some (mkResolved EnvFallback url bearer).
Definition discover_with (service field : str) (fallback : option ResolvedEnv_keyed) (w : World) : option ResolvedEnv_keyed :=
  match (let! dir := environments_dir w in discover_in w (try_load_descriptor_keyed service field w) dir) with
  | Some env => Some env
  | None => fallback
  end.
End Keyed.
End Keyed.

Module Money.
Section Money.
Context {JT : JsonText}.
Definition FALLBACK_CLOUD_URL : str := #"http://127.0.0.1:8080".
Definition ADMIN_KEY_ENV_VAR_money : str := #"TOKENFUSE_CLOUD_ADMIN_KEY".
Definition URL_ENV_VAR_money : str := #"TOKENFUSE_CLOUD_URL".
Definition try_load_money := Keyed.try_load_descriptor_keyed #"cloud" #"cloud_admin_ref".
Definition discover_env_fallback_money (w : World) : option Keyed.ResolvedEnv_keyed :=
  Keyed.env_fallback_from FALLBACK_CLOUD_URL (var w URL_ENV_VAR_money) (var w ADMIN_KEY_ENV_VAR_money).
Definition discover_money (w : World) : option Keyed.ResolvedEnv_keyed :=
  Keyed.discover_with #"cloud" #"cloud_admin_ref" (discover_env_fallback_money w) w.
End Money.
End Money.

Module Policy.
Section Policy.
Context {JT : JsonText}.
Definition FALLBACK_WARDRYX_URL : str := #"http://127.0.0.1:8090".
Definition URL_ENV_VAR_policy : str := #"WARDRYX_URL".
Definition ADMIN_KEY_ENV_VAR_policy : str := #"WARDRYX_ADMIN_KEY".
Definition try_load_policy := Keyed.try_load_descriptor_keyed #"wardryx" #"wardryx_admin_ref".
Definition discover_env_fallback_policy (w : World) : option Keyed.ResolvedEnv_keyed :=
  Keyed.env_fallback_from FALLBACK_WARDRYX_URL (var w URL_ENV_VAR_policy) (var w ADMIN_KEY_ENV_VAR_policy).
Definition discover_policy (w : World) : option Keyed.ResolvedEnv_keyed :=
  Keyed.discover_with #"wardryx" #"wardryx_admin_ref" (discover_env_fallback_policy w) w.
End Policy.
End Policy.

(** [~/.taipan/bin/<name>]. *)
Definition well_known_bin (w : World) (name : str) : option str :=
  let! home := var w #"HOME" in
  let candidate := joins home [ #".taipan"; #"bin"; name] in
  if is_file w candidate then Some candidate else None.

(** The sources idryx takes; [console] is the evidence plane's own. *)
Definition BUS_SOURCES : list str := [ #"tokenfuse"; #"wardryx"; #"mockryx"; #"verdryx"].
Definition one_of (names : list str) (s : str) : bool := existsb (str_eqb s) names.

Module Identity.
Section Identity.
Context {JT : JsonText}.
Record ResolvedEnv_identity : Type := mkResolved
  { source : EnvSource; idryx_url : str; events_dir : option str; event_files : list (str * str) }.

Definition try_load_descriptor_identity (w : World) (c : Candidate) : option ResolvedEnv_identity :=
  let! v := read_json w (path c) in
  match fields [ #"name"; #"services"; #"events"] v with
  | Some [Some (VStr name); Some s; e] =>
      let! services := map_of service_of s in
      let! (dir, files) := events_of e in
      let! url := look #"idryx" services in
      Some (mkResolved (Taipan name) url (if bool_decide (trim dir = []) then None else Some dir) files)
  | _ => None
  end.
Definition discover_identity (w : World) : option ResolvedEnv_identity :=
  let! dir := environments_dir w in discover_in w (try_load_descriptor_identity w) dir.

Definition ACCEPTED_LOAD_SOURCES_identity : list str := BUS_SOURCES.
Definition resolve_idryx_bin (w : World) : option str := well_known_bin w #"idryx".
Definition resolve_rescan_loads (w : World) (events_dir : option str) (event_files : list (str * str)) : list (str * str) :=
  match events_dir with
  | None => []
  | Some dir =>
      List.filter (fun l => is_file w l.2)
        (map (fun sf => (sf.1, join dir sf.2))
           (List.filter (fun sf : str * str => one_of ACCEPTED_LOAD_SOURCES_identity sf.1) event_files))
  end.
End Identity.
End Identity.

(** A store named by a service of a descriptor, or at a fixed place. *)
Module Quality.
Section Quality.
Context {JT : JsonText}.
Record ResolvedEnv_quality : Type := mkResolved { source : EnvSource; db_path : str }.

Definition try_load_descriptor_quality (w : World) (c : Candidate) : option ResolvedEnv_quality :=
  let! (name, services) := plain_descriptor w c in
  let! raw := look #"verdryx" services in
  if is_file w raw then Some (mkResolved (Taipan name) raw) else None.
Definition well_known_db_path (w : World) : option str :=
  let! home := var w #"HOME" in Some (joins home [ #".taipan"; #"verdryx.db"]).
Definition discover_well_known (w : World) : option ResolvedEnv_quality :=
  let! candidate := well_known_db_path w in
  if is_file w candidate then Some (mkResolved WellKnown candidate) else None.
Definition discover_quality (w : World) : option ResolvedEnv_quality :=
  match (let! dir := environments_dir w in discover_in w (try_load_descriptor_quality w) dir) with
  | Some env => Some env
  | None => discover_well_known w
  end.
End Quality.
End Quality.

Module Crypto.
Record ResolvedEnv_crypto : Type := mkResolved { qryx_bin : str; default_target : str }.
Definition discover_crypto (w : World) : option ResolvedEnv_crypto :=
  let! home := var w #"HOME" in
  let bin := joins home [ #".taipan"; #"bin"; #"qryx"] in
  if is_file w bin then Some (mkResolved bin (default home (var w #"GENARYX_SCAN_TARGET"))) else None.
End Crypto.

Module Drills.
Section Drills.
Context {JT : JsonText}.
Record ResolvedEnv_drills : Type := mkResolved
  { source : EnvSource; mockryx_bin : str; gateway_url : str; api_key : option str; scenario_dir : option str }.

Definition checkout_bin_path (home : str) : str := joins home [ #"Development"; #"mockryx"; #"bin"; #"mockryx"].
Definition discover_bin_drills (w : World) : option str :=
  let! home := var w #"HOME" in
  match well_known_bin w #"mockryx" with
  | Some bin => Some bin
  | None => if is_file w (checkout_bin_path home) then Some (checkout_bin_path home) else None
  end.
Definition resolve_admin_bearer (w : World) (c : Candidate) (name : str) (ref : option str) : option str :=
  let! ref := ref in secret w c name ref.
Definition try_load_descriptor_drills (w : World) (c : Candidate) : option (EnvSource * str * option str) :=
  let! (name, services, ref) := keyed_descriptor #"cloud_admin_ref" w c in
  let! url := look #"gateway" services in
  Some (Taipan name, url, resolve_admin_bearer w c name ref).
Definition discover_gateway_drills (w : World) : option (EnvSource * str * option str) :=
  let! dir := environments_dir w in discover_in w (try_load_descriptor_drills w) dir.
Definition discover_scenario_dir (w : World) : option str :=
  let! home := var w #"HOME" in
  let candidate := joins home [ #"Development"; #"mockryx"; #"scenarios"] in
  if is_dir w candidate then Some candidate else None.
Definition discover_drills (w : World) : option ResolvedEnv_drills :=
  let! bin := discover_bin_drills w in
  let! (source, url, key) := discover_gateway_drills w in
  Some (mkResolved source bin url key (discover_scenario_dir w)).
End Drills.
End Drills.

Module Memory.
Section Memory.
Context {JT : JsonText}.
Record ResolvedEnv_memory : Type := mkResolved { source : EnvSource; engram_mcp_bin : str; db_path : str }.

(** [env::split_paths]. *)
Definition split_paths (p : str) : list str := split_char 58 p.
Definition find_on_path (w : World) (name : str) (dirs : list str) : option str :=
  Feed.find_map (fun dir => let p := join dir name in if is_file w p then Some p else None) dirs.
Definition venv_bin_path (home : str) : str := joins home [ #"Development"; #"engram"; #".venv"; #"bin"; #"engram-mcp"].
Definition discover_bin_memory (w : World) : option str :=
  match well_known_bin w #"engram-mcp" with
  | Some bin => Some bin
  | None =>
      match (let! p := var w #"PATH" in find_on_path w #"engram-mcp" (split_paths p)) with
      | Some bin => Some bin
      | None => let! home := var w #"HOME" in if is_file w (venv_bin_path home) then Some (venv_bin_path home) else None
      end
  end.
Definition valid_store_path (w : World) (raw : str) : option str :=
  let trimmed := trim raw in
  if bool_decide (trimmed = []) || str_eqb trimmed #":memory:" then None
  else if is_file w trimmed then Some trimmed else None.
Definition try_load_descriptor_memory (w : World) (c : Candidate) : option (EnvSource * str) :=
  let! (name, services) := plain_descriptor w c in
  let! raw := look #"engram" services in
  let! candidate := valid_store_path w raw in
  Some (Taipan name, candidate).
Definition discover_well_known_db (w : World) : option (EnvSource * str) :=
  let! home := var w #"HOME" in
  (fun p => (WellKnown, p)) <$> valid_store_path w (joins home [ #".taipan"; #".engram"]).
Definition discover_db (w : World) : option (EnvSource * str) :=
  match (let! dir := environments_dir w in discover_in w (try_load_descriptor_memory w) dir) with
  | Some found => Some found
  | None => discover_well_known_db w
  end.
Definition discover_memory (w : World) : option ResolvedEnv_memory :=
  let! bin := discover_bin_memory w in
  let! (source, db) := discover_db w in
  Some (mkResolved source bin db).
End Memory.
End Memory.

(** The gateway, for the credentials and the admission planes: the key is a
    variable, whatever descriptor gives the URL. *)
Module Gateway.
Section Gateway.
Context {JT : JsonText}.
Record ResolvedEnv_gateway : Type := mkResolved { source : EnvSource; gateway_url : str; admin_key : option str }.

Definition ADMIN_KEY_ENV_VAR_gateway : str := #"TOKENFUSE_GATEWAY_ADMIN_KEY".
Definition admin_key_from (raw : option str) : option str :=
  let! raw := raw in
  let trimmed := trim raw in
  if bool_decide (trimmed = []) then None else Some trimmed.
Definition admin_key_from_env (w : World) : option str := admin_key_from (var w ADMIN_KEY_ENV_VAR_gateway).
Definition try_load_descriptor_gateway (w : World) (c : Candidate) : option ResolvedEnv_gateway :=
  let! (name, services) := plain_descriptor w c in
  let! url := look #"gateway" services in
  Some (mkResolved (Taipan name) url (admin_key_from_env w)).
Definition discover_gateway (w : World) : option ResolvedEnv_gateway :=
  let! dir := environments_dir w in discover_in w (try_load_descriptor_gateway w) dir.
End Gateway.
End Gateway.

Module Admission.
Section Admission.
Context {JT : JsonText}.
Definition discover_gateway_admission : World -> option Gateway.ResolvedEnv_gateway := Gateway.discover_gateway.
Record VerdryxBinResolution : Type := mkBin { path : str; exists_ : bool }.
Definition taipan_home (w : World) : str :=
  match var w #"TAIPAN_HOME" with
  | Some home => home
  | None => match var w #"HOME" with Some home => join home #".taipan" | None => #".taipan" end
  end.
Definition resolve_verdryx_bin (w : World) : VerdryxBinResolution :=
  let p := joins (taipan_home w) [ #"bin"; #"verdryx"] in mkBin p (is_file w p).
Definition resolve_verdryx_db : World -> option Quality.ResolvedEnv_quality := Quality.discover_quality.
Definition drills_scenario_dir_default : World -> option str := Drills.discover_scenario_dir.
End Admission.
End Admission.

Module Evidence.
Section Evidence.
Context {JT : JsonText}.
Definition ACCEPTED_LOAD_SOURCES_evidence : list str := BUS_SOURCES ++ [ #"console"].
Definition IDRYX_LOAD_PREFIXES : list str := BUS_SOURCES.
Definition CONSOLE_EVENTS_FILE : str := #"console.ndjson".
Definition idryx_load_prefix (source : str) : str := if one_of IDRYX_LOAD_PREFIXES source then source else #"tokenfuse".

Record ResolvedIdryx : Type := mkIdryx { idryx_bin : str; loads : list (str * str) }.
Record ResolvedTokenfuse : Type := mkTokenfuse { tokenfuse_bin : str; default_traces_dir : option str }.
Record DescriptorExtras : Type := mkExtras { name : str; events_dir : option str; event_files : list (str * str) }.

Definition try_load_descriptor_evidence (w : World) (c : Candidate) : option DescriptorExtras :=
  let! v := read_json w (path c) in
  match fields [ #"name"; #"events"] v with
  | Some [Some (VStr name); e] =>
      let! (dir, files) := events_of e in
      Some (mkExtras name (if bool_decide (trim dir = []) then None else Some dir) files)
  | _ => None
  end.
Definition newest_descriptor_in (w : World) (dir : str) : option DescriptorExtras := discover_in w (try_load_descriptor_evidence w) dir.

(** A [Path] equals another by its components. *)
Definition agent_bom_loads (w : World) (events_dir : option str) (event_files : list (str * str)) : list (str * str) :=
  match events_dir with
  | None => []
  | Some dir =>
      let loads :=
        List.filter (fun l => is_file w l.2)
          (map (fun sf => (idryx_load_prefix sf.1, join dir sf.2))
             (List.filter (fun sf : str * str => one_of ACCEPTED_LOAD_SOURCES_evidence sf.1) event_files)) in
      let console := join dir CONSOLE_EVENTS_FILE in
      if is_file w console && negb (existsb (fun l => Feed.same_path l.2 console) loads)
      then loads ++ [(idryx_load_prefix #"console", console)] else loads
  end.
Definition discover_qryx : World -> option Crypto.ResolvedEnv_crypto := Crypto.discover_crypto.
Definition discover_idryx (w : World) : option ResolvedIdryx :=
  let! bin := well_known_bin w #"idryx" in
  let extras := let! dir := environments_dir w in newest_descriptor_in w dir in
  Some (mkIdryx bin (match extras with Some x => agent_bom_loads w (events_dir x) (event_files x) | None => [] end)).
Definition discover_tokenfuse (w : World) : option ResolvedTokenfuse :=
  let! bin := well_known_bin w #"tokenfuse-gateway" in
  Some (mkTokenfuse bin
    (let! dir := environments_dir w in
     let! extras := newest_descriptor_in w dir in
     let candidate := joins dir [name extras ++ #".traces"; #"gateway"] in
     if is_dir w candidate then Some candidate else None)).
End Evidence.
End Evidence.

(** ** What the search finds *)

Section Found.
Context (w : World).

Lemma newer_is_total a b : newer w a b = true \/ newer w b a = true.
Proof. unfold newer. rewrite !Z.leb_le. lia. Qed.
Lemma newer_is_transitive a b c : newer w a b = true -> newer w b c = true -> newer w a c = true.
Proof. unfold newer. rewrite !Z.leb_le. lia. Qed.

(** The newest descriptor that loads, and none only when none does. *)
Lemma discover_in_newest {A} (try_load : Candidate -> option A) dir :
  match discover_in w try_load dir with
  | Some env => exists c, c ∈ list_descriptor_paths w dir /\ try_load c = Some env
      /\ forall c', c' ∈ list_descriptor_paths w dir -> is_Some (try_load c') -> newer w c c' = true
  | None => forall c, c ∈ list_descriptor_paths w dir -> try_load c = None
  end.
Proof.
  unfold discover_in. destruct (Feed.find_map _ _) as [env|] eqn:E.
  - apply (Feed.find_map_sorted (fun a b => newer w a b = true)) in E as (c&Hc&Hl&Hb);
      [|intros x; unfold newer; lia|apply isort_sorted; [apply newer_is_total|apply newer_is_transitive]].
    apply elem_of_isort in Hc. exists c. split_and!; [done..|]. intros c' Hc'. apply Hb. by apply elem_of_isort.
  - rewrite Feed.find_map_None in E. intros c Hc. by apply E, elem_of_isort.
Qed.

(** The descriptor above all others, when it loads. *)
Definition on_top (dir : str) (c : Candidate) : Prop :=
  c ∈ list_descriptor_paths w dir /\ forall c', c' ∈ list_descriptor_paths w dir -> newer w c' c = true -> c' = c.

Lemma discover_in_top {A} (try_load : Candidate -> option A) dir c env :
  on_top dir c -> try_load c = Some env -> discover_in w try_load dir = Some env.
Proof.
  intros [Hin Htop] Hl. pose proof (discover_in_newest try_load dir) as H. destruct (discover_in w try_load dir) as [env'|].
  - destruct H as (c'&Hc'&Hl'&Hn). specialize (Hn c Hin (ex_intro _ env Hl)). apply Htop in Hn as ->; [|done]. congruence.
  - by rewrite (H c Hin) in Hl.
Qed.

Context {JT : JsonText}.

(** The bearer of the plane is the secret its descriptor refers to. *)
Definition keyed_at (service field : str) (c : Candidate) (env : Keyed.ResolvedEnv_keyed) : Prop :=
  exists name services ref,
    keyed_descriptor field w c = Some (name, services, Some ref)
    /\ Keyed.source env = Taipan name
    /\ look service services = Some (Keyed.url env)
    /\ secret w c name ref = Some (Keyed.admin_bearer env).

Lemma try_load_keyed service field c env :
  Keyed.try_load_descriptor_keyed service field w c = Some env -> keyed_at service field c env.
Proof.
  unfold Keyed.try_load_descriptor_keyed. destruct (keyed_descriptor _ _ _) as [[[name services] [ref|]]|] eqn:E; [| |done].
  - destruct (look service services) as [url|] eqn:El; [|done]. destruct (secret _ _ _ _) as [b|] eqn:Es; [|done].
    intros [= <-]. exists name, services, ref. by rewrite El, Es.
  - by destruct (look service services).
Qed.

(** Where a bearer and its URL come from. *)
Definition paired (service field : str) (fallback url_var key_var : str) (env : Keyed.ResolvedEnv_keyed) : Prop :=
  (exists dir c, environments_dir w = Some dir /\ c ∈ list_descriptor_paths w dir /\ keyed_at service field c env)
  \/ (Keyed.source env = EnvFallback /\ var w key_var = Some (Keyed.admin_bearer env) /\ trim (Keyed.admin_bearer env) <> []
      /\ (var w url_var = Some (Keyed.url env) \/ Keyed.url env = fallback)
      /\ forall dir c, environments_dir w = Some dir -> c ∈ list_descriptor_paths w dir ->
           Keyed.try_load_descriptor_keyed service field w c = None).

Lemma env_fallback_paired fallback url_var key_var env :
  Keyed.env_fallback_from fallback (var w url_var) (var w key_var) = Some env ->
  Keyed.source env = EnvFallback /\ var w key_var = Some (Keyed.admin_bearer env) /\ trim (Keyed.admin_bearer env) <> []
  /\ (var w url_var = Some (Keyed.url env) \/ Keyed.url env = fallback).
Proof.
  unfold Keyed.env_fallback_from. destruct (var w key_var) as [b|]; [|done]. case_bool_decide; [done|]. intros [= <-]. simpl.
  split_and!; [done..|]. destruct (var w url_var) as [u|]; [|by right]. case_bool_decide; [by right|by left].
Qed.

Lemma discover_paired service field fallback url_var key_var env :
  Keyed.discover_with service field (Keyed.env_fallback_from fallback (var w url_var) (var w key_var)) w = Some env ->
  paired service field fallback url_var key_var env.
Proof.
  unfold Keyed.discover_with. destruct (environments_dir w) as [dir|] eqn:Ed.
  - pose proof (discover_in_newest (Keyed.try_load_descriptor_keyed service field w) dir) as H.
    destruct (discover_in w _ dir) as [e|].
    + intros [= ->]. destruct H as (c&Hc&Hl&_). left. exists dir, c. split_and!; [done..|]. by apply try_load_keyed.
    + intros Hf. right. destruct (env_fallback_paired _ _ _ _ Hf) as (?&?&?&?). split_and!; try done.
      intros d c Hd. rewrite Ed in Hd. injection Hd as <-. apply H.
  - intros Hf. right. destruct (env_fallback_paired _ _ _ _ Hf) as (?&?&?&?). split_and!; try done. intros d c Hd. congruence.
Qed.

(** C18: A key is used only with the URL it was found with.  The bearer of the
    Cloud and of the policy service is the secret that a descriptor of the
    environments directory refers to, in the key file of that descriptor's
    name, and the URL is that descriptor's; or both are from the plane's
    variables (the URL possibly the loopback default), the key is not blank,
    and no descriptor could be loaded.  A drill's key, when it has one, comes
    from the descriptor that gives its gateway; and a gateway's administrator
    key is never from a descriptor, it is the variable's. *)
Theorem key_goes_with_its_url :
  (forall env, Money.discover_money w = Some env ->
     paired #"cloud" #"cloud_admin_ref" Money.FALLBACK_CLOUD_URL Money.URL_ENV_VAR_money Money.ADMIN_KEY_ENV_VAR_money env)
  /\ (forall env, Policy.discover_policy w = Some env ->
     paired #"wardryx" #"wardryx_admin_ref" Policy.FALLBACK_WARDRYX_URL Policy.URL_ENV_VAR_policy Policy.ADMIN_KEY_ENV_VAR_policy env)
  /\ (forall env key, Drills.discover_drills w = Some env -> Drills.api_key env = Some key ->
     exists dir c, environments_dir w = Some dir /\ c ∈ list_descriptor_paths w dir
       /\ keyed_at #"gateway" #"cloud_admin_ref" c (Keyed.mkResolved (Drills.source env) (Drills.gateway_url env) key))
  /\ (forall env, Gateway.discover_gateway w = Some env ->
     (exists dir c name services, environments_dir w = Some dir /\ c ∈ list_descriptor_paths w dir
        /\ plain_descriptor w c = Some (name, services) /\ Gateway.source env = Taipan name
        /\ look #"gateway" services = Some (Gateway.gateway_url env))
     /\ Gateway.admin_key env = Gateway.admin_key_from (var w Gateway.ADMIN_KEY_ENV_VAR_gateway)).
Proof.
  split_and!.
  - intros env. apply discover_paired.
  - intros env. apply discover_paired.
  - intros env key. unfold Drills.discover_drills. destruct (Drills.discover_bin_drills w); [|done]. unfold Drills.discover_gateway_drills.
    destruct (environments_dir w) as [dir|]; [|done]. pose proof (discover_in_newest (Drills.try_load_descriptor_drills w) dir) as H.
    destruct (discover_in _ _ dir) as [[[source url] k]|]; [|done]. intros [= <-] [= ->]. destruct H as (c&Hc&Hl&_).
    exists dir, c. split_and!; [done..|]. unfold Drills.try_load_descriptor_drills in Hl.
    destruct (keyed_descriptor _ _ _) as [[[name services] ref]|] eqn:E; [|done].
    destruct (look _ services) as [u|] eqn:El; [|done]. injection Hl as <- <- Hk.
    destruct ref as [ref|]; [|done]. by exists name, services, ref.
  - intros env. unfold Gateway.discover_gateway. destruct (environments_dir w) as [dir|] eqn:Ed; [|done].
    pose proof (discover_in_newest (Gateway.try_load_descriptor_gateway w) dir) as H. destruct (discover_in _ _ dir) as [e|]; [|done].
    intros [= ->]. destruct H as (c&Hc&Hl&_). unfold Gateway.try_load_descriptor_gateway in Hl.
    destruct (plain_descriptor w c) as [[name services]|] eqn:E; [|done]. destruct (look _ services) as [u|] eqn:El; [|done].
    injection Hl as <-. split; [|done]. by exists dir, c, name, services.
Qed.
End Found.

(** ** Whether the planes are of one environment *)

Section Agree.
Context {JT : JsonText} (w : World).

(** What a descriptor says its name is. *)
Definition first_field (n : str) (v : value) : option value :=
  match v with VObj ms => obj_get n ms | VArr (x :: _) => Some x | _ => None end.
Definition name_at (c : Candidate) : option str :=
  let! v := read_json w (path c) in let! n := first_field #"name" v in as_str n.

Lemma fields_first n ns v x xs : fields (n :: ns) v = Some (Some x :: xs) -> first_field n v = Some x.
Proof.
  destruct v as [| | | |vs|ms]; simpl; try done; [|by intros [= ? _]].
  destruct vs as [|y vs]; simpl; [done|]. destruct (Nat.leb _ _); [|done]. by intros [= -> _].
Qed.

Lemma keyed_name field c name services ref : keyed_descriptor field w c = Some (name, services, ref) -> name_at c = Some name.
Proof.
  unfold keyed_descriptor, name_at. destruct (read_json w (path c)) as [v|]; [|done].
  destruct (fields _ v) as [[|[x|] [|[s|] [|k [|]]]]|] eqn:E; try done; destruct x; try done.
  apply fields_first in E as ->. destruct (map_of _ _); [|done]. destruct (key_ref_of _ _); [|done]. intros [= <- _ _]. done.
Qed.
Lemma plain_name c name services : plain_descriptor w c = Some (name, services) -> name_at c = Some name.
Proof.
  unfold plain_descriptor, name_at. destruct (read_json w (path c)) as [v|]; [|done].
  destruct (fields _ v) as [[|[x|] [|[s|] [|]]]|] eqn:E; try done; destruct x; try done.
  apply fields_first in E as ->. destruct (map_of _ _); [|done]. intros [= <- _]. done.
Qed.

(** C23: The planes of the console are of one environment when the newest
    descriptor serves them.  If one descriptor is newer than every other, each
    plane that can load what it needs from it takes it from there and says so,
    under the one name the descriptor gives - the Cloud, the policy service,
    identity, quality, memory's store, the drills' gateway, the credentials' and
    the admission's gateway, and the evidence of events - whatever the other
    descriptors, the fixed places and the variables offer.  (A plane the newest
    one does not serve goes on to an older environment:
    [planes_of_two_environments].) *)
Theorem planes_share_the_newest_environment dir c name :
  environments_dir w = Some dir -> on_top w dir c -> name_at c = Some name ->
  (forall env, Money.try_load_money w c = Some env -> Money.discover_money w = Some env /\ Keyed.source env = Taipan name)
  /\ (forall env, Policy.try_load_policy w c = Some env -> Policy.discover_policy w = Some env /\ Keyed.source env = Taipan name)
  /\ (forall env, Identity.try_load_descriptor_identity w c = Some env -> Identity.discover_identity w = Some env /\ Identity.source env = Taipan name)
  /\ (forall env, Quality.try_load_descriptor_quality w c = Some env -> Quality.discover_quality w = Some env /\ Quality.source env = Taipan name)
  /\ (forall s p, Memory.try_load_descriptor_memory w c = Some (s, p) -> Memory.discover_db w = Some (s, p) /\ s = Taipan name)
  /\ (forall s u k, Drills.try_load_descriptor_drills w c = Some (s, u, k) -> Drills.discover_gateway_drills w = Some (s, u, k) /\ s = Taipan name)
  /\ (forall env, Gateway.try_load_descriptor_gateway w c = Some env ->
       Gateway.discover_gateway w = Some env /\ Admission.discover_gateway_admission w = Some env /\ Gateway.source env = Taipan name)
  /\ (forall x, Evidence.try_load_descriptor_evidence w c = Some x -> Evidence.newest_descriptor_in w dir = Some x /\ Evidence.name x = name).
Proof.
  intros Hd Htop Hn.
  assert (Hk : forall s f env, Keyed.try_load_descriptor_keyed s f w c = Some env -> Keyed.source env = Taipan name).
  { intros s f env (n&sv&ref&E&->&_)%try_load_keyed. apply keyed_name in E. congruence. }
  split_and!; intros *.
  1,2: unfold Money.try_load_money, Policy.try_load_policy; intros Hl; (split; [|by eapply Hk]); unfold Money.discover_money, Policy.discover_policy, Keyed.discover_with; rewrite Hd;
    by rewrite (discover_in_top w _ dir c env Htop Hl).
  - intros Hl. split; [unfold Identity.discover_identity; rewrite Hd; by apply (discover_in_top w _ dir c)|].
    unfold Identity.try_load_descriptor_identity, name_at in *. destruct (read_json w (path c)) as [v|]; [|done].
    destruct (fields _ v) as [[|[x|] [|[s|] [|k [|]]]]|] eqn:E; try done; destruct x; try done.
    apply fields_first in E. rewrite E in Hn. injection Hn as <-.
    destruct (map_of _ s); [|done]. destruct (events_of k) as [[d f]|]; [|done]. destruct (look _ _); [|done]. by injection Hl as <-.
  - intros Hl. split; [unfold Quality.discover_quality; rewrite Hd; by rewrite (discover_in_top w _ dir c env Htop Hl)|].
    unfold Quality.try_load_descriptor_quality in Hl. destruct (plain_descriptor w c) as [[n sv]|] eqn:E; [|done]. apply plain_name in E.
    destruct (look _ _); [|done]. destruct (is_file _ _); [|done]. injection Hl as <-. simpl. congruence.
  - intros Hl. split; [unfold Memory.discover_db; rewrite Hd; by rewrite (discover_in_top w _ dir c _ Htop Hl)|].
    unfold Memory.try_load_descriptor_memory in Hl. destruct (plain_descriptor w c) as [[n sv]|] eqn:E; [|done]. apply plain_name in E.
    destruct (look _ _); [|done]. destruct (Memory.valid_store_path _ _); [|done]. injection Hl as <- <-. congruence.
  - intros Hl. split; [unfold Drills.discover_gateway_drills; rewrite Hd; by apply (discover_in_top w _ dir c)|].
    unfold Drills.try_load_descriptor_drills in Hl. destruct (keyed_descriptor _ w c) as [[[n sv] r]|] eqn:E; [|done]. apply keyed_name in E.
    destruct (look _ _); [|done]. injection Hl as <- <- <-. congruence.
  - intros Hl. assert (Gateway.discover_gateway w = Some env) as Hg by (unfold Gateway.discover_gateway; rewrite Hd; by apply (discover_in_top w _ dir c)).
    split_and!; [done|done|].
    unfold Gateway.try_load_descriptor_gateway in Hl. destruct (plain_descriptor w c) as [[n sv]|] eqn:E; [|done]. apply plain_name in E.
    destruct (look _ _); [|done]. injection Hl as <-. simpl. congruence.
  - intros Hl. split; [by apply (discover_in_top w _ dir c)|].
    unfold Evidence.try_load_descriptor_evidence, name_at in *. destruct (read_json w (path c)) as [v|]; [|done].
    destruct (fields _ v) as [[|[y|] [|k [|]]]|] eqn:E; try done; destruct y; try done.
    apply fields_first in E. rewrite E in Hn. injection Hn as <-. destruct (events_of k) as [[d f]|]; [|done]. by injection Hl as <-.
Qed.

(** Every load the evidence plane gives idryx has a prefix idryx takes and a
    file that is there; one it does not take would end the whole run. *)
Theorem loads_are_accepted dir files l :
  l ∈ Evidence.agent_bom_loads w dir files -> one_of Evidence.IDRYX_LOAD_PREFIXES l.1 = true /\ is_file w l.2 = true.
Proof.
  assert (Hp : forall s, one_of Evidence.IDRYX_LOAD_PREFIXES (Evidence.idryx_load_prefix s) = true).
  { intros s. unfold Evidence.idryx_load_prefix. by destruct (one_of _ s) eqn:E. }
  unfold Evidence.agent_bom_loads. destruct dir as [dir|]; [|by intros ?%elem_of_nil].
  set (loads := List.filter _ _).
  assert (H : forall l, l ∈ loads -> one_of Evidence.IDRYX_LOAD_PREFIXES l.1 = true /\ is_file w l.2 = true).
  { intros x [Hx Hf]%in_filter. split; [|done]. apply list_elem_of_In, in_map_iff in Hx as (sf&<-&_). apply Hp. }
  destruct (is_file w (join dir _)) eqn:Ef; simpl; [|by apply H]. destruct (negb _); [|by apply H].
  intros [Hin| ->%list_elem_of_singleton]%elem_of_app; [by apply H|]. by split; [apply Hp|].
Qed.
End Agree.

(** ** Runs *)

Module Example.
#[local] Existing Instance code_json.
Definition home : str := #"/home/op".
Definition dir : str := #"/home/op/.taipan/environments".
Definition svc (name url : str) : str * value := (name, obj [ (#"url", VStr url)]).
Definition described (name : str) (services : list (str * value)) (keys : list (str * value)) : value :=
  obj [ (#"name", VStr name); (#"services", obj services); (#"keys", obj keys)].
Definition secrets (label key : str) : value := obj [ (#"secrets", obj [(label, VStr key)])].

(** A disk: the files of the environments directory with their times, and the
    paths of other files. *)
Definition disk (vars : list (str * str)) (there : list (str * (Z * value))) (others : list str) : World :=
  mkWorld (fun k => look k vars)
    (fun d => if str_eqb d dir then Some (omap (fun f => strip_prefix (dir ++ #"/") f.1) there) else None)
    (fun p => (fun tv => tv.1) <$> look p there)
    (fun p => (fun tv => str_bytes (code_text tv.2)) <$> look p there)
    (fun p => one_of others p) (fun _ => false).
Definition file (name : str) : str := dir ++ #"/" ++ name.

Definition new_env : value :=
  described #"new" [svc #"cloud" #"http://new:8080"; svc #"gateway" #"http://new:4000"] [ (#"cloud_admin_ref", VStr #"keys/admin")].
Definition old_env : value :=
  described #"old" [svc #"cloud" #"http://old:8080"; svc #"wardryx" #"http://old:8090"]
    [ (#"cloud_admin_ref", VStr #"keys/admin"); (#"wardryx_admin_ref", VStr #"keys/policy")].
Definition two : World :=
  disk [ (#"HOME", home)]
    [ (file #"old.json", (1, old_env)); (file #"old.keys.json", (1, secrets #"policy" #"old-policy-key"));
      (file #"new.json", (2, new_env)); (file #"new.keys.json", (2, secrets #"admin" #"new-admin-key"))] [].

(** The Cloud is the new environment's, the policy service the old one's: a kill
    and a denial of one console go to two environments. *)
Example planes_of_two_environments :
  ((fun e => (Keyed.source e, Keyed.url e)) <$> Money.discover_money two,
   (fun e => (Keyed.source e, Keyed.url e)) <$> Policy.discover_policy two)
  = (Some (Taipan #"new", #"http://new:8080"), Some (Taipan #"old", #"http://old:8090")).
Proof. vm_compute. reflexivity. Qed.

Definition newest : Candidate := mkCandidate dir #"new.json".
Lemma newest_on_top : on_top two dir newest.
Proof.
  split; [vm_compute; right; left|]. intros c' Hin Hn.
  assert (c' = mkCandidate dir #"old.json" \/ c' = newest) as [->| ->].
  { assert (list_descriptor_paths two dir = [mkCandidate dir #"old.json"; newest]) as E by (vm_compute; reflexivity).
    rewrite E in Hin. apply elem_of_cons in Hin as [->|Hin]; [by left|]. apply list_elem_of_singleton in Hin. by right. }
  - exfalso. revert Hn. by vm_compute.
  - done.
Qed.

Lemma planes_share_the_newest_environment_witness :
  Money.discover_money two = Some (Keyed.mkResolved (Taipan #"new") #"http://new:8080" #"new-admin-key")
  /\ Gateway.discover_gateway two = Some (Gateway.mkResolved (Taipan #"new") #"http://new:4000" None).
Proof.
  destruct (planes_share_the_newest_environment two dir newest #"new" ltac:(vm_compute; reflexivity) newest_on_top
              ltac:(vm_compute; reflexivity)) as (Hm&_&_&_&_&_&Hg&_).
  split; [apply Hm; vm_compute; reflexivity|]. apply Hg. vm_compute. reflexivity.
Defined.

(** An install pointed at a scratch directory still reads the store of the real
    home, for the fixed places do not follow [TAIPAN_HOME]. *)
Definition scratch : World :=
  disk [ (#"HOME", home); (#"TAIPAN_HOME", #"/scratch")] [] [ #"/home/op/.taipan/verdryx.db"; #"/home/op/.taipan/bin/qryx"].
Example scratch_install_reads_the_real_home :
  (environments_dir scratch, Quality.db_path <$> Quality.discover_quality scratch, Crypto.qryx_bin <$> Crypto.discover_crypto scratch,
   Admission.path (Admission.resolve_verdryx_bin scratch))
  = (Some #"/scratch/environments", Some #"/home/op/.taipan/verdryx.db", Some #"/home/op/.taipan/bin/qryx", #"/scratch/bin/verdryx").
Proof. vm_compute. reflexivity. Qed.

(** The key file is found by the name the descriptor gives itself, which may be
    a path: it need not be beside the descriptor. *)
Definition elsewhere : World :=
  disk [ (#"HOME", home)]
    [ (file #"a.json", (1, described #"/mnt/share/a" [svc #"cloud" #"http://a:8080"] [ (#"cloud_admin_ref", VStr #"admin")]));
      (#"/mnt/share/a.keys.json", (1, secrets #"admin" #"another-key"))] [].
Example key_file_is_not_always_beside :
  Keyed.admin_bearer <$> Money.discover_money elsewhere = Some #"another-key".
Proof. vm_compute. reflexivity. Qed.

(** A descriptor with one service it cannot read is no descriptor at all. *)
Definition unread : World :=
  disk [ (#"HOME", home)]
    [ (file #"a.json", (1, described #"a" [svc #"gateway" #"http://a:4000"; (#"cloud", obj [])] []))] [].
Example one_bad_service_hides_the_others : Gateway.discover_gateway unread = None.
Proof. vm_compute. reflexivity. Qed.
End Example.
