(* ===== verification/Gateway.v ===== *)
(** * Gateway: what the gateway says of its keys, its held money and its switches
    ([crates/connectors/src/gateway.rs], [crates/api/src/credentials/commands.rs],
    [state.rs], [posture.rs])

    The credentials plane reads the gateway through one client and its
    administrator key: the key report, the runs it holds money for, and its
    posture - the switches in force, the keys and the price book, three reads of
    which each may fail alone.  The switches are an object whose fields are not
    all known: they are shown under their own names, and a value under a name
    that suggests a secret is not.

    The three reads of the posture are sent at once; their answers do not depend
    on each other, and the model sends them in turn. *)
From S2P Require Import Prelude Text Json JsonCode Signing Command Http Prog Effects.
From Stdlib Require Import Floats.SpecFloat.
From S2P Require Import Double.
From S2P Require Import Retained.
From S2P Require Discover.

(** ** The client's reads ([gateway.rs]) *)

Record GatewayRunView : Type := mkRun
  { run_id : str; budget_usd : f64; spent_usd : f64; reserved_usd : f64; remaining_usd : f64; steps : Z; pct_used : f64;
    killed : bool; retained : Z; retained_usd : f64 }.
Record GatewayUnauthorized : Type := mkUnauthorized { attempts : Z; last_millis : option Z }.
Record GatewayKeyStats : Type := mkStats
  { calls : Z; identity_mismatches : Z; first_seen_millis : option Z; last_seen_millis : option Z }.
Record GatewayKeyEntry : Type := mkEntry
  { key_id : str; configured : bool; bound : bool; unit_name : option str; agents : list str; created : option str;
    since_startup : GatewayKeyStats; key_history : option GatewayKeyStats }.
Record GatewayKeysReport : Type := mkReport
  { strict_mode : str; identity_map_configured : bool; history_available : bool;
    unauthorized_since_startup : GatewayUnauthorized; keys : list GatewayKeyEntry }.
Record GatewayRates : Type := mkRates { input_per_mtok_microusd : Z; output_per_mtok_microusd : Z }.
Record GatewayLongContextRow : Type := mkRow { lc_model : str; lc_above : Z; lc_input : Z; lc_output : Z }.
Record GatewayPriceBook : Type := mkBook
  { pb_rows : Z; pb_built_in_rows : Z; pb_operator_file : bool; pb_overridden_models : list str; pb_added_models : list str;
    fallback : option GatewayRates; long_context : option (list GatewayLongContextRow);
    long_context_dropped_models : list str; pb_fallback_models_seen : list str; pb_fallback_models_seen_total : Z; detail : str }.

(** serde's readers. *)
Class GatewayWire := {
  read_keys : list Z -> result GatewayKeysReport str;
  read_runs : list Z -> result (list GatewayRunView) str;
  read_settings : list Z -> result value str;
  read_price_book : list Z -> result GatewayPriceBook str;
}.

Definition gateway_get (c : GatewayClient) (path : str) : Request := mkRequest #"GET" (gw_url c ++ path) (admin_key c) [] [].

Section Reads.
Context {GW : GatewayWire}.

Definition get_keys (c : GatewayClient) : program (result GatewayKeysReport GatewayError) :=
  do x <- Send (gateway_get c #"/v1/keys"); Ret (gateway_response read_keys x).
Definition get_runs (c : GatewayClient) : program (result (list GatewayRunView) GatewayError) :=
  do x <- Send (gateway_get c #"/v1/runs"); Ret (gateway_response read_runs x).

(** What an answer on a route an older gateway may not have is read as. *)
Definition optional_response {T} (read : list Z -> result T str) (x : result Response str) : result (option T) GatewayError :=
  match x with
  | Ok r => if status r =? 404 then Ok None else let? t := gateway_response read x in Ok (Some t)
  | Err e => Err (GwTransport e)
  end.
Definition get_settings (c : GatewayClient) : program (result (option value) GatewayError) :=
  do x <- Send (gateway_get c #"/v1/settings"); Ret (optional_response read_settings x).
Definition get_price_book (c : GatewayClient) : program (result (option GatewayPriceBook) GatewayError) :=
  do x <- Send (gateway_get c #"/v1/price-book"); Ret (optional_response read_price_book x).
End Reads.

(** ** The plane's state ([state.rs]) *)

Record CredentialsClient : Type := mkCredentials { client : GatewayClient; source : Discover.EnvSource; gateway_url : str }.
Inductive CredentialsInner : Type :=
| Bootstrapping
| NoEnvironment
| Unreachable (source : Discover.EnvSource) (gateway_url reason : str)
| Ready (client : CredentialsClient).

Inductive CredentialsError : Type :=
| EBootstrapping
| ENoEnvironment
| EUnreachable (reason : str)
| EGateway (status : option Z) (message : str).

Definition KEY_REFUSED : str :=
  #"the gateway refused the console's key: check TOKENFUSE_GATEWAY_ADMIN_KEY against the gateway's TOKENFUSE_ADMIN_KEYS".
Definition KEY_REQUIRED : str :=
  #"the gateway requires TOKENFUSE_ADMIN_KEYS on a non-loopback bind and the console holds no key (TOKENFUSE_GATEWAY_ADMIN_KEY is unset)".

Definition describe (e : GatewayError) : str :=
  match e with GwUnauthorized => KEY_REFUSED | GwAdminKeysRequired => KEY_REQUIRED | _ => gateway_error_text e end.

(** [From<GatewayError>]. *)
Definition credentials_error (e : GatewayError) : CredentialsError :=
  match e with
  | GwTransport e => EGateway None (#"could not reach the gateway: " ++ e)
  | GwJson e => EGateway None (#"unexpected response shape from the gateway: " ++ e)
  | GwUnauthorized => EGateway (Some 401) KEY_REFUSED
  | GwAdminKeysRequired => EGateway (Some 403) KEY_REQUIRED
  | GwApi status body => EGateway (Some status) body
  | GwTooLarge limit => EGateway None (#"the gateway's response exceeded " ++ dec limit ++ #" bytes")
  end.

Section Plane.
Context {JT : JsonText} {GW : GatewayWire}.

Definition connect (resolved : Discover.Gateway.ResolvedEnv_gateway) : program (result GatewayClient str) :=
  let c := with_admin_key (new_gateway (Discover.Gateway.gateway_url resolved)) (Discover.Gateway.admin_key resolved) in
  do! r <- get_keys c;
  Ret (match r with Ok _ => Ok c | Err e => Err (describe e) end).

(** [elapsed]: the timeout of ten seconds ran out first. *)
Definition bootstrap (w : Discover.World) (elapsed : bool) : program CredentialsInner :=
  match Discover.Gateway.discover_gateway w with
  | None => Ret NoEnvironment
  | Some resolved =>
      let unreachable := Unreachable (Discover.Gateway.source resolved) (Discover.Gateway.gateway_url resolved) in
      do! r <- connect resolved;
      Ret (if elapsed then unreachable #"timed out after 10s waiting for the gateway to respond"
           else match r with
                | Ok c => Ready (mkCredentials c (Discover.Gateway.source resolved) (Discover.Gateway.gateway_url resolved))
                | Err reason => unreachable reason
                end)
  end.

(** ** The commands ([commands.rs]) *)

Definition ready_client (inner : CredentialsInner) : result CredentialsClient CredentialsError :=
  match inner with
  | Ready c => Ok c
  | Bootstrapping => Err EBootstrapping
  | NoEnvironment => Err ENoEnvironment
  | Unreachable _ _ reason => Err (EUnreachable reason)
  end.

Inductive CredentialsStatusDto : Type :=
| SBootstrapping | SNoEnvironment
| SUnreachable (source : Discover.EnvSource) (gateway_url reason : str)
| SReady (source : Discover.EnvSource) (gateway_url : str).
Definition status_dto (inner : CredentialsInner) : CredentialsStatusDto :=
  match inner with
  | Bootstrapping => SBootstrapping
  | NoEnvironment => SNoEnvironment
  | Unreachable s u r => SUnreachable s u r
  | Ready c => SReady (source c) (gateway_url c)
  end.
Definition credentials_status (inner : CredentialsInner) : CredentialsStatusDto := status_dto inner.

(** [let client = ready_client(&state).await?]. *)
Definition with_client {T} (inner : CredentialsInner) (k : CredentialsClient -> program (result T CredentialsError))
  : program (result T CredentialsError) :=
  match ready_client inner with Ok c => k c | Err e => Ret (Err e) end.

Definition credentials_keys (inner : CredentialsInner) : program (result GatewayKeysReport CredentialsError) :=
  with_client inner (fun c => do! r <- get_keys (client c); Ret (map_err credentials_error r)).

Record RetainedRunDto : Type := mkRunDto { rr_run_id : str; rr_retained : Z; rr_retained_usd : f64 }.
Record GatewayRetainedDto : Type := mkRetainedDto
  { runs : list RetainedRunDto; total_retained : Z; total_retained_usd : double }.

Definition retained_run (r : GatewayRunView) : RetainedRunDto := mkRunDto (run_id r) (retained r) (retained_usd r).
(** [sum] of [u32]s in a release build, and of doubles from zero. *)
Definition sum_u32 (l : list Z) : Z := fold_left (fun a x => (a + x) mod 4294967296) l 0.
Definition sum_f64 (l : list f64) : double := fold_left (fun a x => add a (of_dec x)) l (S754_zero true).
(** [sort_by]: the greater amount first; equal and unordered ones stay. *)
Definition more_held (a b : RetainedRunDto) : bool := negb (ltb (of_dec (rr_retained_usd a)) (of_dec (rr_retained_usd b))).
Definition held_dto (rs : list GatewayRunView) : GatewayRetainedDto :=
  mkRetainedDto (isort more_held (map retained_run (List.filter (fun r => 0 <? retained r) rs)))
    (sum_u32 (map retained rs)) (sum_f64 (map retained_usd rs)).
Definition credentials_gateway_retained_runs (inner : CredentialsInner) : program (result GatewayRetainedDto CredentialsError) :=
  with_client inner (fun c => do! r <- get_runs (client c); Ret (let? rs := map_err credentials_error r in Ok (held_dto rs))).

(** ** The posture ([posture.rs]) *)

Definition KNOWN_SETTINGS : list (str * str) :=
  [ (#"firewall", #"Firewall (taint)"); (#"dlp_pii", #"PII detection"); (#"dlp", #"Data-loss prevention");
    (#"max_run_budget_usd", #"Run budget ceiling (USD)"); (#"wire", #"Wire (provider shape)"); (#"identity_strict", #"Identity check");
    (#"client_keys", #"Client keys"); (#"require_run_id", #"Run id required"); (#"wardryx_mode", #"Policy hook (wardryx)");
    (#"failmode", #"Policy fail mode"); (#"mode", #"Gateway mode"); (#"cache", #"Response cache"); (#"router", #"FinOps router");
    (#"closure_enabled", #"Retained-reservation closure")].
Definition MAX_EXTRA_SETTINGS : nat := 32.
Definition MAX_VALUE_CHARS : nat := 120.
Definition WITHHELD : str := #"withheld: the console never shows a value under this name".

Record PostureSetting : Type := mkSetting { s_key : str; s_label : str; s_value : option str }.
Record SettingsSection : Type := mkSettings { reported : bool; items : list PostureSetting }.
Record KeysSection : Type := mkKeys
  { identity_strict : str; map_configured : bool; configured_keys : nat; keys_listed : nat; unauthorized_attempts : Z }.
Record TierRow : Type := mkTier { t_model : str; above_prompt_tokens : Z; t_input : double; t_output : double }.
Record PriceBookSection : Type := mkPriceBook
  { ps_rows : Z; ps_built_in_rows : Z; ps_operator_file : bool; ps_overridden_models : list str; ps_added_models : list str;
    fallback_input_per_mtok_usd : option double; fallback_output_per_mtok_usd : option double; tiers : option (list TierRow);
    tiers_dropped_models : list str; ps_fallback_models_seen : list str; ps_fallback_models_seen_total : Z }.
Record GatewayPostureDto : Type := mkPosture
  { p_gateway_url : str; settings : option SettingsSection; p_keys : option KeysSection; price_book : option PriceBookSection;
    notes : list str }.

Definition per_mtok_usd (microusd : Z) : double := div (of_Z microusd) (of_Z 1000000).

Definition SECRET_WORDS : list str :=
  [ #"secret"; #"token"; #"password"; #"passwd"; #"credential"; #"api_key"; #"apikey"; #"private"].
Definition secret_shaped (key : str) : bool :=
  let k := map to_ascii_lower key in
  existsb (fun w => contains w k) SECRET_WORDS
  || ((ends_with #"_key" k || ends_with #"key" k) && negb (str_eqb k #"client_keys")).

Definition value_text (v : value) : str :=
  let text :=
    match v with
    | VNull => #"not set"
    | VBool true => #"on"
    | VBool false => #"off"
    | VNum _ => json_text v
    | VStr s => s
    | VArr a => dec (Z.of_nat (length a)) ++ #" item(s)"
    | VObj o => dec (Z.of_nat (length o)) ++ #" field(s)"
    end in
  if (MAX_VALUE_CHARS <? length text)%nat then firstn (MAX_VALUE_CHARS - 1) text ++ [8230] else text.

Definition shown_value (key : str) (v : value) : str := if secret_shaped key then WITHHELD else value_text v.
Definition known_setting (key : str) : bool := existsb (fun kl => str_eqb kl.1 key) KNOWN_SETTINGS.
Definition extra_setting (kv : str * value) : PostureSetting :=
  let key := firstn 64 kv.1 in mkSetting key key (Some (shown_value kv.1 kv.2)).

Definition settings_section (body : value) : SettingsSection :=
  let map := match body with VObj ms => ms | _ => [] end in
  mkSettings true
    (List.map (fun kl => mkSetting kl.1 kl.2 (shown_value kl.1 <$> obj_get kl.1 map)) KNOWN_SETTINGS
     ++ List.map extra_setting (firstn MAX_EXTRA_SETTINGS (List.filter (fun kv : str * value => negb (known_setting kv.1)) map))).

Definition keys_section (report : GatewayKeysReport) : KeysSection :=
  mkKeys (strict_mode report) (identity_map_configured report) (length (List.filter configured (keys report)))
    (length (keys report)) (attempts (unauthorized_since_startup report)).

Definition tier_row (r : GatewayLongContextRow) : TierRow :=
  mkTier (lc_model r) (lc_above r) (per_mtok_usd (lc_input r)) (per_mtok_usd (lc_output r)).
Definition price_book_section (book : GatewayPriceBook) : PriceBookSection :=
  mkPriceBook (pb_rows book) (pb_built_in_rows book) (pb_operator_file book) (pb_overridden_models book) (pb_added_models book)
    ((fun f => per_mtok_usd (input_per_mtok_microusd f)) <$> fallback book)
    ((fun f => per_mtok_usd (output_per_mtok_microusd f)) <$> fallback book)
    (List.map tier_row <$> long_context book)
    (long_context_dropped_models book) (pb_fallback_models_seen book) (pb_fallback_models_seen_total book).

Definition did_not_answer (route : str) (e : GatewayError) : str :=
  #"GET " ++ route ++ #" did not answer: " ++ gateway_error_text e.
Definition NO_PRICE_BOOK : str :=
  #"This gateway has no GET /v1/price-book (older than TokenFuse v1.8.0), so the book it prices with is not reported.".

(** What a read adds: its section, its note and its failure. *)
Definition settings_read (x : result (option value) GatewayError) : option SettingsSection * list str * list GatewayError :=
  match x with
  | Ok (Some body) => (Some (settings_section body), [], [])
  | Ok None => (Some (mkSettings false []), [], [])
  | Err e => (None, [did_not_answer #"/v1/settings" e], [e])
  end.
Definition keys_read (x : result GatewayKeysReport GatewayError) : option KeysSection * list str * list GatewayError :=
  match x with
  | Ok report => (Some (keys_section report), [], [])
  | Err e => (None, [did_not_answer #"/v1/keys" e], [e])
  end.
Definition book_read (x : result (option GatewayPriceBook) GatewayError) : option PriceBookSection * list str * list GatewayError :=
  match x with
  | Ok (Some b) => (Some (price_book_section b), [], [])
  | Ok None => (None, [NO_PRICE_BOOK], [])
  | Err e => (None, [did_not_answer #"/v1/price-book" e], [e])
  end.

Definition posture_of (c : CredentialsClient) (s : result (option value) GatewayError) (k : result GatewayKeysReport GatewayError)
  (b : result (option GatewayPriceBook) GatewayError) : result GatewayPostureDto CredentialsError :=
  let '(settings, n1, f1) := settings_read s in
  let '(keys, n2, f2) := keys_read k in
  let '(book, n3, f3) := book_read b in
  match f1 ++ f2 ++ f3 with
  | [e; _; _] => Err (credentials_error e)
  | _ => Ok (mkPosture (gateway_url c) settings keys book (n1 ++ n2 ++ n3))
  end.

Definition credentials_posture (inner : CredentialsInner) : program (result GatewayPostureDto CredentialsError) :=
  with_client inner (fun c =>
    do! s <- get_settings (client c);
    do! k <- get_keys (client c);
    do! b <- get_price_book (client c);
    Ret (posture_of c s k b)).
End Plane.

(** ** What the posture shows *)

Section Shown.
Context {JT : JsonText}.

(** Two reports that differ only in the values under names that suggest a
    secret. *)
Definition same_but_secrets (a b : list (str * value)) : Prop :=
  Forall2 (fun x y => x.1 = y.1 /\ (secret_shaped x.1 = false -> x.2 = y.2)) a b.

Lemma shown_same k v v' : (secret_shaped k = false -> v = v') -> shown_value k v = shown_value k v'.
Proof. unfold shown_value. destruct (secret_shaped k); [done|]. intros H. by rewrite H. Qed.

Lemma obj_get_same k a b :
  same_but_secrets a b -> shown_value k <$> obj_get k a = shown_value k <$> obj_get k b.
Proof.
  induction 1 as [|[k1 v1] [k2 v2] a b [Hk Hv] _ IH]; [done|]. simpl in *. subst k2.
  destruct (str_eqb k k1) eqn:E; [|done]. apply str_eqb_eq in E as ->. simpl. by rewrite (shown_same k1 v1 v2).
Qed.

Lemma extras_same n a b :
  same_but_secrets a b ->
  map extra_setting (firstn n (List.filter (fun kv : str * value => negb (known_setting kv.1)) a))
  = map extra_setting (firstn n (List.filter (fun kv : str * value => negb (known_setting kv.1)) b)).
Proof.
  intros H. revert n. induction H as [|[k1 v1] [k2 v2] a b [Hk Hv] _ IH]; intros n; [done|]. simpl in *. subst k2.
  destruct (negb (known_setting k1)); [|done]. destruct n as [|n]; [done|]. cbn [firstn map]. f_equal; [|done].
  unfold extra_setting. simpl. by rewrite (shown_same k1 v1 v2).
Qed.

Lemma known_short kl : kl ∈ KNOWN_SETTINGS -> (length kl.2 <= 64)%nat.
Proof. intros H. rewrite list_elem_of_In in H. simpl in H. repeat destruct H as [<-|H]; vm_compute; lia || done. Qed.

Lemma value_text_bounded v : (length (value_text v) <= MAX_VALUE_CHARS)%nat.
Proof.
  unfold value_text. match goal with |- context [(_ <? length ?t)%nat] => generalize t end. intros t.
  destruct (Nat.ltb_spec MAX_VALUE_CHARS (length t)); [|done]. rewrite length_app, length_take.
  change (length [8230]) with 1%nat. unfold MAX_VALUE_CHARS in *. lia.
Qed.

(** C32: The posture shows nothing of a secret.  The settings shown depend on the
    values of the gateway's report only where the name does not suggest a
    secret: two reports with the same names, which differ in any values under
    names that do, are shown alike, and such a value reads as withheld.  What is
    shown is bounded: the fourteen known switches and at most thirty-two others,
    each value and each name of at most a hundred and twenty characters. *)
Theorem posture_hides_secret_values a b :
  same_but_secrets a b ->
  settings_section (VObj a) = settings_section (VObj b)
  /\ (forall k v, secret_shaped k = true -> shown_value k v = WITHHELD)
  /\ (length (items (settings_section (VObj a))) <= 46)%nat
  /\ Forall (fun s => (length (s_label s) <= 64)%nat
       /\ match s_value s with Some t => (length t <= MAX_VALUE_CHARS)%nat | None => True end) (items (settings_section (VObj a))).
Proof.
  intros H. split_and!.
  - unfold settings_section. f_equal. f_equal; [|by apply extras_same].
    apply map_ext. intros [k l]. simpl. by rewrite (obj_get_same k a b).
  - intros k v Hk. unfold shown_value. by rewrite Hk.
  - cbn [settings_section items]. rewrite length_app, !length_map, length_take. change (length KNOWN_SETTINGS) with 14%nat. change MAX_EXTRA_SETTINGS with 32%nat. lia.
  - assert (Hv : forall k v, (length (shown_value k v) <= MAX_VALUE_CHARS)%nat).
    { intros k v. unfold shown_value. destruct (secret_shaped k); [vm_compute; lia|apply value_text_bounded]. }
    cbn [settings_section items]. apply Forall_app. split; apply Forall_forall; intros s Hs;
      apply list_elem_of_In, in_map_iff in Hs as (x&<-&Hx); simpl.
    + split; [by apply known_short, list_elem_of_In|]. destruct (obj_get _ a); simpl; [apply Hv|done].
    + rewrite length_take. split; [lia|apply Hv].
Qed.
End Shown.

(** Each of the three reads costs its own section only. *)
Section Posture.
Context {JT : JsonText} {GW : GatewayWire}.

Definition failed_read {T} (r : result T GatewayError) : bool := negb (is_ok r).

Theorem posture_fails_only_whole c s k b :
  match posture_of c s k b with
  | Err e => exists x y z, s = Err x /\ k = Err y /\ b = Err z /\ e = credentials_error x
  | Ok d => (failed_read s && failed_read k && failed_read b) = false
      /\ p_gateway_url d = gateway_url c
      /\ settings d = (settings_read s).1.1 /\ p_keys d = (keys_read k).1.1 /\ price_book d = (book_read b).1.1
      /\ notes d = (settings_read s).1.2 ++ (keys_read k).1.2 ++ (book_read b).1.2
  end.
Proof.
  unfold posture_of. destruct s as [[body|]|x], k as [report|y], b as [[book|]|z]; simpl; try (by split_and!).
  by exists x, y, z.
Qed.

(** The gateway is asked three times under the plane's own key, whatever it
    answers, and only by a plane that is ready. *)
Theorem posture_asks_three_times inner :
  ran [] (credentials_posture inner) (fun r tr =>
    match inner with
    | Ready c => map fst (sent tr) = map (gateway_get (client c)) [ #"/v1/settings"; #"/v1/keys"; #"/v1/price-book"]
    | _ => tr = [] /\ exists e, r = Err e
    end).
Proof.
  unfold credentials_posture, with_client. destruct inner as [| |s u reason|c]; simpl; eauto.
Qed.

(** Every run with money held is listed, and the totals are over all runs. *)
Theorem held_runs_are_listed rs :
  Permutation (runs (held_dto rs)) (map retained_run (List.filter (fun r => 0 <? retained r) rs))
  /\ total_retained (held_dto rs) = sum_u32 (map retained rs).
Proof. split; [apply isort_perm|done]. Qed.
End Posture.

(** ** Runs *)

Module Example.
#[local] Existing Instance code_json.

Definition switches (secret : str) : list (str * value) :=
  [ (#"closure_secret", VStr secret); (#"firewall", VBool true); (#"upstream_url", VStr #"https://up")].
Lemma posture_hides_secret_values_witness :
  settings_section (VObj (switches #"one")) = settings_section (VObj (switches #"two"))
  /\ (forall k v, secret_shaped k = true -> shown_value k v = WITHHELD)
  /\ (length (items (settings_section (VObj (switches #"one")))) <= 46)%nat
  /\ Forall (fun s => (length (s_label s) <= 64)%nat
       /\ match s_value s with Some t => (length t <= MAX_VALUE_CHARS)%nat | None => True end)
       (items (settings_section (VObj (switches #"one")))).
Proof.
  apply (posture_hides_secret_values (switches #"one") (switches #"two")).
  repeat constructor. intros E. exfalso. revert E. vm_compute. discriminate.
Defined.

(** Names that carry a credential and hold none of the words. *)
Example bearer_is_shown :
  (fun s => (s_key s, s_value s)) <$> List.skipn 14 (items (settings_section (VObj [ (#"authorization", VStr #"Bearer sk-live-1"); (#"redis_dsn", VStr #"redis://u:pw@h")])))
  = [ (#"authorization", Some #"Bearer sk-live-1"); (#"redis_dsn", Some #"redis://u:pw@h")].
Proof. vm_compute. reflexivity. Qed.

(** A gateway with no runs holds minus nothing. *)
Example nothing_held_is_negative : total_retained_usd (held_dto []) = S754_zero true.
Proof. reflexivity. Qed.
End Example.
