(* ===== verification/Verdryx.v ===== *)
(** * Verdryx: the store of evaluations and what the quality panel reads of it
    ([crates/connectors/src/verdryx.rs], [crates/api/src/quality/commands.rs],
    [state.rs])

    Verdryx keeps its runs, scores and baselines in a SQLite file of its own; the
    console opens it for reading and sends it queries.  A table is the list of
    its rows in rowid order and a column of a row is a [cell], of whatever type
    SQLite stored.  A query is a function of the tables as the statement finds
    them: the file may change between two statements, and any statement may
    fail.  SQLite's aggregates, its order of cells and its sorter are parameters
    with the laws its documentation states. *)
From S2P Require Import Prelude Text Json Prog.
From Stdlib Require Import Floats.SpecFloat.
From S2P Require Import Double.
From S2P Require Discover.

#[export] Instance double_eq_dec : EqDecision double.
Proof. solve_decision. Defined.

Inductive cell : Type :=
| CNull
| CInt (n : Z)
| CReal (d : double)
| CText (s : str)
| CBlob (b : list Z).
#[export] Instance cell_eq_dec : EqDecision cell.
Proof. solve_decision. Defined.

Class Sqlite := {
  cell_leb : cell -> cell -> bool;
  sorts : forall {A}, (A -> A -> bool) -> list A -> list A;   (* ORDER BY *)
  avg : list cell -> cell;
  sum : list cell -> result cell str;
  bad_column : nat -> cell -> str;   (* rusqlite's text for a column of another type *)
}.

Class SqliteLaws `{SQ : Sqlite} := {
  cell_leb_total a b : cell_leb a b = true \/ cell_leb b a = true;
  cell_leb_trans a b c : cell_leb a b = true -> cell_leb b c = true -> cell_leb a c = true;
  cell_leb_text a b : cell_leb (CText a) (CText b) = str_leb a b;
  sorts_perm {A} (leb : A -> A -> bool) l : Permutation (sorts leb l) l;
  sorts_sorted {A} (leb : A -> A -> bool) l :
    (forall a b, leb a b = true \/ leb b a = true) -> (forall a b c, leb a b = true -> leb b c = true -> leb a c = true) ->
    StronglySorted (fun a b => leb a b = true) (sorts leb l);
  avg_null l : avg l = CNull <-> Forall (fun c => c = CNull) l;
  avg_real l : avg l = CNull \/ exists d, avg l = CReal d;
}.

(** ** The tables (store.py's schema) *)

Record RunRow : Type := mkRunRow { r_id : cell; r_model : cell; r_started : cell; r_finished : cell }.
Record ScoreRow : Type := mkScoreRow
  { s_id : Z; s_run : cell; s_case : cell; s_value : cell; s_tokens : cell; s_cost : cell }.
Record BaselineRow : Type := mkBaselineRow
  { b_id : cell; b_run : cell; b_mean : cell; b_created : cell; b_label : cell }.
Record UnansweredRow : Type := mkUnansweredRow { u_run : cell; u_reason : cell }.
(** An older store has no table of unanswered cases. *)
Record Tables : Type := mkTables
  { eval_runs : list RunRow; scores : list ScoreRow; baselines : list BaselineRow; unanswered : option (list UnansweredRow) }.

(** ** The client ([verdryx.rs]) *)

Inductive VerdryxError : Type :=
| VOpen (path source : str)
| VQuery (source : str).
Definition verdryx_text (e : VerdryxError) : str :=
  match e with
  | VOpen path source => #"open verdryx db " ++ path ++ #": " ++ source
  | VQuery source => #"query verdryx db: " ++ source
  end.

Record EvalRun : Type := mkEvalRun { id : str; model : str; started_at : str; finished_at : option str }.
Record Score : Type := mkScore { sc_id : Z; run_id : str; case_id : str; sc_value : double; tokens : Z; cost_usd : double }.
Record Baseline : Type := mkBaseline { bl_id : str; eval_run_id : str; bl_mean_score : double; created_at : str; label : str }.
Record UnansweredReasonCount : Type := mkReason { reason : str; count : Z }.
Record RunSummary : Type := mkSummary
  { run : EvalRun; case_count : Z; mean_score : option double; total_tokens : Z; total_cost_usd : double;
    unanswered_total : Z; by_reason : list UnansweredReasonCount; unanswered_supported : bool }.
Record BaselineSummary : Type := mkBaselineSummary
  { baseline : Baseline; bs_unanswered_total : Z; bs_by_reason : list UnansweredReasonCount; bs_unanswered_supported : bool }.

(** What the client does of the file. *)
Inductive op : Type :=
| OpenDb (path : str)
| BusyTimeout (path : str)
| Select (path : str)
| Blocking.              (* [spawn_blocking]: whether the task ran *)
Definition resp (o : op) : Type :=
  match o with
  | OpenDb _ | BusyTimeout _ => result unit str
  | Select _ => result Tables str
  | Blocking => result unit str
  end%type.
#[local] Arguments Do {op resp A} & _ _.
Abbreviation program := (@prog op resp).
Notation "'ask!' x <- p ; k" :=
  (bind p (fun r => match r with Ok x => k | Err e => Ret (Err e) end))
  (at level 10, x name, p at level 100, k at level 200).

Record VerdryxClient : Type := mkClient { conn : str; unanswered_table_present : bool }.

Section Reader.
Context {SQ : Sqlite}.

(** *** [row.get] *)
Definition get_string (i : nat) (c : cell) : result str str := match c with CText s => Ok s | _ => Err (bad_column i c) end.
Definition get_i64 (i : nat) (c : cell) : result Z str := match c with CInt n => Ok n | _ => Err (bad_column i c) end.
Definition get_f64 (i : nat) (c : cell) : result double str :=
  match c with CReal d => Ok d | CInt n => Ok (of_Z n) | _ => Err (bad_column i c) end.
Definition get_opt {A} (get : nat -> cell -> result A str) (i : nat) (c : cell) : result (option A) str :=
  match c with CNull => Ok None | _ => let? a := get i c in Ok (Some a) end.

(** [collect] of results: the first error. *)
Fixpoint collect {A E} (l : list (result A E)) : result (list A) E :=
  match l with
  | [] => Ok []
  | x :: l => let? a := x in let? as_ := collect l in Ok (a :: as_)
  end.
(** [run_id = ?1]. *)
Definition is_text (s : str) (c : cell) : bool := bool_decide (c = CText s).
(** [ORDER BY c DESC]. *)
Definition descending {A} (key : A -> cell) (a b : A) : bool := cell_leb (key b) (key a).

Definition eval_run_of (r : RunRow) : result EvalRun str :=
  let? id := get_string 0 (r_id r) in
  let? model := get_string 1 (r_model r) in
  let? started := get_string 2 (r_started r) in
  let? finished := get_opt get_string 3 (r_finished r) in
  Ok (mkEvalRun id model started finished).
Definition score_of (r : ScoreRow) : result Score str :=
  let? run := get_string 1 (s_run r) in
  let? case := get_string 2 (s_case r) in
  let? value := get_f64 3 (s_value r) in
  let? tokens := get_i64 4 (s_tokens r) in
  let? cost := get_f64 5 (s_cost r) in
  Ok (mkScore (s_id r) run case value tokens cost).
Definition baseline_of (r : BaselineRow) : result Baseline str :=
  let? id := get_string 0 (b_id r) in
  let? run := get_string 1 (b_run r) in
  let? mean := get_f64 2 (b_mean r) in
  let? created := get_string 3 (b_created r) in
  let? label := get_string 4 (b_label r) in
  Ok (mkBaseline id run mean created label).

(** [GROUP BY reason ORDER BY reason]. *)
Definition reasons_of (run_id : str) (rows : list UnansweredRow) : list cell :=
  map u_reason (List.filter (fun r => is_text run_id (u_run r)) rows).
Definition groups (cs : list cell) : list (cell * Z) :=
  map (fun k => (k, Z.of_nat (length (List.filter (fun c => bool_decide (c = k)) cs)))) (sorts cell_leb (remove_dups cs)).
Definition reason_count (g : cell * Z) : result UnansweredReasonCount str :=
  let? reason := get_string 0 g.1 in Ok (mkReason reason g.2).

(** [SELECT COUNT( * ), AVG(value), COALESCE(SUM(tokens), 0), COALESCE(SUM(cost_usd), 0.0)]. *)
Definition coalesce (c default : cell) : cell := match c with CNull => default | _ => c end.
Definition aggregate (run_id : str) (t : Tables) : result (Z * option double * Z * double) str :=
  let rows := List.filter (fun r => is_text run_id (s_run r)) (scores t) in
  let? tokens := sum (map s_tokens rows) in
  let? cost := sum (map s_cost rows) in
  let? mean := get_opt get_f64 1 (avg (map s_value rows)) in
  let? tokens := get_i64 2 (coalesce tokens (CInt 0)) in
  let? cost := get_f64 3 (coalesce cost (CReal zero)) in
  Ok (Z.of_nat (length rows), mean, tokens, cost).

(** *** The client's calls *)

Definition query {T} (c : VerdryxClient) (f : Tables -> result T str) : program (result T VerdryxError) :=
  do x <- Select (conn c); Ret (map_err VQuery (let? t := x in f t)).

Definition table_exists (path : str) : program (result bool str) :=
  do x <- Select path; Ret (let? t := x in Ok (match unanswered t with Some _ => true | None => false end)).
Definition open (path : str) : program (result VerdryxClient VerdryxError) :=
  do x <- OpenDb path;
  match x with
  | Err e => Ret (Err (VOpen path e))
  | Ok _ =>
      do x <- BusyTimeout path;
      match x with
      | Err e => Ret (Err (VOpen path e))
      | Ok _ => do! present <- table_exists path; Ret (let? b := map_err (VOpen path) present in Ok (mkClient path b))
      end
  end.

Definition NO_TABLE : str := #"no such table: unanswered".
Definition unanswered_by_reason (c : VerdryxClient) (run_id : str) : program (result (list UnansweredReasonCount) VerdryxError) :=
  if negb (unanswered_table_present c) then Ret (Ok [])
  else query c (fun t => let? rows := ok_or (unanswered t) NO_TABLE in collect (map reason_count (groups (reasons_of run_id rows)))).
(** [sum] of the counts. *)
Definition total (rs : list UnansweredReasonCount) : Z := fold_left (fun a r => a + count r) rs 0.
Definition unanswered_count (c : VerdryxClient) (run_id : str) : program (result Z VerdryxError) :=
  do! rs <- unanswered_by_reason c run_id; Ret (let? rs := rs in Ok (total rs)).

Definition list_eval_runs (c : VerdryxClient) : program (result (list EvalRun) VerdryxError) :=
  query c (fun t => collect (map eval_run_of (sorts (descending r_started) (eval_runs t)))).
Definition latest_run (c : VerdryxClient) : program (result (option EvalRun) VerdryxError) :=
  do! rs <- list_eval_runs c; Ret (let? rs := rs in Ok (head rs)).
Definition scores_for_run (c : VerdryxClient) (run_id : str) : program (result (list Score) VerdryxError) :=
  query c (fun t => collect (map score_of (List.filter (fun r => is_text run_id (s_run r)) (scores t)))).
Definition list_baselines (c : VerdryxClient) : program (result (list Baseline) VerdryxError) :=
  query c (fun t => collect (map baseline_of (sorts (descending b_created) (baselines t)))).

Definition run_row (run_id : str) (t : Tables) : result (option EvalRun) str :=
  match List.find (fun r => is_text run_id (r_id r)) (eval_runs t) with
  | Some r => let? run := eval_run_of r in Ok (Some run)
  | None => Ok None
  end.
Definition run_summary (c : VerdryxClient) (run_id : str) : program (result (option RunSummary) VerdryxError) :=
  ask! run <- query c (run_row run_id);
  match run with
  | None => Ret (Ok None)
  | Some run =>
      ask! agg <- query c (aggregate run_id);
      ask! reasons <- unanswered_by_reason c run_id;
      let '(cases, mean, tokens, cost) := agg in
      Ret (Ok (Some (mkSummary run cases mean tokens cost (total reasons) reasons (unanswered_table_present c))))
  end.

Fixpoint summaries (c : VerdryxClient) (bs : list Baseline) : program (result (list BaselineSummary) VerdryxError) :=
  match bs with
  | [] => Ret (Ok [])
  | b :: bs =>
      ask! reasons <- unanswered_by_reason c (eval_run_id b);
      ask! rest <- summaries c bs;
      Ret (Ok (mkBaselineSummary b (total reasons) reasons (unanswered_table_present c) :: rest))
  end.
Definition list_baseline_summaries (c : VerdryxClient) : program (result (list BaselineSummary) VerdryxError) :=
  ask! bs <- list_baselines c; summaries c bs.
End Reader.

(** ** The quality plane ([state.rs], [commands.rs]) *)

Record QualityClient : Type := mkQuality { source : Discover.EnvSource; db_path : str }.
Inductive QualityInner : Type :=
| Bootstrapping
| NoEnvironment
| Unreachable (source : Discover.EnvSource) (db_path reason : str)
| Ready (client : QualityClient).
Inductive QualityStatusDto : Type :=
| SBootstrapping | SNoEnvironment
| SUnreachable (source : Discover.EnvSource) (db_path reason : str)
| SReady (source : Discover.EnvSource) (db_path : str).
Inductive QualityError : Type :=
| EBootstrapping
| ENoEnvironment
| EUnreachable (reason : str)
| EVerdryx (message : str).
Definition quality_error (e : VerdryxError) : QualityError := EVerdryx (verdryx_text e).

Section Quality.
Context {JT : JsonText} {SQ : Sqlite}.

Definition confirm_openable (resolved : Discover.Quality.ResolvedEnv_quality) : program QualityInner :=
  let src := Discover.Quality.source resolved in
  let path := Discover.Quality.db_path resolved in
  do ran <- Blocking;
  match ran with
  | Err e => Ret (Unreachable src path (#"bootstrap task failed to run: " ++ e))
  | Ok _ =>
      do! opened <- open path;
      Ret (match opened with
           | Ok _ => Ready (mkQuality src path)
           | Err e => Unreachable src path (verdryx_text e)
           end)
  end.
Definition bootstrap (w : Discover.World) : program QualityInner :=
  match Discover.Quality.discover_quality w with
  | None => Ret NoEnvironment
  | Some resolved => confirm_openable resolved
  end.

Definition ready_client (inner : QualityInner) : result QualityClient QualityError :=
  match inner with
  | Ready c => Ok c
  | Bootstrapping => Err EBootstrapping
  | NoEnvironment => Err ENoEnvironment
  | Unreachable _ _ reason => Err (EUnreachable reason)
  end.
Definition status_dto (inner : QualityInner) : QualityStatusDto :=
  match inner with
  | Bootstrapping => SBootstrapping
  | NoEnvironment => SNoEnvironment
  | Unreachable s p r => SUnreachable s p r
  | Ready c => SReady (source c) (db_path c)
  end.
Definition quality_status (inner : QualityInner) : QualityStatusDto := status_dto inner.

Definition run_blocking {T} (f : program (result T VerdryxError)) : program (result T QualityError) :=
  do ran <- Blocking;
  match ran with
  | Err e => Ret (Err (EVerdryx (#"quality read task failed to run: " ++ e)))
  | Ok _ => do! r <- f; Ret (map_err quality_error r)
  end.
(** A command on the store of a ready plane, over a connection of its own. *)
Definition on_store {T} (inner : QualityInner) (f : VerdryxClient -> program (result T VerdryxError)) : program (result T QualityError) :=
  match ready_client inner with
  | Err e => Ret (Err e)
  | Ok q => run_blocking (ask! c <- open (db_path q); f c)
  end.

Fixpoint run_summaries (c : VerdryxClient) (runs : list EvalRun) : program (result (list RunSummary) VerdryxError) :=
  match runs with
  | [] => Ret (Ok [])
  | r :: runs =>
      ask! s <- run_summary c (id r);
      ask! rest <- run_summaries c runs;
      Ret (Ok (match s with Some s => s :: rest | None => rest end))
  end.
Definition quality_list_run_summaries (inner : QualityInner) : program (result (list RunSummary) QualityError) :=
  on_store inner (fun c => ask! runs <- list_eval_runs c; run_summaries c runs).
Definition quality_run_scores (run_id : str) (inner : QualityInner) : program (result (list Score) QualityError) :=
  on_store inner (fun c => scores_for_run c run_id).
Definition quality_list_baselines (inner : QualityInner) : program (result (list BaselineSummary) QualityError) :=
  on_store inner list_baseline_summaries.
End Quality.

(** ** A store at rest

    Verdryx writes in batches, so the store is at rest when the panel reads it:
    every statement finds the same tables and none fails. *)

Definition at_rest (t : Tables) (o : op) : resp o :=
  match o with OpenDb _ | BusyTimeout _ | Blocking => Ok tt | Select _ => Ok t end.
Fixpoint on {A} (t : Tables) (p : program A) : A :=
  match p with Ret a => a | Do o k => on t (k (at_rest t o)) end.

Definition has_unanswered (t : Tables) : bool := match unanswered t with Some _ => true | None => false end.
Definition client_of (t : Tables) (path : str) : VerdryxClient := mkClient path (has_unanswered t).
Definition scores_of (run_id : str) (t : Tables) : list ScoreRow := List.filter (fun r => is_text run_id (s_run r)) (scores t).
Definition refused (run_id : str) (t : Tables) : list cell := reasons_of run_id (default [] (unanswered t)).
Definition times (c : cell) (cs : list cell) : Z := Z.of_nat (length (List.filter (fun c' => bool_decide (c' = c)) cs)).

Lemma on_bind {A B} t (p : program A) (f : A -> program B) : on t (bind p f) = on t (f (on t p)).
Proof. induction p as [a|o k IH]; simpl; [done|apply IH]. Qed.
Lemma on_try {A B E} t (p : program (result A E)) (f : A -> program (result B E)) :
  on t (ask! x <- p; f x) = (let? x := on t p in on t (f x)).
Proof. rewrite on_bind. by destruct (on t p). Qed.

Lemma collected {A B E} (f : A -> result B E) l r :
  collect (map f l) = Ok r <-> Forall2 (fun a b => f a = Ok b) l r.
Proof.
  revert r. induction l as [|a l IH]; intros r; simpl.
  { split; [intros [= <-]; constructor|]. inversion 1. done. }
  destruct (f a) as [b|e] eqn:Ea; simpl; [|split; [done|inversion 1; congruence]].
  destruct (collect (map f l)) as [bs|e]; simpl.
  - split.
    + intros [= <-]. constructor; [done|]. by apply IH.
    + inversion 1 as [|? b' ? bs' Hb Hl]; subst. apply IH in Hl as [= ->]. congruence.
  - split; [done|]. inversion 1 as [|? b' ? bs' Hb Hl]; subst. by apply IH in Hl.
Qed.

(** *** Counting *)

Lemma times_cons c d cs : times c (d :: cs) = (if bool_decide (d = c) then 1 else 0) + times c cs.
Proof. unfold times. simpl. case_bool_decide; simpl; lia. Qed.
Lemma times_pos c cs : 0 < times c cs <-> c ∈ cs.
Proof.
  induction cs as [|d cs IH]; [split; [done|by intros ?%elem_of_nil]|].
  rewrite times_cons, elem_of_cons, <- IH. assert (0 <= times c cs) by (unfold times; lia).
  destruct (decide (d = c)) as [->|Hne]; [rewrite bool_decide_true by done; split; [by left|lia]|].
  rewrite bool_decide_false by done. split; [right; lia|]. intros [->|?]; [done|lia].
Qed.

Lemma total_from a rs : fold_left (fun a r => a + count r) rs a = a + total rs.
Proof.
  unfold total. revert a. induction rs as [|r rs IH]; intros a; simpl; [lia|]. rewrite IH, (IH (0 + count r)). lia.
Qed.
Lemma total_cons r rs : total (r :: rs) = count r + total rs.
Proof. unfold total at 1. simpl. rewrite total_from. done. Qed.

Definition sums (ks cs : list cell) : Z := fold_right (fun k a => times k cs + a) 0 ks.
Lemma sums_cons ks c cs : NoDup ks -> c ∈ ks -> sums ks (c :: cs) = 1 + sums ks cs.
Proof.
  induction 1 as [|k ks Hk _ IH]; [by intros ?%elem_of_nil|]. intros [->|Hc]%elem_of_cons; simpl; rewrite times_cons.
  - rewrite bool_decide_true by done. enough (sums ks (k :: cs) = sums ks cs) by lia.
    clear IH. induction ks as [|k' ks IH]; [done|]. simpl. apply not_elem_of_cons in Hk as [? ?].
    rewrite times_cons, bool_decide_false, IH by done. lia.
  - rewrite bool_decide_false by (intros ->; done). rewrite IH by done. lia.
Qed.
Lemma sums_all ks cs : NoDup ks -> (forall c, c ∈ cs -> c ∈ ks) -> sums ks cs = Z.of_nat (length cs).
Proof.
  intros Hk. induction cs as [|c cs IH]; intros H.
  - clear. induction ks; simpl; [done|]. by rewrite IHks.
  - rewrite sums_cons, IH; [simpl; lia| |done|]; [intros|]; apply H; set_solver.
Qed.

Section Laws.
Context {SQ : Sqlite} {SL : SqliteLaws}.

Lemma reason_count_ok g r : reason_count g = Ok r <-> g = (CText (reason r), count r).
Proof.
  unfold reason_count, get_string. destruct g as [[] n], r as [w m]; simpl; split; try done; by intros [= -> ->].
Qed.

Lemma groups_keys cs : map fst (groups cs) = sorts cell_leb (remove_dups cs).
Proof. unfold groups. rewrite map_map. apply map_id. Qed.
Lemma elem_of_groups cs c n : (c, n) ∈ groups cs <-> n = times c cs /\ 0 < n.
Proof.
  unfold groups. rewrite list_elem_of_fmap. split.
  - intros (k&[= -> ->]&Hk). rewrite sorts_perm, elem_of_remove_dups in Hk. split; [done|]. by apply times_pos.
  - intros [-> H]. exists c. split; [done|]. rewrite sorts_perm, elem_of_remove_dups. by apply times_pos.
Qed.
Lemma keys_distinct cs : NoDup (map fst (groups cs)).
Proof. rewrite groups_keys, sorts_perm. apply NoDup_remove_dups. Qed.
Lemma keys_sorted cs : StronglySorted (fun a b => cell_leb a b = true) (map fst (groups cs)).
Proof. rewrite groups_keys. apply sorts_sorted; [apply cell_leb_total|apply cell_leb_trans]. Qed.

(** What the answer by reason is of the rows it counts. *)
Lemma reasons_are_counted cs rs :
  collect (map reason_count (groups cs)) = Ok rs ->
  total rs = Z.of_nat (length cs)
  /\ StronglySorted (fun a b => str_ltb (reason a) (reason b) = true) rs
  /\ (forall w n, mkReason w n ∈ rs <-> n = times (CText w) cs /\ 0 < n).
Proof.
  intros H%collected.
  assert (E : groups cs = map (fun r => (CText (reason r), count r)) rs).
  { clear -H. induction H as [|g r gs rs Hg _ IH]; [done|]. simpl. apply reason_count_ok in Hg as ->. by f_equal. }
  split_and!.
  - rewrite <- (sums_all (map fst (groups cs)) cs); [|apply keys_distinct|].
    + assert (Ht : Forall (fun g => g.2 = times g.1 cs) (groups cs)).
      { apply Forall_forall. intros [c n] Hg. by apply elem_of_groups in Hg as [-> _]. }
      rewrite E in *. clear -Ht. induction rs as [|r rs IH]; [done|]. simpl in *. inversion Ht as [|? ? Hr Hrs]; subst.
      simpl in Hr. by rewrite total_cons, Hr, IH.
    + intros c Hc. rewrite groups_keys, sorts_perm. by apply elem_of_remove_dups.
  - pose proof (keys_distinct cs) as Hd. pose proof (keys_sorted cs) as Hs. rewrite E, map_map in Hd, Hs. simpl in *.
    clear -Hd Hs SL. induction rs as [|r rs IH]; [constructor|]. simpl in *.
    inversion Hd as [|? ? Hr Hd']; subst. inversion Hs as [|? ? Hs' Hall]; subst. constructor; [by apply IH|].
    apply Forall_forall. intros r' Hr'. rewrite Forall_forall in Hall. apply str_ltb_iff. split.
    + rewrite <- cell_leb_text. apply Hall, list_elem_of_fmap. eauto.
    + intros Eq. apply Hr, list_elem_of_fmap. exists r'. by rewrite Eq.
  - intros w n. rewrite <- elem_of_groups, E, list_elem_of_fmap. split.
    + intros Hin. by exists (mkReason w n).
    + intros ([w' n']&[= -> ->]&Hin). done.
Qed.

Lemma on_reasons t path id rs :
  on t (unanswered_by_reason (client_of t path) id) = Ok rs ->
  collect (map reason_count (groups (refused id t))) = Ok rs.
Proof.
  unfold unanswered_by_reason, client_of, has_unanswered, refused. simpl.
  destruct (unanswered t) as [rows|] eqn:E; simpl.
  - rewrite E. simpl. by destruct (collect _) as [?|?]; simpl; intros [= ->].
  - intros [= <-]. change (reasons_of id []) with (@nil cell).
    assert (groups [] = []) as ->; [|done]. unfold groups.
    pose proof (sorts_perm cell_leb (remove_dups (@nil cell))) as Hp. simpl in Hp. apply Permutation_sym, Permutation_nil in Hp.
    simpl. by rewrite Hp.
Qed.

Lemma mean_of cs d : get_opt get_f64 1 (avg cs) = Ok d -> (d = None <-> Forall (fun c => c = CNull) cs).
Proof.
  rewrite <- avg_null. destruct (avg_real cs) as [->|[x ->]]; simpl; intros [= <-]; done.
Qed.

(** A run's summary is the count of its rows.  On a store at rest a summary
    is that of the run that was asked for: its answered cases are the run's
    scores, its mean is absent exactly when no case was scored, and the cases
    not answered are all counted, once each, under their reasons, every reason
    that occurs, in order; on a store that has no table of them the summary says
    so.  There is no summary exactly when there is no such run. *)
Theorem summary_counts_the_runs_rows t path id :
  match on t (run_summary (client_of t path) id) with
  | Ok None => Forall (fun r => r_id r <> CText id) (eval_runs t)
  | Ok (Some s) =>
      (exists r, r ∈ eval_runs t /\ r_id r = CText id /\ eval_run_of r = Ok (run s))
      /\ case_count s = Z.of_nat (length (scores_of id t))
      /\ (mean_score s = None <-> Forall (fun r => s_value r = CNull) (scores_of id t))
      /\ unanswered_supported s = has_unanswered t
      /\ unanswered_total s = Z.of_nat (length (refused id t))
      /\ StronglySorted (fun a b => str_ltb (reason a) (reason b) = true) (by_reason s)
      /\ (forall w n, mkReason w n ∈ by_reason s <-> n = times (CText w) (refused id t) /\ 0 < n)
  | Err e => exists x, e = VQuery x
  end.
Proof.
  unfold run_summary. rewrite on_try. simpl. unfold run_row.
  destruct (List.find _ _) as [r|] eqn:Ef; simpl.
  2:{ apply Forall_forall. intros r Hr E. apply list_elem_of_In in Hr. apply (find_none _ _ Ef) in Hr.
      unfold is_text in Hr. by rewrite E, bool_decide_true in Hr. }
  apply find_some in Ef as [Hin Hid]. apply bool_decide_eq_true in Hid.
  destruct (eval_run_of r) as [e|x] eqn:Er; simpl; [|by eexists].
  unfold aggregate. fold (scores_of id t).
  destruct (sum (map s_tokens _)) as [tok|x]; simpl; [|by eexists].
  destruct (sum (map s_cost _)) as [cost|x]; simpl; [|by eexists].
  destruct (get_opt get_f64 1 _) as [mean|x] eqn:Em; simpl; [|by eexists].
  destruct (get_i64 2 _) as [tok'|x]; simpl; [|by eexists].
  destruct (get_f64 3 _) as [cost'|x]; simpl; [|by eexists].
  rewrite on_try. destruct (on t (unanswered_by_reason _ id)) as [rs|x] eqn:Eu; simpl.
  2:{ revert Eu. unfold unanswered_by_reason. destruct (negb _); simpl; [done|]. intros Hx.
      destruct (let? rows := _ in _) in Hx; simpl in Hx; [done|]. injection Hx as <-. by eexists. }
  apply on_reasons, reasons_are_counted in Eu as (Htot&Hs&Hw). apply mean_of in Em. split_and!; try done.
  - exists r. split_and!; [by apply list_elem_of_In|done|done].
  - rewrite Em. by rewrite Forall_map.
Qed.

(** A store as verdryx keeps it: its ids are distinct and its columns hold what
    the schema says. *)
Record kept (t : Tables) : Prop := mkKept
  { ids_distinct : NoDup (map r_id (eval_runs t));
    runs_readable : Forall (fun r => is_ok (eval_run_of r) = true) (eval_runs t);
    reasons_readable : Forall (fun r => exists w, u_reason r = CText w) (default [] (unanswered t));
    sums_readable id : is_ok (aggregate id t) = true }.

Lemma collect_is_ok {A B E} (f : A -> result B E) l :
  Forall (fun a => is_ok (f a) = true) l -> exists r, collect (map f l) = Ok r.
Proof.
  induction 1 as [|a l Ha _ [r IH]]; simpl; [eauto|]. destruct (f a); [|done]. simpl. rewrite IH. simpl. eauto.
Qed.

Lemma kept_reasons t path id : kept t -> exists rs, on t (unanswered_by_reason (client_of t path) id) = Ok rs.
Proof.
  intros [_ _ Hr _]. unfold unanswered_by_reason, client_of, has_unanswered. simpl.
  destruct (unanswered t) as [rows|] eqn:E; simpl; [|eauto]. rewrite E. simpl in *.
  destruct (collect_is_ok reason_count (groups (reasons_of id rows))) as [r ->]; simpl; [|eauto].
  apply Forall_forall. intros [c n] [-> Hc%times_pos]%elem_of_groups.
  apply list_elem_of_fmap in Hc as (r&->&Hin). apply in_filter in Hin as [Hin _].
  rewrite Forall_forall in Hr. by apply Hr in Hin as [w ->].
Qed.

Lemma kept_summary t path r e :
  kept t -> r ∈ eval_runs t -> eval_run_of r = Ok e ->
  exists s, on t (run_summary (client_of t path) (id e)) = Ok (Some s) /\ run s = e.
Proof.
  intros Hk Hin Er. pose proof Hk as [Hd _ _ Hs].
  assert (Hid : r_id r = CText (id e)).
  { unfold eval_run_of in Er. oks Er. unfold get_string in Hx. destruct (r_id r); try done.
    injection Hx as <-. by injection Er as <-. }
  unfold run_summary. rewrite on_try. simpl. unfold run_row.
  destruct (List.find _ _) as [r'|] eqn:Ef.
  2:{ apply list_elem_of_In, (find_none _ _ Ef) in Hin. unfold is_text in Hin. by rewrite Hid, bool_decide_true in Hin. }
  apply find_some in Ef as [Hin' Hid']. apply bool_decide_eq_true in Hid'. apply list_elem_of_In in Hin'.
  assert (r' = r) as -> by (eapply (NoDup_map_inj r_id); [exact Hd|done|done|congruence]).
  rewrite Er. simpl. specialize (Hs (id e)). destruct (aggregate (id e) t) as [[[[n m] k] q]|]; [|done]. simpl.
  rewrite on_try. destruct (kept_reasons t path (id e) Hk) as [rs ->]. simpl. eauto.
Qed.

Lemma on_ready {T} t q (f : VerdryxClient -> program (result T VerdryxError)) :
  on t (on_store (Ready q) f) = map_err quality_error (on t (f (client_of t (db_path q)))).
Proof.
  unfold on_store, run_blocking. cbn [ready_client on at_rest]. rewrite on_bind, on_try.
  assert (on t (open (db_path q)) = Ok (client_of t (db_path q))) as -> by done. done.
Qed.

Lemma on_summaries t c e es :
  on t (run_summaries c (e :: es))
  = (let? s := on t (run_summary c (id e)) in
     let? rest := on t (run_summaries c es) in
     Ok (match s with Some s => s :: rest | None => rest end)).
Proof.
  cbn [run_summaries]. rewrite on_try. destruct (on t (run_summary c (id e))) as [s|x]; cbn [rbind]; [|done].
  rewrite on_try. by destruct (on t (run_summaries c es)).
Qed.

(** On a store that is kept the panel lists every run, the newest first, each
    with the summary of its own rows. *)
Theorem every_run_is_listed t q :
  kept t ->
  exists l, on t (quality_list_run_summaries (Ready q)) = Ok l
    /\ Forall2 (fun r s => eval_run_of r = Ok (run s) /\ on t (run_summary (client_of t (db_path q)) (id (run s))) = Ok (Some s))
         (sorts (descending r_started) (eval_runs t)) l.
Proof.
  intros Hk. unfold quality_list_run_summaries. rewrite on_ready, on_try.
  set (c := client_of t (db_path q)). set (rows := sorts _ _).
  assert (on t (list_eval_runs c) = map_err VQuery (collect (map eval_run_of rows))) as -> by done.
  assert (Hrows : forall r, r ∈ rows -> r ∈ eval_runs t) by (intros r; unfold rows; by rewrite sorts_perm).
  assert (Hok : Forall (fun r => is_ok (eval_run_of r) = true) rows).
  { apply Forall_forall. intros r Hr. pose proof (runs_readable t Hk) as H. rewrite Forall_forall in H. by apply H, Hrows. }
  destruct (collect_is_ok _ _ Hok) as [es E]. rewrite E. cbn [map_err rbind]. apply collected in E.
  clear Hok. induction E as [|r e rows' es Er _ IH]; [exists []; split; [done|constructor]|].
  destruct (kept_summary t (db_path q) r e Hk) as (s&Hs&He); [apply Hrows; by left|done|]. fold c in Hs.
  destruct IH as (l&Hl&HF); [intros; apply Hrows; by right|]. rewrite on_summaries, Hs. cbn [rbind].
  destruct (on t (run_summaries c es)) as [l'|x]; [|done]. injection Hl as ->.
  eexists. split; [done|]. constructor; [|done]. by rewrite He.
Qed.
End Laws.

(** A panel that is not ready reads no store. *)
Theorem only_a_ready_panel_reads `{SQ : Sqlite} {T} inner (f : VerdryxClient -> program (result T VerdryxError)) :
  match inner with Ready _ => True | _ => exists e, on_store inner f = Ret (Err e) end.
Proof. destruct inner; simpl; eauto. Qed.

(** ** Runs *)

Module Example.

Definition rank (c : cell) : Z :=
  match c with CNull => 0 | CInt _ | CReal _ => 1 | CText _ => 2 | CBlob _ => 3 end.
Definition cell_order (a b : cell) : bool :=
  match a, b with
  | CText s, CText t => str_leb s t
  | _, _ => rank a <=? rank b
  end.
Definition number (c : cell) : double := match c with CInt n => of_Z n | CReal d => d | _ => zero end.
#[local] Instance code_sqlite : Sqlite := {
  cell_leb := cell_order;
  sorts _ leb l := isort leb l;
  avg cs := match List.filter (fun c => negb (bool_decide (c = CNull))) cs with
            | [] => CNull
            | cs => CReal (div (fold_left (fun a c => add a (number c)) cs zero) (of_Z (Z.of_nat (length cs))))
            end;
  sum cs := Ok (match cs with [] => CNull | _ => CInt (fold_left (fun a c => match c with CInt n => a + n | _ => a end) cs 0) end);
  bad_column i c := #"column " ++ dec (Z.of_nat i);
}.
#[local] Instance code_laws : SqliteLaws.
Proof.
  split; simpl.
  - intros [] []; simpl; auto using lex_leb_total.
  - intros [] [] []; simpl; try done; apply lex_leb_trans.
  - done.
  - intros. apply isort_perm.
  - intros A leb l Ht Htr. by apply isort_sorted.
  - intros l. destruct (List.filter _ l) as [|c cs] eqn:E; split; try done.
    + intros _. apply Forall_forall. intros c Hc. destruct (decide (c = CNull)) as [|Hn]; [done|].
      exfalso. apply (not_elem_of_nil c). rewrite <- E. apply in_filter. by rewrite bool_decide_false.
    + intros H. assert (Hc : c ∈ List.filter (fun c => negb (bool_decide (c = CNull))) l) by (rewrite E; left).
      apply in_filter in Hc as [Hc Hn]. rewrite Forall_forall in H. apply H in Hc as ->. done.
  - intros l. destruct (List.filter _ l); eauto.
Qed.

Definition a_run (name started : str) : RunRow := mkRunRow (CText name) (CText #"m") (CText started) CNull.
Definition a_score (n : Z) (name : str) (v : cell) : ScoreRow := mkScoreRow n (CText name) (CText #"c") v (CInt 7) (CInt 0).
Definition a_refusal (name why : str) : UnansweredRow := mkUnansweredRow (CText name) (CText why).
Definition store : Tables :=
  mkTables [a_run #"r1" #"2026-07-17"; a_run #"r2" #"2026-07-18"]
    [a_score 1 #"r1" (CInt 1); a_score 2 #"r1" (CInt 0); a_score 3 #"r2" CNull] []
    (Some [a_refusal #"r1" #"low"; a_refusal #"r2" #"odd"; a_refusal #"r1" #"high"; a_refusal #"r1" #"low"]).

Example r1_is_summed :
  on store (run_summary (client_of store #"v.db") #"r1")
  = Ok (Some (mkSummary (mkEvalRun #"r1" #"m" #"2026-07-17" None) 2 (Some (div (of_Z 1) (of_Z 2))) 14 zero
               3 [mkReason #"high" 1; mkReason #"low" 2] true)).
Proof. vm_compute. reflexivity. Qed.

Lemma summary_counts_the_runs_rows_witness :
  match on store (run_summary (client_of store #"v.db") #"r1") with
  | Ok None => Forall (fun r => r_id r <> CText #"r1") (eval_runs store)
  | Ok (Some s) =>
      (exists r, r ∈ eval_runs store /\ r_id r = CText #"r1" /\ eval_run_of r = Ok (run s))
      /\ case_count s = Z.of_nat (length (scores_of #"r1" store))
      /\ (mean_score s = None <-> Forall (fun r => s_value r = CNull) (scores_of #"r1" store))
      /\ unanswered_supported s = has_unanswered store
      /\ unanswered_total s = Z.of_nat (length (refused #"r1" store))
      /\ StronglySorted (fun a b => str_ltb (reason a) (reason b) = true) (by_reason s)
      /\ (forall w n, mkReason w n ∈ by_reason s <-> n = times (CText w) (refused #"r1" store) /\ 0 < n)
  | Err e => exists x, e = VQuery x
  end.
Proof. exact (summary_counts_the_runs_rows store #"v.db" #"r1"). Defined.

(** A summary is three statements with no transaction around them. *)
Fixpoint across {A} (worlds : list Tables) (p : program A) : option A :=
  match p, worlds with
  | Ret a, _ => Some a
  | Do (Select _) k, t :: worlds => across worlds (k (Ok t))
  | Do o k, _ => None
  end.
Definition at_first : Tables := mkTables [a_run #"r1" #"2026-07-17"] [] [] (Some []).
Definition answered : Tables := mkTables [a_run #"r1" #"2026-07-17"] [a_score 1 #"r1" (CInt 1)] [] (Some []).
Definition refused_next : Tables :=
  mkTables [a_run #"r1" #"2026-07-17"] [a_score 1 #"r1" (CInt 1)] [] (Some [a_refusal #"r1" #"low"]).
Definition counts {E} (r : result (option RunSummary) E) : option (Z * Z) :=
  match r with Ok (Some s) => Some (case_count s, unanswered_total s) | _ => None end.
(** Of a run in flight it is that of no moment: the case that was refused is
    counted and the one answered before it is not. *)
Example summary_of_no_moment :
  counts <$> across [at_first; at_first; refused_next] (run_summary (mkClient #"v.db" true) #"r1") = Some (Some (0, 1))
  /\ map (fun t => counts (on t (run_summary (client_of t #"v.db") #"r1"))) [at_first; answered; refused_next]
     = [Some (0, 0); Some (1, 0); Some (1, 1)].
Proof. vm_compute. done. Qed.
End Example.
