(* ===== verification/Admission.v ===== *)
(** * Admission: a newcomer is checked, measured and drilled
    ([crates/api/src/admission/commands.rs], [state.rs],
    [crates/api/src/drills/commands.rs], [state.rs],
    [crates/connectors/src/mockryx.rs])

    Admission reads the gateway's key report to say whether a key and an agent
    are known, and runs verdryx through the gateway under the newcomer's own key:
    an evaluation, a baseline of it, and the summary read back from the store.
    A drill runs mockryx against the gateway.  Both give a child the key in its
    environment, never among its arguments.

    A command is a program over three kinds of operation: those of [Effects] (a
    request), those of [Verdryx] (a statement on the store) and a child that is
    started and waited for. *)
From S2P Require Import Prelude Text Json JsonCode Unicode Prog Http Retained.
From Stdlib Require Import Floats.SpecFloat.
From S2P Require Import Double.
From S2P Require Effects Discover Feed PolicyProof Provider Onboard Gateway Verdryx.

(** ** Operations *)

(** What a child that ended leaves; [code] is absent when a signal ended it. *)
Record Output : Type := mkOutput { code : option Z; stdout : list Z; stderr : list Z }.

Inductive op : Type :=
| Out (o : Effects.op)
| Sql (o : Verdryx.op)
| Spawn (bin : str) (args : list str) (env : list (str * str))   (* [Command::output] *)
| ReadFile (path : str).
Definition resp (o : op) : Type :=
  match o with
  | Out o => Effects.resp o
  | Sql o => Verdryx.resp o
  | Spawn _ _ _ => result Output str
  | ReadFile _ => result (list Z) str
  end%type.
Inductive event : Type :=
| Asked (e : Effects.event)
| Queried (o : Verdryx.op) (x : Verdryx.resp o)
| Ran (bin : str) (args : list str) (env : list (str * str)) (x : result Output str)
| Loaded (path : str) (x : result (list Z) str).
Definition event_of (o : op) (t : Z) : resp o -> event :=
  match o with
  | Out o => fun x => Asked (Effects.event_of o t x)
  | Sql o => Queried o
  | Spawn b a e => Ran b a e
  | ReadFile p => Loaded p
  end.
#[local] Arguments Do {op resp A} & _ _.
Abbreviation program := (@prog op resp).
Abbreviation ran tr p post := (wp event_of (fun _ _ => True) tr p post).
Notation "'ask!' x <- p ; k" :=
  (bind p (fun r => match r with Ok x => k | Err e => Ret (Err e) end))
  (at level 10, x name, p at level 100, k at level 200).

Fixpoint out {A} (p : Effects.program A) : program A :=
  match p with Ret a => Ret a | Do o k => Do (Out o) (fun x => out (k x)) end.

(** ** Mockryx ([mockryx.rs]) *)

Module Drills.

Inductive MockryxError : Type :=
| MSpawn (bin source : str)
| MCli (code : Z) (stderr : str)
| MJson (e : str)
| MRead (path source : str).
Definition mockryx_text (e : MockryxError) : str :=
  match e with
  | MSpawn bin source => #"mockryx spawn " ++ bin ++ #": " ++ source
  | MCli code stderr => #"mockryx exited " ++ dec code ++ #": " ++ stderr
  | MJson e => #"json: " ++ e
  | MRead path source => #"read " ++ path ++ #": " ++ source
  end.

Record MockryxFinding : Type := mkFinding
  { f_scenario : str; step : str; attempt : Z; expect_status : Z; expect_header : option (list (str * str));
    got_status : Z; got_headers : option (list (str * str)); f_detail : str;
    expect_event_source : option str; expect_event_type : option str }.
Record MockryxMetrics : Type := mkMetrics { calls : Z; budget_burned_usd : f64 }.
Record MockryxResult : Type := mkResult
  { scenario : str; m_status : str; findings : list MockryxFinding; skipped_findings : list MockryxFinding;
    metrics : MockryxMetrics }.
Record MockryxReport : Type := mkReport
  { m_run_id : str; m_gateway : str; generated_at : str; results : list MockryxResult }.
Definition has_gaps (r : MockryxReport) : bool :=
  existsb (fun x => str_eqb (m_status x) #"failed" || negb (bool_decide (length (findings x) = 0%nat))) (results r).

(** serde's reader. *)
Class MockryxWire := { read_report : list Z -> result MockryxReport str }.

Record MockryxClient : Type := mkClient { bin : str; events_path : option str }.
Definition new (bin : str) : MockryxClient := mkClient bin None.
Definition with_events_path (c : MockryxClient) (path : str) : MockryxClient := mkClient (bin c) (Some path).

Definition run_args (scenario_dir gateway : str) (fail_on_skip : bool) (save : option str) : list str :=
  [ #"run"; #"--gateway"; gateway; #"--format"; #"json"]
  ++ (if fail_on_skip then [ #"--fail-on-skip"] else [])
  ++ (match save with Some s => [ #"--save"; s] | None => [] end)
  ++ [scenario_dir].
Definition run_env (api_key events : option str) : list (str * str) :=
  (match api_key with Some k => [(#"MOCKRYX_API_KEY", k)] | None => [] end)
  ++ (match events with Some p => [(#"MOCKRYX_EVENTS_PATH", p)] | None => [] end).

Section Run.
Context {JT : JsonText} {MW : MockryxWire}.

Definition run_answer (bin : str) (x : result Output str) : result MockryxReport MockryxError :=
  match x with
  | Err e => Err (MSpawn bin e)
  | Ok o =>
      let c := default (-1) (code o) in
      if negb (c =? 0) && negb (c =? 1) then Err (MCli c (trim (from_utf8_lossy (stderr o))))
      else map_err MJson (read_report (stdout o))
  end.
Definition run (c : MockryxClient) (scenario_dir gateway : str) (api_key : option str) (fail_on_skip : bool) (save : option str)
  : program (result MockryxReport MockryxError) :=
  do x <- Spawn (bin c) (run_args scenario_dir gateway fail_on_skip save) (run_env api_key (events_path c));
  Ret (run_answer (bin c) x).
Definition load_report (path : str) : program (result MockryxReport MockryxError) :=
  do x <- ReadFile path;
  Ret (let? bytes := map_err (MRead path) x in map_err MJson (read_report bytes)).

(** *** The plane ([drills/state.rs], [drills/commands.rs]) *)

Record DrillsClient : Type := mkDrills
  { client : MockryxClient; source : Discover.EnvSource; mockryx_bin : str; gateway_url : str; api_key : option str;
    scenario_dir : option str }.
Inductive DrillsInner : Type :=
| Bootstrapping
| NoEnvironment
| Ready (client : DrillsClient).
Inductive DrillsStatusDto : Type :=
| SBootstrapping | SNoEnvironment
| SReady (source : Discover.EnvSource) (mockryx_bin gateway_url : str) (has_api_key : bool) (scenario_dir : option str).
Inductive DrillsError : Type :=
| EBootstrapping
| ENoEnvironment
| EMockryx (message : str).

(** [bus::discover]: the bus of the newest descriptor that names one. *)
Definition bus (w : Discover.World) : option Feed.ResolvedBus :=
  let! dir := Discover.environments_dir w in
  let entry n := let p := Discover.join dir n in Feed.mkDescriptor p (Discover.mtime w p) (Discover.read w p) in
  Feed.discover_in (map entry (default [] (Discover.names w dir))).
Definition bootstrap_drills (w : Discover.World) : DrillsInner :=
  match Discover.Drills.discover_drills w with
  | None => NoEnvironment
  | Some r =>
      let plain := new (Discover.Drills.mockryx_bin r) in
      let client :=
        match (let! b := bus w in Feed.writer_path (Discover.is_dir w) b #"mockryx") with
        | Some path => with_events_path plain path
        | None => plain
        end in
      Ready (mkDrills client (Discover.Drills.source r) (Discover.Drills.mockryx_bin r) (Discover.Drills.gateway_url r)
               (Discover.Drills.api_key r) (Discover.Drills.scenario_dir r))
  end.

Definition ready_drills (inner : DrillsInner) : result DrillsClient DrillsError :=
  match inner with Ready c => Ok c | Bootstrapping => Err EBootstrapping | NoEnvironment => Err ENoEnvironment end.
Definition drills_status_dto (inner : DrillsInner) : DrillsStatusDto :=
  match inner with
  | Bootstrapping => SBootstrapping
  | NoEnvironment => SNoEnvironment
  | Ready c => SReady (source c) (mockryx_bin c) (gateway_url c) (match api_key c with Some _ => true | None => false end) (scenario_dir c)
  end.
Definition drills_status (inner : DrillsInner) : DrillsStatusDto := drills_status_dto inner.

Definition run_blocking_drills {T} (f : program (result T MockryxError)) : program (result T DrillsError) :=
  do ran <- Sql Verdryx.Blocking;
  match ran with
  | Err e => Ret (Err (EMockryx (#"drills run task failed to run: " ++ e)))
  | Ok _ => do! r <- f; Ret (map_err (fun e => EMockryx (mockryx_text e)) r)
  end.
(** [filter(|k| !k.trim().is_empty())]. *)
Definition given (x : option str) : option str :=
  match x with Some s => if bool_decide (trim s = []) then None else Some s | None => None end.
Definition drills_run (dir : str) (key : option str) (fail_on_skip : bool) (save : option str) (inner : DrillsInner)
  : program (result MockryxReport DrillsError) :=
  match ready_drills inner with
  | Err e => Ret (Err e)
  | Ok c =>
      let key := match given key with Some k => Some k | None => api_key c end in
      run_blocking_drills (run (client c) dir (gateway_url c) key fail_on_skip (given save))
  end.
End Run.
End Drills.

(** ** The admission plane ([state.rs]) *)

Record AdmissionClient : Type := mkAdmission { client : GatewayClient; source : Discover.EnvSource; gateway_url : str }.
Inductive AdmissionInner : Type :=
| Bootstrapping
| NoEnvironment
| Unreachable (source : Discover.EnvSource) (gateway_url reason : str)
| Ready (client : AdmissionClient).
Inductive GatewayStatusDto : Type :=
| SBootstrapping | SNoEnvironment
| SUnreachable (source : Discover.EnvSource) (gateway_url reason : str)
| SReady (source : Discover.EnvSource) (gateway_url : str).
Record AdmissionStatusDto : Type := mkStatus
  { gateway : GatewayStatusDto; verdryx_bin : str; verdryx_bin_present : bool;
    verdryx_db : option (Discover.EnvSource * str); drills_scenario_dir : option str }.
Record AdmissionCheckDto : Type := mkCheck
  { key_id : str; agent_id : str; strict_mode : str; identity_map_configured : bool;
    key : option Gateway.GatewayKeyEntry; in_map : bool }.
Inductive AdmissionError : Type :=
| EBootstrapping
| ENoEnvironment
| EUnreachable (reason : str)
| EGateway (status : option Z) (message : str)
| EVerdryxBinMissing (path : str)
| EVerdryxDbMissing
| EVerdryx (message : str)
| EUnparseableOutput (context stdout_excerpt : str)
| ERunNotFound (run_id : str).

Definition of_gateway (e : GatewayError) : AdmissionError :=
  match e with
  | GwTransport e => EGateway None (#"could not reach the gateway: " ++ e)
  | GwJson e => EGateway None (#"unexpected response shape from the gateway: " ++ e)
  | GwUnauthorized => EGateway (Some 401) Gateway.KEY_REFUSED
  | GwAdminKeysRequired => EGateway (Some 403) Gateway.KEY_REQUIRED
  | GwApi status body => EGateway (Some status) body
  | GwTooLarge limit => EGateway None (#"the gateway's response exceeded " ++ dec limit ++ #" bytes")
  end.

(** ** Texts ([commands.rs]) *)

Definition valid_pattern (pattern : str) : bool :=
  match pattern with
  | [] => false
  | _ => match split_once #"*" pattern with None => true | Some (before, _) => bool_decide (S (length before) = length pattern) end
  end.
Definition pattern_matches (pattern value : str) : bool :=
  match strip_suffix #"*" pattern with
  | Some prefix => starts_with prefix value
  | None => str_eqb pattern value
  end.
Definition agent_bound_in_report (report : Gateway.GatewayKeysReport) (agent_id : str) : bool :=
  existsb (fun p => valid_pattern p && pattern_matches p agent_id) (flat_map Gateway.agents (Gateway.keys report)).

Definition REDACTED : str := #"[redacted]".
Definition redact_secret (text secret : str) : str :=
  if bool_decide (secret = []) then text else replace secret REDACTED text.
Definition EXCERPT_MAX_CHARS : nat := 400.
Definition excerpt (s : str) : str :=
  firstn EXCERPT_MAX_CHARS s ++ (if (EXCERPT_MAX_CHARS <? length s)%nat then #"... [truncated]" else []).

(** The first word after [prefix] on the first line that begins with it. *)
Definition parse_after (prefix stdout : str) : option str :=
  let! rest := Feed.find_map (fun l => strip_prefix prefix (trim_start l)) (lines stdout) in
  PolicyProof.first_word rest.
Definition parse_eval_run_id : str -> option str := parse_after #"Eval run ".

(** ** The commands ([commands.rs]) *)

Section Admission.
Context {JT : JsonText} {GW : Gateway.GatewayWire} {SQ : Verdryx.Sqlite}.

(** [elapsed]: the timeout of ten seconds ran out first. *)
Definition bootstrap (w : Discover.World) (elapsed : bool) : program AdmissionInner :=
  match Discover.Admission.discover_gateway_admission w with
  | None => Ret NoEnvironment
  | Some resolved =>
      let src := Discover.Gateway.source resolved in
      let url := Discover.Gateway.gateway_url resolved in
      do! r <- out (Gateway.connect resolved);
      Ret (if elapsed then Unreachable src url #"timed out after 10s waiting for the gateway to respond"
           else match r with
                | Ok c => Ready (mkAdmission c src url)
                | Err reason => Unreachable src url reason
                end)
  end.

Definition ready_client (inner : AdmissionInner) : result AdmissionClient AdmissionError :=
  match inner with
  | Ready c => Ok c
  | Bootstrapping => Err EBootstrapping
  | NoEnvironment => Err ENoEnvironment
  | Unreachable _ _ reason => Err (EUnreachable reason)
  end.
Definition gateway_status_dto (inner : AdmissionInner) : GatewayStatusDto :=
  match inner with
  | Bootstrapping => SBootstrapping
  | NoEnvironment => SNoEnvironment
  | Unreachable s u r => SUnreachable s u r
  | Ready c => SReady (source c) (gateway_url c)
  end.
(** The disk as it is at the moment of the call. *)
Definition admission_status (inner : AdmissionInner) (w : Discover.World) : AdmissionStatusDto :=
  let bin := Discover.Admission.resolve_verdryx_bin w in
  mkStatus (gateway_status_dto inner) (Discover.Admission.path bin) (Discover.Admission.exists_ bin)
    ((fun d => (Discover.Quality.source d, Discover.Quality.db_path d)) <$> Discover.Admission.resolve_verdryx_db w)
    (Discover.Admission.drills_scenario_dir_default w).

Definition check_dto (report : Gateway.GatewayKeysReport) (key_id agent_id : str) : AdmissionCheckDto :=
  mkCheck key_id agent_id (Gateway.strict_mode report) (Gateway.identity_map_configured report)
    (List.find (fun k => str_eqb (Gateway.key_id k) key_id) (Gateway.keys report))
    (agent_bound_in_report report agent_id).
Definition admission_check (key_id agent_id : str) (inner : AdmissionInner) : program (result AdmissionCheckDto AdmissionError) :=
  match ready_client inner with
  | Err e => Ret (Err e)
  | Ok c =>
      do! r <- out (Gateway.get_keys (client c));
      Ret (let? report := map_err of_gateway r in Ok (check_dto report key_id agent_id))
  end.





End Admission.

(** ** What is started, and with what *)

Definition Child : Type := (str * list str * list (str * str) * result Output str).
Definition child_of (e : event) : option Child := match e with Ran b a v x => Some (b, a, v, x) | _ => None end.
Definition children (tr : list event) : list Child := omap child_of tr.
Lemma children_snoc tr e : children (tr ++ [e]) = children tr ++ match child_of e with Some c => [c] | None => [] end.
Proof. unfold children. rewrite omap_app. simpl. by destruct (child_of e). Qed.

Lemma children_ran tr b a v x : children (tr ++ [Ran b a v x]) = children tr ++ [(b, a, v, x)].
Proof. apply children_snoc. Qed.



Section Baseline.
Context {JT : JsonText} {GW : Gateway.GatewayWire} {SQ : Verdryx.Sqlite}.

(** What one reading of the store says of a run: how many scores it has, their
    average and the sum of their costs, a null for no score. *)
#[local] Existing Instance Verdryx.cell_eq_dec.







(** *** The key in what a child printed *)





End Baseline.

(** The patterns of the report are those of the identity map. *)
Theorem bound_as_in_the_map report id :
  agent_bound_in_report report id = Onboard.id_bound_in_map (Onboard.mkMap [] (map Gateway.agents (Gateway.keys report))) id.
Proof.
  unfold agent_bound_in_report, Onboard.id_bound_in_map. simpl. rewrite flat_map_concat_map.
  assert (Hp : forall p, valid_pattern p = Onboard.valid_pattern p).
  { intros [|c p]; [done|]. unfold valid_pattern, Onboard.valid_pattern. destruct (split_once #"*" (c :: p)) as [[a b]|] eqn:E; [|done].
    apply split_once_Some in E. rewrite E, !length_app. simpl. apply bool_decide_ext.
    destruct b; simpl; split; intros H; first [done|exfalso; lia|lia|discriminate]. }
  induction (concat _) as [|p l IH]; [done|]. simpl. by rewrite IH, Hp.
Qed.

(** A drill gives mockryx the key in the environment only, and its report is
    taken from a run that ended with nothing or with gaps found. *)
Theorem drill_is_one_run {JT : JsonText} {MW : Drills.MockryxWire} dir key fail_on_skip save inner tr :
  ran tr (Drills.drills_run dir key fail_on_skip save inner) (fun r tr' =>
    match inner with
    | Drills.Ready c =>
        (children tr' = children tr /\ is_ok r = false)
        \/ exists x, children tr' = children tr ++
             [(Drills.bin (Drills.client c),
               Drills.run_args dir (Drills.gateway_url c) fail_on_skip (Drills.given save),
               Drills.run_env (match Drills.given key with Some k => Some k | None => Drills.api_key c end)
                 (Drills.events_path (Drills.client c)), x)]
             /\ (forall report, r = Ok report <->
                   exists o, x = Ok o /\ (code o = Some 0 \/ code o = Some 1) /\ Drills.read_report (stdout o) = Ok report)
    | _ => tr' = tr /\ is_ok r = false
    end).
Proof.
  unfold Drills.drills_run. destruct inner as [| |c]; try done. cbn [Drills.ready_drills].
  unfold Drills.run_blocking_drills. cbn [wp]. split; [done|]. intros t x. change (result unit str) in x.
  destruct x as [[]|e]; cbn [wp].
  2:{ left. split; [|done]. by rewrite children_snoc, app_nil_r. }
  unfold Drills.run. cbn [bind wp event_of]. split; [done|]. intros _ y. right. exists y.
  rewrite children_ran, children_snoc, app_nil_r. split; [done|]. intros report. unfold Drills.run_answer.
  destruct y as [o|e]; [|by split; [|intros (?&?&?)]].
  destruct (code o) as [n|] eqn:En; simpl; [|split; [done|]; intros (?&[= <-]&[H|H]&_); congruence].
  destruct (Z.eqb_spec n 0) as [->|H0]; [|destruct (Z.eqb_spec n 1) as [->|H1]]; simpl.
  3:{ split; [done|]. intros (?&[= <-]&[H|H]&_); congruence. }
  all: destruct (Drills.read_report (stdout o)) as [rep|] eqn:Er; simpl; split; try done.
  all: try (intros [= <-]; exists o; split_and!; auto).
  all: intros (?&[= <-]&_&H); congruence.
Qed.

(** ** Runs *)

Module Example.
#[local] Existing Instance Verdryx.Example.code_sqlite.

Definition newcomer : str := #"sk-newcomer-0123456789".

(** The excerpt is cut before the key is taken out of it: what is left of a key
    that the cut goes through is shown. *)
Example cut_key_is_shown :
  let stdout := repeat 46 380 ++ newcomer in
  contains #"sk-newcomer-01234567" (redact_secret (excerpt stdout) newcomer) = true
  /\ contains #"sk-newcomer" (excerpt (redact_secret stdout newcomer)) = false.
Proof. vm_compute. done. Qed.

(** The name of a run is whatever word the child printed. *)
Example run_id_is_not_redacted : parse_eval_run_id (#"Eval run " ++ newcomer) = Some newcomer.
Proof. vm_compute. reflexivity. Qed.

Example eval_run_is_found_past_a_banner :
  parse_eval_run_id #"warning: old
 Eval run 7f3a  (model=m, db=v.db)
" = Some #"7f3a".
Proof. vm_compute. reflexivity. Qed.
End Example.
