(* ===== verification/CloudStream.v ===== *)
(** * CloudStream: the live stream of TokenFuse Cloud
    ([crates/connectors/src/cloud_sse.rs])

    A worker thread connects, decodes and connects again; the handle it was
    spawned with polls what it decoded and can end it.  They share a channel of
    records and a stop flag.  The state of both is a [Link]; one turn of either
    is a [step] on an [input], which says what the world did: the timer fired,
    the server answered, bytes came, the handle polled.  Where the source
    selects between the stop flag and the world, either may be taken once the
    flag is set.

    The decoder is that of [Sse]: a connection starts a new one.  [handed] is
    history: what the polls gave back. *)
From S2P Require Import Prelude Text Http.
From S2P Require Sse Ingest Effects.

(** ** Configuration *)

(** Durations in nanoseconds. *)
Record CloudSseConfig : Type := mkConfig
  { url : str; bearer_token : str; initial_backoff : Z; max_backoff : Z; max_attempts : option Z }.
Definition config_new (url bearer_token : str) : CloudSseConfig :=
  mkConfig url bearer_token (250 * 1000000) (30 * 1000000000) (Some 10).
Definition DURATION_MAX : Z := 18446744073709551615 * 1000000000 + 999999999.

Definition backoff_delay (cfg : CloudSseConfig) (attempt : Z) : Z :=
  if attempt =? 0 then 0
  else
    let shift := Z.min (Z.max (attempt - 1) 0) 31 in
    let multiplier := Z.shiftl 1 shift in
    Z.min (Z.min (initial_backoff cfg * multiplier) DURATION_MAX) (max_backoff cfg).

(** ** State *)

(** Where the worker is in its loop. *)
Inductive phase : Type :=
| Top (attempt : Z) (last_event_id : option str)
| Waiting (attempt : Z) (last_event_id : option str)
| Connecting (attempt : Z) (last_event_id : option str)
| Streaming (attempt : Z) (last_event_id : option str) (decoder : Sse.SseDecoder) (got_event : bool) (newest_id : option str)
    (pending : list Sse.SseEvent)
| Ended.

Record Link : Type := mkLink
  { ph : phase; stop : bool; receiver : bool; queue : list Ingest.RawRecord; handed : list Ingest.RawRecord }.
(** [CloudSse::spawn]. *)
Definition spawn : Link := mkLink (Top 0 None) false true [] [].

Definition record_of (e : Sse.SseEvent) : Ingest.RawRecord := Ingest.mkRaw (Sse.data e) None None.



(** [ConnectOutcome::Disconnected], back at the head of the loop. *)
Definition disconnected (attempt : Z) (last_event_id : option str) (got_event : bool) (newest_id : option str) : phase :=
  Top (if got_event then 0 else attempt) (match newest_id with Some _ => newest_id | None => last_event_id end).

Inductive input : Type :=
| Turn                                   (* the head of the loop *)
| Stopped                                (* [stop.changed()] *)
| Timer                                  (* the backoff has passed *)
| Response (x : result Z str)            (* the status, or the connection failed *)
| Chunk (bytes : list Z)
| Hangup                                 (* a read error, or the end of the stream *)
| Forward                                (* one [tx.send] *)
| Poll
| Shutdown
| DropHandle.

(** [attempt += 1] of a [u32]. *)
Definition next (attempt : Z) : Z := (attempt + 1) mod 4294967296.
Definition exhausted (cfg : CloudSseConfig) (attempt : Z) : bool :=
  match max_attempts cfg with Some max => max <=? attempt | None => false end.
Definition at_phase (s : Link) (p : phase) : Link := mkLink p (stop s) (receiver s) (queue s) (handed s).

(** The id the next request resumes from: that of the last decoded event that
    has one.  An [id:] whose frame has no data is no event and is not kept. *)
Definition ids (newest : option str) (es : list Sse.SseEvent) : option str :=
  fold_left (fun n e => match Sse.id e with Some _ => Sse.id e | None => n end) es newest.

(** One turn of the worker; with it, the events it decoded. *)
Definition work (cfg : CloudSseConfig) (i : input) (s : Link) : option (phase * list Sse.SseEvent) :=
  match ph s, i with
  | Top a last, Turn =>
      if stop s then Some (Ended, [])
      else if exhausted cfg a then Some (Ended, [])
      else if (0 <? a) && (0 <? backoff_delay cfg a) then Some (Waiting a last, [])
      else Some (Connecting (next a) last, [])
  | Waiting a last, Timer => Some (Connecting (next a) last, [])
  | Connecting a last, Response (Ok status) =>
      if is_success status then Some (Streaming a last Sse.new false last [], [])
      else Some (disconnected a last false None, [])
  | Connecting a last, Response (Err _) => Some (disconnected a last false None, [])
  | Streaming a last d got newest [], Chunk bytes =>
      let '(es, d) := Sse.feed d bytes in
      Some (Streaming a last d (got || negb (bool_decide (es = []))) (ids newest es) es, es)
  | Streaming a last d got newest (e :: es), Forward =>
      Some (if receiver s then Streaming a last d got newest es else Ended, [])
  | Streaming a last _ got newest [], Hangup => Some (disconnected a last got newest, [])
  | (Waiting _ _ | Connecting _ _ | Streaming _ _ _ _ _ []), Stopped => if stop s then Some (Ended, []) else None
  | _, _ => None
  end.

(** [CloudSse::poll]: everything that is there; an error only when there is
    nothing and the worker has ended. *)
Definition ENDED (id : str) : str :=
  #"cloud_sse[" ++ id ++ #"]: background stream ended (retry budget exhausted, or shut down)".
Definition poll (id : str) (s : Link) : result (list Ingest.RawRecord) str * Link :=
  match queue s, ph s with
  | [], Ended => (Err (ENDED id), s)
  | q, _ => (Ok q, mkLink (ph s) (stop s) (receiver s) [] (handed s ++ q))
  end.

Definition sent (i : input) (s : Link) : list Ingest.RawRecord :=
  match ph s, i with
  | Streaming _ _ _ _ _ (e :: _), Forward => if receiver s then [record_of e] else []
  | _, _ => []
  end.
Definition step (cfg : CloudSseConfig) (id : str) (i : input) (s : Link) : option (Link * list Sse.SseEvent) :=
  match i with
  | Poll => if receiver s then Some ((poll id s).2, []) else None
  | Shutdown => if receiver s then Some (mkLink (ph s) true true (queue s) (handed s), []) else None
  | DropHandle => if receiver s then Some (mkLink (ph s) true false [] (handed s), []) else None
  | _ => let! (p, es) := work cfg i s in Some (mkLink p (stop s) (receiver s) (queue s ++ sent i s) (handed s), es)
  end.

(** A run: the state it ends in and every event that was decoded. *)
Fixpoint run (cfg : CloudSseConfig) (id : str) (h : list input) (s : Link) : option (Link * list Sse.SseEvent) :=
  match h with
  | [] => Some (s, [])
  | i :: h =>
      let! (s, es) := step cfg id i s in
      let! (s, es') := run cfg id h s in
      Some (s, es ++ es')
  end.

(** ** Backoff *)

(** The delays double from the first and do not pass the cap. *)
Theorem backoff_doubles cfg a :
  0 <= initial_backoff cfg -> 1 <= a ->
  backoff_delay cfg a <= max_backoff cfg
  /\ backoff_delay cfg a <= backoff_delay cfg (a + 1)
  /\ (a <= 32 -> initial_backoff cfg * 2 ^ (a - 1) <= Z.min (max_backoff cfg) DURATION_MAX ->
      backoff_delay cfg a = initial_backoff cfg * 2 ^ (a - 1)).
Proof.
  intros Hi Ha. unfold backoff_delay. destruct (Z.eqb_spec a 0); [lia|]. destruct (Z.eqb_spec (a + 1) 0); [lia|].
  rewrite !Z.shiftl_1_l. split_and!.
  - lia.
  - assert (initial_backoff cfg * 2 ^ Z.min (Z.max (a - 1) 0) 31 <= initial_backoff cfg * 2 ^ Z.min (Z.max (a + 1 - 1) 0) 31); [|lia].
    apply Z.mul_le_mono_nonneg_l; [done|]. apply Z.pow_le_mono_r; lia.
  - intros H32 Hmax. replace (Z.min (Z.max (a - 1) 0) 31) with (a - 1) by lia. lia.
Qed.

(** ** What is handed on is what was decoded *)


Definition pending_of (p : phase) : list Sse.SseEvent := match p with Streaming _ _ _ _ _ es => es | _ => [] end.



Definition handle_input (i : input) : bool := match i with Poll | Shutdown | DropHandle => true | _ => false end.




(** ** The worker ends *)

Definition answered (h : list input) : Z := Z.of_nat (length (List.filter (fun i => match i with Response _ => true | _ => false end) h)).

(** How many more answers a worker may see before it gives up, when none of
    them brings an event. *)
Definition tries_left (max : Z) (p : phase) : Z :=
  match p with
  | Top a _ | Waiting a _ => max - a
  | Connecting a _ => max - a + 1
  | Streaming a _ _ got _ _ => if got then max else max - a
  | Ended => 0
  end.
Definition within (max : Z) (p : phase) : Prop :=
  match p with
  | Top a _ | Streaming a _ _ _ _ _ => 0 <= a <= max
  | Waiting a _ => 0 <= a < max
  | Connecting a _ => 1 <= a <= max
  | Ended => 0 <= max
  end.

Lemma within_step cfg id max i s s' es :
  max_attempts cfg = Some max -> 0 <= max < 4294967296 -> within max (ph s) -> step cfg id i s = Some (s', es) ->
  within max (ph s') /\ (es = [] -> answered [i] + tries_left max (ph s') <= tries_left max (ph s)).
Proof.
  intros Hm Hmax Hw Hs. destruct (handle_input i) eqn:Hh.
  { assert (ph s' = ph s /\ answered [i] = 0) as [-> ->]; [|split; [done|lia]].
    destruct i; try done; simpl in Hs; destruct (receiver s); try done; injection Hs as <- _; [|done|done].
    split; [|done]. unfold poll. destruct s as [p ? ? q ?]. by destruct q, p. }
  destruct s as [p st rc q hd]. assert (Hn : forall a, 0 <= a < max -> next a = a + 1) by (intros; unfold next; rewrite Z.mod_small; lia).
  destruct i; try done; simpl in Hs; unfold work in Hs; destruct p as [a l|a l|a l|a l d got newest [|e pend]|]; simpl in *; try done.
  - unfold exhausted in Hs. rewrite Hm in Hs. destruct st; [injection Hs as <- <-; simpl; unfold answered; simpl; lia|].
    destruct (Z.leb_spec max a); [injection Hs as <- <-; simpl; unfold answered; simpl; lia|].
    destruct (_ && _); injection Hs as <- <-; simpl; unfold answered; simpl; rewrite ?Hn by lia; lia.
  - destruct st; [|done]. injection Hs as <- <-. unfold answered; simpl. lia.
  - destruct st; [|done]. injection Hs as <- <-. unfold answered; simpl. lia.
  - destruct st; [|done]. injection Hs as <- <-. unfold answered; simpl. destruct got; lia.
  - injection Hs as <- <-. unfold answered; simpl. rewrite Hn by lia. lia.
  - destruct x as [n|]; [destruct (is_success n)|]; injection Hs as <- <-; unfold answered; simpl; lia.
  - destruct (Sse.feed d bytes) as [new_es d']. injection Hs as <- <-. unfold answered; simpl. split; [done|].
    intros ->. rewrite bool_decide_true by done. destruct got; simpl; lia.
  - injection Hs as <- <-. unfold answered; simpl. destruct got; simpl; lia.
  - injection Hs as <- <-. unfold answered. destruct rc; simpl; destruct got; simpl; lia.
Qed.

Lemma within_run cfg id max h s s' es :
  max_attempts cfg = Some max -> 0 <= max < 4294967296 -> within max (ph s) -> run cfg id h s = Some (s', es) ->
  within max (ph s') /\ (es = [] -> answered h + tries_left max (ph s') <= tries_left max (ph s)).
Proof.
  intros Hm Hmax. revert s es. induction h as [|i h IH]; intros s es Hw Hr; cbn [run] in Hr.
  { injection Hr as <- <-. split; [done|]. unfold answered. simpl. lia. }
  destruct (step cfg id i s) as [[s1 es1]|] eqn:Es; [|done]. destruct (run cfg id h s1) as [[s2 es2]|] eqn:Er; [|done].
  injection Hr as <- <-. destruct (within_step _ _ _ _ _ _ _ Hm Hmax Hw Es) as [Hw1 H1].
  destruct (IH _ _ Hw1 Er) as [Hw2 H2]. split; [done|]. intros [-> ->]%app_eq_nil. specialize (H1 eq_refl). specialize (H2 eq_refl).
  unfold answered in *. simpl in *. destruct i; simpl in *; lia.
Qed.

(** C37: The worker ends.  With a budget of attempts, in any stretch of a run in
    which no event is decoded the server is asked at most as often as the budget
    says, whatever came before, and a worker that has given up is told to the
    poll that finds nothing left.  And once the handle has asked it to stop, the
    worker can end on its own: it sends what it has decoded, looks at the flag
    and is done, without the server and without the timer. *)
Theorem worker_ends cfg id h1 s es1 :
  run cfg id h1 spawn = Some (s, es1) ->
  (forall max h2 s2, max_attempts cfg = Some max -> 0 <= max < 4294967296 -> run cfg id h2 s = Some (s2, []) -> answered h2 <= max)
  /\ (ph s = Ended -> queue s = [] -> (poll id s).1 = Err (ENDED id))
  /\ (stop s = true -> exists h2 s2, run cfg id h2 s = Some (s2, []) /\ ph s2 = Ended
        /\ (length h2 <= S (length (pending_of (ph s))))%nat
        /\ Forall (fun i => i = Turn \/ i = Stopped \/ i = Forward) h2).
Proof.
  intros H1. split_and!.
  - intros max h2 s2 Hm Hmax H2.
    assert (Hw : within max (ph s)) by (eapply within_run in H1 as [? _]; [done|done|done|simpl; lia]).
    destruct (within_run _ _ _ _ _ _ _ Hm Hmax Hw H2) as [Hw2 H]. specialize (H eq_refl).
    assert (0 <= tries_left max (ph s2)) by (destruct (ph s2) as [| | |? ? ? [] ? ?|]; simpl in *; lia).
    assert (tries_left max (ph s) <= max) by (destruct (ph s) as [| | |? ? ? [] ? ?|]; simpl in *; lia). lia.
  - intros Hp Hq. unfold poll. by rewrite Hq, Hp.
  - clear H1. destruct s as [p st rc q hd]. simpl. intros ->. destruct p as [a l|a l|a l|a l d got newest pend|].
    + exists [Turn]. eexists. split; [done|]. split; [done|]. split; [done|]. auto.
    + exists [Stopped]. eexists. split; [done|]. split; [done|]. split; [done|]. auto.
    + exists [Stopped]. eexists. split; [done|]. split; [done|]. split; [done|]. auto.
    + revert q. induction pend as [|e pend IH]; intros q.
      { exists [Stopped]. eexists. split; [done|]. split; [done|]. split; [done|]. auto. }
      destruct rc; [|exists [Forward]; eexists; split; [done|]; split; [done|]; split; [simpl; lia|]; auto].
      destruct (IH (q ++ [record_of e])) as (h2&s2&Hr&He&Hl&Hall). exists (Forward :: h2), s2. cbn [run step work ph receiver].
      cbn. cbn in Hr. rewrite Hr. split; [done|]. split; [done|]. split; [simpl in *; lia|]. auto.
    + exists []. eexists. split; [done|]. split; [done|]. split; [simpl; lia|]. done.
Qed.

(** ** Runs *)

Module Example.
Definition cfg : CloudSseConfig := mkConfig #"https://cloud/v1/stream" #"key" (250 * 1000000) (30 * 1000000000) (Some 2).
Definition one : Sse.SseEvent := Sse.mkEvent (Some #"7") None #"{}".

(** An event cut in the middle, a drop, a resumption that is refused, and a poll. *)
Definition history : list input :=
  [Turn; Response (Ok 200); Chunk (firstn 5 (Sse.wire one)); Chunk (skipn 5 (Sse.wire one)); Forward; Hangup;
   Turn; Response (Ok 503); Turn; Poll; Timer; Response (Err #"refused"); Turn].
Definition after : option (Link * list Sse.SseEvent) := run cfg #"c" history spawn.
Definition reached : Link := match after with Some (s, _) => s | None => spawn end.
Definition seen : list Sse.SseEvent := match after with Some (_, es) => es | None => [] end.
Example gave_up : reached = mkLink Ended false true [] [record_of one] /\ seen = [one].
Proof. vm_compute. done. Qed.


(** The server says where it is without an event, and hangs up: the worker
    asks again from the id before. *)
Definition keep_alive : list input :=
  [Turn; Response (Ok 200); Chunk (Sse.wire one); Forward; Chunk (#"id: 9" ++ [10; 10]); Hangup; Turn].
Example id_alone_is_not_resumed_from :
  ((fun se => ph se.1) <$> run cfg #"c" keep_alive spawn) = Some (Connecting 1 (Some #"7")).
Proof. vm_compute. reflexivity. Qed.

Lemma worker_ends_witness :
  run cfg #"c" history spawn = Some (reached, seen)
  /\ (forall max h2 s2, max_attempts cfg = Some max -> 0 <= max < 4294967296 -> run cfg #"c" h2 reached = Some (s2, []) -> answered h2 <= max)
  /\ (ph reached = Ended -> queue reached = [] -> (poll #"c" reached).1 = Err (ENDED #"c"))
  /\ (stop reached = true -> exists h2 s2, run cfg #"c" h2 reached = Some (s2, []) /\ ph s2 = Ended
        /\ (length h2 <= S (length (pending_of (ph reached))))%nat
        /\ Forall (fun i => i = Turn \/ i = Stopped \/ i = Forward) h2).
Proof. split; [vm_compute; reflexivity|]. apply (worker_ends cfg #"c" history reached seen). vm_compute. reflexivity. Defined.

(** A server that sends one event and hangs up is asked again at once, for ever:
    the event resets the attempts, no attempt counts and no timer is waited for. *)
Definition round : list input := [Turn; Response (Ok 200); Chunk (Sse.wire one); Forward; Hangup; Poll].
Example one_event_keeps_it_connecting :
  (fun r => (ph r.1, length r.2)) <$> run cfg #"c" (concat (repeat round 50)) spawn = Some (Top 0 (Some #"7"), 50%nat).
Proof. vm_compute. reflexivity. Qed.

Example defaults_wait_as_said :
  map (backoff_delay (config_new #"u" #"t")) [0; 1; 2; 3; 8; 9] = map (Z.mul 1000000) [0; 250; 500; 1000; 30000; 30000].
Proof. vm_compute. reflexivity. Qed.
End Example.
