(* ===== verification/Layout.v ===== *)
(** * Layout: where the nodes of the delegation graph are drawn
    ([crates/core/src/layout.rs])

    A force layout over binary64: nodes repel each other, edges pull, and a
    falling temperature caps each move.  The doubles are those of [Double]; the
    sine and the cosine of the platform's library are parameters, and so the
    picture is a function of the graph, the configuration and them. *)
From S2P Require Import Prelude Text.
From Stdlib Require Import Floats.SpecFloat.
From S2P Require Import Double.
From S2P Require Import Graph.

Class Libm := { cos : double -> double; sin : double -> double }.

(** ** Doubles *)

Definition sqrt : double -> double := SFsqrt prec emax.
(** [f64::min]. *)
Definition fmin (a b : double) : double :=
  match a, b with
  | S754_nan, _ => b
  | _, S754_nan => a
  | _, _ => if ltb b a then b else a
  end.
(** [f64::clamp], of bounds it accepts. *)
Definition clamp (lo hi x : double) : double := if ltb x lo then lo else if ltb hi x then hi else x.
(** A decimal of the source. *)
Definition lit_f (num den : positive) : double := of_ratio false num den.
Definition TAU : double := S754_finite false 7074237752028440 (-50).

Record LayoutConfig : Type := mkConfig { iterations : nat; seed : Z; width : double; height : double }.
Definition default_config : LayoutConfig := mkConfig 300 1592639710 (of_Z 1000) (of_Z 1000).
Record PositionedNode : Type := mkPositioned { p_id : str; kind : NodeKind; p_event_count : Z; x : double; y : double }.
Record LayoutView : Type := mkLayout { nodes : list PositionedNode; edges : list GraphEdge; l_width : double; l_height : double }.

(** ** The generator: splitmix64, on 64 bits *)

Definition u64 (n : Z) : Z := n mod 18446744073709551616.
Definition GAMMA : Z := 11400714819323198485.
Definition rng_new (seed : Z) : Z := Z.lxor seed GAMMA.
Definition next_u64 (s : Z) : Z * Z :=
  let s := u64 (s + GAMMA) in
  let z := u64 (Z.lxor s (Z.shiftr s 30) * 13787848793156543929) in
  let z := u64 (Z.lxor z (Z.shiftr z 27) * 10723151780598845931) in
  (Z.lxor z (Z.shiftr z 31), s).
Definition unit_f (s : Z) : double * Z :=
  let '(n, s) := next_u64 s in (div (of_Z (Z.shiftr n 11)) (of_Z (Z.shiftl 1 53)), s).

(** ** The layout *)

Abbreviation vec := (double * double)%type.
Definition upd {A} (i : nat) (f : A -> A) (l : list A) : list A := alter f i l.
Definition at_ (i : nat) (l : list vec) : vec := default (zero, zero) (l !! i).

Section Layout.
Context {LM : Libm}.

(** A ring, each node at a radius of its own. *)
Fixpoint ring (k n i : nat) (rng : Z) (cx cy base_r : double) : list vec :=
  match k with
  | O => []
  | S k =>
      let angle := div (mul TAU (of_Z (Z.of_nat i))) (of_Z (Z.of_nat n)) in
      let '(u, rng) := unit_f rng in
      let r := mul base_r (add (lit_f 6 10) (mul (lit_f 5 10) u)) in
      (add cx (mul r (cos angle)), add cy (mul r (sin angle))) :: ring k n (S i) rng cx cy base_r
  end.

Definition eps : double := lit_f 1 10000.
Definition norm (dx dy : double) : double := sqrt (add (mul dx dx) (mul dy dy)).

(** Every pair, the first before the second. *)
Definition pairs (n : nat) : list (nat * nat) :=
  flat_map (fun i => map (fun j => (i, j)) (List.seq (S i) (n - S i))) (List.seq 0 n).
Definition repel (k : double) (pos : list vec) (disp : list vec) (ij : nat * nat) : list vec :=
  let '(i, j) := ij in
  let dx := sub (at_ i pos).1 (at_ j pos).1 in
  let dy := sub (at_ i pos).2 (at_ j pos).2 in
  let d := norm dx dy in
  let '(dx, dy, d) :=
    if ltb d eps then
      let dx := mul (lit_f 1 100) (add (of_Z (Z.of_nat i)) (of_Z 1)) in
      let dy := mul (lit_f 1 100) (add (of_Z (Z.of_nat j)) (of_Z 1)) in
      (dx, dy, norm dx dy)
    else (dx, dy, d) in
  let f := div (mul k k) d in
  let ux := div dx d in
  let uy := div dy d in
  let disp := upd i (fun v => (add v.1 (mul ux f), add v.2 (mul uy f))) disp in
  upd j (fun v => (sub v.1 (mul ux f), sub v.2 (mul uy f))) disp.
Definition attract (k : double) (pos : list vec) (disp : list vec) (ab : nat * nat) : list vec :=
  let '(a, b) := ab in
  let dx := sub (at_ a pos).1 (at_ b pos).1 in
  let dy := sub (at_ a pos).2 (at_ b pos).2 in
  let d := fmax (norm dx dy) eps in
  let f := div (mul d d) k in
  let ux := div dx d in
  let uy := div dy d in
  let disp := upd a (fun v => (sub v.1 (mul ux f), sub v.2 (mul uy f))) disp in
  upd b (fun v => (add v.1 (mul ux f), add v.2 (mul uy f))) disp.

Definition move (cfg : LayoutConfig) (temp : double) (p d : vec) : vec :=
  let dl := norm d.1 d.2 in
  let p :=
    if ltb eps dl then
      let cap := fmin dl temp in
      (add p.1 (mul (div d.1 dl) cap), add p.2 (mul (div d.2 dl) cap))
    else p in
  (clamp zero (width cfg) p.1, clamp zero (height cfg) p.2).
Definition turn (cfg : LayoutConfig) (k temp : double) (es : list (nat * nat)) (pos : list vec) : list vec :=
  let n := length pos in
  let disp := fold_left (repel k pos) (pairs n) (repeat (zero, zero) n) in
  let disp := fold_left (attract k pos) es disp in
  zip_with (move cfg temp) pos disp.
Fixpoint relax (fuel : nat) (cfg : LayoutConfig) (k temp : double) (es : list (nat * nat)) (pos : list vec) : list vec :=
  match fuel with
  | O => pos
  | S fuel => relax fuel cfg k (mul temp (lit_f 95 100)) es (turn cfg k temp es pos)
  end.

(** [index]: a later of two equal names. *)
Definition index_of (ids : list str) : gmap str nat := list_to_map (rev (zip ids (List.seq 0 (length ids)))).
Definition edge_pairs (index : gmap str nat) (es : list GraphEdge) : list (nat * nat) :=
  omap (fun e => let! a := index !! e_from e in let! b := index !! e_to e in Some (a, b)) es.

(** [None]: the panic of [clamp] on bounds that are not bounds. *)
Definition layout (v : GraphView) (cfg : LayoutConfig) : option (gmap str vec) :=
  let cx := div (width cfg) (of_Z 2) in
  let cy := div (height cfg) (of_Z 2) in
  match v_nodes v with
  | [] => Some ∅
  | [nd] => Some {[g_id nd := (cx, cy)]}
  | nds =>
      let n := length nds in
      let ids := isort str_leb (map g_id nds) in
      let base_r := mul (fmin (width cfg) (height cfg)) (lit_f 4 10) in
      let pos := ring n n 0 (rng_new (seed cfg)) cx cy base_r in
      let es := edge_pairs (index_of ids) (v_edges v) in
      let k := sqrt (div (mul (width cfg) (height cfg)) (of_Z (Z.of_nat n))) in
      if (0 <? iterations cfg)%nat && negb (leb zero (width cfg) && leb zero (height cfg)) then None
      else
        let pos := relax (iterations cfg) cfg k (mul (width cfg) (lit_f 1 10)) es pos in
        Some (list_to_map (rev (zip ids pos)))
  end.

Definition layout_view (v : GraphView) (cfg : LayoutConfig) : option LayoutView :=
  let! pos := layout v cfg in
  Some (mkLayout
    (map (fun nd => let p := default (zero, zero) (pos !! g_id nd) in
                    mkPositioned (g_id nd) (g_kind nd) (event_count nd) p.1 p.2) (v_nodes v))
    (v_edges v) (width cfg) (height cfg)).

(** ** Lemmas *)

Lemma length_ring k n i rng cx cy r : length (ring k n i rng cx cy r) = k.
Proof. revert i rng. induction k as [|k IH]; intros i rng; simpl; [done|]. destruct (unit_f rng). simpl. by rewrite IH. Qed.
Lemma length_repel k pos l d : length (fold_left (repel k pos) l d) = length d.
Proof.
  revert d. induction l as [|[i j] l IH]; intros d; simpl; [done|]. rewrite IH.
  unfold upd. destruct (ltb _ eps); by rewrite !length_alter.
Qed.
Lemma length_attract k pos l d : length (fold_left (attract k pos) l d) = length d.
Proof. revert d. induction l as [|[a b] l IH]; intros d; simpl; [done|]. rewrite IH. unfold upd. by rewrite !length_alter. Qed.
Lemma length_turn cfg k temp es pos : length (turn cfg k temp es pos) = length pos.
Proof. unfold turn. rewrite length_zip_with, length_attract, length_repel, repeat_length. lia. Qed.
Lemma length_relax fuel cfg k temp es pos : length (relax fuel cfg k temp es pos) = length pos.
Proof. revert temp pos. induction fuel as [|fuel IH]; intros temp pos; simpl; [done|]. by rewrite IH, length_turn. Qed.

Lemma compare_swap a b : SFcompare b a = CompOpp <$> SFcompare a b.
Proof.
  destruct a as [[]|[]| |[] m e], b as [[]|[]| |[] m' e']; try done; cbn [SFcompare fmap option_fmap option_map]; f_equal.
  all: assert (Hm : Pos.compare_cont Eq m' m = CompOpp (Pos.compare_cont Eq m m')) by (symmetry; apply (Pos.compare_cont_antisym m m' Eq)).
  all: rewrite (Z.compare_antisym e e'), Hm; destruct (Z.compare e e'); simpl; try done.
  all: by destruct (Pos.compare_cont Eq m m').
Qed.
Definition inside (hi x : double) : Prop := x = S754_nan \/ (leb zero x = true /\ leb x hi = true).
Lemma compare_number a b : a <> S754_nan -> b <> S754_nan -> is_Some (SFcompare a b).
Proof. destruct a as [[]|[]| |[] m e], b as [[]|[]| |[] m' e']; try done; eexists; done. Qed.
Lemma compare_refl a : a <> S754_nan -> SFcompare a a = Some Eq.
Proof. destruct a as [[]|[]| |[] m e]; try done; cbn; by rewrite Z.compare_refl, Pos.compare_cont_refl. Qed.
Lemma clamp_inside hi v : leb zero hi = true -> inside hi (clamp zero hi v).
Proof.
  unfold clamp, inside, ltb, leb, SFltb, SFleb. intros Hhi.
  assert (Hn : hi <> S754_nan) by (intros ->; done). assert (Hz : zero <> S754_nan) by done.
  assert (v = S754_nan \/ v <> S754_nan) as [->|Hv] by (destruct v; [right|right|left|right]; congruence); [left; by destruct hi|]. right.
  rewrite (compare_swap v hi).
  destruct (compare_number v zero Hv Hz) as [c Ec]. destruct (compare_number v hi Hv Hn) as [c' Ec'].
  rewrite Ec, Ec'. destruct c.
  all: destruct c'; cbn [CompOpp fmap option_fmap option_map]; split; try exact Hhi.
  all: rewrite ?(compare_swap v zero), ?Ec, ?Ec', ?compare_refl by done; done.
Qed.

(** The names a list of places is keyed by. *)
Lemma elem_of_places (ids : list str) (ps : list vec) id p :
  length ids = length ps ->
  ((list_to_map (rev (zip ids ps)) : gmap str vec) !! id = Some p -> (id, p) ∈ zip ids ps)
  /\ (id ∈ ids -> is_Some ((list_to_map (rev (zip ids ps)) : gmap str vec) !! id)).
Proof.
  intros Hl. split.
  - intros H%elem_of_list_to_map_2. rewrite list_elem_of_In in *. by apply in_rev in H.
  - intros Hin. apply elem_of_dom. rewrite dom_list_to_map_L, elem_of_list_to_set.
    assert (E : (rev (zip ids ps)).*1 = rev ids).
    { change (map fst (rev (zip ids ps)) = rev ids). rewrite map_rev. f_equal. apply fst_zip. lia. }
    rewrite E, list_elem_of_In, <- in_rev. by apply list_elem_of_In.
Qed.

Definition placed (cfg : LayoutConfig) (p : vec) : Prop := inside (width cfg) p.1 /\ inside (height cfg) p.2.
Lemma move_placed cfg temp p d :
  leb zero (width cfg) = true -> leb zero (height cfg) = true -> placed cfg (move cfg temp p d).
Proof. intros Hw Hh. unfold move, placed. split; by apply clamp_inside. Qed.
Lemma relax_placed fuel cfg k temp es pos :
  leb zero (width cfg) = true -> leb zero (height cfg) = true -> (0 < fuel)%nat \/ Forall (placed cfg) pos ->
  Forall (placed cfg) (relax fuel cfg k temp es pos).
Proof.
  intros Hw Hh. revert temp pos. induction fuel as [|fuel IH]; intros temp pos H; simpl; [destruct H; [lia|done]|].
  apply IH. right. unfold turn. generalize (fold_left (attract k pos) es (fold_left (repel k pos) (pairs (length pos)) (repeat (zero, zero) (length pos)))).
  clear -Hw Hh. intros ds. revert ds. induction pos as [|p pos IH]; intros [|d ds]; simpl; constructor; [by apply move_placed|apply IH].
Qed.

(** C24: Every node is drawn, on the canvas, and in one place.  On a canvas with a
    width and a height, of any size, and with at least one turn, the layout of
    two nodes or more does not fail, gives a place to exactly the nodes of the
    graph, and no coordinate that is a number lies outside the canvas, whatever
    the forces came to; and the places do not depend on the order in which the
    nodes are given. *)
Theorem every_node_is_on_the_canvas v v' cfg :
  (2 <= length (v_nodes v))%nat -> (0 < iterations cfg)%nat -> leb zero (width cfg) = true -> leb zero (height cfg) = true ->
  (exists pos, layout v cfg = Some pos
     /\ (forall id, is_Some (pos !! id) <-> id ∈ map g_id (v_nodes v))
     /\ (forall id p, pos !! id = Some p -> placed cfg p))
  /\ (Permutation (map g_id (v_nodes v)) (map g_id (v_nodes v')) -> v_edges v = v_edges v' -> layout v' cfg = layout v cfg).
Proof.
  intros Hn Hit Hw Hh. split.
  - unfold layout. destruct (v_nodes v) as [|a [|b nds]] eqn:En; [simpl in Hn; lia|simpl in Hn; lia|]. rewrite <- En in *.
    rewrite Hw, Hh, andb_false_r. eexists. split; [done|].
    set (ids := isort str_leb _). set (ps := relax _ _ _ _ _ _).
    assert (Hl : length ids = length ps).
    { unfold ids, ps. by rewrite length_relax, length_ring, length_isort, length_map. }
    split.
    + intros id. rewrite <- (elem_of_isort str_leb). fold ids. split; [|intros Hin; by apply (elem_of_places ids ps id (zero, zero))].
      intros [p Hp]. apply (elem_of_places ids ps) in Hp; [|done]. by apply elem_of_zip_l in Hp.
    + intros id p Hp. apply (elem_of_places ids ps) in Hp; [|done]. apply elem_of_zip_r in Hp.
      assert (HF : Forall (placed cfg) ps) by (apply relax_placed; auto). rewrite Forall_forall in HF. by apply HF.
  - intros Hp He. unfold layout. pose proof (Permutation_length Hp) as Hlen. rewrite !length_map in Hlen.
    assert (Hids : isort str_leb (map g_id (v_nodes v')) = isort str_leb (map g_id (v_nodes v))).
    { apply isort_unique; [apply lex_leb_total|apply lex_leb_trans|apply lex_leb_antisym|done]. }
    destruct (v_nodes v) as [|a [|b nds]] eqn:En; [simpl in Hn; lia|simpl in Hn; lia|].
    destruct (v_nodes v') as [|a' [|b' nds']] eqn:En'; [simpl in Hlen; lia|simpl in Hlen; lia|].
    by rewrite Hids, He, Hlen.
Qed.

(** The picture has the nodes of the view, in its order, and its edges. *)
Theorem picture_has_every_node v cfg l :
  layout_view v cfg = Some l ->
  map p_id (nodes l) = map g_id (v_nodes v) /\ edges l = v_edges v.
Proof.
  unfold layout_view. destruct (layout v cfg) as [pos|]; [|done]. intros [= <-]. simpl. split; [|done]. by rewrite map_map.
Qed.
End Layout.

(** ** Runs *)

Module Example.
#[local] Instance flat : Libm := {| cos := fun _ => of_Z 1; sin := fun _ => zero |}.
Definition node (name : str) : GraphNode := mkNode name KAgent 1 [].
Definition two : GraphView := mkView [node #"agent://a"; node #"agent://b"] [mkEdge #"agent://a" #"agent://b"].
Definition owt : GraphView := mkView [node #"agent://b"; node #"agent://a"] [mkEdge #"agent://a" #"agent://b"].
Definition small : LayoutConfig := mkConfig 2 7 (of_Z 10) (of_Z 10).

Lemma every_node_is_on_the_canvas_witness :
  (exists pos, layout two small = Some pos
     /\ (forall id, is_Some (pos !! id) <-> id ∈ map g_id (v_nodes two))
     /\ (forall id p, pos !! id = Some p -> placed small p))
  /\ (Permutation (map g_id (v_nodes two)) (map g_id (v_nodes owt)) -> v_edges two = v_edges owt -> layout owt small = layout two small).
Proof. apply (every_node_is_on_the_canvas two owt small); simpl; try lia; reflexivity. Defined.

(** The first two draws of the generator of seed 0, which is that of splitmix64. *)
Example splitmix_draws : let '(a, s) := next_u64 0 in (a, (next_u64 s).1) = (16294208416658607535, 7960286522194355700).
Proof. vm_compute. reflexivity. Qed.

Example one_node_is_in_the_middle :
  layout (mkView [node #"agent://a"] []) default_config = Some {[ #"agent://a" := (of_Z 500, of_Z 500)]}.
Proof. vm_compute. reflexivity. Qed.
End Example.
