(* ===== verification/EvidencePack.v ===== *)
(** * EvidencePack: artifacts gathered into one signed archive
    ([crates/core/src/evidence.rs], [crates/connectors/src/evidence.rs],
    [crates/api/src/evidence/commands.rs], [state.rs], and what they call of
    [qryx.rs], [idryx.rs], [tokenfuse.rs] and [cloud_rest.rs])

    An evidence pack is a zip archive: a manifest, the device's signature over
    the manifest, and one entry per artifact.  The artifacts come from the
    Cloud, from three command line tools and from a file one of them writes; a
    source that fails is named in the manifest with its reason.  The command
    builds the pack with the device the money plane is paired with, and writes
    one line of the journal.

    serde's printers, the zip writer and the calendar are the class
    [EvidenceLib]; a child is one operation, which answers with what it left. *)
From S2P Require Import Prelude Text Json Signing Prog Http Ingest Command.
From S2P Require Effects Cloud Discover.

(** ** Operations *)

(** [ExitStatus] and its text. *)
Inductive Status : Type :=
| Exited (code : Z)
| Signaled (signal : Z) (core_dumped : bool).
Record Output : Type := mkOutput { status : Status; stdout : list Z; stderr : list Z }.

Definition SIGNALS : list str :=
  [ #"SIGHUP"; #"SIGINT"; #"SIGQUIT"; #"SIGILL"; #"SIGTRAP"; #"SIGABRT"; #"SIGBUS"; #"SIGFPE"; #"SIGKILL"; #"SIGUSR1";
    #"SIGSEGV"; #"SIGUSR2"; #"SIGPIPE"; #"SIGALRM"; #"SIGTERM"; #"SIGSTKFLT"; #"SIGCHLD"; #"SIGCONT"; #"SIGSTOP";
    #"SIGTSTP"; #"SIGTTIN"; #"SIGTTOU"; #"SIGURG"; #"SIGXCPU"; #"SIGXFSZ"; #"SIGVTALRM"; #"SIGPROF"; #"SIGWINCH";
    #"SIGIO"; #"SIGPWR"; #"SIGSYS"].
Definition status_text (s : Status) : str :=
  match s with
  | Exited c => #"exit status: " ++ dec c
  | Signaled n core =>
      #"signal: " ++ dec n
      ++ match (if n <=? 0 then None else SIGNALS !! Z.to_nat (n - 1)) with
         | Some name => #" (" ++ name ++ #")"
         | None => []
         end
      ++ (if core then #" (core dumped)" else [])
  end.
Definition success (o : Output) : bool := match status o with Exited c => c =? 0 | Signaled _ _ => false end.
(** [status.code().unwrap_or(-1)]. *)
Definition code_or (o : Output) : Z := match status o with Exited c => c | Signaled _ _ => -1 end.
Definition said (o : Output) : str := trim (from_utf8_lossy (stderr o)).

Inductive op : Type :=
| Out (o : Effects.op)
| Spawn (bin : str) (args : list str)     (* [Command::output] *)
| Ticket                                  (* [fetch_add] on the counter of exports *)
| RemoveFile (path : str)
| ReadFile (path : str).
Definition resp (o : op) : Type :=
  match o with
  | Out o => Effects.resp o
  | Spawn _ _ => result Output str
  | Ticket => Z
  | RemoveFile _ => result unit str
  | ReadFile _ => result (list Z) str
  end%type.
Inductive event : Type :=
| Asked (e : Effects.event)
| Ran (bin : str) (args : list str) (x : result Output str)
| Took (n : Z)
| Removed (path : str)
| Loaded (path : str) (x : result (list Z) str).
Definition event_of (o : op) (t : Z) : resp o -> event :=
  match o with
  | Out o => fun x => Asked (Effects.event_of o t x)
  | Spawn b a => Ran b a
  | Ticket => Took
  | RemoveFile p => fun _ => Removed p
  | ReadFile p => Loaded p
  end.
#[local] Arguments Do {op resp A} & _ _.
Abbreviation program := (@prog op resp).
Abbreviation ran tr p post := (wp event_of (fun _ _ => True) tr p post).

Fixpoint out {A} (p : Effects.program A) : program A :=
  match p with Ret a => Ret a | Do o k => Do (Out o) (fun x => out (k x)) end.

(** ** The pack ([core/src/evidence.rs]) *)

Definition PACK_VERSION : str := #"genaryx-evidence/v1".

Inductive EvidenceError : Type :=
| UnsafeFilename (name : str)
| DuplicateFilename (name : str)
| ZipError (e : str)
| JsonFailed (e : str).

Record Artifact : Type := mkArtifact
  { name : str; filename : str; content_type : str; source : str; tool_version : option str; verify_status : option str;
    bytes : list Z }.
Record MissingSource : Type := mkMissing { m_name : str; reason : str }.
Record ManifestArtifact : Type := mkEntry
  { e_name : str; e_filename : str; e_content_type : str; e_source : str; e_tool_version : option str;
    e_verify_status : option str; sha256_text : str; size_bytes : Z }.
Record EvidenceManifest : Type := mkManifest
  { pack_version : str; generated_at : str; operator : str; org : str; entries : list ManifestArtifact;
    missing : list MissingSource }.
Record SignatureBlock : Type := mkBlock { alg : str; signature_b64 : str; public_key_b64 : str; over : str }.

(** [AuditVerifyResponse] of [cloud_rest.rs]. *)
Record AuditVerifyResponse : Type := mkAudit { ok : bool; break_index : option Z }.

(** serde, the zip crate and chrono. *)
Class EvidenceLib := {
  read_value : list Z -> result value str;
  read_audit : list Z -> result AuditVerifyResponse str;
  pretty_value : value -> result (list Z) str;           (* [to_vec_pretty] *)
  pretty_audit : AuditVerifyResponse -> result (list Z) str;
  pretty_manifest : EvidenceManifest -> result (list Z) str;
  pretty_signature : SignatureBlock -> result (list Z) str;
  zip : list (str * list Z) -> result (list Z) str;      (* the entries in order, deflated, 0644 *)
  rfc3339_millis : Z -> str;
}.
(** An archive that was written gives its entries back. *)
Class EvidenceLaws `{EL : EvidenceLib} := {
  unzip : list Z -> option (list (str * list Z));
  zip_round es b : NoDup es.*1 -> zip es = Ok b -> unzip b = Some es;
}.

(** [name.split(['/', '\\'])]. *)
Definition segments (name : str) : list str := flat_map (split_char 92) (split_char 47 name).
Definition validate_filename (name : str) : result unit EvidenceError :=
  if bool_decide (name = []) || contains #"/" name || contains #"\" name
     || existsb (str_eqb #"..") (segments name) || str_eqb name #".."
  then Err (UnsafeFilename name) else Ok tt.

Section Pack.
Context {PR : Primitives} {EL : EvidenceLib}.

Definition sha256_hex (bytes : list Z) : str := #"sha256:" ++ hex_lower (sha256 bytes).
Definition manifest_entry (a : Artifact) : ManifestArtifact :=
  mkEntry (name a) (filename a) (content_type a) (source a) (tool_version a) (verify_status a) (sha256_hex (bytes a))
    (Z.of_nat (length (bytes a))).
Definition build (artifacts : list Artifact) (missing : list MissingSource) (generated_at operator org : str)
  : EvidenceManifest :=
  mkManifest PACK_VERSION generated_at operator org (map manifest_entry artifacts) missing.
Definition canonical_bytes (m : EvidenceManifest) : result (list Z) EvidenceError := map_err JsonFailed (pretty_manifest m).

Definition MANIFEST_FILE : str := #"manifest.json".
Definition SIGNATURE_FILE : str := #"manifest.sig.json".
(** The names, before anything is written. *)
Fixpoint check_names (artifacts : list Artifact) (seen : list str) : result unit EvidenceError :=
  match artifacts with
  | [] => Ok tt
  | a :: rest =>
      let? _ := validate_filename (filename a) in
      if str_eqb (filename a) MANIFEST_FILE || str_eqb (filename a) SIGNATURE_FILE then Err (UnsafeFilename (filename a))
      else if bool_decide (filename a ∈ seen) then Err (DuplicateFilename (filename a))
      else check_names rest (filename a :: seen)
  end.
Definition assemble_zip (manifest_bytes : list Z) (signature : option SignatureBlock) (artifacts : list Artifact)
  : result (list Z) EvidenceError :=
  let? _ := check_names artifacts [] in
  let? sig := match signature with
              | Some s => let? b := map_err JsonFailed (pretty_signature s) in Ok [(SIGNATURE_FILE, b)]
              | None => Ok []
              end in
  map_err ZipError (zip ((MANIFEST_FILE, manifest_bytes) :: sig ++ map (fun a => (filename a, bytes a)) artifacts)).
End Pack.

(** ** The tools *)

Section Tools.
(** Every nonzero exit of a read is a failure. *)
Inductive QryxError : Type :=
| QSpawn (bin source : str)
| QCli (code : Z) (stderr : str)
| QJson (e : str).
Definition qryx_text (e : QryxError) : str :=
  match e with
  | QSpawn bin source => #"qryx spawn " ++ bin ++ #": " ++ source
  | QCli code stderr => #"qryx exited " ++ dec code ++ #": " ++ stderr
  | QJson e => #"json: " ++ e
  end.
Definition qryx_answer (bin : str) (x : result Output str) : result (list Z) QryxError :=
  let? o := map_err (QSpawn bin) x in
  if success o then Ok (stdout o) else Err (QCli (code_or o) (said o)).
(** [run_bytes]. *)
Definition run_bytes (bin : str) (args : list str) : program (result (list Z) QryxError) :=
  do x <- Spawn bin args; Ret (qryx_answer bin x).
Definition cbom_args (path : str) : list str := [ #"scan"; #"--format"; #"cbom"; path].
Definition scan_cbom_raw (bin path : str) : program (result (list Z) QryxError) := run_bytes bin (cbom_args path).
Definition evidence_args (path : str) (sign_key : option str) : list str :=
  match sign_key with
  | Some key => [ #"scan"; #"--format"; #"evidence"; #"--sign-key"; key; path]
  | None => [ #"scan"; #"--format"; #"evidence"; path]
  end.
Definition scan_evidence_raw (bin path : str) (sign_key : option str) : program (result (list Z) QryxError) :=
  run_bytes bin (evidence_args path sign_key).

(** [IdryxError::Cli]. *)
Definition idryx_text (e : str) : str := #"idryx detect: " ++ e.
Definition bom_args (loads : list (str * str)) : list str :=
  [ #"bom"; #"--format"; #"json"] ++ flat_map (fun l => [ #"--load"; l.1 ++ #":" ++ l.2]) loads.
Definition bom_answer (bin : str) (x : result Output str) : result (list Z) str :=
  let? o := map_err (fun e => #"spawn " ++ bin ++ #": " ++ e) x in
  if success o then Ok (stdout o) else Err (#"`idryx bom` exited " ++ status_text (status o) ++ #": " ++ said o).
Definition agent_bom (bin : str) (loads : list (str * str)) : program (result (list Z) str) :=
  do x <- Spawn bin (bom_args loads); Ret (bom_answer bin x).

Inductive TokenfuseError : Type :=
| TSpawn (bin source : str)
| TCli (command : str) (code : Z) (stderr : str)
| TRead (path source : str)
| TParse (command detail : str).
Definition tokenfuse_text (e : TokenfuseError) : str :=
  match e with
  | TSpawn bin source => #"tokenfuse spawn " ++ bin ++ #": " ++ source
  | TCli command code stderr => #"tokenfuse " ++ command ++ #" exited " ++ dec code ++ #": " ++ stderr
  | TRead path source => #"read focus-export output " ++ path ++ #": " ++ source
  | TParse command detail => #"could not parse tokenfuse " ++ command ++ #" output: " ++ detail
  end.
(** [temp_dir()] and [process::id()]. *)
Record Host : Type := mkHost { temp_dir : str; process_id : Z }.
Definition focus_path (h : Host) (n : Z) : str :=
  Discover.join (temp_dir h) (#"genaryx-focus-" ++ dec (process_id h) ++ #"-" ++ dec n ++ #".csv").
Definition focus_args (traces out : str) (from to : option str) : list str :=
  [ #"focus-export"; #"--traces"; traces; #"--out"; out]
  ++ (match from with Some f => [ #"--from"; f] | None => [] end)
  ++ (match to with Some t => [ #"--to"; t] | None => [] end).
Definition focus_export (h : Host) (bin traces : str) (from to : option str) : program (result (list Z) TokenfuseError) :=
  do n <- Ticket;
  let path := focus_path h n in
  do _ <- RemoveFile path;
  do x <- Spawn bin (focus_args traces path from to);
  match x with
  | Err e => do _ <- RemoveFile path; Ret (Err (TSpawn bin e))
  | Ok o =>
      if negb (success o) then do _ <- RemoveFile path; Ret (Err (TCli #"focus-export" (code_or o) (said o)))
      else do b <- ReadFile path; do _ <- RemoveFile path; Ret (map_err (TRead path) b)
  end.
End Tools.

(** ** Gathering and signing ([connectors/src/evidence.rs]) *)

Inductive EvidenceBuildError : Type :=
| NoArtifacts
| SignFailed (e : Cloud.ConnectorError)
| AssembleFailed (e : EvidenceError).

(** The binaries stand for the clients that hold them. *)
Record EvidenceInputs : Type := mkInputs
  { i_operator : str; i_org : str; i_generated_at : str; include_cloud : bool;
    qryx : option (str * str * option str);                       (* binary, target, key *)
    idryx : option (str * list (str * str));                      (* binary, loads *)
    tokenfuse : option (str * str * option str * option str) }.   (* binary, traces, from, to *)
Record EvidencePack : Type := mkPack { zip_bytes : list Z; manifest : EvidenceManifest; signed : bool }.

Definition JSON_TYPE : str := #"application/json".
Definition raw_artifact (name filename content_type source : str) (bytes : list Z) (verify_status : option str) : Artifact :=
  mkArtifact name filename content_type source None verify_status bytes.
(** [json_artifact] and [json_artifact_of], over what the printer answered. *)
Definition json_artifact (name filename source : str) (printed : result (list Z) str) (verify_status : option str) : Artifact :=
  raw_artifact name filename JSON_TYPE source (match printed with Ok b => b | Err _ => #"{}" end) verify_status.
Definition missing_of (name text : str) : MissingSource := mkMissing name text.

(** The two vectors, and what one source adds to them. *)
Definition Gathered : Type := (list Artifact * list MissingSource)%type.
Definition gathered (g : Gathered) (name : str) (r : result Artifact str) : Gathered :=
  match r with Ok a => (g.1 ++ [a], g.2) | Err text => (g.1, g.2 ++ [missing_of name text]) end.

Definition audit_status (av : AuditVerifyResponse) : str :=
  if ok av then #"audit chain VERIFIED end-to-end"
  else match break_index av with
       | Some i => #"audit chain BROKEN at index " ++ dec i
       | None => #"audit chain BROKEN"
       end.
Definition qryx_status (sign_key : option str) : str :=
  match sign_key with
  | Some _ => #"self-verifying (embedded digest + ML-DSA signature); run `qryx verify-evidence`"
  | None => #"self-verifying (embedded digest); run `qryx verify-evidence`"
  end.

Definition COMPLIANCE : str := #"Cloud compliance evidence".
Definition AUDIT : str := #"Cloud audit-chain verdict".
Definition CNSA : str := #"Qryx crypto evidence (CNSA)".
Definition CBOM : str := #"CBOM (CycloneDX)".
Definition AGENT_BOM : str := #"Agent-BOM (CycloneDX)".
Definition FOCUS : str := #"TokenFuse FOCUS cost export".

Section Gather.
Context {PR : Primitives} {JT : JsonText} {CW : Cloud.CloudWire} {EL : EvidenceLib}.

Definition compliance_artifact (v : value) : Artifact :=
  json_artifact COMPLIANCE #"compliance-evidence.json" #"tokenfuse cloud GET /v1/compliance/evidence" (pretty_value v) None.
Definition audit_artifact (av : AuditVerifyResponse) : Artifact :=
  json_artifact AUDIT #"audit-verify.json" #"tokenfuse cloud GET /v1/audit/verify" (pretty_audit av) (Some (audit_status av)).
Definition cnsa_artifact (key : option str) (b : list Z) : Artifact :=
  raw_artifact CNSA #"qryx-evidence.json" JSON_TYPE #"qryx scan --format evidence" b (Some (qryx_status key)).
Definition cbom_artifact (b : list Z) : Artifact :=
  raw_artifact CBOM #"cbom.json" JSON_TYPE #"qryx scan --format cbom" b None.
Definition bom_artifact (b : list Z) : Artifact :=
  raw_artifact AGENT_BOM #"agent-bom.json" JSON_TYPE #"idryx bom --format json" b None.
Definition focus_artifact (b : list Z) : Artifact :=
  raw_artifact FOCUS #"focus.csv" #"text/csv" #"tokenfuse focus-export" b None.

Definition made {A E} (text : E -> str) (f : A -> Artifact) (r : result A E) : result Artifact str :=
  match r with Ok a => Ok (f a) | Err e => Err (text e) end.

Definition compliance_evidence (c : Cloud.CloudClient) : Effects.program (result value Cloud.ConnectorError) :=
  Cloud.get_json c read_value #"/v1/compliance/evidence".
Definition audit_verify (c : Cloud.CloudClient) : Effects.program (result AuditVerifyResponse Cloud.ConnectorError) :=
  Cloud.get_json c read_audit #"/v1/audit/verify".

Definition gather_cloud (c : Cloud.CloudClient) (i : EvidenceInputs) (g : Gathered) : program Gathered :=
  if include_cloud i then
    do! r <- out (compliance_evidence c);
    let g := gathered g COMPLIANCE (made Cloud.connector_error_text compliance_artifact r) in
    do! r <- out (audit_verify c);
    Ret (gathered g AUDIT (made Cloud.connector_error_text audit_artifact r))
  else Ret g.
Definition gather_qryx (i : EvidenceInputs) (g : Gathered) : program Gathered :=
  match qryx i with
  | Some (bin, target, key) =>
      do! r <- scan_evidence_raw bin target key;
      let g := gathered g CNSA (made qryx_text (cnsa_artifact key) r) in
      do! r <- scan_cbom_raw bin target;
      Ret (gathered g CBOM (made qryx_text cbom_artifact r))
  | None => Ret g
  end.
Definition gather_idryx (i : EvidenceInputs) (g : Gathered) : program Gathered :=
  match idryx i with
  | Some (bin, loads) => do! r <- agent_bom bin loads; Ret (gathered g AGENT_BOM (made idryx_text bom_artifact r))
  | None => Ret g
  end.
Definition gather_tokenfuse (h : Host) (i : EvidenceInputs) (g : Gathered) : program Gathered :=
  match tokenfuse i with
  | Some (bin, traces, from, to) =>
      do! r <- focus_export h bin traces from to; Ret (gathered g FOCUS (made tokenfuse_text focus_artifact r))
  | None => Ret g
  end.

(** [CloudClient::sign_evidence_manifest]. *)
Definition sign_evidence_manifest (c : Cloud.CloudClient) (manifest_bytes : list Z) : result SignatureBlock Cloud.ConnectorError :=
  let? d := ok_or (Cloud.device c) Cloud.NoDeviceSigner in
  let? signature := map_err Cloud.SigningFailed (sign_raw (Cloud.signer d) manifest_bytes) in
  let? public := map_err Cloud.SigningFailed (Signing.public_key_b64 (Cloud.signer d)) in
  Ok (mkBlock #"ES256" (b64_encode signature) public MANIFEST_FILE).

(** No device leaves the pack unsigned; any other failure leaves no pack. *)
Definition signature_of (r : result SignatureBlock Cloud.ConnectorError) : result (option SignatureBlock) EvidenceBuildError :=
  match r with
  | Ok s => Ok (Some s)
  | Err Cloud.NoDeviceSigner => Ok None
  | Err e => Err (SignFailed e)
  end.
Definition seal (c : Cloud.CloudClient) (i : EvidenceInputs) (g : Gathered) : result EvidencePack EvidenceBuildError :=
  if bool_decide (g.1 = []) then Err NoArtifacts
  else
    let m := build g.1 g.2 (i_generated_at i) (i_operator i) (i_org i) in
    let? b := map_err AssembleFailed (canonical_bytes m) in
    let? signature := signature_of (sign_evidence_manifest c b) in
    let? z := map_err AssembleFailed (assemble_zip b signature g.1) in
    Ok (mkPack z m (match signature with Some _ => true | None => false end)).
Definition build_evidence_pack (h : Host) (c : Cloud.CloudClient) (i : EvidenceInputs)
  : program (result EvidencePack EvidenceBuildError) :=
  do! g <- gather_cloud c i ([], []);
  do! g <- gather_qryx i g;
  do! g <- gather_idryx i g;
  do! g <- gather_tokenfuse h i g;
  Ret (seal c i g).
End Gather.

(** ** The panel ([api/src/evidence/state.rs], [commands.rs]) *)

Record QryxSource : Type := mkQryx { qryx_bin : str; default_target : str }.
Record IdryxSource : Type := mkIdryx { idryx_bin : str; loads : list (str * str) }.
Record TokenfuseSource : Type := mkTokenfuse { tokenfuse_bin : str; default_traces_dir : option str }.
Record EvidenceEnv : Type := mkEnv
  { env_qryx : option QryxSource; env_idryx : option IdryxSource; env_tokenfuse : option TokenfuseSource }.
Inductive EvidenceInner : Type :=
| Bootstrapping
| Ready (env : EvidenceEnv).
Inductive EvidenceStatusDto : Type :=
| SBootstrapping
| SReady (qryx_available : bool) (qryx_bin qryx_default_target : option str) (idryx_available : bool)
    (idryx_bin : option str) (idryx_load_sources : list str) (tokenfuse_available : bool)
    (tokenfuse_bin tokenfuse_default_traces_dir : option str).
Inductive EvidenceCommandError : Type :=
| EBootstrapping
| EBuild (message : str).
Record EvidenceBuildRequest : Type := mkRequest
  { want_cloud : bool; want_qryx : bool; qryx_target : option str; want_idryx : bool; want_tokenfuse : bool;
    tokenfuse_traces_dir : option str }.
Record EvidenceBuildDto : Type := mkDto
  { zip_base64 : str; d_filename : str; d_manifest : EvidenceManifest; d_signed : bool; cloud_included : bool;
    journaled : bool; journal_error : option str }.

Definition bootstrap {JT : JsonText} (w : Discover.World) : EvidenceInner :=
  Ready (mkEnv
    ((fun r => mkQryx (Discover.Crypto.qryx_bin r) (Discover.Crypto.default_target r)) <$> Discover.Evidence.discover_qryx w)
    ((fun r => mkIdryx (Discover.Evidence.idryx_bin r) (Discover.Evidence.loads r)) <$> Discover.Evidence.discover_idryx w)
    ((fun r => mkTokenfuse (Discover.Evidence.tokenfuse_bin r) (Discover.Evidence.default_traces_dir r))
       <$> Discover.Evidence.discover_tokenfuse w)).

Definition ready_env (inner : EvidenceInner) : result EvidenceEnv EvidenceCommandError :=
  match inner with Ready env => Ok env | Bootstrapping => Err EBootstrapping end.
Definition found {A} (x : option A) : bool := match x with Some _ => true | None => false end.
Definition status_dto (inner : EvidenceInner) : EvidenceStatusDto :=
  match inner with
  | Bootstrapping => SBootstrapping
  | Ready env =>
      SReady (found (env_qryx env)) (qryx_bin <$> env_qryx env) (default_target <$> env_qryx env)
        (found (env_idryx env)) (idryx_bin <$> env_idryx env) (default [] ((fun i => map fst (loads i)) <$> env_idryx env))
        (found (env_tokenfuse env)) (tokenfuse_bin <$> env_tokenfuse env) (env_tokenfuse env ≫= default_traces_dir)
  end.
Definition evidence_status (inner : EvidenceInner) : EvidenceStatusDto := status_dto inner.

Definition UNRESOLVED_QRYX_BIN : str := #"qryx-not-resolved-by-genaryx".
Definition UNRESOLVED_IDRYX_BIN : str := #"idryx-not-resolved-by-genaryx".
Definition UNRESOLVED_TOKENFUSE_BIN : str := #"tokenfuse-not-resolved-by-genaryx".
Definition UNPAIRED_CLOUD_URL : str := #"http://unpaired.invalid".
Definition UNPAIRED_OPERATOR : str := #"console (no paired device)".
Definition UNPAIRED_ORG : str := #"unpaired".

Definition resolve_requested_source {T} (requested : bool) (resolved : option T) (sentinel : T) : option T :=
  if negb requested then None else Some (default sentinel resolved).
(** [filter(|s| !s.trim().is_empty())]. *)
Definition filled (x : option str) : option str :=
  match x with Some s => if bool_decide (trim s = []) then None else Some s | None => None end.
(** [given.or(discovered).unwrap_or(".")]. *)
Definition path_or_here (given discovered : option str) : str :=
  default #"." (match filled given with Some s => Some s | None => discovered end).

Section Panel.
Context {PR : Primitives} {JT : JsonText} {CW : Cloud.CloudWire} {EL : EvidenceLib}.
(** [{:?}] of a string. *)
Context (debug_str : str -> str).

Definition evidence_error_text (e : EvidenceError) : str :=
  match e with
  | UnsafeFilename n => #"unsafe artifact filename: " ++ debug_str n
  | DuplicateFilename n => #"duplicate artifact filename: " ++ debug_str n
  | ZipError e => #"zip assembly: " ++ e
  | JsonFailed e => #"manifest json: " ++ e
  end.
Definition build_error_text (e : EvidenceBuildError) : str :=
  match e with
  | NoArtifacts => #"evidence pack has no artifacts: every requested source failed"
  | SignFailed e => #"evidence manifest signing failed: " ++ Cloud.connector_error_text e
  | AssembleFailed e => #"evidence assembly: " ++ evidence_error_text e
  end.

(** [generated_at.replace([':', '.'], "-")]. *)
Definition pack_filename (generated_at : str) : str :=
  #"genaryx-evidence-" ++ map (fun c => if (c =? 58) || (c =? 46) then 45 else c) generated_at ++ #".zip".

Definition usize (n : nat) : value := VNum (NInt (Z.of_nat n)).
Definition build_record (mc : Cloud.MoneyClient) (sha : str) (artifact_count missing_count : nat) (signed : bool) : CommandRecord :=
  mkCommand (Cloud.default_operator mc) #"local" #"console.evidence_built" sha
    (obj [(#"sha256", VStr sha); (#"artifact_count", usize artifact_count); (#"signed", VBool signed);
          (#"missing_count", usize missing_count); (#"operator", VStr (Cloud.default_operator mc));
          (#"org", VStr (Cloud.org mc))])
    #"allow" #"es256" (Cloud.client_fpr mc) 200
    (#"artifacts:" ++ dec (Z.of_nat artifact_count) ++ #" missing:" ++ dec (Z.of_nat missing_count)
     ++ #" signed:" ++ Cloud.bool_text signed).
Definition journal_build (mc : Cloud.MoneyClient) (sha : str) (artifact_count missing_count : nat) (signed : bool)
  : Effects.program (bool * option str) :=
  Effects.journal_on (Cloud.bus mc) (Cloud.org mc) (Cloud.host mc) (build_record mc sha artifact_count missing_count signed).

(** What the money plane lends: the client, the operator, the org, the client
    to journal on, and whether the Cloud is asked. *)
Record Lent : Type := mkLent
  { cloud : Cloud.CloudClient; l_operator : str; l_org : str; journal_target : option Cloud.MoneyClient; ask_cloud : bool }.
(** [http]: what building an HTTP client answered, for a client of no device. *)
Definition lend (money : Cloud.MoneyInner) (http : result unit Cloud.ConnectorError) (want_cloud : bool)
  : result Lent EvidenceCommandError :=
  match money with
  | Cloud.Ready mc => Ok (mkLent (Cloud.client mc) (Cloud.default_operator mc) (Cloud.org mc) (Some mc) want_cloud)
  | _ =>
      let? _ := map_err (fun e => EBuild (#"could not prepare a client for an unsigned pack: " ++ Cloud.connector_error_text e)) http in
      Ok (mkLent (Cloud.new_client UNPAIRED_CLOUD_URL []) UNPAIRED_OPERATOR UNPAIRED_ORG None false)
  end.

Definition inputs_of (rq : EvidenceBuildRequest) (env : EvidenceEnv) (l : Lent) (generated_at : str) : EvidenceInputs :=
  mkInputs (l_operator l) (l_org l) generated_at (ask_cloud l)
    ((fun bin => (bin, path_or_here (qryx_target rq) (default_target <$> env_qryx env), None))
       <$> resolve_requested_source (want_qryx rq) (qryx_bin <$> env_qryx env) UNRESOLVED_QRYX_BIN)
    ((fun bin => (bin, default [] (loads <$> env_idryx env)))
       <$> resolve_requested_source (want_idryx rq) (idryx_bin <$> env_idryx env) UNRESOLVED_IDRYX_BIN)
    ((fun bin => (bin, path_or_here (tokenfuse_traces_dir rq) (env_tokenfuse env ≫= default_traces_dir), None, None))
       <$> resolve_requested_source (want_tokenfuse rq) (tokenfuse_bin <$> env_tokenfuse env) UNRESOLVED_TOKENFUSE_BIN).

Definition hand_over (generated_at : str) (l : Lent) (pack : EvidencePack) (written : bool * option str) : EvidenceBuildDto :=
  mkDto (b64_encode (zip_bytes pack)) (pack_filename generated_at) (manifest pack) (signed pack) (ask_cloud l)
    written.1 written.2.
Definition record_pack (l : Lent) (pack : EvidencePack) : Effects.program (bool * option str) :=
  match journal_target l with
  | Some mc =>
      journal_build mc (sha256_hex (zip_bytes pack)) (length (entries (manifest pack))) (length (missing (manifest pack)))
        (signed pack)
  | None => Ret (false, Some #"no paired Money device to journal against")
  end.
Definition evidence_build (h : Host) (rq : EvidenceBuildRequest) (inner : EvidenceInner) (money : Cloud.MoneyInner)
  (http : result unit Cloud.ConnectorError) : program (result EvidenceBuildDto EvidenceCommandError) :=
  match (let? env := ready_env inner in let? l := lend money http (want_cloud rq) in Ok (env, l)) with
  | Err e => Ret (Err e)
  | Ok (env, l) =>
      do now <- Out Effects.Clock;
      let generated_at := rfc3339_millis now in
      do! r <- build_evidence_pack h (cloud l) (inputs_of rq env l generated_at);
      match r with
      | Err e => Ret (Err (EBuild (build_error_text e)))
      | Ok pack =>
          do! written <- out (record_pack l pack);
          Ret (Ok (hand_over generated_at l pack written))
      end
  end.
End Panel.

(** ** An archive's names *)

Definition reserved (n : str) : bool := str_eqb n MANIFEST_FILE || str_eqb n SIGNATURE_FILE.
Definition bare (n : str) : Prop := validate_filename n = Ok tt /\ reserved n = false.

Lemma check_names_ok arts seen :
  check_names arts seen = Ok tt <->
  NoDup (map filename arts) /\ Forall (fun a => filename a ∉ seen /\ bare (filename a)) arts.
Proof.
  revert seen. induction arts as [|a arts IH]; intros seen; simpl; [by split; [repeat constructor|]|].
  rewrite NoDup_cons, Forall_cons. unfold bare, reserved. destruct (validate_filename (filename a)) as [[]|e]; simpl.
  2:{ split; [done|]. by intros (_&(_&?&_)&_). }
  destruct (_ || _); [by split; [|intros (_&(_&_&?)&_)]|].
  case_bool_decide as Hs; [by split; [|intros (_&(?&_)&_)]|]. rewrite IH. split.
  - intros [Hn Hf]. split_and!; try done.
    + intros Hin. apply list_elem_of_In, in_map_iff in Hin as (b&Hb&Hin). rewrite List.Forall_forall in Hf.
      destruct (Hf b Hin) as [Hb' _]. rewrite Hb in Hb'. set_solver.
    + eapply Forall_impl; [exact Hf|]. intros b [? ?]. set_solver.
  - intros ([Ha Hn]&_&Hf). split; [done|]. apply List.Forall_forall. intros b Hb. rewrite List.Forall_forall in Hf.
    destruct (Hf b Hb) as [Hb' ?]. split; [|done]. rewrite not_elem_of_cons. split; [|done]. intros E. apply Ha.
    rewrite <- E. by apply list_elem_of_In, in_map.
Qed.

Section Archive.
Context {EL : EvidenceLib} {EW : EvidenceLaws}.

Definition entry (a : Artifact) : str * list Z := (filename a, bytes a).

Lemma entry_names arts : (map entry arts).*1 = map filename arts.
Proof. change (map fst (map entry arts) = map filename arts). by rewrite map_map. Qed.

(** What an archive that was written holds. *)
Lemma archive_holds mb sig arts z :
  assemble_zip mb sig arts = Ok z ->
  exists s, match sig with
            | Some block => exists b, pretty_signature block = Ok b /\ s = [(SIGNATURE_FILE, b)]
            | None => s = []
            end
    /\ unzip z = Some ((MANIFEST_FILE, mb) :: s ++ map entry arts).
Proof.
  unfold assemble_zip. intros H. oks H. destruct x. apply check_names_ok in Hx as [Hn Hf]. apply map_err_Ok in H.
  assert (Hr : forall n, n ∈ map filename arts -> reserved n = false).
  { intros n Hin. apply list_elem_of_In, in_map_iff in Hin as (a&<-&Ha). rewrite List.Forall_forall in Hf.
    by destruct (Hf a Ha) as [_ [_ ?]]. }
  exists x0. split.
  { destruct sig; [|by injection Hx0]. oks Hx0. injection Hx0 as <-. eauto. }
  eapply zip_round; [|exact H]. simpl. rewrite fmap_app. change (map (fun a => (filename a, bytes a)) arts) with (map entry arts).
  rewrite entry_names. destruct sig.
  - oks Hx0. injection Hx0 as <-. simpl. rewrite !NoDup_cons, elem_of_cons. split_and!; [|..|done].
    + intros [?|Hin]; [done|]. by apply Hr in Hin.
    + intros Hin. by apply Hr in Hin.
  - injection Hx0 as <-. simpl. rewrite NoDup_cons. split; [|done]. intros Hin. by apply Hr in Hin.
Qed.
End Archive.

(** ** What a pack accounts for *)

Section Accounts.
Context {PR : Primitives} {JT : JsonText} {CW : Cloud.CloudWire} {EL : EvidenceLib}.
Context (c : Cloud.CloudClient) (i : EvidenceInputs).

(** What a tool's run says of its source: the output of a run that ended with
    zero, nothing when it did not start or ended otherwise. *)
Inductive tool_says (bin : str) (args : list str) (tr : list event) : option (list Z) -> Prop :=
| tool_gave o : Ran bin args (Ok o) ∈ tr -> status o = Exited 0 -> tool_says bin args tr (Some (stdout o))
| tool_failed x : Ran bin args x ∈ tr -> (forall o, x = Ok o -> status o <> Exited 0) -> tool_says bin args tr None.
(** A tool that writes its result to the file it is told. *)
Inductive file_says (bin : str) (args : str -> list str) (tr : list event) : option (list Z) -> Prop :=
| file_gave path o b :
    Ran bin (args path) (Ok o) ∈ tr -> status o = Exited 0 -> Loaded path (Ok b) ∈ tr -> file_says bin args tr (Some b)
| file_unread path o e :
    Ran bin (args path) (Ok o) ∈ tr -> status o = Exited 0 -> Loaded path (Err e) ∈ tr -> file_says bin args tr None
| file_failed path x :
    Ran bin (args path) x ∈ tr -> (forall o, x = Ok o -> status o <> Exited 0) -> file_says bin args tr None.
(** What the Cloud says: the value of a body that came whole, under a code of
    success, printed again, or an empty object when it does not print. *)
Definition good {T} (read : list Z -> result T str) (x : result Http.Response str) (v : T) : Prop :=
  exists r body, x = Ok r /\ 200 <= Http.status r < 300 /\ whole (chunks r) = Ok body /\ read body = Ok v.
Definition get_of (path : str) : Effects.Request :=
  Effects.mkRequest #"GET" (Cloud.base_url c ++ path) (Some (Cloud.bearer_token c)) [] [].
Inductive cloud_says {T} (read : list Z -> result T str) (print : T -> result (list Z) str) (path : str) (tr : list event)
  : option (list Z) -> Prop :=
| cloud_gave x v b :
    Asked (Effects.Sent (get_of path) x) ∈ tr -> good read x v ->
    print v = Ok b \/ (exists e, print v = Err e) /\ b = #"{}" -> cloud_says read print path tr (Some b)
| cloud_failed x :
    Asked (Effects.Sent (get_of path) x) ∈ tr -> (forall v, ~ good read x v) -> cloud_says read print path tr None.

(** The sources that were asked for, in the order of the code: the name and the
    file of each in a pack, and what it said in a run. *)
Record Source : Type := mkSource { s_name : str; s_file : str; says : list event -> option (list Z) -> Prop }.
Definition cloud_sources : list Source :=
  if include_cloud i then
    [mkSource #"Cloud compliance evidence" #"compliance-evidence.json" (cloud_says read_value pretty_value #"/v1/compliance/evidence");
     mkSource #"Cloud audit-chain verdict" #"audit-verify.json" (cloud_says read_audit pretty_audit #"/v1/audit/verify")]
  else [].
Definition qryx_sources : list Source :=
  match qryx i with
  | Some (bin, target, key) =>
      [mkSource #"Qryx crypto evidence (CNSA)" #"qryx-evidence.json"
         (tool_says bin ([ #"scan"; #"--format"; #"evidence"] ++ match key with Some k => [ #"--sign-key"; k] | None => [] end ++ [target]));
       mkSource #"CBOM (CycloneDX)" #"cbom.json" (tool_says bin [ #"scan"; #"--format"; #"cbom"; target])]
  | None => []
  end.
Definition idryx_sources : list Source :=
  match idryx i with
  | Some (bin, loads) =>
      [mkSource #"Agent-BOM (CycloneDX)" #"agent-bom.json"
         (tool_says bin ([ #"bom"; #"--format"; #"json"] ++ concat (map (fun l => [ #"--load"; l.1 ++ #":" ++ l.2]) loads)))]
  | None => []
  end.
Definition tokenfuse_sources : list Source :=
  match tokenfuse i with
  | Some (bin, traces, from, to) =>
      [mkSource #"TokenFuse FOCUS cost export" #"focus.csv"
         (file_says bin (fun path => [ #"focus-export"; #"--traces"; traces; #"--out"; path]
            ++ match from with Some f => [ #"--from"; f] | None => [] end ++ match to with Some t => [ #"--to"; t] | None => [] end))]
  | None => []
  end.
Definition requested : list Source := cloud_sources ++ qryx_sources ++ idryx_sources ++ tokenfuse_sources.

(** A source is in a pack as the artifact of what it gave, or, when it gave
    nothing, as a missing source with a reason. *)
Definition put (tr : list event) (s : Source) (x : Artifact + MissingSource) : Prop :=
  match x with
  | inl a => name a = s_name s /\ filename a = s_file s /\ says s tr (Some (bytes a))
  | inr m => m_name m = s_name s /\ reason m <> [] /\ says s tr None
  end.
Definition lefts : list (Artifact + MissingSource) -> list Artifact := omap (fun a => match a with inl a => Some a | inr _ => None end).
Definition rights : list (Artifact + MissingSource) -> list MissingSource := omap (fun a => match a with inl _ => None | inr m => Some m end).
Definition accounted (sources : list Source) (tr : list event) (g : Gathered) : Prop :=
  exists ans, Forall2 (put tr) sources ans /\ lefts ans = g.1 /\ rights ans = g.2.

Lemma tool_says_later bin args tr k b : tool_says bin args tr b -> tool_says bin args (tr ++ k) b.
Proof. destruct 1; [eapply tool_gave|eapply tool_failed]; rewrite ?elem_of_app; eauto. Qed.
Lemma file_says_later bin args tr k b : file_says bin args tr b -> file_says bin args (tr ++ k) b.
Proof. destruct 1; [eapply file_gave|eapply file_unread|eapply file_failed]; rewrite ?elem_of_app; eauto. Qed.
Lemma cloud_says_later {T} (read : list Z -> result T str) print path tr k b :
  cloud_says read print path tr b -> cloud_says read print path (tr ++ k) b.
Proof. destruct 1; [eapply cloud_gave|eapply cloud_failed]; rewrite ?elem_of_app; eauto. Qed.
Lemma requested_later s tr k b : s ∈ requested -> says s tr b -> says s (tr ++ k) b.
Proof.
  unfold requested, cloud_sources, qryx_sources, idryx_sources, tokenfuse_sources. rewrite !elem_of_app.
  destruct (include_cloud i), (qryx i) as [[[]]|], (idryx i) as [[]|], (tokenfuse i) as [[[[]]]|];
    rewrite ?elem_of_cons, ?elem_of_nil; intros Hs; repeat destruct Hs as [Hs|Hs]; try done; subst s; simpl;
    first [apply cloud_says_later|apply tool_says_later|apply file_says_later].
Qed.

Lemma gathered_accounted sources tr k g s n r :
  (forall s, s ∈ sources -> s ∈ requested) -> accounted sources tr g ->
  put (tr ++ k) s (match r with Ok a => inl a | Err e => inr (missing_of n e) end) ->
  accounted (sources ++ [s]) (tr ++ k) (gathered g n r).
Proof.
  intros Hin (ans&Hf&Hl&Hr) H. exists (ans ++ [match r with Ok a => inl a | Err e => inr (missing_of n e) end]). split.
  - apply Forall2_app; [|by repeat constructor]. clear -Hf Hin. induction Hf as [|s x ss xs Hx Hf IH]; constructor.
    + destruct x as [a|m]; simpl in *; destruct Hx as (?&?&?); (split; [done|]); (split; [done|]);
        (apply requested_later; [apply Hin; by left|done]).
    + apply IH. intros s' Hs'. apply Hin. by right.
  - unfold lefts, rights in *. rewrite !omap_app, Hl, Hr. unfold gathered. by destruct r; simpl; rewrite ?app_nil_r.
Qed.

Lemma last_in {A} (tr : list A) e : e ∈ tr ++ [e].
Proof. rewrite elem_of_app. right. apply elem_of_cons. by left. Qed.
#[local] Hint Resolve last_in : core.

Lemma parse_response_good {T} (read : list Z -> result T str) x v : Cloud.parse_response read x = Ok v <-> good read x v.
Proof.
  unfold Cloud.parse_response, good. destruct x as [r|e]; simpl; [|by split; [|intros (?&?&?&_)]].
  destruct (whole (chunks r)) as [body|] eqn:Ew; simpl; [|by split; [|intros (?&?&[= <-]&_&?&_); congruence]].
  unfold is_success. destruct ((200 <=? Http.status r) && (Http.status r <=? 299)) eqn:Es; b2p.
  - split.
    + intros H%map_err_Ok. exists r, body. split_and!; [done|lia|lia|exact Ew|exact H].
    + intros (r'&b'&[= <-]&_&Eb&Hr). assert (b' = body) as -> by congruence. by rewrite Hr.
  - split; [done|]. intros (r'&b'&[= <-]&?&_). lia.
Qed.
Lemma success_zero o : success o = true <-> status o = Exited 0.
Proof. unfold success. destruct (status o) as [n|]; [|done]. rewrite Z.eqb_eq. split; [by intros ->|by intros [= ->]]. Qed.

Lemma cloud_put {T} (read : list Z -> result T str) print n file src (verify : T -> option str) path tr x :
  put (tr ++ [Asked (Effects.Sent (get_of path) x)]) (mkSource n file (cloud_says read print path))
    (match made Cloud.connector_error_text (fun v => json_artifact n file src (print v) (verify v)) (Cloud.parse_response read x) with
     | Ok a => inl a | Err e => inr (missing_of n e) end).
Proof.
  destruct (Cloud.parse_response read x) as [v|e] eqn:E; simpl.
  - split; [done|]. split; [done|]. apply (cloud_gave _ _ _ _ x v); [done|by apply parse_response_good|].
    destruct (print v) as [b|e]; [by left|right; eauto].
  - split; [done|]. split; [by destruct e|]. apply (cloud_failed _ _ _ _ x); [done|].
    intros v Hv%parse_response_good. congruence.
Qed.
Lemma tool_put {E} (text : E -> str) (answer : result Output str -> result (list Z) E) (f : list Z -> Artifact) n file bin args tr x :
  (forall b, answer x = Ok b <-> exists o, x = Ok o /\ success o = true /\ b = stdout o) ->
  (forall e, text e <> []) -> (forall b, name (f b) = n /\ filename (f b) = file /\ bytes (f b) = b) ->
  put (tr ++ [Ran bin args x]) (mkSource n file (tool_says bin args))
    (match made text f (answer x) with Ok a => inl a | Err e => inr (missing_of n e) end).
Proof.
  intros Ha Ht Hf. destruct (answer x) as [b|e] eqn:Ea; simpl.
  - destruct (Hf b) as (->&->&->). split; [done|]. split; [done|]. destruct (proj1 (Ha b) eq_refl) as (o&->&Ho&->).
    by apply tool_gave, success_zero.
  - split; [done|]. split; [done|]. apply (tool_failed _ _ _ x); [done|]. intros o -> Ho%success_zero.
    assert (He : Err e = Ok (stdout o)) by (apply Ha; by exists o). done.
Qed.

(** A run that ended with zero gives its output, any other gives none. *)
Ltac by_the_exit x := destruct x as [o|e]; simpl; [|by split; [|intros (?&?&_)]];
  split; [destruct (success o) eqn:?; [intros [= <-]; eauto|done]|intros (o'&[= <-]&->&->); done].
Lemma run_bytes_ok bin x b : qryx_answer bin x = Ok b <-> exists o, x = Ok o /\ success o = true /\ b = stdout o.
Proof. unfold qryx_answer. by_the_exit x. Qed.
Lemma bom_answer_ok bin x b : bom_answer bin x = Ok b <-> exists o, x = Ok o /\ success o = true /\ b = stdout o.
Proof. unfold bom_answer. by_the_exit x. Qed.

Lemma elem_requested s :
  s ∈ cloud_sources \/ s ∈ qryx_sources \/ s ∈ idryx_sources \/ s ∈ tokenfuse_sources -> s ∈ requested.
Proof. unfold requested. rewrite !elem_of_app. tauto. Qed.

Lemma gather_cloud_accounted tr : ran tr (gather_cloud c i ([], [])) (fun g' tr' => accounted cloud_sources tr' g').
Proof.
  pose proof elem_requested as Hreq. unfold gather_cloud, cloud_sources, compliance_evidence, audit_verify, Cloud.get_json in *.
  destruct (include_cloud i); cbn [out bind wp event_of Effects.event_of]; [|by exists []].
  split; [done|]. intros _ x. split; [done|]. intros _ y.
  match goal with |- accounted [?s1; ?s2] _ _ => change [s1; s2] with ([] ++ [s1] ++ [s2]) end. rewrite (app_assoc []).
  apply gathered_accounted; [intros s Hs; apply Hreq; set_solver|apply gathered_accounted; [by intros ? ?%elem_of_nil|by exists []|]|].
  - exact (cloud_put read_value pretty_value _ _ #"tokenfuse cloud GET /v1/compliance/evidence" (fun _ => None) #"/v1/compliance/evidence" tr x).
  - exact (cloud_put read_audit pretty_audit _ _ #"tokenfuse cloud GET /v1/audit/verify" (fun av => Some (audit_status av)) #"/v1/audit/verify" _ y).
Qed.

Lemma gather_qryx_accounted sources tr g :
  (forall s, s ∈ sources -> s ∈ requested) -> accounted sources tr g ->
  ran tr (gather_qryx i g) (fun g' tr' => accounted (sources ++ qryx_sources) tr' g').
Proof.
  pose proof elem_requested as Hreq. intros Hin H.
  unfold gather_qryx, qryx_sources, scan_evidence_raw, scan_cbom_raw, run_bytes in *.
  destruct (qryx i) as [[[bin target] key]|] eqn:E; cbn [bind wp event_of]; [|by rewrite app_nil_r].
  split; [done|]. intros _ x. split; [done|]. intros _ y.
  match goal with |- accounted (_ ++ [?s1; ?s2]) _ _ => change [s1; s2] with ([s1] ++ [s2]) end. rewrite (app_assoc sources).
  apply gathered_accounted; [|apply gathered_accounted; [done|done|]|].
  - intros s [Hs|Hs]%elem_of_app; [by apply Hin|]. apply Hreq. set_solver.
  - replace (evidence_args target key) with
      ([ #"scan"; #"--format"; #"evidence"] ++ match key with Some k => [ #"--sign-key"; k] | None => [] end ++ [target]) by (by destruct key).
    apply tool_put; [intros; apply run_bytes_ok|by intros []|done].
  - apply tool_put; [intros; apply run_bytes_ok|by intros []|done].
Qed.

Lemma gather_idryx_accounted sources tr g :
  (forall s, s ∈ sources -> s ∈ requested) -> accounted sources tr g ->
  ran tr (gather_idryx i g) (fun g' tr' => accounted (sources ++ idryx_sources) tr' g').
Proof.
  intros Hin H. unfold gather_idryx, idryx_sources, agent_bom.
  destruct (idryx i) as [[bin loads]|] eqn:E; cbn [bind wp event_of]; [|by rewrite app_nil_r].
  split; [done|]. intros _ x. apply gathered_accounted; [done|done|]. unfold bom_args. rewrite flat_map_concat_map.
  apply tool_put; [intros; apply bom_answer_ok|by intros|done].
Qed.

Lemma gather_tokenfuse_accounted h sources tr g :
  (forall s, s ∈ sources -> s ∈ requested) -> accounted sources tr g ->
  ran tr (gather_tokenfuse h i g) (fun g' tr' => accounted (sources ++ tokenfuse_sources) tr' g').
Proof.
  intros Hin H. unfold gather_tokenfuse, tokenfuse_sources, focus_export.
  destruct (tokenfuse i) as [[[[bin traces] from] to]|] eqn:E; cbn [bind wp event_of]; [|by rewrite app_nil_r].
  split; [done|]. intros _ n. split; [done|]. intros _ _. split; [done|]. intros _ x.
  set (path := focus_path h n). destruct x as [o|e]; cbn [bind wp event_of].
  2:{ split; [done|]. intros _ _. rewrite <- !app_assoc. apply gathered_accounted; [done|done|]. split; [done|]. split; [done|].
      apply (file_failed _ _ _ path (Err e)); [|done]. rewrite !elem_of_app. simpl. rewrite ?elem_of_cons. tauto. }
  destruct (success o) eqn:Ho; cbn [negb bind wp event_of].
  2:{ split; [done|]. intros _ _. rewrite <- !app_assoc. apply gathered_accounted; [done|done|]. split; [done|]. split; [done|].
      apply (file_failed _ _ _ path (Ok o)); [|intros o' [= <-] Hz%success_zero; congruence].
      rewrite !elem_of_app. simpl. rewrite ?elem_of_cons. tauto. }
  apply success_zero in Ho.
  split; [done|]. intros _ b. split; [done|]. intros _ _. rewrite <- !app_assoc. apply gathered_accounted; [done|done|].
  destruct b as [b|e]; simpl; (split; [done|]); (split; [done|]);
    [apply (file_gave _ _ _ path o b)|apply (file_unread _ _ _ path o e)]; try done;
    rewrite !elem_of_app; simpl; rewrite ?elem_of_cons, ?list_elem_of_singleton; tauto.
Qed.

(** A run's answer is the seal of what its sources answered. *)
Lemma build_seals h :
  ran [] (build_evidence_pack h c i) (fun r tr => exists g, accounted requested tr g /\ r = seal c i g).
Proof.
  unfold build_evidence_pack. apply wp_bind. eapply wp_mono.
  { apply gather_cloud_accounted. }
  intros g1 tr1 H1. apply wp_bind. eapply wp_mono.
  { apply (gather_qryx_accounted _ _ _ (fun s Hs => elem_requested s (or_introl Hs)) H1). }
  intros g2 tr2 H2. apply wp_bind. eapply wp_mono; [eapply (gather_idryx_accounted _ _ _ _ H2)|].
  intros g3 tr3 H3. apply wp_bind. eapply wp_mono; [eapply (gather_tokenfuse_accounted h _ _ _ _ H3)|].
  intros g4 tr4 H4. exists g4. split; [|done]. unfold requested. by rewrite !app_assoc.
  Unshelve. all: intros s; rewrite !elem_of_app; intros Hs; apply elem_requested; tauto.
Qed.

(** *** The names of what was captured *)

Lemma requested_files : NoDup (map s_file requested) /\ Forall (fun s => bare (s_file s)) requested.
Proof.
  unfold requested, cloud_sources, qryx_sources, idryx_sources, tokenfuse_sources.
  destruct (include_cloud i), (qryx i) as [[[]]|], (idryx i) as [[]|], (tokenfuse i) as [[[[]]]|];
    (split; [apply (bool_decide_eq_true_1 _); by vm_compute|repeat constructor]).
Qed.
Lemma put_files tr sources ans :
  Forall2 (put tr) sources ans -> map filename (lefts ans) `sublist_of` map s_file sources.
Proof.
  induction 1 as [|s [a|m] ss xs Hx _ IH]; simpl; [constructor|..]; [|by constructor].
  destruct Hx as (_&->&_). by constructor.
Qed.

(** What was gathered is never refused for its names. *)
Lemma gathered_names_pass tr g : accounted requested tr g -> check_names g.1 [] = Ok tt.
Proof.
  intros (ans&Hf&<-&_). apply put_files in Hf. destruct requested_files as [Hn Hb]. apply check_names_ok. split.
  - by eapply sublist_NoDup.
  - apply Forall_forall. intros a Ha. split; [by intros ?%elem_of_nil|]. rewrite Forall_forall in Hb.
    assert (Hin : filename a ∈ map s_file requested).
    { eapply elem_of_sublist; [|exact Hf]. by apply list_elem_of_In, in_map, list_elem_of_In. }
    apply list_elem_of_In, in_map_iff in Hin as (s&<-&Hs%list_elem_of_In). by apply Hb.
Qed.

(** *** The pack *)

Context {EW : EvidenceLaws}.

(** The device vouches for exactly the manifest's bytes; no device, no
    signature. *)
Definition vouched (mb : list Z) (s : list (str * list Z)) (p : EvidencePack) : Prop :=
  match Cloud.device c with
  | None => s = [] /\ signed p = false
  | Some d => signed p = true /\ exists sg key b,
      sign_raw (Cloud.signer d) mb = Ok sg /\ public_key_x963 (Cloud.signer d) = Ok key
      /\ pretty_signature (mkBlock #"ES256" (b64_encode sg) (b64_encode key) MANIFEST_FILE) = Ok b
      /\ s = [(SIGNATURE_FILE, b)]
  end.
(** The manifest's line of an artifact. *)
Definition listed (e : ManifestArtifact) (a : Artifact) : Prop :=
  e_name e = name a /\ e_filename e = filename a /\ e_content_type e = content_type a /\ e_source e = source a
  /\ e_tool_version e = tool_version a /\ e_verify_status e = verify_status a
  /\ sha256_text e = #"sha256:" ++ hex_lower (sha256 (bytes a)) /\ size_bytes e = Z.of_nat (length (bytes a)).
Lemma build_lists arts : Forall2 listed (map manifest_entry arts) arts.
Proof. induction arts; simpl; constructor; [by split_and!|done]. Qed.
Definition sealed (g : Gathered) (p : EvidencePack) : Prop :=
  let m := manifest p in
  pack_version m = #"genaryx-evidence/v1" /\ generated_at m = i_generated_at i /\ operator m = i_operator i
  /\ org m = i_org i /\ Forall2 listed (entries m) g.1 /\ missing m = g.2
  /\ exists mb s, pretty_manifest (manifest p) = Ok mb
       /\ unzip (zip_bytes p) = Some ((MANIFEST_FILE, mb) :: s ++ map entry g.1) /\ vouched mb s p.

Lemma sign_answer mb :
  match sign_evidence_manifest c mb with
  | Ok block => exists d sg key, Cloud.device c = Some d /\ sign_raw (Cloud.signer d) mb = Ok sg
      /\ public_key_x963 (Cloud.signer d) = Ok key /\ block = mkBlock #"ES256" (b64_encode sg) (b64_encode key) MANIFEST_FILE
  | Err Cloud.NoDeviceSigner => Cloud.device c = None
  | Err e => exists d e', Cloud.device c = Some d /\ e = Cloud.SigningFailed e'
  end.
Proof.
  unfold sign_evidence_manifest. destruct (Cloud.device c) as [d|]; simpl; [|done].
  destruct (sign_raw (Cloud.signer d) mb) as [sg|e] eqn:Es; simpl; [|eauto]. unfold Signing.public_key_b64.
  destruct (public_key_x963 (Cloud.signer d)) as [key|e] eqn:E; simpl; [by exists d, sg, key|eauto].
Qed.

Lemma seal_whole tr g p : accounted requested tr g -> seal c i g = Ok p -> g.1 <> [] /\ sealed g p.
Proof.
  intros _. unfold seal. case_bool_decide as Hne; [done|]. intros H. oks H. injection H as <-.
  apply map_err_Ok in Hx. split; [done|]. unfold sealed. split_and!; try done.
  { apply build_lists. }
  exists x. pose proof (sign_answer x) as Hs.
  apply archive_holds in Hx1 as (s&Hs'&Hz). exists s. split_and!; [done..|]. unfold vouched, signature_of in *. simpl.
  destruct (sign_evidence_manifest c x) as [block|e].
  - injection Hx0 as <-. destruct Hs as (d&sg&key&->&Hsg&Hk&->), Hs' as (b&Hb&->). split; [done|]. eauto 8.
  - destruct e; try done; [|by destruct Hs as (?&?&_&?)..]. injection Hx0 as <-. by rewrite Hs.
Qed.

Definition refused (g : Gathered) (e : EvidenceBuildError) : Prop :=
  match e with
  | NoArtifacts => g.1 = []
  | SignFailed e => exists d why, Cloud.device c = Some d /\ e = Cloud.SigningFailed why
  | AssembleFailed (UnsafeFilename _ | DuplicateFilename _) => False
  | AssembleFailed _ => g.1 <> []
  end.
Lemma seal_refused tr g e : accounted requested tr g -> seal c i g = Err e -> refused g e.
Proof.
  intros Ha%gathered_names_pass. unfold seal. case_bool_decide as Hne; [by intros [= <-]|].
  unfold canonical_bytes. destruct (pretty_manifest _) as [mb|]; simpl; [|by intros [= <-]].
  pose proof (sign_answer mb) as Hs. unfold signature_of, assemble_zip. rewrite Ha. simpl.
  destruct (sign_evidence_manifest c mb) as [block|[]]; simpl; try (intros [= <-]; by eauto);
    [destruct (pretty_signature block) as [sb|]; simpl; [|by intros [= <-]]|];
    destruct (zip _); simpl; by intros [= <-].
Qed.

(** C35: A pack that is built holds exactly what its sources answered in this
    run.  Every source that was asked for is in it once, in the order of the
    code: as an artifact when it gave something, as a missing source with a
    reason when it did not.  A tool gave the output of a run of its own command
    line that ended with zero, or the file that run was told to write, and gave
    nothing when the run did not start, ended otherwise or left no file to read;
    the Cloud gave the value of a whole body under a code of success, printed
    again (or an empty object when it does not print), and gave nothing
    otherwise.  The manifest has one line for each artifact, with its names, the
    SHA-256 of its bytes and their number, and the missing sources; the archive
    holds the manifest's bytes, the device's signature over those very bytes when
    there is a device, and each artifact's bytes, under names that are distinct
    and bare.  No pack is built of nothing, none is unsigned when a device failed
    to sign, and none is refused for the names of what was gathered. *)
Theorem pack_is_what_was_gathered h :
  ran [] (build_evidence_pack h c i) (fun r tr => exists g, accounted requested tr g
    /\ match r with Ok p => g.1 <> [] /\ sealed g p | Err e => refused g e end).
Proof.
  eapply wp_mono; [apply build_seals|]. intros r tr (g&Hg&->). exists g. split; [done|].
  destruct (seal c i g) as [p|e] eqn:E; [by eapply seal_whole|by eapply seal_refused].
Qed.
End Accounts.

(** ** What a build writes down *)

Definition asked (tr : list event) : list Effects.event := omap (fun e => match e with Asked e => Some e | _ => None end) tr.
Lemma asked_app a b : asked (a ++ b) = asked a ++ asked b.
Proof. apply omap_app. Qed.

(** Nothing is journaled, and these are the requests that are sent. *)
Definition quiet (rs : list Effects.Request) (tr tr' : list event) : Prop :=
  exists k, tr' = tr ++ k /\ Effects.records (asked k) = [] /\ map fst (Effects.sent (asked k)) = rs.
Lemma quiet_refl tr : quiet [] tr tr.
Proof. exists []. by rewrite app_nil_r. Qed.
Lemma quiet_trans rs rs' tr1 tr2 tr3 : quiet rs tr1 tr2 -> quiet rs' tr2 tr3 -> quiet (rs ++ rs') tr1 tr3.
Proof.
  intros (k&->&Hr&<-) (k'&->&Hr'&<-). exists (k ++ k').
  by rewrite <- app_assoc, asked_app, Effects.records_app, Effects.sent_app, Hr, Hr', map_app.
Qed.
Lemma quiet_step rs tr tr' e : Effects.records (asked [e]) = [] -> Effects.sent (asked [e]) = [] -> quiet rs tr tr' -> quiet rs tr (tr' ++ [e]).
Proof. intros He Hs H. rewrite <- (app_nil_r rs). eapply quiet_trans; [exact H|]. exists [e]. by rewrite He, Hs. Qed.
(** A program's operations one after the other. *)
Ltac hush := repeat match goal with
  | |- True /\ (forall _, _) => split; [done|intros ? ?]; cbn [bind wp event_of Effects.event_of]
  | |- quiet _ ?tr ?tr => apply quiet_refl
  | |- quiet _ _ (_ ++ [_]) => apply quiet_step; [done|done|]
  end.

Section Journal.
Context {PR : Primitives} {JT : JsonText} {CW : Cloud.CloudWire} {EL : EvidenceLib} (debug_str : str -> str).

(** The two questions to the Cloud, when it is asked. *)
Definition questions (c : Cloud.CloudClient) (ask : bool) : list Effects.Request :=
  if ask then [get_of c #"/v1/compliance/evidence"; get_of c #"/v1/audit/verify"] else [].

Lemma gather_cloud_quiet c i g tr : ran tr (gather_cloud c i g) (fun _ tr' => quiet (questions c (include_cloud i)) tr tr').
Proof.
  unfold gather_cloud, compliance_evidence, audit_verify, Cloud.get_json, questions.
  destruct (include_cloud i); cbn [out bind wp event_of Effects.event_of]; hush.
  eexists. rewrite <- app_assoc. done.
Qed.
Lemma gather_qryx_quiet i g tr : ran tr (gather_qryx i g) (fun _ tr' => quiet [] tr tr').
Proof.
  unfold gather_qryx, scan_evidence_raw, scan_cbom_raw, run_bytes.
  destruct (qryx i) as [[[]]|]; cbn [bind wp event_of]; hush.
Qed.
Lemma gather_idryx_quiet i g tr : ran tr (gather_idryx i g) (fun _ tr' => quiet [] tr tr').
Proof. unfold gather_idryx, agent_bom. destruct (idryx i) as [[]|]; cbn [bind wp event_of]; hush. Qed.
Lemma gather_tokenfuse_quiet h i g tr : ran tr (gather_tokenfuse h i g) (fun _ tr' => quiet [] tr tr').
Proof.
  unfold gather_tokenfuse, focus_export. destruct (tokenfuse i) as [[[[]]]|]; cbn [bind wp event_of]; hush.
  match goal with |- context [match ?x with Ok _ => _ | Err _ => _ end] => destruct x as [left|] end; cbn [bind wp event_of]; hush.
  destruct (success left); cbn [negb bind wp event_of]; hush.
Qed.

Lemma build_quiet h c i tr :
  ran tr (build_evidence_pack h c i) (fun r tr' => quiet (questions c (include_cloud i)) tr tr' /\ exists g, r = seal c i g).
Proof.
  unfold build_evidence_pack. apply wp_bind. eapply wp_mono; [apply gather_cloud_quiet|]. intros g1 tr1 H1.
  apply wp_bind. eapply wp_mono; [apply gather_qryx_quiet|]. intros g2 tr2 H2. apply wp_bind.
  eapply wp_mono; [apply gather_idryx_quiet|]. intros g3 tr3 H3. apply wp_bind.
  eapply wp_mono; [apply gather_tokenfuse_quiet|]. intros g4 tr4 H4. simpl. split; [|eauto].
  rewrite <- (app_nil_r (questions _ _)). eapply quiet_trans; [exact H1|].
  exact (quiet_trans [] [] _ _ _ H2 (quiet_trans [] [] _ _ _ H3 H4)).
Qed.

(** A pack is signed exactly when there is a device. *)
Lemma seal_signed c i g p : seal c i g = Ok p -> signed p = Cloud.has_device c.
Proof.
  unfold seal. case_bool_decide; [done|]. intros H'. oks H'. injection H' as <-. simpl. unfold Cloud.has_device.
  pose proof (sign_answer c x) as Hs. unfold signature_of in Hx0.
  destruct (sign_evidence_manifest c x) as [block|[]]; try done;
    [injection Hx0 as <-; by destruct Hs as (d&_&_&->&_)|injection Hx0 as <-; by rewrite Hs].
Qed.

(** What the line says of the pack that is handed over in these bytes. *)
Definition names_the_pack (mc : Cloud.MoneyClient) (z : list Z) (d : EvidenceBuildDto) (rec : CommandRecord) : Prop :=
  let hash := #"sha256:" ++ hex_lower (sha256 z) in
  action rec = #"console.evidence_built" /\ target rec = hash /\ Command.operator rec = Cloud.default_operator mc
  /\ decision rec = #"allow" /\ sig_fpr rec = Cloud.client_fpr mc
  /\ params rec = obj [(#"sha256", VStr hash); (#"artifact_count", usize (length (entries (d_manifest d))));
                       (#"signed", VBool (d_signed d)); (#"missing_count", usize (length (missing (d_manifest d))));
                       (#"operator", VStr (Cloud.default_operator mc)); (#"org", VStr (Cloud.org mc))].
(** The line of this pack, and the answer of the journal. *)
Definition written_down (mc : Cloud.MoneyClient) (z : list Z) (d : EvidenceBuildDto) (tr : list event) : Prop :=
  if Cloud.bus mc then exists tr0 rec x, tr = tr0 ++ [Asked (Effects.Journaled (Cloud.org mc) (Cloud.host mc) rec x)]
      /\ Effects.records (asked tr0) = [] /\ names_the_pack mc z d rec /\ journaled d = is_ok x
  else Effects.records (asked tr) = [] /\ journaled d = false.

(** C39: A pack that is handed over is put down in the journal as what it is.
    With a paired money plane that has a journal, the last thing done is to hand
    it one line: the hash of the very bytes handed over, the number of artifacts
    and of missing sources of the manifest handed over, whether it is signed,
    the plane's operator, its org and its device's fingerprint; the answer says
    that the line was written exactly when the journal acknowledged it.  A
    paired plane without a journal writes no line, and the answer says so.  The
    pack is signed exactly when the plane has a device, and the requests of the
    whole build are the two questions to the Cloud when it was wanted, and none
    when it was not.  Without a paired plane nothing is sent, nothing is
    journaled, the pack is not signed, the Cloud is left out whether it was
    wanted or not, and the answer says so.  A build that fails journals
    nothing. *)
Theorem built_pack_is_journaled h rq inner money http :
  ran [] (evidence_build debug_str h rq inner money http) (fun r tr =>
    match r with
    | Ok d => exists z, zip_base64 d = b64_encode z /\
        match money with
        | Cloud.Ready mc => cloud_included d = want_cloud rq
            /\ map fst (Effects.sent (asked tr)) = questions (Cloud.client mc) (want_cloud rq)
            /\ (d_signed d = true <-> Cloud.device (Cloud.client mc) <> None) /\ written_down mc z d tr
        | _ => cloud_included d = false /\ d_signed d = false /\ journaled d = false
            /\ Effects.records (asked tr) = [] /\ Effects.sent (asked tr) = []
        end
    | Err _ => Effects.records (asked tr) = []
    end).
Proof.
  unfold evidence_build. destruct (let? env := ready_env inner in let? l := lend money http (want_cloud rq) in Ok (env, l))
    as [[env l]|e] eqn:E; [|done].
  apply rbind_Ok in E as (env'&_&E). apply rbind_Ok in E as (l'&El&[= -> ->]).
  cbn [bind wp event_of Effects.event_of]. split; [done|]. intros _ now. apply wp_bind.
  eapply wp_mono; [apply build_quiet|]. intros r tr [Hq [g ->]].
  assert (Hq' : quiet (questions (cloud l) (ask_cloud l)) [] tr).
  { refine (quiet_trans [] _ _ _ _ _ Hq). by apply quiet_step, quiet_refl. }
  destruct Hq' as (k&->&Hr&Hs). destruct (seal _ _ g) as [p|] eqn:Ep; [|done]. pose proof (seal_signed _ _ _ _ Ep) as Hd.
  unfold record_pack. destruct money as [| | |mc]; simpl in El;
    try (apply rbind_Ok in El as (?&_&[= <-]); simpl in *; exists (zip_bytes p); apply map_eq_nil in Hs; by rewrite Hr, Hs).
  injection El as <-. simpl in *. unfold journal_build, Effects.journal_on, written_down.
  assert (Hsig : signed p = true <-> Cloud.device (Cloud.client mc) <> None) by (rewrite Hd; unfold Cloud.has_device; by case_match).
  destruct (Cloud.bus mc) eqn:Eb; cbn [out bind wp event_of Effects.event_of].
  - split; [done|]. intros _ x. change (result unit str) in x. destruct x as [[]|e]; cbn [out bind wp];
      (exists (zip_bytes p); simpl; rewrite asked_app, Effects.sent_app, map_app, Hs, app_nil_r; split_and!; [done..|];
       exists k; do 2 eexists; done).
  - exists (zip_bytes p). done.
Qed.
End Journal.

(** ** Examples *)

Module Example.
#[local] Existing Instance demo_primitives.
#[local] Instance demo_json : JsonText := {| json_of _ := Some VNull; json_text _ := #"{}" |}.
#[local] Instance demo_cloud : Cloud.CloudWire :=
  {| Cloud.read_kill _ := Err []; Cloud.read_budget _ := Err []; Cloud.read_unit_budget _ := Err [];
     Cloud.read_ack _ := Err []; Cloud.read_runs _ := Err []; Cloud.read_pair_new _ := Err []; Cloud.read_pair _ := Err [];
     Cloud.read_plan_required _ := None; Cloud.read_error _ := None; Cloud.show_f64 _ := []; Cloud.show_f64_4 _ := [] |}.

(** An archive as its entries one after the other, each part with its length. *)
Fixpoint join_entries (es : list (str * list Z)) : list Z :=
  match es with
  | [] => []
  | (n, b) :: es => Z.of_nat (length n) :: n ++ Z.of_nat (length b) :: b ++ join_entries es
  end.
Fixpoint split_entries (k : nat) (l : list Z) : option (list (str * list Z)) :=
  match k, l with
  | O, _ => Some []
  | S k, a :: l =>
      match skipn (Z.to_nat a) l with
      | b :: l' =>
          let! es := split_entries k (skipn (Z.to_nat b) l') in
          Some ((firstn (Z.to_nat a) l, firstn (Z.to_nat b) l') :: es)
      | [] => None
      end
  | S _, [] => None
  end.
Definition demo_unzip (l : list Z) : option (list (str * list Z)) :=
  match l with k :: l => split_entries (Z.to_nat k) l | [] => None end.
Lemma split_join es : split_entries (length es) (join_entries es) = Some es.
Proof.
  induction es as [|[n b] es IH]; [done|]. cbn [join_entries split_entries length].
  rewrite Nat2Z.id, drop_app_length, Nat2Z.id, drop_app_length, IH, !take_app_length. done.
Qed.

#[local] Instance demo_lib : EvidenceLib :=
  {| read_value _ := Ok VNull; read_audit _ := Ok (mkAudit true None);
     pretty_value _ := Ok #"null"; pretty_audit _ := Ok #"{ }";
     pretty_manifest m := Ok (flat_map sha256_text (entries m) ++ flat_map m_name (missing m));
     pretty_signature s := Ok (signature_b64 s);
     zip es := Ok (Z.of_nat (length es) :: join_entries es); rfc3339_millis := dec |}.
#[local] Instance demo_zip : EvidenceLaws.
Proof.
  refine {| unzip := demo_unzip |}. intros es b _ [= <-]. simpl. rewrite Nat2Z.id. apply split_join.
Defined.

Fixpoint play {A} (world : forall o, resp o) (tr : list event) (p : program A) : A * list event :=
  match p with
  | Ret a => (a, tr)
  | Do o k => let x := world o in play world (tr ++ [event_of o 0 x]) (k x)
  end.
Lemma played {A} world tr (p : program A) post : ran tr p post -> post (play world tr p).1 (play world tr p).2.
Proof. revert tr. induction p as [a|o k IH]; intros tr; simpl; [done|]. intros [_ H]. by apply IH. Qed.

(** A scan's evidence is printed, its CBOM is not. *)
Definition world (o : op) : resp o :=
  match o with
  | Out (Effects.Send _) => Err #"refused"
  | Out Effects.Draw => (None, Err [])
  | Out Effects.Clock => 7
  | Out Effects.Seed => (Err [], 0, 0)
  | Out Effects.Now => 0
  | Out Effects.Random => Err []
  | Out (Effects.Journal _ _ _) => Ok tt
  | Spawn _ args => if bool_decide (#"evidence" ∈ args) then Ok (mkOutput (Exited 0) #"report" [])
                    else Ok (mkOutput (Exited 1) [] #"no root ")
  | Ticket => 0
  | RemoveFile _ => Ok tt
  | ReadFile _ => Err []
  end.

Definition demo_device : Cloud.Device := Cloud.mkDevice #"dev" #"tok" (mkSigner SoftwareP256 (Ok [1]) (fun m => Ok (firstn 4 m))).
Definition demo_client : Cloud.CloudClient := Cloud.mkClient #"http://c" #"t" (Some demo_device).
Definition demo_inputs : EvidenceInputs :=
  mkInputs #"user://acme/op" #"acme" #"7" false (Some (#"qryx", #".", None)) None None.
Definition demo_pack : result EvidencePack EvidenceBuildError * list event :=
  play world [] (build_evidence_pack (mkHost #"/tmp" 1) demo_client demo_inputs).

Lemma pack_is_what_was_gathered_witness :
  exists p g, demo_pack.1 = Ok p /\ accounted (requested demo_client demo_inputs) demo_pack.2 g
    /\ g.1 <> [] /\ sealed demo_client demo_inputs g p
    /\ map e_filename (entries (manifest p)) = [ #"qryx-evidence.json"]
    /\ map reason (missing (manifest p)) = [ #"qryx exited 1: no root"].
Proof.
  pose proof (played world [] _ _ (pack_is_what_was_gathered demo_client demo_inputs (mkHost #"/tmp" 1))) as (g&Hg&H).
  fold demo_pack in Hg, H. destruct demo_pack.1 as [p|] eqn:E; [|revert E; by vm_compute].
  destruct H as [Hne Hw]. exists p, g. split_and!; try done; revert E; vm_compute; by intros [= <-].
Defined.

(** The Cloud was asked for and no device is paired: the manifest names neither
    of its two sources, not even as missing. *)
Definition demo_request : EvidenceBuildRequest := mkRequest true true None false false None.
Definition demo_panel : EvidenceInner := Ready (mkEnv (Some (mkQryx #"qryx" #".")) None None).
Definition demo_build (money : Cloud.MoneyInner) : result EvidenceBuildDto EvidenceCommandError * list event :=
  play world [] (evidence_build id (mkHost #"/tmp" 1) demo_request demo_panel money (Ok tt)).
Lemma the_cloud_is_left_out_in_silence :
  exists d, (demo_build Cloud.NoMoneyEnvironment).1 = Ok d /\ want_cloud demo_request = true
    /\ map e_name (entries (d_manifest d)) ++ map m_name (missing (d_manifest d)) = [CNSA; CBOM].
Proof. eexists. by vm_compute. Qed.

(** A signed-in operator sets a budget and builds a pack: the journal names her
    in the one line, and the console's own principal in the other. *)
Definition demo_money : Cloud.MoneyClient := Cloud.mkMoneyClient demo_client #"acme" #"user://acme/svc" #"host" #"fpr" true.
Definition alice : Effects.Scope := Effects.mkScope (Some #"alice") None (fun _ => None).
Lemma the_pack_is_not_put_down_to_its_builder :
  Command.operator (Cloud.mutation_record alice demo_money #"console.kill_run" #"r1" VNull #"allow" 200 []) = #"user://acme/alice"
  /\ map Command.operator (Effects.records (asked (demo_build (Cloud.Ready demo_money)).2)) = [ #"user://acme/svc"].
Proof. by vm_compute. Qed.

Lemma built_pack_is_journaled_witness :
  exists d z, (demo_build (Cloud.Ready demo_money)).1 = Ok d /\ zip_base64 d = b64_encode z
    /\ written_down demo_money z d (demo_build (Cloud.Ready demo_money)).2 /\ journaled d = true.
Proof.
  pose proof (played world [] _ _ (built_pack_is_journaled id (mkHost #"/tmp" 1) demo_request demo_panel
                                       (Cloud.Ready demo_money) (Ok tt))) as H.
  fold (demo_build (Cloud.Ready demo_money)) in H. destruct (demo_build (Cloud.Ready demo_money)).1 as [d|] eqn:E.
  - destruct H as (z&Hz&_&_&_&Hw). exists d, z. split_and!; [done..|]. revert E. vm_compute. by intros [= <-].
  - exfalso. revert E. by vm_compute.
Defined.
End Example.
