(* ===== verification/Tokenfuse.v ===== *)
(** * Tokenfuse: savings and costs read off a gateway's printed text
    ([crates/connectors/src/tokenfuse.rs], [crates/copilot/src/tools/optimize.rs],
    and [dollarize] of [crates/copilot/src/tools/mod.rs])

    The gateway's command line prints for people: a report of savings, and the
    table of a query.  The client reads amounts, counts and rows back out of
    that text, and two tools of the copilot hand the result to the model with
    every amount of micro-dollars as dollars. *)
From S2P Require Import Prelude Text Json Prog.
From S2P Require EvidencePack Action BudgetProof JsonCode.
Import EvidencePack (TokenfuseError, TSpawn, TCli, TParse, Output, Status, Exited, Signaled, status, stdout, stderr, success, code_or, said).

(** A release build wraps. *)
Definition i64_wrap (z : Z) : Z := (z - i64_min) mod 18446744073709551616 + i64_min.

(** ** Amounts *)

(** [frac.truncate(6)], then zeros up to six digits. *)
Definition six (frac : str) : str := let f := firstn 6 frac in f ++ repeat 48 (6 - length f).
Definition ascii_digits (s : str) : bool := forallb ascii_digit (str_bytes s).
Definition parse_usd_to_microusd (s : str) : option Z :=
  let s := trim s in
  let '(sign, s) := match strip_prefix #"-" s with Some rest => (-1, rest) | None => (1, s) end in
  let! s := strip_prefix #"$" s in
  let '(int_part, frac_part) := default (s, []) (split_once #"." s) in
  if bool_decide (int_part = []) || negb (ascii_digits int_part) then None
  else if negb (ascii_digits frac_part) then None
  else
    let! int_val := parse_i64 int_part in
    let! frac_val := parse_i64 (six frac_part) in
    Some (i64_wrap (sign * i64_wrap (i64_wrap (int_val * 1000000) + frac_val))).

(** ** The report of savings *)

Record TokenfuseSavings : Type := mkSavings
  { trace_data_found : bool; blocked_spend_microusd : Z; blocked_calls : Z; budget_breaks_prevented : Z;
    cache_saved_microusd : Z; router_saved_microusd : Z; by_reason_microusd : gmap str Z }.
Definition no_savings (found : bool) : TokenfuseSavings := mkSavings found 0 0 0 0 0 ∅.
(** What was read so far, and which of the three lines were. *)
Record Reading : Type := mkReading { saved : TokenfuseSavings; saw_runaway : bool; saw_cache : bool; saw_router : bool }.

Section Parse.
(** [{:?}] of a string and of a list of strings. *)
Context (debug_str : str -> str) (debug_list : list str -> str).

Definition bad_report {A} (detail : str) : result A TokenfuseError := Err (TParse #"savings" detail).
Definition bad_table {A} (detail : str) : result A TokenfuseError := Err (TParse #"sql" detail).
Definition report_or {A} (x : option A) (detail : str) : result A TokenfuseError := ok_or x (TParse #"savings" detail).

Definition runaway_line (line rest : str) (r : Reading) : result Reading TokenfuseError :=
  let? '(money_str, paren_rest) := report_or (split_once #"(" (trim rest)) (#"no `(...)` clause in runaway line: " ++ debug_str line) in
  let? amount := report_or (parse_usd_to_microusd money_str) (#"could not parse USD amount in runaway line: " ++ debug_str line) in
  let? clause := report_or (strip_suffix #")" (trim_end paren_rest))
                   (#"runaway line clause missing its closing paren: " ++ debug_str line) in
  let tokens := split_whitespace clause in
  let? calls := report_or (let! t := head tokens in parse_u64 t) (#"could not read the blocked-call count in: " ++ debug_str line) in
  let? across := report_or (list_find (fun t => t = #"across") tokens)
                   (#"expected the word " ++ [34] ++ #"across" ++ [34] ++ #" in runaway line: " ++ debug_str line) in
  let? breaks := report_or (let! t := tokens !! S across.1 in parse_u64 t)
                   (#"could not read the budget-break count in: " ++ debug_str line) in
  let s := saved r in
  Ok (mkReading (mkSavings (trace_data_found s) amount calls breaks (cache_saved_microusd s) (router_saved_microusd s)
                   (by_reason_microusd s)) true (saw_cache r) (saw_router r)).
Definition cache_line (line rest : str) (r : Reading) : result Reading TokenfuseError :=
  let? amount := report_or (parse_usd_to_microusd (trim rest)) (#"could not parse USD amount in cache-saved line: " ++ debug_str line) in
  let s := saved r in
  Ok (mkReading (mkSavings (trace_data_found s) (blocked_spend_microusd s) (blocked_calls s) (budget_breaks_prevented s)
                   amount (router_saved_microusd s) (by_reason_microusd s)) (saw_runaway r) true (saw_router r)).
Definition router_line (line rest : str) (r : Reading) : result Reading TokenfuseError :=
  let? amount := report_or (parse_usd_to_microusd (trim rest)) (#"could not parse USD amount in router-saved line: " ++ debug_str line) in
  let s := saved r in
  Ok (mkReading (mkSavings (trace_data_found s) (blocked_spend_microusd s) (blocked_calls s) (budget_breaks_prevented s)
                   (cache_saved_microusd s) amount (by_reason_microusd s)) (saw_runaway r) (saw_cache r) true).
Definition reason_line (line trimmed : str) (r : Reading) : result Reading TokenfuseError :=
  match split_whitespace trimmed with
  | [reason; money] =>
      let? amount := report_or (parse_usd_to_microusd money) (#"could not parse USD amount in reason line: " ++ debug_str line) in
      let s := saved r in
      Ok (mkReading (mkSavings (trace_data_found s) (blocked_spend_microusd s) (blocked_calls s) (budget_breaks_prevented s)
                       (cache_saved_microusd s) (router_saved_microusd s) (<[reason := amount]> (by_reason_microusd s)))
            (saw_runaway r) (saw_cache r) (saw_router r))
  | _ => bad_report (#"unrecognized savings output line: " ++ debug_str line)
  end.
Definition savings_line (line : str) (r : Reading) : result Reading TokenfuseError :=
  let trimmed := trim line in
  if bool_decide (trimmed = []) then Ok r
  else match strip_prefix #"runaway spend stopped:" trimmed with
  | Some rest => runaway_line line rest r
  | None =>
      match strip_prefix #"cache saved:" trimmed with
      | Some rest => cache_line line rest r
      | None =>
          match strip_prefix #"router saved:" trimmed with
          | Some rest => router_line line rest r
          | None => reason_line line trimmed r
          end
      end
  end.
Fixpoint savings_lines (ls : list str) (r : Reading) : result Reading TokenfuseError :=
  match ls with
  | [] => Ok r
  | l :: ls => let? r := savings_line l r in savings_lines ls r
  end.
Definition parse_savings_text (text : str) : result TokenfuseSavings TokenfuseError :=
  match Text.lines text with
  | [] => bad_report #"empty output"
  | header :: ls =>
      if contains #"no trace yet" header then Ok (no_savings false)
      else if negb (starts_with #"TokenFuse savings" header) then bad_report (#"unrecognized header line: " ++ debug_str header)
      else
        let? r := savings_lines ls (mkReading (no_savings true) false false false) in
        if saw_runaway r && saw_cache r && saw_router r then Ok (saved r)
        else bad_report #"missing one of the three expected summary lines (runaway/cache/router)"
  end.

(** ** The table of a query *)

Record CostBreakdownRow : Type := mkCost
  { label : str; calls : Z; total_cost_microusd : Z; total_tool_calls : Z; tool_calls_known_rows : Z;
    cost_per_tool_call_microusd : option Z }.
Record CostPerActionReport : Type := mkReport { by_model : list CostBreakdownRow; by_agent : list CostBreakdownRow }.

(** [trim_start_matches('|')], [trim_end_matches('|')]. *)
Fixpoint drop_bars (s : str) : str := match s with c :: s' => if c =? 124 then drop_bars s' else s | [] => [] end.
Definition trim_bars (s : str) : str := rev (drop_bars (rev (drop_bars s))).
Definition cells (line : str) : list str := map trim (split_char 124 (trim_bars line)).
Definition parse_pretty_table (text : str) : list (list str) :=
  map cells (List.filter (starts_with #"|") (map trim_end (Text.lines text))).

(** A division may panic. *)
Inductive CostError : Type :=
| Failed (e : TokenfuseError)
| Panicked.
Definition col (header : list str) (name : str) : result nat TokenfuseError :=
  match list_find (fun h => h = name) header with
  | Some (i, _) => Ok i
  | None => bad_table (#"missing expected column `" ++ name ++ #"` in header " ++ debug_list header)
  end.
Definition cell_at (header row : list str) (i : nat) : result str TokenfuseError :=
  ok_or (row !! i) (TParse #"sql" (#"row " ++ debug_list row ++ #" is shorter than the header " ++ debug_list header)).
Definition number_at (parse : str -> option Z) (header row : list str) (field : str) (i : nat) : result Z TokenfuseError :=
  let? c := cell_at header row i in
  ok_or (parse c) (TParse #"sql" (#"non-numeric `" ++ field ++ #"` cell in row " ++ debug_list row)).

(** [total_cost_microusd / total_tool_calls as i64], of two [i64]. *)
Definition rate (cost tools known : Z) : result (option Z) CostError :=
  if (known =? 0) || (tools =? 0) then Ok None
  else let d := i64_wrap tools in
       if (d =? -1) && (cost =? i64_min) then Err Panicked else Ok (Some (Z.quot cost d)).
Definition cost_row (header row : list str) (label_idx calls_idx cost_idx tools_idx known_idx : nat)
  : result CostBreakdownRow CostError :=
  let? label := map_err Failed (cell_at header row label_idx) in
  let? calls := map_err Failed (number_at parse_u64 header row #"calls" calls_idx) in
  let? cost := map_err Failed (number_at parse_i64 header row #"total_cost_microusd" cost_idx) in
  let? tools := map_err Failed (number_at parse_u64 header row #"total_tool_calls" tools_idx) in
  let? known := map_err Failed (number_at parse_u64 header row #"tool_calls_known_rows" known_idx) in
  let? r := rate cost tools known in
  Ok (mkCost label calls cost tools known r).
Fixpoint all_rows {A E} (f : list str -> result A E) (rows : list (list str)) : result (list A) E :=
  match rows with
  | [] => Ok []
  | r :: rows => let? a := f r in let? l := all_rows f rows in Ok (a :: l)
  end.
Definition parse_cost_rows (text label_column : str) : result (list CostBreakdownRow) CostError :=
  match parse_pretty_table text with
  | [] => Ok []
  | header :: data =>
      let? label_idx := map_err Failed (col header label_column) in
      let? calls_idx := map_err Failed (col header #"calls") in
      let? cost_idx := map_err Failed (col header #"total_cost_microusd") in
      let? tools_idx := map_err Failed (col header #"total_tool_calls") in
      let? known_idx := map_err Failed (col header #"tool_calls_known_rows") in
      all_rows (fun row => cost_row header row label_idx calls_idx cost_idx tools_idx known_idx) data
  end.

End Parse.

(** ** The client *)

Inductive op : Type :=
| Spawn (bin : str) (args : list str) (env : list (str * str))
| Blocking.                                    (* [spawn_blocking]: whether the task ran *)
Definition resp (o : op) : Type :=
  match o with Spawn _ _ _ => result Output str | Blocking => result unit str end%type.
#[local] Arguments Do {op resp A} & _ _.
Abbreviation program := (@prog op resp).
#[local] Notation "'ask!' x <- p ; k" :=
  (bind p (fun r => match r with Ok x => k | Err e => Ret (Err e) end))
  (at level 10, x name, p at level 100, k at level 200).

Section Client.
Context (debug_str : str -> str) (debug_list : list str -> str).

Definition PER_MODEL_COST_QUERY : str := #"select coalesce(model,'') as model, count(*) as calls, cast(sum(cost_microusd) as bigint) as total_cost_microusd, cast(sum(coalesce(tool_calls,0)) as bigint) as total_tool_calls, cast(count(tool_calls) as bigint) as tool_calls_known_rows from calls where decision <> 'identity_mismatch' group by model order by model".
Definition PER_AGENT_COST_QUERY : str := #"select filed_under as agent_id, count(*) as calls, cast(sum(cost_microusd) as bigint) as total_cost_microusd, cast(sum(coalesce(tool_calls,0)) as bigint) as total_tool_calls, cast(count(tool_calls) as bigint) as tool_calls_known_rows from (select case when decision = 'identity_mismatch' then 'key:' || coalesce(nullif(key_id,''),'(none)') else coalesce(agent_id,'') end as filed_under, cost_microusd, tool_calls from calls) as t group by filed_under order by filed_under".

Definition data_dir (traces_dir : str) : list (str * str) := [(#"TOKENFUSE_DATA_DIR", traces_dir)].
Definition printed (o : Output) : str := from_utf8_lossy (stdout o).
Definition savings_answer (bin : str) (x : result Output str) : result TokenfuseSavings TokenfuseError :=
  let? o := map_err (TSpawn bin) x in
  if negb (success o) then Err (TCli #"savings" (code_or o) (said o)) else parse_savings_text debug_str (printed o).
Definition savings (bin traces_dir : str) : program (result TokenfuseSavings TokenfuseError) :=
  do x <- Spawn bin [ #"savings"] (data_dir traces_dir); Ret (savings_answer bin x).

(** The query's own way to say that it failed: nothing printed, and a line of
    errors. *)
Definition sql_failed (o : Output) : bool :=
  bool_decide (trim (printed o) = []) && starts_with #"sql error:" (trim_start (from_utf8_lossy (stderr o))).
Definition cost_answer (bin label_column : str) (x : result Output str) : result (list CostBreakdownRow) CostError :=
  let? o := map_err (fun e => Failed (TSpawn bin e)) x in
  if sql_failed o then Err (Failed (TCli #"sql" (match status o with Exited c => c | Signaled _ _ => 0 end) (said o)))
  else if negb (success o) then Err (Failed (TCli #"sql" (code_or o) (said o)))
  else parse_cost_rows debug_list (printed o) label_column.
Definition run_cost_query (bin query label_column traces_dir : str) : program (result (list CostBreakdownRow) CostError) :=
  do x <- Spawn bin [ #"sql"; query] (data_dir traces_dir); Ret (cost_answer bin label_column x).
Definition cost_per_action (bin traces_dir : str) : program (result CostPerActionReport CostError) :=
  ask! by_model <- run_cost_query bin PER_MODEL_COST_QUERY #"model" traces_dir;
  ask! by_agent <- run_cost_query bin PER_AGENT_COST_QUERY #"agent_id" traces_dir;
  Ret (Ok (mkReport by_model by_agent)).
End Client.

(** ** What the model is handed ([tools/optimize.rs], [tools/mod.rs]) *)

Definition usd_key_for (key : str) : option str :=
  match strip_suffix #"_microusd" key with
  | Some base => Some (base ++ #"_usd")
  | None => if str_eqb key #"budget_micros" then Some #"budget_usd" else None
  end.

Section Tools.
(** [micros as f64 / 1_000_000.0], which is finite. *)
Context (usd : Z -> f64).
Context (debug_str : str -> str) (debug_list : list str -> str).

Definition micros_to_usd_json (micros : Z) : value := VNum (NFloat (usd micros)).
Fixpoint micro_leaves_to_usd (v : value) : value :=
  match v with
  | VNum (NInt n) => if in_i64 n then micros_to_usd_json n else v
  | VObj ms => VObj (map (fun kv => (kv.1, micro_leaves_to_usd kv.2)) ms)
  | VArr items => VArr (map micro_leaves_to_usd items)
  | _ => v
  end.
(** A later key takes the place of an earlier one of the same name. *)
Fixpoint dollarize (v : value) : value :=
  match v with
  | VObj ms =>
      obj (map (fun kv => match usd_key_for kv.1 with
                          | Some k => (k, micro_leaves_to_usd kv.2)
                          | None => (kv.1, dollarize kv.2)
                          end) ms)
  | VArr items => VArr (map dollarize items)
  | _ => v
  end.

(** serde's derived writers. *)
Definition int (z : Z) : value := VNum (NInt z).
Definition savings_value (s : TokenfuseSavings) : value :=
  obj [(#"trace_data_found", VBool (trace_data_found s)); (#"blocked_spend_microusd", int (blocked_spend_microusd s));
       (#"blocked_calls", int (blocked_calls s)); (#"budget_breaks_prevented", int (budget_breaks_prevented s));
       (#"cache_saved_microusd", int (cache_saved_microusd s)); (#"router_saved_microusd", int (router_saved_microusd s));
       (#"by_reason_microusd", obj (map (fun kv => (kv.1, int kv.2)) (map_to_list (by_reason_microusd s))))].
Definition row_value (r : CostBreakdownRow) : value :=
  obj [(#"label", VStr (label r)); (#"calls", int (calls r)); (#"total_cost_microusd", int (total_cost_microusd r));
       (#"total_tool_calls", int (total_tool_calls r)); (#"tool_calls_known_rows", int (tool_calls_known_rows r));
       (#"cost_per_tool_call_microusd", match cost_per_tool_call_microusd r with Some n => int n | None => VNull end)].
Definition report_value (r : CostPerActionReport) : value :=
  obj [(#"by_model", VArr (map row_value (by_model r))); (#"by_agent", VArr (map row_value (by_agent r)))].

(** What a task that panicked is reported as. *)
Context (join_text : str).
Definition cost_text (e : CostError) : str := match e with Failed e => EvidencePack.tokenfuse_text e | Panicked => join_text end.
Definition blocking_tool {A E} (tool : str) (traces : option (str * str)) (f : str -> str -> program (result A E))
  (text : E -> str) (to_value : A -> value) : program (result value Action.ToolError) :=
  match traces with
  | None => Ret (Err (Action.Unavailable tool))
  | Some (bin, dir) =>
      do ran <- Blocking;
      match ran with
      | Err e => Ret (Err (Action.Connector tool e))
      | Ok _ => do! r <- f bin dir; Ret (let? a := map_err (fun e => Action.Connector tool (text e)) r in Ok (dollarize (to_value a)))
      end
  end.
Definition savings_breakdown (traces : option (str * str)) : program (result value Action.ToolError) :=
  blocking_tool #"savings_breakdown" traces (savings debug_str) EvidencePack.tokenfuse_text savings_value.
Definition cost_per_action_tool (traces : option (str * str)) : program (result value Action.ToolError) :=
  blocking_tool #"cost_per_action" traces (cost_per_action debug_list) cost_text report_value.
End Tools.

(** ** White space and bars *)

Definition sp (n : nat) : str := repeat 32 n.
Lemma trim_start_app a b : trim_start (a ++ b) = match trim_start a with [] => trim_start b | t => t ++ b end.
Proof. induction a as [|c a IH]; simpl; [done|]. by destruct (is_white c). Qed.
Lemma trim_start_sp n s : trim_start (sp n ++ s) = trim_start s.
Proof. by induction n. Qed.
Lemma rev_sp n : rev (sp n) = sp n.
Proof.
  unfold sp. induction n as [|n IH]; [done|]. simpl. rewrite IH. change [32] with (repeat 32 1).
  rewrite <- repeat_app, Nat.add_comm. done.
Qed.
Lemma trim_end_sp s n : trim_end (s ++ sp n) = trim_end s.
Proof. unfold trim_end. by rewrite rev_app_distr, rev_sp, trim_start_sp. Qed.
Lemma trim_padded n m s : trim (sp n ++ s ++ sp m) = trim s.
Proof.
  unfold trim. rewrite trim_start_sp, trim_start_app. destruct (trim_start s) as [|c t] eqn:E.
  - assert (trim_start (sp m) = []) as -> by (rewrite <- (app_nil_r (sp m)); apply trim_start_sp). done.
  - apply trim_end_sp.
Qed.
Lemma trim_dark s : Forall (fun c => is_white c = false) s -> trim s = s.
Proof.
  assert (H : forall l, Forall (fun c => is_white c = false) l -> trim_start l = l) by (destruct 1; simpl; [done|by case_match]).
  intros Hs. unfold trim, trim_end. rewrite (H s Hs), (H (rev s)); [by rewrite rev_involutive|].
  apply List.Forall_forall. intros c Hc. rewrite <- in_rev in Hc. rewrite List.Forall_forall in Hs. by apply Hs.
Qed.

(** A cell that is printed as itself. *)
Definition plain (c : str) : Prop := 124 ∉ c /\ trim c = c.
Lemma plain_all cs : forallb (fun c => bool_decide (124 ∉ c /\ trim c = c)) cs = true -> Forall plain cs.
Proof. rewrite forallb_Forall. intros H. eapply Forall_impl; [exact H|]. intros c Hc. by apply bool_decide_eq_true in Hc. Qed.
Lemma plain_number z : plain (dec z).
Proof.
  destruct (JsonCode.dec_chars z) as [H _]. split.
  - intros Hin. rewrite Forall_forall in H. apply H in Hin. lia.
  - apply trim_dark. eapply Forall_impl; [exact H|]. intros c Hc. simpl in Hc. unfold is_white. b2p. lia.
Qed.

(** A line of the table: each cell between spaces, each followed by a bar. *)
Definition padded (cp : str * (nat * nat)) : str := sp (S cp.2.1) ++ cp.1 ++ sp (S cp.2.2).
Definition row_line (cs : list str) (line : str) : Prop :=
  exists ps, length ps = length cs /\ cs <> [] /\ line = 124 :: flat_map (fun cp => padded cp ++ [124]) (combine cs ps).

Lemma trim_padded_cell cp : plain cp.1 -> trim (padded cp) = cp.1 /\ 124 ∉ padded cp.
Proof.
  intros [Hb Ht]. unfold padded. rewrite trim_padded. split; [done|].
  rewrite !elem_of_app. intros [Hin|[Hin|Hin]]; [|done|]; apply list_elem_of_In, repeat_spec in Hin; done.
Qed.

Lemma split_barred segs :
  segs <> [] -> Forall (fun s => 124 ∉ s) segs ->
  exists body, flat_map (fun s => s ++ [124]) segs = body ++ [124] /\ split_char 124 body = segs
    /\ exists first front, segs = first :: front /\ exists t, body = first ++ t.
Proof.
  intros Hne. induction segs as [|s segs IH]; [done|]. intros [Hs Hr]%Forall_cons. simpl.
  destruct segs as [|s' segs].
  - exists s. simpl. rewrite app_nil_r. split; [done|]. split; [by apply split_char_none|]. exists s, []. split; [done|].
    exists []. by rewrite app_nil_r.
  - destruct IH as (body&Hb&Hsp&_); [done..|]. exists (s ++ 124 :: body). rewrite Hb, <- !app_assoc. split; [done|].
    rewrite split_char_app, Hsp by done. split; [done|]. eauto.
Qed.

Lemma barred_end segs :
  Forall (fun s => exists t, s = t ++ [32]) segs -> segs <> [] ->
  exists t, flat_map (fun s => s ++ [124]) segs = t ++ [32; 124].
Proof.
  intros H. induction H as [|s segs [t ->] Hr IH]; [done|]. intros _. simpl. destruct segs as [|s' segs].
  - exists t. simpl. by rewrite app_nil_r, <- app_assoc.
  - destruct IH as [u ->]; [done|]. exists ((t ++ [32]) ++ [124] ++ u). by rewrite <- !app_assoc.
Qed.

Lemma drop_bars_space s : drop_bars (32 :: s) = 32 :: s.
Proof. done. Qed.

(** A line of plain cells is read back as those cells. *)
Lemma line_is_read cs line :
  row_line cs line -> Forall plain cs -> trim_end line = line /\ starts_with #"|" line = true /\ cells line = cs.
Proof.
  intros (ps&Hl&Hne&->) Hp. set (segs := map padded (combine cs ps)).
  assert (E : flat_map (fun cp => padded cp ++ [124]) (combine cs ps) = flat_map (fun s => s ++ [124]) segs)
    by (unfold segs; rewrite flat_map_concat_map, (flat_map_concat_map _ (map _ _)), map_map; done).
  assert (Hcs : map fst (combine cs ps) = cs) by (clear -Hl; revert ps Hl; induction cs as [|c cs IH]; intros [|p ps] Hl; simpl in *; try done; f_equal; auto).
  assert (Hall : forall cp, In cp (combine cs ps) -> plain cp.1).
  { intros [c q] Hin. apply in_combine_l in Hin. rewrite List.Forall_forall in Hp. by apply Hp. }
  assert (Hsne : segs <> []) by (intros E0; apply map_eq_nil in E0; rewrite E0 in Hcs; by subst).
  assert (Hnb : Forall (fun s => 124 ∉ s) segs).
  { apply List.Forall_forall. intros s (cp&<-&Hin)%in_map_iff. by apply trim_padded_cell, Hall. }
  assert (Hend : Forall (fun s => exists t, s = t ++ [32]) segs).
  { apply List.Forall_forall. intros s (cp&<-&_)%in_map_iff. unfold padded. exists (sp (S cp.2.1) ++ cp.1 ++ sp cp.2.2).
    rewrite <- !app_assoc. do 2 f_equal. unfold sp. rewrite <- repeat_cons. done. }
  rewrite E. destruct (split_barred segs Hsne Hnb) as (body&Hb&Hs&first&front&Hf&t&Ht).
  destruct (barred_end segs Hend Hsne) as [u Hu]. split_and!; [|done|].
  - rewrite Hu. unfold trim_end. simpl. rewrite rev_app_distr. simpl. rewrite rev_app_distr, rev_involutive. simpl. by rewrite <- app_assoc.
  - assert (Hb32 : body = u ++ [32]).
    { rewrite Hb in Hu. change [32; 124] with ([32] ++ [124]) in Hu. rewrite app_assoc in Hu. by apply app_inj_tail in Hu as [? _]. }
    assert (Hh : exists v, body = 32 :: v).
    { rewrite Ht. unfold segs in Hf. destruct (combine cs ps) as [|cp l]; [done|]. simpl in Hf. injection Hf as <- _. by eexists. }
    unfold cells, trim_bars. cbn [drop_bars]. change (124 =? 124) with true. rewrite Hb. destruct Hh as [v Hv].
    assert (drop_bars (body ++ [124]) = body ++ [124]) as -> by by rewrite Hv.
    rewrite rev_app_distr. cbn [rev app drop_bars]. change (124 =? 124) with true.
    assert (drop_bars (rev body) = rev body) as -> by (rewrite Hb32, rev_app_distr; done).
    rewrite rev_involutive, Hs. unfold segs. rewrite map_map. transitivity (map fst (combine cs ps)); [|exact Hcs]. apply map_ext_in.
    intros cp Hin. by apply trim_padded_cell, Hall.
Qed.

(** The lines of a printed table, and its rows. *)
Inductive shows : list str -> list (list str) -> Prop :=
| shows_end : shows [] []
| shows_border line ls rows : starts_with #"|" (trim_end line) = false -> shows ls rows -> shows (line :: ls) rows
| shows_row cs line ls rows : row_line cs line -> Forall plain cs -> shows ls rows -> shows (line :: ls) (cs :: rows).

Lemma table_is_read text rows : shows (Text.lines text) rows -> parse_pretty_table text = rows.
Proof.
  unfold parse_pretty_table. induction 1 as [|line ls rows Hb _ IH|cs line ls rows Hr Hp _ IH]; cbn [map List.filter]; [done|by rewrite Hb|].
  destruct (line_is_read _ _ Hr Hp) as (->&Hs&Hc). rewrite Hs. cbn [map]. by rewrite Hc, IH.
Qed.

(** ** A printed table of costs is read back *)

Lemma parse_i64_dec z : i64_min <= z <= i64_max -> parse_i64 (dec z) = Some z.
Proof.
  intros Hz. unfold dec. destruct (Z.ltb_spec z 0).
  - unfold parse_i64. rewrite parse_digits_dec by lia. rewrite Z.opp_involutive. by apply i64_checked_Some.
  - destruct (dec_nat_spec z) as (Hd&Hne&Hv); [done|]. rewrite BudgetProof.parse_i64_digits by done.
    rewrite Hv. by apply i64_checked_Some.
Qed.

Section Costs.
Context (debug_list : list str -> str) (label_column : str).

Definition COLUMNS : list str := [ #"calls"; #"total_cost_microusd"; #"total_tool_calls"; #"tool_calls_known_rows"].
(** What the gateway prints of a row in the column [name]. *)
Definition cell_of (r : CostBreakdownRow) (name : str) : str :=
  if str_eqb name label_column then label r
  else if str_eqb name #"calls" then dec (calls r)
  else if str_eqb name #"total_cost_microusd" then dec (total_cost_microusd r)
  else if str_eqb name #"total_tool_calls" then dec (total_tool_calls r)
  else if str_eqb name #"tool_calls_known_rows" then dec (tool_calls_known_rows r)
  else [].
(** A row the gateway can print: its counts fit, its label is not cut by the
    table, and its rate is the quotient that is defined. *)
Definition printable (r : CostBreakdownRow) : Prop :=
  0 <= calls r <= u64_max /\ i64_min <= total_cost_microusd r <= i64_max /\ 0 <= total_tool_calls r <= i64_max
  /\ 0 <= tool_calls_known_rows r <= u64_max
  /\ cost_per_tool_call_microusd r =
       if (tool_calls_known_rows r =? 0) || (total_tool_calls r =? 0) then None
       else Some (Z.quot (total_cost_microusd r) (total_tool_calls r)).

Lemma i64_wrap_small z : i64_min <= z <= i64_max -> i64_wrap z = z.
Proof. intros H. unfold i64_wrap. unfold i64_min, i64_max in *. rewrite Z.mod_small; lia. Qed.

Lemma rate_defined r : printable r ->
  rate (total_cost_microusd r) (total_tool_calls r) (tool_calls_known_rows r) = Ok (cost_per_tool_call_microusd r).
Proof.
  intros (_&Hc&Ht&_&->). unfold rate. destruct (_ || _); [done|].
  rewrite i64_wrap_small by (unfold i64_min in *; lia). destruct (Z.eqb_spec (total_tool_calls r) (-1)); [lia|done].
Qed.

Lemma col_found header name : name ∈ header -> exists i, col debug_list header name = Ok i /\ header !! i = Some name.
Proof.
  intros Hin. unfold col. destruct (list_find (fun h => h = name) header) as [[i h]|] eqn:E.
  - apply list_find_Some in E as (Hi&->&_). eauto.
  - apply list_find_None in E. rewrite Forall_forall in E. by destruct (E name Hin).
Qed.

Lemma cell_found header r i name :
  header !! i = Some name -> cell_at debug_list header (map (cell_of r) header) i = Ok (cell_of r name).
Proof. intros H. unfold cell_at. change (map ?f ?l) with (f <$> l). by rewrite list_lookup_fmap, H. Qed.

Lemma row_is_read header r il ic ico it ik :
  label_column ∉ COLUMNS -> printable r -> header !! il = Some label_column -> header !! ic = Some #"calls" ->
  header !! ico = Some #"total_cost_microusd" -> header !! it = Some #"total_tool_calls" ->
  header !! ik = Some #"tool_calls_known_rows" ->
  cost_row debug_list header (map (cell_of r) header) il ic ico it ik = Ok r.
Proof.
  intros Hlc Hr Hl Hc Hco Ht Hk. unfold cost_row, number_at.
  rewrite !(cell_found _ _ _ _ Hl), !(cell_found _ _ _ _ Hc), !(cell_found _ _ _ _ Hco), !(cell_found _ _ _ _ Ht), !(cell_found _ _ _ _ Hk).
  assert (Hn : forall n, n ∈ COLUMNS -> str_eqb n label_column = false) by (intros n Hn; apply str_eqb_neq; by intros ->).
  assert (cell_of r label_column = label r) as -> by (unfold cell_of; by rewrite str_eqb_refl).
  assert (cell_of r #"calls" = dec (calls r)) as -> by (unfold cell_of; by rewrite Hn by (apply list_elem_of_In; simpl; tauto)).
  assert (cell_of r #"total_cost_microusd" = dec (total_cost_microusd r)) as ->
    by (unfold cell_of; by rewrite Hn by (apply list_elem_of_In; simpl; tauto)).
  assert (cell_of r #"total_tool_calls" = dec (total_tool_calls r)) as ->
    by (unfold cell_of; by rewrite Hn by (apply list_elem_of_In; simpl; tauto)).
  assert (cell_of r #"tool_calls_known_rows" = dec (tool_calls_known_rows r)) as ->
    by (unfold cell_of; by rewrite Hn by (apply list_elem_of_In; simpl; tauto)).
  pose proof (rate_defined r Hr) as Hrate. destruct Hr as (H1&H2&H3&H4&_). cbn [rbind map_err].
  rewrite parse_u64_dec, parse_i64_dec, !parse_u64_dec by (done || unfold u64_max, i64_max in *; lia).
  cbn [ok_or rbind map_err].
  rewrite Hrate. cbn [rbind]. by destruct r.
Qed.

(** A printed table of costs is read back as the rows it was printed from.
    Whatever the order of the columns and the width of the cells, whatever other
    columns and border lines there are, the rows come back in their order with
    their labels, counts and amounts, with a rate exactly when the number of
    tool calls is known and not zero - as long as no label holds a bar or has
    white space at its ends. *)
Theorem cost_table_is_read_back text header rows :
  label_column ∉ COLUMNS -> shows (Text.lines text) (header :: map (fun r => map (cell_of r) header) rows) ->
  label_column ∈ header -> Forall (fun c => c ∈ header) COLUMNS -> Forall printable rows ->
  parse_cost_rows debug_list text label_column = Ok rows.
Proof.
  intros Hlc Hs Hl Hc Hr. unfold parse_cost_rows. rewrite (table_is_read _ _ Hs). clear Hs.
  unfold COLUMNS in Hc. rewrite !Forall_cons in Hc. destruct Hc as (H1&H2&H3&H4&_).
  apply col_found in Hl as (il&->&Hl), H1 as (ic&->&H1), H2 as (ico&->&H2), H3 as (it&->&H3), H4 as (ik&->&H4).
  cbn [map_err rbind]. induction Hr as [|r rows Hp _ IH]; [done|]. cbn [map all_rows].
  rewrite row_is_read by done. cbn [rbind]. by rewrite IH.
Qed.
End Costs.

(** ** Amounts *)

Lemma wrap_cong a b : (a - b) mod 18446744073709551616 = 0 -> i64_wrap a = i64_wrap b.
Proof.
  intros H. unfold i64_wrap. f_equal. apply Z.mod_divide in H as [k Hk]; [|done].
  replace (a - i64_min) with (b - i64_min + k * 18446744073709551616) by lia. apply Z.mod_add. done.
Qed.
Lemma wrap_self a : exists k, i64_wrap a = a + k * 18446744073709551616.
Proof.
  unfold i64_wrap. exists (- ((a - i64_min) / 18446744073709551616)).
  pose proof (Z.div_mod (a - i64_min) 18446744073709551616). lia.
Qed.

Lemma six_digits f : all_digits f = true -> all_digits (six f) = true /\ length (six f) = 6%nat.
Proof.
  intros H. unfold six. rewrite length_app, repeat_length. pose proof (length_take f 6). split; [|lia].
  unfold all_digits in *. rewrite forallb_app. apply andb_true_iff. split.
  - apply forallb_Forall, Forall_take. by apply forallb_Forall.
  - apply forallb_forall. intros c ->%repeat_spec. done.
Qed.

Lemma amount_dark neg w f : all_digits w = true -> all_digits f = true ->
  Forall (fun c => is_white c = false) ((if neg : bool then #"-" else []) ++ #"$" ++ w ++ (if bool_decide (f = []) then [] else #"." ++ f)).
Proof.
  assert (H : forall s, all_digits s = true -> Forall (fun c => is_white c = false) s).
  { intros s Hs. apply forallb_Forall in Hs. eapply Forall_impl; [exact Hs|]. intros c Hc. simpl in Hc.
    unfold ascii_digit in Hc. unfold is_white. b2p. lia. }
  intros Hw Hf. rewrite !Forall_app. split_and!; [by destruct neg; repeat constructor|by repeat constructor|by apply H|].
  case_bool_decide; [constructor|]. rewrite Forall_app. split; [by repeat constructor|by apply H].
Qed.

(** An amount of dollars, in micro-dollars: digits past the sixth are dropped,
    and an amount outside 64 bits is a wrong one. *)
Lemma amount_is_read neg w f n m :
  all_digits w = true -> all_digits f = true -> w <> [] ->
  parse_usd_to_microusd (sp n ++ ((if neg : bool then #"-" else []) ++ #"$" ++ w ++ (if bool_decide (f = []) then [] else #"." ++ f)) ++ sp m)
  = if digits_value w <=? i64_max
    then Some (i64_wrap ((if neg then -1 else 1) * (digits_value w * 1000000 + digits_value (six f)))) else None.
Proof.
  intros Hw Hf Hne. unfold parse_usd_to_microusd. rewrite trim_padded, (trim_dark _ (amount_dark neg w f Hw Hf)).
  set (rest := w ++ (if bool_decide (f = []) then [] else #"." ++ f)).
  replace (match strip_prefix #"-" ((if neg then #"-" else []) ++ #"$" ++ rest) with Some r => (-1, r)
           | None => (1, (if neg then #"-" else []) ++ #"$" ++ rest) end)
    with (if neg then -1 else 1, #"$" ++ rest) by by destruct neg.
  cbn iota. rewrite strip_prefix_app.
  assert (default (rest, []) (split_once #"." rest) = (w, f)) as ->.
  { unfold rest. pose proof (BudgetProof.digits_no 46 w Hw eq_refl) as Hd. case_bool_decide as Hfe.
    - subst f. rewrite app_nil_r. destruct (split_once #"." w) as [[a b]|] eqn:E; [|done].
      apply split_once_Some in E. destruct Hd. rewrite E. set_solver.
    - change (w ++ #"." ++ f) with (w ++ 46 :: f). change #"." with [46]. by rewrite split_once_char_app. }
  rewrite bool_decide_eq_false_2 by done. unfold ascii_digits.
  rewrite !BudgetProof.digits_bytes, Hw, Hf by by apply BudgetProof.digits_valid. cbn [orb negb].
  rewrite BudgetProof.parse_i64_digits by done. destruct (six_digits f Hf) as [H6 Hl6].
  rewrite (BudgetProof.parse_i64_digits (six f)) by (done || by intros E; rewrite E in Hl6).
  pose proof (BudgetProof.fraction_bound _ H6) as Hb. rewrite Hl6 in Hb. change (10 ^ Z.of_nat 6) with 1000000 in Hb.
  assert (i64_checked (digits_value (six f)) = Some (digits_value (six f))) as ->
    by (apply i64_checked_Some; split; [done|]; unfold i64_min, i64_max; lia).
  pose proof (BudgetProof.fraction_bound _ Hw) as [Hw0 _].
  destruct (Z.leb_spec (digits_value w) i64_max).
  - assert (i64_checked (digits_value w) = Some (digits_value w)) as -> by (apply i64_checked_Some; unfold i64_min; lia).
    apply (f_equal Some), wrap_cong.
    destruct (wrap_self (digits_value w * 1000000)) as [k ->].
    destruct (wrap_self (digits_value w * 1000000 + k * 18446744073709551616 + digits_value (six f))) as [k' ->].
    apply Z.mod_divide; [done|]. exists ((if neg then -1 else 1) * (k + k')). destruct neg; lia.
  - assert (i64_checked (digits_value w) = None) as ->; [|done].
    unfold i64_checked, in_i64. destruct (Z.leb_spec (digits_value w) i64_max); [lia|]. by rewrite andb_false_r.
Qed.

(** ** Examples *)

Module Example.
Definition nl : str := [10].
Definition report : str :=
  #"TokenFuse savings - from /t/gateway" ++ nl
  ++ #"  runaway spend stopped:   $3.500000   (3 blocked call(s) across 2 budget break(s))" ++ nl
  ++ #"  cache saved:             $0.750000" ++ nl ++ #"  router saved:            $0.100000" ++ nl
  ++ #"    budget_exceeded  $1.500000" ++ nl ++ #"    loop_detected    $2.000000" ++ nl.
Lemma report_is_read :
  parse_savings_text id report
  = Ok (mkSavings true 3500000 3 2 750000 100000 (<[ #"budget_exceeded" := 1500000]> (<[ #"loop_detected" := 2000000]> ∅))).
Proof. by vm_compute. Qed.

Definition border : str := #"+----------+-------+---------------------+------------------+-----------------------+".
Definition heading : str := #"| agent_id | calls | total_cost_microusd | total_tool_calls | tool_calls_known_rows |".
Definition table (row : str) : str := border ++ nl ++ heading ++ nl ++ border ++ nl ++ row ++ nl ++ border ++ nl.
Definition header : list str := [ #"agent_id"; #"calls"; #"total_cost_microusd"; #"total_tool_calls"; #"tool_calls_known_rows"].
Definition bot : CostBreakdownRow := mkCost #"agent://a/b" 10 1000000 20 10 (Some 50000).
Definition printed_bot : str := table #"| agent://a/b | 10    | 1000000             | 20               | 10                    |".

Lemma lines_of_bot :
  Text.lines printed_bot
  = [border; heading; border; #"| agent://a/b | 10    | 1000000             | 20               | 10                    |"; border].
Proof. by vm_compute. Qed.

Lemma cost_table_is_read_back_witness : parse_cost_rows (fun _ => []) printed_bot #"agent_id" = Ok [bot].
Proof.
  apply (cost_table_is_read_back (fun _ => []) #"agent_id" printed_bot header [bot]).
  - intros H. repeat apply elem_of_cons in H as [H|H]; try done. by apply elem_of_nil in H.
  - rewrite lines_of_bot. apply shows_border; [done|]. apply (shows_row header).
    + exists [(0, 0); (0, 0); (0, 0); (0, 0); (0, 0)]%nat. by vm_compute.
    + by apply plain_all; vm_compute.
    + apply shows_border; [done|]. apply shows_row.
      * exists [(0, 0); (0, 3); (0, 12); (0, 14); (0, 19)]%nat. by vm_compute.
      * by apply plain_all; vm_compute.
      * apply shows_border; [done|]. constructor.
  - apply list_elem_of_In. simpl. tauto.
  - repeat constructor; apply list_elem_of_In; simpl; tauto.
  - repeat constructor; by vm_compute.
Defined.

(** An agent whose id holds a bar: its one call of seven micro-dollars is read
    as nine million calls that cost a dollar, of another agent. *)
Lemma a_bar_moves_the_columns :
  parse_cost_rows (fun _ => []) (table #"| boss|9000000|1000000 | 1 | 7 | 0 | 0 |") #"agent_id"
  = Ok [mkCost #"boss" 9000000 1000000 1 7 (Some 1000000)].
Proof. by vm_compute. Qed.

Lemma a_large_amount_wraps : parse_usd_to_microusd #"$9223372036855.000000" = Some (-9223372036854551616).
Proof. by vm_compute. Qed.

(** The two readers of the gateway's amounts disagree on where a minus goes. *)
Lemma two_readers_of_a_minus :
  parse_usd_to_microusd #"-$1.500000" = Some (-1500000) /\ BudgetProof.money #"-$1.500000" = None
  /\ parse_usd_to_microusd #"$-1.500000" = None /\ BudgetProof.money #"$-1.500000" = Some (-1500000).
Proof. by vm_compute. Qed.
End Example.
