(* ===== verification/Egress.v ===== *)
(** * Egress: what agents did on the web ([crates/api/src/egress/mod.rs])

    The panel reads the most recent rows of the store of the bus, keeps those of
    the egress plane and counts them: fetches and refusals, refusals by verdict,
    fetches that were governed at the navigation only, and fetches whose backend
    could not say what the page asked for.  A panel that could not read says so. *)
From S2P Require Import Prelude Text Json.
From S2P Require Store Feed.

Definition SCOPYX_SOURCE : str := #"scopyx".
Definition TYPE_FETCH : str := #"web_fetch".
Definition TYPE_BLOCKED : str := #"web_blocked".

Record EgressRow : Type := mkRow
  { ts : str; agent_id : str; run_id : option str; outcome : str; origin : str; url_sha384 : option str;
    backend : option str; enforcement : option str; content_bytes : option Z; verdict : option str; reason : option str }.
Record EgressTotals : Type := mkTotals
  { fetched : nat; blocked : nat; by_verdict : gmap str nat; navigation_only : nat; subresources_unknown : nat }.
Record EgressPanel : Type := mkPanel
  { measured : bool; note : option str; totals : EgressTotals; rows : list EgressRow }.
Definition no_totals : EgressTotals := mkTotals 0 0 ∅ 0 0.
Definition unmeasured (note : str) : EgressPanel := mkPanel false (Some note) no_totals [].

Definition not_a_report : str :=
  #"so nothing here was read. This is not a report that your agents made no web requests.".

(** The fields of [data]; no data is [Value::Null]. *)
Definition data_of (e : Store.Row) : value := default VNull (Store.data e).
Definition text_of (k : str) (e : Store.Row) : option str := get_str k (data_of e).

(** A fetch, a refusal, or a row that is neither. *)
Definition kind (e : Store.Row) : option bool :=
  if negb (str_eqb (Store.source e) SCOPYX_SOURCE) then None
  else if str_eqb (Store.type_ e) TYPE_FETCH then Some true
  else if str_eqb (Store.type_ e) TYPE_BLOCKED then Some false
  else None.
(** [null] and absent both mean that the backend could not say. *)
Definition unknown_subresources (e : Store.Row) : bool :=
  match get #"subresources_requested" (data_of e) with
  | Some VNull | None => true
  | Some _ => false
  end.
Definition verdict_of (e : Store.Row) : str := default #"unrecorded" (text_of #"verdict" e).
Definition navigates (e : Store.Row) : bool := bool_decide (text_of #"enforcement" e = Some #"navigation_only").

Definition count (t : EgressTotals) (fetch : bool) (e : Store.Row) : EgressTotals :=
  if fetch then
    mkTotals (S (fetched t)) (blocked t) (by_verdict t)
      (if navigates e then S (navigation_only t) else navigation_only t)
      (if unknown_subresources e then S (subresources_unknown t) else subresources_unknown t)
  else
    mkTotals (fetched t) (S (blocked t))
      (<[verdict_of e := S (default 0%nat (by_verdict t !! verdict_of e))]> (by_verdict t))
      (navigation_only t) (subresources_unknown t).
Definition row_of (fetch : bool) (e : Store.Row) : EgressRow :=
  mkRow (Store.ts e) (Store.agent_id e) (Store.run_id e) (if fetch then #"fetched" else #"blocked")
    (default [] (text_of #"origin" e)) (text_of #"url_sha384" e) (text_of #"backend" e) (text_of #"enforcement" e)
    (get #"content_bytes" (data_of e) ≫= as_i64) (text_of #"verdict" e) (text_of #"reason" e).

(** The loop, which ends when [limit] rows are kept. *)
Fixpoint keep (limit : Z) (es : list Store.Row) (out : list EgressRow) (t : EgressTotals) : list EgressRow * EgressTotals :=
  match es with
  | [] => (out, t)
  | e :: es =>
      match kind e with
      | None => keep limit es out t
      | Some fetch =>
          let out := out ++ [row_of fetch e] in
          let t := count t fetch e in
          if limit <=? Z.of_nat (length out) then (out, t) else keep limit es out t
      end
  end.

(** [Ord::clamp] panics on bounds in the wrong order. *)
Inductive Answer : Type :=
| Panel (p : EgressPanel)
| Panicked.
Definition MAX_SCAN : Z := 20000.
Definition usize_max : Z := u64_max.
Definition clamp (x lo hi : Z) : option Z := if lo <=? hi then Some (Z.max lo (Z.min hi x)) else None.

(** [limit] is a [usize]; [read] is what opening and reading the store answer. *)
Definition egress_recent (limit : Z) (read : result (result (list Store.Row) str) str) (state : Feed.AppState) : Answer :=
  match Feed.store_dir state with
  | None => Panel (unmeasured (#"The console has no event store on this box, " ++ not_a_report))
  | Some _ =>
      match read with
      | Err e => Panel (unmeasured (#"The event store could not be opened (" ++ e ++ #"), " ++ not_a_report))
      | Ok opened =>
          match clamp (Z.min usize_max (limit * 20)) limit MAX_SCAN with
          | None => Panicked
          | Some scan =>
              match opened with
              | Err e => Panel (unmeasured (#"The event store could not be queried (" ++ e ++ #"), " ++ not_a_report))
              | Ok stored =>
                  let es := Store.recent_events (Z.to_nat scan) stored in
                  let '(out, t) := keep limit es [] no_totals in
                  Panel (mkPanel true
                    (Some (#"Read from the " ++ dec (Z.of_nat (length es)) ++ #" most recent events on the bus. "
                           ++ #"An older fetch than that is in the Bus Explorer, not here.")) t out)
              end
          end
      end
  end.

(** ** What the panel shows *)

Definition egress (es : list Store.Row) : list (bool * Store.Row) := omap (fun e => (fun k => (k, e)) <$> kind e) es.
Definition scanned (limit : Z) : nat := Z.to_nat (Z.max limit (Z.min MAX_SCAN (Z.min usize_max (limit * 20)))).
(** The rows of the egress plane that the panel is about. *)
Definition shown (limit : Z) (stored : list Store.Row) : list (bool * Store.Row) :=
  firstn (Z.to_nat limit) (egress (Store.recent_events (scanned limit) stored)).

Definition how_many (p : bool * Store.Row -> bool) (l : list (bool * Store.Row)) : nat := length (List.filter p l).
(** Each total is a count of the rows shown. *)
Definition totals_of (l : list (bool * Store.Row)) (t : EgressTotals) : Prop :=
  fetched t = how_many (fun x => x.1) l /\ blocked t = how_many (fun x => negb x.1) l
  /\ navigation_only t = how_many (fun x => x.1 && navigates x.2) l
  /\ subresources_unknown t = how_many (fun x => x.1 && unknown_subresources x.2) l
  /\ forall v, default 0%nat (by_verdict t !! v) = how_many (fun x => negb x.1 && str_eqb (verdict_of x.2) v) l.

Lemma how_many_snoc p l x : how_many p (l ++ [x]) = (how_many p l + if p x then 1 else 0)%nat.
Proof. unfold how_many. rewrite List.filter_app, length_app. simpl. by destruct (p x). Qed.

Lemma count_totals l t fetch e : totals_of l t -> totals_of (l ++ [(fetch, e)]) (count t fetch e).
Proof.
  intros (Hf&Hb&Hn&Hs&Hv). unfold totals_of. rewrite !how_many_snoc. destruct fetch; simpl.
  - split_and!; [lia|lia|destruct (navigates e); lia|destruct (unknown_subresources e); lia|].
    intros v. rewrite how_many_snoc, Hv. simpl. lia.
  - split_and!; [lia..|]. intros v. rewrite how_many_snoc. simpl. destruct (str_eqb (verdict_of e) v) eqn:E.
    + apply str_eqb_eq in E as <-. rewrite lookup_insert_eq. simpl. rewrite Hv. lia.
    + apply str_eqb_neq in E. rewrite lookup_insert_ne, Hv by done. lia.
Qed.

Lemma keep_shows limit es seen out t :
  0 < limit -> out = map (fun x => row_of x.1 x.2) seen -> totals_of seen t -> (length seen < Z.to_nat limit)%nat ->
  let l := seen ++ firstn (Z.to_nat limit - length seen) (egress es) in
  (keep limit es out t).1 = map (fun x => row_of x.1 x.2) l /\ totals_of l (keep limit es out t).2.
Proof.
  intros Hl. revert seen out t. induction es as [|e es IH]; intros seen out t -> Ht Hn; simpl.
  - by rewrite firstn_nil, app_nil_r.
  - destruct (kind e) as [fetch|] eqn:E; simpl; [|by apply IH].
    destruct (Z.to_nat limit - length seen)%nat as [|n] eqn:En; [lia|]. simpl.
    rewrite length_app, length_map. simpl.
    assert (Ht' := count_totals seen t fetch e Ht).
    assert (Hm : map (fun x => row_of x.1 x.2) seen ++ [row_of fetch e] = map (fun x => row_of x.1 x.2) (seen ++ [(fetch, e)]))
      by by rewrite map_app.
    destruct (Z.leb_spec limit (Z.of_nat (length seen + 1))).
    + assert (n = 0%nat) as -> by lia. simpl. by rewrite Hm.
    + rewrite Hm. specialize (IH (seen ++ [(fetch, e)]) _ _ eq_refl Ht'). rewrite length_app in IH. simpl in IH.
      replace (Z.to_nat limit - (length seen + 1))%nat with n in IH by lia. rewrite <- app_assoc in IH. apply IH. lia.
Qed.

(** The panel never shows an empty list for a store it did not read, and
    what it shows it read.  It is measured exactly when the store was opened and
    queried; then its rows are the newest rows of the egress plane among those
    scanned, at most [limit], each with its own fields, and every total is the
    number of the rows shown that it speaks of.  Unmeasured, it says why. *)
Theorem panel_is_what_was_read limit read state :
  0 <= limit <= MAX_SCAN ->
  exists p, egress_recent limit read state = Panel p
    /\ match Feed.store_dir state, read with
       | Some _, Ok (Ok stored) =>
           measured p = true /\ rows p = map (fun x => row_of x.1 x.2) (shown limit stored)
           /\ totals_of (shown limit stored) (totals p)
       | _, _ => exists why, p = unmeasured why
       end.
Proof.
  intros Hl. unfold egress_recent. destruct (Feed.store_dir state); [|by eexists; split; [done|eexists]].
  destruct read as [opened|e]; [|by eexists; split; [done|eexists]].
  unfold clamp. destruct (Z.leb_spec limit MAX_SCAN); [|lia].
  destruct opened as [stored|e]; [|by eexists; split; [done|eexists]].
  fold (scanned limit). destruct (keep _ _ _ _) as [out t] eqn:E. eexists. split; [done|]. simpl. split; [done|].
  unfold shown. destruct (Z.eq_dec limit 0) as [->|Hne].
  - change (scanned 0) with 0%nat in E. simpl in E. injection E as <- <-. split; [done|]. by repeat split.
  - pose proof (keep_shows limit (Store.recent_events (scanned limit) stored) [] [] no_totals) as H'.
    rewrite E in H'. simpl in H'. rewrite Nat.sub_0_r in H'. apply H'; [lia|done| |lia]. by repeat split.
Qed.

(** ** Examples *)

Module Example.
Definition state : Feed.AppState := Feed.mkApp (Some #"/bus") None (Feed.Unavailable []).
Definition line (n : Z) (type_ : str) (d : list (str * value)) : Store.Row :=
  Store.mkRow n #"local" #"t" #"scopyx" type_ #"agent://a/b" None None #"v1" [] (Some (VObj d)) None [] None None [] None.
Definition stored : list Store.Row :=
  [line 1 #"web_fetch" [(#"enforcement", VStr #"navigation_only")];
   line 2 #"web_blocked" [(#"verdict", VStr #"denied")];
   line 3 #"web_fetch" [(#"subresources_requested", VNum (NInt 4))]].

Lemma panel_is_what_was_read_witness :
  0 <= 2 <= MAX_SCAN /\ exists p, egress_recent 2 (Ok (Ok stored)) state = Panel p /\ measured p = true
    /\ map outcome (rows p) = [ #"fetched"; #"blocked"].
Proof.
  split; [unfold MAX_SCAN; lia|].
  destruct (panel_is_what_was_read 2 (Ok (Ok stored)) state) as (p&Hp&Hm&Hr&_); [unfold MAX_SCAN; lia|].
  exists p. split_and!; [done..|]. rewrite Hr. by vm_compute.
Defined.

(** A viewer who asks for more rows than are ever scanned gets no answer. *)
Lemma a_large_limit_panics : egress_recent 20001 (Ok (Ok stored)) state = Panicked.
Proof. by vm_compute. Qed.

(** Three events were scanned and two of them were fetches: one is counted. *)
Lemma totals_stop_at_the_limit :
  exists p, egress_recent 1 (Ok (Ok stored)) state = Panel p /\ fetched (totals p) = 1%nat /\ blocked (totals p) = 0%nat
    /\ scanned 1 = 20%nat.
Proof. eexists. by vm_compute. Qed.
End Example.
