(* ===== verification/Routines.v ===== *)
(** * Routines: the recorded runs of the scheduled jobs
    ([crates/api/src/routines/env.rs], [commands.rs])

    A shell script runs five jobs and writes down each run: one file per job
    with its latest run, and one file with a line for every run.  The tab reads
    both, and the list of the timers that were installed.  The readers are total:
    what is missing or broken is reported in the answer. *)
From S2P Require Import Prelude Text.
From S2P Require Command Discover.

(** ** The directory ([env.rs]) *)

(** The file system and the variables as one call finds them. *)
Inductive Read : Type :=
| Bytes (b : list Z)
| NotFound
| Unreadable (e : str).
Record Box : Type := mkBox { var_os : str -> option str; is_dir : str -> bool; is_file : str -> bool; file : str -> Read }.
Record ResolvedRoutinesDir : Type := mkResolved { path : str; exists_ : bool }.

Definition nonempty (x : option str) : option str :=
  match x with Some s => if bool_decide (s = []) then None else Some s | None => None end.
Definition resolve_dir (stack_up_home home : option str) : str :=
  match nonempty stack_up_home with
  | Some dir => Discover.join dir #"routines"
  | None =>
      match nonempty home with
      | Some home => Discover.joins home [ #".stack-up"; #"routines"]
      | None => Discover.join #".stack-up" #"routines"
      end
  end.
Definition discover (b : Box) : ResolvedRoutinesDir :=
  let p := resolve_dir (var_os b #"STACK_UP_HOME") (var_os b #"HOME") in mkResolved p (is_dir b p).

(** [read_to_string]: a file that is not UTF-8 cannot be read. *)
Definition NOT_UTF8 : str := #"stream did not contain valid UTF-8".
Definition text_of_file (r : Read) : result str (option str) :=
  match r with
  | Bytes b => ok_or (Command.read_to_string b) (Some NOT_UTF8)
  | NotFound => Err None
  | Unreadable e => Err (Some e)
  end.

(** ** The records ([commands.rs]) *)

Record RoutineRunDto : Type := mkRun
  { schema : str; routine : str; started_at : str; finished_at : str; exit_code : Z; status : str;
    reason : option str; artifact : option str; summary : option str }.
(** serde's reader of one record. *)
Class RoutineWire := { read_run : str -> result RoutineRunDto str }.

Record RoutineSummaryDto : Type := mkSummary
  { name : str; installed : bool; latest : option RoutineRunDto; latest_error : option str }.
Record RoutinesStatusDto : Type := mkStatus
  { routines_dir : str; routines_dir_exists : bool; routines : list RoutineSummaryDto }.
Record RoutinesHistoryDto : Type := mkHistory
  { records : list RoutineRunDto; skipped_lines : Z; h_routines_dir : str; history_file_exists : bool }.

Definition ROUTINE_NAMES : list str :=
  [ #"focus-export"; #"qryx-trend"; #"verdryx-drift"; #"idryx-detect"; #"mockryx-drill"].
Definition DEFAULT_HISTORY_LIMIT : Z := 200.
Definition MAX_HISTORY_LIMIT : Z := 1000.

(** The lines of a text that are not blank, trimmed. *)
Definition full_lines (body : str) : list str :=
  List.filter (fun l => negb (bool_decide (l = []))) (map trim (Text.lines body)).

Section Commands.
Context {RW : RoutineWire}.

Definition read_installed_manifest (b : Box) (dir : str) : list str :=
  match text_of_file (file b (Discover.join dir #"installed.txt")) with
  | Ok body => full_lines body
  | Err _ => []
  end.
Definition is_installed (name : str) (manifest_lines : list str) : bool :=
  existsb (contains (#"routine-" ++ name)) manifest_lines.
Definition read_latest_status (b : Box) (dir name : str) : option RoutineRunDto * option str :=
  let path := Discover.joins dir [ #"status"; name ++ #".json"] in
  match text_of_file (file b path) with
  | Ok body =>
      match read_run (trim body) with
      | Ok record => (Some record, None)
      | Err e => (None, Some (#"could not parse " ++ path ++ #": " ++ e))
      end
  | Err None => (None, None)
  | Err (Some e) => (None, Some (#"could not read " ++ path ++ #": " ++ e))
  end.
Definition routines_status (b : Box) : RoutinesStatusDto :=
  let resolved := discover b in
  let installed_lines := read_installed_manifest b (path resolved) in
  mkStatus (path resolved) (exists_ resolved)
    (map (fun name => let '(latest, latest_error) := read_latest_status b (path resolved) name in
                      mkSummary name (is_installed name installed_lines) latest latest_error) ROUTINE_NAMES).

(** The loop: the records read so far, and the [u32] of the lines skipped. *)
Fixpoint read_lines (ls : list str) (records : list RoutineRunDto) (skipped : Z) : list RoutineRunDto * Z :=
  match ls with
  | [] => (records, skipped)
  | l :: ls =>
      let trimmed := trim l in
      if bool_decide (trimmed = []) then read_lines ls records skipped
      else match read_run trimmed with
           | Ok record => read_lines ls (records ++ [record]) skipped
           | Err _ => read_lines ls records ((skipped + 1) mod 4294967296)
           end
  end.
Definition assemble_history (body : str) (routine_name : option str) (limit : Z) : list RoutineRunDto * Z :=
  let '(records, skipped) := read_lines (Text.lines body) [] 0 in
  let newest_first := rev records in
  let kept := match routine_name with
              | Some n => List.filter (fun r => str_eqb (routine r) n) newest_first
              | None => newest_first
              end in
  (firstn (Z.to_nat limit) kept, skipped).
Definition capped (limit : option Z) : Z := Z.min (default DEFAULT_HISTORY_LIMIT limit) MAX_HISTORY_LIMIT.
Definition routines_history (b : Box) (routine_name : option str) (limit : option Z) : RoutinesHistoryDto :=
  let resolved := discover b in
  let history_path := Discover.join (path resolved) #"history.ndjson" in
  let there := is_file b history_path in
  let '(records, skipped) :=
    if there then
      match text_of_file (file b history_path) with
      | Ok body => assemble_history body routine_name (capped limit)
      | Err _ => ([], 0)
      end
    else ([], 0) in
  mkHistory records skipped (path resolved) there.

(** ** What the history says *)

Lemma read_lines_all ls acc k :
  read_lines ls acc k
  = (let full := List.filter (fun l => negb (bool_decide (l = []))) (map trim ls) in
     (acc ++ omap (fun l => rok (read_run l)) full,
      match List.filter (fun l => negb (is_ok (read_run l))) full with
      | [] => k
      | bad => (k + Z.of_nat (length bad)) mod 4294967296
      end)).
Proof.
  revert acc k. induction ls as [|l ls IH]; intros acc k; simpl; [by rewrite app_nil_r|].
  case_bool_decide; simpl; [apply IH|]. destruct (read_run (trim l)) as [r|e]; simpl; rewrite IH; simpl.
  - by rewrite <- app_assoc.
  - f_equal. set (bad := List.filter _ _). destruct bad as [|x bad]; simpl length.
    + f_equal. 
    + rewrite Zplus_mod_idemp_l. f_equal. lia.
Qed.

Lemma read_or_not full :
  (length (omap (fun l => rok (read_run l)) full)
   + length (List.filter (fun l => negb (is_ok (read_run l))) full) = length full)%nat.
Proof.
  induction full as [|l full IH]; [done|]. cbn [List.filter length]. change (omap ?f (l :: full)) with
    (match f l with Some y => y :: omap f full | None => omap f full end). cbn beta.
  destruct (read_run l); cbn [rok is_ok negb length]; lia.
Qed.

(** A line that is not blank was read, or is counted as skipped. *)
Lemma history_lines body :
  Z.of_nat (length (full_lines body)) < 4294967296 ->
  (read_lines (Text.lines body) [] 0).1 = omap (fun l => rok (read_run l)) (full_lines body)
  /\ (read_lines (Text.lines body) [] 0).2 + Z.of_nat (length (read_lines (Text.lines body) [] 0).1)
     = Z.of_nat (length (full_lines body)).
Proof.
  intros Hlt. rewrite read_lines_all. cbn zeta. fold (full_lines body). simpl. split; [done|].
  set (full := full_lines body) in *.
  pose proof (read_or_not full) as Hp.
  set (bad := List.filter _ _) in *. destruct bad as [|x bad]; simpl length in *; [lia|]. rewrite Z.mod_small; lia.
Qed.

(** The runs of the routine asked for, the newest first. *)
Definition runs_of (routine_name : option str) (all : list RoutineRunDto) : list RoutineRunDto :=
  List.filter (fun r => match routine_name with Some n => str_eqb (routine r) n | None => true end) (rev all).

(** The history accounts for every line of its file: what is not blank was read
    as a run or is counted, the runs shown are the newest of the routine asked
    for, and at most a thousand of them. *)
Theorem history_accounts_for_its_lines b routine_name limit body :
  let p := Discover.join (path (discover b)) #"history.ndjson" in
  is_file b p = true -> text_of_file (file b p) = Ok body -> Z.of_nat (length (full_lines body)) < 4294967296 ->
  (forall n, limit = Some n -> 0 <= n) ->
  let h := routines_history b routine_name limit in
  exists all, all = omap (fun l => rok (read_run l)) (full_lines body)
    /\ skipped_lines h + Z.of_nat (length all) = Z.of_nat (length (full_lines body))
    /\ records h = firstn (Z.to_nat (capped limit)) (runs_of routine_name all)
    /\ (length (records h) <= 1000)%nat /\ history_file_exists h = true.
Proof.
  intros p Hf Ht Hlt Hl h. exists (omap (fun l => rok (read_run l)) (full_lines body)). split; [done|].
  destruct (history_lines body Hlt) as [H1 H2]. unfold h, routines_history. fold p. rewrite Hf, Ht.
  unfold assemble_history. destruct (read_lines (Text.lines body) [] 0) as [all k]. simpl in *. subst all.
  split; [done|]. split.
  - destruct routine_name; [done|]. f_equal. unfold runs_of. symmetry. clear. induction (rev _); simpl; congruence.
  - split; [|done]. rewrite length_firstn. unfold capped, MAX_HISTORY_LIMIT. lia.
Qed.

(** A routine that never ran is not an error, and one with a broken record is
    the only one it breaks. *)
Lemma every_routine_has_its_row b :
  map name (routines (routines_status b)) = ROUTINE_NAMES
  /\ Forall (fun s => latest s = None \/ latest_error s = None) (routines (routines_status b)).
Proof.
  unfold routines_status. cbn [routines]. rewrite map_map. split.
  - unfold ROUTINE_NAMES. simpl. repeat (destruct (read_latest_status _ _ _)). done.
  - apply List.Forall_map, List.Forall_forall. intros n _. unfold read_latest_status.
    destruct (text_of_file _) as [body|[e|]]; simpl; auto. destruct (read_run _); simpl; auto.
Qed.
End Commands.

(** ** Examples *)

Module Example.
#[local] Instance demo_wire : RoutineWire :=
  {| read_run l := if starts_with #"ok " l then Ok (mkRun [] (skipn 3 l) [] [] 0 #"ok" None None None) else Err #"no" |}.
Definition box (b : list Z) : Box :=
  mkBox (fun v => if str_eqb v #"STACK_UP_HOME" then Some #"/s" else None) (fun _ => true) (fun _ => true) (fun _ => Bytes b).
Definition three : str := #"ok a" ++ [10] ++ #"ok b" ++ [10] ++ [10] ++ #"??" ++ [10] ++ #"ok a" ++ [10].

Lemma history_accounts_for_its_lines_witness :
  exists all, all = omap (fun l => rok (read_run l)) (full_lines three)
    /\ skipped_lines (routines_history (box three) (Some #"a") None) + Z.of_nat (length all) = 4
    /\ length (records (routines_history (box three) (Some #"a") None)) = 2%nat.
Proof.
  destruct (history_accounts_for_its_lines (box three) (Some #"a") None three) as (all&->&Hs&Hr&_);
    [done|by vm_compute|by vm_compute|done|].
  eexists. split; [done|]. split; [exact Hs|]. by vm_compute.
Defined.

(** One byte that is not UTF-8 hides every run, and nothing is counted. *)
Lemma a_bad_byte_hides_the_history :
  routines_history (box (three ++ [255])) None None = mkHistory [] 0 #"/s/routines" true.
Proof. by vm_compute. Qed.
End Example.
