(* ===== verification/Inventory.v ===== *)
(** * Inventory: the servers of a cloud account
    ([crates/connectors/src/cloud_cli.rs], [crates/connectors/src/hetzner.rs],
    and [remote_cloud_list], [remote_hetzner_list] of
    [crates/api/src/remote/commands.rs])

    Four providers are listed by running their own command line tool once, with
    a verb that reads; the fifth by one [GET] of its API.  The tool's output is
    read field by field: a field that is missing or of another type is empty,
    and a listing fails only when the output is not JSON.

    serde's readers are the class [InventoryLib]. *)
From S2P Require Import Prelude Text Json Prog Http Double.
From Stdlib Require Import Floats.SpecFloat.
From S2P Require Effects Cloud JsonCode.
From S2P Require EvidencePack.
Import EvidencePack (Output, Status, Exited, Signaled, mkOutput, status, stdout, stderr, success, said).

(** The answers of [RemoteError] that these two commands give. *)
Inductive ListError : Type :=
| Invalid (message : str)
| HetznerFailed (message : str)
| CloudFailed (message : str).

Record WirePrice : Type := mkPrice { p_location : str; p_net : str }.
Record WireServer : Type := mkWire
  { w_id : Z; w_name : str; w_status : str; w_ipv4 : option str; w_type : str; w_cores : Z; w_memory : f64;
    w_prices : list WirePrice; w_location : str; w_labels : list (str * str); w_created : str }.

Class InventoryLib := {
  read_value : str -> result value str;                    (* [serde_json::from_str] *)
  number_text : number -> str;                             (* [Number::to_string] *)
  read_servers : list Z -> result (list WireServer) str;   (* [ServersEnvelope] *)
}.

(** ** The command line tools ([cloud_cli.rs]) *)

Module Cli.

Inductive CloudProvider : Type := Aws | Gcp | Azure | Ibm.
Definition as_str (p : CloudProvider) : str :=
  match p with Aws => #"aws" | Gcp => #"gcp" | Azure => #"azure" | Ibm => #"ibmcloud" end.
Definition parse (raw : str) : option CloudProvider :=
  let s := map to_ascii_lower raw in
  if str_eqb s #"aws" then Some Aws
  else if str_eqb s #"gcp" then Some Gcp
  else if str_eqb s #"azure" then Some Azure
  else if str_eqb s #"ibmcloud" || str_eqb s #"ibm" then Some Ibm
  else None.
Definition cli_name (p : CloudProvider) : str :=
  match p with Aws => #"aws" | Gcp => #"gcloud" | Azure => #"az" | Ibm => #"ibmcloud" end.

Inductive CloudCliError : Type :=
| CliNotFound (cli : str)
| NotAuthenticated (cli hint : str)
| Exec (cli : str) (code : option Z) (stderr : str)
| BadJson (message : str).
(** [{:?}] of an [Option<i32>]. *)
Definition code_text (code : option Z) : str :=
  match code with Some c => #"Some(" ++ dec c ++ #")" | None => #"None" end.
Definition cli_error_text (e : CloudCliError) : str :=
  match e with
  | CliNotFound cli => cli ++ #": command not found (is it installed and on PATH?)"
  | NotAuthenticated cli hint => cli ++ #": not authenticated - " ++ hint
  | Exec cli code stderr => cli ++ #" exited " ++ code_text code ++ #": " ++ stderr
  | BadJson message => #"json: " ++ message
  end.

Record CloudServer : Type := mkServer
  { provider : str; id : str; name : str; status_ : str; public_ip : option str; private_ip : option str;
    server_type : str; region_ : str }.
Record CloudListOptions : Type := mkOptions
  { region : option str; project : option str; subscription : option str; profile : option str; resource_group : option str }.
Definition default_options : CloudListOptions := mkOptions None None None None None.

Definition scoped (flag : str) (v : option str) : list str := match v with Some v => [flag; v] | None => [] end.
Definition build_args (p : CloudProvider) (o : CloudListOptions) : list str :=
  match p with
  | Aws => [ #"ec2"; #"describe-instances"; #"--output"; #"json"] ++ scoped #"--region" (region o) ++ scoped #"--profile" (profile o)
  | Gcp => [ #"compute"; #"instances"; #"list"; #"--format=json"] ++ scoped #"--project" (project o)
  | Azure => [ #"vm"; #"list"; #"-d"; #"--output"; #"json"] ++ scoped #"--subscription" (subscription o)
  | Ibm => [ #"is"; #"instances"; #"--output"; #"json"] ++ scoped #"--region" (region o)
           ++ scoped #"--resource-group-name" (resource_group o)
  end.

(** What [Command::output] came to. *)
Inductive Spawned : Type :=
| Missing                 (* [ErrorKind::NotFound] *)
| NotStarted (e : str)
| Ended (o : Output).
Definition exit_code (o : Output) : option Z := match status o with Exited c => Some c | Signaled _ _ => None end.

Definition NEEDLES : list str :=
  [ #"auth"; #"login"; #"credentials"; #"not logged in"; #"unable to locate credentials"].
Definition looks_unauthenticated (stderr : str) : bool :=
  let lower := map to_ascii_lower stderr in existsb (fun needle => contains needle lower) NEEDLES.
Definition auth_hint (cli : str) : str :=
  if str_eqb cli #"aws" then #"run `aws configure` (or set AWS_PROFILE)"
  else if str_eqb cli #"gcloud" then #"run `gcloud auth login`"
  else if str_eqb cli #"az" then #"run `az login`"
  else if str_eqb cli #"ibmcloud" then #"run `ibmcloud login` (or `ibmcloud login --sso` for a federated org)"
  else #"authenticate the `" ++ cli ++ #"` CLI".
Definition run_cli (cli : str) (x : Spawned) : result (list Z) CloudCliError :=
  match x with
  | Missing => Err (CliNotFound cli)
  | NotStarted e => Err (Exec cli None e)
  | Ended o =>
      if success o then Ok (stdout o)
      else if looks_unauthenticated (said o) then Err (NotAuthenticated cli (auth_hint cli))
      else Err (Exec cli (exit_code o) (said o))
  end.

Section Rows.
Context {IL : InventoryLib}.

Definition str_field (v : value) (key : str) : str :=
  match get key v with
  | Some (VStr s) => s
  | Some (VNum n) => number_text n
  | _ => []
  end.
Definition nonempty (s : str) : option str := match s with [] => None | _ => Some s end.
Definition opt_str_field (v : value) (key : str) : option str := nonempty (str_field v key).
Definition basename (full : str) : str := default full (last (split_char 47 full)).
(** [v.get(key).and_then(|v| v.as_array()).unwrap_or(&empty)]. *)
Definition items (key : str) (v : value) : list value := default [] (get key v ≫= as_array).
(** [v.get(key).map(|x| str_field(x, inner)).unwrap_or_default()]. *)
Definition nested (v : value) (key inner : str) : str := default [] ((fun x => str_field x inner) <$> get key v).

Definition aws_name (instance : value) : str :=
  default [] ((fun t => str_field t #"Value")
                <$> List.find (fun t => bool_decide (get #"Key" t ≫= Json.as_str = Some #"Name")) (items #"Tags" instance)).
Definition aws_row (instance : value) : CloudServer :=
  mkServer (as_str Aws) (str_field instance #"InstanceId") (aws_name instance) (nested instance #"State" #"Name")
    (opt_str_field instance #"PublicIpAddress") (opt_str_field instance #"PrivateIpAddress")
    (str_field instance #"InstanceType") (nested instance #"Placement" #"AvailabilityZone").
Definition parse_aws (json : str) : result (list CloudServer) CloudCliError :=
  let? root := map_err BadJson (read_value json) in
  Ok (flat_map (fun reservation => map aws_row (items #"Instances" reservation)) (items #"Reservations" root)).

(** The text at the end of a chain of [get]s, unless it is empty. *)
Definition ip_at (key : str) (v : value) : option str :=
  let! a := get key v in let! s := Json.as_str a in nonempty s.
Definition first_of (key : str) (v : value) : option value :=
  let! a := get key v in let! l := as_array a in head l.
Definition gcp_public_ip (instance : value) : option str :=
  let! i := first_of #"networkInterfaces" instance in
  let! c := first_of #"accessConfigs" i in
  ip_at #"natIP" c.
Definition gcp_private_ip (instance : value) : option str :=
  let! i := first_of #"networkInterfaces" instance in ip_at #"networkIP" i.
Definition gcp_row (instance : value) : CloudServer :=
  mkServer (as_str Gcp) (str_field instance #"id") (str_field instance #"name") (str_field instance #"status")
    (gcp_public_ip instance) (gcp_private_ip instance)
    (basename (str_field instance #"machineType")) (basename (str_field instance #"zone")).
(** The array at the top of an output, and a row for each element. *)
Definition top_rows (row : value -> CloudServer) (json : str) : result (list CloudServer) CloudCliError :=
  let? root := map_err BadJson (read_value json) in Ok (map row (default [] (as_array root))).
Definition parse_gcp : str -> result (list CloudServer) CloudCliError := top_rows gcp_row.

Definition azure_row (instance : value) : CloudServer :=
  let name := str_field instance #"name" in
  let vm_id := str_field instance #"vmId" in
  mkServer (as_str Azure) (if bool_decide (vm_id = []) then name else vm_id) name (str_field instance #"powerState")
    (opt_str_field instance #"publicIps") (opt_str_field instance #"privateIps")
    (nested instance #"hardwareProfile" #"vmSize") (str_field instance #"location").
Definition parse_azure : str -> result (list CloudServer) CloudCliError := top_rows azure_row.

Definition ibm_private_ip (instance : value) : option str :=
  let! i := get #"primary_network_interface" instance in
  let! p := get #"primary_ip" i in
  ip_at #"address" p.
Definition ibm_floating_ip (instance : value) : option str :=
  let! i := get #"primary_network_interface" instance in
  let! f := first_of #"floating_ips" i in
  ip_at #"address" f.
Definition ibm_row (instance : value) : CloudServer :=
  let private_ip := ibm_private_ip instance in
  mkServer (as_str Ibm) (str_field instance #"id") (str_field instance #"name") (str_field instance #"status")
    (match ibm_floating_ip instance with Some ip => Some ip | None => private_ip end) private_ip
    (nested instance #"profile" #"name") (nested instance #"zone" #"name").
Definition parse_ibm : str -> result (list CloudServer) CloudCliError := top_rows ibm_row.

Definition parse_output (p : CloudProvider) : str -> result (list CloudServer) CloudCliError :=
  match p with Aws => parse_aws | Gcp => parse_gcp | Azure => parse_azure | Ibm => parse_ibm end.

(** *** The one run *)

Inductive op : Type := Spawn (cli : str) (args : list str).
Definition resp (o : op) : Type := Spawned.
Inductive event : Type := Ran (cli : str) (args : list str) (x : Spawned).
Definition event_of (o : op) (_ : Z) : resp o -> event := match o with Spawn cli args => Ran cli args end.
Abbreviation program := (@prog op resp).
Abbreviation ran tr p post := (wp event_of (fun _ _ => True) tr p post).
#[local] Arguments Do {op resp A} & _ _.

Definition answered (p : CloudProvider) (x : Spawned) : result (list CloudServer) CloudCliError :=
  let? stdout := run_cli (cli_name p) x in parse_output p (from_utf8_lossy stdout).
Definition list_servers_blocking (p : CloudProvider) (o : CloudListOptions) : program (result (list CloudServer) CloudCliError) :=
  do x <- Spawn (cli_name p) (build_args p o); Ret (answered p x).
(** [joined]: what the task that ran it is reported as, when it did not end. *)
Definition list_servers (joined : option str) (p : CloudProvider) (o : CloudListOptions)
  : program (result (list CloudServer) CloudCliError) :=
  do! r <- list_servers_blocking p o;
  Ret (match joined with
       | None => r
       | Some e => Err (Exec (cli_name p) None (#"spawn_blocking join failed: " ++ e))
       end).
Definition remote_cloud_list (joined : option str) (raw : str) (options : option CloudListOptions)
  : program (result (list CloudServer) ListError) :=
  match parse raw with
  | None => Ret (Err (Invalid (#"unknown cloud provider '" ++ raw ++ #"'")))
  | Some p =>
      do! r <- list_servers joined p (default default_options options);
      Ret (map_err (fun e => CloudFailed (cli_error_text e)) r)
  end.
End Rows.
Abbreviation ran tr p post := (wp event_of (fun _ _ => True) tr p post).
End Cli.

(** ** The API ([hetzner.rs]) *)

Module Hetzner.
Import Effects.

Inductive HetznerError : Type :=
| Build (e : str)
| Transport (e : str)
| Api (status : Z) (body : str)
| BadJson (e : str).
Definition hetzner_error_text (e : HetznerError) : str :=
  match e with
  | Build e => #"http client build: " ++ e
  | Transport e => #"http transport: " ++ e
  | Api status body => #"hetzner returned HTTP " ++ dec status ++ #": " ++ body
  | BadJson e => #"json: " ++ e
  end.

Record HetznerServer : Type := mkServer
  { id : Z; name : str; status_ : str; ipv4 : option str; server_type : str; cores : Z; memory_gb : f64; location : str;
    price_hourly_eur : option double; labels : list (str * str); created : str }.

(** [str::parse::<f64>]. *)
Fixpoint digits (s : str) : str * str :=
  match s with
  | c :: s' => if ascii_digit c then let '(ds, rest) := digits s' in (c :: ds, rest) else ([], s)
  | [] => ([], [])
  end.
Definition signed (s : str) : bool * str :=
  match s with c :: s' => if c =? 45 then (true, s') else if c =? 43 then (false, s') else (false, s) | [] => (false, []) end.
Definition exponent (s : str) : option Z :=
  match s with
  | [] => Some 0
  | c :: s =>
      if (c =? 101) || (c =? 69) then
        let '(neg, ds) := signed s in
        if bool_decide (ds = []) || negb (all_digits ds) then None
        else Some (if neg then - digits_value ds else digits_value ds)
      else None
  end.
Definition parse_f64 (s : str) : option double :=
  let '(neg, t) := signed s in
  let l := map to_ascii_lower t in
  if str_eqb l #"inf" || str_eqb l #"infinity" then Some (S754_infinity neg)
  else if str_eqb l #"nan" then Some S754_nan
  else
    let '(int_part, t) := digits t in
    let '(frac_part, t) := match t with c :: t' => if c =? 46 then digits t' else ([], t) | [] => ([], []) end in
    if bool_decide (int_part ++ frac_part = []) then None
    else let! e := exponent t in
         Some (of_dec (F64 neg (map (fun d => d - 48) (int_part ++ frac_part)) (e + Z.of_nat (length int_part) - 1))).

Definition price_of (w : WireServer) : option double :=
  let! p := List.find (fun p => str_eqb (p_location p) (w_location w)) (w_prices w) in parse_f64 (p_net p).
Definition from_wire (w : WireServer) : HetznerServer :=
  mkServer (w_id w) (w_name w) (w_status w) (match w_ipv4 w with Some [] => None | ip => ip end) (w_type w) (w_cores w)
    (w_memory w) (w_location w) (price_of w) (w_labels w) (w_created w).

Definition DEFAULT_BASE : str := #"https://api.hetzner.cloud/v1".
Record HetznerClient : Type := mkClient { base_url : str; token : str }.
(** [built]: whether the HTTP client could be built. *)
Definition with_base (built : result unit str) (base_url token : str) : result HetznerClient HetznerError :=
  let? _ := map_err Build built in Ok (mkClient (Cloud.base_url_of base_url) token).
Definition new (built : result unit str) (token : str) : result HetznerClient HetznerError := with_base built DEFAULT_BASE token.

Definition unreserved (b : Z) : bool := ascii_alnum b || (b =? 45) || (b =? 95) || (b =? 46) || (b =? 126).
Definition urlencode_byte (b : Z) : str := if unreserved b then [b] else Cloud.escape b.
Definition urlencode (s : str) : str := flat_map urlencode_byte (str_bytes s).

Section Client.
Context {IL : InventoryLib}.

Definition servers_url (c : HetznerClient) (label_selector : option str) : str :=
  base_url c ++ #"/servers" ++ match label_selector with Some sel => #"?label_selector=" ++ urlencode sel | None => [] end.
Definition servers_request (c : HetznerClient) (label_selector : option str) : Request :=
  mkRequest #"GET" (servers_url c label_selector) (Some (token c)) [] [].
Definition servers_of (x : result Response str) : result (list HetznerServer) HetznerError :=
  let? r := map_err Transport x in
  let? bytes := map_err Transport (whole (chunks r)) in
  if is_success (Http.status r) then let? ws := map_err BadJson (read_servers bytes) in Ok (map from_wire ws)
  else Err (Api (Http.status r) (from_utf8_lossy bytes)).
(** [list_servers]. *)
Definition hetzner_list_servers (c : HetznerClient) (label_selector : option str)
  : program (result (list HetznerServer) HetznerError) :=
  do x <- Send (servers_request c label_selector); Ret (servers_of x).

Definition CAMPAIGN : str := #"managed-by=taipan".
Definition selector_of (label_selector : option str) : str :=
  match label_selector with Some s => if bool_decide (trim s = []) then CAMPAIGN else s | None => CAMPAIGN end.
Definition require (field value : str) : result unit ListError :=
  if bool_decide (trim value = []) then Err (Invalid (field ++ #" is required")) else Ok tt.
Definition remote_hetzner_list (built : result unit str) (token : str) (label_selector : option str)
  : program (result (list HetznerServer) ListError) :=
  match require #"token" token with
  | Err e => Ret (Err e)
  | Ok _ =>
      match new built token with
      | Err e => Ret (Err (HetznerFailed (hetzner_error_text e)))
      | Ok c =>
          do! r <- hetzner_list_servers c (Some (selector_of label_selector));
          Ret (map_err (fun e => HetznerFailed (hetzner_error_text e)) r)
      end
  end.
End Client.
End Hetzner.

(** ** What a listing is *)

Section Listings.
Import Cli.
Context {IL : InventoryLib}.

Lemma parse_as_str p : parse (as_str p) = Some p.
Proof. by destruct p. Qed.
Lemma parse_ignores_case raw : parse (map to_ascii_lower raw) = parse raw.
Proof.
  unfold parse. rewrite map_map. rewrite (map_ext (fun c => to_ascii_lower (to_ascii_lower c)) to_ascii_lower); [done|].
  intros c. unfold to_ascii_lower, ascii_upper. repeat case_match; b2p; lia.
Qed.

(** Each tool's verb, and the flags that may follow it, with their values. *)
Definition verb (p : CloudProvider) : list str := build_args p default_options.
Definition scopes (p : CloudProvider) (o : CloudListOptions) : list (str * option str) :=
  match p with
  | Aws => [(#"--region", region o); (#"--profile", profile o)]
  | Gcp => [(#"--project", project o)]
  | Azure => [(#"--subscription", subscription o)]
  | Ibm => [(#"--region", region o); (#"--resource-group-name", resource_group o)]
  end.
Lemma argv_is_verb_and_scopes p o : build_args p o = verb p ++ flat_map (fun f => scoped f.1 f.2) (scopes p o).
Proof. destruct p; unfold verb; simpl; rewrite ?app_nil_r; done. Qed.

(** A known provider's tool runs once, with its reading verb, the flags of
    its own scope and nothing else; the answer is what that run printed, or its
    failure.  An unknown provider runs nothing. *)
Theorem cloud_list_runs_the_reading_verb joined raw options :
  ran [] (remote_cloud_list joined raw options) (fun r tr =>
    match parse raw with
    | None => tr = [] /\ r = Err (Invalid (#"unknown cloud provider '" ++ raw ++ #"'"))
    | Some p => exists x,
        tr = [Ran (cli_name p) (verb p ++ flat_map (fun f => scoped f.1 f.2) (scopes p (default default_options options))) x]
        /\ (joined = None -> r = map_err (fun e => CloudFailed (cli_error_text e)) (answered p x))
    end).
Proof.
  unfold remote_cloud_list. destruct (parse raw) as [p|]; [|done]. unfold list_servers, list_servers_blocking.
  cbn [bind wp event_of app]. split; [done|]. intros _ x. exists x. rewrite argv_is_verb_and_scopes. split; [done|]. by intros ->.
Qed.

(** The machines of an output, in its order, and the row of each. *)
Definition machines (p : CloudProvider) (root : value) : list value :=
  match p with Aws => flat_map (items #"Instances") (items #"Reservations" root) | _ => default [] (as_array root) end.
Definition row (p : CloudProvider) : value -> CloudServer :=
  match p with Aws => aws_row | Gcp => gcp_row | Azure => azure_row | Ibm => ibm_row end.

Lemma map_flat_map {A B C} (f : B -> C) (g : A -> list B) l : map f (flat_map g l) = flat_map (fun x => map f (g x)) l.
Proof. induction l as [|x l IH]; simpl; [done|]. by rewrite map_app, IH. Qed.

(** A listing fails exactly when the output is not JSON: every machine of
    any other output has its own row, whatever its fields hold. *)
Theorem every_machine_has_its_row p text :
  parse_output p text = match read_value text with
                        | Err e => Err (BadJson e)
                        | Ok root => Ok (map (row p) (machines p root))
                        end.
Proof.
  destruct p; cbn [parse_output row machines]; unfold parse_aws, parse_gcp, parse_azure, parse_ibm, top_rows;
    destruct (read_value text) as [root|e]; try done. cbn [map_err rbind]. by rewrite map_flat_map.
Qed.

Lemma ip_at_full key v : ip_at key v <> Some [].
Proof. unfold ip_at. destruct (get key v) as [[]|]; try done. simpl. by destruct s. Qed.
Lemma opt_str_field_full v key : opt_str_field v key <> Some [].
Proof. unfold opt_str_field. by destruct (str_field v key). Qed.

(** An address is never shown empty, and every row names its provider. *)
Theorem addresses_are_never_empty p text rows :
  parse_output p text = Ok rows ->
  Forall (fun r => provider r = as_str p /\ public_ip r <> Some [] /\ private_ip r <> Some []) rows.
Proof.
  rewrite every_machine_has_its_row. destruct (read_value text) as [root|e]; intros [= <-]. apply Forall_map, Forall_true. intros v.
  assert (Hg : gcp_private_ip v <> Some [] /\ gcp_public_ip v <> Some []).
  { unfold gcp_private_ip, gcp_public_ip. destruct (first_of _ v) as [i|]; [|done]. simpl. split; [apply ip_at_full|].
    destruct (first_of _ i); [apply ip_at_full|done]. }
  assert (Hp : ibm_private_ip v <> Some []).
  { unfold ibm_private_ip. destruct (get _ v) as [i|]; [|done]. simpl. destruct (get _ i); [apply ip_at_full|done]. }
  assert (Hf : ibm_floating_ip v <> Some []).
  { unfold ibm_floating_ip. destruct (get _ v) as [i|]; [|done]. simpl. destruct (first_of _ i); [apply ip_at_full|done]. }
  destruct p; simpl; (split; [done|]); split; try apply opt_str_field_full; try apply Hg; try apply Hp.
  destruct (ibm_floating_ip v); [done|apply Hp].
Qed.
End Listings.

(** ** What Hetzner is asked *)

Section Asked.
Import Effects Hetzner.
Context {IL : InventoryLib}.

Lemma decode_urlencode_byte b s : 0 <= b <= 255 ->
  Cloud.percent_decode (urlencode_byte b ++ s) = let! rest := Cloud.percent_decode s in Some (b :: rest).
Proof.
  intros Hb. unfold urlencode_byte. destruct (unreserved b) eqn:Hu.
  - assert (Hl : Cloud.is_literal_pchar b = true).
    { unfold unreserved in Hu. unfold Cloud.is_literal_pchar. destruct (ascii_alnum b); [done|]. simpl in *. b2p. lia. }
    rewrite <- Cloud.decode_encode_byte by done. unfold Cloud.encode_byte. by rewrite Hl.
  - pose proof (Z.mod_pos_bound b 16). pose proof (Z.div_pos b 16). assert (b / 16 < 16) by (apply Z.div_lt_upper_bound; lia).
    unfold Cloud.escape. cbn [app Cloud.percent_decode]. rewrite !Cloud.upper_value_hex by lia.
    destruct (Cloud.percent_decode s); [|done]. do 2 f_equal. pose proof (Z.div_mod b 16). lia.
Qed.
Lemma decode_urlencode s : valid_str s -> Cloud.percent_decode (urlencode s) = Some (str_bytes s).
Proof.
  intros Hs. apply Cloud.utf8_bytes in Hs. unfold urlencode. induction Hs as [|b bs Hb _ IH]; [done|].
  cbn [flat_map]. by rewrite decode_urlencode_byte, IH.
Qed.
(** What is encoded cannot end the value or the query. *)
Lemma urlencode_chars s : valid_str s -> Forall (fun c => unreserved c = true \/ c = 37) (urlencode s).
Proof.
  intros Hs. apply Cloud.utf8_bytes in Hs. unfold urlencode. induction Hs as [|b bs Hb _ IH]; [constructor|].
  cbn [flat_map]. apply Forall_app_2; [|done]. unfold urlencode_byte. destruct (unreserved b) eqn:Hu; [constructor; [by left|constructor]|].
  pose proof (Z.mod_pos_bound b 16). pose proof (Z.div_pos b 16). assert (b / 16 < 16) by (apply Z.div_lt_upper_bound; lia).
  assert (Hd : forall n, 0 <= n < 16 -> unreserved (Cloud.hex_upper n) = true).
  { intros n Hn. unfold unreserved, ascii_alnum, ascii_digit, ascii_upper, Cloud.hex_upper. case_match; b2p; lia. }
  unfold Cloud.escape. constructor; [by right|]. constructor; [left; apply Hd; lia|]. constructor; [left; apply Hd; lia|constructor].
Qed.

(** The listing is one [GET] of the provider's API with the token as its
    bearer; the query carries the selector and nothing else, and reads back as
    it; a blank selector is that of the campaign.  With no token nothing is
    sent. *)
Theorem hetzner_is_asked_once built token selector :
  valid_str (selector_of selector) ->
  ran [] (remote_hetzner_list built token selector) (fun r tr =>
    (tr = [] /\ exists e, r = Err e)
    \/ exists x q, trim token <> []
       /\ tr = [Sent (mkRequest #"GET" (#"https://api.hetzner.cloud/v1/servers?label_selector=" ++ q) (Some token) [] []) x]
       /\ Cloud.percent_decode q = Some (str_bytes (selector_of selector))
       /\ Forall (fun c => unreserved c = true \/ c = 37) q
       /\ r = map_err (fun e => HetznerFailed (hetzner_error_text e)) (servers_of x)).
Proof.
  intros Hs. unfold remote_hetzner_list, require. destruct (bool_decide_reflect (trim token = [])) as [|Ht]; [left; eauto|].
  unfold new, with_base. destruct built as [[]|e]; [|left; simpl; eauto].
  cbn [map_err rbind hetzner_list_servers bind wp event_of app]. split; [done|]. intros _ x. right.
  exists x, (urlencode (selector_of selector)). split_and!; [done| |by apply decode_urlencode|by apply urlencode_chars|done]. done.
Qed.

(** A price is that of the server's own location. *)
Theorem price_is_of_its_location w price :
  price_of w = Some price ->
  exists p, p ∈ w_prices w /\ p_location p = w_location w /\ parse_f64 (p_net p) = Some price.
Proof.
  unfold price_of. destruct (List.find _ _) as [p|] eqn:E; [|done]. simpl. intros H. apply List.find_some in E as [Hin Hl].
  exists p. apply str_eqb_eq in Hl. by split_and!; [apply list_elem_of_In| |].
Qed.
End Asked.

(** ** Examples *)

Module Example.
Import Cli.
#[local] Instance demo : InventoryLib :=
  {| read_value t := match JsonCode.code_read t with Some v => Ok v | None => Err #"expected value at line 1 column 1" end;
     number_text n := match n with NInt z => dec z | NFloat _ => [] end;
     read_servers _ := Ok [] |}.

Definition machine : value :=
  obj [(#"InstanceId", VStr #"i-1"); (#"State", obj [(#"Name", VStr #"running")]);
       (#"Tags", VArr [obj [(#"Key", VStr #"env")]; obj [(#"Key", VStr #"Name"); (#"Value", VStr #"web")]]);
       (#"PublicIpAddress", VNull); (#"PrivateIpAddress", VStr #"10.0.0.1")].
Definition listing : str :=
  JsonCode.code_text (obj [(#"Reservations", VArr [VNull; obj [(#"Instances", VArr [machine; VBool true])]])]).
Example machines_are_listed :
  parse_aws listing
  = Ok [mkServer #"aws" #"i-1" #"web" #"running" None (Some #"10.0.0.1") [] []; mkServer #"aws" [] [] [] None None [] []].
Proof. by vm_compute. Qed.
Lemma addresses_are_never_empty_witness :
  exists rows, parse_output Aws listing = Ok rows /\ length rows = 2%nat
    /\ Forall (fun r => provider r = #"aws" /\ public_ip r <> Some [] /\ private_ip r <> Some []) rows.
Proof.
  eexists. split; [apply machines_are_listed|]. split; [done|].
  apply (addresses_are_never_empty Aws listing). apply machines_are_listed.
Defined.

(** A tool that is signed in and lacks a permission is reported as not
    signed in, and what it printed is lost. *)
Definition refusal : str :=
  #"An error occurred (UnauthorizedOperation) when calling the DescribeInstances operation: You are not authorized to perform this operation.".
Example a_missing_permission_reads_as_no_login :
  run_cli #"aws" (Ended (mkOutput (Exited 254) [] refusal))
  = Err (NotAuthenticated #"aws" #"run `aws configure` (or set AWS_PROFILE)").
Proof. by vm_compute. Qed.

(** A machine of IBM's with no public address shows its private one as the
    public one. *)
Example a_private_address_is_shown_as_public :
  let i := obj [(#"primary_network_interface", obj [(#"primary_ip", obj [(#"address", VStr #"10.240.0.4")])])] in
  public_ip (ibm_row i) = Some #"10.240.0.4" /\ public_ip (azure_row i) = None.
Proof. by vm_compute. Qed.

(** Only the first access config is read. *)
Example a_later_nat_address_is_not_read :
  gcp_public_ip (obj [(#"networkInterfaces", VArr [obj [(#"accessConfigs",
    VArr [obj [(#"name", VStr #"internal")]; obj [(#"natIP", VStr #"203.0.113.9")]])]])]) = None.
Proof. by vm_compute. Qed.

Import Hetzner.
Example selectors_are_encoded : urlencode #"managed-by=taipan" = #"managed-by%3Dtaipan" /\ urlencode #"a,b" = #"a%2Cb".
Proof. by vm_compute. Qed.
Definition server : WireServer :=
  mkWire 42 #"taipan-live-1" #"running" (Some []) #"cpx62" 16 (F64 false [3; 2] 1)
    [mkPrice #"fsn1" #"0.0490000000"; mkPrice #"nbg1" #"0.0500000000"] #"nbg1" [] [].
Example price_is_of_nuremberg : price_hourly_eur (from_wire server) = Some (of_dec (F64 false [5] (-2))) /\ ipv4 (from_wire server) = None.
Proof. by vm_compute. Qed.
Lemma price_is_of_its_location_witness :
  exists p, p ∈ w_prices server /\ p_location p = #"nbg1" /\ parse_f64 (p_net p) = Some (of_dec (F64 false [5] (-2))).
Proof. apply (price_is_of_its_location server). by vm_compute. Defined.
Example texts_of_doubles :
  parse_f64 #"-1.5e3" = Some (of_Z (-1500)) /\ parse_f64 #".5" = Some (of_dec (F64 false [5] (-1))) /\ parse_f64 #"7." = Some (of_Z 7)
  /\ parse_f64 #"." = None /\ parse_f64 #"1e" = None /\ parse_f64 #"0x1" = None /\ parse_f64 [] = None /\ parse_f64 #"Inf" = Some (S754_infinity false).
Proof. by vm_compute. Qed.
Lemma hetzner_is_asked_once_witness :
  valid_str CAMPAIGN /\ exists r x q,
    Effects.play (fun _ o => match o with Effects.Send _ => Ok (mkResponse 401 [Ok #"no"]) | Effects.Draw => (None, Err [])
                                     | Effects.Clock => 0 | Effects.Seed => (Err [], 0, 0) | Effects.Now => 0
                                     | Effects.Random => Err [] | Effects.Journal _ _ _ => Err [] end) []
      (remote_hetzner_list (Ok tt) #"tok" (Some #" "))
    = (r, [Effects.Sent (Effects.mkRequest #"GET" (#"https://api.hetzner.cloud/v1/servers?label_selector=" ++ q) (Some #"tok") [] []) x])
    /\ Cloud.percent_decode q = Some (str_bytes CAMPAIGN) /\ r = Err (HetznerFailed #"hetzner returned HTTP 401: no").
Proof.
  assert (Hv : valid_str CAMPAIGN) by (apply (bool_decide_eq_true_1 _); by vm_compute). split; [exact Hv|].
  set (w := fun (_ : list Effects.event) (o : Effects.op) => match o return Effects.resp o with
    | Effects.Send _ => Ok (mkResponse 401 [Ok #"no"]) | Effects.Draw => (None, Err []) | Effects.Clock => 0
    | Effects.Seed => (Err [], 0, 0) | Effects.Now => 0 | Effects.Random => Err [] | Effects.Journal _ _ _ => Err [] end).
  pose proof (Effects.play_ran w [] _ _ (hetzner_is_asked_once (Ok tt) #"tok" (Some #" ") Hv)) as [[Hn _]|(x & q & _ & Ht & Hq & _ & _)].
  - by vm_compute in Hn.
  - exists (Effects.play w [] (remote_hetzner_list (Ok tt) #"tok" (Some #" "))).1, x, q. split; [|split; [exact Hq|by vm_compute]].
    rewrite <- Ht. apply surjective_pairing.
Defined.
End Example.
