(* ===== verification/Gateways.v ===== *)
(** * Gateways: which gateway the Cloud hears from
    ([crates/api/src/money/gateways.rs], with [gateways] of
    [crates/connectors/src/cloud_rest.rs])

    The Cloud says when it last heard from each site; a site it has not heard
    from for more than five minutes is silent.  Ages are taken against the
    console's own clock, in whole seconds.

    chrono's calendar is a parameter. *)
From S2P Require Import Prelude Text Json Prog Double.
From S2P Require Import Effects.
From S2P Require Cloud.
From S2P Require Import Signing.

Record GatewayAgg : Type := mkAgg
  { a_site : str; spent_microusd : Z; a_calls : Z; tool_calls : Z; a_pushes : Z; first_push_millis : Z; last_push_millis : Z;
    last_record_millis : Z }.
Inductive GatewayState : Type := Reporting | Silent.
#[export] Instance GatewayState_eq_dec : EqDecision GatewayState.
Proof. solve_decision. Defined.
Record GatewayDto : Type := mkDto
  { site : str; state : GatewayState; last_push : str; last_push_age_secs : Z; last_record : option str; first_push : str;
    pushes : Z; calls : Z; spent_usd : double }.
Record GatewaysDto : Type := mkGateways
  { reported : bool; silent_after_secs : Z; checked_at : str; gateways_ : list GatewayDto }.

Definition SILENT_AFTER_MS : Z := 5 * 60 * 1000.
Definition micros_to_usd (micros : Z) : double := div (of_Z micros) (of_Z 1000000).

Section View.
(** [from_timestamp_millis] and [to_rfc3339_opts]. *)
Context (rfc3339_millis : Z -> option str).
Definition millis_to_iso (millis : Z) : str := default (dec millis) (rfc3339_millis millis).

(** [now_ms.saturating_sub(..)]. *)
Definition age_ms (now_ms : Z) (g : GatewayAgg) : Z := i64_saturating (now_ms - last_push_millis g).
Definition state_of (now_ms : Z) (g : GatewayAgg) : GatewayState :=
  if (last_push_millis g <=? 0) || (SILENT_AFTER_MS <? age_ms now_ms g) then Silent else Reporting.
Definition row (now_ms : Z) (g : GatewayAgg) : GatewayDto :=
  mkDto (a_site g) (state_of now_ms g) (millis_to_iso (last_push_millis g)) (Z.quot (age_ms now_ms g) 1000)
    (if 0 <? last_record_millis g then Some (millis_to_iso (last_record_millis g)) else None)
    (millis_to_iso (first_push_millis g)) (a_pushes g) (a_calls g) (micros_to_usd (spent_microusd g)).

(** The comparison of [sort_by]: [a] may stay before [b]. *)
Definition rank (g : GatewayDto) : Z := if bool_decide (state g = Reporting) then 1 else 0.
Definition before (a b : GatewayDto) : bool :=
  (rank a <? rank b)
  || (rank a =? rank b) && ((last_push_age_secs a <? last_push_age_secs b)
                            || (last_push_age_secs a =? last_push_age_secs b) && str_leb (site a) (site b)).
Definition gateways_view (list : list GatewayAgg) (now_ms : Z) : Datatypes.list GatewayDto :=
  isort before (map (row now_ms) list).

Context (read_gateways : list Z -> result (list GatewayAgg) str).
Context {PR : Primitives} {JT : JsonText} {CW : Cloud.CloudWire}.

(** [CloudClient::gateways]. *)
Definition gateways (c : Cloud.CloudClient) : program (result (option (list GatewayAgg)) Cloud.ConnectorError) :=
  Cloud.get_json_or_absent c read_gateways #"/v1/gateways".
Definition gateways_dto (list : option (Datatypes.list GatewayAgg)) (now_ms : Z) : GatewaysDto :=
  mkGateways (match list with Some _ => true | None => false end) (Z.quot SILENT_AFTER_MS 1000) (millis_to_iso now_ms)
    (match list with Some l => gateways_view l now_ms | None => [] end).
Definition money_gateways (st : Cloud.MoneyInner) : program (result GatewaysDto Cloud.MoneyError) :=
  match Cloud.ready_client st with
  | Err e => Ret (Err e)
  | Ok c =>
      do! r <- gateways (Cloud.client c);
      match map_err Cloud.money_error r with
      | Err e => Ret (Err e)
      | Ok list => do now <- Clock; Ret (Ok (gateways_dto list now))
      end
  end.

(** ** The order of the rows *)

Lemma before_total a b : before a b = true \/ before b a = true.
Proof. unfold before, str_leb. destruct (lex_leb_total (site a) (site b)) as [H|H]; rewrite H; lia. Qed.
Lemma before_trans a b c : before a b = true -> before b c = true -> before a c = true.
Proof.
  unfold before, str_leb. pose proof (lex_leb_trans (site a) (site b) (site c)) as H.
  destruct (lex_leb (site a) (site b)), (lex_leb (site b) (site c)), (lex_leb (site a) (site c)); try (specialize (H eq_refl eq_refl));
    try done; lia.
Qed.

Definition gone_silent (now_ms : Z) (g : GatewayAgg) : Prop :=
  last_push_millis g <= 0 \/ last_push_millis g < now_ms - SILENT_AFTER_MS.
Lemma silent_iff now_ms g : in_i64 now_ms = true -> state (row now_ms g) = Silent <-> gone_silent now_ms g.
Proof.
  intros Hn. unfold row, state_of, age_ms, gone_silent, i64_saturating, in_i64, i64_min, i64_max, SILENT_AFTER_MS in *. simpl.
  destruct (orb _ _) eqn:E; split; intros H; try done; b2p; lia.
Qed.

(** Every site the Cloud named has one row and only it; a row is silent
    exactly when its site was never heard from, or not for more than five
    minutes; silent rows come first, and in each part an older push never comes
    before a newer one by a second or more. *)
Theorem silence_is_told now_ms list :
  in_i64 now_ms = true ->
  Permutation (gateways_view list now_ms) (map (row now_ms) list)
  /\ Forall (fun g => state (row now_ms g) = Silent <-> gone_silent now_ms g) list
  /\ StronglySorted (fun a b => (state a = Reporting -> state b = Reporting)
                                /\ (state a = state b -> last_push_age_secs a <= last_push_age_secs b))
       (gateways_view list now_ms).
Proof.
  intros Hn. split; [apply isort_perm|]. split; [apply Forall_true; intros g; by apply silent_iff|].
  pose proof (isort_sorted before before_total before_trans (map (row now_ms) list)) as H.
  unfold gateways_view. induction H as [|a l _ IH Ha]; constructor; [exact IH|]. eapply Forall_impl; [exact Ha|].
  intros b Hb. unfold before, rank in Hb. split; intros E; destruct (state a), (state b); try done; simpl in Hb; lia.
Qed.

(** A Cloud that has no such route is not a Cloud that heard from nobody. *)
Theorem no_route_is_not_no_gateway st :
  ran [] (money_gateways st) (fun r tr => forall d, r = Ok d ->
    exists c x now, Cloud.ready_client st = Ok c
      /\ tr = [Sent (mkRequest #"GET" (Cloud.base_url (Cloud.client c) ++ #"/v1/gateways") (Some (Cloud.bearer_token (Cloud.client c))) [] []) (Ok x);
               Read now]
      /\ (reported d = false <-> Http.status x = 404)
      /\ (reported d = false -> gateways_ d = [])).
Proof.
  unfold money_gateways, gateways, Cloud.get_json_or_absent. destruct (Cloud.ready_client st) as [c|e]; [|done].
  cbn [bind wp event_of app]. split; [done|]. intros _ [x|e]; [|done].
  destruct (Z.eqb_spec (Http.status x) 404) as [H4|H4].
  - cbn [map_err wp app event_of]. split; [done|]. intros _ now d [= <-]. exists c, x, now. done.
  - destruct (Cloud.parse_response read_gateways (Ok x)) as [l|e]; [|done]. cbn [rbind map_err wp app event_of].
    split; [done|]. intros _ now d [= <-]. exists c, x, now. done.
Qed.
End View.

(** ** Examples *)

Module Example.
Definition NOW : Z := 1791985800000.
Definition gw (site : str) (last : Z) : GatewayAgg := mkAgg site 0 0 0 10 (NOW - 86400000) last 0.
Definition view : list GatewayAgg -> list GatewayDto := fun l => gateways_view (fun _ => None) l NOW.
Example the_five_minutes :
  map (fun g => (site g, state g))
    (view [gw #"line" (NOW - SILENT_AFTER_MS); gw #"past" (NOW - SILENT_AFTER_MS - 1); gw #"never" 0; gw #"ahead" (NOW + 10000)])
  = [(#"past", Silent); (#"never", Silent); (#"ahead", Reporting); (#"line", Reporting)].
Proof. by vm_compute. Qed.
Lemma silence_is_told_witness :
  in_i64 NOW = true /\ gone_silent NOW (gw #"past" (NOW - SILENT_AFTER_MS - 1))
  /\ Permutation (map site (view [gw #"past" (NOW - SILENT_AFTER_MS - 1); gw #"line" NOW])) [ #"past"; #"line"].
Proof.
  assert (Hn : in_i64 NOW = true) by by vm_compute. split; [exact Hn|].
  destruct (silence_is_told (fun _ => None) NOW [gw #"past" (NOW - SILENT_AFTER_MS - 1); gw #"line" NOW] Hn) as (Hp & Hs & _).
  split; [apply Forall_inv in Hs; apply Hs; by vm_compute|]. unfold view. rewrite Hp. done.
Defined.

(** Two pushes within a second are in the order of their names, not the
    newest first. *)
Example newest_first_by_the_second :
  map site (view [gw #"z-newest" (NOW - 5000); gw #"a-older" (NOW - 5999)]) = [ #"a-older"; #"z-newest"].
Proof. by vm_compute. Qed.
End Example.
