(* ===== verification/Identity.v ===== *)
(** * Identity: the identity plane ([crates/connectors/src/idryx.rs],
    [crates/api/src/identity/commands.rs], [state.rs])

    The plane reads idryx through one client without a key: its identities, its
    alerts and its suggestions, as of the moment idryx was started.  A rescan
    runs the idryx binary, when there is one, over the event files of the
    environment, and answers with the alerts it printed.  The search for the
    environment is [Discover.Identity]; the other run of the binary, the
    Agent-BOM, is in [EvidencePack].

    serde's readers are the class [IdryxWire]. *)
From S2P Require Import Prelude Text Json Prog Http Effects.
From S2P Require Discover Cloud.
From S2P Require EvidencePack.
Import EvidencePack (Output, Exited, mkOutput, stdout, stderr, success, said, Out, Spawn, Asked, Ran, out).

(** ** The client ([idryx.rs]) *)

Record Permission : Type := mkPermission { p_name : str; admin : bool; used : bool }.
Record Remediation : Type := mkRemediation { r_kind : str; r_explanation : str; r_code : str; r_created_at : str }.
Record Identity : Type := mkIdentity
  { id : str; identity_type : str; privileged : bool; i_source : str; owner : str; created : str; last_used : str; runtime : str;
    on_behalf_of : list str; permissions : list Permission; remediation : option Remediation; rotation : option Remediation;
    events : Z; i_alerts : Z }.
Record Alert : Type := mkAlert { detector : str; identity : str; severity : str; time : str; summary : str }.
Record Recommendation : Type := mkRecommendation
  { n_identity : str; n_kind : str; n_explanation : str; n_code : str; n_created_at : str }.

Inductive IdryxError : Type :=
| Transport (e : str)
| BadJson (e : str)
| Api (status : Z) (body : str)
| Cli (e : str).
Definition idryx_error_text (e : IdryxError) : str :=
  match e with
  | Transport e => #"http transport: " ++ e
  | BadJson e => #"json: " ++ e
  | Api status body => #"idryx returned HTTP " ++ dec status ++ #": " ++ body
  | Cli e => #"idryx detect: " ++ e
  end.

Class IdryxWire := {
  read_identities : list Z -> result (list Identity) str;
  read_alerts : list Z -> result (list Alert) str;
  read_recommendations : list Z -> result (list Recommendation) str;
}.

(** The client is its base; [built]: whether the HTTP client could be built. *)
Record IdryxClient : Type := mkClient { base_url : str }.
Definition new (built : result unit str) (base_url : str) : result IdryxClient IdryxError :=
  let? _ := map_err Transport built in Ok (mkClient (Cloud.base_url_of base_url)).
Definition idryx_request (c : IdryxClient) (path : str) : Request := mkRequest #"GET" (base_url c ++ path) None [] [].
Definition parse_response {T} (read : list Z -> result T str) (x : result Response str) : result T IdryxError :=
  let? r := map_err Transport x in
  let? bytes := map_err Transport (whole (chunks r)) in
  if is_success (Http.status r) then map_err BadJson (read bytes) else Err (Api (Http.status r) (from_utf8_lossy bytes)).
Definition get {T} (read : list Z -> result T str) (c : IdryxClient) (path : str) : program (result T IdryxError) :=
  do x <- Send (idryx_request c path); Ret (parse_response read x).
(** Only the status counts. *)
Definition healthz (c : IdryxClient) : program (result bool IdryxError) :=
  do x <- Send (idryx_request c #"/healthz"); Ret (let? r := map_err Transport x in Ok (is_success (Http.status r))).

Section Client.
Context {IW : IdryxWire}.
Definition list_identities (c : IdryxClient) : program (result (list Identity) IdryxError) := get read_identities c #"/api/identities".
Definition list_alerts (c : IdryxClient) : program (result (list Alert) IdryxError) := get read_alerts c #"/api/alerts".
Definition list_remediations (c : IdryxClient) : program (result (list Recommendation) IdryxError) :=
  get read_recommendations c #"/api/remediations".

Definition detect_args (min_severity : str) (loads : list (str * str)) : list str :=
  [ #"detect"; #"--format"; #"json"; #"--min-severity"; min_severity]
  ++ flat_map (fun l => [ #"--load"; l.1 ++ #":" ++ l.2]) loads.
Definition detected (bin : str) (x : result Output str) : result (list Alert) IdryxError :=
  let? o := map_err (fun e => Cli (#"spawn " ++ bin ++ #": " ++ e)) x in
  if negb (success o)
  then Err (Cli (#"`idryx detect` exited " ++ EvidencePack.status_text (EvidencePack.status o) ++ #": " ++ said o))
  else map_err BadJson (read_alerts (stdout o)).
Definition rescan (bin : str) (loads : list (str * str)) (min_severity : str)
  : EvidencePack.program (result (list Alert) IdryxError) :=
  Do (Spawn bin (detect_args min_severity loads)) (fun x => Ret (detected bin x)).
End Client.

(** ** The plane's state ([state.rs]) *)

Record IdentityClient : Type := mkIdentityClient
  { client : IdryxClient; source : Discover.EnvSource; idryx_url : str; idryx_bin : option str; rescan_loads : list (str * str) }.
Inductive IdentityInner : Type :=
| Bootstrapping
| NoEnvironment
| Unreachable (source : Discover.EnvSource) (idryx_url reason : str)
| Ready (client : IdentityClient).

Inductive IdentityError : Type :=
| EBootstrapping
| ENoEnvironment
| EUnreachable (reason : str)
| EIdryx (status : option Z) (message : str)
| RescanUnavailable.
(** [From<IdryxError>]. *)
Definition identity_error (e : IdryxError) : IdentityError :=
  match e with
  | Transport e => EIdryx None (#"could not reach idryx: " ++ e)
  | BadJson e => EIdryx None (#"unexpected response shape from idryx: " ++ e)
  | Api status body => EIdryx (Some status) body
  | Cli message => EIdryx None (#"idryx detect failed: " ++ message)
  end.

Section Plane.
Context {JT : JsonText} {IW : IdryxWire}.

Definition connect (built : result unit str) (resolved : Discover.Identity.ResolvedEnv_identity) : program (result IdryxClient str) :=
  match new built (Discover.Identity.idryx_url resolved) with
  | Err e => Ret (Err (idryx_error_text e))
  | Ok c =>
      do! r <- healthz c;
      Ret (match r with
           | Ok true => Ok c
           | Ok false => Err #"idryx /healthz answered a non-success status"
           | Err e => Err (#"idryx health check failed: " ++ idryx_error_text e)
           end)
  end.
(** [elapsed]: the timeout ran out first; [later]: the disk once idryx has
    answered. *)
Definition bootstrap (w later : Discover.World) (built : result unit str) (elapsed : bool) : program IdentityInner :=
  match Discover.Identity.discover_identity w with
  | None => Ret NoEnvironment
  | Some resolved =>
      let src := Discover.Identity.source resolved in
      let url := Discover.Identity.idryx_url resolved in
      do! r <- connect built resolved;
      Ret (if elapsed then Unreachable src url #"timed out after 10s waiting for idryx to respond"
           else match r with
                | Ok c =>
                    Ready (mkIdentityClient c src url (Discover.Identity.resolve_idryx_bin later)
                      (Discover.Identity.resolve_rescan_loads later (Discover.Identity.events_dir resolved)
                         (Discover.Identity.event_files resolved)))
                | Err reason => Unreachable src url reason
                end)
  end.

(** ** The commands ([commands.rs]) *)

Definition ready_client (inner : IdentityInner) : result IdentityClient IdentityError :=
  match inner with
  | Ready c => Ok c
  | Bootstrapping => Err EBootstrapping
  | NoEnvironment => Err ENoEnvironment
  | Unreachable _ _ reason => Err (EUnreachable reason)
  end.

Inductive IdentityStatusDto : Type :=
| SBootstrapping
| SNoEnvironment
| SUnreachable (source : Discover.EnvSource) (idryx_url reason : str)
| SReady (source : Discover.EnvSource) (idryx_url : str) (rescan_available : bool).
Definition status_dto (inner : IdentityInner) : IdentityStatusDto :=
  match inner with
  | Bootstrapping => SBootstrapping
  | NoEnvironment => SNoEnvironment
  | Unreachable s u r => SUnreachable s u r
  | Ready c => SReady (source c) (idryx_url c) (match idryx_bin c with Some _ => true | None => false end)
  end.
Definition identity_status (inner : IdentityInner) : IdentityStatusDto := status_dto inner.

Definition read_plane {T} (inner : IdentityInner) (ask : IdryxClient -> program (result T IdryxError))
  : program (result T IdentityError) :=
  match ready_client inner with
  | Err e => Ret (Err e)
  | Ok c => do! r <- ask (client c); Ret (map_err identity_error r)
  end.
Definition identity_list_identities (inner : IdentityInner) : program (result (list Identity) IdentityError) :=
  read_plane inner list_identities.
Definition identity_list_alerts (inner : IdentityInner) : program (result (list Alert) IdentityError) :=
  read_plane inner list_alerts.
Definition identity_list_remediations (inner : IdentityInner) : program (result (list Recommendation) IdentityError) :=
  read_plane inner list_remediations.

Definition MIN_SEVERITY : str := #"low".
(** [joined]: what the task that ran it is reported as, when it did not end. *)
Definition identity_rescan (joined : option str) (inner : IdentityInner)
  : EvidencePack.program (result (list Alert) IdentityError) :=
  match ready_client inner with
  | Err e => Ret (Err e)
  | Ok c =>
      match idryx_bin c with
      | None => Ret (Err RescanUnavailable)
      | Some bin =>
          do! r <- rescan bin (rescan_loads c) MIN_SEVERITY;
          Ret (match joined with
               | Some e => Err (EIdryx None (#"rescan task failed to run: " ++ e))
               | None => map_err identity_error r
               end)
      end
  end.

(** ** What the plane asks *)

(** A read asks idryx once, on its own route, and carries no key; a panel
    that is not ready asks nothing and says which of its states it is in. *)
Theorem read_asks_idryx_once {T} (read : list Z -> result T str) path inner :
  Effects.ran [] (read_plane inner (fun c => get read c path)) (fun r tr =>
    match inner with
    | Ready c => exists x, tr = [Sent (mkRequest #"GET" (base_url (client c) ++ path) None [] []) x]
                   /\ r = map_err identity_error (parse_response read x)
    | _ => tr = [] /\ exists e, ready_client inner = Err e /\ r = Err e
    end).
Proof.
  unfold read_plane. destruct inner as [| |s u reason|c]; [simpl; eauto..|]. cbn [ready_client get bind wp event_of app].
  split; [done|]. intros _ x. by exists x.
Qed.

(** Ready means answered: the panel is ready only when the environment's own
    idryx answered its health check with success in time. *)
Theorem ready_panel_was_answered w later built elapsed :
  Effects.ran [] (bootstrap w later built elapsed) (fun inner tr => forall c, inner = Ready c ->
    exists resolved r, Discover.Identity.discover_identity w = Some resolved /\ elapsed = false
      /\ client c = mkClient (Cloud.base_url_of (Discover.Identity.idryx_url resolved))
      /\ source c = Discover.Identity.source resolved
      /\ tr = [Sent (mkRequest #"GET" (Cloud.base_url_of (Discover.Identity.idryx_url resolved) ++ #"/healthz") None [] []) (Ok r)]
      /\ is_success (Http.status r) = true).
Proof.
  unfold bootstrap. destruct (Discover.Identity.discover_identity w) as [res|]; [|done].
  unfold connect, new. destruct built as [[]|e]; [|cbn; intros c; by destruct elapsed].
  cbn [map_err rbind healthz bind wp event_of app]. split; [done|]. intros _ [r|e] c; [|by destruct elapsed].
  cbn [map_err rbind]. destruct elapsed; [done|]. destruct (is_success _) eqn:E; [|done]. intros [= <-]. exists res, r. done.
Qed.

(** A rescan is never made up: its alerts are what one successful run of the
    binary printed, over the load files that were found; without a binary it
    says so and runs nothing. *)
Theorem rescan_is_what_the_binary_printed joined inner :
  EvidencePack.ran [] (identity_rescan joined inner) (fun r tr => forall alerts, r = Ok alerts ->
    exists c bin o, inner = Ready c /\ idryx_bin c = Some bin
      /\ tr = [Ran bin ([ #"detect"; #"--format"; #"json"; #"--min-severity"; #"low"]
                        ++ flat_map (fun l => [ #"--load"; l.1 ++ #":" ++ l.2]) (rescan_loads c)) (Ok o)]
      /\ success o = true /\ read_alerts (stdout o) = Ok alerts).
Proof.
  unfold identity_rescan. destruct inner as [| |s u reason|c]; try done. cbn [ready_client].
  destruct (idryx_bin c) as [bin|] eqn:Eb; [|done]. unfold rescan. cbn [bind wp EvidencePack.event_of app].
  split; [done|]. intros _ [o|e] alerts; destruct joined; try done. unfold detected. cbn [map_err rbind].
  destruct (success o) eqn:Es; [|done]. simpl. destruct (read_alerts (stdout o)) as [l|e] eqn:Ea; [|done]. intros [= ->].
  exists c, bin, o. done.
Qed.
End Plane.

(** ** Examples *)

Module Example.
#[local] Instance demo : IdryxWire :=
  {| read_identities _ := Ok [];
     read_alerts b := if bool_decide (b = #"[]") then Ok [] else Err #"expected value at line 1 column 1";
     read_recommendations _ := Ok [] |}.
Definition panel (bin : option str) : IdentityInner :=
  Ready (mkIdentityClient (mkClient #"http://idryx") (Discover.Taipan #"dev") #"http://idryx/" bin [(#"tokenfuse", #"/e/t.ndjson")]).
Definition rescanned (x : result Output str) : result (list Alert) IdentityError := map_err identity_error (detected #"/bin/idryx" x).
Example rescans :
  rescanned (Ok (mkOutput (Exited 0) #"[]" [])) = Ok []
  /\ rescanned (Ok (mkOutput (Exited 1) #"[]" #"bad flag"))
     = Err (EIdryx None #"idryx detect failed: `idryx detect` exited exit status: 1: bad flag")
  /\ identity_rescan None (panel None) = Ret (Err RescanUnavailable).
Proof. by vm_compute. Qed.
Example status_of_a_panel_without_the_binary :
  status_dto (panel None) = SReady (Discover.Taipan #"dev") #"http://idryx/" false.
Proof. done. Qed.
End Example.
