(* ===== verification/CaseFile.v ===== *)
(** * CaseFile: what a case gathers ([crates/api/src/case/commands.rs])

    One incident, its event row, and what the planes hold about it: the store is
    read first, then each plane is asked only the questions the event allows.
    Each plane command is one operation; its error is the text the plane's own
    error is written as.  The five reads are under way at once in the source;
    they do not depend on each other, and the model sends them in turn.

    What serde makes of a row is the class [CaseWire].  The three queries of
    the store may each see another table, and each may fail. *)
From S2P Require Import Prelude Text Json Signing Prog Case.
From S2P Require Store Feed Identity.

Definition ALERTS_UNREAD : str :=
  #"the identity record was read; idryx's alert list could not be, so alerts are missing from this line".
Definition TIMELINE_CAPPED : str := #"the run has at least this many events; the timeline stops at the cap".

Module label.
Definition EVENT : str := #"the incident's event row".
Definition TIMELINE : str := #"an event of the same run".
Definition SPEND : str := #"the run's spend and gateway decisions".
Definition IDENTITY : str := #"the identity record".
Definition IDENTITY_ALERT : str := #"an identity alert on this subject".
Definition BLAST_RADIUS : str := #"what the identity can reach, computed from its record".
Definition POLICY : str := #"the policy status wardryx reports now".
Definition DECISION : str := #"an approval of this run and how it was decided".
Definition SIMILAR_SAME_SUBJECT : str := #"an earlier event of the same type, same subject".
Definition SIMILAR_OTHER_SUBJECT : str := #"an earlier event of the same type, another subject".
Definition RULING : str := #"a memory recalled for this kind of incident".
End label.

Definition TIMELINE_CAP : nat := 200.
Definition SIMILAR_LIMIT : nat := 5.
Definition RULINGS_LIMIT : Z := 5.
Definition BLAST_LIST_CAP : nat := 20.

(** A row of another plane: the field it is named or chosen by, and what
    serde writes of it. *)
Record RunRow : Type := mkRun { r_run_id : str; r_wire : value }.
Record StatusRow : Type := mkStatus { policy_version : str; s_wire : value }.
Record ApprovalRow : Type := mkApproval { approval_id : str; a_run_id : str; a_wire : value }.
Record MemoryRow : Type := mkMemory { m_id : str; m_wire : value }.

Class CaseWire := {
  event_value : Store.Row -> value;
  identity_value : Identity.Identity -> value;
  alert_value : Identity.Alert -> value;
}.

(** ** Operations: the commands of the planes *)

Inductive op : Type :=
| MoneyRuns
| ListIdentities
| ListAlerts
| EnforcementStatus
| ListApprovals
| MemoryRecall (query : str) (limit : Z) (mode : str).
Definition resp (o : op) : Type :=
  match o with
  | MoneyRuns => result (list RunRow) str
  | ListIdentities => result (list Identity.Identity) str
  | ListAlerts => result (list Identity.Alert) str
  | EnforcementStatus => result StatusRow str
  | ListApprovals => result (list ApprovalRow) str
  | MemoryRecall _ _ _ => result (list MemoryRow) str
  end.
(** What was asked, and of whom. *)
Inductive event : Type := Asked (o : op) (x : resp o).
Definition event_of (o : op) (_ : Z) : resp o -> event := Asked o.
Abbreviation program := (@prog op resp).
Abbreviation ran tr p post := (wp event_of (fun _ _ => True) tr p post).
#[local] Arguments Do {op resp A} & _ _.

Definition one (r : Row) : Answer := Rows [r] None.
Definition nothing : Answer := Rows [] None.

Section Gather.
Context {PR : Primitives} {JT : JsonText} {CA : Store.Calendar} {CW : CaseWire}.

(** ** The store's three sections *)

Definition stored (r : Store.Row) : StoredEvent :=
  mkEvent (Store.id r) (Store.type_ r) (Store.agent_id r) (Store.run_id r) (Store.data r).
Definition bus_row (label : str) (r : Store.Row) : Row := mkRow Bus (dec (Store.id r)) label (event_value r).

(** [sort_by_key]: the time and then the row, no time being the least. *)
Definition when (r : Store.Row) : Z := default i64_min (Store.parse_ts_ms (Store.ts r)).
Definition earlier (a b : Store.Row) : bool :=
  (when a <? when b) || (when a =? when b) && (Store.id a <=? Store.id b).
Definition timeline (run : option str) (table : result (list Store.Row) str) : Answer :=
  match run with
  | None => NotAsked NO_RUN
  | Some run_id =>
      match table with
      | Err e => Unavailable e
      | Ok t =>
          let events := isort earlier (Store.events_for_run run_id TIMELINE_CAP t) in
          Rows (map (bus_row label.TIMELINE) events)
            (if (TIMELINE_CAP <=? length events)%nat then Some TIMELINE_CAPPED else None)
      end
  end.
Definition similar_label (subject : str) (r : Store.Row) : str :=
  if str_eqb (Store.filed r) subject then label.SIMILAR_SAME_SUBJECT else label.SIMILAR_OTHER_SUBJECT.
Definition similar (event : Store.Row) (subject : str) (table : result (list Store.Row) str) : Answer :=
  match table with
  | Err e => Unavailable e
  | Ok t =>
      Rows (map (fun r => bus_row (similar_label subject r) r)
              (Store.similar_events (Store.type_ event) (Store.id event) SIMILAR_LIMIT t)) None
  end.
(** [t1], [t2]: the table as the second and the third query find it. *)
Definition store_sections (event : Store.Row) (q : Questions) (t1 t2 : result (list Store.Row) str)
  : list (Section_ * Answer) :=
  [(SEvent, one (bus_row label.EVENT event)); (RunTimeline, timeline (q_run_id q) t1);
   (SimilarIncidents, similar event (q_subject q) t2)].

(** ** The planes *)

Definition count {A} (p : A -> bool) (l : list A) : value := VNum (NInt (Z.of_nat (length (List.filter p l)))).
Definition acts_for (me : str) (i : Identity.Identity) : bool :=
  negb (str_eqb (Identity.id i) me) && existsb (str_eqb me) (Identity.on_behalf_of i).
(** [sort_unstable]: equal texts are the same text. *)
Definition delegates (me : str) (all : list Identity.Identity) : list str :=
  isort str_leb (map Identity.id (List.filter (acts_for me) all)).
Definition blast_radius (me : Identity.Identity) (all : list Identity.Identity) (alerts : nat) : value :=
  let ds := delegates (Identity.id me) all in
  obj [(#"identity", VStr (Identity.id me)); (#"identity_type", VStr (Identity.identity_type me));
       (#"privileged", VBool (Identity.privileged me)); (#"permissions", count (fun _ => true) (Identity.permissions me));
       (#"admin_permissions", count Identity.admin (Identity.permissions me));
       (#"unused_permissions", count (fun p => negb (Identity.used p)) (Identity.permissions me));
       (#"delegated_by", VArr (map VStr (Identity.on_behalf_of me)));
       (#"delegates_to", VArr (map VStr (firstn BLAST_LIST_CAP ds)));
       (#"delegates_to_total", VNum (NInt (Z.of_nat (length ds)))); (#"alerts", VNum (NInt (Z.of_nat alerts)))].

Definition spend (run_id : str) : program Answer :=
  do x <- MoneyRuns;
  Ret (match x with
       | Err e => Unavailable e
       | Ok runs =>
           match List.find (fun r => str_eqb (r_run_id r) run_id) runs with
           | None => nothing
           | Some r => one (mkRow Tokenfuse (r_run_id r) label.SPEND (r_wire r))
           end
       end).

Definition alert_row (a : Identity.Alert) : Row :=
  mkRow Idryx (Identity.detector a ++ #":" ++ Identity.time a) label.IDENTITY_ALERT (alert_value a).
Definition about (agent : str) (alerts : list Identity.Alert) : list Identity.Alert :=
  List.filter (fun a => str_eqb (Identity.identity a) agent) alerts.
(** The two sections of one identity, from the alert list's answer. *)
Definition identity_sections (me : Identity.Identity) (all : list Identity.Identity)
  (alerts : result (list Identity.Alert) str) : Answer * Answer :=
  let '(mine, note) := match alerts with
                       | Ok l => (about (Identity.id me) l, None)
                       | Err _ => ([], Some ALERTS_UNREAD)
                       end in
  (Rows (mkRow Idryx (Identity.id me) label.IDENTITY (identity_value me) :: map alert_row mine) note,
   one (mkRow Idryx (Identity.id me ++ #"#blast_radius") label.BLAST_RADIUS (blast_radius me all (length mine)))).
Definition identity (agent : str) : program (Answer * Answer) :=
  do x <- ListIdentities;
  match x with
  | Err e => Ret (Unavailable e, Unavailable e)
  | Ok all =>
      match List.find (fun i => str_eqb (Identity.id i) agent) all with
      | None => Ret (nothing, nothing)
      | Some me => do alerts <- ListAlerts; Ret (identity_sections me all alerts)
      end
  end.

Definition policy_status : program Answer :=
  do x <- EnforcementStatus;
  Ret (match x with
       | Err e => Unavailable e
       | Ok s => one (mkRow Wardryx (policy_version s) label.POLICY (s_wire s))
       end).
Definition decisions (run_id : str) : program Answer :=
  do x <- ListApprovals;
  Ret (match x with
       | Err e => Unavailable e
       | Ok l => Rows (map (fun a => mkRow Wardryx (approval_id a) label.DECISION (a_wire a))
                         (List.filter (fun a => str_eqb (a_run_id a) run_id) l)) None
       end).
Definition rulings (event_type : str) : program Answer :=
  do x <- MemoryRecall (#"decision about " ++ event_type) RULINGS_LIMIT #"hybrid";
  Ret (match x with
       | Err e => Unavailable e
       | Ok l => Rows (map (fun m => mkRow Engram (m_id m) label.RULING (m_wire m)) l) None
       end).

(** ** The command *)

Definition not_asked (q : Questions) (s : Section_) : option str :=
  snd <$> List.find (fun p => bool_decide (p.1 = s)) (q_not_asked q).
(** A question about the run, unless it is one that is not asked. *)
Definition of_run (q : Questions) (s : Section_) (ask : str -> program Answer) : program Answer :=
  match not_asked q s with
  | Some reason => Ret (NotAsked reason)
  | None => match q_run_id q with Some run_id => ask run_id | None => Ret (NotAsked NO_RUN) end
  end.
Definition of_agent (q : Questions) : program (Answer * Answer) :=
  match q_agent q with
  | Some agent => identity agent
  | None => Ret (NotAsked (default FILED_UNDER_A_KEY (not_asked q Identity)),
                 NotAsked (default FILED_UNDER_A_KEY (not_asked q BlastRadius)))
  end.

(** What opening the store answered, and the table each query found. *)
Record Reads : Type := mkReads
  { opened : result unit str; by_id : result (list Store.Row) str; by_run : result (list Store.Row) str;
    by_type : result (list Store.Row) str }.
Definition start_of (incident_id : str) (state : Feed.AppState) (rd : Reads) : result Store.Row CaseError :=
  let? event_id := event_id_of incident_id in
  match Feed.store_dir state with
  | None => Err (NoStore #"the console has no event store on this box")
  | Some _ =>
      let? _ := map_err NoStore (opened rd) in
      let? t := map_err NoStore (by_id rd) in
      match Store.event_by_id event_id t with
      | Some e => Ok e
      | None => Err (NotFound event_id)
      end
  end.
Definition head_of (incident_id : str) (q : Questions) : Head :=
  mkHead incident_id (q_subject q) (q_claimed_agent q) (q_run_id q).
Definition case_file (incident_id : str) (state : Feed.AppState) (rd : Reads) : program (result CaseFile CaseError) :=
  match start_of incident_id state rd with
  | Err e => Ret (Err e)
  | Ok event =>
      let q := questions_for (stored event) in
      let answers := store_sections event q (by_run rd) (by_type rd) in
      do! spent <- of_run q Spend spend;
      do! who <- of_agent q;
      do! policy <- policy_status;
      do! decided <- of_run q Decisions decisions;
      do! ruled <- rulings (q_event_type q);
      Ret (Ok (assemble (head_of incident_id q)
                 (answers ++ [(Spend, spent); (Case.Identity, who.1); (BlastRadius, who.2); (SPolicy, policy);
                              (Decisions, decided); (PriorRulings, ruled)])))
  end.
End Gather.

(** ** What a case rests on *)

Section Rests.
Context {PR : Primitives} {JT : JsonText} {CA : Store.Calendar} {CW : CaseWire}.

(** What the event allows to be asked. *)
Definition allowed (q : Questions) (o : op) : Prop :=
  match o with
  | MoneyRuns | ListApprovals => is_Some (q_run_id q)
  | ListIdentities | ListAlerts => is_Some (q_agent q)
  | EnforcementStatus => True
  | MemoryRecall query limit mode => query = #"decision about " ++ q_event_type q /\ limit = 5 /\ mode = #"hybrid"
  end.
Definition asked_of (e : event) : op := match e with Asked o _ => o end.

(** What a row of each section is about, given what the planes answered. *)
Definition bears_on (event : Store.Row) (rd : Reads) (tr : list CaseFile.event) (s : Section_) (row : Row) : Prop :=
  let q := questions_for (stored event) in
  match s with
  | SEvent => row = bus_row label.EVENT event
  | RunTimeline => exists t r, by_run rd = Ok t /\ r ∈ t /\ Store.run_id r = q_run_id q /\ is_Some (q_run_id q) /\ row = bus_row label.TIMELINE r
  | SimilarIncidents => exists t r, by_type rd = Ok t /\ r ∈ t /\ Store.type_ r = Store.type_ event /\ Store.id r < Store.id event
                          /\ row = bus_row (similar_label (q_subject q) r) r
  | Spend => exists l r, Asked MoneyRuns (Ok l) ∈ tr /\ r ∈ l /\ q_run_id q = Some (r_run_id r)
               /\ row = mkRow Tokenfuse (r_run_id r) label.SPEND (r_wire r)
  | Case.Identity =>
      (exists l i, Asked ListIdentities (Ok l) ∈ tr /\ i ∈ l /\ q_agent q = Some (Identity.id i)
         /\ row = mkRow Idryx (Identity.id i) label.IDENTITY (identity_value i))
      \/ (exists l a, Asked ListAlerts (Ok l) ∈ tr /\ a ∈ l /\ q_agent q = Some (Identity.identity a) /\ row = alert_row a)
  | BlastRadius => exists l i n, Asked ListIdentities (Ok l) ∈ tr /\ i ∈ l /\ q_agent q = Some (Identity.id i)
                     /\ row = mkRow Idryx (Identity.id i ++ #"#blast_radius") label.BLAST_RADIUS (blast_radius i l n)
  | SPolicy => exists st, Asked EnforcementStatus (Ok st) ∈ tr /\ row = mkRow Wardryx (policy_version st) label.POLICY (s_wire st)
  | Decisions => exists l a, Asked ListApprovals (Ok l) ∈ tr /\ a ∈ l /\ q_run_id q = Some (a_run_id a)
                   /\ row = mkRow Wardryx (approval_id a) label.DECISION (a_wire a)
  | PriorRulings => exists query n mode l m, Asked (MemoryRecall query n mode) (Ok l) ∈ tr /\ m ∈ l
                      /\ row = mkRow Engram (m_id m) label.RULING (m_wire m)
  end.
Definition rests (event : Store.Row) (rd : Reads) (tr : list CaseFile.event) (s : Section_) (a : Answer) : Prop :=
  match a with Rows rows _ => Forall (bears_on event rd tr s) rows | _ => True end.

Lemma bears_on_more event rd tr tr' s row : tr `prefix_of` tr' -> bears_on event rd tr s row -> bears_on event rd tr' s row.
Proof.
  intros [k ->]. assert (Hm : forall e, e ∈ tr -> e ∈ tr ++ k) by (intros; apply elem_of_app; by left).
  destruct s; simpl; try done; naive_solver.
Qed.
Lemma rests_more event rd tr tr' s a : tr `prefix_of` tr' -> rests event rd tr s a -> rests event rd tr' s a.
Proof. destruct a; try done. simpl. intros Hp H. eapply Forall_impl; [exact H|]. intros. by eapply bears_on_more. Qed.
Lemma mono event rd tr k s a : rests event rd tr s a -> rests event rd (tr ++ k) s a.
Proof. apply rests_more. by apply prefix_app_r. Qed.

Lemma Forall_map_in {A B} (P : B -> Prop) (f : A -> B) l : (forall x, x ∈ l -> P (f x)) -> Forall P (map f l).
Proof. intros H. apply Forall_map, Forall_forall, H. Qed.
Lemma in_firstn {A} n (l : list A) x : x ∈ firstn n l -> x ∈ l.
Proof. rewrite <- (firstn_skipn n l) at 2. intros H. apply elem_of_app. by left. Qed.

Lemma timeline_rests event rd tr : rests event rd tr RunTimeline (timeline (q_run_id (questions_for (stored event))) (by_run rd)).
Proof.
  unfold timeline, rests. destruct (q_run_id _) as [run|] eqn:Er; [|done]. destruct (by_run rd) as [t|e] eqn:Et; [|done].
  apply Forall_map_in. intros r Hr%elem_of_isort%in_firstn%in_filter. destruct Hr as [Hr Hb%bool_decide_eq_true].
  unfold bears_on. rewrite Er. exists t, r. by split_and!.
Qed.
Lemma similar_rests event rd tr : rests event rd tr SimilarIncidents (similar event (q_subject (questions_for (stored event))) (by_type rd)).
Proof.
  unfold similar, rests. destruct (by_type rd) as [t|e] eqn:Et; [|done]. apply Forall_map_in.
  intros r Hr%in_firstn%in_filter. destruct Hr as [Hr Hb]. apply andb_true_iff in Hb as [Ht%str_eqb_eq Hi]. b2p.
  exists t, r. unfold Store.newest_first in Hr. rewrite list_elem_of_In, <- in_rev, <- list_elem_of_In in Hr. done.
Qed.

Section Program.
Context (event : Store.Row) (rd : Reads).
Abbreviation q := (questions_for (stored event)).
Abbreviation R := (rests event rd).
(** The questions so far are allowed. *)
Definition fair (tr : list CaseFile.event) : Prop := Forall (fun e => allowed q (asked_of e)) tr.
Lemma fair_snoc tr o x : fair tr -> allowed q o -> fair (tr ++ [Asked o x]).
Proof. intros H Ho. apply Forall_app. split; [exact H|by repeat constructor]. Qed.

Lemma not_asked_run s reason : not_asked q s = Some reason -> s = Spend \/ s = Decisions -> q_run_id q = None.
Proof.
  unfold not_asked. destruct (List.find _ _) as [[s' r']|] eqn:E; [|done]. intros _ Hs. apply List.find_some in E as [Hin Hb].
  apply bool_decide_eq_true in Hb. simpl in Hb. subst s'. unfold questions_for in *. simpl in *.
  apply in_app_iff in Hin as [Hin|Hin].
  - destruct (starts_with _ _); simpl in Hin; destruct Hs as [-> | ->]; naive_solver.
  - destruct (match Store.run_id event with Some r => _ | None => None end); [done|done].
Qed.

Lemma of_run_rests tr s ask : fair tr ->
  (forall run, q_run_id q = Some run -> ran tr (ask run) (fun a tr' => fair tr' /\ R tr' s a)) ->
  ran tr (of_run q s ask) (fun a tr' => fair tr' /\ R tr' s a).
Proof. intros Hf H. unfold of_run. destruct (not_asked q s); [done|]. destruct (q_run_id q) as [run|]; [by apply H|done]. Qed.

Lemma spend_rests tr run : fair tr -> q_run_id q = Some run -> ran tr (spend run) (fun a tr' => fair tr' /\ R tr' Spend a).
Proof.
  intros Hf Hr. unfold spend. cbn [wp]; unfold event_of. split; [done|]. intros _ x. change (result (list RunRow) str) in x. split; [apply fair_snoc; [done|by eexists]|].
  destruct x as [l|e]; [|done]. destruct (List.find _ l) as [r|] eqn:E; [|by constructor].
  apply List.find_some in E as [Hin Hb%str_eqb_eq]. constructor; [|constructor]. exists l, r. rewrite Hr, Hb.
  split_and!; [apply elem_of_app; right; by left|by apply list_elem_of_In|done..].
Qed.
Lemma decisions_rests tr run : fair tr -> q_run_id q = Some run -> ran tr (decisions run) (fun a tr' => fair tr' /\ R tr' Decisions a).
Proof.
  intros Hf Hr. unfold decisions. cbn [wp]; unfold event_of. split; [done|]. intros _ x. change (result (list ApprovalRow) str) in x. split; [apply fair_snoc; [done|by eexists]|].
  destruct x as [l|e]; [|done]. apply Forall_map_in. intros a [Ha Hb%str_eqb_eq]%in_filter. exists l, a. rewrite Hr, Hb.
  split_and!; [apply elem_of_app; right; by left|done..].
Qed.
Lemma policy_rests tr : fair tr -> ran tr policy_status (fun a tr' => fair tr' /\ R tr' SPolicy a).
Proof.
  intros Hf. unfold policy_status. cbn [wp]; unfold event_of. split; [done|]. intros _ x. change (result StatusRow str) in x. split; [by apply fair_snoc|].
  destruct x as [st|e]; [|done]. constructor; [|constructor]. exists st. split; [apply elem_of_app; right; by left|done].
Qed.
Lemma rulings_rest tr : fair tr -> ran tr (rulings (q_event_type q)) (fun a tr' => fair tr' /\ R tr' PriorRulings a).
Proof.
  intros Hf. unfold rulings. cbn [wp]; unfold event_of. split; [done|]. intros _ x. change (result (list MemoryRow) str) in x. split; [by apply fair_snoc|].
  destruct x as [l|e]; [|done]. apply Forall_map_in. intros m Hm. do 3 eexists. exists l, m.
  split_and!; [apply elem_of_app; right; by left|done..].
Qed.
Lemma agent_rests tr : fair tr ->
  ran tr (of_agent q) (fun aa tr' => fair tr' /\ R tr' Case.Identity aa.1 /\ R tr' BlastRadius aa.2).
Proof.
  intros Hf. unfold of_agent. destruct (q_agent q) as [agent|] eqn:Ea; [|done]. unfold identity. cbn [wp]; unfold event_of. split; [done|].
  assert (Hal : is_Some (q_agent q)) by (by rewrite Ea; eexists).
  intros _ x. change (result (list Identity.Identity) str) in x. destruct x as [all|e]; [|by split; [apply fair_snoc|]]. set (tr1 := tr ++ _).
  assert (Hf1 : fair tr1) by by apply fair_snoc.
  destruct (List.find _ all) as [me|] eqn:E; [|by split; [|split; constructor]].
  apply List.find_some in E as [Hin%list_elem_of_In Hb%str_eqb_eq]. cbn [wp]; unfold event_of. split; [done|]. intros _ x.
  change (result (list Identity.Alert) str) in x. split; [by apply fair_snoc|].
  assert (H1 : @Asked ListIdentities (Ok all) ∈ tr1 ++ [Asked ListAlerts x])
    by (apply elem_of_app; left; apply elem_of_app; right; by left).
  assert (Hme : q_agent q = Some (Identity.id me)) by by rewrite Ea, Hb.
  destruct x as [l|e]; simpl; (split; [|constructor; [exists all, me; eexists; done|constructor]]);
    (constructor; [left; by exists all, me|]); [|constructor].
  apply Forall_map_in. intros a [Ha Hi%str_eqb_eq]%in_filter. right. exists l, a. rewrite Hi.
  split_and!; [apply elem_of_app; right; by left|done..].
Qed.
End Program.

(** The facts of a case are the rows of its answers. *)
Lemma facts_of_answers (P : Section_ -> Row -> Prop) head answers :
  Forall (fun sa => match sa.2 with Rows rows _ => Forall (P sa.1) rows | _ => True end) answers ->
  Forall (fun f => exists row, P (f_section f) row /\ f = fact_of (f_section f) row) (facts (assemble head answers)).
Proof.
  intros H. unfold assemble. cbn [facts with_digest]. rewrite map_map. apply Forall_concat, Forall_map_in. intros s _.
  unfold answer_for. destruct (List.find _ answers) as [[s' a]|] eqn:E; [|constructor].
  apply List.find_some in E as [Hin%list_elem_of_In Hb%bool_decide_eq_true]. simpl in Hb. subst s'.
  rewrite Forall_forall in H. apply H in Hin. simpl in Hin. destruct a as [[|r rows] note| |]; try constructor.
  - exists r. simpl. split; [by apply Forall_inv in Hin|done].
  - apply Forall_inv_tail in Hin. apply Forall_map_in. intros x Hx. exists x. rewrite Forall_forall in Hin. split; [by apply Hin|done].
Qed.

Lemma then_fair {A B} event tr (p : program A) (k : A -> program B) (I : list CaseFile.event -> A -> Prop) post :
  ran tr p (fun a tr' => fair event tr' /\ I tr' a) ->
  (forall a tr', tr `prefix_of` tr' -> fair event tr' -> I tr' a -> ran tr' (k a) post) -> ran tr (bind p k) post.
Proof.
  intros Hp Hk. apply wp_bind. eapply wp_mono; [apply wp_extends, Hp|]. intros a tr' [[Hf Hi] Hx]. by apply Hk.
Qed.

(** C33: A case is of its incident.  When the event row cannot be had, no plane
    is asked and the answer is the refusal.  Otherwise there is a case whatever
    the planes answer; a plane is asked about the run only when the event names
    one and about an agent only when the incident is filed under one; and every
    fact is a row some plane gave on this incident: of its run, of its agent, of
    its own type and earlier, or recalled for its type. *)
Theorem case_rests_on_its_incident incident_id state rd :
  ran [] (case_file incident_id state rd) (fun r tr =>
    match start_of incident_id state rd with
    | Err e => tr = [] /\ r = Err e
    | Ok event => exists c, r = Ok c
        /\ Forall (fun e => allowed (questions_for (stored event)) (asked_of e)) tr
        /\ Forall (fun f => exists row, bears_on event rd tr (f_section f) row /\ f = fact_of (f_section f) row) (facts c)
    end).
Proof.
  unfold case_file. destruct (start_of incident_id state rd) as [event|e]; [|done].
  eapply then_fair; [apply of_run_rests; [by constructor|]; intros run Hr; apply spend_rests; [by constructor|done]|].
  intros spent tr1 _ Hf1 H1. eapply then_fair; [by apply agent_rests|]. intros [who what] tr2 P2 Hf2 [H2 H2'].
  eapply then_fair; [by apply policy_rests|]. intros policy tr3 P3 Hf3 H3.
  eapply then_fair; [apply of_run_rests; [done|]; intros run Hr; by apply decisions_rests|]. intros decided tr4 P4 Hf4 H4.
  eapply then_fair; [by apply rulings_rest|]. intros ruled tr5 P5 Hf5 H5. cbn [wp]. eexists. split; [done|]. split; [exact Hf5|].
  assert (P45 : tr4 `prefix_of` tr5) by done. assert (P35 : tr3 `prefix_of` tr5) by by etrans.
  assert (P25 : tr2 `prefix_of` tr5) by by etrans. assert (P15 : tr1 `prefix_of` tr5) by by etrans.
  apply facts_of_answers, Forall_app. split.
  - constructor; [by repeat constructor|]. constructor; [apply timeline_rests|]. constructor; [apply similar_rests|constructor].
  - repeat (constructor; [first [exact (rests_more event rd tr1 tr5 _ _ P15 H1)|exact (rests_more event rd tr2 tr5 _ _ P25 H2)
      |exact (rests_more event rd tr2 tr5 _ _ P25 H2')|exact (rests_more event rd tr3 tr5 _ _ P35 H3)
      |exact (rests_more event rd tr4 tr5 _ _ P45 H4)|exact H5]|]). constructor.
Qed.

Lemma earlier_total a b : earlier a b = true \/ earlier b a = true.
Proof. unfold earlier. lia. Qed.
Lemma earlier_trans a b c : earlier a b = true -> earlier b c = true -> earlier a c = true.
Proof. unfold earlier. lia. Qed.

(** A timeline is in the order things happened and within the cap; without
    the note it holds every event of the run. *)
Theorem timeline_is_the_run_in_order t run :
  exists events note, timeline (Some run) (Ok t) = Rows (map (bus_row label.TIMELINE) events) note
    /\ StronglySorted (fun a b => when a < when b \/ when a = when b /\ Store.id a <= Store.id b) events
    /\ (length events <= TIMELINE_CAP)%nat
    /\ (note = None -> Permutation events (List.filter (fun r => bool_decide (Store.run_id r = Some run)) t)).
Proof.
  unfold timeline, Store.events_for_run. set (l := List.filter _ t). do 2 eexists. split; [done|]. split; [|split].
  - pose proof (isort_sorted earlier earlier_total earlier_trans (firstn TIMELINE_CAP l)) as H.
    induction H as [|a es _ IH Ha]; constructor; [exact IH|]. eapply Forall_impl; [exact Ha|].
    intros b Hb. unfold earlier in Hb. simpl. lia.
  - rewrite length_isort, length_firstn. lia.
  - rewrite length_isort. destruct (Nat.leb_spec TIMELINE_CAP (length (firstn TIMELINE_CAP l))) as [|Hl]; [done|]. intros _.
    rewrite length_firstn in Hl. rewrite isort_perm, firstn_all2 by lia. done.
Qed.
End Rests.

(** ** Examples *)

Module Example.
#[local] Instance demo_calendar : Store.Calendar := {| Store.parse_ts_ms := parse_u64; Store.ms_to_rfc3339 := dec |}.
#[local] Instance demo_wire : CaseWire :=
  {| event_value r := VStr (dec (Store.id r)); identity_value i := VStr (Identity.id i); alert_value a := VStr (Identity.summary a) |}.
Definition line (n ts : Z) (source : str) : Store.Row :=
  Store.mkRow n #"prod" (dec ts) source #"web_blocked" #"agent://a/b" (Some #"run-1") None #"v1" [] None None [] None None [] (Some ts).
Definition shown (a : Answer) : list str := match a with Rows rows _ => map row_row_id rows | _ => [] end.

(** The cap is taken in the order of ingestion and the order of time is made
    after it: the earliest event of a long run, which is the incident itself, is
    not in its timeline, and later ones are. *)
Definition long_run : list Store.Row :=
  map (fun n => line (Z.of_nat n) (1000 + Z.of_nat n) #"tokenfuse") (seq 1 200) ++ [line 201 5 #"scopyx"].
Example the_incident_is_cut_from_its_timeline :
  let a := timeline (Some #"run-1") (Ok long_run) in
  length (shown a) = 200%nat /\ existsb (str_eqb #"201") (shown a) = false /\ existsb (str_eqb #"200") (shown a) = true
  /\ when (line 201 5 #"scopyx") < when (line 1 1001 #"tokenfuse").
Proof. by vm_compute. Qed.

Definition who (id : str) (acts : list str) : Identity.Identity :=
  Identity.mkIdentity id #"agent" true [] [] [] [] [] acts
    [Identity.mkPermission #"charge" false true; Identity.mkPermission #"iam" true false] None None 0 0.
Example blast_radius_of_a_root :
  blast_radius (who #"a" []) [who #"a" [ #"a"]; who #"c" [ #"a"]; who #"b" [ #"x"; #"a"]; who #"d" [ #"x"]] 2
  = obj [(#"identity", VStr #"a"); (#"identity_type", VStr #"agent"); (#"privileged", VBool true); (#"permissions", VNum (NInt 2));
         (#"admin_permissions", VNum (NInt 1)); (#"unused_permissions", VNum (NInt 1)); (#"delegated_by", VArr []);
         (#"delegates_to", VArr [VStr #"b"; VStr #"c"]); (#"delegates_to_total", VNum (NInt 2)); (#"alerts", VNum (NInt 2))].
Proof. by vm_compute. Qed.
End Example.
