(* ===== verification/Crypto.v ===== *)
(** * Crypto: the cryptography plane ([crates/connectors/src/qryx.rs],
    [crates/api/src/crypto/commands.rs], [state.rs])

    Every command is one run of the qryx binary that was found when the console
    started: three scans, whose output is read as JSON, and the verification of
    a saved bundle, whose exit status is the verdict.  The run itself, its
    failures and the two raw scans are those of [EvidencePack].

    serde's readers are the class [QryxWire]. *)
From S2P Require Import Prelude Text Json Prog.
From S2P Require Discover Roles.
From S2P Require EvidencePack.
Import EvidencePack (Output, Exited, Signaled, mkOutput, stdout, stderr, success, said, Spawn, Ran,
  QryxError, QSpawn, QCli, QJson, qryx_text, run_bytes, cbom_args, evidence_args).

(** ** The reports *)

Record NcscFinding : Type := mkFinding
  { algorithm : str; asset_type : str; severity : str; occurrences : Z; locations : list str; externally_facing : bool;
    long_lived_data : bool; planned : bool }.
Record NcscDiscovery : Type := mkDiscovery
  { d_verdict : str; coverage_by_source : list (str * Z); total_inventoried : Z; quantum_vulnerable_count : Z;
    migration_plan_exists : bool; migration_plan_note : str; quantum_vulnerable_findings : list NcscFinding }.
Record NcscPriority : Type := mkPriority
  { p_verdict : str; criteria : str; p_count : Z; migrated_count : Z; remaining_count : Z; p_note : str; p_findings : list NcscFinding }.
Record NcscFullMigration : Type := mkMigration { m_verdict : str; m_count : Z; m_findings : list NcscFinding }.
Record NcscReport : Type := mkNcsc
  { n_standard : str; n_generated_at : str; n_root : str; discovery_2028 : NcscDiscovery; highest_priority_2031 : NcscPriority;
    full_migration_2035 : NcscFullMigration }.
Record EvidenceSummary : Type := mkSummary
  { compliant : Z; non_compliant : Z; issues : Z; total : Z; score_pct : Z; by_severity : list (str * Z) }.
Record Signature : Type := mkSignature { alg : str; sig_value : str; public_key : str }.
Record EvidenceReport : Type := mkReport
  { tool : str; version : str; standard : str; generated_at : str; root : str; summary : EvidenceSummary; assets : list value;
    digest : str; signature : option Signature }.
Record VerifyOutcome : Type := mkVerify { verified : bool; message : str }.

Class QryxWire := {
  read_ncsc : list Z -> result NcscReport str;
  read_cbom : list Z -> result value str;
  read_evidence : list Z -> result EvidenceReport str;
}.

(** ** The client ([qryx.rs]) *)

Abbreviation program := EvidencePack.program.
Abbreviation ran tr p post := (EvidencePack.ran tr p post).

(** [run_json]. *)
Definition run_json {T} (read : list Z -> result T str) (bin : str) (args : list str) : program (result T QryxError) :=
  do! r <- run_bytes bin args; Ret (let? b := r in map_err QJson (read b)).
Definition verify_answer (bin : str) (x : result Output str) : result VerifyOutcome QryxError :=
  let? o := map_err (QSpawn bin) x in
  let printed := trim (from_utf8_lossy (stdout o)) in
  Ok (mkVerify (success o) (if bool_decide (printed = []) then said o else printed)).
Definition verify_evidence (bin file : str) : program (result VerifyOutcome QryxError) :=
  Do (Spawn bin [ #"verify-evidence"; file]) (fun x => Ret (verify_answer bin x)).

Section Client.
Context {QW : QryxWire}.
Definition ncsc_args (path : str) : list str := [ #"scan"; #"--format"; #"ncsc"; path].
Definition scan_ncsc (bin path : str) : program (result NcscReport QryxError) := run_json read_ncsc bin (ncsc_args path).
Definition scan_cbom (bin path : str) : program (result value QryxError) := run_json read_cbom bin (cbom_args path).
Definition scan_evidence (bin path : str) (sign_key : option str) : program (result EvidenceReport QryxError) :=
  run_json read_evidence bin (evidence_args path sign_key).
Definition agents_evidence (bin path : str) : program (result EvidenceReport QryxError) :=
  run_json read_evidence bin [ #"agents"; #"--format"; #"evidence"; path].
End Client.

(** ** The plane's state ([state.rs]) and its commands ([commands.rs]) *)

Record CryptoClient : Type := mkCrypto { qryx_bin : str; default_target : str }.
Inductive CryptoInner : Type := Bootstrapping | NoEnvironment | Ready (client : CryptoClient).
Definition bootstrap (w : Discover.World) : CryptoInner :=
  match Discover.Crypto.discover_crypto w with
  | Some resolved => Ready (mkCrypto (Discover.Crypto.qryx_bin resolved) (Discover.Crypto.default_target resolved))
  | None => NoEnvironment
  end.

Inductive CryptoError : Type := EBootstrapping | ENoEnvironment | EQryx (message : str).
Definition crypto_error (e : QryxError) : CryptoError := EQryx (qryx_text e).
Definition ready_client (inner : CryptoInner) : result CryptoClient CryptoError :=
  match inner with Ready c => Ok c | Bootstrapping => Err EBootstrapping | NoEnvironment => Err ENoEnvironment end.

Inductive CryptoStatusDto : Type := SBootstrapping | SNoEnvironment | SReady (qryx_bin default_target : str).
Definition status_dto (inner : CryptoInner) : CryptoStatusDto :=
  match inner with
  | Bootstrapping => SBootstrapping
  | NoEnvironment => SNoEnvironment
  | Ready c => SReady (qryx_bin c) (default_target c)
  end.
Definition crypto_status (inner : CryptoInner) : CryptoStatusDto := status_dto inner.

Section Commands.
Context {QW : QryxWire}.
(** [joined]: what the task that ran it is reported as, when it did not end. *)
Definition run_blocking {T} (joined : option str) (p : program (result T QryxError)) : program (result T CryptoError) :=
  do! r <- p;
  Ret (match joined with
       | Some e => Err (EQryx (#"crypto scan task failed to run: " ++ e))
       | None => map_err crypto_error r
       end).
Definition with_qryx {T} (joined : option str) (inner : CryptoInner) (call : str -> program (result T QryxError))
  : program (result T CryptoError) :=
  match ready_client inner with Err e => Ret (Err e) | Ok c => run_blocking joined (call (qryx_bin c)) end.

Definition crypto_scan_ncsc (joined : option str) (path : str) (inner : CryptoInner) : program (result NcscReport CryptoError) :=
  with_qryx joined inner (fun bin => scan_ncsc bin path).
Definition crypto_scan_cbom (joined : option str) (path : str) (inner : CryptoInner) : program (result value CryptoError) :=
  with_qryx joined inner (fun bin => scan_cbom bin path).
Definition crypto_scan_evidence (joined : option str) (path : str) (sign_key : option str) (inner : CryptoInner)
  : program (result EvidenceReport CryptoError) :=
  with_qryx joined inner (fun bin => scan_evidence bin path sign_key).
Definition crypto_verify_evidence (joined : option str) (file : str) (inner : CryptoInner)
  : program (result VerifyOutcome CryptoError) :=
  with_qryx joined inner (fun bin => verify_evidence bin file).

(** ** What the plane runs *)

(** A report is what one run printed: a scan answers only with what the
    console's own binary printed in one run that ended well, read as the report;
    a panel without a binary runs nothing. *)
Theorem report_is_what_one_run_printed {T} (read : list Z -> result T str) joined inner args :
  ran [] (with_qryx joined inner (fun bin => run_json read bin args)) (fun r tr =>
    match inner with
    | Ready c => exists x, tr = [Ran (qryx_bin c) args x]
        /\ forall report, r = Ok report <-> joined = None /\ exists o, x = Ok o /\ success o = true /\ read (stdout o) = Ok report
    | _ => tr = [] /\ exists e, r = Err e
    end).
Proof.
  unfold with_qryx. destruct inner as [| |c]; [simpl; eauto..|]. cbn [ready_client run_blocking run_json run_bytes bind wp EvidencePack.event_of app].
  split; [done|]. intros _ x. change (result Output str) in x. exists x. split; [done|]. intros report.
  destruct joined as [e|]; [split; [done|by intros [? _]]|].
  destruct x as [o|e]; [|split; [done|by intros (_ & o & ? & _)]]. unfold EvidencePack.qryx_answer. cbn [map_err rbind].
  destruct (success o) eqn:Es; cbn [map_err rbind].
  - destruct (read (stdout o)) as [t|e] eqn:Er; cbn [map_err].
    + split; [intros [= <-]; split; [done|by exists o]|]. intros (_ & o' & [= <-] & _ & E). congruence.
    + split; [done|]. intros (_ & o' & [= <-] & _ & E). congruence.
  - split; [done|]. intros (_ & o' & [= <-] & E & _). congruence.
Qed.

(** A bundle is reported verified exactly when the run over that file ended
    with status zero. *)
Theorem verified_is_the_exit_status joined file inner :
  ran [] (crypto_verify_evidence joined file inner) (fun r tr => forall v, r = Ok v ->
    exists c o, inner = Ready c /\ tr = [Ran (qryx_bin c) [ #"verify-evidence"; file] (Ok o)]
      /\ (verified v = true <-> EvidencePack.status o = Exited 0)).
Proof.
  unfold crypto_verify_evidence, with_qryx. destruct inner as [| |c]; try done.
  cbn [ready_client run_blocking verify_evidence bind wp EvidencePack.event_of app]. split; [done|]. intros _ x v.
  change (result Output str) in x. destruct joined; [done|]. destruct x as [o|e]; [|done]. unfold verify_answer. cbn [map_err rbind].
  intros [= <-]. exists c, o. split_and!; try done. simpl. unfold success. destruct (EvidencePack.status o) as [n|n b]; [|done].
  rewrite Z.eqb_eq. split; [by intros ->|by intros [= ->]].
Qed.
End Commands.

(** ** Examples *)

Module Example.
#[local] Instance demo : QryxWire :=
  {| read_ncsc _ := Err #"missing field `standard`"; read_cbom _ := Ok VNull; read_evidence _ := Err #"missing field `tool`" |}.
Definition panel : CryptoInner := Ready (mkCrypto #"/home/o/.taipan/bin/qryx" #"/home/o").
Fixpoint spawned {A} (p : program A) : list (str * list str) :=
  match p with
  | Ret _ => []
  | Do o k => match o as o return (EvidencePack.resp o -> program A) -> list (str * list str) with
              | Spawn bin args => fun _ => [(bin, args)]
              | _ => fun _ => []
              end k
  end.

(** The bundle of this panel is said to be always unsigned: the command
    signs with whatever key file its caller names, and a viewer may call it. *)
Example a_viewer_chooses_the_signing_key :
  Roles.required_role #"crypto_scan_evidence" = Roles.Viewer
  /\ spawned (crypto_scan_evidence None #"/srv" (Some #"/etc/keys/approver.pem") panel)
     = [(#"/home/o/.taipan/bin/qryx", [ #"scan"; #"--format"; #"evidence"; #"--sign-key"; #"/etc/keys/approver.pem"; #"/srv"])].
Proof. by vm_compute. Qed.

(** A run that never checked the file reads as a bundle that failed. *)
Example a_crash_reads_as_not_verified :
  verify_answer #"qryx" (Ok (mkOutput (Signaled 9 false) [] [])) = Ok (mkVerify false []).
Proof. by vm_compute. Qed.
End Example.
