(* ===== verification/Money.v ===== *)
(** * Money: what the money plane shows, and how it is reached
    ([crates/api/src/money/commands.rs], [units.rs], [state.rs], and the reads
    of [crates/connectors/src/cloud_rest.rs])

    The plane finds a Cloud, pairs a device of its own with it and then reads
    it: totals, runs with their budgets, incidents, savings, owners, a period's
    spend, and every unit against its monthly cap.  A read that an older Cloud
    does not have is told apart from an empty answer, and a budget map that
    could not be read from one that holds nothing.  The changes it makes are in
    [Cloud]; where it looks for its Cloud is in [Discover].

    Reads that the source sends at once are sent in turn: they do not depend on
    each other.  serde's readers are the class [MoneyWire]. *)
From S2P Require Import Prelude Text Json Signing Prog Http Effects Cloud Double.
From S2P Require Discover Gateways.

(** ** What the Cloud answers ([cloud_rest.rs]) *)

Record PiiKind : Type := mkPii { pii_kind : str; pii_count : Z }.
Record Summary : Type := mkSummary
  { s_spent : Z; s_calls : Z; s_runs : Z; s_pii_calls : option Z; s_pii_kinds : option (list PiiKind) }.
Record RunModel : Type := mkModel { m_model : str; m_calls : Z; m_spent : Z }.
Record RunAgg : Type := mkRun
  { run_id : str; model : str; agent_id : str; unit_ : str; owner : str; spent_microusd : Z; calls : Z; cache_hits : Z; steps : Z;
    last_seen_millis : Z; killed : bool; site : option str; blocked : option Z; last_decision : option str;
    last_decision_millis : option Z; fallback_calls : option Z; basis_unreported_calls : option Z; identity_warned : option Z;
    last_identity_reason : option str; models : option (list RunModel); model_switches : option Z; pii_calls : option Z }.
Inductive Severity : Type := Info | Low | Medium | High | Critical.
Record Incident : Type := mkIncident
  { i_id : str; i_org : str; i_run_id : option str; i_agent_id : option str; i_kind : str; i_severity : Severity;
    i_first_seen : Z; i_last_seen : Z; i_occurrences : Z; i_acknowledged : bool; i_last_notified : Z; i_source : option str;
    i_summary : option str }.
Record SavingsSummary : Type := mkSavings
  { v_blocked : Z; v_cache : Z; v_router : Z; v_breaks : Z; v_total : Z }.
Record OwnerAgg : Type := mkOwner
  { o_owner : str; o_spent : Z; o_calls : Z; o_runs : Z; o_agents : Z; o_last_seen : Z; o_tool_calls : Z }.
Record Alert : Type := mkAlert { al_run_id : str; al_spent : Z; budget_micros : Z; al_fraction : f64; al_killed : bool }.
Record UnitAgg : Type := mkUnit
  { u_unit : str; u_spent : Z; u_calls : Z; u_runs : Z; u_last_seen : Z; u_tool_calls : Z; u_month : str;
    month_spent_microusd : Z; u_month_calls : Z }.
Record AgentWindowSpend : Type := mkAgentSpend { aw_agent : str; aw_spent : Z; aw_calls : Z; aw_blocked : Z }.
Record WindowSpend : Type := mkWindow
  { days_requested : Z; days_covered : Z; from_day : option Z; w_spent : Z; w_calls : Z; w_blocked : Z; w_agents : list AgentWindowSpend }.

(** [lenient]: a field that cannot be read is one that is not known. *)
Definition lenient {T} (read : value -> option T) (field : option value) : option T := field ≫= read.

(** [rfc3339_millis] is the calendar of [Gateways.millis_to_iso]. *)
Class MoneyWire := {
  read_summary : list Z -> result Summary str;
  read_run_rows : list Z -> result (list RunAgg) str;
  read_incidents : list Z -> result (list Incident) str;
  read_savings : list Z -> result SavingsSummary str;
  read_owners : list Z -> result (list OwnerAgg) str;
  read_alerts : list Z -> result (list Alert) str;
  read_budgets : list Z -> result (gmap str Z) str;
  read_unit_budgets : list Z -> result (gmap str Z) str;
  read_units : list Z -> result (list UnitAgg) str;
  read_spend : list Z -> result WindowSpend str;
  rfc3339_millis : Z -> option str;
}.

(** ** What is shown *)

Definition usd : Z -> double := Gateways.micros_to_usd.
Section Shown.
Context {MW : MoneyWire}.
Definition iso : Z -> str := Gateways.millis_to_iso rfc3339_millis.

Record OverviewDto : Type := mkOverview
  { total_spent_usd : double; total_calls : Z; total_runs : Z; active_runs : Z; killed_runs : Z; open_incidents : Z;
    total_incidents : Z; total_saved_usd : double; ov_pii_calls : option Z; ov_pii_kinds : option (list PiiKind) }.
Definition count {A} (p : A -> bool) (l : list A) : Z := Z.of_nat (length (List.filter p l)).
Definition build (s : Summary) (runs : list RunAgg) (incidents : list Incident) (savings : SavingsSummary) : OverviewDto :=
  let dead := count killed runs in
  mkOverview (usd (s_spent s)) (s_calls s) (s_runs s) (Z.max 0 (Z.of_nat (length runs) - dead)) dead
    (count (fun i => negb (i_acknowledged i)) incidents) (Z.of_nat (length incidents)) (usd (v_total savings)) (s_pii_calls s)
    (s_pii_kinds s).

Record RunModelDto : Type := mkModelDto { d_model : str; d_calls : Z; d_spent_usd : double }.
Record RunDto : Type := mkRunDto
  { r_run_id : str; r_unit : str; r_owner : str; r_model : str; r_agent_id : str; r_spent_usd : double; budget_usd : option double;
    budgets_read : bool; r_calls : Z; r_cache_hits : Z; r_steps : Z; r_last_seen : str; r_killed : bool; r_site : option str;
    r_blocked : option Z; r_last_decision : option str; last_decision_at : option str; r_fallback_calls : option Z;
    r_basis_unreported_calls : option Z; r_identity_warned : option Z; r_last_identity_reason : option str;
    r_models : option (list RunModelDto); r_model_switches : option Z; r_pii_calls : option Z }.
Definition model_dto (m : RunModel) : RunModelDto := mkModelDto (m_model m) (m_calls m) (usd (m_spent m)).
Definition run_dto (budgets : gmap str Z) (read : bool) (r : RunAgg) : RunDto :=
  mkRunDto (run_id r) (unit_ r) (owner r) (model r) (agent_id r) (usd (spent_microusd r)) (usd <$> budgets !! run_id r) read (calls r)
    (cache_hits r) (steps r) (iso (last_seen_millis r)) (killed r) (site r) (blocked r) (last_decision r)
    (let! m := last_decision_millis r in if 0 <? m then Some (iso m) else None) (fallback_calls r) (basis_unreported_calls r)
    (identity_warned r) (last_identity_reason r) (map model_dto <$> models r) (model_switches r) (pii_calls r).

Definition severity_str (s : Severity) : str :=
  match s with Info => #"info" | Low => #"low" | Medium => #"medium" | High => #"high" | Critical => #"critical" end.
Record IncidentDto : Type := mkIncidentDto
  { n_id : str; n_run_id : option str; n_agent_id : option str; n_kind : str; n_severity : str; n_first_seen : str; n_last_seen : str;
    n_occurrences : Z; n_acknowledged : bool }.
Definition incident_dto (i : Incident) : IncidentDto :=
  mkIncidentDto (i_id i) (i_run_id i) (i_agent_id i) (i_kind i) (severity_str (i_severity i)) (iso (i_first_seen i)) (iso (i_last_seen i))
    (i_occurrences i) (i_acknowledged i).
Record SavingsDto : Type := mkSavingsDto
  { blocked_spend_usd : double; cache_saved_usd : double; router_saved_usd : double; budget_breaks : Z; saved_usd : double }.
Definition savings_dto (s : SavingsSummary) : SavingsDto :=
  mkSavingsDto (usd (v_blocked s)) (usd (v_cache s)) (usd (v_router s)) (v_breaks s) (usd (v_total s)).
Record OwnerDto : Type := mkOwnerDto
  { w_owner : str; w_spent_usd : double; wo_calls : Z; wo_runs : Z; wo_agents : Z; w_last_seen : str; w_tool_calls : Z }.
Definition owner_dto (o : OwnerAgg) : OwnerDto :=
  mkOwnerDto (o_owner o) (usd (o_spent o)) (o_calls o) (o_runs o) (o_agents o) (iso (o_last_seen o)) (o_tool_calls o).

(** ** The reads *)

Context {PR : Primitives} {JT : JsonText} {CW : CloudWire}.

(** [let client = ready_client(&state).await?]. *)
Definition with_cloud {T} (st : MoneyInner) (k : CloudClient -> program (result T MoneyError)) : program (result T MoneyError) :=
  match ready_client st with Err e => Ret (Err e) | Ok c => k (client c) end.
Definition one_read {T D} (st : MoneyInner) (ask : CloudClient -> program (result T ConnectorError)) (show : T -> D)
  : program (result D MoneyError) :=
  with_cloud st (fun c => do! r <- ask c; Ret (let? t := map_err money_error r in Ok (show t))).

Definition summary (c : CloudClient) := get_json c read_summary #"/v1/summary".
Definition runs (c : CloudClient) := get_json c read_run_rows #"/v1/runs".
Definition incidents (c : CloudClient) := get_json c read_incidents #"/v1/incidents".
Definition savings (c : CloudClient) := get_json c read_savings #"/v1/savings".
Definition owners (c : CloudClient) := get_json c read_owners #"/v1/owners".
Definition alerts (c : CloudClient) := get_json c read_alerts #"/v1/alerts".
Definition budgets (c : CloudClient) := get_json c read_budgets #"/v1/budgets".
Definition unit_budgets (c : CloudClient) := get_json_or_absent c read_unit_budgets #"/v1/unit-budgets".
Definition units (c : CloudClient) := get_json_or_absent c read_units #"/v1/units".
Definition spend_window (c : CloudClient) (days : Z) := get_json_or_absent c read_spend (#"/v1/spend?days=" ++ dec days).

Definition money_incidents (st : MoneyInner) : program (result (list IncidentDto) MoneyError) := one_read st incidents (map incident_dto).
Definition money_savings (st : MoneyInner) : program (result SavingsDto MoneyError) := one_read st savings savings_dto.
Definition money_owners (st : MoneyInner) : program (result (list OwnerDto) MoneyError) := one_read st owners (map owner_dto).
Definition money_spend_window (st : MoneyInner) (days : Z) : program (result (option WindowSpend) MoneyError) :=
  one_read st (fun c => spend_window c days) (fun w => w).

(** [try_join!]: the failures of four reads; [first] says which of them came
    first. *)
Definition failures {A B C D E} (a : result A E) (b : result B E) (c : result C E) (d : result D E) : list E :=
  (match a with Err e => [e] | Ok _ => [] end) ++ (match b with Err e => [e] | Ok _ => [] end)
  ++ (match c with Err e => [e] | Ok _ => [] end) ++ (match d with Err e => [e] | Ok _ => [] end).
Definition money_overview (first : nat) (st : MoneyInner) : program (result OverviewDto MoneyError) :=
  with_cloud st (fun c =>
    do! s <- summary c; do! r <- runs c; do! i <- incidents c; do! v <- savings c;
    let es := failures s r i v in
    let failed e := money_error (nth (Nat.modulo first (length es)) es e) in
    Ret (let? s := map_err failed s in let? r := map_err failed r in let? i := map_err failed i in let? v := map_err failed v in
         Ok (build s r i v))).

(** [collect] into a map: a later entry takes the place of an earlier one. *)
Definition map_of_pairs {V} (l : list (str * V)) : gmap str V := fold_left (fun m kv => <[kv.1 := kv.2]> m) l ∅.
Definition budgets_of_alerts (l : list Alert) : gmap str Z := map_of_pairs (map (fun a => (al_run_id a, budget_micros a)) l).
Definition money_runs (st : MoneyInner) : program (result (list RunDto) MoneyError) :=
  with_cloud st (fun c =>
    do! rs <- runs c;
    do! bs <- budgets c;
    match map_err money_error rs with
    | Err e => Ret (Err e)
    | Ok rs =>
        match bs with
        | Ok m => Ret (Ok (map (run_dto m true) rs))
        | Err _ =>
            do! al <- alerts c;
            Ret (Ok (map (run_dto (match al with Ok l => budgets_of_alerts l | Err _ => ∅ end) false) rs))
        end
    end).

(** ** Every unit against its cap ([units.rs]) *)

Definition NEAR_CAP : double := of_dec (F64 false [8] (-1)).
Inductive UnitCapState : Type := OverCap | NearCap | UnderCap | NoCap | CapUnknown | SpendUnknown.
Record UnitCapDto : Type := mkUnitCap
  { unit_name : str; month_spent_usd : option double; month_calls : option Z; cap_usd : option double; fraction : option double;
    state : UnitCapState; cappable : bool }.
Record UnitCapsDto : Type := mkUnitCaps
  { month : option str; units_read : bool; caps_read : bool; notes : list str; unit_rows : list UnitCapDto }.

Definition state_rank (s : UnitCapState) : Z :=
  match s with OverCap => 0 | NearCap => 1 | SpendUnknown => 2 | UnderCap => 3 | CapUnknown => 4 | NoCap => 5 end.
Definition standing (cap_micros : option Z) (read : bool) (spent_micros : option Z) : UnitCapState * option double :=
  match cap_micros with
  | None => (if read then NoCap else CapUnknown, None)
  | Some cap =>
      if cap <=? 0 then (OverCap, None)
      else match spent_micros with
           | None => (SpendUnknown, None)
           | Some spent =>
               let f := div (of_Z spent) (of_Z cap) in
               (if cap <=? spent then OverCap else if leb NEAR_CAP f then NearCap else UnderCap, Some f)
           end
  end.

Definition by_unit (us : option (list UnitAgg)) : gmap str UnitAgg := map_of_pairs (map (fun u => (u_unit u, u)) (default [] us)).
Definition unit_names (us : option (list UnitAgg)) (caps : option (gmap str Z)) : list str :=
  isort str_leb (elements (dom (by_unit us) ∪ dom (default ∅ caps))).
Definition unit_row (us : option (list UnitAgg)) (caps : option (gmap str Z)) (name : str) : UnitCapDto :=
  let agg := by_unit us !! name in
  let spent := month_spent_microusd <$> agg in
  let cap := caps ≫= lookup name in
  let '(st, f) := standing cap (match caps with Some _ => true | None => false end) spent in
  mkUnitCap name (usd <$> spent) (u_month_calls <$> agg) (usd <$> cap) f st (negb (str_eqb name UNASSIGNED)).
(** The comparison of [sort_by]: [a] may stay before [b]. *)
Definition spent_or_zero (r : UnitCapDto) : double := default zero (month_spent_usd r).
Definition row_before (a b : UnitCapDto) : bool :=
  (state_rank (state a) <? state_rank (state b))
  || (state_rank (state a) =? state_rank (state b))
     && (ltb (spent_or_zero b) (spent_or_zero a)
         || negb (ltb (spent_or_zero a) (spent_or_zero b)) && str_leb (unit_name a) (unit_name b)).
Definition join_unit_caps (us : option (list UnitAgg)) (caps : option (gmap str Z)) : list UnitCapDto :=
  isort row_before (map (unit_row us caps) (unit_names us caps)).

Definition unread (route : str) (e : ConnectorError) : str :=
  #"TokenFuse Cloud did not answer " ++ route ++ #": " ++ connector_error_text e.
Definition NO_UNITS : str := #"This Cloud has no GET /v1/units, so no month spend can be shown.".
Definition NO_UNIT_BUDGETS : str := #"This Cloud has no GET /v1/unit-budgets, so whether a unit has a cap is unknown.".
(** What a read was, and the sentence for one that did not answer. *)
Definition told {T} (absent route : str) (r : result (option T) ConnectorError) : option T * list str :=
  match r with
  | Ok (Some t) => (Some t, [])
  | Ok None => (None, [absent])
  | Err e => (None, [unread route e])
  end.
Definition unit_caps_dto (us : result (option (list UnitAgg)) ConnectorError) (caps : result (option (gmap str Z)) ConnectorError)
  : result UnitCapsDto MoneyError :=
  match us, caps with
  | Err e, Err _ => Err (money_error e)
  | _, _ =>
      let '(u, n1) := told NO_UNITS #"GET /v1/units" us in
      let '(c, n2) := told NO_UNIT_BUDGETS #"GET /v1/unit-budgets" caps in
      Ok (mkUnitCaps (let! l := u in head (List.filter (fun m => negb (bool_decide (m = []))) (map u_month l)))
            (match u with Some _ => true | None => false end) (match c with Some _ => true | None => false end) (n1 ++ n2)
            (join_unit_caps u c))
  end.
Definition money_units (st : MoneyInner) : program (result UnitCapsDto MoneyError) :=
  with_cloud st (fun c => do! us <- units c; do! caps <- unit_budgets c; Ret (unit_caps_dto us caps)).

(** ** Reaching the Cloud ([state.rs]) *)

Definition sanitize_domain (org : str) : str :=
  let s := map (fun c => let lower := to_ascii_lower c in
                         if ascii_alnum lower || (lower =? 46) || (lower =? 45) then lower else 45) (trim org) in
  if bool_decide (s = []) then #"genaryx.local" else s.
Definition operator_principal (user : option str) (org_domain : str) : str :=
  let user := match user with Some u => if bool_decide (trim u = []) then #"operator" else u | None => #"operator" end in
  #"user://" ++ org_domain ++ #"/" ++ user.
(** The variable, and what the binary printed when it ended well. *)
Definition local_hostname (var printed : option str) : str :=
  match var with
  | Some h => if bool_decide (trim h = [])
              then match printed with Some p => if bool_decide (trim p = []) then #"localhost" else trim p | None => #"localhost" end
              else h
  | None => match printed with Some p => if bool_decide (trim p = []) then #"localhost" else trim p | None => #"localhost" end
  end.

(** [built], [generated]: the HTTP client and the device key, or why not. *)
Definition connect (os : str) (built : result Datatypes.unit str) (generated : result Es256Signer str)
  (resolved : Discover.Keyed.ResolvedEnv_keyed) : program (result (CloudClient * str * str) str) :=
  match built, generated with
  | Err e, _ => Ret (Err (connector_error_text (Transport e)))
  | Ok _, Err e => Ret (Err (#"could not generate a device key: " ++ e))
  | Ok _, Ok signer =>
      let bearer := Discover.Keyed.admin_bearer resolved in
      let c := new_client (Discover.Keyed.url resolved) bearer in
      do! paired <- pair os c bearer signer;
      Ret (match paired with
           | Err e => Err (#"device pairing failed: " ++ connector_error_text e)
           | Ok p => Ok (attach_device c (mkDevice (device_id p) (device_token p) signer), sanitize_domain (porg p),
                         label (assurance signer))
           end)
  end.

(** The plane: the environment it was found in, and the client. *)
Record MoneyPlane : Type := mkPlane { found : option (Discover.EnvSource * str); inner : MoneyInner }.
Definition bootstrap (os : str) (w : Discover.World) (printed : option str) (bus : bool) (built : result Datatypes.unit str)
  (generated : result Es256Signer str) (elapsed : bool) : program MoneyPlane :=
  match Discover.Money.discover_money w with
  | None => Ret (mkPlane None NoMoneyEnvironment)
  | Some resolved =>
      let env := Some (Discover.Keyed.source resolved, Discover.Keyed.url resolved) in
      do! r <- connect os built generated resolved;
      Ret (mkPlane env
        (if elapsed then MoneyPairingFailed #"timed out after 10s waiting for the Cloud to respond"
         else match r with
              | Err reason => MoneyPairingFailed reason
              | Ok (c, org_domain, sig_fpr) =>
                  Ready (mkMoneyClient c org_domain (operator_principal (Discover.var w #"USER") org_domain)
                           (local_hostname (Discover.var w #"HOSTNAME") printed) sig_fpr bus)
              end))
  end.

Inductive MoneyStatusDto : Type :=
| SBootstrapping
| SNoEnvironment
| SPairingFailed (env : option (Discover.EnvSource * str)) (reason : str)
| SReady (env : option (Discover.EnvSource * str)) (org_domain : str).
Definition money_status (p : MoneyPlane) : MoneyStatusDto :=
  match inner p with
  | StillBootstrapping => SBootstrapping
  | NoMoneyEnvironment => SNoEnvironment
  | MoneyPairingFailed reason => SPairingFailed (found p) reason
  | Ready c => SReady (found p) (org c)
  end.
End Shown.

(** ** What is shown is what was read *)

Section Reads.
Context {MW : MoneyWire} {PR : Primitives} {JT : JsonText} {CW : CloudWire}.

Definition asks (c : CloudClient) (path : str) : Request := mkRequest #"GET" (base_url c ++ path) (Some (bearer_token c)) [] [].

(** A budget is never guessed.  A table of runs has a row for each run the
    Cloud listed, in its order; a row says that budgets were read exactly when
    the budget map answered, and then its budget is that map's, none when it
    has none.  Otherwise the alerts are asked, and a budget is one they name. *)
Theorem budget_is_read_or_not_claimed st :
  ran [] (money_runs st) (fun r tr => forall rows, r = Ok rows ->
    exists c x y rest l, ready_client st = Ok c
      /\ tr = Sent (asks (client c) #"/v1/runs") x :: Sent (asks (client c) #"/v1/budgets") y :: rest
      /\ parse_response read_run_rows x = Ok l /\ map r_run_id rows = map run_id l
      /\ match parse_response read_budgets y with
         | Ok m => rest = [] /\ Forall2 (fun row run => budgets_read row = true /\ budget_usd row = usd <$> m !! run_id run) rows l
         | Err _ => exists z, rest = [Sent (asks (client c) #"/v1/alerts") z]
             /\ Forall2 (fun row run => budgets_read row = false
                  /\ (budget_usd row <> None -> exists al, parse_response read_alerts z = Ok al
                        /\ budget_usd row = usd <$> budgets_of_alerts al !! run_id run)) rows l
         end).
Proof.
  assert (Hm : forall (P : RunDto -> RunAgg -> Prop) f l, (forall r, P (f r) r) -> Forall2 P (map f l) l).
  { intros P f l H. induction l; simpl; constructor; auto. }
  unfold money_runs, with_cloud. destruct (ready_client st) as [c|e]; [|done].
  unfold runs, budgets, alerts, get_json. cbn [bind wp event_of app]. split; [done|]. intros _ x. split; [done|]. intros _ y.
  destruct (parse_response read_run_rows x) as [l|e] eqn:Ex; [|done]. cbn [map_err].
  destruct (parse_response read_budgets y) as [m|e] eqn:Ey; cbn [bind wp event_of app].
  - intros rows [= <-]. exists c, x, y, [], l. rewrite Ex, Ey. split_and!; try done; [by rewrite map_map|]. by apply Hm.
  - split; [done|]. intros _ z rows [= <-]. exists c, x, y, [Sent (asks (client c) #"/v1/alerts") z], l. rewrite Ex, Ey.
    split_and!; try done; [by rewrite map_map|]. exists z. split; [done|]. apply Hm. intros r. split; [done|].
    destruct (parse_response read_alerts z) as [al|e2]; [by exists al|]. simpl. by rewrite lookup_empty.
Qed.

(** Every sort by a comparison puts what it ranks in the order of the rank. *)
Lemma sinsert_ranked {A} (leb : A -> A -> bool) (rank : A -> Z) x l :
  (forall a b, leb a b = true -> rank a <= rank b) -> (forall a b, leb a b = false -> rank b <= rank a) ->
  StronglySorted (fun a b => rank a <= rank b) l -> StronglySorted (fun a b => rank a <= rank b) (sinsert leb x l).
Proof.
  intros H1 H2. induction 1 as [|y l Hs IH Hy]; simpl; [by repeat constructor|]. destruct (leb x y) eqn:E.
  - constructor; [by constructor|]. apply H1 in E. constructor; [done|]. eapply Forall_impl; [exact Hy|]. simpl. intros. lia.
  - constructor; [exact IH|]. rewrite sinsert_perm. constructor; [by apply H2|exact Hy].
Qed.
Lemma isort_ranked {A} (leb : A -> A -> bool) (rank : A -> Z) l :
  (forall a b, leb a b = true -> rank a <= rank b) -> (forall a b, leb a b = false -> rank b <= rank a) ->
  StronglySorted (fun a b => rank a <= rank b) (isort leb l).
Proof. intros H1 H2. induction l; simpl; [constructor|by apply sinsert_ranked]. Qed.

Lemma map_of_pairs_dom {V} (l : list (str * V)) k : is_Some (map_of_pairs l !! k) <-> k ∈ map fst l.
Proof.
  unfold map_of_pairs. enough (forall m : gmap str V, is_Some (fold_left (fun m kv => <[kv.1 := kv.2]> m) l m !! k)
    <-> is_Some (m !! k) \/ k ∈ map fst l) as -> by (rewrite lookup_empty, is_Some_alt; naive_solver).
  induction l as [|[k' v] l IH]; intros m; simpl; [rewrite elem_of_nil; naive_solver|].
  rewrite IH, lookup_insert_is_Some', elem_of_cons. naive_solver.
Qed.

(** What a state says of a unit's cap and its month. *)
Definition state_means (us : option (list UnitAgg)) (caps : option (gmap str Z)) (r : UnitCapDto) : Prop :=
  let cap := caps ≫= lookup (unit_name r) in
  let spent := month_spent_microusd <$> by_unit us !! unit_name r in
  match state r with
  | NoCap => is_Some caps /\ cap = None
  | CapUnknown => caps = None
  | SpendUnknown => exists c, cap = Some c /\ 0 < c /\ spent = None
  | OverCap => exists c, cap = Some c /\ (c <= 0 \/ exists s, spent = Some s /\ c <= s)
  | NearCap | UnderCap => exists c s, cap = Some c /\ spent = Some s /\ s < c
  end.

(** The section lists every unit that either read knows, once, and no other;
    its state is what the two reads say: no cap only when the caps were read,
    over only at or above the cap, unknown only when it is.  Units over their
    cap come first and those with none last. *)
Theorem units_stand_as_the_reads_say us caps :
  let rows := join_unit_caps us caps in
  NoDup (map unit_name rows)
  /\ (forall n, n ∈ map unit_name rows <-> n ∈ map u_unit (default [] us) \/ is_Some (default ∅ caps !! n))
  /\ Forall (state_means us caps) rows
  /\ Forall (fun r => cappable r = false <-> unit_name r = UNASSIGNED) rows
  /\ StronglySorted (fun a b => state_rank (state a) <= state_rank (state b)) rows.
Proof.
  intros rows. assert (Hp : Permutation rows (map (unit_row us caps) (unit_names us caps))) by apply isort_perm.
  assert (Hname : forall n, unit_name (unit_row us caps n) = n) by (intros n; unfold unit_row; by destruct (standing _ _ _)).
  assert (Hn : Permutation (map unit_name rows) (elements (dom (by_unit us) ∪ dom (default ∅ caps)))).
  { rewrite Hp, map_map, (map_ext _ id Hname), map_id. apply isort_perm. }
  split; [|split; [|split; [|split]]].
  - rewrite Hn. apply NoDup_elements.
  - intros n. rewrite Hn, elem_of_elements, elem_of_union, !elem_of_dom. unfold by_unit. rewrite map_of_pairs_dom, map_map. done.
  - rewrite Hp. apply Forall_map, Forall_true. intros n. unfold state_means. rewrite Hname. unfold unit_row.
    set (cap := caps ≫= lookup n). set (spent := month_spent_microusd <$> _).
    destruct (standing cap _ spent) as [st f] eqn:E. cbn [state]. unfold standing in E.
    destruct cap as [c|] eqn:Ec; [|destruct caps; injection E as <- <-; [by split|done]].
    destruct (Z.leb_spec c 0); [injection E as <- <-; exists c; auto|].
    destruct spent as [s|]; [|injection E as <- <-; by exists c]. injection E as <- <-.
    destruct (Z.leb_spec c s); [exists c; split; [done|right; by exists s]|]. destruct (leb _ _); by exists c, s.
  - rewrite Hp. apply Forall_map, Forall_true. intros n. unfold unit_row. destruct (standing _ _ _). simpl.
    rewrite negb_false_iff, str_eqb_eq. done.
  - apply isort_ranked; unfold row_before; intros a b; lia.
Qed.

(** A read that did not answer is said, and only a section of which neither
    read could be had for a failure is an error. *)
Theorem unread_units_are_told us caps :
  match unit_caps_dto us caps with
  | Err _ => exists e e', us = Err e /\ caps = Err e'
  | Ok d => (units_read d = false -> exists n, n ∈ notes d) /\ (caps_read d = false -> exists n, n ∈ notes d)
            /\ (units_read d = true <-> exists l, us = Ok (Some l)) /\ (caps_read d = true <-> exists m, caps = Ok (Some m))
  end.
Proof.
  destruct us as [[l|]|e], caps as [[m|]|e']; simpl; try (by eauto); split_and!; try done; try (intros _; eexists; by left);
    try (split; [by eauto|done]); try (split; [done|intros [? [=]]]); intros _; eexists; right; by left.
Qed.

Lemma sanitized_char c : let lower := to_ascii_lower c in
  let d := if ascii_alnum lower || (lower =? 46) || (lower =? 45) then lower else 45 in
  ascii_lower d || ascii_digit d || (d =? 46) || (d =? 45) = true.
Proof.
  simpl. destruct (ascii_alnum (to_ascii_lower c) || _ || _) eqn:E; [|done].
  unfold ascii_alnum, to_ascii_lower, ascii_upper, ascii_lower, ascii_digit in *.
  destruct ((65 <=? c) && (c <=? 90)) eqn:Ec; lia.
Qed.
Lemma sanitize_domain_safe s :
  sanitize_domain s <> [] /\ Forall (fun c => ascii_lower c || ascii_digit c || (c =? 46) || (c =? 45) = true) (sanitize_domain s).
Proof.
  unfold sanitize_domain. case_bool_decide as H; [split; [done|by repeat constructor]|]. split; [exact H|].
  apply Forall_map, Forall_true. intros c. apply sanitized_char.
Qed.

(** A plane that is ready was paired: the Cloud it was found with gave this
    process a device, the client signs as that device with the key it sent, and
    the names its journal lines carry are safe and its own. *)
Theorem ready_plane_was_paired os w printed bus built generated elapsed :
  ran [] (bootstrap os w printed bus built generated elapsed) (fun p tr => forall c, inner p = Ready c ->
    exists resolved signer dev, Discover.Money.discover_money w = Some resolved /\ generated = Ok signer /\ elapsed = false
      /\ found p = Some (Discover.Keyed.source resolved, Discover.Keyed.url resolved)
      /\ client c = mkClient (base_url_of (Discover.Keyed.url resolved)) (Discover.Keyed.admin_bearer resolved) (Some dev)
      /\ Cloud.signer dev = signer
      /\ (exists rq x pr, (rq, x) ∈ sent tr /\ parse_response read_pair x = Ok pr /\ did dev = device_id pr
            /\ dtoken dev = device_token pr /\ org c = sanitize_domain (porg pr))
      /\ default_operator c = operator_principal (Discover.var w #"USER") (org c)
      /\ org c <> [] /\ Forall (fun k => ascii_lower k || ascii_digit k || (k =? 46) || (k =? 45) = true) (org c)).
Proof.
  unfold bootstrap. destruct (Discover.Money.discover_money w) as [res|]; [|done]. unfold connect.
  destruct built as [[]|e]; [|cbn; by destruct elapsed]. destruct generated as [signer|e]; [|cbn; by destruct elapsed].
  unfold pair, pair_new. cbn [bind wp event_of app]. split; [done|]. intros _ x.
  destruct (parse_response read_pair_new x) as [issued|e]; [|cbn; by destruct elapsed].
  destruct (public_key_b64 signer) as [k|e]; [|cbn; by destruct elapsed]. cbn [bind wp event_of app]. split; [done|]. intros _ y c.
  destruct elapsed; [done|]. destruct (parse_response read_pair y) as [pr|e] eqn:Ey; [|done]. cbn [inner]. intros [= <-].
  exists res, signer, (mkDevice (device_id pr) (device_token pr) signer). cbn [client org default_operator found].
  split_and!; try done; try apply sanitize_domain_safe. do 2 eexists. exists pr. split_and!; try done.
  apply list_elem_of_In. right. left. done.
Qed.
End Reads.

(** ** Examples *)

Module Example.
Definition unit_of (name : str) (spent : Z) : UnitAgg := mkUnit name 0 0 0 0 0 #"2026-10" spent 3.
Definition shown (us : option (list UnitAgg)) (caps : option (gmap str Z)) : list (str * UnitCapState) :=
  map (fun r => (unit_name r, state r)) (join_unit_caps us caps).
Example units_in_their_order :
  shown (Some [unit_of #"calm" 10; unit_of #"near" 80; unit_of #"over" 100; unit_of #"free" 7; unit_of #"unassigned" 9])
    (Some (<[ #"calm" := 100]> (<[ #"near" := 100]> (<[ #"over" := 100]> (<[ #"zero" := 0]> {[ #"idle" := 50]})))))
  = [(#"over", OverCap); (#"zero", OverCap); (#"near", NearCap); (#"idle", SpendUnknown); (#"calm", UnderCap);
     (#"unassigned", NoCap); (#"free", NoCap)].
Proof. by vm_compute. Qed.
Example caps_that_were_not_read : shown (Some [unit_of #"a" 10]) None = [(#"a", CapUnknown)].
Proof. by vm_compute. Qed.

(** A name with no ASCII in it is not replaced: each character of it becomes a
    dash. *)
Example a_foreign_name_is_dashes : sanitize_domain [1086; 1088; 1075] = #"---" /\ sanitize_domain #"  " = #"genaryx.local".
Proof. by vm_compute. Qed.
End Example.
